(* ===== verification/_CoqProject ===== *)
-Q . S2P
Prelude.v
Api.v
Clock.v
ApiAlpha.v
Condition.v
Grace.v
Network.v
TrafficManager.v
RolloutUtil.v
Workloads.v
GatewayProvider.v
GatewayProofs.v
LuaJson.v
LuaJsonProofs.v
IngressProvider.v
CustomProvider.v
CustomProofs.v
NetworkProviders.v
ReleaseManager.v
CanaryManager.v
BlueGreenManager.v
Progressing.v
RolloutController.v
ProgressingProofs.v
RolloutControllerProofs.v
Conversion.v
Validation.v
ValidationProofs.v
TrafficRoutingController.v
BatchControl.v
BatchStatus.v
BatchExecutor.v
BatchExecutorProofs.v
ControlPlane.v
ControlPlaneProofs.v
LabelPatch.v
Expectation.v
WorkloadControl.v
PartitionControls.v
PartitionProofs.v
MinReady.v
MinReadyProofs.v
CanaryControls.v
BlueGreenControls.v
BlueGreenProofs.v
ControllerFinder.v
History.v
HistoryProofs.v
EventHandlers.v
EventProofs.v
AtomicWriter.v
AtomicProofs.v
CertWriter.v
CertProofs.v
WebhookController.v
WebhookProofs.v
WorkloadAdmission.v
WorkloadAdmissionProofs.v
AdvancedDeployment.v
LabelUtil.v
AdvancedController.v
AdvancedProofs.v
AdvancedScaling.v
NativeDaemonSet.v
NativeDaemonSetProofs.v
Watching.v
ReleaseControllers.v
Composition.v
Sim.v
Witnesses.v
ControllerWitnesses.v
BatchWitnesses.v
ControlWitnesses.v
AdmissionWitnesses.v
AdvancedWitnesses.v
ProviderWitnesses.v
HistoryWitnesses.v
EventWitnesses.v
AtomicWitnesses.v
WebhookWitnesses.v
