(* ===== verification/Prelude.v ===== *)
(** * Kruise Rollouts: a verification development

    Kruise Rollouts releases Kubernetes workloads in steps.  A user writes a Rollout
    (steps, traffic, pauses) that names a workload; a webhook freezes the workload when
    its template changes; the rollout controller walks through the steps, and for each of
    them writes the plan of a BatchRelease and sets the traffic; the batch release
    controller lets the workload update as many pods as the current batch allows.  All
    parts are level-triggered: a reconciliation reads objects, does at most one step,
    writes statuses and asks to be run again.

    ** How the code is modelled

    A reconciliation is a function [M W A = W -> res A * W] (Prelude.v): [W] is the world
    outside of the process (the API server, the clock, the network providers, the stores
    of expectations), and a result is [Ok], [Err] with a Go error, or [Panic] (nil
    dereference, index out of range, assignment to a nil map).  Writes made before an
    error stay in the world, as they do in the code.  A context that Go passes by pointer
    is part of the state of its operations ([M (Context * W)]).  What lies outside of the
    repository (the API client, [retry.RetryOnConflict], [intstr], JSON, hashes, label
    selectors, [sort.Slice], the order of a map range) is a class whose laws, where a
    theorem needs them, are in a class of their own ([RetryLaws], [K8sLaws], [GraceLaws],
    [SortLaws], [JsonLaws], ...); Sim.v gives an instance of all of them, in which the
    witnesses are evaluated.  Between two calls of the client other processes may write:
    a read is not assumed to return what was written before unless a theorem says so.
    Structs are records in which [r <| f := v |>] is the assignment [r.f = v]; pointers
    and nil maps are [option]; string enums are inductive types with a constructor for
    any other string; int32 arithmetic wraps ([wrap32]) where the source can overflow.

    ** Files and sources

    - Prelude.v: results, the monad and its weakest preconditions, record update, int32,
      Go strings and the tactics [inv_run], [wp_step] and their hints.
    - Api.v, ApiAlpha.v: the structs of api/v1beta1 and api/v1alpha1.  Conversion.v:
      api/v1alpha1/conversion.go, both directions.
    - Clock.v: the clock, the API client and patches.  Condition.v: pkg/util/condition.go.
      Grace.v: pkg/util/grace.  Expectation.v: pkg/util/expectation.
    - RolloutUtil.v, Workloads.v, ControllerFinder.v: pkg/util (rollout_utils.go,
      workloads_utils.go, parse_utils.go, pod_utils.go, controller_finder.go), the kinds of
      workloads and the summary of each that the controllers read.
    - Network.v, TrafficManager.v: pkg/trafficrouting (interface.go, composite.go,
      manager.go).  TrafficRoutingController.v: pkg/controller/trafficrouting.
    - ReleaseManager.v, CanaryManager.v, BlueGreenManager.v, Progressing.v,
      RolloutController.v: pkg/controller/rollout, one file for each of
      rollout_releaseManager.go, rollout_canary.go, rollout_bluegreen.go,
      rollout_progressing.go, and rollout_status.go with rollout_controller.go.
    - BatchControl.v, BatchStatus.v, BatchExecutor.v: pkg/controller/batchrelease
      (control/util.go and context, batchrelease_status.go, batchrelease_executor.go with
      batchrelease_controller.go).  ControlPlane.v: the three control planes.
      LabelPatch.v: labelpatch.  WorkloadControl.v, PartitionControls.v, MinReady.v,
      CanaryControls.v, BlueGreenControls.v: the controllers of the single workload kinds
      under control/, which ReleaseControllers.v puts below the planes as
      [getReleaseController] does.
    - Validation.v: pkg/webhook/rollout/validating.  WorkloadAdmission.v:
      pkg/webhook/workload/mutating.
    - AdvancedDeployment.v, AdvancedController.v: pkg/controller/deployment (its util and
      the controller), with LabelUtil.v: pkg/util/labels; AdvancedProofs.v and
      AdvancedScaling.v hold what is proved of them.
    - NativeDaemonSet.v: pkg/controller/nativedaemonset, the deletion of pods in batches.
    - GatewayProvider.v, IngressProvider.v, CustomProvider.v: the three providers under
      pkg/trafficrouting/network, the last two over LuaJson.v: pkg/util/luamanager (json.go
      and lua.go).  NetworkProviders.v: [newNetworkProvider] with the three of them, an
      instance of the class [ProviderFactory] of Network.v.
    - History.v: pkg/controller/rollouthistory.
    - EventHandlers.v: the event handlers of the rollout, batch release, history and
      deployment controllers (the [*_event_handler.go] files).
    - AtomicWriter.v: pkg/webhook/util/writer/atomic.  CertWriter.v: pkg/webhook/util/writer
      and generator.  WebhookController.v: pkg/webhook/util (util.go, configuration, crd,
      controller) and the handler table of pkg/webhook/server.go.
    - Watching.v: the watches of all controllers (their [add] and [SetupWithManager], and
      main.go), discovery of kinds (rollout_utils.go), and pkg/util/client.
    - Composition.v: rounds of the batch release controller, each on a plan that the
      rollout controller wrote, with anything that others do in between.
    - A file with [Proofs] in its name holds the properties of the file it is named after;
      Sim.v is one concrete world, and the files with [Witnesses] in their name evaluate
      the code in it and apply the properties there.

    ** How the components interact

    [TrafficManager] and [ReleaseManager] (TrafficManager.v, ReleaseManager.v) are the
    interfaces between the rollout controller and what it drives; the canary and the
    blue-green manager are two instances of one step machine.  [ControlPlanes] with its
    contract [ControlPlanesLaws] (BatchExecutor.v) is what the batch executor assumes of
    the control planes; ControlPlaneProofs.v proves the contract for each plane over any
    controllers, and ReleaseControllers.v for the real ones.  [WorkloadFinder]
    (RolloutUtil.v) is what the rollout controller assumes of the finders, which
    ControllerFinder.v defines.  The two controllers meet only in the BatchRelease object:
    Composition.v follows the plan that the rollout controller writes into the patches
    that the batch release controller sends, over every file between them.

    ** What the theorems show

    - The step machine: both managers refine one abstract machine of step states
      ([canary_runCanary_refines], [bg_runCanary_refines]): a step is left only when it is
      upgraded, routed and its pause is over, and a release is finalised by a complete
      sequence of tasks ([canary_finalising_complete], [bg_finalising_complete]).
    - The rollout controller: the machine of the progressing reasons, the order of a
      reset, the phase, the hash, and that a deletion releases the Rollout only after
      everything was finalised.
    - Traffic: [DoTrafficRouting] reports done only when the routes are ensured and the
      grace period is over, finalising only when everything is restored, and a
      TrafficRouting follows one edge of its machine per reconciliation.  A grace period
      is waited for exactly as long as the cleaner of the store lets it
      ([grace_window_respected]).
    - Batches: the executor follows an abstract machine, the batch index stays in the
      plan, the finalizer outlives the finalising, the planes honour their contract, a
      batch never takes pods back nor exposes more than it may, and readiness, percentages
      and batch sizes are what they are meant to be, on 32-bit integers.
    - Settings: what a release saves in a workload or an autoscaler is given back
      (MinReadySeconds, blue-green strategies, autoscalers, the claim of a release), and
      the window of unavailable pods never passes the target of the batch.
    - Admission and conversion: exactly the legal Rollouts that conflict with no other are
      admitted, updates keep what a release in progress depends on, and the two API
      versions convert back and forth with what is lost made explicit.
    - Admission of workloads: a new revision is seized before it rolls out, stays held
      until the release is over, and no pod of a frozen workload may be updated.
    - Advanced Deployments: the new ReplicaSet grows within partition and surge, the old
      ones keep what the partition and the availability ask for, however a pass ends, and
      proportional scaling adds up.
    - Native daemonsets: the pods one pass deletes keep within partition and
      maxUnavailable, and the batches of goroutines end and lose no index.
    - Providers: weights split what they should, finalising gives HTTPRoutes and custom
      objects back whatever was done to them, the canary Ingress has the routes of the
      stable one, and values survive the way through Lua but for what
      [Encode_decodeValue] says; the encoder ends on every value, cycles included.
    - History: a release has one history, which is written until it is complete and never
      again, with the pods of each step.
    - Events: an event of a workload or a pod wakes exactly the release it belongs to, and
      the expectations of a release wait for the Deployment it created and no other.
    - Files and certificates: [write_atomic] is a statement about every state the file
      system passes through, so also about every crash: readers see the old files or the
      new ones.  The certificates in use are those that are stored, a valid CA stays, the
      webhook configurations depend on their templates only, and after a synchronisation
      server and API server agree ([secret_agrees], [configuration_stable],
      [sync_agrees]).
    - Together: whatever happens between the rounds of the batch release controller, no
      patch of a CloneSet lets more pods update than the step of the Rollout allows
      ([no_step_overtaken]); and a release whose rounds are healthy has the batch of its
      partition ready after a number of rounds that is known ([release_reaches_partition]).
    - Watches: every kind that the controllers take for watched from the start is watched
      once the set-up succeeds, unless discovery did not find it
      ([setupControllers_watches]); the listing without copies has the first of the objects
      that the selectors choose ([list_first]).

    ** Bounds and fuel

    Every definition is structurally recursive but for five.  [isOwnedBy] follows the
    chain of owners on the API server, which need not be finite; it takes the depth of
    the stack as fuel and [Panic]s when it runs out, as Go does, and
    [IsOwnedBy_terminates] says from which depth on the answer is the right one.
    [cutSuffixes] removes the suffixes of an autoscaler's name one by one; its fuel is
    the length of the name, and each round removes at least one character.  [itoa]
    prints digits with the logarithm of the number as fuel, from the library.
    [slowStartLoop] doubles its batches; its fuel is the number of indices, of which each
    round takes at least one ([slow_start_complete]).  [Encode] follows tables that may
    be cyclic and refuses one it has met; its fuel is the number of tables and one, which
    [Encode_terminates] shows is never used up.

    ** Not modelled

    - Logs, events and messages of errors, except where the code reads them.  Metrics are
      functions on a registry of their own (MinReady.v), apart from the runs of the
      controllers, which never read them.
    - Command-line switches, REST clients, informers and the start of the manager and of
      the webhook server: glue of controller-runtime.  Mutexes: every operation of a store
      is atomic under its own.
    - The Lua interpreter itself: its tables, the reading of arguments and the running of
      a script are classes.
    - Cryptography (keys, X.509, PEM) and the operating system: the operations of the file
      system are a class whose laws ([FileLaws]) say which states each passes through.  A
      directory may be one that cannot be listed; that there is none is a class of its own
      ([Listable]), which only [sync_agrees] assumes.
    - The cache of the API client may lag behind the store.  The model's calls may answer
      anything, so most theorems do not mind; [history_once] does, and takes a list of
      histories for those in the store ([HistoryLaws]).
    - [zz_generated.deepcopy.go], clients and test code are generated or no part of the
      program. *)

From stdpp Require Export base decidable option list strings gmap.
From stdpp Require Import pretty.
From Stdlib Require Import ZArith Lia.

#[global] Open Scope Z_scope.

Declare Scope go_scope.
Delimit Scope go_scope with go.
#[global] Open Scope go_scope.

(** ** Record update

    [r <| f := v |>] is the Go assignment [r.f = v] on a copy of [r].  A record
    gets it from one [Eta] instance that rebuilds it field by field. *)

Class Eta (R : Type) := eta_expand : R -> R.
Class Setter {R T : Type} (f : R -> T) := set_field : (T -> T) -> R -> R.

Ltac derive_setter f :=
  match type of f with
  | ?R -> ?T =>
      let up := fresh "up" in let r := fresh "r" in
      intros up r;
      let i := constr:(ltac:(typeclasses eauto) : Eta R) in
      let e := eval hnf in (@eta_expand R i r) in
      lazymatch eval pattern (f r) in e with
      | ?h _ => exact (h (up (f r)))
      end
  end.

#[export] Hint Extern 1 (Setter ?f) => (unfold Setter; derive_setter f) : typeclass_instances.

Definition set {R T : Type} (f : R -> T) {s : Setter f} : (T -> T) -> R -> R := s.
Arguments set {R T} f {s} / up r : rename.

Notation "r <| f := v |>" := (set f (fun _ => v) r)
  (at level 1, left associativity, f at level 0, v at level 200,
   format "r  <| f  :=  v |>") : go_scope.

(** ** Errors and outcomes

    A Go [error] that the modelled code inspects is one of the first four
    constructors ([errors.IsNotFound], [errors.IsAlreadyExists],
    [errors.IsConflict], [utilerrors.IsBadRequest]) or wraps a sentinel it looks for
    ([ErrMarked], by the text of the sentinel); every other one is [ErrOther].
    Wrapping with [%w] keeps what an error is, so that it is left out. *)

Inductive goerror :=
  | ErrNotFound
  | ErrAlreadyExists
  | ErrConflict
  | ErrBadRequest (msg : string)
  | ErrMarked (mark msg : string)
  | ErrOther (msg : string).

#[export] Instance goerror_eq_dec : EqDecision goerror.
Proof. solve_decision. Defined.

Definition IsNotFound (e : goerror) : bool :=
  match e with ErrNotFound => true | _ => false end.
Definition IsAlreadyExists (e : goerror) : bool :=
  match e with ErrAlreadyExists => true | _ => false end.
(** [err.Error()] *)
Class ErrorText := errorText : goerror -> string.

(** The result of a Go call: its value, its non-nil error, or a run-time panic
    (a nil dereference or an index out of range). *)
Inductive res (A : Type) :=
  | Ok (a : A)
  | Err (e : goerror)
  | Panic.
Arguments Ok {A} a.
Arguments Err {A} e.
Arguments Panic {A}.

Definition res_bind {A B} (m : res A) (k : A -> res B) : res B :=
  match m with Ok a => k a | Err e => Err e | Panic => Panic end.

Definition res_map {A B} (f : A -> B) (m : res A) : res B :=
  res_bind m (fun a => Ok (f a)).

(** A value read through a pointer: nil panics. *)
Definition deref {A} (p : option A) : res A :=
  match p with Some a => Ok a | None => Panic end.

(** [l[i]] for an [int] index: a negative or too large index panics. *)
Definition go_index {A} (l : list A) (i : Z) : res A :=
  if decide (0 <= i) then deref (l !! Z.to_nat i) else Panic.

(** ** The state-and-error monad

    [M S A] is Go code that returns an [A] and mutates the objects gathered in
    [S].  Mutations made before an error or a panic stay visible, as they do in
    Go. *)

Definition M (S A : Type) : Type := S -> res A * S.

Definition ret {S A} (a : A) : M S A := fun s => (Ok a, s).
Definition fail {S A} (e : goerror) : M S A := fun s => (Err e, s).
Definition panic {S A} : M S A := fun s => (Panic, s).
Definition bind {S A B} (m : M S A) (k : A -> M S B) : M S B :=
  fun s => match m s with
           | (Ok a, s') => k a s'
           | (Err e, s') => (Err e, s')
           | (Panic, s') => (Panic, s')
           end.
Definition get {S} : M S S := fun s => (Ok s, s).
Definition put {S} (s' : S) : M S unit := fun _ => (Ok tt, s').
Definition modify {S} (f : S -> S) : M S unit := fun s => (Ok tt, f s).
Definition lift {S A} (r : res A) : M S A := fun s => (r, s).

(** [err := m] without an early return: the error becomes a value. *)
Definition catch {S A} (m : M S A) : M S (A + goerror) :=
  fun s => match m s with
           | (Ok a, s') => (Ok (inl a), s')
           | (Err e, s') => (Ok (inr e), s')
           | (Panic, s') => (Panic, s')
           end.

(** Code over one object or over the world, run inside code over both. *)
Definition inWorld {C W A} (m : M W A) : M (C * W) A :=
  fun s => let '(r, w) := m (snd s) in (r, (fst s, w)).
Definition getC {C W} : M (C * W) C := fun s => (Ok (fst s), s).
Definition modC {C W} (f : C -> C) : M (C * W) unit :=
  fun s => (Ok tt, (f (fst s), snd s)).

Notation "x <- m ;; k" := (bind m (fun x => k))
  (at level 100, m at next level, right associativity) : go_scope.
Notation "m ;; k" := (bind m (fun _ => k))
  (at level 100, right associativity) : go_scope.

(** ** Weakest preconditions

    [wp m Q s]: running [m] from [s] ends in an outcome and a state that satisfy
    [Q].  [M] is total, so [wp] is total correctness. *)

Definition wp {S A} (m : M S A) (Q : res A -> S -> Prop) (s : S) : Prop :=
  Q (fst (m s)) (snd (m s)).

(** The continuation of [bind]: errors and panics propagate. *)
Definition bind_post {S A B} (k : A -> M S B) (Q : res B -> S -> Prop)
    (r : res A) (s : S) : Prop :=
  match r with
  | Ok a => wp (k a) Q s
  | Err e => Q (Err e) s
  | Panic => Q Panic s
  end.

Section wp_rules.
Context {S : Type}.

Lemma wp_ret {A} (a : A) Q (s : S) : Q (Ok a) s -> wp (ret a) Q s.
Proof. done. Qed.

Lemma wp_fail {A} e (Q : res A -> S -> Prop) s : Q (Err e) s -> wp (fail e) Q s.
Proof. done. Qed.

Lemma wp_panic {A} (Q : res A -> S -> Prop) s : Q Panic s -> wp panic Q s.
Proof. done. Qed.

Lemma wp_bind {A B} (m : M S A) (k : A -> M S B) Q s :
  wp m (bind_post k Q) s -> wp (bind m k) Q s.
Proof.
  unfold wp, bind, bind_post. destruct (m s) as [[a|e|] s']; simpl; done.
Qed.

Lemma wp_bind_assoc {A B D} (m : M S A) (k : A -> M S B) (k' : B -> M S D) Q s :
  wp (bind m (fun a => bind (k a) k')) Q s -> wp (bind (bind m k) k') Q s.
Proof. unfold wp, bind. destruct (m s) as [[a|e|] s']; done. Qed.

Lemma wp_bind_run {A B} (m : M S A) (k : A -> M S B) Q a s s' :
  m s = (Ok a, s') -> wp (k a) Q s' -> wp (bind m k) Q s.
Proof. unfold wp, bind. by intros ->. Qed.

Lemma wp_mono {A} (m : M S A) (Q Q' : res A -> S -> Prop) s :
  wp m Q s -> (forall r s', Q r s' -> Q' r s') -> wp m Q' s.
Proof. unfold wp. auto. Qed.

Lemma wp_lift {A} (r : res A) Q (s : S) : Q r s -> wp (lift r) Q s.
Proof. done. Qed.

Lemma wp_modify (f : S -> S) Q s : Q (Ok tt) (f s) -> wp (modify f) Q s.
Proof. done. Qed.

Lemma wp_get Q (s : S) : Q (Ok s) s -> wp get Q s.
Proof. done. Qed.

Lemma wp_catch {A} (m : M S A) Q s :
  wp m (fun r s' => match r with
                    | Ok a => Q (Ok (inl a)) s'
                    | Err e => Q (Ok (inr e)) s'
                    | Panic => Q Panic s'
                    end) s ->
  wp (catch m) Q s.
Proof. unfold wp, catch. destruct (m s) as [[a|e|] s']; simpl; done. Qed.
End wp_rules.

Section wp_pair.
Context {C W : Type}.

Lemma wp_getC Q (c : C) (w : W) : Q (Ok c) (c, w) -> wp getC Q (c, w).
Proof. done. Qed.

Lemma getC_run (c : C) (w : W) : getC (c, w) = (Ok c, (c, w)).
Proof. done. Qed.

Lemma wp_modC f Q (c : C) (w : W) : Q (Ok tt) (f c, w) -> wp (modC f) Q (c, w).
Proof. done. Qed.

(** An operation on the world alone may answer anything and leaves [C] as it is. *)
Lemma wp_inWorld {A} (m : M W A) Q (c : C) w :
  (forall r w', m w = (r, w') -> Q r (c, w')) -> wp (inWorld m) Q (c, w).
Proof.
  unfold wp, inWorld. simpl. intros H.
  destruct (m w) as [r w'] eqn:E. simpl. by apply H.
Qed.

Lemma wp_inWorld_spec {A} (m : M W A) (P : res A -> W -> Prop) Q (c : C) w :
  wp m P w -> (forall r w', P r w' -> Q r (c, w')) -> wp (inWorld m) Q (c, w).
Proof.
  unfold wp, inWorld. simpl. intros H HQ.
  destruct (m w) as [r w']. simpl in *. by apply HQ.
Qed.
End wp_pair.

(** Reading a [wp] back as a statement about one run. *)
Lemma wp_run {S A} (m : M S A) Q s r s' : m s = (r, s') -> wp m Q s -> Q r s'.
Proof. unfold wp. by intros ->. Qed.

Create HintDb go.
#[export] Hint Resolve wp_ret wp_fail wp_panic wp_lift wp_modify wp_get : go.

(** One symbolic-execution step; an API call leaves its outcome to be destructed. *)
Ltac wp_step :=
  lazymatch goal with
  | |- wp (bind _ _) _ _ => apply wp_bind
  | |- bind_post _ _ _ _ => unfold bind_post; simpl
  | |- wp (ret _) _ _ => apply wp_ret
  | |- wp (fail _) _ _ => apply wp_fail
  | |- wp panic _ _ => apply wp_panic
  | |- wp getC _ (_, _) => apply wp_getC
  | |- wp (modC _) _ (_, _) => apply wp_modC
  | |- wp (modify _) _ _ => apply wp_modify
  | |- wp get _ _ => apply wp_get
  | |- wp (catch _) _ _ => apply wp_catch
  | |- wp (lift _) _ _ => apply wp_lift
  | |- wp (inWorld _) _ (_, _) =>
      let r := fresh "r" in let w := fresh "w" in let E := fresh "Erun" in
      apply wp_inWorld; intros r w E
  end.
Ltac wp_steps := repeat wp_step.

(** ** Inverting successful runs *)

Section inv_run.
Context {S : Type}.

Lemma bind_Ok_inv {A B} (m : M S A) (k : A -> M S B) s b s' :
  bind m k s = (Ok b, s') -> exists a s1, m s = (Ok a, s1) /\ k a s1 = (Ok b, s').
Proof. unfold bind. destruct (m s) as [[a|e|] s1]; naive_solver. Qed.

(** What runs after a part that succeeded. *)
Lemma bind_step {A B} (m : M S A) (k : A -> M S B) s a s' : m s = (Ok a, s') -> bind m k s = k a s'.
Proof. unfold bind. by intros ->. Qed.
Lemma catch_step {A} (m : M S A) s a s' : m s = (Ok a, s') -> catch m s = (Ok (inl a), s').
Proof. unfold catch. by intros ->. Qed.

(** Either the first part succeeds and the second goes on, or the first ends the run. *)
Lemma bind_run_inv {A B} (m : M S A) (k : A -> M S B) s r s' :
  bind m k s = (r, s') ->
  (exists a s1, m s = (Ok a, s1) /\ k a s1 = (r, s'))
  \/ (exists r1, m s = (r1, s') /\ (forall a, r1 <> Ok a) /\ (forall b, r <> Ok b)).
Proof.
  unfold bind. destruct (m s) as [[a|e|] s1]; intros Hrun; [by left; eauto|right..]; simplify_eq;
    eexists; by split.
Qed.

Lemma bind_ret_inv {A B} (m : M S A) (f : A -> B) s r s' :
  bind m (fun a => ret (f a)) s = (r, s') -> exists r1, m s = (r1, s') /\ r = res_map f r1.
Proof. unfold bind, ret. destruct (m s) as [[a|e|] s1]; intros; simplify_eq; by eexists. Qed.

Lemma catch_Ok_inv {A} (m : M S A) s x s' :
  catch m s = (Ok x, s') ->
  match x with inl a => m s = (Ok a, s') | inr e => m s = (Err e, s') end.
Proof. unfold catch. destruct (m s) as [[a|e|] s1]; intros H; simplify_eq; done. Qed.

Lemma ret_Ok_inv {A} (a b : A) (s s' : S) : ret a s = (Ok b, s') -> b = a /\ s' = s.
Proof. unfold ret. naive_solver. Qed.

Lemma lift_Ok_inv {A} (x : res A) (b : A) (s s' : S) : lift x s = (Ok b, s') -> x = Ok b /\ s' = s.
Proof. unfold lift. naive_solver. Qed.
End inv_run.

Lemma inWorld_inv {C W A} (m : M W A) (c c' : C) w r w' :
  inWorld m (c, w) = (r, (c', w')) -> m w = (r, w') /\ c' = c.
Proof. unfold inWorld. simpl. destruct (m w). naive_solver. Qed.

Lemma deref_Ok {A} (p : option A) a : deref p = Ok a -> p = Some a.
Proof. by destruct p; intros [= ->]. Qed.

Lemma res_bind_Ok {A B} (x : res A) (f : A -> res B) b :
  res_bind x f = Ok b -> exists a, x = Ok a /\ f a = Ok b.
Proof. destruct x as [a|e|]; simpl; [by exists a|done|done]. Qed.

Lemma res_map_deref_Ok {A B} (f : A -> B) (p : option A) b :
  res_map f (deref p) = Ok b -> exists a, p = Some a /\ b = f a.
Proof. destruct p as [a|]; intros [= <-]. by exists a. Qed.

(** Decompose hypotheses that say a monadic computation succeeded. *)
Ltac inv_run :=
  repeat match goal with
  | s : (_ * _)%type |- _ => destruct s
  | H : bind _ _ _ = (Ok _, _) |- _ =>
      apply bind_Ok_inv in H;
      let a := fresh "a" in let s := fresh "s" in let H1 := fresh "Hm" in
      destruct H as (a & s & H1 & H)
  | H : getC _ = (Ok _, _) |- _ => unfold getC in H; simpl in H; injection H as <- <-
  | H : get _ = (Ok _, _) |- _ => unfold get in H; simpl in H; injection H as <- <-
  | H : modC _ (_, _) = (Ok _, _) |- _ => unfold modC in H; simpl in H; injection H as <- <- <-
  | H : ret _ _ = (Ok _, _) |- _ => apply ret_Ok_inv in H as [? ?]; simplify_eq
  | H : fail _ _ = (Ok _, _) |- _ => discriminate H
  | H : panic _ = (Ok _, _) |- _ => discriminate H
  | H : catch _ _ = (Ok _, _) |- _ => apply catch_Ok_inv in H
  | H : inWorld _ (_, _) = (_, (_, _)) |- _ => apply inWorld_inv in H as [H ?]; simplify_eq
  | H : deref _ = Ok _ |- _ => apply deref_Ok in H
  | H : res_map _ (deref _) = Ok _ |- _ =>
      let x := fresh "x" in let Ex := fresh "Ex" in
      apply res_map_deref_Ok in H as (x & Ex & ?); simplify_eq
  | H : lift _ _ = (Ok _, _) |- _ => unfold lift in H; injection H as H ?; simplify_eq
  | H : (if ?b then _ else _) _ = (Ok _, _) |- _ =>
      let E := fresh "Eb" in destruct b eqn:E
  | H : match ?x with inl _ => _ | inr _ => _ end = _ |- _ => destruct x
  | H : match ?x with inl _ => _ | inr _ => _ end _ = (Ok _, _) |- _ => destruct x
  | H : match ?x with Some _ => _ | None => _ end _ = (Ok _, _) |- _ =>
      let E := fresh "Eo" in destruct x eqn:E
  | H : (let (_, _) := ?x in _) _ = (Ok _, _) |- _ =>
      let E := fresh "Ep" in destruct x eqn:E
  | H : ?x = ?y |- _ => is_var x; is_var y; subst y
  end.

(** ** Frames

    [preserves R m]: however [m] ends, it takes its object from [c] to a [c'] with
    [R c c'].  A goal about composed code is split by [solve_preserves]. *)

Definition preserves {C W A} (R : C -> C -> Prop) (m : M (C * W) A) : Prop :=
  forall c w r c' w', m (c, w) = (r, (c', w')) -> R c c'.

Section preserves_rules.
Context {C W : Type} (R : C -> C -> Prop) `{!PreOrder R}.

Lemma preserves_ret {A} (a : A) : preserves (W := W) R (ret a).
Proof. intros c w r c' w' [= <- <- <-]. reflexivity. Qed.
Lemma preserves_fail {A} e : preserves (W := W) (A := A) R (fail e).
Proof. intros c w r c' w' [= <- <- <-]. reflexivity. Qed.
Lemma preserves_panic {A} : preserves (W := W) (A := A) R panic.
Proof. intros c w r c' w' [= <- <- <-]. reflexivity. Qed.
Lemma preserves_getC : preserves (W := W) R getC.
Proof. intros c w r c' w' [= <- <- <-]. reflexivity. Qed.
Lemma preserves_get : preserves (W := W) R get.
Proof. intros c w r c' w' [= <- <- <-]. reflexivity. Qed.
Lemma preserves_lift {A} (x : res A) : preserves (W := W) R (lift x).
Proof. intros c w r c' w' [= <- <- <-]. reflexivity. Qed.
Lemma preserves_inWorld {A} (m : M W A) : preserves R (inWorld m).
Proof. intros c w r c' w' H. apply inWorld_inv in H as [_ ->]. reflexivity. Qed.
Lemma preserves_bind {A B} (m : M (C * W) A) (k : A -> M (C * W) B) :
  preserves R m -> (forall a, preserves R (k a)) -> preserves R (bind m k).
Proof.
  intros Hm Hk c w r c' w'. unfold bind. destruct (m (c, w)) as [[a|e|] [c1 w1]] eqn:E.
  - intros H. etransitivity; [by eapply Hm|by eapply Hk].
  - intros [= <- <- <-]. by eapply Hm.
  - intros [= <- <- <-]. by eapply Hm.
Qed.
(** A pure computation hands on how its value came about. *)
Lemma preserves_bind_lift {A B} (x : res A) (k : A -> M (C * W) B) :
  (forall a, x = Ok a -> preserves R (k a)) -> preserves R (bind (lift x) k).
Proof.
  intros Hk c w r c' w'. unfold bind, lift. destruct x as [a|e|]; [by apply Hk|..];
    intros [= <- <- <-]; reflexivity.
Qed.
(** What is known of the value [m] returns may be used for the rest. *)
Lemma preserves_bind_run {A B} (P : A -> Prop) (m : M (C * W) A) (k : A -> M (C * W) B) :
  preserves R m -> (forall s a s', m s = (Ok a, s') -> P a) ->
  (forall a, P a -> preserves R (k a)) -> preserves R (bind m k).
Proof.
  intros Hm HP Hk c w r c' w'. unfold bind. destruct (m (c, w)) as [[a|e|] [c1 w1]] eqn:E.
  - intros H. etransitivity; [by eapply Hm|]. eapply (Hk a); [by eapply HP|done].
  - intros [= <- <- <-]. by eapply Hm.
  - intros [= <- <- <-]. by eapply Hm.
Qed.
Lemma preserves_catch {A} (m : M (C * W) A) : preserves R m -> preserves R (catch m).
Proof.
  intros Hm c w r c' w'. unfold catch. destruct (m (c, w)) as [[a|e|] [c1 w1]] eqn:E;
    intros [= <- <- <-]; by eapply Hm.
Qed.
Lemma preserves_modC f : (forall c, R c (f c)) -> preserves (W := W) R (modC f).
Proof. intros Hf c w r c' w' [= <- <- <-]. apply Hf. Qed.
End preserves_rules.

Lemma wp_preserves {C W A} (R : C -> C -> Prop) (m : M (C * W) A) Q c w :
  preserves R m ->
  (forall r c' w', m (c, w) = (r, (c', w')) -> R c c' -> Q r (c', w')) ->
  wp m Q (c, w).
Proof.
  intros Hm HQ. unfold wp. destruct (m (c, w)) as [r [c' w']] eqn:E. simpl. eauto.
Qed.

Create HintDb frames.

Ltac solve_preserves :=
  repeat first
    [ progress intros
    | match goal with |- PreOrder _ => typeclasses eauto end
    | simple apply preserves_bind_lift
    | simple apply preserves_bind
    | simple apply preserves_ret | simple apply preserves_fail | simple apply preserves_panic
    | simple apply preserves_getC | simple apply preserves_get | simple apply preserves_lift
    | simple apply preserves_inWorld | simple apply preserves_catch
    | simple apply preserves_modC; intros; solve [eauto with frames]
    | match goal with |- preserves _ (match ?x with _ => _ end) =>
        let E := fresh "E" in destruct x eqn:E end
    | assumption
    | solve [eauto with frames] ].

(** Split the innermost scrutinee of the goal. *)
Ltac case_goal :=
  match goal with
  | |- context [match ?x with _ => _ end] =>
      lazymatch x with
      | context [match _ with _ => _ end] => fail
      | _ => let E := fresh "E" in destruct x eqn:E
      end
  end.
Ltac case_hyp H :=
  match type of H with
  | context [match ?x with _ => _ end] =>
      lazymatch x with
      | context [match _ with _ => _ end] => fail
      | _ => let E := fresh "E" in destruct x eqn:E
      end
  end.

(** ** Machine integers and time *)

(** [int32(x)]: two's-complement wrap-around. *)
Definition wrap32 (x : Z) : Z := (x + 2 ^ 31) mod 2 ^ 32 - 2 ^ 31.
Definition in32 (x : Z) : Prop := - 2 ^ 31 <= x < 2 ^ 31.

Lemma wrap32_id x : in32 x -> wrap32 x = x.
Proof. unfold in32, wrap32. intros. rewrite Z.mod_small; lia. Qed.

Lemma wrap32_in32 x : in32 (wrap32 x).
Proof.
  unfold in32, wrap32. pose proof (Z.mod_pos_bound (x + 2 ^ 31) (2 ^ 32)). lia.
Qed.

#[export] Hint Resolve wrap32_in32 : go.

(** [time.Time] and [time.Duration] are nanosecond counts. *)
Definition Second : Z := 1000000000.

Definition len {A} (l : list A) : Z := Z.of_nat (length l).

Lemma len_nonneg {A} (l : list A) : 0 <= len l.
Proof. unfold len. lia. Qed.

Lemma go_index_ok {A} (l : list A) i :
  0 <= i < len l -> exists x, go_index l i = Ok x /\ l !! Z.to_nat i = Some x.
Proof.
  intros [H0 H1]. unfold go_index, len in *. rewrite decide_True by lia.
  destruct (lookup_lt_is_Some_2 l (Z.to_nat i)) as [x Hx]; [lia|].
  exists x. by rewrite Hx.
Qed.

Lemma go_index_elem {A} (l : list A) i x : go_index l i = Ok x -> x ∈ l.
Proof.
  unfold go_index, deref. case_decide; [|done].
  destruct (l !! Z.to_nat i) eqn:E; [|done].
  intros [= ->]. by eapply list_elem_of_lookup_2.
Qed.

(** [m[k]] on a [map[string]string]: a missing key (or a nil map) reads as "". *)
Definition mapget (m : gmap string string) (k : string) : string := default ""%string (m !! k).

(** [s != ""] *)
Definition nonempty (s : string) : bool := negb (String.eqb s "").

(** [fmt.Sprintf("%d", n)] *)
Definition itoa (n : Z) : string := pretty n.

(** ** What a run does to the state *)

Section evolves.
Context {S : Type} (R : S -> S -> Prop) `{!PreOrder R}.

(** However [m] ends, the state it leaves is one that [R] allows. *)
Definition evolves {A} (m : M S A) : Prop := forall s r s', m s = (r, s') -> R s s'.

Lemma evolves_run {A} (m : M S A) s r s' : evolves m -> m s = (r, s') -> R s s'.
Proof. intros Hm. apply Hm. Qed.
Lemma evolves_ret {A} (a : A) : evolves (ret a).
Proof. intros s r s' [= _ <-]. reflexivity. Qed.
Lemma evolves_fail {A} e : evolves (A := A) (fail e).
Proof. intros s r s' [= _ <-]. reflexivity. Qed.
Lemma evolves_panic {A} : evolves (A := A) panic.
Proof. intros s r s' [= _ <-]. reflexivity. Qed.
Lemma evolves_lift {A} (x : res A) : evolves (lift x).
Proof. intros s r s' [= _ <-]. reflexivity. Qed.
Lemma evolves_bind {A B} (m : M S A) (k : A -> M S B) :
  evolves m -> (forall a, evolves (k a)) -> evolves (bind m k).
Proof.
  intros Hm Hk s r s'. unfold bind. destruct (m s) as [[a|e|] s1] eqn:E.
  - intros Hrun. etransitivity; [by eapply Hm|by eapply Hk].
  - intros [= _ <-]. by eapply Hm.
  - intros [= _ <-]. by eapply Hm.
Qed.
Lemma evolves_bind_lift {A B} (x : res A) (k : A -> M S B) :
  (forall a, x = Ok a -> evolves (k a)) -> evolves (bind (lift x) k).
Proof.
  intros Hk s r s'. unfold bind, lift. destruct x as [a|e|]; [by apply Hk|..]; intros [= _ <-]; reflexivity.
Qed.
(** What is known of the value [m] returns may be used for the rest. *)
Lemma evolves_bind_run {A B} (P : A -> Prop) (m : M S A) (k : A -> M S B) :
  evolves m -> (forall s a s', m s = (Ok a, s') -> P a) -> (forall a, P a -> evolves (k a)) ->
  evolves (bind m k).
Proof.
  intros Hm HP Hk s r s'. unfold bind. destruct (m s) as [[a|e|] s1] eqn:E.
  - intros Hrun. etransitivity; [by eapply Hm|]. by eapply (Hk a); [eapply HP|].
  - intros [= _ <-]. by eapply Hm.
  - intros [= _ <-]. by eapply Hm.
Qed.
Lemma evolves_catch {A} (m : M S A) : evolves m -> evolves (catch m).
Proof.
  intros Hm s r s'. unfold catch. destruct (m s) as [[a|e|] s1] eqn:E; intros [= _ <-]; by eapply Hm.
Qed.
End evolves.

(** A relation on worlds, for runs that carry a status along. *)
Definition onWorld {C W} (R : W -> W -> Prop) (s s' : C * W) : Prop := R (snd s) (snd s').
#[export] Instance onWorld_preorder {C W} (R : W -> W -> Prop) `{!PreOrder R} : PreOrder (onWorld (C := C) R).
Proof.
  split; [intros s; unfold onWorld; reflexivity|].
  intros s1 s2 s3 H1 H2. unfold onWorld in *. by etransitivity.
Qed.
Lemma evolves_inWorld {C W A} (R : W -> W -> Prop) (m : M W A) :
  evolves R m -> evolves (onWorld (C := C) R) (inWorld m).
Proof. intros Hm [c w] r [c' w'] Hrun. apply inWorld_inv in Hrun as [Hrun ->]. by eapply Hm. Qed.
Lemma evolves_getC {C W} (R : W -> W -> Prop) `{!PreOrder R} : evolves (onWorld (C := C) R) getC.
Proof. intros s r s' [= _ <-]. reflexivity. Qed.
Lemma evolves_modC {C W} (R : W -> W -> Prop) `{!PreOrder R} f : evolves (onWorld (C := C) R) (modC f).
Proof. intros s r s' [= _ <-]. unfold onWorld. simpl. reflexivity. Qed.

Create HintDb evolve.
Ltac solve_evolves :=
  repeat first
    [ progress intros
    | match goal with |- PreOrder _ => typeclasses eauto end
    | assumption
    | simple apply evolves_bind_lift
    | simple apply evolves_bind
    | simple apply evolves_ret | simple apply evolves_fail | simple apply evolves_panic
    | simple apply evolves_getC | simple apply evolves_modC | simple apply evolves_lift
    | simple apply evolves_inWorld | simple apply evolves_catch
    | match goal with |- evolves _ (match ?x with _ => _ end) =>
        let E := fresh "E" in destruct x eqn:E end
    | solve [eauto with evolve] ].
