(* ===== verification/Api.v ===== *)
(** * The v1beta1 API objects (api/v1beta1)

    The Go structs of the Rollout and BatchRelease resources as records, their
    string enums as inductive types and the methods of rollout_types.go.  A Go
    pointer is an [option]; dereferencing nil is [Panic]. *)

From S2P Require Export Prelude.

(** ** Common Kubernetes data *)

(** [metav1.OwnerReference]; a nil [Controller] is false. *)
Record OwnerReference := mkOwnerRef {
  or_APIVersion : string;
  or_Kind : string;
  or_Name : string;
  or_UID : string;
  or_Controller : bool
}.
#[export] Instance OwnerReference_eq_dec : EqDecision OwnerReference.
Proof. solve_decision. Defined.

(** [metav1.ObjectMeta], the fields the controllers read.  [Annotations] keeps the
    difference between a nil and an empty map, which [reflect.DeepEqual] sees. *)
Record ObjectMeta := mkMeta {
  Namespace : string;
  Name : string;
  UID : string;
  Generation : Z;
  CreationTimestamp : Z;
  DeletionTimestamp : option Z;
  OwnerReferences : list OwnerReference;
  Finalizers : list string;
  Annotations : option (gmap string string);
  Labels : gmap string string
}.
#[export] Instance eta_ObjectMeta : Eta ObjectMeta := fun x =>
  mkMeta (Namespace x) (Name x) (UID x) (Generation x) (CreationTimestamp x)
         (DeletionTimestamp x) (OwnerReferences x) (Finalizers x) (Annotations x) (Labels x).

(** [object.Annotations[k]] *)
Definition annotation (m : ObjectMeta) (k : string) : string :=
  mapget (default ∅ (Annotations m)) k.

(** [!object.DeletionTimestamp.IsZero()] *)
Definition deleting (m : ObjectMeta) : bool :=
  match DeletionTimestamp m with Some _ => true | None => false end.

(** [metav1.NewControllerRef] *)
Definition NewControllerRef (m : ObjectMeta) (apiVersion kind : string) : OwnerReference :=
  mkOwnerRef apiVersion kind (Name m) (UID m) true.

Definition ObjectKey : Type := string * string.
Definition keyOf (m : ObjectMeta) : ObjectKey := (Namespace m, Name m).

(** [intstr.IntOrString] *)
Inductive IntOrString :=
  | FromInt (n : Z)
  | FromString (s : string).

#[export] Instance IntOrString_eq_dec : EqDecision IntOrString.
Proof. solve_decision. Defined.

Definition StrVal (x : IntOrString) : string :=
  match x with FromInt _ => "" | FromString s => s end.

Inductive ConditionStatus := ConditionTrue | ConditionFalse | ConditionUnknown.

#[export] Instance ConditionStatus_eq_dec : EqDecision ConditionStatus.
Proof. solve_decision. Defined.

(** ** Rollout spec *)

Record ObjectRef := mkObjectRef {
  APIVersion : string;
  Kind : string;
  RefName : string
}.
#[export] Instance ObjectRef_eq_dec : EqDecision ObjectRef.
Proof. solve_decision. Defined.

Record IngressTrafficRouting := mkIngressTR {
  ClassType : string;
  IngressName : string
}.
#[export] Instance IngressTR_eq_dec : EqDecision IngressTrafficRouting.
Proof. solve_decision. Defined.

Record GatewayTrafficRouting := mkGatewayTR { HTTPRouteName : option string }.
#[export] Instance GatewayTR_eq_dec : EqDecision GatewayTrafficRouting.
Proof. solve_decision. Defined.

Record TrafficRoutingRef := mkTRRef {
  Service : string;
  GracePeriodSeconds : Z;
  Ingress : option IngressTrafficRouting;
  Gateway : option GatewayTrafficRouting;
  CustomNetworkRefs : option (list ObjectRef)
}.
#[export] Instance eta_TRRef : Eta TrafficRoutingRef := fun x =>
  mkTRRef (Service x) (GracePeriodSeconds x) (Ingress x) (Gateway x) (CustomNetworkRefs x).
#[export] Instance TRRef_eq_dec : EqDecision TrafficRoutingRef.
Proof. solve_decision. Defined.

(** The Gateway API data the traffic strategies carry. *)
Record HTTPHeader := mkHeader { HeaderName : string; HeaderValue : string }.
#[export] Instance HTTPHeader_eq_dec : EqDecision HTTPHeader.
Proof. solve_decision. Defined.

Record HTTPHeaderFilter := mkHeaderFilter {
  HFSet : list HTTPHeader;
  HFAdd : list HTTPHeader;
  HFRemove : list string
}.
#[export] Instance HTTPHeaderFilter_eq_dec : EqDecision HTTPHeaderFilter.
Proof. solve_decision. Defined.

(** [HTTPPathMatch], [HTTPHeaderMatch] and [HTTPQueryParamMatch]: an optional
    match type, a name (absent for a path) and a value. *)
Record HTTPMatch := mkHTTPMatch {
  MatchType : option string;
  MatchName : string;
  MatchValue : string
}.
#[export] Instance HTTPMatch_eq_dec : EqDecision HTTPMatch.
Proof. solve_decision. Defined.

Record HttpRouteMatch := mkRouteMatch {
  Path : option HTTPMatch;
  Headers : list HTTPMatch;
  QueryParams : list HTTPMatch
}.
#[export] Instance HttpRouteMatch_eq_dec : EqDecision HttpRouteMatch.
Proof. solve_decision. Defined.

Record TrafficRoutingStrategy := mkTRStrategy {
  Traffic : option string;
  RequestHeaderModifier : option HTTPHeaderFilter;
  Matches : list HttpRouteMatch
}.
#[export] Instance eta_TRStrategy : Eta TrafficRoutingStrategy := fun x =>
  mkTRStrategy (Traffic x) (RequestHeaderModifier x) (Matches x).
#[export] Instance TRStrategy_eq_dec : EqDecision TrafficRoutingStrategy.
Proof. solve_decision. Defined.

Record RolloutPause := mkPause { Duration : option Z }.
#[export] Instance RolloutPause_eq_dec : EqDecision RolloutPause.
Proof. solve_decision. Defined.

Record CanaryStep := mkStep {
  StepTraffic : TrafficRoutingStrategy;
  Replicas : option IntOrString;
  Pause : RolloutPause
}.
#[export] Instance eta_CanaryStep : Eta CanaryStep := fun x =>
  mkStep (StepTraffic x) (Replicas x) (Pause x).
#[export] Instance CanaryStep_eq_dec : EqDecision CanaryStep.
Proof. solve_decision. Defined.

(** A nil and an empty map differ for [reflect.DeepEqual]. *)
Record PatchPodTemplateMetadata := mkPatchMeta {
  PatchAnnotations : option (gmap string string);
  PatchLabels : option (gmap string string)
}.
#[export] Instance PatchMeta_eq_dec : EqDecision PatchPodTemplateMetadata.
Proof. solve_decision. Defined.

Record BlueGreenStrategy := mkBlueGreen {
  bg_Steps : list CanaryStep;
  bg_TrafficRoutings : list TrafficRoutingRef;
  bg_FailureThreshold : option IntOrString;
  bg_TrafficRoutingRef : string;
  bg_DisableGenerateCanaryService : bool
}.
#[export] Instance eta_BlueGreenStrategy : Eta BlueGreenStrategy := fun x =>
  mkBlueGreen (bg_Steps x) (bg_TrafficRoutings x) (bg_FailureThreshold x)
    (bg_TrafficRoutingRef x) (bg_DisableGenerateCanaryService x).

Record CanaryStrategy := mkCanary {
  cn_Steps : list CanaryStep;
  cn_TrafficRoutings : list TrafficRoutingRef;
  cn_FailureThreshold : option IntOrString;
  cn_PatchPodTemplateMetadata : option PatchPodTemplateMetadata;
  cn_EnableExtraWorkloadForCanary : bool;
  cn_TrafficRoutingRef : string;
  cn_DisableGenerateCanaryService : bool
}.
#[export] Instance eta_CanaryStrategy : Eta CanaryStrategy := fun x =>
  mkCanary (cn_Steps x) (cn_TrafficRoutings x) (cn_FailureThreshold x)
    (cn_PatchPodTemplateMetadata x) (cn_EnableExtraWorkloadForCanary x)
    (cn_TrafficRoutingRef x) (cn_DisableGenerateCanaryService x).

Record RolloutStrategy := mkStrategy {
  Paused : bool;
  Canary : option CanaryStrategy;
  BlueGreen : option BlueGreenStrategy
}.

Record RolloutSpec := mkSpec {
  WorkloadRef : ObjectRef;
  Strategy : RolloutStrategy;
  Disabled : bool
}.

(** [""] is a legal [rollingStyle] of a release plan, hence [RollingStyleNone]. *)
Inductive RollingStyleType :=
  | PartitionRollingStyle
  | CanaryRollingStyle
  | BlueGreenRollingStyle
  | RollingStyleNone
  | RollingStyleOther (s : string).

#[export] Instance RollingStyle_eq_dec : EqDecision RollingStyleType.
Proof. solve_decision. Defined.

(** ** The strategy's methods *)

(** A strategy with neither part dereferences the nil [Canary]. *)
Definition GetRollingStyle (r : RolloutStrategy) : res RollingStyleType :=
  match BlueGreen r with
  | Some _ => Ok BlueGreenRollingStyle
  | None =>
      res_bind (deref (Canary r)) (fun c =>
        Ok (if cn_EnableExtraWorkloadForCanary c
            then CanaryRollingStyle else PartitionRollingStyle))
  end.

Definition IsBlueGreenRelease (r : RolloutStrategy) : res bool :=
  res_map (fun st => bool_decide (st = BlueGreenRollingStyle)) (GetRollingStyle r).

Definition IsCanaryStragegy (r : RolloutStrategy) : res bool :=
  res_map (fun st => bool_decide (st = CanaryRollingStyle)
                     || bool_decide (st = PartitionRollingStyle)) (GetRollingStyle r).

Definition IsEmptyRelease (r : RolloutStrategy) : bool :=
  match BlueGreen r, Canary r with None, None => true | _, _ => false end.

Definition GetSteps (r : RolloutStrategy) : res (list CanaryStep) :=
  res_bind (GetRollingStyle r) (fun st =>
    match st with
    | BlueGreenRollingStyle => res_map bg_Steps (deref (BlueGreen r))
    | CanaryRollingStyle | PartitionRollingStyle => res_map cn_Steps (deref (Canary r))
    | _ => Ok []
    end).

Definition GetTrafficRouting (r : RolloutStrategy) : res (list TrafficRoutingRef) :=
  res_bind (GetRollingStyle r) (fun st =>
    match st with
    | BlueGreenRollingStyle => res_map bg_TrafficRoutings (deref (BlueGreen r))
    | CanaryRollingStyle | PartitionRollingStyle =>
        res_map cn_TrafficRoutings (deref (Canary r))
    | _ => Ok []
    end).

Definition HasTrafficRoutings (r : RolloutStrategy) : res bool :=
  res_map (fun l => bool_decide (len l > 0)) (GetTrafficRouting r).

Definition DisableGenerateCanaryService (r : RolloutStrategy) : res bool :=
  res_bind (GetRollingStyle r) (fun st =>
    match st with
    | BlueGreenRollingStyle =>
        res_map bg_DisableGenerateCanaryService (deref (BlueGreen r))
    | CanaryRollingStyle | PartitionRollingStyle =>
        res_map cn_DisableGenerateCanaryService (deref (Canary r))
    | _ => Ok false
    end).

(** ** Rollout status *)

Inductive CanaryStepState :=
  | CanaryStepStateInit
  | CanaryStepStateUpgrade
  | CanaryStepStateTrafficRouting
  | CanaryStepStateMetricsAnalysis
  | CanaryStepStatePaused
  | CanaryStepStateReady
  | CanaryStepStateCompleted
  | CanaryStepStateOther (s : string).

#[export] Instance CanaryStepState_eq_dec : EqDecision CanaryStepState.
Proof. solve_decision. Defined.

(** Phases of rollouts and of release plans; [""] is [RolloutPhaseNone]. *)
Inductive RolloutPhase :=
  | RolloutPhaseInitial
  | RolloutPhaseHealthy
  | RolloutPhaseProgressing
  | RolloutPhaseTerminating
  | RolloutPhaseDisabled
  | RolloutPhaseDisabling
  | RolloutPhasePreparing
  | RolloutPhaseFinalizing
  | RolloutPhaseCompleted
  | RolloutPhaseNone
  | RolloutPhaseOther (s : string).

#[export] Instance RolloutPhase_eq_dec : EqDecision RolloutPhase.
Proof. solve_decision. Defined.

(** [""] is [FinalisingStepNone]. *)
Inductive FinalisingStepType :=
  | FinalisingStepRouteTrafficToNew
  | FinalisingStepRouteTrafficToStable
  | FinalisingStepRestoreStableService
  | FinalisingStepRemoveCanaryService
  | FinalisingStepResumeWorkload
  | FinalisingStepReleaseWorkloadControl
  | FinalisingStepTypeEnd
  | FinalisingStepWaitEndless
  | FinalisingStepNone
  | FinalisingStepOther (s : string).

#[export] Instance FinalisingStep_eq_dec : EqDecision FinalisingStepType.
Proof. solve_decision. Defined.

Inductive RolloutConditionType :=
  | RolloutConditionProgressing
  | RolloutConditionSucceeded
  | RolloutConditionTerminating
  | RolloutConditionStrategyInitialized
  | RolloutConditionStrategyBatching
  | RolloutConditionStrategyDegraded
  | RolloutConditionStrategyFinalized
  | RolloutConditionOther (s : string).

#[export] Instance RolloutConditionType_eq_dec : EqDecision RolloutConditionType.
Proof. solve_decision. Defined.

(** Reasons of the Progressing and Terminating conditions. *)
Definition ProgressingReasonInitializing : string := "Initializing".
Definition ProgressingReasonInRolling : string := "InRolling".
Definition ProgressingReasonFinalising : string := "Finalising".
Definition ProgressingReasonCompleted : string := "Completed".
Definition ProgressingReasonCancelling : string := "Cancelling".
Definition ProgressingReasonPaused : string := "Paused".
Definition TerminatingReasonInTerminating : string := "InTerminating".
Definition TerminatingReasonCompleted : string := "Completed".

Definition FinaliseReasonSuccess : string := "Success".
Definition FinaliseReasonRollback : string := "Rollback".
Definition FinaliseReasonContinuous : string := "Continuous".
Definition FinaliseReasonDisalbed : string := "RolloutDisabled".
Definition FinaliseReasonDelete : string := "RolloutDeleting".

Record RolloutCondition := mkCondition {
  Type_ : RolloutConditionType;
  cond_Status : ConditionStatus;
  LastUpdateTime : Z;
  LastTransitionTime : Z;
  Reason : string;
  cond_Message : string
}.
#[export] Instance eta_RolloutCondition : Eta RolloutCondition := fun x =>
  mkCondition (Type_ x) (cond_Status x) (LastUpdateTime x) (LastTransitionTime x)
    (Reason x) (cond_Message x).
#[export] Instance RolloutCondition_eq_dec : EqDecision RolloutCondition.
Proof. solve_decision. Defined.

Record CommonStatus := mkCommon {
  ObservedWorkloadGeneration : Z;
  ObservedRolloutID : string;
  RolloutHash : string;
  StableRevision : string;
  PodTemplateHash : string;
  CurrentStepIndex : Z;
  NextStepIndex : Z;
  FinalisingStep : FinalisingStepType;
  CurrentStepState : CanaryStepState;
  cs_Message : string;
  cs_LastUpdateTime : option Z
}.
#[export] Instance eta_CommonStatus : Eta CommonStatus := fun x =>
  mkCommon (ObservedWorkloadGeneration x) (ObservedRolloutID x) (RolloutHash x)
    (StableRevision x) (PodTemplateHash x) (CurrentStepIndex x) (NextStepIndex x)
    (FinalisingStep x) (CurrentStepState x) (cs_Message x) (cs_LastUpdateTime x).
#[export] Instance CommonStatus_eq_dec : EqDecision CommonStatus.
Proof. solve_decision. Defined.

(** [CanaryStatus] and [BlueGreenStatus] embed [CommonStatus]; their own three
    fields (revision, replicas, ready replicas) differ in name only. *)
Record CanaryStatusT := mkCanaryStatus {
  cn_Common : CommonStatus;
  CanaryRevision : string;
  CanaryReplicas : Z;
  CanaryReadyReplicas : Z
}.
#[export] Instance eta_CanaryStatus : Eta CanaryStatusT := fun x =>
  mkCanaryStatus (cn_Common x) (CanaryRevision x) (CanaryReplicas x) (CanaryReadyReplicas x).
#[export] Instance CanaryStatus_eq_dec : EqDecision CanaryStatusT.
Proof. solve_decision. Defined.

Record BlueGreenStatusT := mkBlueGreenStatus {
  bg_Common : CommonStatus;
  UpdatedRevision : string;
  UpdatedReplicas : Z;
  UpdatedReadyReplicas : Z
}.
#[export] Instance eta_BlueGreenStatus : Eta BlueGreenStatusT := fun x =>
  mkBlueGreenStatus (bg_Common x) (UpdatedRevision x) (UpdatedReplicas x) (UpdatedReadyReplicas x).
#[export] Instance BlueGreenStatus_eq_dec : EqDecision BlueGreenStatusT.
Proof. solve_decision. Defined.

Record RolloutStatus := mkStatus {
  ObservedGeneration : Z;
  CanaryStatus : option CanaryStatusT;
  BlueGreenStatus : option BlueGreenStatusT;
  Conditions : list RolloutCondition;
  Phase : RolloutPhase;
  Message : string;
  st_CurrentStepIndex : Z;
  st_CurrentStepState : CanaryStepState
}.
#[export] Instance eta_RolloutStatus : Eta RolloutStatus := fun x =>
  mkStatus (ObservedGeneration x) (CanaryStatus x) (BlueGreenStatus x) (Conditions x)
    (Phase x) (Message x) (st_CurrentStepIndex x) (st_CurrentStepState x).
#[export] Instance RolloutStatus_eq_dec : EqDecision RolloutStatus.
Proof. solve_decision. Defined.

Definition GetSubStatus (r : RolloutStatus) : option CommonStatus :=
  match CanaryStatus r, BlueGreenStatus r with
  | None, None => None
  | Some c, _ => Some (cn_Common c)
  | None, Some b => Some (bg_Common b)
  end.

(** [f(r.GetSubStatus())] for an [f] that writes through the pointer. *)
Definition modSubStatus (f : CommonStatus -> CommonStatus) (r : RolloutStatus) : RolloutStatus :=
  match CanaryStatus r, BlueGreenStatus r with
  | None, None => r
  | Some c, _ => r <| CanaryStatus := Some (c <| cn_Common := f (cn_Common c) |>) |>
  | None, Some b => r <| BlueGreenStatus := Some (b <| bg_Common := f (bg_Common b) |>) |>
  end.

Definition IsSubStatusEmpty (r : RolloutStatus) : bool :=
  match CanaryStatus r, BlueGreenStatus r with None, None => true | _, _ => false end.

Definition Clear (r : RolloutStatus) : RolloutStatus :=
  r <| CanaryStatus := None |> <| BlueGreenStatus := None |>.

Definition GetCanaryRevision (r : RolloutStatus) : string :=
  match CanaryStatus r, BlueGreenStatus r with
  | Some c, _ => CanaryRevision c
  | None, Some b => UpdatedRevision b
  | None, None => ""
  end.

Definition SetCanaryRevision (rev : string) (r : RolloutStatus) : RolloutStatus :=
  let r1 := match CanaryStatus r with
            | Some c => r <| CanaryStatus := Some (c <| CanaryRevision := rev |>) |>
            | None => r
            end in
  match BlueGreenStatus r1 with
  | Some b => r1 <| BlueGreenStatus := Some (b <| UpdatedRevision := rev |>) |>
  | None => r1
  end.

(** Reading without a sub-status is a nil dereference. *)
Definition GetCanaryReplicas (r : RolloutStatus) : res Z :=
  match CanaryStatus r with
  | Some c => Ok (CanaryReplicas c)
  | None => res_map UpdatedReplicas (deref (BlueGreenStatus r))
  end.
Definition GetCanaryReadyReplicas (r : RolloutStatus) : res Z :=
  match CanaryStatus r with
  | Some c => Ok (CanaryReadyReplicas c)
  | None => res_map UpdatedReadyReplicas (deref (BlueGreenStatus r))
  end.
Definition SetCanaryReplicas (replicas : Z) (r : RolloutStatus) : RolloutStatus :=
  r <| CanaryStatus := option_map (fun c => c <| CanaryReplicas := replicas |>) (CanaryStatus r) |>
    <| BlueGreenStatus := option_map (fun b => b <| UpdatedReplicas := replicas |>) (BlueGreenStatus r) |>.
Definition SetCanaryReadyReplicas (replicas : Z) (r : RolloutStatus) : RolloutStatus :=
  r <| CanaryStatus := option_map (fun c => c <| CanaryReadyReplicas := replicas |>) (CanaryStatus r) |>
    <| BlueGreenStatus := option_map (fun b => b <| UpdatedReadyReplicas := replicas |>) (BlueGreenStatus r) |>.

(** What was set is read, whatever the style. *)
Lemma GetCanaryReplicas_set replicas r :
  IsSubStatusEmpty r = false -> GetCanaryReplicas (SetCanaryReplicas replicas r) = Ok replicas.
Proof. unfold IsSubStatusEmpty, GetCanaryReplicas. simpl. by destruct (CanaryStatus r), (BlueGreenStatus r). Qed.
Lemma GetCanaryReadyReplicas_set replicas r :
  IsSubStatusEmpty r = false -> GetCanaryReadyReplicas (SetCanaryReadyReplicas replicas r) = Ok replicas.
Proof. unfold IsSubStatusEmpty, GetCanaryReadyReplicas. simpl. by destruct (CanaryStatus r), (BlueGreenStatus r). Qed.

(** ** The Rollout object *)

Record Rollout := mkRollout {
  ro_Meta : ObjectMeta;
  ro_Spec : RolloutSpec;
  ro_Status : RolloutStatus
}.
#[export] Instance eta_Rollout : Eta Rollout := fun x =>
  mkRollout (ro_Meta x) (ro_Spec x) (ro_Status x).

Definition ro_Strategy (r : Rollout) : RolloutStrategy := Strategy (ro_Spec r).

Definition appsv1 : string := "apps/v1".

(** [v1beta1.SchemeGroupVersion] *)
Definition rolloutsAPI : string := "rollouts.kruise.io/v1beta1".

Definition IsRealPartition (rollout : Rollout) : res bool :=
  if IsEmptyRelease (ro_Strategy rollout) then Ok false else
  res_bind (GetRollingStyle (ro_Strategy rollout)) (fun estimation =>
    if decide (estimation = BlueGreenRollingStyle) then Ok false else
    let targetRef := WorkloadRef (ro_Spec rollout) in
    if String.eqb (APIVersion targetRef) appsv1 && String.eqb (Kind targetRef) "Deployment"
       && bool_decide (estimation = CanaryRollingStyle)
    then Ok false else Ok true).

(** ** BatchRelease *)

Record ReleaseBatch := mkBatch { batch_CanaryReplicas : IntOrString }.
#[export] Instance ReleaseBatch_eq_dec : EqDecision ReleaseBatch.
Proof. solve_decision. Defined.

(** [""] is [FinalizingPolicyNone]. *)
Inductive FinalizingPolicyType :=
  | WaitResumeFinalizingPolicyType
  | ImmediateFinalizingPolicyType
  | FinalizingPolicyNone
  | FinalizingPolicyOther (s : string).
#[export] Instance FinalizingPolicy_eq_dec : EqDecision FinalizingPolicyType.
Proof. solve_decision. Defined.

Record ReleasePlan := mkPlan {
  Batches : list ReleaseBatch;
  BatchPartition : option Z;
  RolloutID : string;
  FailureThreshold : option IntOrString;
  FinalizingPolicy : FinalizingPolicyType;
  rp_PatchPodTemplateMetadata : option PatchPodTemplateMetadata;
  RollingStyle : RollingStyleType;
  EnableExtraWorkloadForCanary : bool
}.
#[export] Instance eta_ReleasePlan : Eta ReleasePlan := fun x =>
  mkPlan (Batches x) (BatchPartition x) (RolloutID x) (FailureThreshold x)
    (FinalizingPolicy x) (rp_PatchPodTemplateMetadata x) (RollingStyle x)
    (EnableExtraWorkloadForCanary x).
#[export] Instance ReleasePlan_eq_dec : EqDecision ReleasePlan.
Proof. solve_decision. Defined.

Inductive BatchReleaseBatchStateType :=
  | UpgradingBatchState
  | VerifyingBatchState
  | ReadyBatchState
  | BatchStateNone
  | BatchStateOther (s : string).
#[export] Instance BatchState_eq_dec : EqDecision BatchReleaseBatchStateType.
Proof. solve_decision. Defined.

Record BatchReleaseCanaryStatus := mkBRCanaryStatus {
  CurrentBatchState : BatchReleaseBatchStateType;
  CurrentBatch : Z;
  BatchReadyTime : option Z;
  br_UpdatedReplicas : Z;
  br_UpdatedReadyReplicas : Z;
  NoNeedUpdateReplicas : option Z
}.
#[export] Instance eta_BRCanaryStatus : Eta BatchReleaseCanaryStatus := fun x =>
  mkBRCanaryStatus (CurrentBatchState x) (CurrentBatch x) (BatchReadyTime x)
    (br_UpdatedReplicas x) (br_UpdatedReadyReplicas x) (NoNeedUpdateReplicas x).
#[export] Instance BRCanaryStatus_eq_dec : EqDecision BatchReleaseCanaryStatus.
Proof. solve_decision. Defined.

Record BatchReleaseStatus := mkBRStatus {
  br_Conditions : list RolloutCondition;
  br_CanaryStatus : BatchReleaseCanaryStatus;
  br_StableRevision : string;
  br_UpdateRevision : string;
  br_ObservedGeneration : Z;
  br_ObservedRolloutID : string;
  ObservedWorkloadReplicas : Z;
  CollisionCount : option Z;
  ObservedReleasePlanHash : string;
  br_Phase : RolloutPhase;
  br_Message : string
}.
#[export] Instance eta_BRStatus : Eta BatchReleaseStatus := fun x =>
  mkBRStatus (br_Conditions x) (br_CanaryStatus x) (br_StableRevision x)
    (br_UpdateRevision x) (br_ObservedGeneration x) (br_ObservedRolloutID x)
    (ObservedWorkloadReplicas x) (CollisionCount x) (ObservedReleasePlanHash x)
    (br_Phase x) (br_Message x).
#[export] Instance BRStatus_eq_dec : EqDecision BatchReleaseStatus.
Proof. solve_decision. Defined.

Record BatchReleaseSpec := mkBRSpec {
  br_WorkloadRef : ObjectRef;
  br_ReleasePlan : ReleasePlan
}.
#[export] Instance eta_BRSpec : Eta BatchReleaseSpec := fun x =>
  mkBRSpec (br_WorkloadRef x) (br_ReleasePlan x).
#[export] Instance BRSpec_eq_dec : EqDecision BatchReleaseSpec.
Proof. solve_decision. Defined.

Record BatchRelease := mkBR {
  br_Meta : ObjectMeta;
  br_Spec : BatchReleaseSpec;
  br_Status : BatchReleaseStatus
}.
#[export] Instance eta_BR : Eta BatchRelease := fun x =>
  mkBR (br_Meta x) (br_Spec x) (br_Status x).

Definition br_Plan (br : BatchRelease) : ReleasePlan := br_ReleasePlan (br_Spec br).
