(* ===== verification/Clock.v ===== *)
(** * Time and the API server

    What the controllers take from their environment: the wall clock and the
    Kubernetes API client.  Both are parameters of the model, classes over the
    type [W] of the world they act on; no theorem assumes more of them than the
    laws it names. *)

From S2P Require Export Api.

(** [time.Now()] and [metav1.Now()]: a reading, which may advance the world. *)
Class Clock (W : Type) := clock_now : W -> Z * W.

Definition time_Now {W} `{Clock W} : M W Z := fun w => let '(t, w') := clock_now w in (Ok t, w').

(** [rand.Int] below a bound. *)
Class RandomInt (W : Type) := rand_Int : Z -> M W Z.

(** An API object of any kind: the client addresses it by its metadata. *)
Class KubeObject (O : Type) := {
  metaOf : O -> ObjectMeta;
  withMeta : ObjectMeta -> O -> O
}.

#[export] Instance Rollout_object : KubeObject Rollout :=
  {| metaOf := ro_Meta; withMeta m r := r <| ro_Meta := m |> |}.
#[export] Instance BatchRelease_object : KubeObject BatchRelease :=
  {| metaOf := br_Meta; withMeta m r := r <| br_Meta := m |> |}.

(** A value a patch sets, and the path of JSON keys it sets it at.  [VQuoted] is a
    string by the text between its quotes in the body, escapes included; [VEmpty] is an
    object without fields. *)
Inductive FieldValue :=
  | VNull
  | VEmpty
  | VQuoted (literal : string)
  | VString (s : string)
  | VInt (n : Z)
  | VBool (b : bool).
#[export] Instance FieldValue_eq_dec : EqDecision FieldValue.
Proof. solve_decision. Defined.
Definition Field : Type := list string * FieldValue.

Definition annotationField (k : string) (v : FieldValue) : Field :=
  (["metadata"; "annotations"; k]%string, v).
Definition labelField (k : string) (v : FieldValue) : Field := (["metadata"; "labels"; k]%string, v).
Definition specField (path : list string) (v : FieldValue) : Field := ("spec"%string :: path, v).

(** How an [intstr.IntOrString] is marshalled. *)
Definition VIntOrString (v : IntOrString) : FieldValue :=
  match v with FromInt n => VInt n | FromString s => VString s end.
Definition VOption {A} (f : A -> FieldValue) (v : option A) : FieldValue :=
  match v with Some a => f a | None => VNull end.

(** The merge-patch bodies the controllers send: one constructor per format string of
    the rollout controller, where [None] is a JSON [null], and [PatchFields], the fields
    that a body sets, in the order of the body. *)
Inductive RawPatch :=
  | PatchFields (fields : list Field)
  | PatchAnnotation (k : string) (v : option string)
  | PatchLabel (k v : string)
  | PatchSelector (k : string) (v : option string)
  | PatchRolloutID (id : string)
  | PatchFinalize (policy : FinalizingPolicyType).

#[export] Instance RawPatch_eq_dec : EqDecision RawPatch.
Proof. solve_decision. Defined.

(** [client.Client] for objects of kind [O].  Every call may fail and may change
    the world in any way. *)
Class Api (W O : Type) := {
  api_Get : ObjectKey -> M W O;
  api_Create : O -> M W unit;
  api_Update : O -> M W unit;
  api_UpdateStatus : O -> M W unit;
  api_Patch : ObjectMeta -> RawPatch -> M W unit;
  api_Delete : ObjectKey -> M W unit
}.

(** [retry.RetryOnConflict] of client-go. *)
Class Retry (W : Type) := RetryOnConflict : M W unit -> M W unit.

(** Its documented behaviour when the first attempt does not conflict. *)
Class RetryLaws (W : Type) `{Retry W} :=
  retry_no_conflict : forall f w r w',
    f w = (r, w') -> r <> Err ErrConflict -> RetryOnConflict f w = (r, w').
