(* ===== verification/ApiAlpha.v ===== *)
(** * The v1alpha1 API objects (api/v1alpha1)

    The older version of the Rollout and BatchRelease resources and the
    TrafficRouting resource.  The string enums of the two versions are cast into
    each other, so both use the inductive types of Api.v; so do the references to
    workloads, networks and routes, whose structs have the same fields in both. *)

From S2P Require Export Clock.

Definition RolloutStyleAnnotation : string := "rollouts.kruise.io/rolling-style".

(** ** Rollouts *)

Record alpha_HttpRouteMatch := mkAlphaRouteMatch { a_Headers : list HTTPMatch }.
#[export] Instance alpha_HttpRouteMatch_eq_dec : EqDecision alpha_HttpRouteMatch.
Proof. solve_decision. Defined.

Record alpha_RolloutPause := mkAlphaPause { a_Duration : option Z }.

(** Both maps may be nil. *)
Record alpha_PatchPodTemplateMetadata := mkAlphaPatchMeta {
  a_PatchAnnotations : option (gmap string string);
  a_PatchLabels : option (gmap string string)
}.

(** [Matches] only matches headers; a nil and an empty list differ for the validation. *)
Record alpha_TrafficRoutingStrategy := mkAlphaTRStrategy {
  a_Weight : option Z;
  a_RequestHeaderModifier : option HTTPHeaderFilter;
  a_Matches : option (list alpha_HttpRouteMatch)
}.

Record alpha_TrafficRoutingRef := mkAlphaTRRef {
  a_Service : string;
  a_GracePeriodSeconds : Z;
  a_Ingress : option IngressTrafficRouting;
  a_Gateway : option GatewayTrafficRouting;
  a_CustomNetworkRefs : option (list ObjectRef)
}.
#[export] Instance alpha_TRRef_eq_dec : EqDecision alpha_TrafficRoutingRef.
Proof. solve_decision. Defined.

Record alpha_CanaryStep := mkAlphaStep {
  a_StepTraffic : alpha_TrafficRoutingStrategy;
  a_Replicas : option IntOrString;
  a_Pause : alpha_RolloutPause
}.

Record alpha_CanaryStrategy := mkAlphaCanary {
  a_Steps : list alpha_CanaryStep;
  a_TrafficRoutings : list alpha_TrafficRoutingRef;
  a_FailureThreshold : option IntOrString;
  a_PatchPodTemplateMetadata : option alpha_PatchPodTemplateMetadata;
  a_DisableGenerateCanaryService : bool
}.

Record alpha_RolloutSpec := mkAlphaSpec {
  a_WorkloadRef : option ObjectRef;
  a_Paused : bool;
  a_Canary : option alpha_CanaryStrategy;
  a_DeprecatedRolloutID : string;
  a_Disabled : bool
}.

Record alpha_RolloutCondition := mkAlphaCondition {
  ac_Type : RolloutConditionType;
  ac_Status : ConditionStatus;
  ac_LastUpdateTime : Z;
  ac_LastTransitionTime : Z;
  ac_Reason : string;
  ac_Message : string
}.

(** One flat struct, where v1beta1 embeds [CommonStatus]. *)
Record alpha_CanaryStatus := mkAlphaCanaryStatus {
  acs_ObservedWorkloadGeneration : Z;
  acs_ObservedRolloutID : string;
  acs_RolloutHash : string;
  acs_StableRevision : string;
  acs_CanaryRevision : string;
  acs_PodTemplateHash : string;
  acs_CanaryReplicas : Z;
  acs_CanaryReadyReplicas : Z;
  acs_NextStepIndex : Z;
  acs_CurrentStepIndex : Z;
  acs_CurrentStepState : CanaryStepState;
  acs_Message : string;
  acs_LastUpdateTime : option Z;
  acs_FinalisingStep : FinalisingStepType
}.

Record alpha_RolloutStatus := mkAlphaStatus {
  a_ObservedGeneration : Z;
  a_CanaryStatus : option alpha_CanaryStatus;
  a_Conditions : list alpha_RolloutCondition;
  a_Phase : RolloutPhase;
  a_Message : string
}.

Record alpha_Rollout := mkAlphaRollout {
  a_Meta : ObjectMeta;
  a_Spec : alpha_RolloutSpec;
  a_Status : alpha_RolloutStatus
}.

(** ** BatchReleases *)

Record alpha_ReleaseBatch := mkAlphaBatch { ab_CanaryReplicas : IntOrString }.

Record alpha_ReleasePlan := mkAlphaPlan {
  ab_Batches : list alpha_ReleaseBatch;
  ab_BatchPartition : option Z;
  ab_RolloutID : string;
  ab_FailureThreshold : option IntOrString;
  ab_FinalizingPolicy : FinalizingPolicyType;
  ab_PatchPodTemplateMetadata : option alpha_PatchPodTemplateMetadata;
  ab_RollingStyle : RollingStyleType;
  ab_EnableExtraWorkloadForCanary : bool
}.

Record alpha_BatchReleaseCanaryStatus := mkAlphaBRCanaryStatus {
  ab_CurrentBatchState : BatchReleaseBatchStateType;
  ab_CurrentBatch : Z;
  ab_BatchReadyTime : option Z;
  ab_UpdatedReplicas : Z;
  ab_UpdatedReadyReplicas : Z;
  ab_NoNeedUpdateReplicas : option Z
}.

(** The status of v1alpha1 has no message. *)
Record alpha_BatchReleaseStatus := mkAlphaBRStatus {
  ab_Conditions : list alpha_RolloutCondition;
  ab_CanaryStatus : alpha_BatchReleaseCanaryStatus;
  ab_StableRevision : string;
  ab_UpdateRevision : string;
  ab_ObservedGeneration : Z;
  ab_ObservedRolloutID : string;
  ab_ObservedWorkloadReplicas : Z;
  ab_CollisionCount : option Z;
  ab_ObservedReleasePlanHash : string;
  ab_Phase : RolloutPhase
}.

Record alpha_BatchReleaseSpec := mkAlphaBRSpec {
  ab_WorkloadRef : option ObjectRef;
  ab_ReleasePlan : alpha_ReleasePlan
}.

Record alpha_BatchRelease := mkAlphaBR {
  ab_Meta : ObjectMeta;
  ab_Spec : alpha_BatchReleaseSpec;
  ab_Status : alpha_BatchReleaseStatus
}.

(** ** TrafficRoutings *)

Inductive TrafficRoutingPhase :=
  | TrafficRoutingPhaseInitial
  | TrafficRoutingPhaseHealthy
  | TrafficRoutingPhaseProgressing
  | TrafficRoutingPhaseFinalizing
  | TrafficRoutingPhaseTerminating
  | TrafficRoutingPhaseNone
  | TrafficRoutingPhaseOther (s : string).
#[export] Instance TRPhase_eq_dec : EqDecision TrafficRoutingPhase.
Proof. solve_decision. Defined.

Record TrafficRoutingStatus := mkTRStatus {
  trs_ObservedGeneration : Z;
  trs_Phase : TrafficRoutingPhase;
  trs_Message : string
}.
#[export] Instance eta_TRStatus : Eta TrafficRoutingStatus := fun x =>
  mkTRStatus (trs_ObservedGeneration x) (trs_Phase x) (trs_Message x).
#[export] Instance TRStatus_eq_dec : EqDecision TrafficRoutingStatus.
Proof. solve_decision. Defined.

Record TrafficRouting := mkTrafficRouting {
  tro_Meta : ObjectMeta;
  tro_ObjectRef : list alpha_TrafficRoutingRef;
  tro_Strategy : alpha_TrafficRoutingStrategy;
  tro_Status : TrafficRoutingStatus
}.
#[export] Instance eta_TrafficRouting : Eta TrafficRouting := fun x =>
  mkTrafficRouting (tro_Meta x) (tro_ObjectRef x) (tro_Strategy x) (tro_Status x).
#[export] Instance TrafficRouting_object : KubeObject TrafficRouting :=
  {| metaOf := tro_Meta; withMeta m r := r <| tro_Meta := m |> |}.
