(* ===== verification/Condition.v ===== *)
(** * Status conditions (pkg/util/condition.go) *)

From S2P Require Export Clock.

Definition NewRolloutCondition {W} `{Clock W} (condType : RolloutConditionType)
    (status : ConditionStatus) (reason message : string) : M W RolloutCondition :=
  t1 <- time_Now ;;
  t2 <- time_Now ;;
  ret {| Type_ := condType; cond_Status := status; LastUpdateTime := t1;
         LastTransitionTime := t2; Reason := reason; cond_Message := message |}.

(** The loop of [GetRolloutCondition] and [GetBatchReleaseCondition].  Both return
    the address of a copy: writes through it do not reach the status. *)
Fixpoint findCondition (conds : list RolloutCondition) (condType : RolloutConditionType)
    : option RolloutCondition :=
  match conds with
  | [] => None
  | c :: rest => if decide (Type_ c = condType) then Some c else findCondition rest condType
  end.

Definition GetRolloutCondition (status : RolloutStatus) (condType : RolloutConditionType)
    : option RolloutCondition := findCondition (Conditions status) condType.

Definition GetBatchReleaseCondition (status : BatchReleaseStatus)
    (condType : RolloutConditionType) : option RolloutCondition :=
  findCondition (br_Conditions status) condType.

Fixpoint filterOutCondition (conds : list RolloutCondition) (condType : RolloutConditionType)
    : list RolloutCondition :=
  match conds with
  | [] => []
  | c :: rest =>
      if decide (Type_ c = condType) then filterOutCondition rest condType
      else c :: filterOutCondition rest condType
  end.

(** [currentCond != nil && ... ] of the two setters. *)
Definition sameCondition (current : option RolloutCondition) (condition : RolloutCondition)
    : bool :=
  match current with
  | Some c => bool_decide (cond_Status c = cond_Status condition)
              && String.eqb (Reason c) (Reason condition)
              && String.eqb (cond_Message c) (cond_Message condition)
  | None => false
  end.

Definition keepTransitionTime (current : option RolloutCondition) (condition : RolloutCondition)
    : RolloutCondition :=
  match current with
  | Some c => if decide (cond_Status c = cond_Status condition)
              then condition <| LastTransitionTime := LastTransitionTime c |>
              else condition
  | None => condition
  end.

(** The new status and whether the condition was updated. *)
Definition SetRolloutCondition (status : RolloutStatus) (condition : RolloutCondition)
    : RolloutStatus * bool :=
  let currentCond := GetRolloutCondition status (Type_ condition) in
  if sameCondition currentCond condition then (status, false) else
  let condition' := keepTransitionTime currentCond condition in
  let newConditions := filterOutCondition (Conditions status) (Type_ condition') in
  (status <| Conditions := (newConditions ++ [condition'])%list |>, true).

Definition SetBatchReleaseCondition (status : BatchReleaseStatus) (condition : RolloutCondition)
    : BatchReleaseStatus * bool :=
  let currentCond := GetBatchReleaseCondition status (Type_ condition) in
  if sameCondition currentCond condition then (status, false) else
  let condition' := keepTransitionTime currentCond condition in
  let newConditions := filterOutCondition (br_Conditions status) (Type_ condition') in
  (status <| br_Conditions := (newConditions ++ [condition'])%list |>, true).

Definition RemoveRolloutCondition (status : RolloutStatus) (condType : RolloutConditionType)
    : RolloutStatus :=
  status <| Conditions := filterOutCondition (Conditions status) condType |>.

Definition RemoveBatchReleaseCondition (status : BatchReleaseStatus)
    (condType : RolloutConditionType) : BatchReleaseStatus :=
  status <| br_Conditions := filterOutCondition (br_Conditions status) condType |>.

(** ** Lemmas on condition lists *)

Lemma findCondition_type l t c : findCondition l t = Some c -> Type_ c = t.
Proof.
  induction l as [|d l IH]; simpl; [done|]. case_decide; [|done].
  by intros [= <-].
Qed.

Lemma findCondition_app l1 l2 t :
  findCondition (l1 ++ l2) t =
  match findCondition l1 t with Some c => Some c | None => findCondition l2 t end.
Proof. induction l1 as [|d l1 IH]; simpl; [done|]. by case_decide. Qed.

Lemma find_filterOut_same l t : findCondition (filterOutCondition l t) t = None.
Proof.
  induction l as [|d l IH]; simpl; [done|]. case_decide; [done|].
  simpl. by rewrite decide_False.
Qed.

Lemma find_filterOut_other l t t' :
  t <> t' -> findCondition (filterOutCondition l t) t' = findCondition l t'.
Proof.
  intros Hne. induction l as [|d l IH]; simpl; [done|].
  case_decide as H1.
  - rewrite decide_False by congruence. done.
  - simpl. by rewrite IH.
Qed.

Lemma filterOut_elem l t c : c ∈ filterOutCondition l t <-> c ∈ l /\ Type_ c <> t.
Proof.
  induction l as [|d l IH]; simpl; [set_solver|].
  case_decide; [|rewrite elem_of_cons, IH]; set_solver.
Qed.

(** Each condition type at most once. *)
Definition uniqueTypes (l : list RolloutCondition) : Prop := NoDup (map Type_ l).

Lemma filterOut_unique l t : uniqueTypes l -> uniqueTypes (filterOutCondition l t).
Proof.
  unfold uniqueTypes. induction l as [|d l IH]; simpl; [done|].
  rewrite NoDup_cons. intros [Hni Hnd]. case_decide; [by apply IH|].
  simpl. rewrite NoDup_cons. split; [|by apply IH].
  rewrite !list_elem_of_fmap in *. intros (c & Hc & Hin). apply filterOut_elem in Hin.
  apply Hni. exists c. set_solver.
Qed.

Lemma keepTransitionTime_type cur c : Type_ (keepTransitionTime cur c) = Type_ c.
Proof. destruct cur; simpl; [case_decide|]; done. Qed.

(** What a condition means to a reader: everything but its two timestamps. *)
Definition condMeaning (c : RolloutCondition) : RolloutConditionType * ConditionStatus * string * string :=
  (Type_ c, cond_Status c, Reason c, cond_Message c).

Lemma keepTransitionTime_meaning cur c : condMeaning (keepTransitionTime cur c) = condMeaning c.
Proof. destruct cur; simpl; [case_decide|]; done. Qed.

Lemma sameCondition_meaning l c :
  sameCondition (findCondition l (Type_ c)) c = true ->
  exists d, findCondition l (Type_ c) = Some d /\ condMeaning d = condMeaning c.
Proof.
  destruct (findCondition l (Type_ c)) as [d|] eqn:E; simpl; [|done].
  intros H. exists d. split; [done|].
  apply findCondition_type in E.
  apply andb_true_iff in H as [[H1%bool_decide_eq_true H2%String.eqb_eq]%andb_true_iff H3%String.eqb_eq].
  unfold condMeaning. congruence.
Qed.

(** The condition that was set reads back. *)
Lemma SetRolloutCondition_same status c :
  exists d, GetRolloutCondition (fst (SetRolloutCondition status c)) (Type_ c) = Some d
    /\ condMeaning d = condMeaning c
    /\ forall old, GetRolloutCondition status (Type_ c) = Some old ->
         cond_Status old = cond_Status c -> LastTransitionTime d = LastTransitionTime old.
Proof.
  unfold SetRolloutCondition, GetRolloutCondition.
  destruct (sameCondition _ c) eqn:Hs; simpl.
  - apply sameCondition_meaning in Hs as (d & Hd & Hm).
    exists d. split; [done|]. split; [done|]. intros. congruence.
  - rewrite keepTransitionTime_type.
    exists (keepTransitionTime (findCondition (Conditions status) (Type_ c)) c).
    rewrite findCondition_app, find_filterOut_same. simpl.
    rewrite decide_True by apply keepTransitionTime_type.
    split; [done|]. split; [apply keepTransitionTime_meaning|].
    intros old -> Hst. simpl. by rewrite decide_True.
Qed.

Lemma SetRolloutCondition_other status c t :
  t <> Type_ c ->
  GetRolloutCondition (fst (SetRolloutCondition status c)) t = GetRolloutCondition status t.
Proof.
  intros Ht. unfold SetRolloutCondition, GetRolloutCondition.
  destruct (sameCondition _ c) eqn:Hs; simpl; [done|].
  rewrite keepTransitionTime_type, findCondition_app, find_filterOut_other by congruence.
  destruct (findCondition _ t); [done|]. simpl.
  rewrite decide_False; [done|]. rewrite keepTransitionTime_type. congruence.
Qed.

Lemma SetRolloutCondition_unique status c :
  uniqueTypes (Conditions status) ->
  uniqueTypes (Conditions (fst (SetRolloutCondition status c))).
Proof.
  intros Hu. unfold SetRolloutCondition. destruct (sameCondition _ c); simpl; [done|].
  rewrite keepTransitionTime_type. unfold uniqueTypes. rewrite map_app. apply NoDup_app.
  split; [by apply filterOut_unique|]. split; [|apply NoDup_singleton]. simpl.
  rewrite keepTransitionTime_type. intros x Hx%list_elem_of_fmap [= ->]%list_elem_of_singleton.
  destruct Hx as (d & Hd & Hin). apply filterOut_elem in Hin. naive_solver.
Qed.

(** Setting a condition changes the conditions only. *)
Lemma SetRolloutCondition_rest status c :
  (fst (SetRolloutCondition status c)) <| Conditions := Conditions status |> = status.
Proof. unfold SetRolloutCondition. destruct (sameCondition _ c); by destruct status. Qed.

(** ** Properties *)

(** After [SetRolloutCondition] the status has exactly one condition of the given
    type, the one asked for (status, reason and message; the transition time is
    the old one when the status did not flip); every other type reads as before;
    and uniqueness of types is preserved. *)
Theorem SetRolloutCondition_spec (status : RolloutStatus) (c : RolloutCondition)
    (Hu : uniqueTypes (Conditions status)) :
  let status' := fst (SetRolloutCondition status c) in
  (exists d, GetRolloutCondition status' (Type_ c) = Some d /\ condMeaning d = condMeaning c
     /\ forall old, GetRolloutCondition status (Type_ c) = Some old ->
          cond_Status old = cond_Status c -> LastTransitionTime d = LastTransitionTime old)
  /\ (forall t, t <> Type_ c -> GetRolloutCondition status' t = GetRolloutCondition status t)
  /\ uniqueTypes (Conditions status').
Proof.
  split; [apply SetRolloutCondition_same|]. split; [|by apply SetRolloutCondition_unique].
  intros t Ht. by apply SetRolloutCondition_other.
Qed.
