(* ===== verification/Grace.v ===== *)
(** * Grace expectations (pkg/util/grace)

    After a network resource is modified the controllers wait a grace period
    before they act on it.  [realGraceExpectations] records when each
    (key, action) was last modified; [runWithGraceSeconds] runs an idempotent
    function and says whether to come back later. *)

From S2P Require Export Clock.

Abbreviation Action := string (only parsing).

(** [controllerCache]: never an empty inner map once [Observe] removed its last action. *)
Abbreviation GraceStore := (gmap string (gmap string Z)).

Definition NewGraceExpectations : GraceStore := ∅.

(** [expectations[action]] of a key; a nil inner map reads as a missing action. *)
Definition pending (st : GraceStore) (key : string) (action : Action) : option Z :=
  st !! key ≫= fun m => m !! action.

Definition Expect (recordTime : Z) (controllerKey : string) (action : Action)
    (st : GraceStore) : GraceStore :=
  let expectations := default ∅ (st !! controllerKey) in
  <[controllerKey := <[action := recordTime]> expectations]> st.

Definition Observe (controllerKey : string) (action : Action) (st : GraceStore) : GraceStore :=
  match st !! controllerKey with
  | None => st
  | Some expectations =>
      let expectations' := delete action expectations in
      if decide (expectations' = ∅) then delete controllerKey st
      else <[controllerKey := expectations']> st
  end.

(** [DeleteExpectations] and [GetExpectations]. *)
Definition DeleteExpectations (controllerKey : string) (st : GraceStore) : GraceStore :=
  delete controllerKey st.
Definition GetExpectations (controllerKey : string) (st : GraceStore) : option (gmap Action Z) :=
  st !! controllerKey.

(** The cleaner's sweep; [nowAt k a] is the clock when the item is inspected. *)
Definition CleanOutdatedItems (nowAt : string -> Action -> Z) (interval : Z)
    (st : GraceStore) : GraceStore :=
  let sweep k (m : gmap Action Z) :=
    let m' := filter (fun at_ => ~ (nowAt k (fst at_) - snd at_ > interval)) m in
    if decide (m' = ∅) then None else Some m' in
  map_imap sweep st.

(** The process-wide [DefaultGraceExpectations], as a part of the world. *)
Class HasGrace (W : Type) := {
  graceOf : W -> GraceStore;
  setGrace : GraceStore -> W -> W
}.

Class GraceLaws (W : Type) `{HasGrace W, Clock W} := {
  graceOf_set : forall g w, graceOf (setGrace g w) = g;
  clock_keeps_grace : forall w, graceOf (snd (clock_now w)) = graceOf w
}.

Section run.
Context {C W : Type} `{Clock W} `{HasGrace W}.

Definition modGrace (f : GraceStore -> GraceStore) : M (C * W) unit :=
  modify (fun s => (fst s, setGrace (f (graceOf (snd s))) (snd s))).

(** [SatisfiedExpectations]: the clock is read only when an entry exists. *)
Definition SatisfiedExpectations (controllerKey : string) (action : Action)
    (graceSeconds : Z) : M (C * W) (bool * Z) :=
  s <- get ;;
  match pending (graceOf (snd s)) controllerKey action with
  | None => ret (true, 0)
  | Some recordTime =>
      now <- inWorld time_Now ;;
      let remaining := graceSeconds * Second - (now - recordTime) in
      if decide (remaining <= 0) then ret (true, 0) else ret (false, remaining)
  end.

(** [f] answers [(modified, err)]; the result is [(retry, remaining, err)]. *)
Definition runWithGraceSeconds (key action : string) (graceSeconds : Z)
    (f : M (C * W) (bool * option goerror)) : M (C * W) (bool * Z * option goerror) :=
  me <- f ;;
  let '(modified, err) := me in
  match err with
  | Some e => ret (true, 0, Some e)
  | None =>
      if decide (graceSeconds = 0) then
        modGrace (Observe key action) ;;
        ret (false, 0, None)
      else if modified : bool then
        now <- inWorld time_Now ;;
        modGrace (Expect now key action) ;;
        ret (true, graceSeconds * Second, None)
      else
        sr <- SatisfiedExpectations key action graceSeconds ;;
        let '(satisfied, remaining) := sr in
        if satisfied : bool then
          modGrace (Observe key action) ;;
          ret (false, 0, None)
        else ret (true, remaining, None)
  end.

Definition RunWithGraceSeconds := runWithGraceSeconds.
End run.

(** ** The store's laws *)

Lemma pending_expect t k a st k' a' :
  pending (Expect t k a st) k' a' =
  if decide (k = k' /\ a = a') then Some t else pending st k' a'.
Proof.
  unfold pending, Expect. destruct (decide (k = k')) as [<-|Hk].
  - rewrite lookup_insert_eq. simpl. destruct (decide (a = a')) as [<-|Ha].
    + rewrite lookup_insert_eq. by rewrite decide_True.
    + rewrite lookup_insert_ne by done. rewrite decide_False by naive_solver.
      by destruct (st !! k).
  - rewrite lookup_insert_ne by done. rewrite decide_False by naive_solver. done.
Qed.

Lemma pending_observe k a st k' a' :
  pending (Observe k a st) k' a' =
  if decide (k = k' /\ a = a') then None else pending st k' a'.
Proof.
  unfold Observe. destruct (st !! k) as [m|] eqn:Hm.
  - destruct (decide (k = k')) as [<-|Hk].
    + assert (Hd : delete a m !! a' = if decide (k = k /\ a = a') then None else pending st k a').
      { unfold pending. rewrite lookup_delete, Hm. simpl. repeat case_decide; naive_solver. }
      rewrite <- Hd. destruct (decide (delete a m = ∅)) as [He|He]; unfold pending.
      * by rewrite lookup_delete_eq, He, lookup_empty.
      * by rewrite lookup_insert_eq.
    + rewrite (decide_False (P := k = k' /\ a = a')) by naive_solver. unfold pending.
      destruct (decide (delete a m = ∅));
        [rewrite lookup_delete_ne by done | rewrite lookup_insert_ne by done]; done.
  - case_decide as Hka; [|done]. destruct Hka as [<- <-]. unfold pending. by rewrite Hm.
Qed.

Lemma pending_clean nowAt interval st k a :
  pending (CleanOutdatedItems nowAt interval st) k a =
  match pending st k a with
  | Some t => if decide (nowAt k a - t > interval) then None else Some t
  | None => None
  end.
Proof.
  unfold pending, CleanOutdatedItems. rewrite map_lookup_imap.
  destruct (st !! k) as [m|]; simpl; [|done].
  set (P := fun at_ : Action * Z => ~ (nowAt k (fst at_) - snd at_ > interval)).
  assert (Hl : filter P m !! a =
    match m !! a with Some t => if decide (nowAt k a - t > interval) then None else Some t
                    | None => None end).
  { rewrite map_lookup_filter. destruct (m !! a) as [t|]; simpl; [|done].
    unfold guard, P. simpl. repeat case_decide; try done; lia. }
  case_decide as He; simpl; rewrite <- Hl; [|done]. by rewrite He, lookup_empty.
Qed.

(** ** Properties *)

Section grace_window.
Context {C W : Type} `{Clock W} `{HasGrace W} `{!GraceLaws W}.
Variables (key action : string) (g : Z) (f : M (C * W) (bool * option goerror)).

(** One call of [RunWithGraceSeconds] from [(c, w)] in which [f] ended in
    [(c1, w1)] with [modified] and no error, and left the store alone. *)
Definition quietCall (modified : bool) (c : C) (w : W) (c1 : C) (w1 : W) : Prop :=
  f (c, w) = (Ok (modified, None), (c1, w1)) /\ graceOf w1 = graceOf w.

Lemma modGrace_run (h : GraceStore -> GraceStore) (c : C) (w : W) :
  modGrace h (c, w) = (Ok tt, (c, setGrace (h (graceOf w)) w)).
Proof. done. Qed.

Lemma run_modified c w c1 w1 :
  quietCall true c w c1 w1 -> g <> 0 ->
  exists w2, runWithGraceSeconds key action g f (c, w) = (Ok (true, g * Second, None), (c1, w2))
    /\ graceOf w2 = Expect (fst (clock_now w1)) key action (graceOf w).
Proof.
  intros [Hf Hg] Hne. unfold runWithGraceSeconds, bind, inWorld, time_Now. rewrite Hf.
  rewrite decide_False by done. simpl.
  pose proof (clock_keeps_grace w1) as Hk. destruct (clock_now w1) as [t w2] eqn:E. simpl in *.
  eexists. split; [done|]. by rewrite graceOf_set, Hk, Hg.
Qed.

Lemma run_unmodified c w c1 w1 t0 :
  quietCall false c w c1 w1 -> g <> 0 -> pending (graceOf w) key action = Some t0 ->
  let t := fst (clock_now w1) in
  exists w2,
    if decide (t - t0 < g * Second)
    then runWithGraceSeconds key action g f (c, w)
           = (Ok (true, g * Second - (t - t0), None), (c1, w2)) /\ graceOf w2 = graceOf w
    else runWithGraceSeconds key action g f (c, w) = (Ok (false, 0, None), (c1, w2))
           /\ graceOf w2 = Observe key action (graceOf w).
Proof.
  intros [Hf Hg] Hne Hp. unfold runWithGraceSeconds, SatisfiedExpectations, bind, inWorld,
    time_Now, get. rewrite Hf. rewrite decide_False by done. simpl. rewrite Hg, Hp.
  pose proof (clock_keeps_grace w1) as Hk. destruct (clock_now w1) as [t w2] eqn:E. simpl in *.
  rewrite ?E. simpl.
  destruct (decide (t - t0 < g * Second)) as [Hlt|Hlt].
  - rewrite decide_False by lia. simpl. exists w2. split; [done|congruence].
  - rewrite decide_True by lia. simpl. eexists. split; [done|].
    by rewrite graceOf_set, Hk, Hg.
Qed.

Lemma run_unexpected c w c1 w1 :
  quietCall false c w c1 w1 -> g <> 0 -> pending (graceOf w) key action = None ->
  exists w2, runWithGraceSeconds key action g f (c, w)
    = (Ok (false, 0, None), (c1, w2)) /\ graceOf w2 = Observe key action (graceOf w).
Proof.
  intros [Hf Hg] Hne Hp. unfold runWithGraceSeconds, SatisfiedExpectations, bind, get. rewrite Hf.
  rewrite decide_False by done. simpl. rewrite Hg, Hp. simpl. eexists. split; [done|].
  by rewrite graceOf_set, ?Hg.
Qed.
End grace_window.

(** The cleaner, which the package starts with this interval between its sweeps and as
    the age beyond which it drops an entry. *)
Definition ExpectationGraceTimeout : Z := 300 * Second.

(** What can happen to the store while one (key, action) waits, each event ending in the
    world of the next: a call for it finds nothing to do and asks for a retry; the cleaner
    sweeps; or the world changes in another way that leaves its entry alone, as the clock
    or the calls for other resources.  The list has the readings of the clock at which the
    sweeps inspected the entry. *)
Inductive waiting {C W} `{Clock W} `{HasGrace W} (key action : string) (g : Z)
    (f : M (C * W) (bool * option goerror)) : W -> list Z -> W -> Prop :=
  | waiting_none w : waiting key action g f w [] w
  | waiting_poll w c c1 w1 rem c2 w2 sweeps w3 :
      quietCall f false c w c1 w1 ->
      runWithGraceSeconds key action g f (c, w) = (Ok (true, rem, None), (c2, w2)) ->
      waiting key action g f w2 sweeps w3 ->
      waiting key action g f w sweeps w3
  | waiting_sweep w nowAt sweeps w3 :
      waiting key action g f
        (setGrace (CleanOutdatedItems nowAt ExpectationGraceTimeout (graceOf w)) w) sweeps w3 ->
      waiting key action g f w (nowAt key action :: sweeps) w3
  | waiting_other w w2 sweeps w3 :
      pending (graceOf w2) key action = pending (graceOf w) key action ->
      waiting key action g f w2 sweeps w3 ->
      waiting key action g f w sweeps w3.

(** The sweeps drop the entry exactly when one inspects it too late. *)
Lemma waiting_pending {C W} `{Clock W} `{HasGrace W} `{!GraceLaws W}
    (key action : string) (g t0 : Z) (f : M (C * W) (bool * option goerror)) w sweeps w3 :
  0 < g -> waiting key action g f w sweeps w3 ->
  (pending (graceOf w) key action = None -> pending (graceOf w3) key action = None)
  /\ (pending (graceOf w) key action = Some t0 ->
      pending (graceOf w3) key action
      = if decide (Forall (fun s => s - t0 <= ExpectationGraceTimeout) sweeps) then Some t0 else None).
Proof.
  intros Hg Hw. induction Hw as [w|w c c1 w1 rem c2 w2 sweeps w3 Hq Hr _ IH|w nowAt sweeps w3 _ IH|
                                 w w2 sweeps w3 Hsame _ IH].
  - split; [done|]. by rewrite decide_True by constructor.
  - assert (Hkept : graceOf w2 = graceOf w); [|by rewrite <- Hkept].
    destruct (pending (graceOf w) key action) as [t|] eqn:Ep.
    + destruct (run_unmodified key action g f c w c1 w1 t Hq) as (w' & Hcase); [lia|done|].
      case_decide; destruct Hcase as [Hc1 Hc2]; rewrite Hc1 in Hr; simplify_eq. congruence.
    + exfalso. destruct (run_unexpected key action g f c w c1 w1 Hq) as (w' & Hrun & _); [lia|done|].
      rewrite Hrun in Hr. simplify_eq.
  - rewrite graceOf_set, pending_clean in IH. destruct IH as [IHn IHs]. split.
    + intros E. rewrite E in IHn. by apply IHn.
    + intros E. rewrite E in IHn, IHs. destruct (decide (nowAt key action - t0 > ExpectationGraceTimeout)).
      * rewrite decide_False by (intros [? _]%Forall_cons; lia). by apply IHn.
      * rewrite IHs by done. apply decide_ext. rewrite Forall_cons. split; [|tauto]. split; [lia|done].
  - by rewrite Hsame in IH.
Qed.

(** C31. The grace window.  A call of [RunWithGraceSeconds] that modifies the resource
    records the clock reading [t0].  While it waits, with polls, sweeps of the cleaner and
    anything else that leaves its entry alone in any order, a call that finds nothing to
    do asks for a retry, after just the time that is left, if and only if the clock has
    not reached [t0 + graceSeconds] and no sweep has found the entry older than the
    cleaner's five minutes; else it reports completion and leaves no entry.  So a grace
    period of up to five minutes is waited for exactly, and a longer one not always: the
    first sweep beyond five minutes cuts it short. *)
Theorem grace_window_respected {C W} `{Clock W} `{HasGrace W} `{!GraceLaws W}
    (key action : string) (g : Z) (f : M (C * W) (bool * option goerror))
    (c : C) (w : W) (c1 : C) (w1 : W) (Hg : 0 < g) (Hmod : quietCall f true c w c1 w1) :
  let t0 := fst (clock_now w1) in
  exists w2,
    runWithGraceSeconds key action g f (c, w) = (Ok (true, g * Second, None), (c1, w2))
    /\ forall w3 sweeps c3 c4 w4, waiting key action g f w2 sweeps w3 -> quietCall f false c3 w3 c4 w4 ->
       let t := fst (clock_now w4) in
       exists retry remaining w5,
         runWithGraceSeconds key action g f (c3, w3) = (Ok (retry, remaining, None), (c4, w5))
         /\ (retry = true <-> t < t0 + g * Second
                             /\ Forall (fun s => s - t0 <= ExpectationGraceTimeout) sweeps)
         /\ (g * Second <= ExpectationGraceTimeout -> Forall (fun s => s <= t) sweeps ->
             (retry = true <-> t < t0 + g * Second))
         /\ (retry = true -> remaining = t0 + g * Second - t)
         /\ (retry = false -> pending (graceOf w5) key action = None).
Proof.
  intros t0. destruct (run_modified key action g f c w c1 w1) as (w2 & Hrun & Hst); [done|lia|].
  exists w2. split; [done|]. intros w3 sweeps c3 c4 w4 Hp Hq t.
  destruct (waiting_pending key action g t0 f w2 sweeps w3 Hg Hp) as [_ Hpend].
  rewrite Hst, pending_expect, decide_True in Hpend by done. specialize (Hpend eq_refl).
  assert (Hin : g * Second <= ExpectationGraceTimeout -> Forall (fun s => s <= t) sweeps ->
                t < t0 + g * Second -> Forall (fun s => s - t0 <= ExpectationGraceTimeout) sweeps).
  { intros Hle Hs Hlt. eapply Forall_impl; [exact Hs|]. intros s Hst'. simpl in *. lia. }
  destruct (decide (Forall (fun s => s - t0 <= ExpectationGraceTimeout) sweeps)) as [Hall|Hlate].
  - destruct (run_unmodified key action g f c3 w3 c4 w4 t0 Hq) as (w5 & Hcase); [lia|done|]. fold t in Hcase.
    case_decide as Hlt; destruct Hcase as [Hr5 Hg5]; do 3 eexists; (split; [exact Hr5|]).
    + split_and!; [split; [intros _; split; [lia|done]|done]|intros; split; [lia|done]|intros; lia|done].
    + split_and!; [split; [done|lia]|intros; split; [done|lia]|done|].
      intros _. by rewrite Hg5, pending_observe, decide_True.
  - destruct (run_unexpected key action g f c3 w3 c4 w4 Hq) as (w5 & Hr5 & Hg5); [lia|done|].
    exists false, 0, w5. split; [exact Hr5|]. split_and!; [by split; [|intros []]| |done|].
    + intros Hle Hs. split; [done|]. intros Hlt. by destruct Hlate; apply Hin.
    + intros _. by rewrite Hg5, pending_observe, decide_True.
Qed.
