(* ===== verification/Network.v ===== *)
(** * Network providers (pkg/trafficrouting/network)

    The [NetworkProvider] interface, the composite provider of composite.go and
    the choice of provider in manager.go's [newNetworkProvider].  The ingress,
    gateway and custom providers are reached through [ProviderFactory]. *)

From S2P Require Export Clock.

(** network/interface.go: [EnsureRoutes] answers [(done, err)] and [Finalise]
    [(modified, err)]; both values count even when [err] is set. *)
Record NetworkProvider (W : Type) := mkProvider {
  Initialize : M W unit;
  EnsureRoutes : TrafficRoutingStrategy -> M W (bool * option goerror);
  Finalise : M W (bool * option goerror)
}.
Arguments mkProvider {W}.
Arguments Initialize {W}.
Arguments EnsureRoutes {W}.
Arguments Finalise {W}.

Section Composite.
Context {W : Type}.
Implicit Types c : list (NetworkProvider W).

(** The loops of [CompositeController]. *)
Fixpoint composite_Initialize c : M W unit :=
  match c with
  | [] => ret tt
  | provider :: rest => Initialize provider ;; composite_Initialize rest
  end.

Fixpoint composite_EnsureRoutes_loop c (strategy : TrafficRoutingStrategy) (done : bool)
    : M W (bool * option goerror) :=
  match c with
  | [] => ret (done, None)
  | provider :: rest =>
      r <- EnsureRoutes provider strategy ;;
      match r with
      | (_, Some innerErr) => ret (false, Some innerErr)
      | (innerDone, None) =>
          composite_EnsureRoutes_loop rest strategy (if innerDone : bool then done else false)
      end
  end.
Definition composite_EnsureRoutes c strategy := composite_EnsureRoutes_loop c strategy true.

(** [errList.ToAggregate()]: nil exactly when no provider failed. *)
Definition ToAggregate (errList : list goerror) : option goerror :=
  match errList with [] => None | _ => Some (ErrOther "FinalizeChildNetworkProvider") end.

Fixpoint composite_Finalise_loop c (modified : bool) (errList : list goerror)
    : M W (bool * option goerror) :=
  match c with
  | [] => ret (modified, ToAggregate errList)
  | provider :: rest =>
      r <- Finalise provider ;;
      match r with
      | (_, Some innerErr) => composite_Finalise_loop rest modified (errList ++ [innerErr])%list
      | (updated, None) =>
          composite_Finalise_loop rest (if updated : bool then true else modified) errList
      end
  end.
Definition composite_Finalise c := composite_Finalise_loop c false [].

Definition CompositeController c : NetworkProvider W :=
  mkProvider (composite_Initialize c) (composite_EnsureRoutes c) (composite_Finalise c).
End Composite.

(** The [Config] of the three providers. *)
Record ProviderConfig := mkPConfig {
  pc_Key : string;
  pc_Namespace : string;
  pc_CanaryService : string;
  pc_StableService : string;
  pc_OwnerRef : OwnerReference;
  pc_DisableGenerateCanaryService : bool
}.

Class ProviderFactory (W : Type) := {
  NewCustomController : ProviderConfig -> list ObjectRef -> M W (NetworkProvider W);
  NewIngressTrafficRouting : ProviderConfig -> IngressTrafficRouting -> M W (NetworkProvider W);
  NewGatewayTrafficRouting : ProviderConfig -> GatewayTrafficRouting -> M W (NetworkProvider W)
}.

(** ** Lemmas *)

Section CompositeLemmas.
Context {W : Type}.
Implicit Types (c : list (NetworkProvider W)) (w : W).

(** Every provider of [c] answered [done] without error, in order. *)
Inductive allEnsured (strategy : TrafficRoutingStrategy)
    : list (NetworkProvider W) -> W -> W -> Prop :=
  | ensured_nil w : allEnsured strategy [] w w
  | ensured_cons p c w w1 w2 :
      EnsureRoutes p strategy w = (Ok (true, None), w1) ->
      allEnsured strategy c w1 w2 -> allEnsured strategy (p :: c) w w2.

(** Every provider answered "not modified" without error, in order. *)
Inductive allFinalised : list (NetworkProvider W) -> W -> W -> Prop :=
  | finalised_nil w : allFinalised [] w w
  | finalised_cons p c w w1 w2 :
      Finalise p w = (Ok (false, None), w1) ->
      allFinalised c w1 w2 -> allFinalised (p :: c) w w2.

Lemma composite_EnsureRoutes_false c s w r w' :
  composite_EnsureRoutes_loop c s false w = (r, w') -> r <> Ok (true, None).
Proof.
  revert w. induction c as [|p c IH]; intros w; simpl; unfold bind, ret.
  - by intros [= <- _].
  - destruct (EnsureRoutes p s w) as [[[d [e|]]|e|] w1]; try (by intros [= <- _]).
    destruct d; apply IH.
Qed.

(** The composite is done exactly when every provider is, each run once in order. *)
Lemma composite_EnsureRoutes_done c s w w' :
  composite_EnsureRoutes c s w = (Ok (true, None), w') <-> allEnsured s c w w'.
Proof.
  unfold composite_EnsureRoutes. revert w. induction c as [|p c IH]; intros w; simpl.
  - unfold ret. split; [intros [= ->]; constructor | by inversion 1].
  - unfold bind, ret. destruct (EnsureRoutes p s w) as [[[d [e|]]|e|] w1] eqn:E;
      try (split; [done|inversion 1; congruence]).
    destruct d.
    + rewrite IH. split; [by econstructor|]. inversion 1; subst. congruence.
    + split; [|inversion 1; congruence].
      intros H. by apply composite_EnsureRoutes_false in H.
Qed.

Lemma composite_Finalise_dirty c m errs w r w' :
  m = true \/ errs <> [] ->
  composite_Finalise_loop c m errs w = (r, w') -> r <> Ok (false, None).
Proof.
  revert m errs w. induction c as [|p c IH]; intros m errs w Hd; simpl; unfold bind, ret.
  - intros [= <- _]. destruct Hd as [->|Hd]; [done|]. by destruct errs.
  - destruct (Finalise p w) as [[[u [e|]]|e|] w1]; try (by intros [= <- _]).
    + apply IH. right. by destruct errs.
    + apply IH. destruct u; naive_solver.
Qed.

(** Unlike [EnsureRoutes], a failing provider does not stop the others; the
    composite is clean exactly when every provider was. *)
Lemma composite_Finalise_clean c w w' :
  composite_Finalise c w = (Ok (false, None), w') <-> allFinalised c w w'.
Proof.
  unfold composite_Finalise. revert w. induction c as [|p c IH]; intros w; simpl.
  - unfold ret. split; [intros [= ->]; constructor | by inversion 1].
  - unfold bind, ret. destruct (Finalise p w) as [[[u [e|]]|e|] w1] eqn:E;
      try (split; [done|inversion 1; congruence]).
    + split; [|inversion 1; congruence]. intros H.
      exfalso. eapply (composite_Finalise_dirty c false [e]); [by right|exact H|done].
    + destruct u.
      * split; [|inversion 1; congruence]. intros H.
        exfalso. eapply (composite_Finalise_dirty c true []); [by left|exact H|done].
      * rewrite IH. split; [by econstructor|]. inversion 1; subst. congruence.
Qed.
End CompositeLemmas.
