(* ===== verification/TrafficManager.v ===== *)
(** * The traffic-routing manager (pkg/trafficrouting/manager.go)

    [Manager] adjusts the stable and canary Services and the network provider of
    a rollout.  Its operations run on a [TrafficRoutingContext], which they
    update in place, and on the world; the file ends with the interface
    [TrafficManager] that the release managers are written against. *)

From S2P Require Export Condition Grace Network.

(** ** Services (corev1.Service) *)

Record ServicePort := mkServicePort { PortName : string; Port : Z; NodePort : Z }.
#[export] Instance eta_ServicePort : Eta ServicePort := fun x =>
  mkServicePort (PortName x) (Port x) (NodePort x).

(** A nil [Selector] map reads as empty but cannot be assigned to. *)
Record ServiceSpec := mkServiceSpec {
  Selector : option (gmap string string);
  Ports : list ServicePort;
  ClusterIP : string;
  ClusterIPs : list string;
  ExternalIPs : list string;
  IPFamilyPolicy : option string;
  IPFamilies : list string;
  LoadBalancerIP : string
}.
#[export] Instance eta_ServiceSpec : Eta ServiceSpec := fun x =>
  mkServiceSpec (Selector x) (Ports x) (ClusterIP x) (ClusterIPs x) (ExternalIPs x)
    (IPFamilyPolicy x) (IPFamilies x) (LoadBalancerIP x).

Record CoreService := mkService {
  svc_Meta : ObjectMeta;
  svc_Spec : ServiceSpec
}.
#[export] Instance eta_CoreService : Eta CoreService := fun x =>
  mkService (svc_Meta x) (svc_Spec x).
#[export] Instance CoreService_object : KubeObject CoreService :=
  {| metaOf := svc_Meta; withMeta m r := r <| svc_Meta := m |> |}.

(** [service.Spec.Selector[k]] *)
Definition selector (s : CoreService) (k : string) : string :=
  mapget (default ∅ (Selector (svc_Spec s))) k.

(** ** The context *)

Record TrafficRoutingContext := mkTRContext {
  tr_Key : string;
  tr_Namespace : string;
  ObjectRef_ : list TrafficRoutingRef;
  tr_Strategy : TrafficRoutingStrategy;
  CanaryServiceSelectorPatch : gmap string string;
  OnlyTrafficRouting : bool;
  OwnerRef : OwnerReference;
  RevisionLabelKey : string;
  tr_StableRevision : string;
  tr_CanaryRevision : string;
  tr_LastUpdateTime : option Z;
  tr_DisableGenerateCanaryService : bool;
  RecheckDuration : Z
}.
#[export] Instance eta_TRContext : Eta TrafficRoutingContext := fun x =>
  mkTRContext (tr_Key x) (tr_Namespace x) (ObjectRef_ x) (tr_Strategy x)
    (CanaryServiceSelectorPatch x) (OnlyTrafficRouting x) (OwnerRef x)
    (RevisionLabelKey x) (tr_StableRevision x) (tr_CanaryRevision x)
    (tr_LastUpdateTime x) (tr_DisableGenerateCanaryService x) (RecheckDuration x).

Definition defaultGracePeriodSeconds : Z := 3.

Definition getCanaryServiceName (sService : string)
    (onlyTrafficRouting disableGenerateCanaryService : bool) : string :=
  if onlyTrafficRouting || disableGenerateCanaryService then sService
  else (sService +:+ "-canary")%string.

(** The loop folds [Int32Max] from the zero value of the named result. *)
Definition GetGraceSeconds (refs : list TrafficRoutingRef) (defaultSeconds : Z) : Z :=
  match refs with
  | [] => defaultSeconds
  | _ =>
      let graceSeconds := fold_left (fun g ref => Z.max g (GracePeriodSeconds ref)) refs 0 in
      if decide (graceSeconds < 0) then defaultSeconds else graceSeconds
  end.

Definition UpdateRecheckDuration (remaining : Z) (c : TrafficRoutingContext)
    : TrafficRoutingContext :=
  if decide (RecheckDuration c < remaining) then c <| RecheckDuration := remaining |> else c.

(** Feature gates read by the manager (pkg/feature). *)
Class FeatureGates := { AppendServiceSelectorGate : bool }.

Section Manager.
Context {W : Type} `{Clock W} `{HasGrace W} `{Api W CoreService} `{ProviderFactory W}
  `{FeatureGates}.
Abbreviation MT := (M (TrafficRoutingContext * W)).

(** [return b, err] seen by a caller that looks at [b] only when [err] is nil. *)
Definition returnErr {S} (b : bool) (err : option goerror) : M S bool :=
  match err with None => ret b | Some e => fail e end.

Definition setLastUpdateNow : MT unit :=
  now <- inWorld time_Now ;;
  modC (fun c => c <| tr_LastUpdateTime := Some now |>).

Definition newNetworkProvider (con : TrafficRoutingContext) (sService cService : string)
    : M W (NetworkProvider W) :=
  trafficRouting <- lift (go_index (ObjectRef_ con) 0) ;;
  let config := mkPConfig (tr_Key con) (tr_Namespace con) cService sService (OwnerRef con)
                  (tr_DisableGenerateCanaryService con) in
  p1 <- match CustomNetworkRefs trafficRouting with
        | Some refs => np <- NewCustomController config refs ;; ret [np]
        | None => ret []
        end ;;
  p2 <- match Ingress trafficRouting with
        | Some i => np <- NewIngressTrafficRouting config i ;; ret [np]
        | None => ret []
        end ;;
  p3 <- match Gateway trafficRouting with
        | Some g => np <- NewGatewayTrafficRouting config g ;; ret [np]
        | None => ret []
        end ;;
  match (p1 ++ p2 ++ p3)%list with
  | [] => fail (ErrOther "TrafficRouting current only supports Ingress, Gateway API and CustomNetworkRefs")
  | [np] => ret np
  | nps => ret (CompositeController nps)
  end.

Definition InitializeTrafficRouting : MT unit :=
  c <- getC ;;
  match ObjectRef_ c with
  | [] => ret tt
  | objectRef :: _ =>
      let sService := Service objectRef in
      inWorld (api_Get (O := CoreService) (tr_Namespace c, sService)) ;;
      let cService := getCanaryServiceName sService (OnlyTrafficRouting c)
                        (tr_DisableGenerateCanaryService c) in
      trController <- inWorld (newNetworkProvider c sService cService) ;;
      inWorld (Initialize trController)
  end.

(** The selector of a new canary service: the stable one, the revision key and
    the patch, whose new keys are added under the feature gate only. *)
Definition canarySelector (c : TrafficRoutingContext) (sel : gmap string string)
    : gmap string string :=
  map_fold (fun key val acc =>
      match acc !! key with
      | Some _ => <[key := val]> acc
      | None => if AppendServiceSelectorGate then <[key := val]> acc else acc
      end)
    (<[RevisionLabelKey c := tr_CanaryRevision c]> sel)
    (CanaryServiceSelectorPatch c).

Definition canaryServiceOf (c : TrafficRoutingContext) (cService : string)
    (svc : CoreService) (sel : gmap string string) : CoreService :=
  let spec := svc_Spec svc in
  {| svc_Meta := {| Namespace := tr_Namespace c; Name := cService; UID := "";
                    Generation := 0; CreationTimestamp := 0; DeletionTimestamp := None;
                    OwnerReferences := [OwnerRef c]; Finalizers := [];
                    Annotations := Annotations (svc_Meta svc);
                    Labels := Labels (svc_Meta svc) |};
     svc_Spec :=
       spec <| ClusterIP := "" |> <| ClusterIPs := [] |> <| ExternalIPs := [] |>
            <| IPFamilyPolicy := None |> <| IPFamilies := [] |> <| LoadBalancerIP := "" |>
            <| Selector := Some (canarySelector c sel) |>
            <| Ports := map (fun p => p <| NodePort := 0 |>) (Ports spec) |> |}.

(** [canaryService.Spec.Selector[k] = v] panics when the copied map is nil. *)
Definition createCanaryService (c : TrafficRoutingContext) (cService : string)
    (svc : CoreService) : M W CoreService :=
  sel <- lift (deref (Selector (svc_Spec svc))) ;;
  let canaryService := canaryServiceOf c cService svc sel in
  r <- catch (api_Create canaryService) ;;
  match r with
  | inl _ => ret canaryService
  | inr err => if IsAlreadyExists err then ret canaryService else fail err
  end.

(** [c.LastUpdateTime] is less than a grace period ago. *)
Definition stillInGrace (c : TrafficRoutingContext) (grace : Z) : MT bool :=
  match tr_LastUpdateTime c with
  | Some t =>
      now <- inWorld time_Now ;;
      ret (bool_decide (t + Second * grace > now))
  | None => ret false
  end.

(** Make the canary service select the canary revision: its name, and whether
    it had to be created or patched. *)
Definition ensureCanaryService (c : TrafficRoutingContext) (canaryServiceName : string)
    (stableService : CoreService) : MT (string * bool) :=
  rc <- catch (inWorld (api_Get (tr_Namespace c, canaryServiceName))) ;;
  match rc with
  | inr err =>
      if IsNotFound err then
        canary <- inWorld (createCanaryService c canaryServiceName stableService) ;;
        ret (Name (svc_Meta canary), true)
      else fail err
  | inl canaryService =>
      if String.eqb (selector canaryService (RevisionLabelKey c)) (tr_CanaryRevision c)
      then ret (Name (svc_Meta canaryService), false)
      else
        inWorld (api_Patch (O := CoreService) (svc_Meta canaryService)
          (PatchSelector (RevisionLabelKey c) (Some (tr_CanaryRevision c)))) ;;
        ret (Name (svc_Meta canaryService), true)
  end.

(** The two services select their own revision; [None] when they did not yet and
    the caller has to wait. *)
Definition ensureServices (c : TrafficRoutingContext) (canaryServiceName : string)
    (stableService : CoreService) : MT (option string) :=
  if OnlyTrafficRouting c || tr_DisableGenerateCanaryService c
  then ret (Some canaryServiceName)
  else if String.eqb (tr_StableRevision c) "" || String.eqb (tr_CanaryRevision c) ""
  then ret None else
  canary <- ensureCanaryService c canaryServiceName stableService ;;
  modified <-
    (if String.eqb (selector stableService (RevisionLabelKey c)) (tr_StableRevision c)
     then ret (snd canary)
     else
       inWorld (api_Patch (O := CoreService) (svc_Meta stableService)
         (PatchSelector (RevisionLabelKey c) (Some (tr_StableRevision c)))) ;;
       ret true) ;;
  if modified : bool then setLastUpdateNow ;; ret None else ret (Some (fst canary)).

Definition DoTrafficRouting : MT bool :=
  c <- getC ;;
  match ObjectRef_ c with
  | [] => ret true
  | trafficRouting :: _ =>
      let grace := if decide (GracePeriodSeconds trafficRouting <= 0)
                   then defaultGracePeriodSeconds else GracePeriodSeconds trafficRouting in
      if bool_decide (Traffic (tr_Strategy c) = None) && bool_decide (Matches (tr_Strategy c) = [])
      then ret true else
      rs <- catch (inWorld (api_Get (tr_Namespace c, Service trafficRouting))) ;;
      match rs with
      | inr err => if IsNotFound err then ret false else fail err
      | inl stableService =>
          let canaryServiceName := getCanaryServiceName (Service trafficRouting)
                (OnlyTrafficRouting c) (tr_DisableGenerateCanaryService c) in
          wait <- stillInGrace c grace ;;
          if wait : bool then ret false else
          svcs <- ensureServices c canaryServiceName stableService ;;
          match svcs with
          | None => ret false
          | Some canaryName =>
              trController <-
                inWorld (newNetworkProvider c (Name (svc_Meta stableService)) canaryName) ;;
              ve <- inWorld (EnsureRoutes trController (tr_Strategy c)) ;;
              match ve with
              | (_, Some err) => fail err
              | (verify, None) => ret (verify : bool)
              end
          end
      end
  end.

Definition withGrace (key action : string) (c : TrafficRoutingContext)
    (f : MT (bool * option goerror)) : MT bool :=
  let graceSeconds := GetGraceSeconds (ObjectRef_ c) defaultGracePeriodSeconds in
  r <- RunWithGraceSeconds key action graceSeconds f ;;
  let '(retry, remaining, err) := r in
  modC (UpdateRecheckDuration remaining) ;;
  returnErr retry err.

Definition RouteAllTrafficToNewVersion : MT bool :=
  c <- getC ;;
  match ObjectRef_ c with
  | [] => ret false
  | ref :: _ =>
      let stableService := Service ref in
      let cServiceName := getCanaryServiceName stableService (OnlyTrafficRouting c)
                            (tr_DisableGenerateCanaryService c) in
      trController <- inWorld (newNetworkProvider c stableService cServiceName) ;;
      withGrace (or_UID (OwnerRef c)) "updateRoute" c (
        modC (fun c => c <| tr_Strategy := (tr_Strategy c) <| Matches := [] |>
                                             <| Traffic := Some "100%"%string |> |>) ;;
        c' <- getC ;;
        ve <- inWorld (EnsureRoutes trController (tr_Strategy c')) ;;
        (if fst ve : bool then ret tt else setLastUpdateNow) ;;
        ret (negb (fst ve), snd ve))
  end.

Definition RestoreGateway : MT bool :=
  c <- getC ;;
  match ObjectRef_ c with
  | [] => ret false
  | ref :: _ =>
      let stableService := Service ref in
      let cServiceName := getCanaryServiceName stableService (OnlyTrafficRouting c)
                            (tr_DisableGenerateCanaryService c) in
      trController <- inWorld (newNetworkProvider c stableService cServiceName) ;;
      withGrace (or_UID (OwnerRef c)) "restoreGateway" c (
        me <- inWorld (Finalise trController) ;;
        (if fst me : bool then setLastUpdateNow else ret tt) ;;
        ret me)
  end.

Definition RemoveCanaryService : MT bool :=
  c <- getC ;;
  match ObjectRef_ c with
  | [] => ret false
  | ref :: _ =>
      if OnlyTrafficRouting c || tr_DisableGenerateCanaryService c then ret false else
      let cServiceName := getCanaryServiceName (Service ref) (OnlyTrafficRouting c)
                            (tr_DisableGenerateCanaryService c) in
      withGrace ((tr_Namespace c +:+ "/" +:+ cServiceName)%string) "removeCanaryService" c (
        r <- catch (inWorld (api_Delete (O := CoreService) (tr_Namespace c, cServiceName))) ;;
        match r with
        | inl _ => ret (true, None)
        | inr err => if IsNotFound err then ret (false, None) else ret (false, Some err)
        end)
  end.

(** Patch the selector of the service unless it is already as wanted. *)
Definition patchSelectorUnless (satisfied : bool) (svc : CoreService) (patch : RawPatch)
    : MT (bool * option goerror) :=
  if satisfied then ret (false, None) else
  r <- catch (inWorld (api_Patch (O := CoreService) (svc_Meta svc) patch)) ;;
  match r with
  | inr err => ret (false, Some err)
  | inl _ => setLastUpdateNow ;; ret (true, None)
  end.

Definition PatchStableService : MT bool :=
  c <- getC ;;
  match ObjectRef_ c with
  | [] => ret false
  | ref :: _ =>
      if OnlyTrafficRouting c || tr_DisableGenerateCanaryService c then ret true else
      stableService <- inWorld (api_Get (tr_Namespace c, Service ref)) ;;
      withGrace (UID (svc_Meta stableService)) "patchService" c (
        patchSelectorUnless
          (String.eqb (selector stableService (RevisionLabelKey c)) (tr_StableRevision c))
          stableService (PatchSelector (RevisionLabelKey c) (Some (tr_StableRevision c))))
  end.

Definition RestoreStableService : MT bool :=
  c <- getC ;;
  match ObjectRef_ c with
  | [] => ret false
  | ref :: _ =>
      r <- catch (inWorld (api_Get (tr_Namespace c, Service ref))) ;;
      match r with
      | inr err => if IsNotFound err then ret false else fail err
      | inl stableService =>
          withGrace (UID (svc_Meta stableService)) "restoreService" c (
            patchSelectorUnless
              (String.eqb (selector stableService (RevisionLabelKey c)) "")
              stableService (PatchSelector (RevisionLabelKey c) None))
      end
  end.

Definition FinalisingTrafficRouting : MT bool :=
  c <- getC ;;
  match ObjectRef_ c with
  | [] => ret true
  | _ =>
      retry1 <- RestoreStableService ;;
      if retry1 : bool then ret false else
      retry2 <- RestoreGateway ;;
      if retry2 : bool then ret false else
      retry3 <- RemoveCanaryService ;;
      if retry3 : bool then ret false else ret true
  end.
End Manager.

(** ** Lemmas *)

Lemma fold_max_ge (refs : list TrafficRoutingRef) g0 :
  let g := fold_left (fun g ref => Z.max g (GracePeriodSeconds ref)) refs g0 in
  g0 <= g /\ (forall ref, ref ∈ refs -> GracePeriodSeconds ref <= g)
  /\ (g = g0 \/ exists ref, ref ∈ refs /\ g = GracePeriodSeconds ref).
Proof.
  revert g0. induction refs as [|r refs IH]; intros g0; simpl.
  - split; [lia|]. split; [set_solver|by left].
  - specialize (IH (Z.max g0 (GracePeriodSeconds r))). simpl in IH.
    destruct IH as (H1 & H2 & H3). split; [lia|]. split.
    + intros ref [->|Hin]%elem_of_cons; [lia|auto].
    + destruct H3 as [->|(ref & Hin & ->)].
      * destruct (Z.max_spec g0 (GracePeriodSeconds r)) as [[_ ->]|[_ ->]]; [|by left].
        right. exists r. split; [set_solver|done].
      * right. exists ref. split; [set_solver|done].
Qed.

Lemma canarySelector_lookup `{FeatureGates} (c : TrafficRoutingContext) sel k :
  canarySelector c sel !! k =
  let base := <[RevisionLabelKey c := tr_CanaryRevision c]> sel in
  match CanaryServiceSelectorPatch c !! k with
  | Some v => if base !! k is Some _ then Some v else if AppendServiceSelectorGate then Some v else None
  | None => base !! k
  end.
Proof.
  unfold canarySelector. simpl.
  set (base := <[RevisionLabelKey c := tr_CanaryRevision c]> sel).
  apply (map_fold_weak_ind (fun acc m => acc !! k =
    match m !! k with
    | Some v => if base !! k is Some _ then Some v else if AppendServiceSelectorGate then Some v else None
    | None => base !! k end)).
  - by rewrite lookup_empty.
  - intros key v m acc Hkey IH. destruct (decide (key = k)) as [->|Hne].
    + rewrite lookup_insert_eq. rewrite Hkey in IH. rewrite IH.
      destruct (base !! k) eqn:E; [by rewrite lookup_insert_eq|].
      destruct AppendServiceSelectorGate; [by rewrite lookup_insert_eq|congruence].
    + rewrite lookup_insert_ne by done. rewrite <- IH.
      destruct (acc !! key); [by rewrite lookup_insert_ne|].
      destruct AppendServiceSelectorGate; [by rewrite lookup_insert_ne|done].
Qed.

(** What the manager's operations leave alone in their context: everything but
    the last update time, the recheck duration and the strategy. *)
Definition trFrame (c c' : TrafficRoutingContext) : Prop :=
  exists t d, c' = c <| tr_LastUpdateTime := t |> <| RecheckDuration := d |>.

#[export] Instance trFrame_preorder : PreOrder trFrame.
Proof.
  split.
  - intros c. exists (tr_LastUpdateTime c), (RecheckDuration c). by destruct c.
  - intros c1 c2 c3 (t1 & d1 & ->) (t2 & d2 & ->). by exists t2, d2.
Qed.

Abbreviation keepsContext := (preserves trFrame).

Section ManagerLemmas.
Context {W : Type} `{Clock W} `{HasGrace W} `{Api W CoreService} `{ProviderFactory W}
  `{FeatureGates}.
Abbreviation MT := (M (TrafficRoutingContext * W)).

Lemma frame_lastUpdate c t : trFrame c (c <| tr_LastUpdateTime := t |>).
Proof. exists t, (RecheckDuration c). by destruct c. Qed.
Lemma frame_recheck d c : trFrame c (UpdateRecheckDuration d c).
Proof.
  unfold UpdateRecheckDuration. case_decide; [|reflexivity].
  exists (tr_LastUpdateTime c), d. by destruct c.
Qed.
Hint Resolve frame_lastUpdate frame_recheck : frames.

Lemma keeps_setLastUpdateNow : keepsContext (setLastUpdateNow : MT unit).
Proof. unfold setLastUpdateNow. solve_preserves. Qed.
Hint Resolve keeps_setLastUpdateNow : frames.

Lemma keeps_modGrace g : keepsContext (modGrace g : MT unit).
Proof. intros c w r c' w' [= <- <- <-]. reflexivity. Qed.
Hint Resolve keeps_modGrace : frames.

Lemma keeps_withGrace key action c0 (f : MT (bool * option goerror)) :
  keepsContext f -> keepsContext (withGrace key action c0 f).
Proof.
  intros Hf. unfold withGrace, RunWithGraceSeconds, runWithGraceSeconds,
    SatisfiedExpectations, returnErr. solve_preserves.
Qed.
Hint Resolve keeps_withGrace : frames.

Lemma keeps_RestoreStableService : keepsContext (RestoreStableService : MT bool).
Proof.
  unfold RestoreStableService, patchSelectorUnless.
  solve_preserves. simple apply keeps_withGrace. solve_preserves.
Qed.

Lemma keeps_RestoreGateway : keepsContext (RestoreGateway : MT bool).
Proof.
  unfold RestoreGateway. solve_preserves. simple apply keeps_withGrace. solve_preserves.
Qed.

(** With a positive grace period an operation reports completion only when the
    function it guards ran without error and found nothing to modify. *)
Lemma withGrace_done key action c0 (f : MT (bool * option goerror)) s s' :
  0 < GetGraceSeconds (ObjectRef_ c0) defaultGracePeriodSeconds ->
  withGrace key action c0 f s = (Ok false, s') ->
  exists sf, f s = (Ok (false, None), sf).
Proof.
  intros Hg. unfold withGrace, RunWithGraceSeconds, runWithGraceSeconds, bind, returnErr.
  destruct (f s) as [[[m [e|]]|e|] sf]; simpl; try done.
  rewrite decide_False by lia. destruct m; [|by eauto].
  unfold inWorld, time_Now, modC, modGrace, modify, ret. simpl.
  destruct (clock_now (snd sf)). simpl. done.
Qed.
End ManagerLemmas.

(** ** Properties *)

(** The grace period of a list of refs: the default when there is none, else the
    largest of them and 0.  A negative value therefore reads as 0 and never as
    the default, whatever the guard after the loop says. *)
Theorem GetGraceSeconds_spec (refs : list TrafficRoutingRef) (d : Z) :
  (refs = [] -> GetGraceSeconds refs d = d)
  /\ (refs <> [] ->
      0 <= GetGraceSeconds refs d
      /\ (forall ref, ref ∈ refs -> GracePeriodSeconds ref <= GetGraceSeconds refs d)
      /\ (GetGraceSeconds refs d = 0
          \/ exists ref, ref ∈ refs /\ GetGraceSeconds refs d = GracePeriodSeconds ref)
      /\ ((forall ref, ref ∈ refs -> GracePeriodSeconds ref < 0) -> GetGraceSeconds refs d = 0)).
Proof.
  split; [by intros ->|]. intros Hne.
  pose proof (fold_max_ge refs 0) as (H1 & H2 & H3).
  assert (Heq : GetGraceSeconds refs d
    = fold_left (fun g ref => Z.max g (GracePeriodSeconds ref)) refs 0).
  { unfold GetGraceSeconds. destruct refs; [done|]. by rewrite decide_False by lia. }
  rewrite Heq. split; [done|]. split; [done|]. split; [done|].
  intros Hneg. destruct H3 as [->|(ref & Hin & Hr)]; [done|].
  specialize (Hneg ref Hin). lia.
Qed.

Section ManagerProperties.
Context {W : Type} `{Clock W} `{HasGrace W} `{Api W CoreService} `{ProviderFactory W}
  `{FeatureGates}.

(** The grace period [DoTrafficRouting] waits for. *)
Definition routingGrace (ref : TrafficRoutingRef) : Z :=
  if decide (GracePeriodSeconds ref <= 0) then defaultGracePeriodSeconds
  else GracePeriodSeconds ref.

(** The service [key] was read in some world and answered [svc]. *)
Definition observed (key : ObjectKey) (svc : CoreService) : Prop :=
  exists w w' : W, api_Get key w = (Ok svc, w').

Lemma stillInGrace_false (c c1 : TrafficRoutingContext) g (w w1 : W) :
  stillInGrace c g (c1, w) = (Ok false, (c1, w1)) ->
  forall t, tr_LastUpdateTime c = Some t -> t + Second * g <= fst (clock_now w).
Proof.
  unfold stillInGrace. destruct (tr_LastUpdateTime c) as [t0|]; [|done].
  intros Hrun t [= <-]. inv_run. unfold time_Now in *.
  destruct (clock_now w) as [t' w2]. simplify_eq. simpl.
  match goal with Hb : false = bool_decide _ |- _ => symmetry in Hb;
    apply bool_decide_eq_false in Hb; lia end.
Qed.

Lemma stillInGrace_frame (c c1 c2 : TrafficRoutingContext) g (w w1 : W) r :
  stillInGrace c g (c1, w) = (r, (c2, w1)) -> c2 = c1.
Proof.
  unfold stillInGrace, bind, inWorld, time_Now, ret. simpl.
  destruct (tr_LastUpdateTime c); simpl; [destruct (clock_now w)|]; naive_solver.
Qed.

Lemma inWorld_frame {C A} (m : M W A) (c c' : C) w r w' :
  inWorld m (c, w) = (r, (c', w')) -> c' = c.
Proof. intros E. by apply inWorld_inv in E as [_ ->]. Qed.

Lemma ensureCanaryService_ready c name stable c1 w n c2 w2 :
  ensureCanaryService c name stable (c1, w) = (Ok (n, false), (c2, w2)) ->
  c2 = c1 /\ exists canary, observed (tr_Namespace c, name) canary
    /\ selector canary (RevisionLabelKey c) = tr_CanaryRevision c.
Proof.
  unfold ensureCanaryService. intros Hrun. inv_run.
  split; [done|]. eexists. split; [by do 2 eexists|]. by apply String.eqb_eq.
Qed.

Lemma ensureServices_ready c name stable c1 w n c2 w2 :
  ensureServices c name stable (c1, w) = (Ok (Some n), (c2, w2)) ->
  c2 = c1
  /\ (OnlyTrafficRouting c || tr_DisableGenerateCanaryService c = false ->
      tr_StableRevision c <> ""%string /\ tr_CanaryRevision c <> ""%string
      /\ selector stable (RevisionLabelKey c) = tr_StableRevision c
      /\ exists canary, observed (tr_Namespace c, name) canary
           /\ selector canary (RevisionLabelKey c) = tr_CanaryRevision c).
Proof.
  unfold ensureServices. intros Hrun. inv_run; try done. simplify_eq/=.
  match goal with E : ensureCanaryService _ _ _ _ = _ |- _ =>
    apply ensureCanaryService_ready in E as [-> (canary & Hobs & Hsel)] end.
  apply orb_false_iff in Eb0 as [?%String.eqb_neq ?%String.eqb_neq].
  split; [done|]. intros _. do 2 (split; [done|]).
  split; [by apply String.eqb_eq|by exists canary].
Qed.

(** C5. Routing soundness.  When [DoTrafficRouting] reports success, in that very
    call: the last change of workload or services is at least a grace period
    old; the stable Service was read selecting exactly the stable revision and
    the canary Service the canary revision (unless no canary service is
    generated); and the network provider itself answered that the routes are
    in place and unchanged, in the world the call returns. *)
Theorem DoTrafficRouting_sound (c : TrafficRoutingContext) (w : W) c' w' ref rest
    (Href : ObjectRef_ c = ref :: rest)
    (Hstrat : Traffic (tr_Strategy c) <> None \/ Matches (tr_Strategy c) <> [])
    (Hrun : DoTrafficRouting (c, w) = (Ok true, (c', w'))) :
  c' = c
  /\ (forall t, tr_LastUpdateTime c = Some t ->
        exists wt : W, t + Second * routingGrace ref <= fst (clock_now wt))
  /\ (exists stable, observed (tr_Namespace c, Service ref) stable
      /\ (exists provider canaryName w0 w1,
            newNetworkProvider c (Name (svc_Meta stable)) canaryName w0 = (Ok provider, w1)
            /\ EnsureRoutes provider (tr_Strategy c) w1 = (Ok (true, None), w'))
      /\ (OnlyTrafficRouting c = false -> tr_DisableGenerateCanaryService c = false ->
          tr_StableRevision c <> ""%string /\ tr_CanaryRevision c <> ""%string
          /\ selector stable (RevisionLabelKey c) = tr_StableRevision c
          /\ exists canary, observed (tr_Namespace c, (Service ref +:+ "-canary")%string) canary
             /\ selector canary (RevisionLabelKey c) = tr_CanaryRevision c)).
Proof.
  unfold DoTrafficRouting in Hrun. inv_run. rewrite Href in Hrun.
  fold (routingGrace ref) in Hrun. inv_run.
  { apply andb_true_iff in Eb as [?%bool_decide_eq_true ?%bool_decide_eq_true]. naive_solver. }
  match goal with E : ensureServices _ _ _ _ = _ |- _ =>
    apply ensureServices_ready in E as [-> Hsvc] end.
  match goal with E : stillInGrace _ _ _ = _ |- _ =>
    pose proof (stillInGrace_frame _ _ _ _ _ _ _ E); subst;
    pose proof (stillInGrace_false _ _ _ _ _ E) as Hg end.
  split; [done|]. split; [by eauto|].
  eexists. split; [by do 2 eexists|]. split; [by repeat eexists|].
  intros H5 H6. unfold getCanaryServiceName in Hsvc. rewrite H5, H6 in Hsvc. by apply Hsvc.
Qed.
Lemma patchSelectorUnless_false b svc patch (c : TrafficRoutingContext) (w : W) sf :
  patchSelectorUnless b svc patch (c, w) = (Ok (false, None), sf) -> b = true.
Proof.
  unfold patchSelectorUnless. destruct b; [done|]. intros Hrun. by inv_run.
Qed.

Lemma RestoreStableService_done c w c' w' ref rest :
  ObjectRef_ c = ref :: rest -> 0 < GetGraceSeconds (ObjectRef_ c) defaultGracePeriodSeconds ->
  RestoreStableService (c, w) = (Ok false, (c', w')) ->
  (exists wa wb : W, api_Get (O := CoreService) (tr_Namespace c, Service ref) wa = (Err ErrNotFound, wb))
  \/ exists stable, observed (tr_Namespace c, Service ref) stable
      /\ selector stable (RevisionLabelKey c) = ""%string.
Proof.
  intros Href Hg Hrun. unfold RestoreStableService in Hrun. inv_run. rewrite Href in Hrun. inv_run.
  - right. eexists. split; [by do 2 eexists|].
    match goal with E : withGrace _ _ _ _ _ = _ |- _ => apply withGrace_done in E as [sf E]; [|done];
      apply patchSelectorUnless_false in E; by apply String.eqb_eq end.
  - left. do 2 eexists. destruct g; try done; eassumption.
Qed.

Lemma RestoreGateway_done c w c' w' ref rest :
  ObjectRef_ c = ref :: rest -> 0 < GetGraceSeconds (ObjectRef_ c) defaultGracePeriodSeconds ->
  RestoreGateway (c, w) = (Ok false, (c', w')) ->
  exists provider name w0 w1 w2, newNetworkProvider c (Service ref) name w0 = (Ok provider, w1)
    /\ Finalise provider w1 = (Ok (false, None), w2).
Proof.
  intros Href Hg Hrun. unfold RestoreGateway in Hrun. inv_run. rewrite Href in Hrun. inv_run.
  match goal with E : withGrace _ _ _ _ _ = _ |- _ => apply withGrace_done in E as [sf E]; [|done] end.
  inv_run; simplify_eq/=. do 5 eexists. split; eassumption.
Qed.

Lemma RemoveCanaryService_done c w c' w' ref rest :
  ObjectRef_ c = ref :: rest -> 0 < GetGraceSeconds (ObjectRef_ c) defaultGracePeriodSeconds ->
  RemoveCanaryService (c, w) = (Ok false, (c', w')) ->
  OnlyTrafficRouting c || tr_DisableGenerateCanaryService c = false ->
  exists wa wb : W, api_Delete (O := CoreService) (tr_Namespace c, (Service ref +:+ "-canary")%string) wa
    = (Err ErrNotFound, wb).
Proof.
  intros Href Hg Hrun Hgen. unfold RemoveCanaryService in Hrun. inv_run.
  rewrite Href, Hgen in Hrun. unfold getCanaryServiceName in Hrun. rewrite Hgen in Hrun.
  apply withGrace_done in Hrun as [sf Hrun]; [|done]. inv_run.
  destruct g; try done. by do 2 eexists.
Qed.

(** Finalising soundness.  With a positive grace period, [FinalisingTrafficRouting]
    reports completion only by running its three steps in order, each of which
    found nothing left to do: the stable Service is gone or no longer selects a
    revision; then the network provider answered that its objects were already
    restored; then the deletion of the generated canary Service answered that
    it does not exist. *)
Theorem FinalisingTrafficRouting_done (c : TrafficRoutingContext) (w : W) s' ref rest
    (Href : ObjectRef_ c = ref :: rest)
    (Hgrace : 0 < GetGraceSeconds (ObjectRef_ c) defaultGracePeriodSeconds)
    (Hrun : FinalisingTrafficRouting (c, w) = (Ok true, s')) :
  exists s1 s2,
    RestoreStableService (c, w) = (Ok false, s1)
    /\ RestoreGateway s1 = (Ok false, s2)
    /\ RemoveCanaryService s2 = (Ok false, s')
    /\ ((exists wa wb : W, api_Get (O := CoreService) (tr_Namespace c, Service ref) wa
                           = (Err ErrNotFound, wb))
        \/ exists stable, observed (tr_Namespace c, Service ref) stable
             /\ selector stable (RevisionLabelKey c) = ""%string)
    /\ (exists c1 provider name w0 w1 w2, trFrame c c1
          /\ newNetworkProvider c1 (Service ref) name w0 = (Ok provider, w1)
          /\ Finalise provider w1 = (Ok (false, None), w2))
    /\ (OnlyTrafficRouting c = false -> tr_DisableGenerateCanaryService c = false ->
        exists wa wb : W,
          api_Delete (O := CoreService) (tr_Namespace c, (Service ref +:+ "-canary")%string) wa
          = (Err ErrNotFound, wb)).
Proof.
  unfold FinalisingTrafficRouting in Hrun. apply bind_Ok_inv in Hrun as (a0 & sa & Ha & Hrun).
  injection Ha as <- <-. cbn [fst] in Hrun. rewrite Href in Hrun. inv_run.
  rename Hm into E1, Hm0 into E2, Hm1 into E3. do 2 eexists. do 3 (split; [eassumption|]).
  pose proof (keeps_RestoreStableService _ _ _ _ _ E1) as F1.
  pose proof (keeps_RestoreGateway _ _ _ _ _ E2) as F2.
  assert (F3 : trFrame c t1) by (by transitivity t0).
  destruct F1 as (x1 & d1 & ->). destruct F3 as (x2 & d2 & ->).
  split; [by eapply RestoreStableService_done|].
  split.
  { exists (c <| tr_LastUpdateTime := x1 |> <| RecheckDuration := d1 |>).
    eapply RestoreGateway_done in E2 as (p & n & w4 & w5 & w6 & Hp & Hf); [|eassumption..].
    exists p, n, w4, w5, w6. split; [by exists x1, d1|done]. }
  intros Hn1 Hn2.
  eapply RemoveCanaryService_done in E3; [exact E3|exact Href|exact Hgrace|].
  simpl. by rewrite Hn1, Hn2.
Qed.
(** Creating the canary Service.  A stable Service without selector makes the
    assignment into its nil selector map panic.  Otherwise the service sent to
    the API server is owned by the rollout, has no cluster address and no node
    port, and its selector is the stable one where the revision key is the
    canary revision, patched keys win, and a patched key that is new appears
    only under the feature gate; an already existing service counts as created,
    every other error is returned. *)
Theorem createCanaryService_spec (c : TrafficRoutingContext) (name : string)
    (svc : CoreService) (w : W) :
  match Selector (svc_Spec svc) with
  | None => createCanaryService c name svc w = (Panic, w)
  | Some sel => exists canary,
      createCanaryService c name svc w =
        (match fst (api_Create canary w) with
         | Ok _ | Err ErrAlreadyExists => Ok canary
         | Err e => Err e
         | Panic => Panic
         end, snd (api_Create canary w))
      /\ keyOf (svc_Meta canary) = (tr_Namespace c, name)
      /\ OwnerReferences (svc_Meta canary) = [OwnerRef c]
      /\ ClusterIP (svc_Spec canary) = ""%string
      /\ map Port (Ports (svc_Spec canary)) = map Port (Ports (svc_Spec svc))
      /\ (forall p, p ∈ Ports (svc_Spec canary) -> NodePort p = 0)
      /\ (CanaryServiceSelectorPatch c !! RevisionLabelKey c = None ->
           selector canary (RevisionLabelKey c) = tr_CanaryRevision c)
      /\ (forall k, k <> RevisionLabelKey c ->
           default ∅ (Selector (svc_Spec canary)) !! k =
           match CanaryServiceSelectorPatch c !! k with
           | Some v => if bool_decide (is_Some (sel !! k)) || AppendServiceSelectorGate
                       then Some v else None
           | None => sel !! k
           end)
  end.
Proof.
  unfold createCanaryService. destruct (Selector (svc_Spec svc)) as [sel|] eqn:Hsel;
    [|by unfold lift, bind].
  exists (canaryServiceOf c name svc sel). split; [|split; [done|split; [done|split; [done|split]]]].
  - unfold bind, catch, lift, ret, fail. simpl.
    destruct (api_Create _ w) as [[[]|[]|] w1]; done.
  - unfold canaryServiceOf. simpl. rewrite map_map. done.
  - split; [|split].
    + unfold canaryServiceOf. simpl. intros p (q & -> & _)%list_elem_of_fmap. done.
    + intros Hp. unfold selector, mapget, canaryServiceOf. simpl.
      rewrite canarySelector_lookup, Hp. by rewrite lookup_insert_eq.
    + intros k Hk. unfold canaryServiceOf. simpl. rewrite canarySelector_lookup. simpl.
      rewrite lookup_insert_ne by done.
      destruct (CanaryServiceSelectorPatch c !! k), (sel !! k); try done.
Qed.
End ManagerProperties.

(** ** The interface of the manager

    What the release managers, the finalisers and the traffic-routing controller
    use of [*trafficrouting.Manager]. *)

Class TrafficManager (W : Type) := {
  tm_InitializeTrafficRouting : M (TrafficRoutingContext * W) unit;
  tm_DoTrafficRouting : M (TrafficRoutingContext * W) bool;
  tm_RouteAllTrafficToNewVersion : M (TrafficRoutingContext * W) bool;
  tm_FinalisingTrafficRouting : M (TrafficRoutingContext * W) bool;
  tm_RestoreGateway : M (TrafficRoutingContext * W) bool;
  tm_RemoveCanaryService : M (TrafficRoutingContext * W) bool;
  tm_PatchStableService : M (TrafficRoutingContext * W) bool;
  tm_RestoreStableService : M (TrafficRoutingContext * W) bool
}.

#[export] Instance Manager_TrafficManager {W} `{Clock W} `{HasGrace W} `{Api W CoreService}
    `{ProviderFactory W} `{FeatureGates} : TrafficManager W := {|
  tm_InitializeTrafficRouting := InitializeTrafficRouting;
  tm_DoTrafficRouting := DoTrafficRouting;
  tm_RouteAllTrafficToNewVersion := RouteAllTrafficToNewVersion;
  tm_FinalisingTrafficRouting := FinalisingTrafficRouting;
  tm_RestoreGateway := RestoreGateway;
  tm_RemoveCanaryService := RemoveCanaryService;
  tm_PatchStableService := PatchStableService;
  tm_RestoreStableService := RestoreStableService
|}.
