(* ===== verification/RolloutUtil.v ===== *)
(** * Workloads, step indexes and finalizers (pkg/util)

    The workload summary the rollout controller works on, the helpers of
    rollout_utils.go and workloads_utils.go, and the library functions they call,
    which are parameters with their documented laws. *)

From S2P Require Export Condition.

(** ** Constants *)

Definition RolloutIDLabel : string := "rollouts.kruise.io/rollout-id".
Definition RollbackInBatchAnnotation : string := "rollouts.kruise.io/rollback-in-batch".
Definition TrafficRoutingAnnotation : string := "rollouts.kruise.io/trafficrouting".
Definition InRolloutProgressingAnnotation : string := "rollouts.kruise.io/in-progressing".
Definition RolloutHashAnnotation : string := "rollouts.kruise.io/hash".
Definition KruiseRolloutFinalizer : string := "rollouts.kruise.io/rollout".
Definition WorkloadTypeLabel : string := "rollouts.kruise.io/workload-type".
Definition ProgressingRolloutFinalizer (name : string) : string :=
  ("progressing.rollouts.kruise.io/" +:+ name)%string.

(** ** Library functions *)

Record GroupVersionKind := mkGVK { Group : string; Version : string; GVKKind : string }.
#[export] Instance GVK_eq_dec : EqDecision GroupVersionKind.
Proof. solve_decision. Defined.

(** apimachinery and controller-runtime functions the controllers call. *)
Class K8sLib := {
  ContainsFinalizer : ObjectMeta -> string -> bool;
  sets_List : gset string -> list string;
  FromAPIVersionAndKind : string -> string -> GroupVersionKind;
  GetScaledValueFromIntOrPercent : option IntOrString -> Z -> bool -> Z * option goerror
}.

(** Their documented behaviour, as far as a theorem relies on it. *)
Class K8sLaws `{K8sLib} := {
  ContainsFinalizer_spec m f : ContainsFinalizer m f = true <-> f ∈ Finalizers m;
  sets_List_elem s x : x ∈ sets_List s <-> x ∈ s;
  scaled_int n total up : GetScaledValueFromIntOrPercent (Some (FromInt n)) total up = (n, None);
  scaled_full total up :
    GetScaledValueFromIntOrPercent (Some (FromString "100%")) total up = (total, None);
  scaled_percent p total up : 0 <= p <= 100 -> 0 <= total < 2 ^ 31 ->
    GetScaledValueFromIntOrPercent (Some (FromString (itoa p +:+ "%"))) total up
    = ((if up then (total * p + 99) / 100 else total * p / 100), None)
}.

(** ** Workload kinds *)

Definition ControllerKindRS := mkGVK "apps" "v1" "ReplicaSet".
Definition ControllerKindDep := mkGVK "apps" "v1" "Deployment".
Definition ControllerKindSts := mkGVK "apps" "v1" "StatefulSet".
Definition ControllerKindDS := mkGVK "apps" "v1" "DaemonSet".
Definition ControllerKruiseKindCS := mkGVK "apps.kruise.io" "v1alpha1" "CloneSet".
Definition ControllerKruiseKindDS := mkGVK "apps.kruise.io" "v1alpha1" "DaemonSet".
Definition ControllerKruiseKindSts := mkGVK "apps.kruise.io" "v1beta1" "StatefulSet".
Definition ControllerKruiseOldKindSts := mkGVK "apps.kruise.io" "v1alpha1" "StatefulSet".

Definition knownWorkloadGVKs : list GroupVersionKind :=
  [ControllerKindRS; ControllerKindDep; ControllerKindSts; ControllerKindDS;
   ControllerKruiseKindCS; ControllerKruiseKindSts; ControllerKruiseOldKindSts;
   ControllerKruiseKindDS].

(** [feature.NeedFilterWorkloadType()]: a command-line switch. *)
Class WorkloadFilter := NeedFilterWorkloadType : bool.

Definition IsSupportedWorkload `{WorkloadFilter} (gvk : GroupVersionKind) : bool :=
  if NeedFilterWorkloadType then
    existsb (fun known => String.eqb (Group gvk) (Group known)
                          && String.eqb (GVKKind gvk) (GVKKind known)) knownWorkloadGVKs
  else true.

(** An empty object of the kind, or nil (a nil interface: any call on it panics). *)
Definition GetEmptyWorkloadObject `{WorkloadFilter} (gvk : GroupVersionKind)
    : option GroupVersionKind :=
  if IsSupportedWorkload gvk then Some gvk else None.

(** Patches of workload objects of any kind. *)
Class WorkloadClient (W : Type) :=
  patchWorkload : GroupVersionKind -> ObjectKey -> RawPatch -> M W unit.

(** ** The workload summary (controller_finder.go) *)

Record Workload := mkWorkload {
  wl_APIVersion : string;
  wl_Kind : string;
  wl_Meta : ObjectMeta;
  wl_Replicas : Z;
  wl_StableRevision : string;
  wl_CanaryRevision : string;
  wl_PodTemplateHash : string;
  wl_RevisionLabelKey : string;
  IsInRollback : bool;
  InRolloutProgressing : bool;
  IsStatusConsistent : bool
}.
#[export] Instance eta_Workload : Eta Workload := fun x =>
  mkWorkload (wl_APIVersion x) (wl_Kind x) (wl_Meta x) (wl_Replicas x) (wl_StableRevision x)
    (wl_CanaryRevision x) (wl_PodTemplateHash x) (wl_RevisionLabelKey x) (IsInRollback x)
    (InRolloutProgressing x) (IsStatusConsistent x).

Definition wl_label (w : Workload) (k : string) : string := mapget (Labels (wl_Meta w)) k.

(** [ControllerFinder.GetWorkloadForRef], as its clients see it. *)
Class WorkloadFinder (W : Type) := GetWorkloadForRef : Rollout -> M W (option Workload).

(** [strings.EqualFold] on the ASCII label values the API server admits. *)
Definition lowerAscii (c : Ascii.ascii) : Ascii.ascii :=
  let n := Ascii.nat_of_ascii c in
  if Nat.leb 65 n && Nat.leb n 90 then Ascii.ascii_of_nat (n + 32) else c.
Fixpoint toLower (s : string) : string :=
  match s with
  | EmptyString => EmptyString
  | String c rest => String (lowerAscii c) (toLower rest)
  end.
Definition EqualFold (s t : string) : bool := String.eqb (toLower s) (toLower t).

Definition IsRollbackInBatchPolicy (rollout : Rollout) (labels : gmap string string) : res bool :=
  res_bind (HasTrafficRoutings (ro_Strategy rollout)) (fun has =>
    if has : bool then Ok false else
    let kind := Kind (WorkloadRef (ro_Spec rollout)) in
    if String.eqb kind (GVKKind ControllerKindSts)
       || String.eqb kind (GVKKind ControllerKruiseKindCS)
       || EqualFold (mapget labels WorkloadTypeLabel) (GVKKind ControllerKindSts)
    then Ok (String.eqb (annotation (ro_Meta rollout) RollbackInBatchAnnotation) "true")
    else Ok false).

Definition getRolloutID (workload : option Workload) : string :=
  match workload with
  | Some w =>
      let rolloutID := wl_label w RolloutIDLabel in
      if String.eqb rolloutID "" then
        if IsInRollback w then ("rollback-" +:+ wl_CanaryRevision w)%string
        else wl_CanaryRevision w
      else rolloutID
  | None => ""
  end.

(** ** Step indexes *)

(** [NextBatchIndex] of a non-nil rollout: -1 after the last step. *)
Definition NextBatchIndex (rollout : Rollout) (currentStepIndex : Z) : res Z :=
  res_bind (GetSteps (ro_Strategy rollout)) (fun steps =>
    if decide (currentStepIndex >= wrap32 (len steps)) then Ok (-1)
    else Ok (wrap32 (currentStepIndex + 1))).

Definition CheckNextBatchIndexWithCorrect (rollout : Rollout) : res Rollout :=
  res_bind (deref (GetSubStatus (ro_Status rollout))) (fun sub =>
    let nextStep := NextStepIndex sub in
    res_bind (if decide (nextStep <= 0) then Ok true
              else res_map (fun steps => bool_decide (nextStep > wrap32 (len steps)))
                     (GetSteps (ro_Strategy rollout))) (fun invalid =>
      if invalid : bool then
        res_bind (NextBatchIndex rollout (CurrentStepIndex sub)) (fun next =>
          Ok (rollout <| ro_Status :=
                modSubStatus (fun s => s <| NextStepIndex := next |>) (ro_Status rollout) |>))
      else Ok rollout)).

(** ** Finalizers *)

Inductive FinalizerOpType := AddFinalizerOpType | RemoveFinalizerOpType.

Section UpdateFinalizer.
Context {W O : Type} `{KubeObject O} `{Api W O} `{Retry W} `{K8sLib}.

(** The finalizers to write, or [None] when there is nothing to do. *)
Definition newFinalizers (m : ObjectMeta) (op : FinalizerOpType) (finalizer : string)
    : option (list string) :=
  match op with
  | AddFinalizerOpType =>
      if ContainsFinalizer m finalizer then None else Some (Finalizers m ++ [finalizer])%list
  | RemoveFinalizerOpType =>
      let finalizerSet : gset string := list_to_set (Finalizers m) in
      if decide (finalizer ∈ finalizerSet)
      then Some (sets_List (finalizerSet ∖ {[finalizer]})) else None
  end.

Definition UpdateFinalizer (object : O) (op : FinalizerOpType) (finalizer : string)
    : M W unit :=
  let key := keyOf (metaOf object) in
  RetryOnConflict (
    fetchedObject <- api_Get key ;;
    match newFinalizers (metaOf fetchedObject) op finalizer with
    | None => ret tt
    | Some finalizers =>
        api_Update (withMeta ((metaOf fetchedObject) <| Finalizers := finalizers |>)
                      fetchedObject)
    end).
End UpdateFinalizer.

(** ** Lemmas *)

(** The rollout has the steps [steps], few enough for the [int32] indexes. *)
Definition hasSteps (rollout : Rollout) (steps : list CanaryStep) : Prop :=
  GetSteps (ro_Strategy rollout) = Ok steps /\ len steps < 2 ^ 31 - 1.

Definition nextIndex (n i : Z) : Z := if decide (i >= n) then -1 else i + 1.

Lemma NextBatchIndex_val rollout steps i :
  hasSteps rollout steps -> 0 <= i < 2 ^ 31 ->
  NextBatchIndex rollout i = Ok (nextIndex (len steps) i).
Proof.
  intros [Hs Hlen] Hi. pose proof (len_nonneg steps).
  unfold NextBatchIndex, nextIndex. rewrite Hs. simpl.
  rewrite (wrap32_id (len steps)) by (unfold in32; lia).
  repeat case_decide; try lia; [done|]. by rewrite wrap32_id by (unfold in32; lia).
Qed.

Lemma nextIndex_range n i : 0 <= i -> nextIndex n i = -1 \/ 1 <= nextIndex n i <= n.
Proof. unfold nextIndex. case_decide; lia. Qed.

(** A step index the user may ask for, or the mark of the last step. *)
Definition legalNext (n i : Z) : Prop := i = -1 \/ 1 <= i <= n.

Lemma getSub_modSub f st :
  GetSubStatus (modSubStatus f st) = option_map f (GetSubStatus st).
Proof. unfold GetSubStatus, modSubStatus. by destruct st as [? [] []]. Qed.

Lemma modSub_common f st :
  Conditions (modSubStatus f st) = Conditions st /\ Phase (modSubStatus f st) = Phase st
  /\ Message (modSubStatus f st) = Message st
  /\ ObservedGeneration (modSubStatus f st) = ObservedGeneration st
  /\ GetCanaryRevision (modSubStatus f st) = GetCanaryRevision st.
Proof. unfold modSubStatus, GetCanaryRevision. by destruct st as [? [] []]. Qed.

(** ** Properties *)

(** The next step index.  From a step of the plan [NextBatchIndex] is the following
    step, or -1 at the last one (and past it); and [CheckNextBatchIndexWithCorrect]
    keeps a legal next index, replaces an illegal one by the default, so that the
    index it leaves is always legal, and changes nothing else of the rollout. *)
Theorem next_index_correct (rollout : Rollout) (steps : list CanaryStep) (sub : CommonStatus)
    (Hsteps : hasSteps rollout steps)
    (Hsub : GetSubStatus (ro_Status rollout) = Some sub)
    (Hcur : 0 <= CurrentStepIndex sub < 2 ^ 31) :
  (exists i, NextBatchIndex rollout (CurrentStepIndex sub) = Ok i
     /\ (CurrentStepIndex sub < len steps -> i = CurrentStepIndex sub + 1)
     /\ (len steps <= CurrentStepIndex sub -> i = -1))
  /\ exists rollout', CheckNextBatchIndexWithCorrect rollout = Ok rollout'
     /\ (1 <= NextStepIndex sub <= len steps -> rollout' = rollout)
     /\ exists sub', GetSubStatus (ro_Status rollout') = Some sub'
        /\ legalNext (len steps) (NextStepIndex sub')
        /\ (sub' <| NextStepIndex := NextStepIndex sub |>) = sub
        /\ ro_Meta rollout' = ro_Meta rollout /\ ro_Spec rollout' = ro_Spec rollout
        /\ Conditions (ro_Status rollout') = Conditions (ro_Status rollout)
        /\ Phase (ro_Status rollout') = Phase (ro_Status rollout).
Proof.
  pose proof (NextBatchIndex_val _ _ _ Hsteps Hcur) as Hnext.
  pose proof (nextIndex_range (len steps) (CurrentStepIndex sub)) as Hrange.
  destruct Hsteps as [Hs Hlen]. pose proof (len_nonneg steps). split.
  { eexists. split; [exact Hnext|]. unfold nextIndex. case_decide; lia. }
  unfold CheckNextBatchIndexWithCorrect. rewrite Hsub. simpl.
  assert (Hinv : (if decide (NextStepIndex sub <= 0) then Ok true
      else res_map (fun steps => bool_decide (NextStepIndex sub > wrap32 (len steps)))
             (GetSteps (ro_Strategy rollout)))
    = Ok (negb (bool_decide (1 <= NextStepIndex sub <= len steps)))).
  { rewrite Hs. simpl. rewrite wrap32_id by (unfold in32; lia).
    case_decide; repeat case_bool_decide; try done; lia. }
  rewrite Hinv. simpl. case_bool_decide as Hlegal; simpl.
  - eexists. split; [done|]. split; [done|]. exists sub. split; [done|].
    split; [by right|]. by destruct sub.
  - rewrite Hnext. simpl. eexists. split; [done|]. split; [lia|].
    simpl. rewrite getSub_modSub, Hsub. simpl. eexists. split; [done|].
    destruct (modSub_common (fun s => s <| NextStepIndex := nextIndex (len steps) (CurrentStepIndex sub) |>)
                (ro_Status rollout)) as (? & ? & ?).
    split; [apply Hrange; lia|]. split; [by destruct sub|]. done.
Qed.

(** Finalizer bookkeeping.  Adding keeps every finalizer and ends with the new one
    present; removing takes away that finalizer and no other; and both ask for a
    write exactly when the object would change. *)
Theorem newFinalizers_spec `{K8sLaws} (m : ObjectMeta) (finalizer : string) :
  (forall l, newFinalizers m AddFinalizerOpType finalizer = Some l ->
     (finalizer ∉ Finalizers m) /\ forall x, x ∈ l <-> x ∈ Finalizers m \/ x = finalizer)
  /\ (newFinalizers m AddFinalizerOpType finalizer = None <-> finalizer ∈ Finalizers m)
  /\ (forall l, newFinalizers m RemoveFinalizerOpType finalizer = Some l ->
     finalizer ∈ Finalizers m /\ forall x, x ∈ l <-> x ∈ Finalizers m /\ x <> finalizer)
  /\ (newFinalizers m RemoveFinalizerOpType finalizer = None <-> finalizer ∉ Finalizers m).
Proof.
  unfold newFinalizers. pose proof (ContainsFinalizer_spec m finalizer) as Hc.
  split; [|split; [|split]].
  - intros l. destruct (ContainsFinalizer m finalizer) eqn:E; [done|]. intros [= <-].
    split; [naive_solver|]. set_solver.
  - destruct (ContainsFinalizer m finalizer); naive_solver.
  - intros l. case_decide as Hin; [|done]. intros [= <-]. rewrite elem_of_list_to_set in Hin.
    split; [done|]. intros x. rewrite sets_List_elem. set_solver.
  - case_decide as Hin; rewrite elem_of_list_to_set in Hin; naive_solver.
Qed.
