(* ===== verification/Workloads.v ===== *)
(** * Workload objects (pkg/util: workloads_utils.go, parse_utils.go, pod_utils.go)

    The API objects a release works on, one record per Go type, the summary the
    controllers take of any of them, pods and what they are owned by.  Objects of kinds
    the controllers do not know come as unstructured trees. *)

From Stdlib Require Import Sorting.Sorted.
From S2P Require Export RolloutUtil.

(** ** Constants *)

Definition DefaultDeploymentUniqueLabelKey : string := "pod-template-hash".
Definition ControllerRevisionHashLabelKey : string := "controller-revision-hash".
Definition BatchReleaseControlAnnotation : string := "batchrelease.rollouts.kruise.io/control-info".
Definition DeploymentRevisionAnnotation : string := "deployment.kubernetes.io/revision".
Definition DaemonSetRevisionAnnotation : string := "rollouts.kruise.io/daemonset-revision".
Definition DaemonSetAdvancedControlAnnotation : string :=
  "rollouts.kruise.io/daemonset-advanced-control".
Definition DeploymentStrategyAnnotation : string := "rollouts.kruise.io/deployment-strategy".
Definition DeploymentExtraStatusAnnotation : string := "rollouts.kruise.io/deployment-extra-status".
Definition DeploymentStableRevisionLabel : string := "rollouts.kruise.io/stable-revision".

(** ** Pod templates and selectors *)

(** A pod template: its metadata, and the rest of it, which is only compared and hashed,
    in serialised form. *)
Record PodTemplateSpec := mkTemplate {
  tmpl_Labels : option (gmap string string);
  tmpl_Annotations : option (gmap string string);
  tmpl_Rest : string
}.
#[export] Instance eta_PodTemplateSpec : Eta PodTemplateSpec := fun x =>
  mkTemplate (tmpl_Labels x) (tmpl_Annotations x) (tmpl_Rest x).
#[export] Instance PodTemplateSpec_eq_dec : EqDecision PodTemplateSpec.
Proof. solve_decision. Defined.

Record LabelSelector := mkLabelSelector {
  MatchLabels : gmap string string;
  MatchExpressions : list (string * string * list string)
}.

(** ** Pods *)

Record PodCondition := mkPodCondition {
  podc_Type : string;
  podc_Status : ConditionStatus;
  podc_LastTransitionTime : Z
}.
#[export] Instance PodCondition_eq_dec : EqDecision PodCondition.
Proof. solve_decision. Defined.

Record Pod := mkPod {
  pod_Meta : ObjectMeta;
  pod_Phase : string;
  pod_Conditions : list PodCondition;
  pod_IP : string;
  pod_NodeName : string
}.
#[export] Instance eta_Pod : Eta Pod := fun x =>
  mkPod (pod_Meta x) (pod_Phase x) (pod_Conditions x) (pod_IP x) (pod_NodeName x).
#[export] Instance Pod_object : KubeObject Pod :=
  {| metaOf := pod_Meta; withMeta m p := p <| pod_Meta := m |> |}.

(** ** apps/v1 *)

Record RollingUpdateDeployment := mkRollingUpdate {
  ru_MaxUnavailable : option IntOrString;
  ru_MaxSurge : option IntOrString
}.
#[export] Instance eta_RollingUpdate : Eta RollingUpdateDeployment := fun x =>
  mkRollingUpdate (ru_MaxUnavailable x) (ru_MaxSurge x).
#[export] Instance RollingUpdate_eq_dec : EqDecision RollingUpdateDeployment.
Proof. solve_decision. Defined.

Definition RecreateDeploymentStrategyType : string := "Recreate".
Definition RollingUpdateDeploymentStrategyType : string := "RollingUpdate".

Record DeploymentCondition := mkDeploymentCondition {
  dc_Type : string;
  dc_Status : ConditionStatus;
  dc_LastUpdateTime : Z;
  dc_LastTransitionTime : Z;
  dc_Reason : string;
  dc_Message : string
}.
#[export] Instance eta_DeploymentCondition : Eta DeploymentCondition := fun x =>
  mkDeploymentCondition (dc_Type x) (dc_Status x) (dc_LastUpdateTime x) (dc_LastTransitionTime x)
    (dc_Reason x) (dc_Message x).

Record DeploymentStatus := mkDeploymentStatus {
  ds_ObservedGeneration : Z;
  ds_Replicas : Z;
  ds_UpdatedReplicas : Z;
  ds_ReadyReplicas : Z;
  ds_AvailableReplicas : Z;
  ds_UnavailableReplicas : Z;
  ds_Conditions : list DeploymentCondition;
  ds_CollisionCount : option Z
}.
#[export] Instance eta_DeploymentStatus : Eta DeploymentStatus := fun x =>
  mkDeploymentStatus (ds_ObservedGeneration x) (ds_Replicas x) (ds_UpdatedReplicas x)
    (ds_ReadyReplicas x) (ds_AvailableReplicas x) (ds_UnavailableReplicas x) (ds_Conditions x)
    (ds_CollisionCount x).
Definition emptyDeploymentStatus : DeploymentStatus := mkDeploymentStatus 0 0 0 0 0 0 [] None.

Record Deployment := mkDeployment {
  dep_Meta : ObjectMeta;
  dep_Replicas : option Z;
  dep_Selector : option LabelSelector;
  dep_Template : PodTemplateSpec;
  dep_StrategyType : string;
  dep_RollingUpdate : option RollingUpdateDeployment;
  dep_MinReadySeconds : Z;
  dep_RevisionHistoryLimit : option Z;
  dep_Paused : bool;
  dep_ProgressDeadlineSeconds : option Z;
  dep_Status : DeploymentStatus
}.
#[export] Instance eta_Deployment : Eta Deployment := fun x =>
  mkDeployment (dep_Meta x) (dep_Replicas x) (dep_Selector x) (dep_Template x) (dep_StrategyType x)
    (dep_RollingUpdate x) (dep_MinReadySeconds x) (dep_RevisionHistoryLimit x) (dep_Paused x)
    (dep_ProgressDeadlineSeconds x) (dep_Status x).
#[export] Instance Deployment_object : KubeObject Deployment :=
  {| metaOf := dep_Meta; withMeta m r := r <| dep_Meta := m |> |}.

(** Conditions of a ReplicaSet have one time, here both. *)
Record ReplicaSet := mkReplicaSet {
  rs_Meta : ObjectMeta;
  rs_Replicas : option Z;
  rs_MinReadySeconds : Z;
  rs_Selector : option LabelSelector;
  rs_Template : PodTemplateSpec;
  rs_StatusReplicas : Z;
  rs_ReadyReplicas : Z;
  rs_AvailableReplicas : Z;
  rs_Conditions : list DeploymentCondition
}.
#[export] Instance eta_ReplicaSet : Eta ReplicaSet := fun x =>
  mkReplicaSet (rs_Meta x) (rs_Replicas x) (rs_MinReadySeconds x) (rs_Selector x) (rs_Template x)
    (rs_StatusReplicas x) (rs_ReadyReplicas x) (rs_AvailableReplicas x) (rs_Conditions x).
#[export] Instance ReplicaSet_object : KubeObject ReplicaSet :=
  {| metaOf := rs_Meta; withMeta m r := r <| rs_Meta := m |> |}.

(** The native and the Kruise StatefulSet differ in their rolling-update parameters. *)
Record StatefulSetStatus := mkStsStatus {
  stss_Replicas : Z;
  stss_ReadyReplicas : Z;
  stss_AvailableReplicas : Z;
  stss_UpdatedReplicas : Z;
  stss_ObservedGeneration : Z;
  stss_UpdateRevision : string;
  stss_CurrentRevision : string
}.

Record StatefulSetOf (R : Type) := mkSts {
  sts_Meta : ObjectMeta;
  sts_Replicas : option Z;
  sts_Selector : option LabelSelector;
  sts_Template : PodTemplateSpec;
  sts_UpdateStrategyType : string;
  sts_RollingUpdate : option R;
  sts_Status : StatefulSetStatus
}.
Arguments mkSts {R}.
Arguments sts_Meta {R}.
Arguments sts_Replicas {R}.
Arguments sts_Selector {R}.
Arguments sts_Template {R}.
Arguments sts_UpdateStrategyType {R}.
Arguments sts_RollingUpdate {R}.
Arguments sts_Status {R}.
#[export] Instance eta_StatefulSetOf {R} : Eta (StatefulSetOf R) := fun x =>
  mkSts (sts_Meta x) (sts_Replicas x) (sts_Selector x) (sts_Template x) (sts_UpdateStrategyType x)
    (sts_RollingUpdate x) (sts_Status x).
#[export] Instance StatefulSetOf_object {R} : KubeObject (StatefulSetOf R) :=
  {| metaOf := sts_Meta; withMeta m r := r <| sts_Meta := m |> |}.

Record RollingUpdateStatefulSet := mkStsRolling { stsru_Partition : option Z }.
#[export] Instance eta_StsRolling : Eta RollingUpdateStatefulSet := fun x =>
  mkStsRolling (stsru_Partition x).
Definition StatefulSet : Type := StatefulSetOf RollingUpdateStatefulSet.

(** [kst_UnorderedUpdate]: the pointer is set. *)
Record KruiseRollingUpdateStatefulSet := mkKruiseStsRolling {
  kst_Partition : option Z;
  kst_MaxUnavailable : option IntOrString;
  kst_UnorderedUpdate : bool
}.
#[export] Instance eta_KruiseStsRolling : Eta KruiseRollingUpdateStatefulSet := fun x =>
  mkKruiseStsRolling (kst_Partition x) (kst_MaxUnavailable x) (kst_UnorderedUpdate x).
Definition KruiseStatefulSet : Type := StatefulSetOf KruiseRollingUpdateStatefulSet.

(** The two DaemonSets; the native one has no hash and no partition. *)
Record DaemonSetStatus := mkDsetStatus {
  dss_DesiredNumberScheduled : Z;
  dss_NumberReady : Z;
  dss_NumberAvailable : Z;
  dss_UpdatedNumberScheduled : Z;
  dss_ObservedGeneration : Z
}.

Record DaemonSet := mkDaemonSet {
  dst_Meta : ObjectMeta;
  dst_Selector : option LabelSelector;
  dst_Template : PodTemplateSpec;
  dst_UpdateStrategyType : string;
  (** [updateStrategy.rollingUpdate.maxUnavailable] *)
  dst_MaxUnavailable : option IntOrString;
  dst_Status : DaemonSetStatus
}.
#[export] Instance eta_DaemonSet : Eta DaemonSet := fun x =>
  mkDaemonSet (dst_Meta x) (dst_Selector x) (dst_Template x) (dst_UpdateStrategyType x)
    (dst_MaxUnavailable x) (dst_Status x).
#[export] Instance DaemonSet_object : KubeObject DaemonSet :=
  {| metaOf := dst_Meta; withMeta m r := r <| dst_Meta := m |> |}.

Record RollingUpdateDaemonSet := mkDsetRolling {
  dsru_Partition : option Z;
  dsru_Paused : option bool
}.

Record KruiseDaemonSet := mkKruiseDaemonSet {
  kds_Meta : ObjectMeta;
  kds_Selector : option LabelSelector;
  kds_Template : PodTemplateSpec;
  kds_RollingUpdate : option RollingUpdateDaemonSet;
  kds_Status : DaemonSetStatus;
  kds_DaemonSetHash : string
}.
#[export] Instance eta_KruiseDaemonSet : Eta KruiseDaemonSet := fun x =>
  mkKruiseDaemonSet (kds_Meta x) (kds_Selector x) (kds_Template x) (kds_RollingUpdate x)
    (kds_Status x) (kds_DaemonSetHash x).
#[export] Instance KruiseDaemonSet_object : KubeObject KruiseDaemonSet :=
  {| metaOf := kds_Meta; withMeta m r := r <| kds_Meta := m |> |}.

Record CloneSetStatus := mkCloneSetStatus {
  cls_Replicas : Z;
  cls_ReadyReplicas : Z;
  cls_AvailableReplicas : Z;
  cls_UpdatedReplicas : Z;
  cls_UpdatedReadyReplicas : Z;
  cls_ObservedGeneration : Z;
  cls_UpdateRevision : string;
  cls_CurrentRevision : string
}.

Record CloneSet := mkCloneSet {
  clone_Meta : ObjectMeta;
  clone_Replicas : option Z;
  clone_Selector : option LabelSelector;
  clone_Template : PodTemplateSpec;
  clone_UpdateStrategyType : string;
  clone_Partition : option IntOrString;
  clone_MaxUnavailable : option IntOrString;
  clone_MaxSurge : option IntOrString;
  clone_Paused : bool;
  clone_MinReadySeconds : Z;
  clone_Status : CloneSetStatus
}.
#[export] Instance eta_CloneSet : Eta CloneSet := fun x =>
  mkCloneSet (clone_Meta x) (clone_Replicas x) (clone_Selector x) (clone_Template x)
    (clone_UpdateStrategyType x) (clone_Partition x) (clone_MaxUnavailable x) (clone_MaxSurge x)
    (clone_Paused x) (clone_MinReadySeconds x) (clone_Status x).
#[export] Instance CloneSet_object : KubeObject CloneSet :=
  {| metaOf := clone_Meta; withMeta m r := r <| clone_Meta := m |> |}.

(** ** Library functions over these objects *)

(** [encoding/json] for one type. *)
Class Json (A : Type) := {
  Marshal : A -> string;
  Unmarshal : string -> option A
}.
Class JsonLaws (A : Type) `{Json A} := unmarshal_marshal (a : A) : Unmarshal (Marshal a) = Some a.

(** An object of a kind the controllers do not know: a tree, here as its JSON text. *)
Record Unstructured := mkUnstructured {
  un_GVK : GroupVersionKind;
  un_Object : string
}.

(** apimachinery's accessors of the tree; a nested field comes as JSON. *)
Class UnstructuredLib := {
  un_metaOf : Unstructured -> ObjectMeta;
  un_withMeta : ObjectMeta -> Unstructured -> Unstructured;
  NestedInt64 : Unstructured -> list string -> res (option Z);
  NestedString : Unstructured -> list string -> res (option string);
  NestedField : Unstructured -> list string -> res (option string)
}.
#[export] Instance Unstructured_object `{UnstructuredLib} : KubeObject Unstructured :=
  {| metaOf := un_metaOf; withMeta := un_withMeta |}.

(** [metav1.GetControllerOf] and [metav1.LabelSelectorAsSelector], whose selector is the
    test it makes on labels. *)
Class MetaLib := {
  GetControllerOf : ObjectMeta -> option OwnerReference;
  LabelSelectorAsSelector : option LabelSelector -> res (gmap string string -> bool)
}.
Class MetaLaws `{MetaLib} := {
  GetControllerOf_spec m owner :
    GetControllerOf m = Some owner -> owner ∈ OwnerReferences m /\ or_Controller owner = true;
  GetControllerOf_none m :
    GetControllerOf m = None -> forall owner, owner ∈ OwnerReferences m -> or_Controller owner = false
}.

(** [DeepHashObject]: the 32-bit FNV hash of a template's printed form, and of a
    collision count. *)
Class TemplateHash := DeepHashObject : PodTemplateSpec -> option Z -> Z.

(** [client.List] with a namespace and a label selector. *)
Class ListApi (W O : Type) := api_List : string -> (gmap string string -> bool) -> M W (list O).

(** [sort.Slice]; it is not stable. *)
Class SortLib := sortSlice : forall {A : Type}, (A -> A -> bool) -> list A -> list A.
Class SortLaws `{SortLib} := {
  sortSlice_perm {A} (less : A -> A -> bool) l : sortSlice less l ≡ₚ l;
  sortSlice_sorted {A} (key : A -> Z) (less : A -> A -> bool) l :
    (forall a b, less a b = bool_decide (key a < key b)) ->
    Sorted (fun a b => key a <= key b) (sortSlice less l)
}.

(** [strings.LastIndex(s, "-")], and the slices cut at it. *)
Fixpoint lastDash (s : string) : Z :=
  match s with
  | EmptyString => -1
  | String c rest =>
      let i := lastDash rest in
      if decide (0 <= i) then i + 1
      else if Nat.eqb (Ascii.nat_of_ascii c) 45 then 0 else -1
  end.
Definition afterDash (s : string) : string :=
  let i := Z.to_nat (lastDash s + 1) in String.substring i (String.length s - i) s.

(** ** Workload objects of any kind *)

Inductive WorkloadObject :=
  | ODeployment (o : Deployment)
  | OReplicaSet (o : ReplicaSet)
  | OCloneSet (o : CloneSet)
  | OStatefulSet (o : StatefulSet)
  | OKruiseStatefulSet (o : KruiseStatefulSet)
  | ODaemonSet (o : DaemonSet)
  | OKruiseDaemonSet (o : KruiseDaemonSet)
  | OUnstructured (o : Unstructured).

(** ** The workload summary *)

Record WorkloadStatus := mkWS {
  ws_Replicas : Z;
  ws_ReadyReplicas : Z;
  ws_UpdatedReplicas : Z;
  ws_UpdatedReadyReplicas : Z;
  ws_AvailableReplicas : Z;
  ws_ObservedGeneration : Z;
  ws_UpdateRevision : string;
  ws_StableRevision : string
}.
#[export] Instance eta_WorkloadStatus : Eta WorkloadStatus := fun x =>
  mkWS (ws_Replicas x) (ws_ReadyReplicas x) (ws_UpdatedReplicas x) (ws_UpdatedReadyReplicas x)
    (ws_AvailableReplicas x) (ws_ObservedGeneration x) (ws_UpdateRevision x) (ws_StableRevision x).

Record WorkloadInfo := mkWI {
  wi_Meta : ObjectMeta;
  wi_Replicas : Z;
  wi_Status : WorkloadStatus
}.
#[export] Instance eta_WorkloadInfo : Eta WorkloadInfo := fun x =>
  mkWI (wi_Meta x) (wi_Replicas x) (wi_Status x).

Definition IsStable (w : WorkloadInfo) : bool :=
  bool_decide (Generation (wi_Meta w) <= ws_ObservedGeneration (wi_Status w)).

Definition IsPromoted (w : WorkloadInfo) : bool :=
  bool_decide (ws_Replicas (wi_Status w) = ws_UpdatedReplicas (wi_Status w)).

Definition IsScaling (w : WorkloadInfo) (observed : Z) : bool :=
  if decide (observed = -1) then false else bool_decide (wi_Replicas w <> observed).

Definition IsRollback (w : WorkloadInfo) (observedStable observedUpdate : string) : bool :=
  if String.eqb observedUpdate "" then false else
  String.eqb (ws_UpdateRevision (wi_Status w)) (ws_StableRevision (wi_Status w))
  && String.eqb observedStable (ws_UpdateRevision (wi_Status w))
  && negb (String.eqb observedStable observedUpdate).

Definition IsRevisionNotEqual (w : WorkloadInfo) (observed : string) : bool :=
  if String.eqb observed "" then false
  else negb (String.eqb (ws_UpdateRevision (wi_Status w)) observed).

Section parse.
Context `{UnstructuredLib} `{TemplateHash}.

(** ** Hashes *)

Definition alphanums : string := "bcdfghjklmnpqrstvwxz2456789".

(** [alphanums[int(b)%len(alphanums)]], byte by byte: what it is given is ASCII. *)
Fixpoint SafeEncodeString (s : string) : string :=
  match s with
  | EmptyString => EmptyString
  | String c rest =>
      String.substring (Nat.modulo (Ascii.nat_of_ascii c) (String.length alphanums)) 1 alphanums
        +:+ SafeEncodeString rest
  end.

Definition ComputeHash (template : PodTemplateSpec) (collisionCount : option Z) : string :=
  SafeEncodeString (itoa (DeepHashObject template collisionCount)).

(** ** Revisions of native DaemonSets *)

Record DaemonSetRevisionInfo := mkDsetRevision {
  dsr_CanaryRevision : string;
  dsr_StableRevision : string
}.

Definition ParseDaemonSetRevision `{Json DaemonSetRevisionInfo}
    (annotations : option (gmap string string)) : string * string :=
  let revisionStr := mapget (default ∅ annotations) DaemonSetRevisionAnnotation in
  if String.eqb revisionStr "" then (""%string, ""%string) else
  match Unmarshal revisionStr with
  | Some info => (dsr_CanaryRevision info, dsr_StableRevision info)
  | None => (""%string, ""%string)
  end.

(** On a nil map nothing is set. *)
Definition SetDaemonSetRevision `{Json DaemonSetRevisionInfo}
    (annotations : option (gmap string string)) (canary stable : string)
    : option (gmap string string) :=
  option_map (<[DaemonSetRevisionAnnotation := Marshal (mkDsetRevision canary stable)]>) annotations.

(** ** StatefulSets *)

Definition IsStatefulSetRollingUpdate (object : WorkloadObject) : res bool :=
  let rolling t := String.eqb t "" || String.eqb t "RollingUpdate" in
  match object with
  | OStatefulSet o => Ok (rolling (sts_UpdateStrategyType o))
  | OKruiseStatefulSet o => Ok (rolling (sts_UpdateStrategyType o))
  | OUnstructured o =>
      match NestedString o ["spec"; "updateStrategy"; "type"]%string with
      | Ok t => Ok (rolling (default ""%string t))
      | Err _ => Ok false
      | Panic => Panic
      end
  | _ => Panic
  end.

Definition GetStatefulSetPartition (object : WorkloadObject) : res Z :=
  match object with
  | OStatefulSet o => Ok (default 0 (r ← sts_RollingUpdate o; stsru_Partition r))
  | OKruiseStatefulSet o => Ok (default 0 (r ← sts_RollingUpdate o; kst_Partition r))
  | OUnstructured o =>
      match NestedInt64 o ["spec"; "updateStrategy"; "rollingUpdate"; "partition"]%string with
      | Ok (Some field) => Ok (wrap32 field)
      | Ok None | Err _ => Ok 0
      | Panic => Panic
      end
  | _ => Panic
  end.

(** An explicit JSON null counts as unset. *)
Definition IsStatefulSetUnorderedUpdate (object : WorkloadObject) : res bool :=
  match object with
  | OStatefulSet o => Ok false
  | OKruiseStatefulSet o =>
      Ok match sts_RollingUpdate o with Some r => kst_UnorderedUpdate r | None => false end
  | OUnstructured o =>
      match NestedField o ["spec"; "updateStrategy"; "rollingUpdate"; "unorderedUpdate"]%string with
      | Ok (Some field) => Ok (negb (String.eqb field "null"))
      | Ok None | Err _ => Ok false
      | Panic => Panic
      end
  | _ => Panic
  end.

Definition unmarshalIntStr `{Json IntOrString} (m : string) : IntOrString :=
  default (FromInt 0) (Unmarshal m).

Definition getStatefulSetMaxUnavailable `{Json IntOrString} (object : WorkloadObject)
    : res (option IntOrString) :=
  match object with
  | OStatefulSet o => Ok None
  | OKruiseStatefulSet o => Ok (r ← sts_RollingUpdate o; kst_MaxUnavailable r)
  | OUnstructured o =>
      match NestedField o ["spec"; "updateStrategy"; "rollingUpdate"; "maxUnavailable"]%string with
      | Ok (Some m) => Ok (Some (unmarshalIntStr m))
      | Ok None | Err _ => Ok None
      | Panic => Panic
      end
  | _ => Panic
  end.

(** ** The summary of an object *)

(** A malformed or missing field reads as zero, or as the empty string. *)
Definition parseStatusIntFromUnstructured (o : Unstructured) (field : string) : Z :=
  match NestedInt64 o ["status"%string; field] with Ok (Some value) => value | _ => 0 end.
Definition parseStatusStringFromUnstructured (o : Unstructured) (field : string) : string :=
  match NestedString o ["status"%string; field] with Ok (Some value) => value | _ => "" end.
Definition parseReplicasFromUnstructured (o : Unstructured) : Z :=
  match NestedInt64 o ["spec"; "replicas"]%string with Ok (Some field) => wrap32 field | _ => 1 end.
Definition parseMetadataFromUnstructured `{Json ObjectMeta} (o : Unstructured) : option ObjectMeta :=
  match NestedField o ["metadata"%string] with Ok (Some m) => Unmarshal m | _ => None end.

Definition parseDaemonSetStatus (s : DaemonSetStatus) (update stable : string) : WorkloadStatus :=
  mkWS (dss_DesiredNumberScheduled s) (dss_NumberReady s) (dss_UpdatedNumberScheduled s) 0
    (dss_NumberAvailable s) (dss_ObservedGeneration s) update stable.
Definition parseStatefulSetStatus (s : StatefulSetStatus) : WorkloadStatus :=
  mkWS (stss_Replicas s) (stss_ReadyReplicas s) (stss_UpdatedReplicas s) 0 (stss_AvailableReplicas s)
    (stss_ObservedGeneration s) (stss_UpdateRevision s) (stss_CurrentRevision s).

Definition ParseWorkloadStatus `{Json DaemonSetRevisionInfo} (object : WorkloadObject)
    : res WorkloadStatus :=
  match object with
  | ODeployment o =>
      let s := dep_Status o in
      Ok (mkWS (ds_Replicas s) (ds_ReadyReplicas s) (ds_UpdatedReplicas s) 0 (ds_AvailableReplicas s)
            (ds_ObservedGeneration s) (ComputeHash (dep_Template o) None) "")
  | OCloneSet o =>
      let s := clone_Status o in
      Ok (mkWS (cls_Replicas s) (cls_ReadyReplicas s) (cls_UpdatedReplicas s)
            (cls_UpdatedReadyReplicas s) (cls_AvailableReplicas s) (cls_ObservedGeneration s)
            (cls_UpdateRevision s) (cls_CurrentRevision s))
  | OStatefulSet o => Ok (parseStatefulSetStatus (sts_Status o))
  | OKruiseStatefulSet o => Ok (parseStatefulSetStatus (sts_Status o))
  | ODaemonSet o =>
      let '(canary, stable) := ParseDaemonSetRevision (Annotations (dst_Meta o)) in
      Ok (parseDaemonSetStatus (dst_Status o) canary stable)
  | OKruiseDaemonSet o => Ok (parseDaemonSetStatus (kds_Status o) (kds_DaemonSetHash o) "")
  | OUnstructured o =>
      let int field := wrap32 (parseStatusIntFromUnstructured o field) in
      Ok (mkWS (int "replicas"%string) (int "readyReplicas"%string) (int "updatedReplicas"%string)
            (int "updatedReadyReplicas"%string) (int "availableReplicas"%string)
            (parseStatusIntFromUnstructured o "observedGeneration")
            (parseStatusStringFromUnstructured o "updateRevision")
            (parseStatusStringFromUnstructured o "currentRevision"))
  | OReplicaSet _ => Panic
  end.

Definition GetReplicas (object : WorkloadObject) : res Z :=
  match object with
  | ODeployment o => deref (dep_Replicas o)
  | OCloneSet o => deref (clone_Replicas o)
  | OStatefulSet o => deref (sts_Replicas o)
  | OKruiseStatefulSet o => deref (sts_Replicas o)
  | ODaemonSet o => Ok (dss_DesiredNumberScheduled (dst_Status o))
  | OKruiseDaemonSet o => Ok (dss_DesiredNumberScheduled (kds_Status o))
  | OUnstructured o => Ok (parseReplicasFromUnstructured o)
  | OReplicaSet _ => Panic
  end.

(** Nil only for an unstructured object without readable metadata. *)
Definition GetMetadata `{Json ObjectMeta} (object : WorkloadObject) : res (option ObjectMeta) :=
  match object with
  | ODeployment o => Ok (Some (dep_Meta o))
  | OCloneSet o => Ok (Some (clone_Meta o))
  | OStatefulSet o => Ok (Some (sts_Meta o))
  | OKruiseStatefulSet o => Ok (Some (sts_Meta o))
  | ODaemonSet o => Ok (Some (dst_Meta o))
  | OKruiseDaemonSet o => Ok (Some (kds_Meta o))
  | OUnstructured o => Ok (parseMetadataFromUnstructured o)
  | OReplicaSet _ => Panic
  end.

(** [ParseWorkload] of a non-nil object. *)
Definition ParseWorkload `{Json DaemonSetRevisionInfo} `{Json ObjectMeta} (object : WorkloadObject)
    : res WorkloadInfo :=
  res_bind (GetMetadata object) (fun m =>
  res_bind (deref m) (fun m =>
  res_bind (GetReplicas object) (fun replicas =>
  res_bind (ParseWorkloadStatus object) (fun status =>
  Ok (mkWI m replicas status))))).

Definition GetTemplate `{Json PodTemplateSpec} (object : WorkloadObject)
    : res (option PodTemplateSpec) :=
  match object with
  | ODeployment o => Ok (Some (dep_Template o))
  | OCloneSet o => Ok (Some (clone_Template o))
  | OStatefulSet o => Ok (Some (sts_Template o))
  | OKruiseStatefulSet o => Ok (Some (sts_Template o))
  | OUnstructured o =>
      match NestedField o ["spec"; "template"]%string with
      | Ok (Some t) => Ok (Unmarshal t)
      | _ => Ok None
      end
  | _ => Panic
  end.

(** A missing selector of an unstructured object is a nil selector: listing with it
    finds every pod of the namespace. *)
Definition getSelector `{MetaLib} `{Json LabelSelector} (object : WorkloadObject)
    : res (gmap string string -> bool) :=
  match object with
  | ODeployment o => LabelSelectorAsSelector (dep_Selector o)
  | OCloneSet o => LabelSelectorAsSelector (clone_Selector o)
  | OStatefulSet o => LabelSelectorAsSelector (sts_Selector o)
  | OKruiseStatefulSet o => LabelSelectorAsSelector (sts_Selector o)
  | ODaemonSet o => LabelSelectorAsSelector (dst_Selector o)
  | OKruiseDaemonSet o => LabelSelectorAsSelector (kds_Selector o)
  | OUnstructured o =>
      res_bind (NestedField o ["spec"; "selector"]%string) (fun m =>
      match m with
      | None => Ok (fun _ => true)
      | Some m =>
          match Unmarshal m with
          | Some selector => LabelSelectorAsSelector (Some selector)
          | None => Err (ErrOther "unmarshal spec.selector failed")
          end
      end)
  | OReplicaSet _ => Panic
  end.
End parse.

(** ** Pods (pod_utils.go) *)

Definition PodReady : string := "Ready".

Definition GetPodConditionFromList (conditions : list PodCondition) (t : string)
    : option PodCondition :=
  snd <$> list_find (fun c => podc_Type c = t) conditions.
Definition GetPodReadyCondition (pod : Pod) : option PodCondition :=
  GetPodConditionFromList (pod_Conditions pod) PodReady.
Definition IsPodReady (pod : Pod) : bool :=
  match GetPodReadyCondition pod with
  | Some c => bool_decide (podc_Status c = ConditionTrue)
  | None => false
  end.

(** [strings.HasSuffix] *)
Definition HasSuffix (s suffix : string) : bool :=
  let n := String.length s in
  let k := String.length suffix in
  Nat.leb k n && String.eqb (String.substring (n - k) k s) suffix.

Definition IsConsistentWithRevision (labels : gmap string string) (revision : string) : bool :=
  let matches key := nonempty (mapget labels key) && HasSuffix revision (mapget labels key) in
  matches DefaultDeploymentUniqueLabelKey || matches ControllerRevisionHashLabelKey.

Definition IsEqualRevision (a b : Pod) : bool :=
  let label pod key := mapget (Labels (pod_Meta pod)) key in
  let same key := nonempty (label a key) && String.eqb (label a key) (label b key) in
  same DefaultDeploymentUniqueLabelKey || same ControllerRevisionHashLabelKey.

Definition FilterActivePods (pods : list Pod) : list Pod :=
  filter (fun pod => deleting (pod_Meta pod) = false) pods.

Definition IsCompletedPod (pod : Pod) : bool :=
  String.eqb (pod_Phase pod) "Failed" || String.eqb (pod_Phase pod) "Succeeded".
Definition IsPodActive (pod : Pod) : bool :=
  negb (IsCompletedPod pod) && negb (deleting (pod_Meta pod)).

Fixpoint WrappedPodCount (pods : list Pod) (filter : Pod -> bool) : Z :=
  match pods with
  | [] => 0
  | pod :: rest => (if filter pod then 1 else 0) + WrappedPodCount rest filter
  end.

(** ** Ownership (workloads_utils.go) *)

Definition objMeta `{UnstructuredLib} (object : WorkloadObject) : ObjectMeta :=
  match object with
  | ODeployment o => dep_Meta o
  | OReplicaSet o => rs_Meta o
  | OCloneSet o => clone_Meta o
  | OStatefulSet o => sts_Meta o
  | OKruiseStatefulSet o => sts_Meta o
  | ODaemonSet o => dst_Meta o
  | OKruiseDaemonSet o => kds_Meta o
  | OUnstructured o => un_metaOf o
  end.

(** Empty objects *)
Definition emptyMeta : ObjectMeta := mkMeta "" "" "" 0 0 None [] [] None ∅.
Definition emptyTemplate : PodTemplateSpec := mkTemplate None None "".
Definition emptyDeployment : Deployment :=
  mkDeployment emptyMeta None None emptyTemplate "" None 0 None false None emptyDeploymentStatus.

(** [client.Get] into an empty object of a kind. *)
Class ObjectReader (W : Type) := getObject : GroupVersionKind -> ObjectKey -> M W WorkloadObject.

(** How deep a recursion may go before it exhausts the stack, which is fatal in Go. *)
Class StackDepth := maxDepth : nat.

Section ownership.
Context {W : Type} `{ObjectReader W} `{UnstructuredLib} `{MetaLib} `{K8sLib} `{WorkloadFilter}.

(** [IsOwnedBy] of an object with metadata [child].  An owner that is gone leaves an
    empty object, which has no owner. *)
Fixpoint isOwnedBy (depth : nat) (child : ObjectMeta) (parentUID : string) : M W bool :=
  match depth with
  | O => panic
  | S depth =>
      match GetControllerOf child with
      | None => ret false
      | Some owner =>
          if String.eqb (or_UID owner) parentUID then ret true else
          match GetEmptyWorkloadObject (FromAPIVersionAndKind (or_APIVersion owner) (or_Kind owner)) with
          | None => ret false
          | Some ownerGvk =>
              r <- catch (getObject ownerGvk (Namespace child, or_Name owner)) ;;
              match r with
              | inl ownerObj => isOwnedBy depth (objMeta ownerObj) parentUID
              | inr err => if IsNotFound err then ret false else fail err
              end
          end
      end
  end.

(** [GetOwnerWorkload] of a non-nil object, by its metadata, which is all that is read of
    it: the top of its chain of owners, or an owner that takes part in a rollout.  An
    owner that is gone leaves an empty object, which has no owner. *)
Fixpoint getOwnerWorkload (depth : nat) (object : ObjectMeta) : M W (option ObjectMeta) :=
  match depth with
  | O => panic
  | S depth =>
      match GetControllerOf object with
      | None => ret (Some object)
      | Some owner =>
          if nonempty (annotation object InRolloutProgressingAnnotation) then ret (Some object) else
          match GetEmptyWorkloadObject (FromAPIVersionAndKind (or_APIVersion owner) (or_Kind owner)) with
          | None => ret None
          | Some ownerGvk =>
              r <- catch (getObject ownerGvk (Namespace object, or_Name owner)) ;;
              match r with
              | inl ownerObj => getOwnerWorkload depth (objMeta ownerObj)
              | inr err => if IsNotFound err then getOwnerWorkload depth emptyMeta else fail err
              end
          end
      end
  end.

Definition IsOwnedBy `{StackDepth} (child : ObjectMeta) (parentUID : string) : M W bool :=
  isOwnedBy maxDepth child parentUID.
Definition GetOwnerWorkload `{StackDepth} (object : ObjectMeta) : M W (option ObjectMeta) :=
  getOwnerWorkload maxDepth object.

(** The pods of the list that the workload owns, those that ran to an end left out. *)
Fixpoint ownedPods `{StackDepth} (pods : list Pod) (uid : string) : M W (list Pod) :=
  match pods with
  | [] => ret []
  | pod :: rest =>
      if IsCompletedPod pod then ownedPods rest uid else
      owned <- IsOwnedBy (pod_Meta pod) uid ;;
      others <- ownedPods rest uid ;;
      ret (if owned : bool then pod :: others else others)
  end.

Definition ListOwnedPods `{StackDepth} `{Json LabelSelector} `{ListApi W Pod}
    (workload : WorkloadObject) : M W (list Pod) :=
  selector <- lift (getSelector workload) ;;
  pods <- api_List (Namespace (objMeta workload)) selector ;;
  ownedPods pods (UID (objMeta workload)).
End ownership.

(** ** Deployments and ReplicaSets (workloads_utils.go) *)

Definition FilterActiveDeployment (ds : list Deployment) : list Deployment :=
  filter (fun d => deleting (dep_Meta d) = false) ds.

Definition removeKeys (keys : list string) (m : option (gmap string string)) : gmap string string :=
  foldr delete (default ∅ m) keys.

(** [apiequality.Semantic.DeepEqual] takes a nil and an empty map for equal. *)
Definition EqualIgnoreSpecifyMetadata (template1 template2 : PodTemplateSpec)
    (ignoreLabels ignoreAnno : list string) : bool :=
  let ignoreLabels := (ignoreLabels ++ [DefaultDeploymentUniqueLabelKey])%list in
  bool_decide (removeKeys ignoreLabels (tmpl_Labels template1)
               = removeKeys ignoreLabels (tmpl_Labels template2))
  && bool_decide (removeKeys ignoreAnno (tmpl_Annotations template1)
                  = removeKeys ignoreAnno (tmpl_Annotations template2))
  && String.eqb (tmpl_Rest template1) (tmpl_Rest template2).

Definition EqualIgnoreHash (template1 template2 : PodTemplateSpec) : bool :=
  EqualIgnoreSpecifyMetadata template1 template2 [] [].

(** [int32] of both; a parse error of either is returned. *)
Definition resolveFenceposts `{K8sLib} (maxSurge maxUnavailable : option IntOrString) (desired : Z)
    : res (Z * Z) :=
  let scaled v up := GetScaledValueFromIntOrPercent (Some (default (FromInt 0) v)) desired up in
  match scaled maxSurge true with
  | (_, Some err) => Err err
  | (surge, None) =>
      match scaled maxUnavailable false with
      | (_, Some err) => Err err
      | (unavailable, None) =>
          if bool_decide (surge = 0) && bool_decide (unavailable = 0) then Ok (wrap32 surge, 1)
          else Ok (wrap32 surge, wrap32 unavailable)
      end
  end.

(** A parse error reads as zero; nil replicas or rolling-update parameters panic. *)
Definition DeploymentMaxUnavailable `{K8sLib} (d : Deployment) : res Z :=
  if negb (String.eqb (dep_StrategyType d) RollingUpdateDeploymentStrategyType) then Ok 0 else
  res_bind (deref (dep_Replicas d)) (fun replicas =>
  if decide (replicas = 0) then Ok 0 else
  res_bind (deref (dep_RollingUpdate d)) (fun ru =>
    let maxUnavailable := match resolveFenceposts (ru_MaxSurge ru) (ru_MaxUnavailable ru) replicas with
                          | Ok (_, n) => n | _ => 0 end in
    Ok (if decide (maxUnavailable > replicas) then replicas else maxUnavailable))).

(** [strconv.Atoi] *)
Class Strconv := Atoi : string -> option Z.

Definition olderReplicaSet `{Strconv} (a b : ReplicaSet) : bool :=
  let revision rs := Atoi (annotation (rs_Meta rs) DeploymentRevisionAnnotation) in
  let older := bool_decide (CreationTimestamp (rs_Meta a) < CreationTimestamp (rs_Meta b)) in
  match revision a, revision b with
  | Some r1, Some r2 => if decide (r1 = r2) then older else bool_decide (r1 < r2)
  | _, _ => older
  end.

(** The loop over the sorted ReplicaSets: the last one with the template, and the first
    active one without it.  Nil replicas panic when they are read. *)
Fixpoint findCanaryAndStable (rss : list ReplicaSet) (template : PodTemplateSpec)
    (newRS oldRS : option ReplicaSet) : res (option ReplicaSet * option ReplicaSet) :=
  match rss with
  | [] => Ok (newRS, oldRS)
  | rs :: rest =>
      if EqualIgnoreHash (rs_Template rs) template
      then findCanaryAndStable rest template (Some rs) oldRS
      else match oldRS with
           | Some _ => findCanaryAndStable rest template newRS oldRS
           | None =>
               res_bind (deref (rs_Replicas rs)) (fun replicas =>
                 findCanaryAndStable rest template newRS
                   (if decide (replicas > 0) then Some rs else None))
           end
  end.
Definition FindCanaryAndStableReplicaSet `{Strconv} `{SortLib} (rss : list ReplicaSet) (d : Deployment)
    : res (option ReplicaSet * option ReplicaSet) :=
  findCanaryAndStable (sortSlice olderReplicaSet rss) (dep_Template d) None None.

(** The strategy and extra status of an advanced Deployment, in its annotations; what
    cannot be read counts as empty. *)
Record DeploymentStrategy := mkDeploymentStrategy {
  dstr_RollingStyle : string;
  dstr_RollingUpdate : option RollingUpdateDeployment;
  dstr_Paused : bool;
  dstr_Partition : IntOrString
}.
#[export] Instance eta_DeploymentStrategy : Eta DeploymentStrategy := fun x =>
  mkDeploymentStrategy (dstr_RollingStyle x) (dstr_RollingUpdate x) (dstr_Paused x) (dstr_Partition x).

Record DeploymentExtraStatus := mkExtraStatus {
  dex_UpdatedReadyReplicas : Z;
  dex_ExpectedUpdatedReplicas : Z
}.

Definition readAnnotation {A} `{Json A} (m : ObjectMeta) (key : string) (zero : A) : A :=
  if String.eqb (annotation m key) "" then zero else default zero (Unmarshal (annotation m key)).

Definition GetDeploymentStrategy `{Json DeploymentStrategy} (d : Deployment) : DeploymentStrategy :=
  readAnnotation (dep_Meta d) DeploymentStrategyAnnotation
    (mkDeploymentStrategy "" None false (FromInt 0)).
Definition GetDeploymentExtraStatus `{Json DeploymentExtraStatus} (d : Deployment)
    : DeploymentExtraStatus :=
  readAnnotation (dep_Meta d) DeploymentExtraStatusAnnotation (mkExtraStatus 0 0).

(** ** Lemmas *)

Lemma WrappedPodCount_length pods f :
  WrappedPodCount pods f = len (filter (fun pod => f pod = true) pods).
Proof.
  unfold len. induction pods as [|pod pods IH]; [done|]. simpl. rewrite filter_cons.
  destruct (f pod); [rewrite decide_True by done|rewrite decide_False by done]; simpl; lia.
Qed.

(** ** Parsing does not depend on how an object is read *)

(** The tree of an object spells a number under its path, or leaves a zero out; and a
    string likewise. *)
Definition spellsInt `{UnstructuredLib} (o : Unstructured) (path : list string) (n : Z) : Prop :=
  NestedInt64 o path = Ok (Some n) \/ (n = 0 /\ NestedInt64 o path = Ok None).
Definition spellsString `{UnstructuredLib} (o : Unstructured) (path : list string) (s : string) : Prop :=
  NestedString o path = Ok (Some s) \/ (s = ""%string /\ NestedString o path = Ok None).

(** The tree spells the status under the names of the API. *)
Definition spellsStatus `{UnstructuredLib} (o : Unstructured) (s : WorkloadStatus) : Prop :=
  let int field n := spellsInt o ["status"%string; field] n in
  int "replicas"%string (ws_Replicas s) /\ int "readyReplicas"%string (ws_ReadyReplicas s)
  /\ int "updatedReplicas"%string (ws_UpdatedReplicas s)
  /\ int "updatedReadyReplicas"%string (ws_UpdatedReadyReplicas s)
  /\ int "availableReplicas"%string (ws_AvailableReplicas s)
  /\ int "observedGeneration"%string (ws_ObservedGeneration s)
  /\ spellsString o ["status"; "updateRevision"]%string (ws_UpdateRevision s)
  /\ spellsString o ["status"; "currentRevision"]%string (ws_StableRevision s).

(** What a CloneSet or a StatefulSet says of itself, by the names of the API. *)
Definition describesSts {R} (o : StatefulSetOf R) (m : ObjectMeta) (replicas : Z) (s : WorkloadStatus) : Prop :=
  m = sts_Meta o /\ sts_Replicas o = Some replicas /\ ws_UpdatedReadyReplicas s = 0
  /\ sts_Status o = mkStsStatus (ws_Replicas s) (ws_ReadyReplicas s) (ws_AvailableReplicas s)
       (ws_UpdatedReplicas s) (ws_ObservedGeneration s) (ws_UpdateRevision s) (ws_StableRevision s).
Definition describes (object : WorkloadObject) (m : ObjectMeta) (replicas : Z) (s : WorkloadStatus) : Prop :=
  match object with
  | OCloneSet o =>
      m = clone_Meta o /\ clone_Replicas o = Some replicas
      /\ clone_Status o = mkCloneSetStatus (ws_Replicas s) (ws_ReadyReplicas s) (ws_AvailableReplicas s)
           (ws_UpdatedReplicas s) (ws_UpdatedReadyReplicas s) (ws_ObservedGeneration s)
           (ws_UpdateRevision s) (ws_StableRevision s)
  | OStatefulSet o => describesSts o m replicas s
  | OKruiseStatefulSet o => describesSts o m replicas s
  | _ => False
  end.

Section parse_properties.
Context `{UnstructuredLib} `{TemplateHash} `{Json DaemonSetRevisionInfo} `{Json ObjectMeta}.

Lemma parseStatusInt_spelled o field n :
  spellsInt o ["status"%string; field] n -> parseStatusIntFromUnstructured o field = n.
Proof. unfold spellsInt, parseStatusIntFromUnstructured. by intros [->|[-> ->]]. Qed.

Lemma parseStatusString_spelled o field s :
  spellsString o ["status"%string; field] s -> parseStatusStringFromUnstructured o field = s.
Proof. unfold spellsString, parseStatusStringFromUnstructured. by intros [->|[-> ->]]. Qed.

(** A CloneSet or a StatefulSet, and a tree of a kind the controllers do not know that
    spells the same metadata, replicas and status, have the same summary. *)
Theorem ParseWorkload_agnostic (object : WorkloadObject) (tree : Unstructured) (m : ObjectMeta)
    (replicas : Z) (s : WorkloadStatus) :
  describes object m replicas s -> spellsStatus tree s ->
  NestedInt64 tree ["spec"; "replicas"]%string = Ok (Some replicas) ->
  parseMetadataFromUnstructured tree = Some m ->
  Forall in32 [replicas; ws_Replicas s; ws_ReadyReplicas s; ws_UpdatedReplicas s;
               ws_UpdatedReadyReplicas s; ws_AvailableReplicas s] ->
  ParseWorkload object = Ok (mkWI m replicas s)
  /\ ParseWorkload (OUnstructured tree) = ParseWorkload object.
Proof.
  intros Hobj (Hr & Hrd & Hu & Hur & Ha & Hg & Hup & Hst) Hrep Hm Hin.
  rewrite !Forall_cons in Hin. destruct_and?.
  assert (Htree : ParseWorkload (OUnstructured tree) = Ok (mkWI m replicas s)).
  { unfold ParseWorkload. simpl. rewrite Hm. simpl. unfold parseReplicasFromUnstructured. rewrite Hrep.
    rewrite !(parseStatusInt_spelled tree _ _ Hr), !(parseStatusInt_spelled tree _ _ Hrd),
      !(parseStatusInt_spelled tree _ _ Hu), !(parseStatusInt_spelled tree _ _ Hur),
      !(parseStatusInt_spelled tree _ _ Ha), !(parseStatusInt_spelled tree _ _ Hg),
      !(parseStatusString_spelled tree _ _ Hup), !(parseStatusString_spelled tree _ _ Hst).
    rewrite !wrap32_id by done. by destruct s. }
  rewrite Htree. assert (Hobject : ParseWorkload object = Ok (mkWI m replicas s)); [|by rewrite Hobject].
  clear Htree. destruct s, object as [o|o|o|o|o|o|o|o]; simpl in Hobj; try done;
    destruct Hobj as (-> & Erep & Hobj); destruct_and?; unfold ParseWorkload; simpl; rewrite Erep; simpl;
    unfold parseStatefulSetStatus; simpl in *;
    match goal with E : _ = mkStsStatus _ _ _ _ _ _ _ |- _ => rewrite E | E : _ = mkCloneSetStatus _ _ _ _ _ _ _ _ |- _ => rewrite E end;
    simpl; by subst.
Qed.
End parse_properties.

(** ** The search for an owner ends *)

(** Reads leave the world as it is and do not panic. *)
Class ReaderLaws (W : Type) `{ObjectReader W} :=
  getObject_reads : forall gvk key (w : W), exists r, getObject gvk key w = (r, w) /\ r <> Panic.

Section ownership_properties.
Context {W : Type} `{ReaderLaws W} `{UnstructuredLib} `{MetaLib} `{K8sLib} `{WorkloadFilter}.
Variables (w : W) (uid : string).

Definition directlyOwned (child : ObjectMeta) : Prop :=
  exists owner, GetControllerOf child = Some owner /\ or_UID owner = uid.

(** The controlling owner of an object, as it is stored. *)
Inductive ownerOf : ObjectMeta -> ObjectMeta -> Prop :=
  | owner_found child owner gvk obj :
      GetControllerOf child = Some owner ->
      GetEmptyWorkloadObject (FromAPIVersionAndKind (or_APIVersion owner) (or_Kind owner)) = Some gvk ->
      fst (getObject gvk (Namespace child, or_Name owner) w) = Ok obj ->
      ownerOf (objMeta obj) child.

Inductive ownedBy : ObjectMeta -> Prop :=
  | owned_directly child : directlyOwned child -> ownedBy child
  | owned_indirectly parent child : ownerOf parent child -> ownedBy parent -> ownedBy child.

(** One call of the recursion. *)
Lemma isOwnedBy_step depth child :
  (exists r, isOwnedBy (W := W) (S depth) child uid w = (r, w) /\ r <> Panic
     /\ (forall d, isOwnedBy (S d) child uid w = (r, w)) /\ (r = Ok true <-> ownedBy child)
     /\ forall parent, ~ directlyOwned child -> ~ ownerOf parent child)
  \/ (exists parent, ~ directlyOwned child /\ ownerOf parent child
        /\ (forall p, ownerOf p child -> p = parent)
        /\ forall d, isOwnedBy (S d) child uid w = isOwnedBy d parent uid w).
Proof.
  simpl. destruct (GetControllerOf child) as [owner|] eqn:Eo.
  2: { left. eexists. split; [reflexivity|]. split; [done|]. split; [done|]. split.
       - split; [done|]. intros Ho. exfalso. destruct Ho as [? (o & Eo' & _)|? ? Ho _]; [congruence|].
         destruct Ho; congruence.
       - intros parent _ Ho. destruct Ho; congruence. }
  destruct (String.eqb_spec (or_UID owner) uid) as [Eu|Nu].
  { left. eexists. split; [reflexivity|]. split; [done|]. split; [done|].
    assert (Hd : directlyOwned child) by (by exists owner).
    split; [split; [intros _; by constructor|done]|]. by intros. }
  assert (Hnd : ~ directlyOwned child) by (intros (o & Eo' & Eu); congruence).
  assert (Hown : ownedBy child -> exists parent, ownerOf parent child).
  { intros Ho. destruct Ho as [? Hd|]; [by destruct Hnd|]. by eexists. }
  destruct (GetEmptyWorkloadObject _) as [gvk|] eqn:Eg.
  2: { left. eexists. split; [reflexivity|]. split; [done|]. split; [done|].
       assert (Hno : forall parent, ~ ownerOf parent child) by (intros parent Ho; destruct Ho; congruence).
       split; [|by intros]. split; [done|]. intros Ho. destruct (Hown Ho) as [p Hp]. by destruct (Hno p). }
  unfold bind, catch. destruct (getObject_reads gvk (Namespace child, or_Name owner) w) as (r & Er & Hr).
  rewrite Er. destruct r as [obj|err|]; [| |done].
  - right. exists (objMeta obj). split; [done|]. split; [|split].
    + apply (owner_found _ owner gvk); [done..|]. by rewrite Er.
    + intros p Hp. destruct Hp as [c o g ob E1 E2 E3]. simplify_eq. rewrite Er in E3. simpl in E3. by simplify_eq.
    + done.
  - assert (Hno : forall parent, ~ ownerOf parent child).
    { intros parent Ho. destruct Ho as [c o g ob E1 E2 E3]. simplify_eq. by rewrite Er in E3. }
    left. eexists (if IsNotFound err then Ok false else Err err).
    destruct (IsNotFound err); (split; [reflexivity|]; split; [done|]; split; [done|];
      split; [|by intros]; split; [done|]; intros Ho; destruct (Hown Ho) as [p Hp]; by destruct (Hno p)).
Qed.

(** C33. The search for an owner ends.  Where the chain of controlling owners of an object
    is finite, [IsOwnedBy] answers, however deep the chain, as soon as the stack is as
    deep; the answer is the same for every deeper stack, it leaves the world alone, and
    it is yes exactly when the workload is on the chain.  On a chain that does not end
    (a cycle of owners) and does not meet the workload it exhausts every stack. *)
Theorem IsOwnedBy_terminates :
  (forall child, Acc ownerOf child ->
     exists n r, (forall depth, (n <= depth)%nat -> isOwnedBy depth child uid w = (r, w))
       /\ r <> Panic /\ (r = Ok true <-> ownedBy child))
  /\ (forall (C : ObjectMeta -> Prop),
        (forall child, C child -> ~ directlyOwned child /\ exists parent, C parent /\ ownerOf parent child) ->
        forall depth child, C child -> isOwnedBy depth child uid w = (Panic, w)).
Proof.
  split.
  - induction 1 as [child _ IH].
    destruct (isOwnedBy_step 0 child) as [(r & _ & Hr & Hrun & Hown & _)|(parent & Hnd & Hp & Huniq & Hrun)].
    + exists 1%nat, r. split; [|done]. intros [|d] Hd; [lia|]. apply Hrun.
    + destruct (IH parent Hp) as (n & r & Hd & Hr & Hown). exists (S n), r.
      split; [intros [|d] Hle; [lia|]; rewrite Hrun; apply Hd; lia|]. split; [done|].
      rewrite Hown. split; [by apply owned_indirectly|].
      intros Ho. destruct Ho as [? Hdir|p ? Hp' Ho]; [by destruct Hnd|]. by rewrite <- (Huniq p Hp').
  - intros C HC depth. induction depth as [|d IH]; intros child Hc; [done|].
    destruct (HC child Hc) as (Hnd & parent & Hcp & Hp).
    destruct (isOwnedBy_step 0 child) as [(r & _ & _ & _ & _ & Hno)|(parent' & _ & _ & Huniq & Hrun)].
    + by destruct (Hno parent Hnd).
    + rewrite Hrun, <- (Huniq parent Hp). by apply IH.
Qed.
End ownership_properties.
