(* ===== verification/GatewayProvider.v ===== *)
(** * The Gateway API provider (pkg/trafficrouting/network/gateway/gateway.go)

    The rules of an HTTPRoute with a share for the canary Service, by weight or by
    matches, and without it again. *)

From S2P Require Export TrafficManager RolloutUtil.

(** ** The HTTPRoute *)

(** What the code does not look at (group, namespace, port, filters) is in [hbr_Rest]. *)
Record HTTPBackendRef := mkBackendRef {
  hbr_Kind : option string;
  hbr_Name : string;
  hbr_Weight : option Z;
  hbr_Rest : string
}.
#[export] Instance eta_HTTPBackendRef : Eta HTTPBackendRef := fun x =>
  mkBackendRef (hbr_Kind x) (hbr_Name x) (hbr_Weight x) (hbr_Rest x).
#[export] Instance HTTPBackendRef_eq_dec : EqDecision HTTPBackendRef.
Proof. solve_decision. Defined.

Record HTTPRouteMatch := mkHTTPRouteMatch {
  hrm_Path : option HTTPMatch;
  hrm_Headers : list HTTPMatch;
  hrm_QueryParams : list HTTPMatch;
  hrm_Method : option string
}.
#[export] Instance HTTPRouteMatch_eq_dec : EqDecision HTTPRouteMatch.
Proof. solve_decision. Defined.

(** Filters and timeouts are in [hrr_Rest]. *)
Record HTTPRouteRule := mkHTTPRouteRule {
  hrr_Matches : list HTTPRouteMatch;
  hrr_BackendRefs : list HTTPBackendRef;
  hrr_Rest : string
}.
#[export] Instance eta_HTTPRouteRule : Eta HTTPRouteRule := fun x =>
  mkHTTPRouteRule (hrr_Matches x) (hrr_BackendRefs x) (hrr_Rest x).
#[export] Instance HTTPRouteRule_eq_dec : EqDecision HTTPRouteRule.
Proof. solve_decision. Defined.

Record HTTPRoute := mkHTTPRoute {
  hr_Meta : ObjectMeta;
  hr_Rules : list HTTPRouteRule
}.
#[export] Instance eta_HTTPRoute : Eta HTTPRoute := fun x => mkHTTPRoute (hr_Meta x) (hr_Rules x).
#[export] Instance HTTPRoute_object : KubeObject HTTPRoute :=
  {| metaOf := hr_Meta; withMeta m r := r <| hr_Meta := m |> |}.

(** ** Backend references *)

Definition isService (serviceName : string) (ref : HTTPBackendRef) : Prop :=
  hbr_Kind ref = Some "Service"%string /\ hbr_Name ref = serviceName.
#[export] Instance isService_dec serviceName ref : Decision (isService serviceName ref).
Proof. unfold isService. apply _. Defined.

(** The first one and its index. *)
Definition getServiceBackendRef (rule : HTTPRouteRule) (serviceName : string) : option (nat * HTTPBackendRef) :=
  list_find (isService serviceName) (hrr_BackendRefs rule).

(** Written over the first reference to the same Service, or appended. *)
Definition setServiceBackendRef (rule : HTTPRouteRule) (ref : HTTPBackendRef) : HTTPRouteRule :=
  if decide (hbr_Kind ref = Some "Service"%string) then
    match getServiceBackendRef rule (hbr_Name ref) with
    | None => rule <| hrr_BackendRefs := (hrr_BackendRefs rule ++ [ref])%list |>
    | Some (index, _) => rule <| hrr_BackendRefs := <[index := ref]> (hrr_BackendRefs rule) |>
    end
  else rule.

Definition filterOutServiceBackendRef (rule : HTTPRouteRule) (serviceName : string) : HTTPRouteRule :=
  match getServiceBackendRef rule serviceName with
  | None => rule
  | Some (index, _) => rule <| hrr_BackendRefs := delete index (hrr_BackendRefs rule) |>
  end.

(** ** The desired rules *)

Definition generateCanaryWeight (canaryPercent : Z) : Z * Z := (wrap32 (100 - canaryPercent), canaryPercent).

Definition FilterHttpRouteMatch (s : list HttpRouteMatch) (f : HttpRouteMatch -> bool) : list HttpRouteMatch :=
  filter (fun m => f m = true) s.
Definition isPathMatch (m : HttpRouteMatch) : bool := match Path m with Some _ => true | None => false end.

(** [r.conf.CanaryService] and [r.conf.StableService] *)
Section rules.
Variable canaryService stableService : string.

Definition weightRule (weight : option Z) (rule : HTTPRouteRule) : res HTTPRouteRule :=
  match getServiceBackendRef rule stableService with
  | None => Ok rule
  | Some (_, stableRef) =>
      let canaryRef := match getServiceBackendRef rule canaryService with
                       | Some (_, ref) => ref
                       | None => stableRef <| hbr_Name := canaryService |>
                       end in
      res_map (fun w =>
        let '(stableWeight, canaryWeight) := generateCanaryWeight w in
        setServiceBackendRef (setServiceBackendRef rule (stableRef <| hbr_Weight := Some stableWeight |>))
          (canaryRef <| hbr_Weight := Some canaryWeight |>)) (deref weight)
  end.
Fixpoint buildCanaryWeightHttpRoutes (rules : list HTTPRouteRule) (weight : option Z) : res (list HTTPRouteRule) :=
  match rules with
  | [] => Ok []
  | rule :: rest =>
      res_bind (weightRule weight rule) (fun rule =>
      res_map (cons rule) (buildCanaryWeightHttpRoutes rest weight))
  end.

(** Headers and parameters are added by the position among all matches. *)
Definition extendMatch (matches : list HttpRouteMatch) (base : HTTPRouteMatch) (k : nat) : HTTPRouteMatch :=
  match matches !! k with
  | Some m => mkHTTPRouteMatch (hrm_Path base) (hrm_Headers base ++ Headers m)
                (hrm_QueryParams base ++ QueryParams m) (hrm_Method base)
  | None => base
  end.

(** The rule for the canary made from a stable one; nothing without matches to set. *)
Definition canaryRuleOf (matches pathMatches nonPathMatches : list HttpRouteMatch) (rule : HTTPRouteRule)
    (stableRef : HTTPBackendRef) : option HTTPRouteRule :=
  let newMatches := map (fun m => mkHTTPRouteMatch (Path m) (Headers m) (QueryParams m) None) pathMatches in
  if bool_decide (nonPathMatches = []) && bool_decide (newMatches = []) then None else
  let extended := mjoin (map (fun base => map (extendMatch matches base) (seq 0 (length nonPathMatches)))
                           (hrr_Matches rule)) in
  Some (rule <| hrr_BackendRefs := [stableRef <| hbr_Name := canaryService |>] |>
          <| hrr_Matches := (newMatches ++ extended)%list |>).

(** The rules to keep and the ones for the canary; the path matches go to the first rule
    that refers to the stable Service. *)
Fixpoint headerRules (matches nonPathMatches pathMatches : list HttpRouteMatch) (rules : list HTTPRouteRule)
    : list HTTPRouteRule * list HTTPRouteRule :=
  match rules with
  | [] => ([], [])
  | rule :: rest =>
      match getServiceBackendRef rule canaryService with
      | Some _ => headerRules matches nonPathMatches pathMatches rest
      | None =>
          match getServiceBackendRef rule stableService with
          | None =>
              let '(desired, canaries) := headerRules matches nonPathMatches pathMatches rest in
              (rule :: desired, canaries)
          | Some (_, stableRef) =>
              let '(desired, canaries) := headerRules matches nonPathMatches [] rest in
              (rule :: desired,
               option_list (canaryRuleOf matches pathMatches nonPathMatches rule stableRef) ++ canaries)%list
          end
      end
  end.
Definition buildCanaryHeaderHttpRoutes (rules : list HTTPRouteRule) (matches : list HttpRouteMatch)
    : list HTTPRouteRule :=
  let '(desired, canaries) :=
    headerRules matches (FilterHttpRouteMatch matches (fun m => negb (isPathMatch m)))
      (FilterHttpRouteMatch matches isPathMatch) rules in
  (desired ++ canaries)%list.

(** One rule without the canary Service; a rule without backends is dropped. *)
Definition restoreRule (rule : HTTPRouteRule) : option HTTPRouteRule :=
  let rule := filterOutServiceBackendRef rule canaryService in
  let rule := match getServiceBackendRef rule stableService with
              | Some (_, stableRef) => setServiceBackendRef rule (stableRef <| hbr_Weight := Some 1 |>)
              | None => rule
              end in
  if decide (hrr_BackendRefs rule = []) then None else Some rule.

Definition buildDesiredHTTPRoute (rules : list HTTPRouteRule) (weight : option Z) (matches : list HttpRouteMatch)
    : res (list HTTPRouteRule) :=
  if decide (weight = Some (-1)) then Ok (omap restoreRule rules)
  else match matches with
       | _ :: _ => Ok (buildCanaryHeaderHttpRoutes rules matches)
       | [] => buildCanaryWeightHttpRoutes rules weight
       end.
End rules.

(** ** The provider *)

(** An answer whose error is its second value, beside [false]. *)
Definition answering {W} (m : M W bool) : M W (bool * option goerror) :=
  r <- catch m ;;
  ret (match r with inl b => (b, None) | inr err => (false, Some err) end).

(** [strategy.Traffic] as a weight; an error of the library is dropped. *)
Definition trafficWeight `{K8sLib} (strategy : TrafficRoutingStrategy) : option Z :=
  (fun t => wrap32 (fst (GetScaledValueFromIntOrPercent (Some (FromString t)) 100 true))) <$> Traffic strategy.

Section gateway.
Context {W : Type} `{Api W HTTPRoute} `{Retry W} `{K8sLib}.
Variable conf : ProviderConfig.
Variable TrafficConf : GatewayTrafficRouting.

Definition routeKey : M W ObjectKey :=
  name <- lift (deref (HTTPRouteName TrafficConf)) ;; ret (pc_Namespace conf, name).

Definition gateway_Initialize : M W unit :=
  key <- routeKey ;; api_Get (O := HTTPRoute) key ;; ret tt.

(** Written over the rules of the route as it is by then. *)
Definition updateRules (httpRoute : HTTPRoute) (desiredRule : list HTTPRouteRule) : M W unit :=
  RetryOnConflict (
    routeClone <- api_Get (O := HTTPRoute) (keyOf (hr_Meta httpRoute)) ;;
    api_Update (routeClone <| hr_Rules := desiredRule |>)).

Definition gateway_EnsureRoutes (strategy : TrafficRoutingStrategy) : M W (bool * option goerror) :=
  answering (
    key <- routeKey ;;
    httpRoute <- api_Get (O := HTTPRoute) key ;;
    desiredRule <- lift (buildDesiredHTTPRoute (pc_CanaryService conf) (pc_StableService conf)
                           (hr_Rules httpRoute) (trafficWeight strategy) (Matches strategy)) ;;
    if decide (hr_Rules httpRoute = desiredRule) then ret true else
    updateRules httpRoute desiredRule ;; ret false).

Definition gateway_Finalise : M W (bool * option goerror) :=
  answering (
    key <- routeKey ;;
    r <- catch (api_Get (O := HTTPRoute) key) ;;
    match r with
    | inr err => if IsNotFound err then ret false else fail err
    | inl httpRoute =>
        desiredRule <- lift (buildDesiredHTTPRoute (pc_CanaryService conf) (pc_StableService conf)
                               (hr_Rules httpRoute) (Some (-1)) []) ;;
        if decide (hr_Rules httpRoute = desiredRule) then ret false else
        updateRules httpRoute desiredRule ;; ret true
    end).

Definition gatewayController : NetworkProvider W :=
  mkProvider gateway_Initialize gateway_EnsureRoutes gateway_Finalise.
End gateway.
