(* ===== verification/GatewayProofs.v ===== *)
(** * What the Gateway provider writes

    The shares of the two Services, that writing them once is enough, and that removing
    the canary Service undoes them. *)

From S2P Require Export GatewayProvider.

(** ** Finding and writing references *)

Lemma list_find_irrelevant {A} (P : A -> Prop) `{forall x, Decision (P x)} (l : list A) i x y :
  l !! i = Some y -> ~ P y -> ~ P x -> list_find P (<[i := x]> l) = list_find P l.
Proof.
  revert i. induction l as [|z l IH]; intros i Hy Hny Hnx; [done|].
  destruct i as [|i]; simpl in *; simplify_eq.
  - by rewrite !decide_False.
  - case_decide; [done|]. by rewrite (IH i).
Qed.

Lemma list_find_written {A} (P : A -> Prop) `{forall x, Decision (P x)} (l : list A) i x y :
  list_find P l = Some (i, y) -> P x -> list_find P (<[i := x]> l) = Some (i, x).
Proof.
  intros (Hi & Hp & Hbefore)%list_find_Some Hx. apply list_find_Some.
  split; [by apply list_lookup_insert_eq, lookup_lt_is_Some; eauto|]. split; [done|].
  intros j z Hj Hlt. rewrite list_lookup_insert_ne in Hj by lia. by eapply Hbefore.
Qed.

Lemma list_find_appended {A} (P : A -> Prop) `{forall x, Decision (P x)} (l : list A) x :
  list_find P (l ++ [x])
  = match list_find P l with
    | Some r => Some r
    | None => if decide (P x) then Some (length l, x) else None
    end.
Proof.
  induction l as [|z l IH]; simpl; [by destruct (decide (P x))|]. destruct (decide (P z)); [done|]. rewrite IH.
  destruct (list_find P l) as [[]|]; [done|]. simpl. by destruct (decide (P x)).
Qed.

Lemma get_isService rule n i ref : getServiceBackendRef rule n = Some (i, ref) -> isService n ref.
Proof. by intros (_ & Hp & _)%list_find_Some. Qed.

Lemma get_lookup rule n i ref :
  getServiceBackendRef rule n = Some (i, ref) -> hrr_BackendRefs rule !! i = Some ref.
Proof. by intros (Hi & _)%list_find_Some. Qed.

(** After a reference is written it is the first one to its Service, and no other
    Service's is touched. *)
Lemma get_set rule ref n :
  hbr_Kind ref = Some "Service"%string ->
  snd <$> getServiceBackendRef (setServiceBackendRef rule ref) n
  = if decide (n = hbr_Name ref) then Some ref else snd <$> getServiceBackendRef rule n.
Proof.
  intros Hkind. unfold setServiceBackendRef. rewrite decide_True by done.
  assert (Hn : n <> hbr_Name ref -> ~ isService n ref) by (intros ? [? ?]; congruence).
  destruct (getServiceBackendRef rule (hbr_Name ref)) as [[i old]|] eqn:E.
  - pose proof (get_lookup _ _ _ _ E) as Hi. apply get_isService in E as Hold. destruct Hold as [? Hname].
    unfold getServiceBackendRef in *. simpl. destruct (decide (n = hbr_Name ref)) as [->|Hd].
    + by erewrite list_find_written.
    + erewrite list_find_irrelevant; [done|done| |by apply Hn].
      intros [? ?]. congruence.
  - unfold getServiceBackendRef in *. simpl. rewrite list_find_appended. destruct (decide (n = hbr_Name ref)) as [->|Hd].
    + rewrite E. by rewrite decide_True.
    + rewrite (decide_False (P := isService n ref)) by auto. by destruct (list_find (isService n) (hrr_BackendRefs rule)).
Qed.

Lemma set_get_id rule n i ref :
  getServiceBackendRef rule n = Some (i, ref) -> setServiceBackendRef rule ref = rule.
Proof.
  intros E. pose proof (get_isService _ _ _ _ E) as [Hkind Hname]. unfold setServiceBackendRef.
  rewrite decide_True, Hname, E by done. destruct rule as [ms refs rest]. simpl.
  f_equal. apply list_insert_id. by apply (get_lookup (mkHTTPRouteRule ms refs rest) n).
Qed.

Lemma filter_insert_irrelevant {A} (P : A -> Prop) `{forall x, Decision (P x)} (l : list A) i x y :
  l !! i = Some y -> ~ P y -> ~ P x -> filter P (<[i := x]> l) = filter P l.
Proof.
  revert i. induction l as [|z l IH]; intros i Hy Hny Hnx; [done|].
  destruct i as [|i]; simpl in *; simplify_eq; rewrite !filter_cons.
  - by rewrite !decide_False.
  - by rewrite (IH i).
Qed.

#[export] Instance Ok_inj {A} : Inj (=) (=) (@Ok A).
Proof. by intros ?? [= ->]. Qed.

Lemma omap_step {A B} (f : A -> option B) x l :
  omap f (x :: l) = match f x with Some y => y :: omap f l | None => omap f l end.
Proof. done. Qed.

Section rules.
Variable canaryService stableService : string.
Abbreviation weight_of := (weightRule canaryService stableService).
Abbreviation restore := (restoreRule canaryService stableService).
Abbreviation build := (buildDesiredHTTPRoute canaryService stableService).

(** References to other backends. *)
Definition elsewhereRefs (rule : HTTPRouteRule) : list HTTPBackendRef :=
  filter (fun ref => ~ isService canaryService ref /\ ~ isService stableService ref) (hrr_BackendRefs rule).

Definition sameElsewhere (rule rule' : HTTPRouteRule) : Prop :=
  hrr_Matches rule' = hrr_Matches rule /\ hrr_Rest rule' = hrr_Rest rule
  /\ elsewhereRefs rule' = elsewhereRefs rule.

Lemma set_elsewhere rule ref :
  hbr_Kind ref = Some "Service"%string -> hbr_Name ref = canaryService \/ hbr_Name ref = stableService ->
  sameElsewhere rule (setServiceBackendRef rule ref).
Proof.
  intros Hkind Hname. unfold setServiceBackendRef. rewrite decide_True by done.
  assert (~ (~ isService canaryService ref /\ ~ isService stableService ref)) as Href
    by (unfold isService; naive_solver).
  destruct (getServiceBackendRef rule (hbr_Name ref)) as [[i old]|] eqn:E; (split; [done|]); (split; [done|]);
    unfold elsewhereRefs; simpl.
  - pose proof (get_lookup _ _ _ _ E). apply get_isService in E. eapply filter_insert_irrelevant; [done| |done].
    destruct Hname as [<-|<-]; tauto.
  - rewrite filter_app, filter_cons_False, filter_nil by done. apply app_nil_r.
Qed.

Lemma sameElsewhere_trans r1 r2 r3 : sameElsewhere r1 r2 -> sameElsewhere r2 r3 -> sameElsewhere r1 r3.
Proof. unfold sameElsewhere. naive_solver congruence. Qed.

(** The shares of a rule. *)
Definition sharedRule (w : Z) (rule rule' : HTTPRouteRule) : Prop :=
  sameElsewhere rule rule'
  /\ match snd <$> getServiceBackendRef rule stableService with
     | None => rule' = rule
     | Some stableRef =>
         snd <$> getServiceBackendRef rule' stableService
           = Some (stableRef <| hbr_Weight := Some (100 - w) |>)
         /\ option_map hbr_Weight (snd <$> getServiceBackendRef rule' canaryService) = Some (Some w)
     end.

Lemma weightRule_split w rule rule' :
  0 <= w <= 100 -> canaryService <> stableService -> weight_of (Some w) rule = Ok rule' -> sharedRule w rule rule'.
Proof.
  intros Hw Hne. unfold weightRule, sharedRule.
  destruct (getServiceBackendRef rule stableService) as [[i stableRef]|] eqn:Es; [|by intros [= <-]].
  pose proof (get_isService _ _ _ _ Es) as [Hkind Hname].
  set (canaryRef := match getServiceBackendRef rule canaryService with Some (_, ref) => ref | None => _ end).
  assert (hbr_Kind canaryRef = Some "Service"%string /\ hbr_Name canaryRef = canaryService) as [Hck Hcn].
  { subst canaryRef. destruct (getServiceBackendRef rule canaryService) as [[j ref]|] eqn:Ec; [|done].
    by apply get_isService in Ec. }
  clearbody canaryRef. simpl. intros [= <-]. rewrite wrap32_id by (unfold in32; lia).
  split; [eapply sameElsewhere_trans; apply set_elsewhere; auto|].
  rewrite !get_set by done. simpl. rewrite Hcn, Hname.
  rewrite decide_False by done. by rewrite !decide_True.
Qed.

Lemma set_found_id rule n ref : snd <$> getServiceBackendRef rule n = Some ref -> setServiceBackendRef rule ref = rule.
Proof. intros ([i r] & E & ->)%fmap_Some. by eapply set_get_id. Qed.

Lemma weight_id (ref : HTTPBackendRef) w : hbr_Weight ref = w -> ref <| hbr_Weight := w |> = ref.
Proof. destruct ref. simpl. by intros <-. Qed.

(** Written rules are already as they should be. *)
Lemma weightRule_converges weight rule rule' :
  canaryService <> stableService -> (forall w, weight = Some w -> 0 <= w <= 100) ->
  weight_of weight rule = Ok rule' -> weight_of weight rule' = Ok rule'.
Proof.
  intros Hne Hw Hrule. destruct weight as [w|].
  2: { unfold weightRule in *. destruct (getServiceBackendRef rule stableService) as [[]|] eqn:E;
         simplify_eq/=. by rewrite E. }
  specialize (Hw w eq_refl). pose proof (weightRule_split w rule rule' Hw Hne Hrule) as [_ Hsplit].
  destruct (getServiceBackendRef rule stableService) as [[i stableRef]|] eqn:Es; simpl in Hsplit.
  2: { by subst rule'. }
  destruct Hsplit as [Hs Hc]. unfold weightRule at 1.
  apply fmap_Some in Hs as ([k s] & Hs & Hsk). simpl in Hsk. rewrite Hs.
  destruct (getServiceBackendRef rule' canaryService) as [[j c]|] eqn:Ec; simpl in Hc; [|done].
  injection Hc as Hc. cbv [res_map res_bind deref generateCanaryWeight]. rewrite wrap32_id by (unfold in32; lia).
  rewrite (weight_id s) by (by rewrite <- Hsk). rewrite (weight_id c) by done.
  rewrite (set_get_id _ _ _ _ Hs). by rewrite (set_get_id _ _ _ _ Ec).
Qed.

Lemma set_refs rule ref i old :
  hbr_Kind ref = Some "Service"%string -> getServiceBackendRef rule (hbr_Name ref) = Some (i, old) ->
  setServiceBackendRef rule ref = rule <| hrr_BackendRefs := <[i := ref]> (hrr_BackendRefs rule) |>.
Proof. intros Hk E. unfold setServiceBackendRef. by rewrite decide_True, E. Qed.

Lemma set_append rule ref :
  hbr_Kind ref = Some "Service"%string -> getServiceBackendRef rule (hbr_Name ref) = None ->
  setServiceBackendRef rule ref = rule <| hrr_BackendRefs := (hrr_BackendRefs rule ++ [ref])%list |>.
Proof. intros Hk E. unfold setServiceBackendRef. by rewrite decide_True, E. Qed.

(** A rule without canary: its stable reference is written, the canary's appended. *)
Lemma weightRule_refs w rule rule' i stableRef :
  getServiceBackendRef rule stableService = Some (i, stableRef) ->
  getServiceBackendRef rule canaryService = None -> canaryService <> stableService ->
  weight_of (Some w) rule = Ok rule' ->
  exists s c, isService stableService s /\ isService canaryService c
    /\ (forall v, s <| hbr_Weight := v |> = stableRef <| hbr_Weight := v |>)
    /\ rule' = rule <| hrr_BackendRefs := (<[i := s]> (hrr_BackendRefs rule) ++ [c])%list |>.
Proof.
  intros Es Hno Hne. pose proof (get_isService _ _ _ _ Es) as [Hkind Hname].
  unfold weightRule. rewrite Es, Hno. cbv [res_map res_bind deref generateCanaryWeight]. intros <-%(inj Ok).
  exists (stableRef <| hbr_Weight := Some (wrap32 (100 - w)) |>),
    ((stableRef <| hbr_Name := canaryService |>) <| hbr_Weight := Some w |>).
  split; [done|]. split; [done|]. split; [done|].
  rewrite (set_refs rule (stableRef <| hbr_Weight := Some (wrap32 (100 - w)) |>) i stableRef)
    by (done || (simpl; by rewrite Hname)).
  rewrite set_append; [done|done|]. simpl. unfold getServiceBackendRef in *. simpl.
  erewrite list_find_irrelevant; [done|by apply list_find_Some in Es as []| |];
    unfold isService; simpl; naive_solver congruence.
Qed.

(** Without the canary Service, what was written for it is undone. *)
Lemma weightRule_restores weight rule rule' :
  getServiceBackendRef rule canaryService = None -> canaryService <> stableService ->
  weight_of weight rule = Ok rule' -> restore rule' = restore rule.
Proof.
  intros Hno Hne Hrule. destruct (getServiceBackendRef rule stableService) as [[i stableRef]|] eqn:Es.
  2: { unfold weightRule in Hrule. rewrite Es in Hrule. by simplify_eq. }
  destruct weight as [w|].
  2: { unfold weightRule in Hrule. by rewrite Es in Hrule. }
  destruct (weightRule_refs w rule rule' i stableRef Es Hno Hne Hrule) as (s & c & Hs & Hc & Heta & ->).
  set (refs := <[i := s]> (hrr_BackendRefs rule)).
  assert (list_find (isService stableService) refs = Some (i, s)) as Hfind by (by eapply list_find_written).
  assert (list_find (isService canaryService) refs = None) as Hnone.
  { subst refs. erewrite list_find_irrelevant; [done|by apply list_find_Some in Es as []| |];
      [apply list_find_Some in Es as (_ & [_ ?] & _)|destruct Hs as [_ ?]]; intros [_ ?]; congruence. }
  assert (filterOutServiceBackendRef (rule <| hrr_BackendRefs := (refs ++ [c])%list |>) canaryService
          = rule <| hrr_BackendRefs := refs |>) as Hfilter.
  { unfold filterOutServiceBackendRef, getServiceBackendRef. simpl.
    rewrite list_find_appended, Hnone, decide_True by done. rewrite delete_middle. by rewrite app_nil_r. }
  unfold restoreRule. rewrite Hfilter. unfold filterOutServiceBackendRef. rewrite Hno, Es.
  assert (getServiceBackendRef (rule <| hrr_BackendRefs := refs |>) stableService = Some (i, s)) as Hget by done.
  rewrite Hget. rewrite Heta. destruct Hs as [Hks Hns]. apply get_isService in Es as Hst. destruct Hst as [Hk Hn].
  rewrite !(set_refs _ (stableRef <| hbr_Weight := Some 1 |>) i) with (old := s) by (simpl; rewrite ?Hn; done).
  rewrite (set_refs rule (stableRef <| hbr_Weight := Some 1 |>) i stableRef)
    by (done || (simpl; rewrite Hn; done)).
  assert (forall x, rule <| hrr_BackendRefs := refs |> <| hrr_BackendRefs := <[i := x]> refs |>
    = rule <| hrr_BackendRefs := <[i := x]> (hrr_BackendRefs rule) |>) as Hsame
    by (intros x; subst refs; destruct rule; unfold set; simpl; by rewrite list_insert_insert_eq).
  change (hrr_BackendRefs (rule <| hrr_BackendRefs := refs |>)) with refs. by rewrite Hsame.
Qed.

(** ** The rules of a route *)

Lemma weights_Forall2 weight rules desired :
  buildCanaryWeightHttpRoutes canaryService stableService rules weight = Ok desired ->
  Forall2 (fun rule rule' => weight_of weight rule = Ok rule') rules desired.
Proof.
  revert desired. induction rules as [|rule rules IH]; intros desired; simpl; [intros [= <-]; constructor|].
  destruct (weight_of weight rule) as [rule'|e|] eqn:E; [|done..]. simpl.
  destruct (buildCanaryWeightHttpRoutes _ _ rules weight) as [rest|e|]; [|done..]. simpl. intros [= <-].
  constructor; [done|by apply IH].
Qed.

Lemma Forall2_weights weight rules desired :
  Forall2 (fun rule rule' => weight_of weight rule = Ok rule') rules desired ->
  buildCanaryWeightHttpRoutes canaryService stableService rules weight = Ok desired.
Proof. induction 1 as [|rule rule' rules desired E _ IH]; simpl; [done|]. by rewrite E, IH. Qed.

Definition refersToCanary (rule : HTTPRouteRule) : Prop :=
  is_Some (getServiceBackendRef rule canaryService).

(** The rules made for the canary refer to it alone. *)
Lemma canaryRuleOf_refs matches pathMatches nonPathMatches rule stableRef canary :
  hbr_Kind stableRef = Some "Service"%string ->
  canaryRuleOf canaryService matches pathMatches nonPathMatches rule stableRef = Some canary ->
  refersToCanary canary /\ restore canary = None.
Proof.
  unfold canaryRuleOf. intros Hkind Hrule. case_match; [done|]. apply (inj Some) in Hrule as <-.
  set (ref := stableRef <| hbr_Name := canaryService |>).
  assert (isService canaryService ref) as Href by done.
  match goal with |- refersToCanary ?r /\ _ => set (canary := r) end.
  assert (getServiceBackendRef canary canaryService = Some (0%nat, ref)) as Hget.
  { unfold getServiceBackendRef. simpl. by rewrite decide_True. }
  split; [by eexists|]. unfold restoreRule, filterOutServiceBackendRef. rewrite Hget.
  destruct (getServiceBackendRef (canary <| hrr_BackendRefs := _ |>) stableService) as [[]|] eqn:E; [done|].
  by rewrite decide_True.
Qed.

Lemma headerRules_run matches nonPath path rules desired canaries :
  headerRules canaryService stableService matches nonPath path rules = (desired, canaries) ->
  desired = filter (fun rule => ~ refersToCanary rule) rules
  /\ Forall (fun c => refersToCanary c /\ restore c = None) canaries
  /\ forall more, Forall refersToCanary more ->
       headerRules canaryService stableService matches nonPath path (desired ++ more) = (desired, canaries).
Proof.
  revert path desired canaries. induction rules as [|rule rules IH]; intros path desired canaries; simpl.
  { intros [= <- <-]. split; [done|]. split; [done|]. intros more Hmore. simpl.
    induction Hmore as [|c more [ref Hc] _ IHm]; simpl; [done|]. by rewrite Hc. }
  unfold refersToCanary. rewrite filter_cons.
  destruct (getServiceBackendRef rule canaryService) as [r|] eqn:Ec.
  - intros Hrun. rewrite decide_False by (intros Hn; apply Hn; by eexists). by eapply IH.
  - rewrite decide_True by (by intros []).
    destruct (getServiceBackendRef rule stableService) as [[i stableRef]|] eqn:Es.
    + destruct (headerRules _ _ _ _ [] rules) as [d c] eqn:E. intros [= <- <-].
      destruct (IH _ _ _ E) as (-> & Hc & Hmore). split; [done|]. split.
      * apply Forall_app. split; [|done]. apply Forall_forall. intros x Hx.
        destruct (canaryRuleOf _ _ _ _ _ _) eqn:Ecan; [|by apply not_elem_of_nil in Hx].
        apply list_elem_of_singleton in Hx as ->. eapply canaryRuleOf_refs; [|done].
        by apply get_isService in Es as [].
      * intros more Hm. simpl. rewrite Ec, Es. by rewrite Hmore.
    + destruct (headerRules _ _ _ _ path rules) as [d c] eqn:E. intros [= <- <-].
      destruct (IH _ _ _ E) as (-> & Hc & Hmore). split; [done|]. split; [done|].
      intros more Hm. simpl. rewrite Ec, Es. by rewrite Hmore.
Qed.

Lemma build_headers rules weight m matches :
  weight <> Some (-1) ->
  build rules weight (m :: matches) = Ok (buildCanaryHeaderHttpRoutes canaryService stableService rules (m :: matches)).
Proof. intros Hw. unfold buildDesiredHTTPRoute. by rewrite decide_False. Qed.

Lemma build_restore rules matches : build rules (Some (-1)) matches = Ok (omap restore rules).
Proof. done. Qed.

(** The shares of a percentage: in every rule that refers to the stable Service this
    has the weight that is left and the canary Service the percentage, and everything else
    in it, other backends, matches and filters, is as it was; other rules are unchanged. *)
Theorem gateway_split (rules desired : list HTTPRouteRule) (w : Z)
    (Hw : 0 <= w <= 100) (Hne : canaryService <> stableService)
    (Hbuild : build rules (Some w) [] = Ok desired) :
  Forall2 (sharedRule w) rules desired.
Proof.
  unfold buildDesiredHTTPRoute in Hbuild. rewrite decide_False in Hbuild by (intros [= ->]; lia).
  apply weights_Forall2 in Hbuild. eapply Forall2_impl; [apply Hbuild|]. intros. by apply weightRule_split.
Qed.

Lemma build_converges rules desired weight matches :
  canaryService <> stableService -> (forall w, weight = Some w -> 0 <= w <= 100) ->
  build rules weight matches = Ok desired -> build desired weight matches = Ok desired.
Proof.
  intros Hne Hw. assert (weight <> Some (-1)) as Hnot by (intros ->; specialize (Hw _ eq_refl); lia).
  unfold buildDesiredHTTPRoute. rewrite !decide_False by done. destruct matches as [|m matches].
  - intros Hb%weights_Forall2. apply Forall2_weights.
    assert (forall r r', weight_of weight r = Ok r' -> weight_of weight r' = Ok r') as Hc
      by (intros; by eapply weightRule_converges).
    clear Hw. induction Hb; constructor; eauto.
  - intros <-%(inj Ok). f_equal. unfold buildCanaryHeaderHttpRoutes.
    destruct (headerRules _ _ _ _ _ rules) as [d c] eqn:E.
    destruct (headerRules_run _ _ _ _ _ _ E) as (_ & Hc & Hmore). rewrite Hmore; [done|].
    eapply Forall_impl; [apply Hc|]. by intros ? [].
Qed.

(** C19. Finalising undoes the canary: for a route in which nothing refers to the canary
    Service, the rules restored after any weight or matches are the ones that finalising
    the untouched route gives; these are the original rules when each has a backend and
    its stable Service has the weight one. *)
Theorem gateway_roundtrip (rules desired : list HTTPRouteRule) (weight : option Z) (matches : list HttpRouteMatch)
    (Hne : canaryService <> stableService) (Hweight : weight <> Some (-1))
    (Hfresh : Forall (fun rule => ~ refersToCanary rule) rules)
    (Hbuild : build rules weight matches = Ok desired) :
  build desired (Some (-1)) [] = build rules (Some (-1)) []
  /\ (Forall (fun rule => hrr_BackendRefs rule <> []
        /\ forall ref, snd <$> getServiceBackendRef rule stableService = Some ref -> hbr_Weight ref = Some 1) rules ->
      build desired (Some (-1)) [] = Ok rules).
Proof.
  assert (omap restore desired = omap restore rules) as E.
  { unfold buildDesiredHTTPRoute in Hbuild. rewrite decide_False in Hbuild by done.
    destruct matches as [|m matches].
    - apply weights_Forall2 in Hbuild. clear Hweight.
      induction Hbuild as [|rule rule' rules desired Hrule _ IH]; [done|].
      apply Forall_cons in Hfresh as [Hrule' Hfresh]. rewrite !omap_step, IH by done.
      assert (getServiceBackendRef rule canaryService = None) as Hno
        by (destruct (getServiceBackendRef rule canaryService) eqn:Eg; [exfalso; apply Hrule'; by eexists|done]).
      by rewrite (weightRule_restores _ _ _ Hno Hne Hrule).
    - apply (inj Ok) in Hbuild as <-. unfold buildCanaryHeaderHttpRoutes.
      destruct (headerRules _ _ _ _ _ rules) as [d c] eqn:Eh.
      destruct (headerRules_run _ _ _ _ _ _ Eh) as (-> & Hc & _). rewrite omap_app.
      assert (omap restore c = []) as ->.
      { clear Eh. induction Hc as [|x c [_ Hx] _ IH]; [done|]. by rewrite omap_step, Hx. }
      rewrite app_nil_r. f_equal. clear Eh Hc. induction Hfresh; [done|].
      rewrite filter_cons_True by done. by f_equal. }
  rewrite !build_restore, E. split; [done|]. intros Hclean. f_equal. clear E Hbuild.
  induction Hfresh as [|rule rules Hrule Hfresh IH]; [done|]. apply Forall_cons in Hclean as [[Hrefs Hone] Hclean].
  rewrite omap_step, IH by done. unfold restoreRule, filterOutServiceBackendRef.
  destruct (getServiceBackendRef rule canaryService) eqn:Eg; [exfalso; apply Hrule; by eexists|].
  destruct (getServiceBackendRef rule stableService) as [[i ref]|] eqn:Es.
  - rewrite (weight_id ref) by (by apply Hone). rewrite (set_get_id _ _ _ _ Es). by rewrite decide_False.
  - by rewrite decide_False.
Qed.
End rules.

Section gateway.
Context {W : Type} `{Api W HTTPRoute} `{Retry W} `{K8sLib}.

(** Once is enough: the provider says that the routes are ensured, and writes
    nothing, on a route whose rules are the ones it wrote for the same strategy. *)
Theorem gateway_settles (conf : ProviderConfig) (trafficConf : GatewayTrafficRouting) (strategy : TrafficRoutingStrategy)
    (rules desired : list HTTPRouteRule) (name : string) (route : HTTPRoute) (w w' : W)
    (Hne : pc_CanaryService conf <> pc_StableService conf)
    (Hweight : forall v, trafficWeight strategy = Some v -> 0 <= v <= 100)
    (Hbuild : buildDesiredHTTPRoute (pc_CanaryService conf) (pc_StableService conf) rules
                (trafficWeight strategy) (Matches strategy) = Ok desired)
    (Hname : HTTPRouteName trafficConf = Some name)
    (Hget : api_Get (O := HTTPRoute) (pc_Namespace conf, name) w = (Ok route, w'))
    (Hroute : hr_Rules route = desired) :
  EnsureRoutes (gatewayController conf trafficConf) strategy w = (Ok (true, None), w').
Proof.
  pose proof (build_converges _ _ _ _ _ _ Hne Hweight Hbuild) as Hagain.
  simpl. unfold gateway_EnsureRoutes, answering, routeKey, catch, bind, lift, ret. rewrite Hname. simpl.
  rewrite Hget, Hroute, Hagain. by rewrite decide_True.
Qed.
End gateway.
