(* ===== verification/LuaJson.v ===== *)
(** * Values between Go and Lua (pkg/util/luamanager)

    What a Lua script is given and what its answer becomes: [decodeValue] builds Lua
    tables from an unstructured object and [Encode] writes a Lua value as JSON.  The
    tables themselves are those of the interpreter, a parameter.  A JSON text is
    modelled by the value it stands for; its strings are UTF-8. *)

From stdpp Require Export sorting.
From Stdlib Require Import SpecFloat.
From S2P Require Export Prelude.

(** ** Data *)

(** [float64] *)
Definition float64 : Type := spec_float.
#[export] Instance float64_eq_dec : EqDecision float64.
Proof. unfold float64. solve_decision. Defined.

Definition floatOfZ (z : Z) : float64 := binary_normalize 53 1024 z 0 false.
Definition isFinite (f : float64) : bool :=
  match f with S754_zero _ | S754_finite _ _ _ => true | _ => false end.

(** An [interface{}]: what unstructured objects and [encoding/json] hold.  A map lists
    its members in the order in which a [range] visits them; [GoOther] is any type the
    code has no case for. *)
Inductive GoValue :=
  | GoNil
  | GoBool (b : bool)
  | GoFloat (f : float64)
  | GoInt (z : Z)
  | GoNumber (s : string)
  | GoString (s : string)
  | GoSlice (items : list GoValue)
  | GoMap (members : list (string * GoValue))
  | GoOther (type : string).

Section GoValue_ind.
Variable P : GoValue -> Prop.
Hypotheses (Hnil : P GoNil) (Hbool : forall b, P (GoBool b)) (Hfloat : forall f, P (GoFloat f))
  (Hint : forall z, P (GoInt z)) (Hnumber : forall s, P (GoNumber s)) (Hstring : forall s, P (GoString s))
  (Hslice : forall items, Forall P items -> P (GoSlice items))
  (Hmap : forall members, Forall (fun kv => P kv.2) members -> P (GoMap members))
  (Hother : forall t, P (GoOther t)).

(** The induction principle with the members of slices and maps. *)
Fixpoint GoValue_members_ind (v : GoValue) : P v :=
  match v with
  | GoNil => Hnil
  | GoBool b => Hbool b
  | GoFloat f => Hfloat f
  | GoInt z => Hint z
  | GoNumber s => Hnumber s
  | GoString s => Hstring s
  | GoSlice items => Hslice items
      ((fix all l : Forall P l := match l with
        | [] => Forall_nil_2 P
        | x :: l => Forall_cons_2 P x l (GoValue_members_ind x) (all l) end) items)
  | GoMap members => Hmap members
      ((fix all l : Forall (fun kv => P kv.2) l := match l with
        | [] => Forall_nil_2 _
        | kv :: l => Forall_cons_2 (fun kv => P kv.2) kv l (GoValue_members_ind kv.2) (all l) end) members)
  | GoOther t => Hother t
  end.
End GoValue_ind.

#[export] Instance GoValue_eq_dec : EqDecision GoValue.
Proof.
  refine (fix go v w : Decision (v = w) :=
    match v, w with
    | GoNil, GoNil => left eq_refl
    | GoBool a, GoBool b => cast_if (decide (a = b))
    | GoFloat a, GoFloat b => cast_if (decide (a = b))
    | GoInt a, GoInt b => cast_if (decide (a = b))
    | GoNumber a, GoNumber b | GoString a, GoString b | GoOther a, GoOther b => cast_if (decide (a = b))
    | GoSlice a, GoSlice b => cast_if (@decide (a = b) (@list_eq_dec _ go a b))
    | GoMap a, GoMap b => cast_if (@decide (a = b) (@list_eq_dec _ (@prod_eq_dec _ _ _ go) a b))
    | _, _ => right _
    end); clear go; abstract congruence.
Defined.

(** The identity of a Lua table. *)
Definition TableId : Type := nat.

(** Functions, threads, channels and user data are [LOther]. *)
Inductive LValue :=
  | LNil
  | LBool (b : bool)
  | LNumber (n : float64)
  | LString (s : string)
  | LTable (t : TableId)
  | LOther (type : string).
#[export] Instance LValue_eq_dec : EqDecision LValue.
Proof. unfold float64, TableId. solve_decision. Defined.

Definition LValue_Type (v : LValue) : string :=
  match v with
  | LNil => "nil"
  | LBool _ => "boolean"
  | LNumber _ => "number"
  | LString _ => "string"
  | LTable _ => "table"
  | LOther type => type
  end.

(** The tables of the interpreter: [tableItems] is what [Next] visits from nil on. *)
Class LuaTables := {
  LuaState : Type;
  CreateTable : LuaState -> TableId * LuaState;
  Append : TableId -> LValue -> LuaState -> LuaState;
  RawSetH : TableId -> LValue -> LValue -> LuaState -> LuaState;
  tableItems : LuaState -> TableId -> list (LValue * LValue);
  tables : LuaState -> gset TableId;
  NewState : LuaState
}.

(** The items of a sequence, numbered from [i] on. *)
Fixpoint sequence (i : Z) (values : list LValue) : list (LValue * LValue) :=
  match values with
  | [] => []
  | x :: rest => (LNumber (floatOfZ i), x) :: sequence (i + 1) rest
  end.

(** As Lua documents tables: a new one is empty and no other; an assignment changes one
    table, nil is no value, and a sequence is visited in order. *)
Class LuaTablesLaws `{LuaTables} := {
  create_fresh L : (CreateTable L).1 ∉ tables L;
  create_tables L : tables (CreateTable L).2 = {[(CreateTable L).1]} ∪ tables L;
  create_items L : tableItems (CreateTable L).2 (CreateTable L).1 = [];
  create_frame L t : t ∈ tables L -> tableItems (CreateTable L).2 t = tableItems L t;
  append_tables t x L : tables (Append t x L) = tables L;
  append_frame t t' x L : t <> t' -> tableItems (Append t x L) t' = tableItems L t';
  append_items t x L values : t ∈ tables L -> tableItems L t = sequence 1 values ->
    tableItems (Append t x L) t = sequence 1 (values ++ if decide (x = LNil) then [] else [x]);
  rawset_tables t k x L : tables (RawSetH t k x L) = tables L;
  rawset_frame t t' k x L : t <> t' -> tableItems (RawSetH t k x L) t' = tableItems L t';
  rawset_items t k x L : t ∈ tables L -> ~ k ∈ (tableItems L t).*1 ->
    tableItems (RawSetH t k x L) t ≡ₚ tableItems L t ++ if decide (x = LNil) then [] else [(k, x)]
}.

(** ** From Go to Lua *)

Section decode.
Context `{LuaTables}.

(** The two decoders differ in the scalars they have a case for. *)
Section scalar.
Variable scalar : GoValue -> LValue.

Fixpoint decodeWith (value : GoValue) (L : LuaState) : LValue * LuaState :=
  match value with
  | GoSlice items =>
      let '(arr, L) := CreateTable L in
      (LTable arr,
       (fix appendAll (items : list GoValue) (L : LuaState) : LuaState :=
          match items with
          | [] => L
          | item :: rest => let '(x, L) := decodeWith item L in appendAll rest (Append arr x L)
          end) items L)
  | GoMap members =>
      let '(tbl, L) := CreateTable L in
      (LTable tbl,
       (fix setAll (members : list (string * GoValue)) (L : LuaState) : LuaState :=
          match members with
          | [] => L
          | (key, item) :: rest =>
              let '(x, L) := decodeWith item L in setAll rest (RawSetH tbl (LString key) x L)
          end) members L)
  | _ => (scalar value, L)
  end.

Fixpoint appendAll (arr : TableId) (items : list GoValue) (L : LuaState) : LuaState :=
  match items with
  | [] => L
  | item :: rest => let '(x, L) := decodeWith item L in appendAll arr rest (Append arr x L)
  end.
Fixpoint setAll (tbl : TableId) (members : list (string * GoValue)) (L : LuaState) : LuaState :=
  match members with
  | [] => L
  | (key, item) :: rest =>
      let '(x, L) := decodeWith item L in setAll tbl rest (RawSetH tbl (LString key) x L)
  end.

Lemma decodeWith_slice items L :
  decodeWith (GoSlice items) L =
  (LTable (CreateTable L).1, appendAll (CreateTable L).1 items (CreateTable L).2).
Proof.
  simpl. destruct (CreateTable L) as [arr L']. simpl. f_equal. revert L'.
  induction items as [|item rest IH]; intros L'; simpl; [done|]. destruct (decodeWith item L'). apply IH.
Qed.

Lemma decodeWith_map members L :
  decodeWith (GoMap members) L =
  (LTable (CreateTable L).1, setAll (CreateTable L).1 members (CreateTable L).2).
Proof.
  simpl. destruct (CreateTable L) as [tbl L']. simpl. f_equal. revert L'.
  induction members as [|[k item] rest IH]; intros L'; simpl; [done|]. destruct (decodeWith item L'). apply IH.
Qed.
End scalar.

(** json.go, for what [encoding/json] decodes to: other values are nil. *)
Definition jsonScalar (value : GoValue) : LValue :=
  match value with
  | GoBool b => LBool b
  | GoFloat f => LNumber f
  | GoString s => LString s
  | GoNumber s => LString s
  | _ => LNil
  end.
Definition DecodeValue : GoValue -> LuaState -> LValue * LuaState := decodeWith jsonScalar.

(** lua.go, which knows the integers of unstructured objects too. *)
Definition luaScalar (value : GoValue) : LValue :=
  match value with
  | GoInt z => LNumber (floatOfZ z)
  | _ => jsonScalar value
  end.
Definition decodeValue : GoValue -> LuaState -> LValue * LuaState := decodeWith luaScalar.

(** ** From Lua to JSON *)

Definition errNested : goerror := ErrOther "cannot encode recursively nested tables to JSON".
Definition errSparseArray : goerror := ErrOther "cannot encode sparse array".
Definition errInvalidKeys : goerror := ErrOther "cannot encode mixed or invalid key types".
Definition invalidTypeError (type : string) : goerror := ErrOther ("cannot encode " +:+ type +:+ " to JSON")%string.

(** The loop over the items of an array.  [expectedKey] is a float that is incremented;
    below 2^53 that is the float of the integer. *)
Fixpoint arrayValues (expectedKey : Z) (items : list (LValue * LValue)) : res (list LValue) :=
  match items with
  | [] => Ok []
  | (key, value) :: rest =>
      match key with
      | LNumber n =>
          if decide (n = floatOfZ expectedKey)
          then res_map (cons value) (arrayValues (expectedKey + 1) rest)
          else Err errSparseArray
      | _ => Err errInvalidKeys
      end
  end.

(** The loop over the items of an object; a table has a key once. *)
Fixpoint objectValues (items : list (LValue * LValue)) : res (list (string * LValue)) :=
  match items with
  | [] => Ok []
  | (key, value) :: rest =>
      match key with
      | LString k => res_map (cons (k, value)) (objectValues rest)
      | _ => Err errInvalidKeys
      end
  end.

(** [json.Marshal] writes the members of a map by key. *)
Definition keyLe {A} (a b : string * A) : Prop := String.leb a.1 b.1 = true.
#[export] Instance keyLe_dec {A} : RelDecision (keyLe (A := A)).
Proof. unfold keyLe. intros a b. apply _. Defined.

Section all.
Context {A B S : Type} (f : A -> M S B).
Fixpoint traverse (l : list A) : M S (list B) :=
  match l with
  | [] => ret []
  | x :: rest => y <- f x ;; ys <- traverse rest ;; ret (y :: ys)
  end.
End all.

(** [MarshalJSON]: [visited] is shared by the whole encoding.  The fuel bounds the depth
    of the recursion. *)
Fixpoint MarshalJSON (fuel : nat) (L : LuaState) (value : LValue) : M (gset TableId) GoValue :=
  match value with
  | LBool b => ret (GoBool b)
  | LNumber n => if isFinite n then ret (GoFloat n) else fail (ErrOther "unsupported value")
  | LNil => ret GoNil
  | LString s => ret (GoString s)
  | LOther type => fail (invalidTypeError type)
  | LTable t =>
      match fuel with
      | O => panic
      | S fuel =>
          visited <- get ;;
          if decide (t ∈ visited) then fail errNested else
          put ({[t]} ∪ visited) ;;
          match tableItems L t with
          | [] => ret GoNil
          | ((LNumber _, _) :: _) as items =>
              arr <- lift (arrayValues 1 items) ;;
              values <- traverse (MarshalJSON fuel L) arr ;;
              ret (GoSlice values)
          | ((LString _, _) :: _) as items =>
              obj <- lift (objectValues items) ;;
              members <- traverse (fun kv => v <- MarshalJSON fuel L kv.2 ;; ret (kv.1, v)) (merge_sort keyLe obj) ;;
              ret (GoMap members)
          | _ => fail errInvalidKeys
          end
      end
  end.

(** A recursion visits a table at most once, so that the number of tables is enough. *)
Definition Encode (L : LuaState) (value : LValue) : res GoValue :=
  (MarshalJSON (S (size (tables L))) L value ∅).1.
(** ** Running a script *)

(** [DoString] with the global [obj], and what it leaves on top of the stack. *)
Class LuaInterpreter := DoString : string -> LValue -> LuaState -> res (LValue * LuaState).

Definition RunLuaScript `{LuaInterpreter} (obj : GoValue) (script : string) : res (LValue * LuaState) :=
  let '(objectValue, L) := decodeValue obj NewState in DoString script objectValue L.

(** The scripts of the providers answer a table, which is read as JSON. *)
Definition tableOutput `{LuaInterpreter} (obj : GoValue) (script : string) : res GoValue :=
  res_bind (RunLuaScript obj script) (fun '(returnValue, L) =>
    match returnValue with
    | LTable _ => Encode L returnValue
    | _ => Err (ErrOther ("expect table output from Lua script, not " +:+ LValue_Type returnValue)%string)
    end).
End decode.

(** ** Reading JSON into Go types *)

(** [json.Unmarshal] into the elements of a map of strings: null is the empty string, and
    so is what is no string, which also makes an error at the end. *)
Definition UnmarshalString (v : GoValue) : string * bool :=
  match v with
  | GoString s => (s, true)
  | GoNil => (""%string, true)
  | _ => (""%string, false)
  end.

Fixpoint UnmarshalMembers (members : list (string * GoValue)) (m : gmap string string) : gmap string string * bool :=
  match members with
  | [] => (m, true)
  | (key, v) :: rest =>
      let '(s, ok) := UnmarshalString v in
      let '(m, ok') := UnmarshalMembers rest (<[key := s]> m) in (m, andb ok ok')
  end.

(** Into a [map[string]string]: null makes it nil, and another type leaves it. *)
Definition UnmarshalStringMap (v : GoValue) (m : option (gmap string string))
    : option (gmap string string) * bool :=
  match v with
  | GoNil => (None, true)
  | GoMap members => let '(m, ok) := UnmarshalMembers members (default ∅ m) in (Some m, ok)
  | _ => (m, false)
  end.

(** What was read, or the error. *)
Definition orUnmarshalError {A} (r : A * bool) : res A :=
  match r with (a, true) => Ok a | (_, false) => Err (ErrOther "cannot unmarshal") end.

(** [runtime.DefaultUnstructuredConverter.ToUnstructured] *)
Class Unstructurable (A : Type) := ToUnstructured : A -> res GoValue.

(** JSON as text: [json.Marshal], empty where it fails, and the value a text stands for. *)
Class JsonText := {
  DumpJSON : GoValue -> string;
  parseJSON : string -> option GoValue
}.

(** ** What scripts may call (json.go)

    A function of the interpreter takes the arguments of the call and gives what it
    pushes; [Err] is an error raised in the script. *)

Section library.
Context `{LuaTables} `{JsonText} `{ErrorText}.

Definition LGFunction : Type := list LValue -> LuaState -> res (list LValue * LuaState).

(** How the interpreter reads arguments, and registers a module, which becomes a value. *)
Class LuaLibrary := {
  CheckString : list LValue -> res string;
  CheckAny : list LValue -> res LValue;
  RegisterModule : string -> gmap string LGFunction -> LuaState -> LValue * LuaState
}.

(** As documented: the first argument, if it is a string, or if there is one. *)
Class LuaLibraryLaws `{LuaLibrary} := {
  check_string s rest : CheckString (LString s :: rest) = Ok s;
  check_any v rest : CheckAny (v :: rest) = Ok v
}.

Context `{LuaLibrary}.

Definition json_Decode (data : string) (L : LuaState) : res (LValue * LuaState) :=
  match parseJSON data with
  | None => Err (ErrOther "invalid JSON")
  | Some value => Ok (DecodeValue value L)
  end.

Definition jsonDecode : LGFunction := fun arguments L =>
  res_bind (CheckString arguments) (fun str =>
  match json_Decode str L with
  | Ok (value, L) => Ok ([value], L)
  | Err err => Ok ([LNil; LString (errorText err)], L)
  | Panic => Panic
  end).

Definition jsonEncode : LGFunction := fun arguments L =>
  res_bind (CheckAny arguments) (fun value =>
  match Encode L value with
  | Ok data => Ok ([LString (DumpJSON data)], L)
  | Err err => Ok ([LNil; LString (errorText err)], L)
  | Panic => Panic
  end).

Definition JsonLibName : string := "json".
Definition jsonFuncs : gmap string LGFunction := {["decode" := jsonDecode; "encode" := jsonEncode]}%string.
Definition OpenJson : LGFunction := fun _ L =>
  let '(mod_, L) := RegisterModule JsonLibName jsonFuncs L in Ok ([mod_], L).
End library.
