(* ===== verification/LuaJsonProofs.v ===== *)
(** * What survives a Lua script

    An object that a script returns as it got it comes back with its objects ordered, but
    without nulls and with null for what is empty ([jsonOf]); and the encoder terminates. *)

From S2P Require Export LuaJson.

(** ** The reference *)

(** What becomes nil in Lua. *)
Definition luaNil (v : GoValue) : bool :=
  match v with GoNil | GoOther _ => true | _ => false end.

(** Members that are nil are dropped, and an empty slice or map is null. *)
Fixpoint jsonOf (v : GoValue) : GoValue :=
  match v with
  | GoInt z => GoFloat (floatOfZ z)
  | GoNumber s => GoString s
  | GoOther _ => GoNil
  | GoSlice items =>
      match omap (fun item => if luaNil item then None else Some (jsonOf item)) items with
      | [] => GoNil
      | items => GoSlice items
      end
  | GoMap members =>
      match omap (fun kv => if luaNil kv.2 then None else Some (kv.1, jsonOf kv.2)) members with
      | [] => GoNil
      | members => GoMap (merge_sort keyLe members)
      end
  | v => v
  end.

(** JSON has no infinite number, and a map has a key once. *)
Inductive encodable : GoValue -> Prop :=
  | enc_nil : encodable GoNil
  | enc_bool b : encodable (GoBool b)
  | enc_float f : isFinite f = true -> encodable (GoFloat f)
  | enc_int z : isFinite (floatOfZ z) = true -> encodable (GoInt z)
  | enc_number s : encodable (GoNumber s)
  | enc_string s : encodable (GoString s)
  | enc_slice items : Forall encodable items -> encodable (GoSlice items)
  | enc_map members : NoDup members.*1 -> Forall (fun kv => encodable kv.2) members -> encodable (GoMap members)
  | enc_other t : encodable (GoOther t).

(** ** Sorted members *)

Lemma leb_compare a b : String.leb a b = true <-> String.compare a b <> Gt.
Proof. unfold String.leb. by destruct (String.compare a b). Qed.

Lemma ascii_compare_trans a b c : Ascii.compare a b = Lt -> Ascii.compare b c = Lt -> Ascii.compare a c = Lt.
Proof. unfold Ascii.compare. rewrite !N.compare_lt_iff. lia. Qed.

Lemma string_leb_trans a b c : String.leb a b = true -> String.leb b c = true -> String.leb a c = true.
Proof.
  rewrite !leb_compare. revert b c. induction a as [|x a IH]; intros [|y b] [|z c]; simpl; try done.
  destruct (Ascii.compare x y) eqn:Exy; try done.
  - apply Ascii.compare_eq_iff in Exy as ->. destruct (Ascii.compare y z); try done. apply IH.
  - destruct (Ascii.compare y z) eqn:Eyz; try done.
    + apply Ascii.compare_eq_iff in Eyz as ->. by rewrite Exy.
    + by rewrite (ascii_compare_trans _ _ _ Exy Eyz).
Qed.

#[export] Instance keyLe_total {A} : Total (keyLe (A := A)).
Proof. intros a b. apply String.leb_total. Qed.
#[export] Instance keyLe_trans {A} : Transitive (keyLe (A := A)).
Proof. intros a b c. apply string_leb_trans. Qed.

(** Sorting by distinct keys has one answer. *)
Lemma sorted_by_key {A} (l1 l2 : list (string * A)) :
  NoDup l1.*1 -> l1 ≡ₚ l2 -> StronglySorted keyLe l1 -> StronglySorted keyLe l2 -> l1 = l2.
Proof.
  revert l2. induction l1 as [|a l1 IH]; intros l2 Hnd Hp H1 H2.
  { by apply Permutation_nil_l in Hp. }
  destruct l2 as [|b l2]; [by apply Permutation_nil_r in Hp|].
  apply StronglySorted_inv in H1 as [H1 Ha]. apply StronglySorted_inv in H2 as [H2 Hb].
  assert (a = b) as ->.
  { assert (a ∈ b :: l2) as [->|Ha2]%elem_of_cons by (rewrite <- Hp; by left); [done|].
    assert (b ∈ a :: l1) as [->|Hb1]%elem_of_cons by (rewrite Hp; by left); [done|].
    rewrite Forall_forall in Ha, Hb. pose proof (String.leb_antisym _ _ (Ha _ Hb1) (Hb _ Ha2)) as E.
    apply NoDup_cons in Hnd as [Hno _]. exfalso. apply Hno. rewrite E. apply list_elem_of_fmap. by exists b. }
  f_equal. apply IH; try done; [by apply NoDup_cons in Hnd as []|]. by eapply Permutation_cons_inv.
Qed.

Lemma merge_sort_by_key {A} (l1 l2 : list (string * A)) :
  NoDup l1.*1 -> l1 ≡ₚ l2 -> StronglySorted keyLe l1 -> l1 = merge_sort keyLe l2.
Proof.
  intros Hnd Hp Hs. apply sorted_by_key; [done| |done|apply StronglySorted_merge_sort; apply _].
  by rewrite merge_sort_Permutation.
Qed.

(** ** What the encoder reads *)

Section reads.
Context `{LuaTables}.

Definition agree (S : gset TableId) (L L' : LuaState) : Prop :=
  forall t, t ∈ S -> tableItems L' t = tableItems L t.

Lemma agree_mono (S S' : gset TableId) L L' : S' ⊆ S -> agree S L L' -> agree S' L L'.
Proof. intros HS Ha t Ht. apply Ha. set_solver. Qed.

Lemma agree_trans (S : gset TableId) L L' L'' : agree S L L' -> agree S L' L'' -> agree S L L''.
Proof. intros H1 H2 t Ht. by rewrite (H2 t Ht), (H1 t Ht). Qed.

(** The encoding of [x] is [g], whatever the tables outside of [S] hold. *)
Definition reads (L : LuaState) (S : gset TableId) (x : LValue) (g : GoValue) : Prop :=
  forall L' fuel visited, agree S L L' -> (size S < fuel)%nat -> visited ## S ->
  exists visited', MarshalJSON fuel L' x visited = (Ok g, visited') /\ visited' ⊆ visited ∪ S.

Lemma reads_agree S L L' x g : agree S L L' -> reads L S x g -> reads L' S x g.
Proof. intros Ha Hr L'' fuel visited Ha'. apply Hr. by eapply agree_trans. Qed.

(** A member of a table: the tables below it are its region. *)
Record Part := mkPart { p_Key : string; p_Region : gset TableId; p_Value : LValue; p_Json : GoValue }.

Definition regions (T : list Part) : gset TableId := ⋃ (p_Region <$> T).
Definition apart (p q : Part) : Prop := p_Region p ## p_Region q.
Definition partsOk (L : LuaState) (T : list Part) : Prop :=
  Forall (fun p => reads L (p_Region p) (p_Value p) (p_Json p)) T /\ ForallOrdPairs apart T.

Lemma elem_of_regions t T : t ∈ regions T <-> exists p, p ∈ T /\ t ∈ p_Region p.
Proof. unfold regions. rewrite elem_of_union_list. set_solver. Qed.

Lemma regions_perm T T' : T ≡ₚ T' -> regions T = regions T'.
Proof. intros E. apply set_eq. intros t. rewrite !elem_of_regions. by setoid_rewrite E. Qed.

Lemma pairs_perm T T' : T ≡ₚ T' -> ForallOrdPairs apart T -> ForallOrdPairs apart T'.
Proof.
  induction 1 as [|p T T' E IH|p q T|]; [done| | |by eauto].
  - intros Hp. inversion Hp; subst. constructor; [|by apply IH]. by rewrite <- E.
  - intros Hp. inversion Hp as [|? ? Hq Hr]; subst. inversion Hr as [|? ? Hs Ht]; subst.
    apply Forall_cons in Hq as [Hq Hq']. repeat constructor; try done. unfold apart in *. set_solver.
Qed.

Lemma pairs_snoc T p : Forall (apart p) T -> ForallOrdPairs apart T -> ForallOrdPairs apart (T ++ [p]).
Proof.
  intros Hp Ht. eapply (pairs_perm (p :: T)); [|by constructor]. by rewrite Permutation_app_comm.
Qed.

Lemma parts_perm L T T' : T ≡ₚ T' -> partsOk L T -> partsOk L T'.
Proof. intros E [H1 H2]. split; [by rewrite <- E|by eapply pairs_perm]. Qed.

Lemma parts_agree L L' T : agree (regions T) L L' -> partsOk L T -> partsOk L' T.
Proof.
  intros Ha [H1 H2]. split; [|done]. rewrite Forall_forall in *. intros p Hp.
  eapply reads_agree; [|by apply H1]. eapply agree_mono; [|done]. intros t Ht.
  apply elem_of_regions. by exists p.
Qed.

(** A loop that encodes the values of the parts. *)
Lemma traverse_parts {A B} (f : A -> M (gset TableId) B) (source : Part -> A) (target : Part -> B) L L' fuel T visited :
  (forall p visited visited', MarshalJSON fuel L' (p_Value p) visited = (Ok (p_Json p), visited') ->
     f (source p) visited = (Ok (target p), visited')) ->
  partsOk L T -> agree (regions T) L L' -> (size (regions T) < fuel)%nat -> visited ## regions T ->
  exists visited', traverse f (source <$> T) visited = (Ok (target <$> T), visited')
    /\ visited' ⊆ visited ∪ regions T.
Proof.
  intros Hf. revert visited. induction T as [|p T IH]; intros visited [Hr Ho] Ha Hs Hd.
  { exists visited. split; [done|set_solver]. }
  apply Forall_cons in Hr as [Hp Hr]. inversion Ho as [|? ? Hpq Ho']; subst.
  assert (regions (p :: T) = p_Region p ∪ regions T) as E by done. rewrite E in Ha, Hs, Hd |- *.
  assert (p_Region p ## regions T) as Hdis.
  { intros t Ht (q & Hq & Htq)%elem_of_regions. rewrite Forall_forall in Hpq. by apply (Hpq q Hq t). }
  destruct (Hp L' fuel visited) as (visited1 & E1 & Hv1).
  { eapply agree_mono; [|done]. set_solver. }
  { eapply Nat.le_lt_trans; [|done]. apply subseteq_size. set_solver. }
  { set_solver. }
  destruct (IH visited1) as (visited2 & E2 & Hv2); [done| | | |].
  { eapply agree_mono; [|done]. set_solver. }
  { eapply Nat.le_lt_trans; [|done]. apply subseteq_size. set_solver. }
  { set_solver. }
  exists visited2. split; [|set_solver]. rewrite !fmap_cons. cbn [traverse].
  unfold bind at 1. rewrite (Hf _ _ _ E1). unfold bind. by rewrite E2.
Qed.

Lemma arrayValues_sequence i values : arrayValues i (sequence i values) = Ok values.
Proof. revert i. induction values as [|x values IH]; intros i; simpl; [done|]. by rewrite decide_True, IH. Qed.

Lemma marshal_array fuel L t values visited :
  values <> [] -> tableItems L t = sequence 1 values -> t ∉ visited ->
  MarshalJSON (S fuel) L (LTable t) visited =
  (vs <- traverse (MarshalJSON fuel L) values ;; ret (GoSlice vs)) ({[t]} ∪ visited).
Proof.
  intros Hne Hitems Ht. cbn [MarshalJSON]. unfold bind at 1. unfold get. rewrite decide_False by done.
  rewrite Hitems. unfold bind at 1. unfold put. pose proof (arrayValues_sequence 1 values) as E.
  destruct values as [|x values]; [done|]. cbn [sequence] in E |- *.
  unfold bind at 1. unfold lift. by rewrite E.
Qed.

Definition item (p : Part) : LValue * LValue := (LString (p_Key p), p_Value p).
Definition keyed (p : Part) : string * LValue := (p_Key p, p_Value p).
Definition jsonKeyed (p : Part) : string * GoValue := (p_Key p, p_Json p).

Lemma objectValues_items (T : list Part) : objectValues (item <$> T) = Ok (keyed <$> T).
Proof. induction T as [|p T IH]; [done|]. rewrite !fmap_cons. cbn [objectValues item]. by rewrite IH. Qed.

Lemma marshal_object fuel L t T visited :
  T <> [] -> tableItems L t = item <$> T -> t ∉ visited ->
  MarshalJSON (S fuel) L (LTable t) visited =
  (vs <- traverse (fun kv => v <- MarshalJSON fuel L kv.2 ;; ret (kv.1, v)) (merge_sort keyLe (keyed <$> T)) ;;
   ret (GoMap vs)) ({[t]} ∪ visited).
Proof.
  intros Hne Hitems Ht. cbn [MarshalJSON]. unfold bind at 1. unfold get. rewrite decide_False by done.
  rewrite Hitems. unfold bind at 1. unfold put. pose proof (objectValues_items T) as E.
  destruct T as [|p T]; [done|]. rewrite fmap_cons in E |- *.
  change (item p) with (LString (p_Key p), p_Value p) in E |- *. cbv beta iota.
  unfold bind at 1. unfold lift. by rewrite E.
Qed.

(** The region of a table. *)
Lemma reads_array L t T :
  partsOk L T -> t ∉ regions T -> T <> [] -> tableItems L t = sequence 1 (p_Value <$> T) ->
  reads L ({[t]} ∪ regions T) (LTable t) (GoSlice (p_Json <$> T)).
Proof.
  intros Hok Ht Hne Hitems L' fuel visited Ha Hs Hd. destruct fuel as [|fuel]; [lia|].
  rewrite (marshal_array fuel L' t (p_Value <$> T)); [|by destruct T| |set_solver].
  2: { by rewrite (Ha t) by set_solver. }
  rewrite size_union, size_singleton in Hs by set_solver.
  destruct (traverse_parts (MarshalJSON fuel L') p_Value p_Json L L' fuel T ({[t]} ∪ visited))
    as (visited' & E & Hv); [done|done|by eapply agree_mono; [|done]; set_solver|lia|set_solver|].
  exists visited'. split; [|set_solver]. unfold bind. by rewrite E.
Qed.

Lemma sorted_jsonKeyed T : StronglySorted keyLe (keyed <$> T) -> StronglySorted keyLe (jsonKeyed <$> T).
Proof.
  induction T as [|p T IH]; [constructor|]. rewrite !fmap_cons.
  intros [Hss Hp]%StronglySorted_inv. constructor; [by apply IH|].
  apply list.Forall_fmap. exact (proj1 (list.Forall_fmap keyed (keyLe (keyed p)) T) Hp).
Qed.

Lemma reads_object L t T :
  partsOk L T -> t ∉ regions T -> T <> [] -> NoDup (p_Key <$> T) -> tableItems L t ≡ₚ item <$> T ->
  reads L ({[t]} ∪ regions T) (LTable t) (GoMap (merge_sort keyLe (jsonKeyed <$> T))).
Proof.
  intros Hok Ht Hne Hkeys Hitems L' fuel visited Ha Hs Hd. destruct fuel as [|fuel]; [lia|].
  apply Permutation_map_inv in Hitems as (T1 & Hitems & E1).
  assert (merge_sort keyLe (keyed <$> T1) ≡ₚ keyed <$> T1) as Hsort by apply merge_sort_Permutation.
  apply Permutation_map_inv in Hsort as (T2 & Hsort & E2).
  assert (T ≡ₚ T2) as E by by rewrite E1.
  assert (merge_sort keyLe (jsonKeyed <$> T) = jsonKeyed <$> T2) as ->.
  { symmetry. apply merge_sort_by_key.
    - rewrite <- list_fmap_compose. by rewrite <- E.
    - by rewrite E.
    - assert (StronglySorted keyLe (merge_sort keyLe (keyed <$> T1))) as Hss
        by (apply StronglySorted_merge_sort; apply _).
      rewrite Hsort in Hss. change (map keyed T2) with (keyed <$> T2) in Hss. by apply sorted_jsonKeyed. }
  rewrite (marshal_object fuel L' t T1); [|intros ->; by apply Permutation_nil_r in E1| |set_solver].
  2: { by rewrite (Ha t) by set_solver. }
  rewrite size_union, size_singleton in Hs by set_solver. rewrite Hsort. rewrite !(regions_perm _ _ E) in *.
  destruct (traverse_parts (fun kv => v <- MarshalJSON fuel L' kv.2 ;; ret (kv.1, v)) keyed jsonKeyed
              L L' fuel T2 ({[t]} ∪ visited)) as (visited' & Et & Hv).
  { intros p v v' Ep. unfold bind, ret. simpl. by rewrite Ep. }
  { by eapply parts_perm. }
  { eapply agree_mono; [|done]. set_solver. }
  { lia. }
  { set_solver. }
  exists visited'. split; [|set_solver]. unfold bind at 1. change (map keyed T2) with (keyed <$> T2). by rewrite Et.
Qed.
End reads.

(** ** What the decoder writes *)

Section writes.
Context `{LuaTablesLaws}.

Lemma reads_mono L (S S' : gset TableId) x g : S ⊆ S' -> reads L S x g -> reads L S' x g.
Proof.
  intros HS Hr L' fuel visited Ha Hs Hd. destruct (Hr L' fuel visited) as (visited' & E & Hv).
  - by eapply agree_mono.
  - apply subseteq_size in HS. lia.
  - set_solver.
  - exists visited'. split; [done|set_solver].
Qed.

(** The decoded value, the new tables it is made of, and what the encoder makes of it. *)
Definition decoded (v : GoValue) : Prop := forall L x L', decodeValue v L = (x, L') ->
  exists S, S ## tables L /\ tables L' = S ∪ tables L /\ agree (tables L) L L'
    /\ reads L' S x (jsonOf v) /\ (x = LNil <-> luaNil v = true).

Definition memberOf (kv : string * GoValue) : option (string * GoValue) :=
  if luaNil kv.2 then None else Some (kv.1, jsonOf kv.2).

Lemma decoded_scalar v x :
  (forall L, decodeValue v L = (x, L)) -> (x = LNil <-> luaNil v = true) ->
  (forall fuel L visited, MarshalJSON fuel L x visited = (Ok (jsonOf v), visited)) -> decoded v.
Proof.
  intros Hd Hnil Hm L x' L' E. rewrite Hd in E. injection E as <- <-. exists ∅.
  split; [set_solver|]. split; [set_solver|]. split; [done|]. split; [|done].
  intros L'' fuel visited _ _ _. exists visited. split; [apply Hm|set_solver].
Qed.

(** The loops that fill a table. *)
Section fill.
Variables (t : TableId) (add : string -> LValue -> LuaState -> LuaState).
Variables (holds : list (LValue * LValue) -> list Part -> Prop) (allowed : list string -> Prop).
Hypothesis add_tables : forall k x L, tables (add k x L) = tables L.
Hypothesis add_frame : forall k x L t', t <> t' -> tableItems (add k x L) t' = tableItems L t'.
Hypothesis add_items : forall k x L T S g rest, t ∈ tables L -> holds (tableItems L t) T -> allowed ((p_Key <$> T) ++ k :: rest) ->
  holds (tableItems (add k x L) t) (T ++ if decide (x = LNil) then [] else [mkPart k S x g]).
Hypothesis allowed_skip : forall l1 k l2, allowed (l1 ++ k :: l2) -> allowed (l1 ++ l2).

Fixpoint fill (members : list (string * GoValue)) (L : LuaState) : LuaState :=
  match members with
  | [] => L
  | (key, item) :: rest => let '(x, L) := decodeValue item L in fill rest (add key x L)
  end.

Record filled (L : LuaState) (T : list Part) : Prop := {
  filled_table : t ∈ tables L;
  filled_apart : t ∉ regions T;
  filled_regions : regions T ⊆ tables L;
  filled_parts : partsOk L T;
  filled_holds : holds (tableItems L t) T
}.

Lemma regions_app T T' : regions (T ++ T') = regions T ∪ regions T'.
Proof. unfold regions. by rewrite fmap_app, union_list_app_L. Qed.

Lemma regions_one p : regions [p] = p_Region p.
Proof. unfold regions. simpl. set_solver. Qed.

(** One member more. *)
Lemma filled_add L T k v rest x L1 :
  filled L T -> decoded v -> allowed ((p_Key <$> T) ++ k :: rest) -> decodeValue v L = (x, L1) ->
  exists S T', S ## tables L /\ tables (add k x L1) = S ∪ tables L
    /\ agree (tables L ∖ {[t]}) L (add k x L1) /\ regions T' ⊆ S
    /\ filled (add k x L1) (T ++ T') /\ jsonKeyed <$> T' = omap memberOf [(k, v)]
    /\ allowed ((p_Key <$> T ++ T') ++ rest).
Proof.
  intros [Ht Hta Hr [Hp Ho] Hh] Hv Hk E. destruct (Hv _ _ _ E) as (S & HS & Htab & Ha & Hx & Hnil).
  exists S, (if decide (x = LNil) then [] else [mkPart k S x (jsonOf v)]).
  set (T' := if decide (x = LNil) then [] else [mkPart k S x (jsonOf v)]).
  assert (regions T' ⊆ S) as HT' by (unfold T'; destruct (decide _); [apply empty_subseteq|by rewrite regions_one]).
  assert (agree (tables L ∖ {[t]}) L (add k x L1)) as Hag.
  { intros t' Ht'. rewrite add_frame by set_solver + Ht'. apply Ha. set_solver + Ht'. }
  split; [done|]. split; [by rewrite add_tables|]. split; [done|]. split; [done|]. split; [|split].
  - split.
    + rewrite add_tables, Htab. set_solver + Ht.
    + rewrite regions_app. set_solver + Ht Hta HS HT'.
    + rewrite regions_app, add_tables, Htab. set_solver + Hr HT'.
    + assert (partsOk (add k x L1) T) as [Hp' _].
      { apply (parts_agree L); [|done]. eapply agree_mono; [|done]. set_solver + Hr Hta. }
      unfold T'. destruct (decide _) as [|Hx']; [by rewrite app_nil_r|]. split.
      * apply Forall_app. split; [done|]. apply Forall_singleton. simpl. eapply reads_agree; [|done].
        intros t' Ht'. apply add_frame. set_solver + Ht' Ht HS.
      * apply pairs_snoc; [|done]. apply Forall_forall. intros q Hq. unfold apart. simpl.
        assert (p_Region q ⊆ regions T) as Hq' by (intros t' ?; apply elem_of_regions; by exists q). set_solver + Hq' Hr HS.
    + apply (add_items _ _ _ _ _ _ rest); [rewrite Htab; set_solver + Ht| |done]. by rewrite (Ha t).
  - unfold T'. simpl. unfold memberOf. simpl. destruct (decide _) as [Hx'|Hx'].
    + by rewrite (proj1 Hnil Hx').
    + destruct (luaNil v); [by destruct Hx'; apply Hnil|done].
  - unfold T'. destruct (decide _) as [|]; [rewrite app_nil_r; by eapply allowed_skip|].
    rewrite fmap_app, <- app_assoc. done.
Qed.

Lemma fill_filled members L T :
  Forall (fun kv => decoded kv.2) members -> filled L T -> allowed ((p_Key <$> T) ++ members.*1) ->
  exists S T', S ## tables L /\ tables (fill members L) = S ∪ tables L
    /\ agree (tables L ∖ {[t]}) L (fill members L) /\ regions T' ⊆ S
    /\ filled (fill members L) (T ++ T') /\ jsonKeyed <$> T' = omap memberOf members.
Proof.
  intros Hd. revert L T. induction Hd as [|[k v] rest Hv _ IH]; intros L T Hf Hk.
  { exists ∅, []. simpl. rewrite app_nil_r. split; [apply disjoint_empty_l|]. split; [by rewrite (left_id_L ∅ (∪))|]. done. }
  simpl. destruct (decodeValue v L) as [x L1] eqn:E.
  destruct (filled_add L T k v rest.*1 x L1) as (S1 & T1 & HS1 & Htab1 & Ha1 & HT1 & Hf1 & Hj1 & Hk1); try done.
  destruct (IH _ _ Hf1 Hk1) as (S2 & T2 & HS2 & Htab2 & Ha2 & HT2 & Hf2 & Hj2).
  exists (S1 ∪ S2), (T1 ++ T2). rewrite regions_app, app_assoc. rewrite Htab1 in *.
  split; [set_solver + HS1 HS2|]. split; [rewrite Htab2; set_solver +|]. split; [|split; [set_solver + HT1 HT2|]].
  - eapply agree_trans; [done|]. eapply agree_mono; [|done]. set_solver +.
  - split; [done|]. rewrite fmap_app, Hj1, Hj2. by rewrite <- omap_app.
Qed.
End fill.

(** A new table, filled. *)
Lemma table_filled L (add : string -> LValue -> LuaState -> LuaState)
    (holds : list (LValue * LValue) -> list Part -> Prop) (allowed : list string -> Prop) members :
  let t := (CreateTable L).1 in
  (forall k x L, tables (add k x L) = tables L) ->
  (forall k x L t', t <> t' -> tableItems (add k x L) t' = tableItems L t') ->
  (forall k x L T S g rest, t ∈ tables L -> holds (tableItems L t) T -> allowed ((p_Key <$> T) ++ k :: rest) ->
     holds (tableItems (add k x L) t) (T ++ if decide (x = LNil) then [] else [mkPart k S x g])) ->
  (forall l1 k l2, allowed (l1 ++ k :: l2) -> allowed (l1 ++ l2)) ->
  holds [] [] -> allowed members.*1 -> Forall (fun kv => decoded kv.2) members ->
  let L' := fill add members (CreateTable L).2 in
  exists S T, S ## tables L /\ tables L' = S ∪ tables L /\ agree (tables L) L L'
    /\ t ∉ regions T /\ {[t]} ∪ regions T ⊆ S /\ partsOk L' T /\ holds (tableItems L' t) T
    /\ jsonKeyed <$> T = omap memberOf members.
Proof.
  intros t Htab Hframe Hitems Hskip Hnil Hall Hd L'.
  pose proof (create_fresh L) as Hfresh. pose proof (create_tables L) as Htables.
  assert (filled t holds (CreateTable L).2 []) as Hf.
  { split; [rewrite Htables; set_solver +|apply not_elem_of_empty|apply empty_subseteq|by repeat constructor|].
    unfold t. by rewrite create_items. }
  destruct (fill_filled t add holds allowed Htab Hframe Hitems Hskip members _ [] Hd Hf Hall)
    as (S & T & HS & Htab' & Ha & HT & [_ Hta _ Hp Hh] & Hj).
  rewrite Htables in HS, Htab', Ha. fold t in Hfresh, HS, Htab', Ha. subst L'. exists ({[t]} ∪ S), T.
  split; [set_solver + Hfresh HS|]. split; [rewrite Htab'; set_solver +|].
  split; [|split; [done|split; [set_solver + HT|done]]].
  intros t' Ht'. rewrite (Ha t') by set_solver + Ht' Hfresh. by apply create_frame.
Qed.

Lemma reads_empty L t S : t ∈ S -> tableItems L t = [] -> reads L S (LTable t) GoNil.
Proof.
  intros Ht Hitems L' fuel visited Ha Hs Hd. destruct fuel as [|fuel]; [lia|].
  exists ({[t]} ∪ visited). split; [|set_solver + Ht]. cbn [MarshalJSON]. unfold bind, get, put, ret.
  rewrite decide_False by set_solver + Ht Hd. by rewrite (Ha t Ht), Hitems.
Qed.

Lemma appendAll_fill arr items L :
  appendAll luaScalar arr items L = fill (fun _ x => Append arr x) (pair "" <$> items) L.
Proof.
  revert L. induction items as [|v items IH]; intros L; [done|]. rewrite fmap_cons. simpl.
  change (decodeValue v L) with (decodeWith luaScalar v L). destruct (decodeWith luaScalar v L). apply IH.
Qed.

Lemma setAll_fill tbl members L :
  setAll luaScalar tbl members L = fill (fun k => RawSetH tbl (LString k)) members L.
Proof.
  revert L. induction members as [|[k v] members IH]; intros L; [done|]. simpl.
  change (decodeValue v L) with (decodeWith luaScalar v L). destruct (decodeWith luaScalar v L). apply IH.
Qed.

Lemma decoded_slice items : Forall decoded items -> decoded (GoSlice items).
Proof.
  intros Hd L x L'. unfold decodeValue. rewrite decodeWith_slice, appendAll_fill. intros [= <- <-].
  destruct (table_filled L (fun _ x => Append (CreateTable L).1 x)
    (fun l T => l = sequence 1 (p_Value <$> T)) (fun _ => True) (pair ""%string <$> items))
    as (S & T & HS & Htab & Ha & Ht & HT & Hp & Hh & Hj); try done.
  { intros. apply append_tables. }
  { intros. by apply append_frame. }
  { intros k x L1 T S g _ Ht Hl _. rewrite (append_items _ _ _ _ Ht Hl), fmap_app. by destruct (decide _). }
  { by apply list.Forall_fmap. }
  exists S. split; [done|]. split; [done|]. split; [done|]. split; [|done].
  assert (p_Json <$> T = omap (fun item => if luaNil item then None else Some (jsonOf item)) items) as Ej.
  { transitivity (snd <$> (jsonKeyed <$> T)); [by rewrite <- list_fmap_compose|]. rewrite Hj. clear.
    induction items as [|v items IH]; [done|]. rewrite fmap_cons. simpl. unfold memberOf at 1. simpl.
    destruct (luaNil v); [done|]. simpl. by f_equal. }
  simpl. rewrite <- Ej. destruct T as [|p T]; [apply reads_empty; [set_solver + HT|done]|].
  eapply reads_mono; [done|]. by apply reads_array.
Qed.

Lemma omap_keys members : (omap memberOf members).*1 `sublist_of` members.*1.
Proof.
  induction members as [|[k v] members IH]; [done|]. rewrite fmap_cons. simpl. unfold memberOf at 1. simpl.
  destruct (luaNil v); [by constructor|]. rewrite fmap_cons. by constructor.
Qed.

Lemma decoded_map members :
  NoDup members.*1 -> Forall (fun kv => decoded kv.2) members -> decoded (GoMap members).
Proof.
  intros Hk Hd L x L'. unfold decodeValue. rewrite decodeWith_map, setAll_fill. intros [= <- <-].
  destruct (table_filled L (fun k => RawSetH (CreateTable L).1 (LString k))
    (fun l T => l ≡ₚ item <$> T) NoDup members) as (S & T & HS & Htab & Ha & Ht & HT & Hp & Hh & Hj); try done.
  { intros. apply rawset_tables. }
  { intros. by apply rawset_frame. }
  { intros k x L1 T S g rest Ht Hl Hnd. rewrite rawset_items; [|done|].
    - rewrite Hl, fmap_app. by destruct (decide _).
    - rewrite Hl, <- list_fmap_compose. intros (p & [= ->] & Hin)%list_elem_of_fmap.
      apply NoDup_app in Hnd as (_ & Hno & _). apply (Hno (p_Key p)); [|by left].
      apply list_elem_of_fmap. by exists p. }
  { intros l1 k l2. rewrite !NoDup_app, NoDup_cons. set_solver +. }
  exists S. split; [done|]. split; [done|]. split; [done|]. split; [|done].
  change (jsonOf (GoMap members)) with (match omap memberOf members with
    [] => GoNil | l => GoMap (merge_sort keyLe l) end).
  assert (NoDup (p_Key <$> T)) as Hnd.
  { replace (p_Key <$> T) with (fst <$> (jsonKeyed <$> T)) by (by rewrite <- list_fmap_compose).
    rewrite Hj. eapply sublist_NoDup; [exact Hk|apply omap_keys]. }
  rewrite <- Hj. destruct T as [|p T]; [apply reads_empty; [set_solver + HT|by apply Permutation_nil_r]|].
  eapply reads_mono; [done|]. by apply reads_object.
Qed.

Lemma encodable_decoded v : encodable v -> decoded v.
Proof.
  induction v using GoValue_members_ind; inversion 1; subst; simpl in *.
  all: try (eapply decoded_scalar; [done|done|]; intros [] ? ?; simpl; by repeat case_match).
  - apply decoded_slice. rewrite Forall_forall in *. eauto.
  - apply decoded_map; [done|]. rewrite Forall_forall in *. eauto.
Qed.

(** An encoding that reads tables of the interpreter only. *)
Lemma reads_Encode L S x g : S ⊆ tables L -> reads L S x g -> Encode L x = Ok g.
Proof.
  intros HS Hr. unfold Encode.
  destruct (Hr L (Datatypes.S (size (tables L))) ∅) as (visited' & E & _); [done| |set_solver +|by rewrite E].
  pose proof (subseteq_size S (tables L) HS). lia.
Qed.

(** What [encoding/json] reads has no integers of its own, so that both decoders agree. *)
Inductive parsed : GoValue -> Prop :=
  | parsed_nil : parsed GoNil
  | parsed_bool b : parsed (GoBool b)
  | parsed_float f : parsed (GoFloat f)
  | parsed_string s : parsed (GoString s)
  | parsed_slice items : Forall parsed items -> parsed (GoSlice items)
  | parsed_map members : Forall (fun kv => parsed kv.2) members -> parsed (GoMap members).

Lemma DecodeValue_parsed v : parsed v -> forall L, DecodeValue v L = decodeValue v L.
Proof.
  unfold DecodeValue, decodeValue. induction v as [| | | | | |items IH|members IH|] using GoValue_members_ind;
    inversion 1 as [| | | |? Hs|? Hm]; subst; intros L; try done.
  - rewrite !decodeWith_slice. f_equal. generalize (CreateTable L).1 as arr. generalize (CreateTable L).2.
    induction IH as [|v items Hv _ IH]; intros L' arr; [done|]. inversion Hs; subst. simpl.
    rewrite Hv by done. destruct (decodeWith luaScalar v L'). apply IH; [by constructor|done].
  - rewrite !decodeWith_map. f_equal. generalize (CreateTable L).1 as tbl. generalize (CreateTable L).2.
    induction IH as [|[k v] members Hv _ IH]; intros L' tbl; [done|]. inversion Hm; subst. simpl in *.
    rewrite Hv by done. destruct (decodeWith luaScalar v L'). apply IH; [by constructor|done].
Qed.

(** A text that a script decodes and encodes again is written as [jsonOf] says. *)
Lemma jsonEncode_jsonDecode `{JsonText} `{ErrorText} `{!LuaLibrary} `{!LuaLibraryLaws} text v rest rest' L :
  parseJSON text = Some v -> parsed v -> encodable v ->
  exists value L', jsonDecode (LString text :: rest) L = Ok ([value], L')
  /\ jsonEncode (value :: rest') L' = Ok ([LString (DumpJSON (jsonOf v))], L').
Proof.
  intros Htext Hp Hv. destruct (decodeValue v L) as [value L'] eqn:E.
  destruct (encodable_decoded v Hv L value L' E) as (S & HS & Htab & _ & Hr & _).
  exists value, L'. unfold jsonDecode, jsonEncode, json_Decode.
  rewrite check_string, check_any. simpl. rewrite Htext, DecodeValue_parsed, E by done. split; [done|].
  rewrite (reads_Encode L' S value (jsonOf v)); [done|rewrite Htab; set_solver +|done].
Qed.

(** C20. The script that returns its object: the JSON of a decoded value is the value with
    its maps ordered by key and its integers as floats, but members that are nil are
    dropped, and what is then empty, at any depth, is null. *)
Theorem Encode_decodeValue (v : GoValue) (y : LValue) (L L' : LuaState)
    (Hv : encodable v) (Hdecode : decodeValue v L = (y, L')) :
  Encode L' y = Ok (jsonOf v).
Proof.
  destruct (encodable_decoded v Hv L y L' Hdecode) as (S & HS & Htab & _ & Hr & _).
  apply (reads_Encode L' S); [rewrite Htab; set_solver +|done].
Qed.
End writes.

(** ** Termination *)

Section terminates.
Context `{LuaTables}.
Variable L : LuaState.

(** A value whose table, if it is one, exists. *)
Definition live (x : LValue) : Prop :=
  match x with LTable t => t ∈ tables L | _ => True end.

Hypothesis closed : forall t, t ∈ tables L -> Forall (fun kv => live kv.2) (tableItems L t).

(** An encoding that ends, having only visited more. *)
Definition ends {A} (visited : gset TableId) (r : res A * gset TableId) : Prop :=
  r.1 <> Panic /\ visited ⊆ r.2.

Lemma traverse_ends {A B} (f : A -> M (gset TableId) B) l visited :
  (forall x visited', x ∈ l -> visited ⊆ visited' -> ends visited' (f x visited')) ->
  ends visited (traverse f l visited).
Proof.
  revert visited. induction l as [|x l IH]; intros visited Hf; simpl; [done|].
  unfold bind. destruct (Hf x visited) as [Hp Hv]; [by left|done|].
  destruct (f x visited) as [[y|e|] visited1]; [|done|by destruct Hp].
  destruct (IH visited1) as [Hp' Hv'].
  { intros z visited' Hz Hs. apply Hf; [by right|]. set_solver + Hv Hs. }
  destruct (traverse f l visited1) as [[ys|e|] visited2]; unfold ends; simpl in *;
    [|split; [done|set_solver + Hv Hv']|done]. split; [done|set_solver + Hv Hv'].
Qed.

Lemma arrayValues_live i items : Forall (fun kv => live kv.2) items ->
  match arrayValues i items with Ok values => Forall live values | Err _ => True | Panic => False end.
Proof.
  intros Hl. revert i. induction Hl as [|[k x] items Hx _ IH]; intros i; simpl; [done|].
  destruct k; try done. destruct (decide _); [|done]. specialize (IH (i + 1)).
  destruct (arrayValues (i + 1) items); simpl; [|done|done]. by constructor.
Qed.

Lemma objectValues_live items : Forall (fun kv => live kv.2) items ->
  match objectValues items with Ok obj => Forall (fun kv => live kv.2) obj | Err _ => True | Panic => False end.
Proof.
  induction 1 as [|[k x] items Hx _ IH]; simpl; [done|]. destruct k; try done.
  destruct (objectValues items); simpl; [|done|done]. by constructor.
Qed.

Lemma ends_bind {A B} visited (r : res A) (k : A -> M (gset TableId) B) visited' :
  visited ⊆ visited' -> r <> Panic -> (forall a, r = Ok a -> ends visited (k a visited')) ->
  ends visited ((x <- lift r ;; k x) visited').
Proof. intros Hs Hr Hk. unfold bind, lift. destruct r; [by apply Hk|done|by destruct Hr]. Qed.

Lemma ends_map {A B} visited visited' (m : M (gset TableId) A) (f : A -> B) :
  visited ⊆ visited' -> ends visited' (m visited') -> ends visited ((x <- m ;; ret (f x)) visited').
Proof.
  intros Hs [Hp Hv]. unfold bind, ret, ends. destruct (m visited') as [[a|e|] v]; simpl in *;
    [|split; [done|set_solver + Hs Hv]|done]. split; [done|set_solver + Hs Hv].
Qed.

Lemma MarshalJSON_ends fuel x visited :
  live x -> (size (tables L ∖ visited) < fuel)%nat -> ends visited (MarshalJSON fuel L x visited).
Proof.
  revert x visited. induction fuel as [|fuel IH]; intros x visited Hx Hf; [lia|].
  destruct x as [|b|n|s|t|ty]; cbn [MarshalJSON]; try done; [by destruct (isFinite n)|].
  unfold bind at 1, get. destruct (decide (t ∈ visited)) as [|Ht]; [done|]. unfold bind at 1, put.
  simpl in Hx. pose proof (closed t Hx) as Hitems.
  assert (forall v, {[t]} ∪ visited ⊆ v -> size (tables L ∖ v) < fuel)%nat as Hless.
  { intros v Hv. eapply Nat.lt_le_trans; [|by apply Nat.lt_succ_r, Hf]. apply subset_size.
    split; [set_solver + Hv|]. intros Hsub. specialize (Hsub t). set_solver + Hsub Hx Ht Hv. }
  assert (visited ⊆ {[t]} ∪ visited) as Hsub by set_solver +.
  destruct (tableItems L t) as [|[k v] items] eqn:Ei; [done|]. destruct k; try done.
  - pose proof (arrayValues_live 1 _ Hitems) as Hl. apply ends_bind; [done| |].
    { intros E. by rewrite E in Hl. }
    intros values E. rewrite E in Hl. apply ends_map; [done|]. apply traverse_ends.
    intros y v' Hy Hv'. rewrite Forall_forall in Hl. apply IH; auto.
  - pose proof (objectValues_live _ Hitems) as Hl. apply ends_bind; [done| |].
    { intros E. by rewrite E in Hl. }
    intros obj E. rewrite E in Hl. apply ends_map; [done|]. apply traverse_ends.
    intros kv v' Hkv Hv'. apply ends_map; [done|]. rewrite Forall_forall in Hl. apply IH; [|auto].
    apply Hl. by rewrite merge_sort_Permutation in Hkv.
Qed.

(** C21. The encoder terminates on every value of a script, cycles included: the fuel, the
    number of its tables and one, is never used up. *)
Theorem Encode_terminates (x : LValue) (Hx : live x) : Encode L x <> Panic.
Proof.
  apply (MarshalJSON_ends (S (size (tables L))) x ∅); [done|].
  assert (size (tables L ∖ ∅) <= size (tables L))%nat; [|lia]. apply subseteq_size. set_solver +.
Qed.
End terminates.
