(* ===== verification/IngressProvider.v ===== *)
(** * The Ingress provider (pkg/trafficrouting/network/ingress/ingress.go)

    A canary Ingress beside the stable one, whose annotations a Lua script computes.  The
    interpreter is a parameter, as are the script files that are read at start-up. *)

From S2P Require Export GatewayProvider Workloads LuaJson.

(** ** The Ingress *)

Record IngressServiceBackend := mkServiceBackend { isb_Name : string; isb_Port : string }.

(** The path type is in [hip_Rest]; a backend that is no Service has none here. *)
Record HTTPIngressPath := mkIngressPath {
  hip_Path : string;
  hip_Rest : string;
  hip_Service : option IngressServiceBackend
}.
Record IngressRule := mkIngressRule {
  irl_Host : string;
  irl_HTTP : option (list HTTPIngressPath)
}.
Record IngressObject := mkIngress {
  ing_Meta : ObjectMeta;
  ing_ClassName : option string;
  ing_TLS : string;
  ing_Rules : list IngressRule
}.
#[export] Instance eta_IngressObject : Eta IngressObject := fun x =>
  mkIngress (ing_Meta x) (ing_ClassName x) (ing_TLS x) (ing_Rules x).
#[export] Instance IngressObject_object : KubeObject IngressObject :=
  {| metaOf := ing_Meta; withMeta m r := r <| ing_Meta := m |> |}.

(** ** Scripts (pkg/util/configuration, pkg/util/lua_configuration.go) *)

Record ConfigMap := mkConfigMap { cm_Meta : ObjectMeta; cm_Data : gmap string string }.

(** The files of [lua_configuration]; an absent one reads as empty. *)
Class LuaFiles := GetLuaConfigurationContent : string -> string.

(** What [filepath.Walk] comes to, in its order; an error in the walk, or of a file that
    cannot be read, ends it. *)
Inductive WalkEntry :=
  | WalkError (err : goerror)
  | WalkDir
  | WalkFile (content : res string).

Fixpoint luaConfigurationList (walk : list (string * WalkEntry)) (read : gmap string string) : gmap string string :=
  match walk with
  | [] => read
  | (path, entry) :: rest =>
      match entry with
      | WalkDir => luaConfigurationList rest read
      | WalkFile (Ok data) => luaConfigurationList rest (<[path := data]> read)
      | WalkError _ | WalkFile _ => read
      end
  end.
Definition walkedLuaFiles (walk : list (string * WalkEntry)) : LuaFiles := fun key =>
  default ""%string (luaConfigurationList walk ∅ !! key).

(** The namespace of the controller, from its environment. *)
Class RolloutNamespace := GetRolloutNamespace : string.

Definition RolloutConfigurationName : string := "kruise-rollout-configuration".
Definition LuaTrafficRoutingIngressTypePrefix : string := "lua.traffic.routing.ingress".

Definition getRolloutConfiguration {W} `{Api W ConfigMap} `{RolloutNamespace} : M W (gmap string string) :=
  r <- catch (api_Get (O := ConfigMap) (GetRolloutNamespace, RolloutConfigurationName)) ;;
  match r with
  | inl cfg => ret (cm_Data cfg)
  | inr err => if IsNotFound err then ret ∅ else fail err
  end.

(** Empty when there is none. *)
Definition GetTrafficRoutingIngressLuaScript {W} `{Api W ConfigMap} `{RolloutNamespace} (iType : string)
    : M W string :=
  data <- getRolloutConfiguration ;;
  ret (mapget data (LuaTrafficRoutingIngressTypePrefix +:+ "." +:+ iType)%string).

(** ** The canary Ingress *)

Definition defaultCanaryIngressName (name : string) : string := (name +:+ "-canary")%string.

(** The paths of a rule that lead to the stable Service, now to the canary Service. *)
Fixpoint canaryPaths (canaryService stableService : string) (paths : list HTTPIngressPath)
    : res (list HTTPIngressPath) :=
  match paths with
  | [] => Ok []
  | path :: rest =>
      res_bind (deref (hip_Service path)) (fun service =>
      res_map (fun others =>
        if String.eqb (isb_Name service) stableService
        then mkIngressPath (hip_Path path) (hip_Rest path)
               (Some (mkServiceBackend canaryService (isb_Port service))) :: others
        else others) (canaryPaths canaryService stableService rest))
  end.

(** Rules without such a path are left out; one without [http] panics. *)
Fixpoint canaryRules (canaryService stableService : string) (rules : list IngressRule) : res (list IngressRule) :=
  match rules with
  | [] => Ok []
  | rule :: rest =>
      res_bind (deref (irl_HTTP rule)) (fun paths =>
      res_bind (canaryPaths canaryService stableService paths) (fun paths =>
      res_map (fun others =>
        match paths with
        | [] => others
        | _ => mkIngressRule (irl_Host rule) (Some paths) :: others
        end) (canaryRules canaryService stableService rest)))
  end.

(** What the script is given. *)
Record IngressLuaData := mkIngressLuaData {
  ild_Annotations : option (gmap string string);
  ild_Weight : string;
  ild_Matches : list HttpRouteMatch;
  ild_CanaryService : string;
  ild_RequestHeaderModifier : option HTTPHeaderFilter
}.
(** The fields that the merge patch between two maps of annotations sets. *)
Definition annotationsPatch (old new : option (gmap string string)) : list Field :=
  let new := default ∅ new in
  if decide (new = ∅) then
    if decide (default ∅ old = ∅) then [] else [(["metadata"; "annotations"]%string, VNull)] else
  (map (fun kv => annotationField (fst kv) VNull)
     (map_to_list (filter (fun kv => new !! kv.1 = None) (default ∅ old)))
   ++ map (fun kv => annotationField (fst kv) (VString (snd kv)))
        (map_to_list (filter (fun kv => default ∅ old !! kv.1 <> Some kv.2) new)))%list.

Section ingress.
Context {W : Type} `{Api W IngressObject} `{Api W ConfigMap} `{K8sLib} `{LuaFiles} `{RolloutNamespace}
  `{LuaInterpreter} `{Unstructurable IngressLuaData}.
Variable conf : ProviderConfig.
Variable TrafficConf : IngressTrafficRouting.

Definition getTrafficRoutingIngressLuaScript (iType : string) : M W string :=
  let iType := if String.eqb iType "" then "nginx"%string else iType in
  luaScript <- GetTrafficRoutingIngressLuaScript iType ;;
  if negb (String.eqb luaScript "") then ret luaScript else
  let script := GetLuaConfigurationContent ("lua_configuration/trafficrouting_ingress/" +:+ iType +:+ ".lua")%string in
  if String.eqb script "" then fail (ErrOther (iType +:+ " lua script is not found")%string) else ret script.

(** [r.luaScript], read when the provider is made. *)
Section script.
Variable luaScript : string.

Definition ingress_Initialize : M W unit :=
  api_Get (O := IngressObject) (pc_Namespace conf, IngressName TrafficConf) ;; ret tt.

Definition buildCanaryIngress (stableIngress : IngressObject) : res IngressObject :=
  res_map (fun rules =>
    mkIngress (emptyMeta <| Name := defaultCanaryIngressName (IngressName TrafficConf) |>
                 <| Namespace := Namespace (ing_Meta stableIngress) |>
                 <| Annotations := Annotations (ing_Meta stableIngress) |>
                 <| Labels := Labels (ing_Meta stableIngress) |>
                 <| OwnerReferences := [pc_OwnerRef conf] |>)
      (ing_ClassName stableIngress) (ing_TLS stableIngress) rules)
    (canaryRules (pc_CanaryService conf) (pc_StableService conf) (ing_Rules stableIngress)).

(** A weight that is not set is given as -1. *)
Definition ingress_executeLuaForCanary (annotations : option (gmap string string)) (weight : option Z)
    (matches : list HttpRouteMatch) (headerModifier : option HTTPHeaderFilter) : res (option (gmap string string)) :=
  res_bind (ToUnstructured (mkIngressLuaData annotations (itoa (default (-1) weight)) matches
                              (pc_CanaryService conf) headerModifier)) (fun unObj =>
  res_bind (tableOutput unObj luaScript) (fun json => orUnmarshalError (UnmarshalStringMap json (Some ∅)))).

Definition canaryIngressKey : ObjectKey := (pc_Namespace conf, defaultCanaryIngressName (IngressName TrafficConf)).

(** The canary Ingress is created without traffic; the next call sets the routes. *)
Definition createCanaryIngress : M W bool :=
  ingress <- api_Get (O := IngressObject) (pc_Namespace conf, IngressName TrafficConf) ;;
  canaryIngress <- lift (buildCanaryIngress ingress) ;;
  annotations <- lift (ingress_executeLuaForCanary (Annotations (ing_Meta canaryIngress)) (Some 0) [] None) ;;
  api_Create (canaryIngress <| ing_Meta := (ing_Meta canaryIngress) <| Annotations := annotations |> |>) ;;
  ret false.

Definition ingress_EnsureRoutes (strategy : TrafficRoutingStrategy) : M W (bool * option goerror) :=
  answering (
    let weight := trafficWeight strategy in
    r <- catch (api_Get (O := IngressObject) canaryIngressKey) ;;
    match r with
    | inr err =>
        if IsNotFound err then
          if decide (weight = Some 0) then ret true else createCanaryIngress
        else fail err
    | inl canaryIngress =>
        let annotations := Annotations (ing_Meta canaryIngress) in
        newAnnotations <- lift (ingress_executeLuaForCanary annotations weight (Matches strategy)
                                  (RequestHeaderModifier strategy)) ;;
        if decide (annotations = newAnnotations) then ret true else
        api_Patch (O := IngressObject) (ing_Meta canaryIngress)
          (PatchFields (annotationsPatch annotations newAnnotations)) ;;
        ret false
    end).

Definition ingress_Finalise : M W (bool * option goerror) :=
  answering (
    r <- catch (api_Get (O := IngressObject) canaryIngressKey) ;;
    match r with
    | inr err => if IsNotFound err then ret false else fail err
    | inl canaryIngress =>
        if deleting (ing_Meta canaryIngress) then ret false else
        api_Delete (O := IngressObject) (keyOf (ing_Meta canaryIngress)) ;; ret true
    end).
End script.

Definition ingressController : M W (NetworkProvider W) :=
  luaScript <- getTrafficRoutingIngressLuaScript (ClassType TrafficConf) ;;
  ret (mkProvider ingress_Initialize (ingress_EnsureRoutes luaScript) ingress_Finalise).
End ingress.
