(* ===== verification/CustomProvider.v ===== *)
(** * The provider for custom resources
    (pkg/trafficrouting/network/customNetworkProvider/custom_network_provider.go)

    The routing objects of any API group.  Their configuration is kept in an annotation,
    a Lua script makes the canary configuration of it, and finalising puts it back. *)

From Stdlib Require Import Ascii.
From S2P Require Export IngressProvider.

Definition OriginalSpecAnnotation : string := "rollouts.kruise.io/original-spec-configuration".
Definition LuaConfigMap : string := "kruise-rollout-configuration".
Definition LuaTrafficRoutingCustomTypePrefix : string := "lua.traffic.routing".

(** ** Objects *)

(** An object of the API server is found by its kind and its key. *)
Definition CustomRef : Type := string * string * ObjectKey.

(** [unstructured.Unstructured]: what the code reads and writes.  A spec that is absent
    is [GoNil], and annotations or labels that are absent are a nil map. *)
Record CustomObject := mkCustom {
  co_Ref : CustomRef;
  co_Annotations : option (gmap string string);
  co_Labels : option (gmap string string);
  co_Spec : GoValue;
  co_Rest : GoValue
}.
#[export] Instance eta_CustomObject : Eta CustomObject := fun x =>
  mkCustom (co_Ref x) (co_Annotations x) (co_Labels x) (co_Spec x) (co_Rest x).

Class CustomApi (W : Type) := {
  custom_Get : CustomRef -> M W CustomObject;
  (** The answer is the object as the server has it now. *)
  custom_Update : CustomObject -> M W CustomObject
}.

(** [obj.GetAnnotations()[OriginalSpecAnnotation]] *)
Definition originalSpec (obj : CustomObject) : option string :=
  default ∅ (co_Annotations obj) !! OriginalSpecAnnotation.

Record Data := mkData {
  Spec : GoValue;
  DataLabels : option (gmap string string);
  DataAnnotations : option (gmap string string)
}.

Record LuaData := mkLuaData {
  ld_Data : Data;
  ld_CanaryWeight : Z;
  ld_StableWeight : Z;
  ld_Matches : list HttpRouteMatch;
  ld_CanaryService : string;
  ld_StableService : string;
  ld_RequestHeaderModifier : option HTTPHeaderFilter
}.

(** ** Data as JSON *)

(** A map of strings; its members in the order of the keys, as they are written. *)
Definition mapValue (m : gmap string string) : GoValue :=
  GoMap (merge_sort keyLe ((fun kv => (kv.1, GoString kv.2)) <$> map_to_list m)).

(** [omitempty] *)
Definition mapMember (key : string) (m : option (gmap string string)) : list (string * GoValue) :=
  if decide (default ∅ m = ∅) then [] else [(key, mapValue (default ∅ m))].

Definition dataValue (d : Data) : GoValue :=
  GoMap ((if decide (Spec d = GoNil) then [] else [("spec"%string, Spec d)])
    ++ mapMember "labels" (DataLabels d) ++ mapMember "annotations" (DataAnnotations d)).

Definition DumpData `{JsonText} (d : Data) : string := DumpJSON (dataValue d).

(** [json.Unmarshal] into a [Data], member by member; names match whatever their case. *)
Definition setMember (d : Data) (kv : string * GoValue) : Data * bool :=
  let '(key, v) := kv in
  if EqualFold key "spec" then (mkData v (DataLabels d) (DataAnnotations d), true) else
  if EqualFold key "labels" then
    let '(m, ok) := UnmarshalStringMap v (DataLabels d) in (mkData (Spec d) m (DataAnnotations d), ok) else
  if EqualFold key "annotations" then
    let '(m, ok) := UnmarshalStringMap v (DataAnnotations d) in (mkData (Spec d) (DataLabels d) m, ok)
  else (d, true).

Fixpoint setMembers (d : Data) (members : list (string * GoValue)) : Data * bool :=
  match members with
  | [] => (d, true)
  | kv :: rest =>
      let '(d, ok) := setMember d kv in
      let '(d, ok') := setMembers d rest in (d, andb ok ok')
  end.

Definition UnmarshalData (v : GoValue) : Data * bool :=
  match v with
  | GoNil => (mkData GoNil None None, true)
  | GoMap members => setMembers (mkData GoNil None None) members
  | _ => (mkData GoNil None None, false)
  end.

(** From a text, without looking at the error. *)
Definition parseData `{JsonText} (text : string) : Data :=
  match parseJSON text with
  | Some v => fst (UnmarshalData v)
  | None => mkData GoNil None None
  end.

(** The text before the first slash. *)
Fixpoint beforeSlash (s : string) : string :=
  match s with
  | EmptyString => EmptyString
  | String c rest => if Ascii.eqb c "/"%char then EmptyString else String c (beforeSlash rest)
  end.

(** ** The provider *)

Section custom.
Context {W : Type} `{CustomApi W} `{Api W ConfigMap} `{K8sLib} `{LuaFiles} `{RolloutNamespace}
  `{LuaInterpreter} `{Unstructurable LuaData} `{JsonText}.
Variable conf : ProviderConfig.
Variable TrafficConf : list ObjectRef.

Definition customRef (ref : ObjectRef) : CustomRef := (APIVersion ref, Kind ref, (pc_Namespace conf, RefName ref)).

Definition getLuaScript (ref : ObjectRef) : M W string :=
  let group := beforeSlash (APIVersion ref) in
  let script := GetLuaConfigurationContent
    ("lua_configuration/" +:+ group +:+ "/" +:+ Kind ref +:+ "/trafficRouting.lua")%string in
  if negb (String.eqb script "") then ret script else
  r <- catch (api_Get (O := ConfigMap) (GetRolloutNamespace, LuaConfigMap)) ;;
  match r with
  | inr _ => fail (ErrOther "failed to get ConfigMap")
  | inl configMap =>
      match cm_Data configMap !! (LuaTrafficRoutingCustomTypePrefix +:+ "." +:+ Kind ref +:+ "." +:+ group)%string with
      | Some script => ret script
      | None => fail (ErrOther "expected script not found neither locally nor in ConfigMap")
      end
  end.

(** Every object and every script must be there. *)
Definition custom_Initialize : M W unit :=
  traverse (fun ref => custom_Get (customRef ref) ;; getLuaScript ref) TrafficConf ;; ret tt.

(** The object afterwards, as the pointer shows it. *)
Definition storeObject (obj : CustomObject) : M W CustomObject :=
  let annotations := default ∅ (co_Annotations obj) in
  let oSpecStr := mapget annotations OriginalSpecAnnotation in
  let annotations := delete OriginalSpecAnnotation annotations in
  let cSpecStr := DumpData (mkData (co_Spec obj) (co_Labels obj) (Some annotations)) in
  if String.eqb oSpecStr cSpecStr then ret obj else
  custom_Update (obj <| co_Annotations := Some (<[OriginalSpecAnnotation := cSpecStr]> annotations) |>).

Definition restoreObject (obj : CustomObject) : M W bool :=
  let oSpecStr := mapget (default ∅ (co_Annotations obj)) OriginalSpecAnnotation in
  if String.eqb oSpecStr "" then ret false else
  let oSpec := parseData oSpecStr in
  custom_Update ((obj <| co_Spec := Spec oSpec |>) <| co_Annotations := DataAnnotations oSpec |>
                   <| co_Labels := DataLabels oSpec |>) ;;
  ret true.

(** A weight that is not set is given as -1. *)
Definition custom_executeLuaForCanary (spec : Data) (strategy : TrafficRoutingStrategy) (luaScript : string)
    : res Data :=
  let weight := default (-1) (trafficWeight strategy) in
  let data := mkLuaData spec weight (wrap32 (100 - weight)) (Matches strategy)
    (pc_CanaryService conf) (pc_StableService conf) (RequestHeaderModifier strategy) in
  res_bind (ToUnstructured data) (fun unObj =>
  res_bind (tableOutput unObj luaScript) (fun json => orUnmarshalError (UnmarshalData json))).

(** Whether the object had to be updated. *)
Definition compareAndUpdateObject (data : Data) (obj : CustomObject) : M W bool :=
  let annotations := <[OriginalSpecAnnotation := mapget (default ∅ (co_Annotations obj)) OriginalSpecAnnotation]>
    (default ∅ (DataAnnotations data)) in
  let labels := DataLabels data in
  if decide (DumpJSON (co_Spec obj) = DumpJSON (Spec data) /\ co_Annotations obj = Some annotations
             /\ co_Labels obj = labels)
  then ret false else
  custom_Update ((obj <| co_Spec := Spec data |>) <| co_Annotations := Some annotations |> <| co_Labels := labels |>) ;;
  ret true.

(** The steps of [EnsureRoutes]: read all objects, store what they were, run all scripts,
    and only then update. *)
Definition storeOnce (obj : CustomObject) : M W CustomObject :=
  match originalSpec obj with Some _ => ret obj | None => storeObject obj end.

Definition canaryData (strategy : TrafficRoutingStrategy) (ref_obj : ObjectRef * CustomObject)
    : M W (Data * CustomObject) :=
  let '(ref, obj) := ref_obj in
  let specStr := default ""%string (originalSpec obj) in
  if String.eqb specStr "" then fail (ErrOther "failed to get original spec from annotation") else
  luaScript <- getLuaScript ref ;;
  nSpec <- lift (custom_executeLuaForCanary (parseData specStr) strategy luaScript) ;;
  ret (nSpec, obj).

Definition custom_EnsureRoutes (strategy : TrafficRoutingStrategy) : M W (bool * option goerror) :=
  answering (
    customNetworkRefList <- traverse (fun ref => custom_Get (customRef ref)) TrafficConf ;;
    customNetworkRefList <- traverse storeOnce customNetworkRefList ;;
    nSpecList <- traverse (canaryData strategy) (zip TrafficConf customNetworkRefList) ;;
    updated <- traverse (fun p => compareAndUpdateObject p.1 p.2) nSpecList ;;
    ret (negb (existsb id updated))).

(** An object that fails does not stop the others. *)
Fixpoint custom_Finalise_loop (refs : list ObjectRef) (modified : bool) (errList : list goerror)
    : M W (bool * option goerror) :=
  match refs with
  | [] => ret (modified, ToAggregate errList)
  | ref :: rest =>
      r <- catch (custom_Get (customRef ref)) ;;
      match r with
      | inr err =>
          custom_Finalise_loop rest modified (if IsNotFound err then errList else (errList ++ [err])%list)
      | inl obj =>
          r <- catch (restoreObject obj) ;;
          match r with
          | inr err => custom_Finalise_loop rest modified (errList ++ [err])%list
          | inl updated => custom_Finalise_loop rest (orb updated modified) errList
          end
      end
  end.
Definition custom_Finalise : M W (bool * option goerror) := custom_Finalise_loop TrafficConf false [].

Definition customController : NetworkProvider W :=
  mkProvider custom_Initialize custom_EnsureRoutes custom_Finalise.
End custom.
