(* ===== verification/CustomProofs.v ===== *)
(** * Finalising a custom resource gives it back

    What a configuration is after a trip through its annotation, and the invariant that
    every object, whatever was written into it, still holds its original. *)

From S2P Require Export CustomProvider LuaJsonProofs GatewayProofs.

(** ** A value through its text *)

(** What unstructured objects hold. *)
Inductive printable : GoValue -> Prop :=
  | print_nil : printable GoNil
  | print_bool b : printable (GoBool b)
  | print_float f : isFinite f = true -> printable (GoFloat f)
  | print_int z : isFinite (floatOfZ z) = true -> printable (GoInt z)
  | print_string s : printable (GoString s)
  | print_slice items : Forall printable items -> printable (GoSlice items)
  | print_map members : NoDup members.*1 -> Forall (fun kv => printable kv.2) members -> printable (GoMap members).

(** Numbers are read as floats, and the order of the members is lost. *)
Fixpoint textOf (v : GoValue) : GoValue :=
  match v with
  | GoInt z => GoFloat (floatOfZ z)
  | GoSlice items => GoSlice (map textOf items)
  | GoMap members => GoMap (merge_sort keyLe (map (fun kv => (kv.1, textOf kv.2)) members))
  | v => v
  end.

(** [encoding/json] reads what it wrote. *)
Class JsonTextLaws `{JsonText} := {
  parse_dump v : printable v -> parseJSON (DumpJSON v) = Some (textOf v);
  dump_nonempty v : printable v -> DumpJSON v <> ""%string
}.

Lemma merge_sort_sorted {A} (l : list (string * A)) :
  NoDup l.*1 -> merge_sort keyLe (merge_sort keyLe l) = merge_sort keyLe l.
Proof.
  intros Hl. symmetry. apply merge_sort_by_key.
  - by rewrite merge_sort_Permutation.
  - done.
  - apply StronglySorted_merge_sort; apply _.
Qed.

Lemma text_keys (members : list (string * GoValue)) :
  (map (fun kv => (kv.1, textOf kv.2)) members).*1 = members.*1.
Proof. exact (map_map _ _ members). Qed.

Lemma printable_textOf v : printable v -> printable (textOf v).
Proof.
  induction v using GoValue_members_ind; inversion 1; subst; simpl; try by constructor.
  - constructor. rewrite Forall_forall in *. intros x (y & -> & Hy)%list_elem_of_fmap. auto.
  - constructor.
    + by rewrite merge_sort_Permutation, text_keys.
    + rewrite merge_sort_Permutation. rewrite Forall_forall in *.
      intros kv ([k v] & -> & Hkv)%list_elem_of_fmap. apply (H _ Hkv). by apply (H3 _ Hkv).
Qed.

Lemma textOf_idem v : printable v -> textOf (textOf v) = textOf v.
Proof.
  induction v using GoValue_members_ind; inversion 1; subst; simpl; try done; f_equal.
  - rewrite map_map. apply map_ext_Forall. rewrite Forall_forall in *. auto.
  - set (l := map (fun kv => (kv.1, textOf kv.2)) members).
    assert (map (fun kv => (kv.1, textOf kv.2)) (merge_sort keyLe l) = merge_sort keyLe l) as ->.
    { rewrite <- (map_id (merge_sort keyLe l)) at 2. apply map_ext_Forall. rewrite merge_sort_Permutation.
      apply Forall_forall. intros kv ([k v] & -> & Hkv)%list_elem_of_fmap. simpl.
      rewrite Forall_forall in *. f_equal. apply (H _ Hkv). by apply (H3 _ Hkv). }
    apply merge_sort_sorted. unfold l. by rewrite text_keys.
Qed.

(** ** Configurations *)

Definition omitEmpty (m : option (gmap string string)) : option (gmap string string) :=
  if decide (default ∅ m = ∅) then None else m.

Lemma default_omitEmpty m : default ∅ (omitEmpty m) = default ∅ m.
Proof. unfold omitEmpty. by destruct (decide _) as [->|]. Qed.

Lemma omitEmpty_idem m : omitEmpty (omitEmpty m) = omitEmpty m.
Proof. unfold omitEmpty at 1. rewrite default_omitEmpty. unfold omitEmpty. by destruct (decide _). Qed.

Lemma omitEmpty_default m m' : omitEmpty m = omitEmpty m' -> default ∅ m = default ∅ m'.
Proof. intros E. by rewrite <- (default_omitEmpty m), E, default_omitEmpty. Qed.

Definition stringMember (kv : string * string) : string * GoValue := (kv.1, GoString kv.2).

Lemma stringMember_keys l : (stringMember <$> l).*1 = l.*1.
Proof. induction l as [|kv l IH]; [done|]. by rewrite !fmap_cons, IH. Qed.

(** A map as sorted members. *)
Lemma mapValue_members m : exists l, l ≡ₚ map_to_list m /\ mapValue m = GoMap (stringMember <$> l)
  /\ merge_sort keyLe (stringMember <$> l) = stringMember <$> l.
Proof.
  assert (merge_sort keyLe (stringMember <$> map_to_list m) ≡ₚ stringMember <$> map_to_list m) as Hp
    by apply merge_sort_Permutation.
  apply Permutation_map_inv in Hp as (l & E & Hp). exists l. split; [done|]. split.
  - unfold mapValue. f_equal. exact E.
  - change (map stringMember l) with (stringMember <$> l) in E. rewrite <- E. apply merge_sort_sorted.
    rewrite stringMember_keys. apply NoDup_fst_map_to_list.
Qed.

Lemma printable_mapValue m : printable (mapValue m).
Proof.
  destruct (mapValue_members m) as (l & Hl & -> & _). constructor.
  - rewrite stringMember_keys, Hl. apply NoDup_fst_map_to_list.
  - apply list.Forall_fmap, Forall_true. intros kv. constructor.
Qed.

Lemma textOf_mapValue m : textOf (mapValue m) = mapValue m.
Proof.
  destruct (mapValue_members m) as (l & Hl & -> & Hs). simpl. f_equal. rewrite <- Hs at 2. f_equal.
  clear. induction l as [|kv l IH]; [done|]. simpl. by f_equal.
Qed.

Lemma UnmarshalMembers_strings l m : NoDup l.*1 ->
  UnmarshalMembers (stringMember <$> l) m = (list_to_map l ∪ m, true).
Proof.
  revert m. induction l as [|[k s] l IH]; intros m Hl.
  { simpl. by rewrite (left_id_L ∅ (∪)). }
  apply NoDup_cons in Hl as [Hk Hl]. rewrite fmap_cons. cbn [UnmarshalMembers stringMember UnmarshalString fst snd].
  change (list_to_map ((k, s) :: l)) with (<[k:=s]> (list_to_map l : gmap string string)).
  rewrite IH by done. f_equal. rewrite <- insert_union_l, insert_union_r; [done|].
  by apply not_elem_of_list_to_map.
Qed.

Lemma Unmarshal_mapValue m m0 :
  UnmarshalStringMap (mapValue m) m0 = (Some (m ∪ default ∅ m0), true).
Proof.
  destruct (mapValue_members m) as (l & Hl & -> & _). unfold UnmarshalStringMap.
  rewrite UnmarshalMembers_strings by (rewrite Hl; apply NoDup_fst_map_to_list). repeat f_equal.
  rewrite (list_to_map_proper l (map_to_list m)); [apply list_to_map_to_list| |done].
  rewrite Hl. apply NoDup_fst_map_to_list.
Qed.

(** A member that may be left out. *)
Definition member (key : string) (v : option GoValue) : list (string * GoValue) :=
  match v with Some v => [(key, v)] | None => [] end.

Lemma sort_members s l a :
  merge_sort keyLe (member "spec" s ++ member "labels" l ++ member "annotations" a)
  = member "annotations" a ++ member "labels" l ++ member "spec" s.
Proof. by destruct s, l, a. Qed.

Lemma setMember_spec d v : setMember d ("spec"%string, v) = (mkData v (DataLabels d) (DataAnnotations d), true).
Proof. done. Qed.
Lemma setMember_labels d m : DataLabels d = None ->
  setMember d ("labels"%string, mapValue m) = (mkData (Spec d) (Some m) (DataAnnotations d), true).
Proof.
  intros Hd. change (setMember _ _) with (let '(m, ok) := UnmarshalStringMap (mapValue m) (DataLabels d) in
    (mkData (Spec d) m (DataAnnotations d), ok)).
  rewrite Unmarshal_mapValue, Hd. cbn [default from_option id]. by rewrite (right_id_L ∅ (∪)).
Qed.
Lemma setMember_annotations d m : DataAnnotations d = None ->
  setMember d ("annotations"%string, mapValue m) = (mkData (Spec d) (DataLabels d) (Some m), true).
Proof.
  intros Hd. change (setMember _ _) with (let '(m, ok) := UnmarshalStringMap (mapValue m) (DataAnnotations d) in
    (mkData (Spec d) (DataLabels d) m, ok)).
  rewrite Unmarshal_mapValue, Hd. cbn [default from_option id]. by rewrite (right_id_L ∅ (∪)).
Qed.

Definition specOption (v : GoValue) : option GoValue := if decide (v = GoNil) then None else Some v.

Lemma dataValue_members d :
  dataValue d = GoMap (member "spec" (specOption (Spec d)) ++ member "labels" (mapValue <$> omitEmpty (DataLabels d))
                       ++ member "annotations" (mapValue <$> omitEmpty (DataAnnotations d))).
Proof.
  unfold dataValue, mapMember, specOption, omitEmpty. destruct d as [s [l|] [a|]]; simpl; repeat case_decide; done.
Qed.

Lemma text_members d :
  textOf (dataValue d) = GoMap (member "annotations" (mapValue <$> omitEmpty (DataAnnotations d))
    ++ member "labels" (mapValue <$> omitEmpty (DataLabels d)) ++ member "spec" (specOption (textOf (Spec d)))).
Proof.
  rewrite dataValue_members. cbn [textOf]. rewrite <- sort_members. do 2 f_equal.
  rewrite !map_app. f_equal; [|f_equal].
  - unfold specOption. assert (textOf (Spec d) = GoNil <-> Spec d = GoNil) by (by destruct (Spec d)).
    repeat case_decide; tauto || done.
  - destruct (omitEmpty (DataLabels d)); [|done]. cbn [fmap option_fmap option_map member map fst snd].
    by rewrite textOf_mapValue.
  - destruct (omitEmpty (DataAnnotations d)); [|done]. cbn [fmap option_fmap option_map member map fst snd].
    by rewrite textOf_mapValue.
Qed.

Lemma printable_dataValue d : printable (Spec d) -> printable (dataValue d).
Proof.
  intros Hd. rewrite dataValue_members. unfold specOption.
  destruct (decide _), (omitEmpty (DataLabels d)), (omitEmpty (DataAnnotations d)); constructor; simpl;
    repeat first [apply NoDup_nil_2 | apply NoDup_cons; split; [set_solver +|]
                 | apply Forall_nil_2 | apply Forall_cons_2; [simpl; auto using printable_mapValue|]].
Qed.

(** The annotation and back. *)
Lemma parseData_DumpData `{JsonTextLaws} d : printable (Spec d) ->
  parseData (DumpData d) = mkData (textOf (Spec d)) (omitEmpty (DataLabels d)) (omitEmpty (DataAnnotations d)).
Proof.
  intros Hd. unfold parseData, DumpData. rewrite parse_dump by by apply printable_dataValue.
  rewrite text_members. unfold UnmarshalData.
  destruct (omitEmpty (DataAnnotations d)) as [a|], (omitEmpty (DataLabels d)) as [l|];
    unfold specOption; destruct (decide _) as [->|]; cbn [member fmap option_fmap option_map app setMembers];
    rewrite ?setMember_annotations by done; cbv beta iota; rewrite ?setMember_labels by done; cbv beta iota;
    rewrite ?setMember_spec; done.
Qed.

Lemma DumpData_nonempty `{JsonTextLaws} d : printable (Spec d) -> DumpData d <> ""%string.
Proof. intros Hd. by apply dump_nonempty, printable_dataValue. Qed.

(** ** Objects and what they keep *)

(** Two objects with the same configuration, as JSON. *)
Definition sameContent (a b : CustomObject) : Prop :=
  textOf (co_Spec a) = textOf (co_Spec b) /\ omitEmpty (co_Labels a) = omitEmpty (co_Labels b)
  /\ omitEmpty (co_Annotations a) = omitEmpty (co_Annotations b).

(** What the server keeps of an object it is given. *)
Definition sameFields (a b : CustomObject) : Prop :=
  co_Ref a = co_Ref b /\ co_Spec a = co_Spec b /\ omitEmpty (co_Labels a) = omitEmpty (co_Labels b)
  /\ omitEmpty (co_Annotations a) = omitEmpty (co_Annotations b).

(** No original is stored. *)
Definition clean (o : CustomObject) : Prop := originalSpec o = None /\ printable (co_Spec o).

Definition dataOf (o : CustomObject) : Data :=
  mkData (co_Spec o) (co_Labels o) (Some (default ∅ (co_Annotations o))).

(** The original is stored, and it is that of [original]. *)
Definition holdsOriginal `{JsonText} (original o : CustomObject) : Prop :=
  exists o', clean o' /\ sameContent original o' /\ originalSpec o = Some (DumpData (dataOf o')).

Definition asBefore (original o : CustomObject) : Prop := clean o /\ sameContent original o.

Definition keeps `{JsonText} (original o : CustomObject) : Prop := asBefore original o \/ holdsOriginal original o.

Lemma originalSpec_fields a b : omitEmpty (co_Annotations a) = omitEmpty (co_Annotations b) ->
  originalSpec a = originalSpec b.
Proof. intros E. unfold originalSpec. by rewrite (omitEmpty_default _ _ E). Qed.

Lemma stored_fields `{JsonText} original a b : sameFields a b -> holdsOriginal original a -> holdsOriginal original b.
Proof.
  intros (_ & _ & _ & Ha) (o & Ho & Hs & Hd). exists o. split; [done|]. split; [done|].
  by rewrite <- (originalSpec_fields a b).
Qed.

Lemma asBefore_fields original a b : sameFields a b -> asBefore original a -> asBefore original b.
Proof.
  intros (_ & Hs & Hl & Ha) [[Hc Hp] (Es & El & Ea)]. split; split.
  - by rewrite <- (originalSpec_fields a b).
  - by rewrite <- Hs.
  - by rewrite Es, Hs.
  - by rewrite El, Ea.
Qed.

(** The objects on the server, and the calls the provider makes. *)
Class CustomStore (W : Type) := customAt : W -> CustomRef -> option CustomObject.
Class CustomLaws (W : Type) `{CustomApi W} `{Api W ConfigMap} `{CustomStore W} := {
  get_frame ref w r w' : custom_Get ref w = (r, w') -> forall ref', customAt w' ref' = customAt w ref';
  get_ok ref w o w' : custom_Get ref w = (Ok o, w') -> customAt w ref = Some o /\ co_Ref o = ref;
  get_missing ref w e w' : custom_Get ref w = (Err e, w') -> IsNotFound e = true -> customAt w ref = None;
  update_frame o w r w' : custom_Update o w = (r, w') ->
    forall ref', ref' <> co_Ref o -> customAt w' ref' = customAt w ref';
  update_at o w r w' : custom_Update o w = (r, w') -> customAt w' (co_Ref o) = customAt w (co_Ref o)
    \/ exists o', customAt w' (co_Ref o) = Some o' /\ sameFields o o';
  update_ok o w o' w' : custom_Update o w = (Ok o', w') ->
    customAt w' (co_Ref o) = Some o' /\ sameFields o o';
  config_frame key w r w' : api_Get (O := ConfigMap) key w = (r, w') ->
    forall ref', customAt w' ref' = customAt w ref'
}.

Section calls.
Context {W : Type} `{CustomLaws W} `{K8sLib} `{LuaFiles} `{RolloutNamespace} `{LuaInterpreter}
  `{Unstructurable LuaData} `{JsonTextLaws}.

Lemma wp_traverse {A B} (f : A -> M W B) (I : W -> Prop) (P : A -> Prop) (Q : A -> B -> Prop) l w :
  (forall x w, P x -> I w -> wp (f x) (fun r w' => I w' /\ forall y, r = Ok y -> Q x y) w) ->
  Forall P l -> I w -> wp (traverse f l) (fun r w' => I w' /\ forall ys, r = Ok ys -> Forall2 Q l ys) w.
Proof.
  intros Hf Hl. revert w. induction Hl as [|x l Hx _ IH]; intros w Hw; simpl.
  { split; [done|]. intros ys <-%(inj (R:=eq) Ok). constructor. }
  apply wp_bind. eapply wp_mono; [by apply Hf|]. intros [y|e|] w1 [Hw1 Hy]; [|done..].
  apply wp_bind. eapply wp_mono; [by apply IH|]. intros [ys|e|] w2 [Hw2 Hys]; [|done..].
  split; [done|]. intros zs <-%(inj Ok). constructor; auto.
Qed.

(** The world at the start, and the objects that are looked after. *)
Variable w0 : W.
Variable refs : list CustomRef.
Hypothesis originals : forall ref, ref ∈ refs -> exists o, customAt w0 ref = Some o /\ co_Ref o = ref /\ clean o.

(** [o] belongs to one of the references and satisfies [K] with its original. *)
Definition known (K : CustomObject -> CustomObject -> Prop) (o : CustomObject) : Prop :=
  co_Ref o ∈ refs /\ exists original, customAt w0 (co_Ref o) = Some original /\ K original o.

Definition kept (w : W) : Prop :=
  forall ref, ref ∈ refs -> exists o, customAt w ref = Some o /\ co_Ref o = ref /\ known keeps o.

Lemma kept_start : kept w0.
Proof.
  intros ref Hr. destruct (originals ref Hr) as (o & Ho & Hro & Hc). exists o. split; [done|]. split; [done|].
  split; [by rewrite Hro|]. exists o. rewrite Hro. split; [done|]. by left.
Qed.

Lemma kept_frame w w' : (forall ref, customAt w' ref = customAt w ref) -> kept w -> kept w'.
Proof. intros E Hk ref Hr. rewrite E. by apply Hk. Qed.

Lemma known_keeps_fields a b : sameFields a b -> known keeps a -> known keeps b.
Proof.
  intros Hf [Hr (o & Ho & Hk)]. pose proof Hf as (E & _). split; [by rewrite <- E|]. exists o.
  split; [by rewrite <- E|]. destruct Hk; [left; by eapply asBefore_fields|right; by eapply stored_fields].
Qed.

Lemma wp_update o w (Q : CustomObject -> Prop) :
  known keeps o -> (forall o', sameFields o o' -> Q o') -> kept w ->
  wp (custom_Update o) (fun r w' => kept w' /\ forall o', r = Ok o' -> Q o') w.
Proof.
  intros Ho HQ Hw. unfold wp. destruct (custom_Update o w) as [r w'] eqn:E. simpl. split.
  - intros ref Hr. destruct (decide (ref = co_Ref o)) as [->|Hne].
    + destruct (update_at _ _ _ _ E) as [E'|(o' & E' & Hf)]; [rewrite E'; by apply Hw|].
      exists o'. split; [done|]. pose proof Hf as (Er & _). split; [done|]. by eapply known_keeps_fields.
    + rewrite (update_frame _ _ _ _ E _ Hne). by apply Hw.
  - intros o' ->. apply HQ. by apply (update_ok _ _ _ _ E).
Qed.
Lemma storeOnce_keeps obj w : known keeps obj -> kept w ->
  wp (storeOnce obj) (fun r w' => kept w' /\ forall obj', r = Ok obj' -> co_Ref obj' = co_Ref obj /\ known holdsOriginal obj') w.
Proof.
  intros [Hr (o & Ho & Hk)] Hw. unfold storeOnce. destruct (originalSpec obj) as [text|] eqn:E.
  { split; [done|]. intros obj' <-%(inj (R:=eq) Ok). split; [done|]. split; [done|]. exists o. split; [done|].
    destruct Hk as [[[Hc _] _]|]; [congruence|done]. }
  destruct Hk as [[Hclean Hsame]|(o' & _ & _ & Hd)]; [|congruence]. pose proof Hclean as [_ Hp].
  unfold storeObject, mapget. unfold originalSpec in E. rewrite E. cbn [default from_option id].
  rewrite delete_id by done.
  destruct (String.eqb_spec "" (DumpData (mkData (co_Spec obj) (co_Labels obj) (Some (default ∅ (co_Annotations obj))))))
    as [Hempty|_].
  { exfalso. symmetry in Hempty. revert Hempty. by apply DumpData_nonempty. }
  match goal with |- wp (custom_Update ?n) _ _ => set (new := n) end.
  assert (holdsOriginal o new) as Hnew.
  { exists obj. split; [done|]. split; [done|]. unfold originalSpec. simpl. by rewrite lookup_insert_eq. }
  apply wp_update; [|intros o' Hf|done].
  - split; [done|]. exists o. split; [done|]. by right.
  - pose proof Hf as (Er & _). split; [done|]. split; [by rewrite <- Er|]. exists o.
    split; [by rewrite <- Er|]. by eapply stored_fields.
Qed.

Lemma compareAndUpdate_keeps data obj w : known holdsOriginal obj -> kept w ->
  wp (compareAndUpdateObject data obj) (fun r w' => kept w' /\ forall b, r = Ok b -> True) w.
Proof.
  intros [Hr (o & Ho & Hk)] Hw. unfold compareAndUpdateObject. case_decide; [done|].
  apply wp_bind. eapply wp_mono; [apply (wp_update _ _ (fun _ => True))|].
  - split; [done|]. exists o. split; [done|]. right. destruct Hk as (o' & Hc & Hs & Hd). exists o'.
    split; [done|]. split; [done|]. unfold originalSpec in *. simpl. rewrite lookup_insert_eq. unfold mapget.
    by rewrite Hd.
  - done.
  - done.
  - by intros [] w' [Hw' _].
Qed.

Lemma canaryData_keeps conf strategy ref_obj w : kept w ->
  wp (canaryData conf strategy ref_obj) (fun r w' => kept w' /\ forall p, r = Ok p -> p.2 = ref_obj.2) w.
Proof.
  intros Hw. destruct ref_obj as [ref obj]. unfold canaryData. destruct (String.eqb _ _); [done|].
  apply wp_bind. apply (wp_mono _ (fun _ w' => kept w')).
  - unfold getLuaScript. destruct (negb _); [done|]. apply wp_bind, wp_catch. unfold wp at 1.
    destruct (api_Get _ w) as [r w'] eqn:E. pose proof (kept_frame _ _ (config_frame _ _ _ _ E) Hw).
    destruct r; simpl; [|done..]. unfold wp. by destruct (cm_Data a !! _).
  - intros [script|e|] w' Hw'; [|done..]. unfold bind_post, bind, lift, wp.
    destruct (custom_executeLuaForCanary _ _ _ _); [|done..]. split; [done|]. by intros p <-%(inj (R:=eq) Ok).
Qed.

Section provider.
Variables (conf : ProviderConfig) (TrafficConf : list ObjectRef).
Hypothesis refs_conf : refs = customRef conf <$> TrafficConf.

Lemma conf_refs ref : ref ∈ TrafficConf -> customRef conf ref ∈ refs.
Proof. intros Hr. rewrite refs_conf. apply list_elem_of_fmap. by exists ref. Qed.

(** Reading an object answers one that keeps its original. *)
Lemma custom_Get_keeps ref w : ref ∈ refs -> kept w ->
  wp (custom_Get ref) (fun r w' => kept w' /\ (forall ref', customAt w' ref' = customAt w ref')
    /\ (forall e, r = Err e -> IsNotFound e = false)
    /\ forall obj, r = Ok obj -> customAt w' ref = Some obj /\ co_Ref obj = ref /\ known keeps obj) w.
Proof.
  intros Hr Hw. unfold wp. destruct (custom_Get ref w) as [r w'] eqn:E. simpl.
  pose proof (get_frame _ _ _ _ E) as Hframe. destruct (Hw ref Hr) as (o & Ho & Hro & Hk).
  split; [by eapply kept_frame|]. split; [done|]. split.
  - intros e ->. destruct (IsNotFound e) eqn:En; [|done]. rewrite (get_missing _ _ _ _ E En) in Ho. done.
  - intros obj ->. destruct (get_ok _ _ _ _ E) as [Ho' Hro']. rewrite Hframe. split; [done|]. split; [done|].
    by simplify_eq.
Qed.

(** Whatever becomes of the routes, the originals are kept. *)
Lemma EnsureRoutes_keeps strategy w : kept w ->
  wp (custom_EnsureRoutes conf TrafficConf strategy) (fun _ w' => kept w') w.
Proof.
  intros Hw. unfold custom_EnsureRoutes, answering. apply wp_bind, wp_catch.
  apply (wp_mono _ (fun _ w' => kept w')); [|by intros [] ?].
  apply wp_bind. eapply wp_mono; [apply (wp_traverse _ kept (.∈ TrafficConf)
    (fun _ obj => known keeps obj)); [|by apply Forall_forall|done]|].
  { intros ref w1 Hr Hw1. eapply wp_mono; [by apply custom_Get_keeps, Hw1; apply conf_refs|].
    intros r w2 (Hw2 & _ & _ & Hobj). split; [done|]. intros obj ->. by apply Hobj. }
  intros [objs|e|] w1 [Hw1 Hobjs]; [|done..]. specialize (Hobjs _ eq_refl).
  apply wp_bind. eapply wp_mono; [apply (wp_traverse storeOnce kept (known keeps) (fun _ obj' => known holdsOriginal obj'));
    [| |done]|].
  { intros obj w2 Hobj Hw2. eapply wp_mono; [by apply storeOnce_keeps|].
    intros r w3 [Hw3 Hr]. split; [done|]. intros obj' ->. by apply (Hr obj'). }
  { clear -Hobjs. induction Hobjs; constructor; eauto. }
  intros [objs'|e|] w2 [Hw2 Hobjs']; [|done..]. specialize (Hobjs' _ eq_refl).
  assert (Forall (known holdsOriginal) objs') as Hstored by (clear -Hobjs'; induction Hobjs'; constructor; eauto).
  apply wp_bind. eapply wp_mono; [apply (wp_traverse (canaryData conf strategy) kept (fun p => known holdsOriginal p.2)
    (fun _ q => known holdsOriginal q.2)); [| |done]|].
  { intros p w3 Hp Hw3. eapply wp_mono; [by apply canaryData_keeps|]. intros r w4 [Hw4 Hr].
    split; [done|]. intros q ->. by rewrite (Hr _ eq_refl). }
  { clear -Hstored. revert TrafficConf. induction Hstored; intros [|ref refs']; simpl; try constructor; eauto. }
  intros [datas|e|] w3 [Hw3 Hdatas]; [|done..]. specialize (Hdatas _ eq_refl).
  apply wp_bind. eapply wp_mono; [apply (wp_traverse (fun p => compareAndUpdateObject p.1 p.2) kept
    (fun p => known holdsOriginal p.2) (fun _ _ => True)); [| |done]|].
  { intros p w4 Hp Hw4. eapply wp_mono; [by apply compareAndUpdate_keeps|]. intros r w5 [Hw5 _]. done. }
  { clear -Hdatas. induction Hdatas; constructor; eauto. }
  by intros [] w4 [Hw4 _].
Qed.

(** The object is on the server as it was. *)
Definition restored (w : W) (ref : CustomRef) : Prop :=
  exists o original, customAt w ref = Some o /\ customAt w0 ref = Some original /\ asBefore original o.

Lemma restored_frame w w' ref : customAt w' ref = customAt w ref -> restored w ref -> restored w' ref.
Proof. unfold restored. by intros ->. Qed.

(** A stored original, read back. *)
Lemma asBefore_parsed original o o' :
  clean o' -> sameContent original o' ->
  let d := parseData (DumpData (dataOf o')) in
  asBefore original (mkCustom (co_Ref o) (DataAnnotations d) (DataLabels d) (Spec d) (co_Rest o)).
Proof.
  intros [Hc Hp] (Es & El & Ea) d. unfold d. rewrite parseData_DumpData by done.
  cbn [DataAnnotations DataLabels Spec dataOf]. split; split; simpl.
  - unfold originalSpec in *. simpl. by rewrite default_omitEmpty.
  - by apply printable_textOf.
  - by rewrite textOf_idem.
  - rewrite !omitEmpty_idem. split; [done|]. rewrite Ea. by destruct (co_Annotations o').
Qed.

Lemma restoreObject_keeps obj w : known keeps obj -> kept w ->
  wp (restoreObject obj) (fun r w' => kept w' /\ (forall ref, restored w ref -> restored w' ref)
    /\ (customAt w (co_Ref obj) = Some obj -> forall b, r = Ok b -> restored w' (co_Ref obj))) w.
Proof.
  intros Hknown Hw. pose proof Hknown as [Hr (o & Ho & Hk)]. unfold restoreObject, mapget.
  change (default ∅ (co_Annotations obj) !! OriginalSpecAnnotation) with (originalSpec obj).
  destruct Hk as [Hb|(o' & Hc & Hs & Hd)].
  { pose proof Hb as [[-> _] _]. split; [done|]. split; [done|]. intros Hat b _. by exists obj, o. }
  rewrite Hd. cbn [default from_option id].
  destruct (String.eqb_spec (DumpData (dataOf o')) "") as [Hempty|_].
  { exfalso. revert Hempty. apply DumpData_nonempty. apply Hc. }
  match goal with |- context [custom_Update ?n] => set (new := n) end.
  assert (asBefore o new) as Hnew by (by apply asBefore_parsed).
  apply wp_bind. pose proof (wp_update new w (fun _ => True)) as Hup. unfold wp in Hup |- *.
  destruct (custom_Update new w) as [r w'] eqn:E. simpl in Hup |- *.
  assert (kept w') as Hw'.
  { apply Hup; [|done|done]. split; [done|]. exists o. split; [done|]. by left. }
  assert (forall ref, restored w ref -> restored w' ref) as Hold.
  { intros ref Href. destruct (decide (ref = co_Ref new)) as [->|Hne].
    - destruct (update_at _ _ _ _ E) as [E'|(o2 & E' & Hf)]; [by eapply restored_frame|].
      exists o2, o. split; [done|]. split; [done|]. by eapply asBefore_fields.
    - by eapply restored_frame; [apply (update_frame _ _ _ _ E)|]. }
  destruct r as [o2|e|]; simpl; [|done..]. split; [done|]. split; [done|]. intros _ b _.
  destruct (update_ok _ _ _ _ E) as [E' Hf]. exists o2, o. split; [done|]. split; [done|].
  by eapply asBefore_fields.
Qed.

Lemma ToAggregate_none errs : ToAggregate errs = None -> errs = [].
Proof. by destruct errs. Qed.

Lemma Finalise_loop_restores l modified errs w :
  (forall ref, ref ∈ l -> ref ∈ TrafficConf) -> kept w ->
  wp (custom_Finalise_loop conf l modified errs) (fun r w' => kept w'
    /\ (forall ref, restored w ref -> restored w' ref)
    /\ forall m, r = Ok (m, None) -> errs = [] /\ forall ref, ref ∈ l -> restored w' (customRef conf ref)) w.
Proof.
  revert modified errs w. induction l as [|ref l IH]; intros modified errs w Hl Hw; simpl.
  { split; [done|]. split; [done|]. intros m [= _ He]. split; [by apply ToAggregate_none|].
    intros ref Href. by apply not_elem_of_nil in Href. }
  assert (forall ref, ref ∈ l -> ref ∈ TrafficConf) as Hl' by (intros; apply Hl; by right).
  apply wp_bind, wp_catch. eapply wp_mono; [apply (custom_Get_keeps (customRef conf ref)); [|done]|].
  { apply conf_refs, Hl. by left. }
  intros r w1 (Hw1 & Hsame & Hmissing & Hobj).
  assert (forall ref, restored w ref -> restored w1 ref) as Hold
    by (intros ref'; by apply restored_frame).
  destruct r as [obj|e|]; simpl; [| |done].
  2: { rewrite (Hmissing _ eq_refl). eapply wp_mono; [by apply IH|]. intros r w2 (Hw2 & Hold2 & Hr).
       split; [done|]. split; [by auto|]. intros m ->. destruct (Hr m eq_refl) as [He _]. exfalso. by destruct errs. }
  destruct (Hobj _ eq_refl) as (Hat & Href & Hknown).
  apply wp_bind, wp_catch. eapply wp_mono; [by apply restoreObject_keeps|].
  intros r w2 (Hw2 & Hold2 & Hnew). rewrite Href in Hnew. destruct r as [b|e|]; simpl.
  - eapply wp_mono; [by apply IH|]. intros r w3 (Hw3 & Hold3 & Hr). split; [done|]. split; [by auto|].
    intros m ->. destruct (Hr m eq_refl) as [He Hrest]. split; [done|].
    intros ref' [->|Hin]%elem_of_cons; [|by apply Hrest]. apply Hold3. by eapply Hnew.
  - eapply wp_mono; [by apply IH|]. intros r w3 (Hw3 & Hold3 & Hr). split; [done|]. split; [by auto|].
    intros m ->. destruct (Hr m eq_refl) as [He _]. exfalso. by destruct errs.
  - split; [done|]. split; [by auto|]. done.
Qed.

(** One call of [EnsureRoutes], whatever its strategy and its outcome. *)
Definition ensureCall (w w' : W) : Prop :=
  exists strategy r, custom_EnsureRoutes conf TrafficConf strategy w = (r, w').

Lemma calls_keep w w' : kept w -> rtc ensureCall w w' -> kept w'.
Proof.
  intros Hw Hc. induction Hc as [|w w1 w' (strategy & r & E) _ IH]; [done|]. apply IH.
  exact (wp_run _ _ _ _ _ E (EnsureRoutes_keeps strategy w Hw)).
Qed.
End provider.
End calls.

Section roundtrip.
Context {W : Type} `{CustomLaws W} `{K8sLib} `{LuaFiles} `{RolloutNamespace} `{LuaInterpreter}
  `{Unstructurable LuaData} `{JsonTextLaws}.

(** C18. The round trip of the custom provider: after any calls of [EnsureRoutes], with any
    scripts and strategies, errors and half-done updates included, a [Finalise] without
    error leaves every object with the spec, labels and annotations it had at the start,
    as JSON, and without the annotation that kept them. *)
Theorem custom_roundtrip (conf : ProviderConfig) (TrafficConf : list ObjectRef) (w0 w w' : W) (modified : bool)
    (Hstart : forall ref, ref ∈ TrafficConf -> exists o,
       customAt w0 (customRef conf ref) = Some o /\ co_Ref o = customRef conf ref /\ clean o)
    (Hcalls : rtc (ensureCall conf TrafficConf) w0 w)
    (Hfinal : Finalise (customController conf TrafficConf) w = (Ok (modified, None), w')) :
  forall ref, ref ∈ TrafficConf -> exists original o,
    customAt w0 (customRef conf ref) = Some original /\ customAt w' (customRef conf ref) = Some o
    /\ originalSpec o = None /\ sameContent original o.
Proof.
  intros ref Href. set (refs := customRef conf <$> TrafficConf).
  assert (forall r, r ∈ refs -> exists o, customAt w0 r = Some o /\ co_Ref o = r /\ clean o) as Hrefs.
  { intros r (ref' & -> & Hr)%list_elem_of_fmap. by apply Hstart. }
  assert (kept w0 refs w) as Hkept.
  { eapply (calls_keep w0 refs conf TrafficConf eq_refl); [|done]. by apply kept_start. }
  pose proof (wp_run _ _ _ _ _ Hfinal (Finalise_loop_restores w0 refs conf TrafficConf eq_refl
    TrafficConf false [] w (fun _ => id) Hkept)) as (_ & _ & Hall).
  destruct (Hall _ eq_refl) as [_ Hr]. destruct (Hr ref Href) as (o & original & Ho & Horig & [[Hc _] Hs]).
  by exists original, o.
Qed.
End roundtrip.
