(* ===== verification/NetworkProviders.v ===== *)
(** * The providers together

    The factory of TrafficManager.v made of the three providers, and what the Ingress
    provider shows of the stable Ingress. *)

From S2P Require Export CustomProvider.

Section factory.
Context {W : Type} `{CustomApi W} `{Api W ConfigMap} `{Api W HTTPRoute} `{Api W IngressObject} `{Retry W}
  `{K8sLib} `{LuaFiles} `{RolloutNamespace} `{LuaInterpreter} `{Unstructurable LuaData}
  `{Unstructurable IngressLuaData} `{JsonText}.

(** [NewCustomController], [NewIngressTrafficRouting] and [NewGatewayTrafficRouting]. *)
#[export] Instance realProviders : ProviderFactory W := {|
  NewCustomController conf trafficConf := ret (customController conf trafficConf);
  NewIngressTrafficRouting := ingressController;
  NewGatewayTrafficRouting conf trafficConf := ret (gatewayController conf trafficConf)
|}.
End factory.

(** ** The routes of an Ingress *)

(** Host, path, the rest of the path and its backend. *)
Definition Route : Type := string * string * string * option IngressServiceBackend.

Definition ruleRoutes (rule : IngressRule) : list Route :=
  (fun p => (irl_Host rule, hip_Path p, hip_Rest p, hip_Service p)) <$> default [] (irl_HTTP rule).
Definition routesOf (rules : list IngressRule) : list Route := rules ≫= ruleRoutes.

(** The route to the canary Service beside one to the stable Service. *)
Definition canaryRoute (canaryService stableService : string) (route : Route) : option Route :=
  let '(host, path, rest, backend) := route in
  match backend with
  | Some service =>
      if String.eqb (isb_Name service) stableService
      then Some (host, path, rest, Some (mkServiceBackend canaryService (isb_Port service)))
      else None
  | None => None
  end.

(** Rules the code can read: each has paths, and each path leads to a Service. *)
Definition readable (rule : IngressRule) : Prop :=
  exists paths, irl_HTTP rule = Some paths /\ Forall (fun p => is_Some (hip_Service p)) paths.

Section routes.
Variables canaryService stableService : string.

Lemma canaryPaths_spec host paths :
  match canaryPaths canaryService stableService paths with
  | Ok paths' =>
      Forall (fun p => is_Some (hip_Service p)) paths
      /\ (fun p => (host, hip_Path p, hip_Rest p, hip_Service p)) <$> paths'
         = omap (canaryRoute canaryService stableService)
             ((fun p => (host, hip_Path p, hip_Rest p, hip_Service p)) <$> paths)
  | Err _ => False
  | Panic => ~ Forall (fun p => is_Some (hip_Service p)) paths
  end.
Proof.
  induction paths as [|[path rest [service|]] paths IH]; simpl; [done| |].
  2: { intros [[] _]%Forall_cons. done. }
  destruct (canaryPaths canaryService stableService paths) as [paths'|e|]; simpl; [|done|].
  2: { by intros [_ Hp]%Forall_cons. }
  destruct IH as [Hall IH]. split; [by constructor|]. destruct (String.eqb _ _); [|done].
  rewrite fmap_cons. by f_equal.
Qed.

Lemma canaryRules_spec rules :
  match canaryRules canaryService stableService rules with
  | Ok rules' =>
      Forall readable rules
      /\ routesOf rules' = omap (canaryRoute canaryService stableService) (routesOf rules)
      /\ Forall (fun rule => irl_HTTP rule <> None /\ irl_HTTP rule <> Some []) rules'
  | Err _ => False
  | Panic => ~ Forall readable rules
  end.
Proof.
  induction rules as [|[host [paths|]] rules IH]; simpl; [done| |].
  2: { intros [(? & [=] & _) _]%Forall_cons. }
  pose proof (canaryPaths_spec host paths) as Hpaths.
  destruct (canaryPaths canaryService stableService paths) as [paths'|e|]; simpl; [|done|].
  2: { intros [(? & [= <-] & Hp) _]%Forall_cons. done. }
  destruct (canaryRules canaryService stableService rules) as [rules'|e|]; simpl; [|done|].
  2: { by intros [_ Hr]%Forall_cons. }
  destruct Hpaths as [Hall Hpaths], IH as (Hread & IH & Hne).
  split; [constructor; [by exists paths|done]|].
  change (ruleRoutes _) with ((fun p => (host, hip_Path p, hip_Rest p, hip_Service p)) <$> paths).
  rewrite omap_app, <- IH, <- Hpaths. destruct paths' as [|p paths']; [done|]. split; [done|].
  constructor; [done|]. done.
Qed.
End routes.

(** C34. The canary Ingress has exactly the routes of the stable Ingress that lead to the
    stable Service, with the same host, path and port and in the same order, and now they
    lead to the canary Service; no rule of it is empty.  It is named after the stable one
    in its namespace, owned by the Rollout, and has the class, the TLS settings, the
    labels and the annotations of the stable one.  It cannot be built, and the controller
    panics, just when a rule has no paths or a backend is no Service. *)
Theorem canary_ingress_routes (conf : ProviderConfig) (trafficConf : IngressTrafficRouting)
    (stableIngress : IngressObject) :
  match buildCanaryIngress conf trafficConf stableIngress with
  | Ok canary =>
      routesOf (ing_Rules canary)
        = omap (canaryRoute (pc_CanaryService conf) (pc_StableService conf)) (routesOf (ing_Rules stableIngress))
      /\ Forall (fun rule => irl_HTTP rule <> None /\ irl_HTTP rule <> Some []) (ing_Rules canary)
      /\ keyOf (ing_Meta canary)
         = (Namespace (ing_Meta stableIngress), (IngressName trafficConf +:+ "-canary")%string)
      /\ OwnerReferences (ing_Meta canary) = [pc_OwnerRef conf]
      /\ ing_ClassName canary = ing_ClassName stableIngress /\ ing_TLS canary = ing_TLS stableIngress
      /\ Labels (ing_Meta canary) = Labels (ing_Meta stableIngress)
      /\ Annotations (ing_Meta canary) = Annotations (ing_Meta stableIngress)
  | Err _ => False
  | Panic => ~ Forall readable (ing_Rules stableIngress)
  end.
Proof.
  unfold buildCanaryIngress.
  pose proof (canaryRules_spec (pc_CanaryService conf) (pc_StableService conf) (ing_Rules stableIngress)) as Hspec.
  destruct (canaryRules _ _ _); simpl; [|done..]. by destruct Hspec as (_ & Hroutes & Hne).
Qed.

(** ** Settling *)

Section settles.
Context {W : Type} `{Api W IngressObject} `{Api W ConfigMap} `{K8sLib} `{LuaFiles} `{RolloutNamespace}
  `{LuaInterpreter} `{Unstructurable IngressLuaData}.

(** The routes are ensured, and nothing is written, just when the script answers the
    annotations that the canary Ingress has. *)
Lemma ingress_done conf trafficConf luaScript strategy canary w w1 w' :
  api_Get (O := IngressObject) (canaryIngressKey conf trafficConf) w = (Ok canary, w1) ->
  ingress_executeLuaForCanary conf luaScript (Annotations (ing_Meta canary)) (trafficWeight strategy)
    (Matches strategy) (RequestHeaderModifier strategy) = Ok (Annotations (ing_Meta canary)) ->
  ingress_EnsureRoutes conf trafficConf luaScript strategy w = (Ok (true, None), w') <-> w' = w1.
Proof.
  intros Hget Hlua. unfold ingress_EnsureRoutes, answering, catch, bind, lift, ret. rewrite Hget, Hlua.
  rewrite decide_True by done. split; [by intros [= <-]|by intros ->].
Qed.
End settles.
