(* ===== verification/ReleaseManager.v ===== *)
(** * What the release managers share (pkg/controller/rollout)

    [RolloutContext], the unified sub status, step jumps, the traffic-routing
    context of a rollout (rollout_progressing.go, rollout_status.go) and the
    BatchRelease helpers of rollout_releaseManager.go.  The interface
    [ReleaseManager] is the Go interface of the same name. *)

From S2P Require Export RolloutUtil TrafficManager.

(** ** The context of one reconciliation *)

Record RolloutContext := mkContext {
  ctx_Rollout : Rollout;
  NewStatus : RolloutStatus;
  ctx_Workload : option Workload;
  RecheckTime : option Z;
  WaitReady : bool;
  FinalizeReason : string
}.
#[export] Instance eta_RolloutContext : Eta RolloutContext := fun x =>
  mkContext (ctx_Rollout x) (NewStatus x) (ctx_Workload x) (RecheckTime x) (WaitReady x)
    (FinalizeReason x).

Definition ctx_Strategy (c : RolloutContext) : RolloutStrategy := ro_Strategy (ctx_Rollout c).
Definition ctx_Key (c : RolloutContext) : ObjectKey := keyOf (ro_Meta (ctx_Rollout c)).

(** The [defaultGracePeriodSeconds] of rollout_progressing.go. *)
Definition rolloutGracePeriodSeconds : Z := 3.

(** ** The unified status *)

(** [UnifiedStatus]: pointers into the canary part, else into the blue-green part. *)
Inductive UnifiedStatus :=
  | UnifiedCanary (s : CanaryStatusT)
  | UnifiedBlueGreen (s : BlueGreenStatusT).

(** [None] is a unified status that [IsNil]. *)
Definition GetUnifiedStatus (r : RolloutStatus) : option UnifiedStatus :=
  match CanaryStatus r, BlueGreenStatus r with
  | Some c, _ => Some (UnifiedCanary c)
  | None, Some b => Some (UnifiedBlueGreen b)
  | None, None => None
  end.

Definition unifiedCommon (u : UnifiedStatus) : CommonStatus :=
  match u with UnifiedCanary s => cn_Common s | UnifiedBlueGreen s => bg_Common s end.
Definition unifiedReplicas (u : UnifiedStatus) : Z :=
  match u with UnifiedCanary s => CanaryReplicas s | UnifiedBlueGreen s => UpdatedReplicas s end.

Definition scaled `{K8sLib} (v : option IntOrString) (total : Z) : Z :=
  fst (GetScaledValueFromIntOrPercent v total true).

Section Shared.
Context {W : Type} `{Clock W} `{K8sLib}.
Abbreviation MC := (M (RolloutContext * W)).

Definition modStatus (f : RolloutStatus -> RolloutStatus) : MC unit :=
  modC (fun c => c <| NewStatus := f (NewStatus c) |>).

(** [c.NewStatus.GetSubStatus()] read and written through: nil panics. *)
Definition getSub : MC CommonStatus :=
  c <- getC ;; lift (deref (GetSubStatus (NewStatus c))).
Definition modSub (f : CommonStatus -> CommonStatus) : MC unit :=
  getSub ;; modStatus (modSubStatus f).

Definition now : MC Z := inWorld time_Now.

(** [expectedTime := time.Now().Add(d); c.RecheckTime = &expectedTime] *)
Definition recheckAfter (d : Z) : MC unit :=
  t <- now ;; modC (fun c => c <| RecheckTime := Some (t + d) |>).
Definition recheckLater : MC unit := recheckAfter (rolloutGracePeriodSeconds * Second).

(** The jump target is the user's next index when it differs from the default. *)
Definition doStepJump (rollout : Rollout) (steps : list CanaryStep) (workloadReplicas : Z)
    : MC bool :=
  c <- getC ;;
  match GetUnifiedStatus (NewStatus c) with
  | None => ret false
  | Some status =>
      let nextIndex := NextStepIndex (unifiedCommon status) in
      default_ <- lift (NextBatchIndex rollout (CurrentStepIndex (unifiedCommon status))) ;;
      if bool_decide (nextIndex <> default_) && bool_decide (nextIndex > 0)
         && bool_decide (nextIndex <= wrap32 (len steps))
      then
        next <- lift (NextBatchIndex rollout nextIndex) ;;
        modSub (fun s => s <| CurrentStepIndex := nextIndex |> <| NextStepIndex := next |>) ;;
        nextStep <- lift (go_index steps (nextIndex - 1)) ;;
        let nextStepReplicas := scaled (Replicas nextStep) workloadReplicas in
        modSub (fun s => s <| CurrentStepState :=
          if decide (wrap32 nextStepReplicas = unifiedReplicas status)
          then CanaryStepStateTrafficRouting else CanaryStepStateInit |>) ;;
        t <- now ;;
        modSub (fun s => s <| cs_LastUpdateTime := Some t |>) ;;
        ret true
      else ret false
  end.

(** The step whose traffic strategy applies: outside the plan, the first one. *)
Definition newTrafficRoutingContext (c : RolloutContext) : res TrafficRoutingContext :=
  res_bind (deref (GetSubStatus (NewStatus c))) (fun sub =>
  let currentIndex := wrap32 (CurrentStepIndex sub - 1) in
  res_bind (GetSteps (ctx_Strategy c)) (fun steps =>
  res_bind (if decide (currentIndex < 0 \/ currentIndex >= len steps)
            then go_index steps 0 else go_index steps currentIndex) (fun currentStep =>
  res_bind (DisableGenerateCanaryService (ctx_Strategy c)) (fun disable =>
  res_bind (GetTrafficRouting (ctx_Strategy c)) (fun objectRef =>
  Ok {| tr_Key := ("Rollout(" +:+ fst (ctx_Key c) +:+ "/" +:+ snd (ctx_Key c) +:+ ")")%string;
        tr_Namespace := fst (ctx_Key c);
        ObjectRef_ := objectRef;
        tr_Strategy := StepTraffic currentStep;
        CanaryServiceSelectorPatch :=
          match Canary (ctx_Strategy c) with
          | Some canary =>
              if disable : bool then ∅ else
              match cn_PatchPodTemplateMetadata canary with
              | Some p => default ∅ (PatchLabels p)
              | None => ∅
              end
          | None => ∅
          end;
        OnlyTrafficRouting := false;
        OwnerRef := NewControllerRef (ro_Meta (ctx_Rollout c)) rolloutsAPI "Rollout";
        RevisionLabelKey := match ctx_Workload c with
                            | Some w => wl_RevisionLabelKey w | None => "" end;
        tr_StableRevision := StableRevision sub;
        tr_CanaryRevision := PodTemplateHash sub;
        tr_LastUpdateTime := cs_LastUpdateTime sub;
        tr_DisableGenerateCanaryService := disable;
        RecheckDuration := 0 |}))))).

(** Run a manager operation on a fresh context [tr], which stays readable whether
    the call failed or not. *)
Definition withTR {A} (tr : TrafficRoutingContext) (m : M (TrafficRoutingContext * W) A)
    : MC (TrafficRoutingContext * (A + goerror)) :=
  fun s => match m (tr, snd s) with
           | (Ok a, (tr', w')) => (Ok (tr', inl a), (fst s, w'))
           | (Err e, (tr', w')) => (Ok (tr', inr e), (fst s, w'))
           | (Panic, (_, w')) => (Panic, (fst s, w'))
           end.
End Shared.

(** ** BatchRelease helpers (rollout_releaseManager.go) *)

Section BatchReleaseHelpers.
Context {W : Type} `{Clock W} `{Api W BatchRelease} `{WorkloadClient W} `{K8sLib}
  `{WorkloadFilter}.
Abbreviation MC := (M (RolloutContext * W)).

Definition fetchBatchRelease (key : ObjectKey) : M W BatchRelease := api_Get key.

Definition removeRolloutProgressingAnnotation : MC unit :=
  c <- getC ;;
  match ctx_Workload c with
  | None => ret tt
  | Some workload =>
      match default ∅ (Annotations (wl_Meta workload)) !! InRolloutProgressingAnnotation with
      | None => ret tt
      | Some _ =>
          let workloadRef := WorkloadRef (ro_Spec (ctx_Rollout c)) in
          let workloadGVK := FromAPIVersionAndKind (APIVersion workloadRef) (Kind workloadRef) in
          obj <- lift (deref (GetEmptyWorkloadObject workloadGVK)) ;;
          inWorld (patchWorkload obj (keyOf (wl_Meta workload))
                     (PatchAnnotation InRolloutProgressingAnnotation None))
      end
  end.

(** The bool: retry later.  The error cases also answer true in the source, which
    no caller reads. *)
Definition removeBatchRelease : MC bool :=
  c <- getC ;;
  r <- catch (inWorld (api_Get (O := BatchRelease) (ctx_Key c))) ;;
  match r with
  | inr err => if IsNotFound err then ret false else fail err
  | inl batch =>
      if deleting (br_Meta batch) then ret true else
      inWorld (api_Delete (O := BatchRelease) (keyOf (br_Meta batch))) ;;
      ret true
  end.

Definition finalizingBatchRelease : MC bool :=
  c <- getC ;;
  r <- catch (inWorld (fetchBatchRelease (ctx_Key c))) ;;
  match r with
  | inr err => if IsNotFound err then ret false else fail err
  | inl br =>
      let plan := br_Plan br in
      if bool_decide (BatchPartition plan = None)
         && bool_decide (br_Phase (br_Status br) = RolloutPhaseCompleted)
      then ret false
      else if bool_decide (BatchPartition plan = None)
              && Bool.eqb (bool_decide (FinalizingPolicy plan = WaitResumeFinalizingPolicyType))
                          (WaitReady c)
      then ret true
      else
        let policy := if WaitReady c then WaitResumeFinalizingPolicyType
                      else ImmediateFinalizingPolicyType in
        inWorld (api_Patch (O := BatchRelease) (br_Meta br) (PatchFinalize policy)) ;;
        ret true
  end.

(** [m.createBatchRelease] is the argument [create]: the object, or a panic.  The
    result is [(done, br)]. *)
Definition runBatchRelease
    (create : Rollout -> string -> Z -> bool -> res BatchRelease)
    (rollout : Rollout) (rolloutId : string) (batch : Z) (isRollback : bool)
    : M W (bool * BatchRelease) :=
  let batch := wrap32 (batch - 1) in
  r <- catch (fetchBatchRelease (keyOf (ro_Meta rollout))) ;;
  match r with
  | inr err =>
      if IsNotFound err then
        br <- lift (create rollout rolloutId batch isRollback) ;;
        r' <- catch (api_Create br) ;;
        match r' with
        | inr err' => if IsAlreadyExists err' then ret (false, br) else fail err'
        | inl _ => ret (false, br)
        end
      else fail err
  | inl br =>
      newBr <- lift (create rollout rolloutId batch isRollback) ;;
      if bool_decide (br_Spec br = br_Spec newBr)
         && bool_decide (Annotations (br_Meta br) = Annotations (br_Meta newBr))
      then ret (true, br)
      else
        let br' := br <| br_Spec := br_Spec newBr |>
                      <| br_Meta := (br_Meta br) <| Annotations := Annotations (br_Meta newBr) |> |> in
        api_Update br' ;;
        ret (false, br')
  end.
End BatchReleaseHelpers.

(** ** Pieces of both managers *)

(** [util.HashReleasePlanBatches]: a digest of the JSON of the plan. *)
Class PlanHash := HashReleasePlanBatches : ReleasePlan -> string.

(** The state's text in [fmt.Sprintf("%s", state)]. *)
Definition batchStateString (s : BatchReleaseBatchStateType) : string :=
  match s with
  | UpgradingBatchState => "Upgrading"
  | VerifyingBatchState => "Verifying"
  | ReadyBatchState => "Ready"
  | BatchStateNone => ""
  | BatchStateOther s => s
  end.

Definition stepMessage (current steps : Z) (rest : string) : string :=
  ("Rollout is in step(" +:+ itoa current +:+ "/" +:+ itoa steps +:+ ")" +:+ rest)%string.

Definition syncMessage (br : BatchRelease) : string :=
  let st := br_Status br in
  let msg := ("BatchRelease is at state " +:+ batchStateString (CurrentBatchState (br_CanaryStatus st))
    +:+ ", rollout-id " +:+ br_ObservedRolloutID st
    +:+ ", step " +:+ itoa (wrap32 (CurrentBatch (br_CanaryStatus st) + 1)))%string in
  if nonempty (br_Message st) then (msg +:+ ", " +:+ br_Message st)%string else msg.

(** The batches of a plan: a step without replicas dereferences nil. *)
Fixpoint stepBatches (steps : list CanaryStep) : res (list ReleaseBatch) :=
  match steps with
  | [] => Ok []
  | step :: rest =>
      res_bind (deref (Replicas step)) (fun r =>
      res_map (cons {| batch_CanaryReplicas := r |}) (stepBatches rest))
  end.

(** The annotations of a new BatchRelease: nil unless it rolls back in batches. *)
Definition rollbackAnnotations (rollout : Rollout) (isRollback : bool)
    : option (gmap string string) :=
  if isRollback then
    Some {[ RollbackInBatchAnnotation := annotation (ro_Meta rollout) RollbackInBatchAnnotation ]}
  else None.

Definition emptyBRStatus : BatchReleaseStatus :=
  mkBRStatus [] (mkBRCanaryStatus BatchStateNone 0 None 0 0 None) "" "" 0 "" 0 None ""
    RolloutPhaseNone "".

(** The BatchRelease of a plan, as both managers build it. *)
Definition newBatchRelease (rollout : Rollout) (plan : ReleasePlan) (isRollback : bool)
    : BatchRelease :=
  {| br_Meta := {| Namespace := Namespace (ro_Meta rollout); Name := Name (ro_Meta rollout);
                   UID := ""; Generation := 0; CreationTimestamp := 0; DeletionTimestamp := None;
                   OwnerReferences := [NewControllerRef (ro_Meta rollout) rolloutsAPI "Rollout"];
                   Finalizers := [];
                   Annotations := rollbackAnnotations rollout isRollback; Labels := ∅ |};
     br_Spec := {| br_WorkloadRef := WorkloadRef (ro_Spec rollout); br_ReleasePlan := plan |};
     br_Status := emptyBRStatus |}.

Section Pieces.
Context {W : Type} `{Clock W} `{PlanHash}.
Abbreviation MC := (M (RolloutContext * W)).

Definition getWorkload : MC Workload :=
  c <- getC ;; lift (deref (ctx_Workload c)).
Definition mkTR : MC TrafficRoutingContext :=
  c <- getC ;; lift (newTrafficRoutingContext c).

(** [cond := GetRolloutCondition(...); cond.Message = msg; c.NewStatus.Message =
    cond.Message]: [cond] is a copy, and nil panics. *)
Definition setProgressMessage (msg : string) : MC unit :=
  c <- getC ;;
  lift (deref (GetRolloutCondition (NewStatus c) RolloutConditionProgressing)) ;;
  modStatus (fun st => st <| Message := msg |>).

(** The status of the BatchRelease says that the plan it carries is done up to
    the step. *)
Definition planObserved (br : BatchRelease) : bool :=
  String.eqb (ObservedReleasePlanHash (br_Status br)) (HashReleasePlanBatches (br_Plan br))
  && bool_decide (Generation (br_Meta br) = br_ObservedGeneration (br_Status br)).
Definition batchReached (br : BatchRelease) (stepIndex : Z) : bool :=
  let st := br_CanaryStatus (br_Status br) in
  bool_decide (CurrentBatchState st = ReadyBatchState)
  && bool_decide (wrap32 (CurrentBatch st + 1) >= stepIndex).

(** Run a manager operation of the Init state; false: it wants a retry. *)
Definition initOperation (tr : TrafficRoutingContext)
    (op : M (TrafficRoutingContext * W) bool) : MC (TrafficRoutingContext * bool) :=
  r <- withTR tr op ;;
  match snd r with
  | inr err => fail err
  | inl true => recheckAfter (RecheckDuration (fst r)) ;; ret (fst r, false)
  | inl false => ret (fst r, true)
  end.

End Pieces.

(** ** The release-manager interface *)

Class ReleaseManager (W : Type) := {
  runCanary : M (RolloutContext * W) unit;
  doCanaryJump : M (RolloutContext * W) bool;
  doCanaryFinalising : M (RolloutContext * W) bool;
  createBatchRelease : Rollout -> string -> Z -> bool -> res BatchRelease
}.
Arguments runCanary {W}.
Arguments doCanaryJump {W}.
Arguments doCanaryFinalising {W}.
Arguments createBatchRelease {W}.

(** ** Frames of the rollout context *)

(** What a manager's run leaves alone: the rollout, the workload, the finalise
    inputs, and of the status all but its canary and blue-green parts and the message,
    and which of the two parts is set. *)
Definition sameReport (st st' : RolloutStatus) : Prop :=
  ObservedGeneration st' = ObservedGeneration st /\ st_CurrentStepIndex st' = st_CurrentStepIndex st
  /\ st_CurrentStepState st' = st_CurrentStepState st.
Definition sameShape (st st' : RolloutStatus) : Prop :=
  (is_Some (CanaryStatus st') <-> is_Some (CanaryStatus st))
  /\ (is_Some (BlueGreenStatus st') <-> is_Some (BlueGreenStatus st)).

Definition ctxFrame (c c' : RolloutContext) : Prop :=
  ctx_Rollout c' = ctx_Rollout c /\ ctx_Workload c' = ctx_Workload c
  /\ WaitReady c' = WaitReady c /\ FinalizeReason c' = FinalizeReason c
  /\ Conditions (NewStatus c') = Conditions (NewStatus c)
  /\ Phase (NewStatus c') = Phase (NewStatus c)
  /\ sameReport (NewStatus c) (NewStatus c')
  /\ sameShape (NewStatus c) (NewStatus c').

#[export] Instance ctxFrame_preorder : PreOrder ctxFrame.
Proof.
  split; [repeat split; auto|].
  intros c1 c2 c3 (?&?&?&?&?&?&(?&?&?)&[??]&[??]) (?&?&?&?&?&?&(?&?&?)&[??]&[??]).
  repeat split; try congruence; auto.
Qed.

Lemma ctxFrame_canary c c' :
  ctxFrame c c' -> is_Some (CanaryStatus (NewStatus c')) <-> is_Some (CanaryStatus (NewStatus c)).
Proof. intros Hf. apply Hf. Qed.
Lemma ctxFrame_blueGreen c c' :
  ctxFrame c c' -> is_Some (BlueGreenStatus (NewStatus c')) <-> is_Some (BlueGreenStatus (NewStatus c)).
Proof. intros Hf. apply Hf. Qed.

(** The new context, but for the parts of the status, the message and the recheck time. *)
Lemma ctxFrame_outside c c' :
  ctxFrame c c' ->
  c' = c <| RecheckTime := RecheckTime c' |>
         <| NewStatus := (NewStatus c) <| CanaryStatus := CanaryStatus (NewStatus c') |>
              <| BlueGreenStatus := BlueGreenStatus (NewStatus c') |>
              <| Message := Message (NewStatus c') |> |>.
Proof.
  destruct c as [? [] ? ? ? ?], c' as [? [] ? ? ? ?].
  intros (?&?&?&?&?&?&(?&?&?)&_). simpl in *. congruence.
Qed.

(** Where the release stands: current step, its state, next step and finalising step. *)
Definition standing (s : CommonStatus) : Z * CanaryStepState * Z * FinalisingStepType :=
  (CurrentStepIndex s, CurrentStepState s, NextStepIndex s, FinalisingStep s).
Definition stepView (c : RolloutContext) :=
  option_map standing (GetSubStatus (NewStatus c)).

Definition stepFrame (c c' : RolloutContext) : Prop :=
  ctxFrame c c' /\ stepView c' = stepView c.

#[export] Instance stepFrame_preorder : PreOrder stepFrame.
Proof.
  split; [intros c; split; [reflexivity|done]|].
  intros c1 c2 c3 [H1 E1] [H2 E2]. split; [by transitivity c2|congruence].
Qed.

Lemma sameShape_refl st : sameShape st st.
Proof. done. Qed.

Lemma sameShape_modSub f st : sameShape st (modSubStatus f st).
Proof. unfold sameShape, modSubStatus. destruct st as [? [] []]; simpl; rewrite ?is_Some_alt; done. Qed.

Lemma sameReport_modSub f st : sameReport st (modSubStatus f st).
Proof. unfold sameReport, modSubStatus. by destruct st as [? [] []]. Qed.

Lemma frame_status c f :
  Conditions (f (NewStatus c)) = Conditions (NewStatus c) ->
  Phase (f (NewStatus c)) = Phase (NewStatus c) ->
  sameReport (NewStatus c) (f (NewStatus c)) ->
  sameShape (NewStatus c) (f (NewStatus c)) ->
  ctxFrame c (c <| NewStatus := f (NewStatus c) |>).
Proof. intros ? ? (? & ? & ?) Hs. repeat split; simpl; try done; by apply Hs. Qed.

Lemma stepFrame_message msg c : stepFrame c (c <| NewStatus := (NewStatus c) <| Message := msg |> |>).
Proof. split; [by apply (frame_status c (fun st => st <| Message := msg |>))|done]. Qed.

Lemma stepFrame_recheck t c : stepFrame c (c <| RecheckTime := t |>).
Proof. split; [repeat split; done|done]. Qed.

#[export] Hint Resolve stepFrame_message stepFrame_recheck sameShape_refl sameShape_modSub : frames.

Section frame_lemmas.
Context {W : Type} `{Clock W}.
Abbreviation MC := (M (RolloutContext * W)).

Lemma preserves_modSub (R : RolloutContext -> RolloutContext -> Prop) `{!PreOrder R} f :
  (forall c s, GetSubStatus (NewStatus c) = Some s ->
     R c (c <| NewStatus := modSubStatus f (NewStatus c) |>)) ->
  preserves R (modSub f : MC unit).
Proof.
  intros Hf c w r c' w'. unfold modSub, getSub, modStatus, bind, getC, lift, modC. simpl.
  destruct (GetSubStatus (NewStatus c)) eqn:E; simpl; intros [= <- <- <-]; [eauto|reflexivity].
Qed.

Lemma ctxFrame_modSub f c : ctxFrame c (c <| NewStatus := modSubStatus f (NewStatus c) |>).
Proof.
  destruct (modSub_common f (NewStatus c)) as (H1 & H2 & _).
  apply (frame_status c (modSubStatus f)); [done|done|apply sameReport_modSub|apply sameShape_modSub].
Qed.

Lemma preserves_withTR {A} (R : RolloutContext -> RolloutContext -> Prop) `{!PreOrder R} tr
    (m : M (TrafficRoutingContext * W) A) : preserves R (withTR tr m).
Proof.
  intros c w r c' w'. unfold withTR. simpl.
  destruct (m (tr, w)) as [[a|e|] [tr' w1]]; intros [= <- <- <-]; reflexivity.
Qed.

Lemma stepFrame_withTR {A} tr (m : M (TrafficRoutingContext * W) A) :
  preserves stepFrame (withTR tr m).
Proof. apply preserves_withTR, stepFrame_preorder. Qed.

Lemma stepFrame_now : preserves stepFrame (now : MC Z).
Proof. unfold now. solve_preserves. Qed.

Lemma preserves_recheckAfter d : preserves stepFrame (recheckAfter d : MC unit).
Proof. unfold recheckAfter, now. solve_preserves. Qed.
Lemma preserves_recheckLater : preserves stepFrame (recheckLater : MC unit).
Proof. apply preserves_recheckAfter. Qed.
Hint Resolve ctxFrame_modSub stepFrame_withTR stepFrame_now preserves_recheckAfter : frames.

Lemma preserves_setProgressMessage msg : preserves stepFrame (setProgressMessage msg : MC unit).
Proof. unfold setProgressMessage, modStatus. solve_preserves. Qed.

Lemma preserves_initOperation tr op : preserves stepFrame (initOperation tr op : MC _).
Proof. unfold initOperation. solve_preserves. Qed.
End frame_lemmas.

#[export] Hint Resolve ctxFrame_modSub stepFrame_withTR stepFrame_now preserves_recheckAfter
  preserves_recheckLater preserves_setProgressMessage preserves_initOperation : frames.

Section done_lemmas.
Context {W : Type} `{Clock W} `{Api W BatchRelease}.

Lemma runBatchRelease_done create rollout id batch rb (w : W) br w' :
  runBatchRelease create rollout id batch rb w = (Ok (true, br), w') ->
  exists want wa, api_Get (keyOf (ro_Meta rollout)) w = (Ok br, wa)
    /\ create rollout id (wrap32 (batch - 1)) rb = Ok want
    /\ br_Spec br = br_Spec want /\ Annotations (br_Meta br) = Annotations (br_Meta want).
Proof.
  unfold runBatchRelease, fetchBatchRelease. intros Hrun. inv_run; try done.
  apply andb_true_iff in Eb as [?%bool_decide_eq_true ?%bool_decide_eq_true]. simplify_eq/=.
  do 2 eexists. split; [eassumption|]. done.
Qed.

(** The pause duration of a step is over at some reading of the clock. *)
Definition durationOver (step : CanaryStep) (s : CommonStatus) : Prop :=
  exists seconds last (w : W), Duration (Pause step) = Some seconds
    /\ cs_LastUpdateTime s = Some last /\ last + Second * seconds < fst (clock_now w).

(** The last step of a canary that updates every pod does not pause. *)
Definition pauseOver (steps : list CanaryStep) (step : CanaryStep) (s : CommonStatus) : Prop :=
  (wrap32 (len steps) = CurrentStepIndex s
   /\ exists r, Replicas step = Some r /\ StrVal r = "100%"%string)
  \/ durationOver step s.
End done_lemmas.

(** ** Step jumps *)

Lemma modSub_compose f g st :
  modSubStatus f (modSubStatus g st) = modSubStatus (fun s => f (g s)) st.
Proof. unfold modSubStatus. by destruct st as [? [] []]. Qed.

Lemma modSub_ext f g st s :
  GetSubStatus st = Some s -> f s = g s -> modSubStatus f st = modSubStatus g st.
Proof.
  unfold GetSubStatus, modSubStatus. destruct st as [? [] []]; simpl; intros [= <-] E;
    by rewrite E.
Qed.

Lemma unified_sub st u : GetUnifiedStatus st = Some u -> GetSubStatus st = Some (unifiedCommon u).
Proof.
  unfold GetUnifiedStatus, GetSubStatus.
  destruct st as [? [] []]; simpl; naive_solver.
Qed.

Section jump.
Context {W : Type} `{Clock W} `{K8sLib}.
Abbreviation MC := (M (RolloutContext * W)).

Lemma modSub_run f c (w : W) s :
  GetSubStatus (NewStatus c) = Some s ->
  modSub f (c, w) = (Ok tt, (c <| NewStatus := modSubStatus f (NewStatus c) |>, w)).
Proof. intros Hs. unfold modSub, getSub, bind, getC, lift. simpl. by rewrite Hs. Qed.

Lemma getSub_set c f s :
  GetSubStatus (NewStatus c) = Some s ->
  GetSubStatus (NewStatus (c <| NewStatus := modSubStatus f (NewStatus c) |>)) = Some (f s).
Proof. intros Hs. simpl. by rewrite getSub_modSub, Hs. Qed.

Definition jumpsTo (n : Z) (s : CommonStatus) : bool :=
  bool_decide (NextStepIndex s <> nextIndex n (CurrentStepIndex s))
  && bool_decide (1 <= NextStepIndex s <= n).

(** What a jump writes: the new indexes, the state and the time. *)
Definition jumped (n : Z) (toTraffic : bool) (t : Z) (s : CommonStatus) : CommonStatus :=
  s <| CurrentStepIndex := NextStepIndex s |> <| NextStepIndex := nextIndex n (NextStepIndex s) |>
    <| CurrentStepState := if toTraffic then CanaryStepStateTrafficRouting
                           else CanaryStepStateInit |>
    <| cs_LastUpdateTime := Some t |>.

Lemma jumped_eq n (b : Prop) `{Decision b} t s :
  s <| CurrentStepIndex := NextStepIndex s |> <| NextStepIndex := nextIndex n (NextStepIndex s) |>
    <| CurrentStepState := if decide b then CanaryStepStateTrafficRouting
                           else CanaryStepStateInit |>
    <| cs_LastUpdateTime := Some t |>
  = jumped n (bool_decide b) t s.
Proof. unfold jumped. by rewrite <- (decide_bool_decide b). Qed.

Lemma doStepJump_run (rollout : Rollout) (steps : list CanaryStep) (replicas : Z)
    (c : RolloutContext) (w : W) (u : UnifiedStatus)
    (Hsteps : hasSteps rollout steps)
    (Hu : GetUnifiedStatus (NewStatus c) = Some u)
    (Hcur : 0 <= CurrentStepIndex (unifiedCommon u) < 2 ^ 31) :
  let s := unifiedCommon u in
  if jumpsTo (len steps) s then
    exists step, go_index steps (NextStepIndex s - 1) = Ok step
    /\ doStepJump rollout steps replicas (c, w) =
       let toTraffic := bool_decide (wrap32 (scaled (Replicas step) replicas) = unifiedReplicas u) in
       (Ok true,
        (c <| NewStatus := modSubStatus (jumped (len steps) toTraffic (fst (clock_now w)))
                             (NewStatus c) |>, snd (clock_now w)))
  else doStepJump rollout steps replicas (c, w) = (Ok false, (c, w)).
Proof.
  intros s. pose proof (unified_sub _ _ Hu) as Hs. fold s in Hs, Hcur.
  pose proof (NextBatchIndex_val _ _ _ Hsteps Hcur) as Hnext.
  pose proof (len_nonneg steps) as Hlen. destruct Hsteps as [Hst Hn].
  assert (Hdef : doStepJump rollout steps replicas (c, w) =
    (if jumpsTo (len steps) s then
       (next <- lift (NextBatchIndex rollout (NextStepIndex s)) ;;
        modSub (fun x => x <| CurrentStepIndex := NextStepIndex s |> <| NextStepIndex := next |>) ;;
        nextStep <- lift (go_index steps (NextStepIndex s - 1)) ;;
        modSub (fun x => x <| CurrentStepState :=
          if decide (wrap32 (scaled (Replicas nextStep) replicas) = unifiedReplicas u)
          then CanaryStepStateTrafficRouting else CanaryStepStateInit |>) ;;
        t <- now ;; modSub (fun x => x <| cs_LastUpdateTime := Some t |>) ;; ret true)
     else ret false) (c, w)).
  { unfold doStepJump, bind at 1, getC at 1. simpl. rewrite Hu. fold s.
    unfold bind at 1. rewrite Hnext. unfold lift at 1.
    rewrite wrap32_id by (unfold in32; lia). unfold jumpsTo.
    rewrite <- andb_assoc.
    replace (bool_decide (NextStepIndex s > 0) && bool_decide (NextStepIndex s <= len steps))
      with (bool_decide (1 <= NextStepIndex s <= len steps))
      by (repeat case_bool_decide; try done; lia).
    destruct (_ && _); done. }
  rewrite Hdef. destruct (jumpsTo (len steps) s) eqn:Hj; [|done].
  unfold jumpsTo in Hj. apply andb_true_iff in Hj as [_ Hr%bool_decide_eq_true].
  destruct (go_index_ok steps (NextStepIndex s - 1)) as (step & Hstep & _); [lia|].
  exists step. split; [done|].
  rewrite (NextBatchIndex_val _ steps) by (done || lia).
  unfold bind, lift. erewrite modSub_run by done. rewrite Hstep.
  erewrite modSub_run by (by apply getSub_set). unfold now, inWorld, time_Now. simpl.
  destruct (clock_now w) as [t w1]. simpl.
  erewrite modSub_run by (simpl; rewrite !getSub_modSub, Hs; done).
  unfold ret. simpl. rewrite !modSub_compose.
  by erewrite (modSub_ext _ (jumped (len steps) _ t)) by (done || apply jumped_eq).
Qed.

(** Step jumps.  [doStepJump] jumps exactly when the next index of the status
    is a step of the plan other than the default next one; it then makes that
    step current, recomputes the default next index, and restarts the step at
    traffic routing when the step's replicas are already updated and from the
    beginning otherwise, touching nothing else of the context; else it changes
    nothing at all.  It never fails. *)
Theorem doStepJump_spec (rollout : Rollout) (steps : list CanaryStep) (replicas : Z)
    (c : RolloutContext) (w : W) (u : UnifiedStatus)
    (Hsteps : hasSteps rollout steps)
    (Hu : GetUnifiedStatus (NewStatus c) = Some u)
    (Hcur : 0 <= CurrentStepIndex (unifiedCommon u) < 2 ^ 31) :
  let s := unifiedCommon u in
  let jump := jumpsTo (len steps) s in
  exists c' w', doStepJump rollout steps replicas (c, w) = (Ok jump, (c', w'))
  /\ (jump = false -> c' = c /\ w' = w)
  /\ (jump = true -> ctxFrame c c' /\ exists s' step,
        GetSubStatus (NewStatus c') = Some s'
        /\ steps !! Z.to_nat (NextStepIndex s - 1) = Some step
        /\ CurrentStepIndex s' = NextStepIndex s
        /\ legalNext (len steps) (NextStepIndex s')
        /\ NextBatchIndex rollout (CurrentStepIndex s') = Ok (NextStepIndex s')
        /\ CurrentStepState s' =
           (if decide (wrap32 (scaled (Replicas step) replicas) = unifiedReplicas u)
            then CanaryStepStateTrafficRouting else CanaryStepStateInit)
        /\ FinalisingStep s' = FinalisingStep s /\ RolloutHash s' = RolloutHash s).
Proof.
  intros s jump. pose proof (doStepJump_run rollout steps replicas c w u Hsteps Hu Hcur) as Hrun.
  cbv zeta in Hrun. fold s jump in Hrun. destruct jump eqn:Hj; [|exists c, w; split; [exact Hrun|]; split; [intros _; by split|done]].
  destruct Hrun as (step & Hstep & Hrun). do 2 eexists. split; [exact Hrun|].
  split; [done|]. intros _. split; [apply ctxFrame_modSub|].
  unfold jump, jumpsTo in Hj. apply andb_true_iff in Hj as [_ Hr%bool_decide_eq_true].
  pose proof (go_index_ok steps (NextStepIndex s - 1) ltac:(lia)) as (step' & H1 & H2).
  exists (jumped (len steps) (bool_decide (wrap32 (scaled (Replicas step) replicas) = unifiedReplicas u))
           (fst (clock_now w)) s), step.
  rewrite Hstep in H1. injection H1 as <-. split; [by apply getSub_set, unified_sub|].
  split; [done|]. split; [done|]. split; [apply nextIndex_range; lia|].
  split; [apply NextBatchIndex_val; [done|]; destruct Hsteps; simpl; lia|].
  split; [unfold jumped; simpl; symmetry; apply decide_bool_decide|done].
Qed.
End jump.

(** ** The abstract step machine

    The promise of a release manager: one call of [runCanary] moves the standing of
    the release along one edge of this machine over a plan of [n] steps.  [Upgraded],
    [Routed] and [PauseOver] are what the manager has to have observed for the
    edges that need it; [target] is the user's jump request. *)

Section machine.
Variables (n : Z) (target : Z) (Upgraded Routed PauseOver : Prop).

Inductive stepTrans : Z * CanaryStepState -> Z * CanaryStepState -> Prop :=
  | step_stay p : stepTrans p p
  | step_init i : stepTrans (i, CanaryStepStateInit) (i, CanaryStepStateUpgrade)
  | step_upgrade i s s' :
      s = CanaryStepStateInit \/ s = CanaryStepStateUpgrade ->
      s' = CanaryStepStateTrafficRouting \/ s' = CanaryStepStateMetricsAnalysis ->
      Upgraded -> stepTrans (i, s) (i, s')
  | step_route i :
      Routed -> stepTrans (i, CanaryStepStateTrafficRouting) (i, CanaryStepStateMetricsAnalysis)
  | step_metrics i : stepTrans (i, CanaryStepStateMetricsAnalysis) (i, CanaryStepStatePaused)
  | step_pause i :
      PauseOver -> stepTrans (i, CanaryStepStatePaused) (i, CanaryStepStateReady)
  | step_next i : i < n -> stepTrans (i, CanaryStepStateReady) (i + 1, CanaryStepStateInit)
  | step_complete i : n <= i -> stepTrans (i, CanaryStepStateReady) (i, CanaryStepStateCompleted)
  | step_jump i s s' :
      target <> nextIndex n i -> 1 <= target <= n ->
      s' = CanaryStepStateInit \/ s' = CanaryStepStateTrafficRouting ->
      stepTrans (i, s) (target, s').

(** Every edge stays inside the plan. *)
Lemma stepTrans_range p q : stepTrans p q -> 1 <= fst p <= n -> 1 <= fst q <= n.
Proof. destruct 1; simpl; lia. Qed.

(** Only the edge that leaves the last step completes the release. *)
Lemma stepTrans_completed p q :
  stepTrans p q -> snd q = CanaryStepStateCompleted ->
  p = q \/ (snd p = CanaryStepStateReady /\ n <= fst p /\ fst q = fst p).
Proof. destruct 1; simpl; intros; naive_solver. Qed.
End machine.

(** What one run of a manager may do to the context, from the standing [s]. *)
Definition stepPost (n : Z) (Upgraded Routed PauseOver : Prop) (s : CommonStatus)
    (c c' : RolloutContext) : Prop :=
  ctxFrame c c' /\ exists s', GetSubStatus (NewStatus c') = Some s'
  /\ stepTrans n (NextStepIndex s) Upgraded Routed PauseOver
       (CurrentStepIndex s, CurrentStepState s) (CurrentStepIndex s', CurrentStepState s')
  /\ FinalisingStep s' = FinalisingStep s
  /\ (NextStepIndex s' = NextStepIndex s \/ NextStepIndex s' = nextIndex n (CurrentStepIndex s')).

Lemma stepView_eq c c' s :
  stepView c' = stepView c -> GetSubStatus (NewStatus c) = Some s ->
  exists s', GetSubStatus (NewStatus c') = Some s' /\ standing s' = standing s.
Proof.
  unfold stepView. intros E Hs. rewrite Hs in E. simpl in E.
  destruct (GetSubStatus (NewStatus c')) as [s'|]; [|done]. exists s'. simpl in E.
  split; [done|congruence].
Qed.

Lemma stepPost_stay n U Ro P s c c' :
  GetSubStatus (NewStatus c) = Some s -> stepFrame c c' -> stepPost n U Ro P s c c'.
Proof.
  intros Hs [Hf Hv]. split; [done|]. destruct (stepView_eq _ _ _ Hv Hs) as (s' & Hs' & E).
  unfold standing in E. injection E as E1 E2 E3 E4.
  exists s'. rewrite E1, E2, E3, E4. repeat split; auto using step_stay.
Qed.

(** Work that keeps the standing may precede and follow the edge. *)
Lemma stepPost_frame_l n U Ro P s s1 c c1 c' :
  stepFrame c c1 -> GetSubStatus (NewStatus c) = Some s -> GetSubStatus (NewStatus c1) = Some s1 ->
  stepPost n U Ro P s1 c1 c' -> stepPost n U Ro P s c c'.
Proof.
  intros [Hf Hv] Hs Hs1 (Hf' & s' & Hs' & Ht & Hfin & Hn). split; [by transitivity c1|].
  destruct (stepView_eq _ _ _ Hv Hs) as (s1' & Hs1' & E). assert (s1' = s1) as -> by congruence.
  unfold standing in E. injection E as E1 E2 E3 E4. exists s'. rewrite <- E1, <- E2, <- E3, <- E4. done.
Qed.

Lemma stepPost_frame_r n U Ro P s c c1 c' :
  stepPost n U Ro P s c c1 -> stepFrame c1 c' -> stepPost n U Ro P s c c'.
Proof.
  intros (Hf & s1 & Hs1 & Ht & Hfin & Hn) [Hf' Hv]. split; [by transitivity c1|].
  destruct (stepView_eq _ _ _ Hv Hs1) as (s' & Hs' & E).
  unfold standing in E. injection E as E1 E2 E3 E4. exists s'. rewrite E1, E2, E3, E4. done.
Qed.

(** ** Reasoning about one run *)

(** Reached from [c0], whose sub status is [s0], with the state moved to [st]. *)
Definition standsAt (c0 : RolloutContext) (s0 : CommonStatus) (st : CanaryStepState)
    (c : RolloutContext) : Prop :=
  ctxFrame c0 c /\ exists s, GetSubStatus (NewStatus c) = Some s
  /\ standing s = (CurrentStepIndex s0, st, NextStepIndex s0, FinalisingStep s0).

Lemma standsAt_start c0 s0 :
  GetSubStatus (NewStatus c0) = Some s0 -> standsAt c0 s0 (CurrentStepState s0) c0.
Proof. intros. split; [reflexivity|]. by exists s0. Qed.

Lemma standsAt_frame c0 s0 st c c' : standsAt c0 s0 st c -> stepFrame c c' -> standsAt c0 s0 st c'.
Proof.
  intros (Hf & s & Hs & E) [Hf' Hv]. split; [by transitivity c|].
  destruct (stepView_eq _ _ _ Hv Hs) as (s' & Hs' & E'). exists s'. by rewrite E'.
Qed.

Lemma standsAt_post n U Ro P c0 s0 st c :
  standsAt c0 s0 st c ->
  stepTrans n (NextStepIndex s0) U Ro P (CurrentStepIndex s0, CurrentStepState s0)
    (CurrentStepIndex s0, st) ->
  stepPost n U Ro P s0 c0 c.
Proof.
  intros (Hf & s & Hs & E) Ht. split; [done|]. exists s.
  unfold standing in E. injection E as -> -> -> ->. repeat split; auto.
Qed.

Section wp_standing.
Context {W : Type}.
Implicit Types (Q : RolloutContext -> Prop).

(** Work that keeps the standing, then a continuation. *)
Lemma wp_stand_bind {A B} (m : M (RolloutContext * W) A) (k : A -> M _ B) Q c0 s0 st c w :
  preserves stepFrame m -> standsAt c0 s0 st c ->
  (forall c', standsAt c0 s0 st c' -> Q c') ->
  (forall a c' w', m (c, w) = (Ok a, (c', w')) -> stepFrame c c' -> standsAt c0 s0 st c' ->
     wp (k a) (fun _ s => Q (fst s)) (c', w')) ->
  wp (bind m k) (fun _ s => Q (fst s)) (c, w).
Proof.
  intros Hm Hat HQ Hk. apply wp_bind. apply (wp_preserves stepFrame); [done|].
  intros r c' w' E F. assert (standsAt c0 s0 st c') by (by eapply standsAt_frame).
  destruct r; simpl; auto.
Qed.

Lemma wp_stand {A} (m : M (RolloutContext * W) A) Q c0 s0 st c w :
  preserves stepFrame m -> standsAt c0 s0 st c ->
  (forall c', standsAt c0 s0 st c' -> Q c') ->
  wp m (fun _ s => Q (fst s)) (c, w).
Proof.
  intros Hm Hat HQ. apply (wp_preserves stepFrame); [done|].
  intros r c' w' E F. apply HQ. by eapply standsAt_frame.
Qed.
End wp_standing.

(** ** Finalising tasks

    Both managers finalise by a sequence of tasks that depends on the reason; the
    status remembers the current one. *)

(** The loop of the two [next*Task] functions: the element after the first
    occurrence that has one, else the end. *)
Fixpoint taskAfter (taskSequence : list FinalisingStepType) (currentTask : FinalisingStepType)
    : FinalisingStepType :=
  match taskSequence with
  | t :: (t' :: _) as rest =>
      if decide (currentTask = t) then t' else taskAfter rest currentTask
  | _ => FinalisingStepTypeEnd
  end.

Definition nextTask (taskSequence : list FinalisingStepType) (currentTask : FinalisingStepType)
    : FinalisingStepType :=
  if decide (currentTask = FinalisingStepNone)
  then hd FinalisingStepTypeEnd taskSequence
  else taskAfter taskSequence currentTask.


Lemma taskAfter_lookup seq k t :
  NoDup seq -> seq !! k = Some t -> taskAfter seq t = default FinalisingStepTypeEnd (seq !! S k).
Proof.
  revert k. induction seq as [|x seq IH]; intros k; [done|].
  rewrite NoDup_cons. intros [Hx Hnd] Hk. destruct seq as [|y seq].
  { by destruct k. }
  destruct k as [|k]; simpl in Hk.
  - injection Hk as ->. simpl. by rewrite decide_True.
  - change (taskAfter (x :: y :: seq) t)
      with (if decide (t = x) then y else taskAfter (y :: seq) t).
    rewrite decide_False; [by rewrite (IH k)|].
    intros ->. apply Hx. by eapply list_elem_of_lookup_2.
Qed.

Lemma hd_lookup (seq : list FinalisingStepType) :
  seq <> [] -> seq !! 0%nat = Some (hd FinalisingStepTypeEnd seq).
Proof. by destruct seq. Qed.

(** One call of [doCanaryFinalising], as the finalising step sees it.  [Done t]: the
    operation of task [t] reported that nothing is left to do. *)
Section finalising.
Variables (seq : list FinalisingStepType) (Done : FinalisingStepType -> Prop).

Inductive finalEdge : FinalisingStepType -> FinalisingStepType -> Prop :=
  | final_stay f : finalEdge f f
  | final_start f : f <> FinalisingStepTypeEnd -> finalEdge f (hd FinalisingStepTypeEnd seq)
  | final_next t :
      t <> FinalisingStepNone -> t <> FinalisingStepTypeEnd -> Done t ->
      finalEdge t (nextTask seq t).

Hypothesis Hnodup : NoDup seq.
Hypothesis Hend : FinalisingStepTypeEnd ∉ seq.
Hypothesis Hne : seq <> [].

(** Every task before the current one is done. *)
Definition doneBefore (f : FinalisingStepType) : Prop :=
  (f = FinalisingStepTypeEnd -> forall t, t ∈ seq -> Done t)
  /\ forall k, seq !! k = Some f -> forall j t, (j < k)%nat -> seq !! j = Some t -> Done t.

(** The step is one the sequence itself leads to. *)
Definition onSequence (f : FinalisingStepType) : Prop :=
  f = FinalisingStepNone \/ f = FinalisingStepTypeEnd \/ f ∈ seq.

Lemma finalEdge_inv f f' :
  finalEdge f f' -> onSequence f /\ doneBefore f -> onSequence f' /\ doneBefore f'.
Proof using Hnodup Hend Hne.
  intros He [Hon [Hd1 Hd2]]. inversion He as [|? Hf|t Ht Hte Hdone]; subst; [done|..].
  - pose proof (hd_lookup seq Hne) as Hhd. split.
    { right; right. by eapply list_elem_of_lookup_2. }
    split.
    + intros E. exfalso. apply Hend. rewrite <- E. by eapply list_elem_of_lookup_2.
    + intros k Hk j t Hj. assert (k = 0%nat) as -> by (by eapply NoDup_lookup). lia.
  - destruct Hon as [->|[->|Hin]]; [done|done|].
    apply list_elem_of_lookup_1 in Hin as [k Hk].
    assert (Hnext : nextTask seq f = default FinalisingStepTypeEnd (seq !! S k)).
    { unfold nextTask. rewrite decide_False by done. by apply taskAfter_lookup. }
    assert (Hall : forall j t, (j <= k)%nat -> seq !! j = Some t -> Done t).
    { intros j t Hj Hjt. destruct (decide (j = k)) as [->|]; [by simplify_eq|].
      apply (Hd2 k Hk j t); [lia|done]. }
    rewrite Hnext. destruct (seq !! S k) as [t'|] eqn:Hk'; simpl.
    + split; [right; right; by eapply list_elem_of_lookup_2|]. split.
      * intros ->. exfalso. apply Hend. by eapply list_elem_of_lookup_2.
      * intros k' Hk'' j t Hj. assert (k' = S k) as -> by (by eapply NoDup_lookup).
        intros Hjt. apply (Hall j t); [lia|done].
    + split; [by right; left|]. split; [|intros k' Hk''; exfalso; apply Hend; by eapply list_elem_of_lookup_2].
      intros _ t [j Hj]%list_elem_of_lookup_1. apply (Hall j t); [|done].
      apply lookup_lt_Some in Hj. apply lookup_ge_None in Hk'. lia.
Qed.

Lemma finalEdges_inv f f' :
  rtc finalEdge f f' -> onSequence f /\ doneBefore f -> onSequence f' /\ doneBefore f'.
Proof using Hnodup Hend Hne. induction 1; eauto using finalEdge_inv. Qed.

Lemma onSequence_start :
  FinalisingStepNone ∉ seq ->
  onSequence FinalisingStepNone /\ doneBefore FinalisingStepNone.
Proof using.
  intros Hn. split; [by left|]. split; [done|].
  intros k Hk. exfalso. apply Hn. by eapply list_elem_of_lookup_2.
Qed.
End finalising.

(** What the finalising step is during one call, reached from [c0]. *)
Definition finalAt (c0 : RolloutContext) (f : FinalisingStepType) (c : RolloutContext) : Prop :=
  ctxFrame c0 c /\ exists s, GetSubStatus (NewStatus c) = Some s /\ FinalisingStep s = f.

Lemma finalAt_frame c0 f c c' : finalAt c0 f c -> stepFrame c c' -> finalAt c0 f c'.
Proof.
  intros (Hf & s & Hs & E) [Hf' Hv]. split; [by transitivity c|].
  destruct (stepView_eq _ _ _ Hv Hs) as (s' & Hs' & E'). exists s'. split; [done|].
  unfold standing in E'. congruence.
Qed.

(** The outcome of a call that started at [f0]. *)
Definition finalPost (seq : list FinalisingStepType) (Done : FinalisingStepType -> Prop)
    (c0 : RolloutContext) (f0 : FinalisingStepType) (r : res bool) (c' : RolloutContext) : Prop :=
  exists f', finalAt c0 f' c' /\ finalEdge seq Done f0 f'
  /\ (r = Ok true -> f' = FinalisingStepTypeEnd) /\ (r = Ok false -> f' <> FinalisingStepTypeEnd).

Lemma wp_final_bind {W A B} (m : M (RolloutContext * W) A) (k : A -> M _ B)
    (Q : res B -> RolloutContext -> Prop) c0 f c w :
  preserves stepFrame m -> finalAt c0 f c ->
  (forall e c', finalAt c0 f c' -> Q (Err e) c' /\ Q Panic c') ->
  (forall a c' w', m (c, w) = (Ok a, (c', w')) -> finalAt c0 f c' ->
     wp (k a) (fun r s => Q r (fst s)) (c', w')) ->
  wp (bind m k) (fun r s => Q r (fst s)) (c, w).
Proof.
  intros Hm Hat HQ Hk. apply wp_bind. apply (wp_preserves stepFrame); [done|].
  intros r c' w' E F. assert (finalAt c0 f c') by (by eapply finalAt_frame).
  destruct r as [a|e|]; simpl; [by auto|by apply HQ|by eapply (HQ ErrConflict)].
Qed.

Section annotation.
Context {W : Type} `{WorkloadClient W} `{K8sLib} `{WorkloadFilter}.
Abbreviation MC := (M (RolloutContext * W)).

Lemma preserves_removeAnnotation :
  preserves stepFrame (removeRolloutProgressingAnnotation : MC unit).
Proof. unfold removeRolloutProgressingAnnotation. solve_preserves. Qed.
End annotation.

(** ** The BatchRelease of a rollout *)

Section batch_release_properties.
Context {W : Type} `{Clock W} `{Api W BatchRelease} `{K8sLib}.

(** The outcome of one write, kept with the value to answer on success. *)
Definition afterWrite {A} (a : A) (m : M W unit) (w : W) : res A * W :=
  match m w with
  | (Ok _, w') => (Ok a, w')
  | (Err e, w') => (Err e, w')
  | (Panic, w') => (Panic, w')
  end.

Definition agrees (want br : BatchRelease) : Prop :=
  br_Spec br = br_Spec want /\ Annotations (br_Meta br) = Annotations (br_Meta want).

(** Driving the BatchRelease.  [runBatchRelease] creates a missing BatchRelease
    (one that appears meanwhile counts as created); when the stored one already has the
    wanted spec and annotations it writes nothing and reports that object as done;
    else it writes an object that has them, under the same key, with the stored status
    and finalizers, and reports not done, so that the next call that reads what was
    written is the one that reports done.  Every other error is returned. *)
Theorem runBatchRelease_spec (create : Rollout -> string -> Z -> bool -> res BatchRelease)
    (rollout : Rollout) (id : string) (batch : Z) (rb : bool) (want : BatchRelease) (w : W)
    (Hwant : create rollout id (wrap32 (batch - 1)) rb = Ok want) :
  let run := runBatchRelease create rollout id batch rb w in
  match api_Get (O := BatchRelease) (keyOf (ro_Meta rollout)) w with
  | (Ok br, w1) =>
      (agrees want br -> run = (Ok (true, br), w1))
      /\ (~ agrees want br -> exists br', run = afterWrite (false, br') (api_Update br') w1
           /\ agrees want br' /\ keyOf (br_Meta br') = keyOf (br_Meta br)
           /\ br_Status br' = br_Status br /\ Finalizers (br_Meta br') = Finalizers (br_Meta br))
  | (Err ErrNotFound, w1) =>
      run = match api_Create want w1 with
            | (Err ErrAlreadyExists, w2) => (Ok (false, want), w2)
            | _ => afterWrite (false, want) (api_Create want) w1
            end
  | (Err e, w1) => run = (Err e, w1)
  | (Panic, w1) => run = (Panic, w1)
  end.
Proof.
  intros run. unfold run, runBatchRelease, fetchBatchRelease, afterWrite, bind, catch, lift.
  destruct (api_Get _ w) as [[br|e|] w1]; [|destruct e; simpl; try done|done].
  - rewrite Hwant. split.
    + intros [E1 E2]. by rewrite !bool_decide_eq_true_2.
    + intros Hno. set (br' := (br <| br_Spec := _ |>) <| br_Meta := _ |>). exists br'.
      replace (bool_decide (br_Spec br = br_Spec want)
               && bool_decide (Annotations (br_Meta br) = Annotations (br_Meta want))) with false
        by (symmetry; apply andb_false_iff; rewrite !bool_decide_eq_false; unfold agrees in Hno;
            destruct (decide (br_Spec br = br_Spec want)); [right|left]; naive_solver).
      destruct (api_Update br' w1) as [[[]|e|] w2]; by split_and!.
  - rewrite Hwant. destruct (api_Create want w1) as [[[]|e|] w2]; [done| |done].
    by destruct e.
Qed.

(** Releasing the BatchRelease.  [removeBatchRelease] reports completion only when the
    API server says that the object is gone, and otherwise asks for its deletion exactly
    once, waiting while it is terminating; [finalizingBatchRelease] reports completion
    when the object is gone or has completed without a batch partition, asks for the
    policy that fits [WaitReady] when the object has not it yet, and otherwise waits
    without writing. *)
Theorem releaseBatchRelease_spec (c : RolloutContext) (w : W) :
  match api_Get (O := BatchRelease) (ctx_Key c) w with
  | (Ok br, w1) =>
      removeBatchRelease (c, w) =
        (if deleting (br_Meta br) then (Ok true, (c, w1))
         else let '(r, w2) := afterWrite true (api_Delete (O := BatchRelease) (keyOf (br_Meta br))) w1
              in (r, (c, w2)))
      /\ let resumed := bool_decide (BatchPartition (br_Plan br) = None) in
         let policy := if WaitReady c then WaitResumeFinalizingPolicyType
                       else ImmediateFinalizingPolicyType in
         finalizingBatchRelease (c, w) =
           (if resumed && bool_decide (br_Phase (br_Status br) = RolloutPhaseCompleted)
            then (Ok false, (c, w1))
            else if resumed && Bool.eqb
                      (bool_decide (FinalizingPolicy (br_Plan br) = WaitResumeFinalizingPolicyType))
                      (WaitReady c)
            then (Ok true, (c, w1))
            else let '(r, w2) := afterWrite true (api_Patch (O := BatchRelease) (br_Meta br)
                                                    (PatchFinalize policy)) w1 in (r, (c, w2)))
  | (Err ErrNotFound, w1) =>
      removeBatchRelease (c, w) = (Ok false, (c, w1))
      /\ finalizingBatchRelease (c, w) = (Ok false, (c, w1))
  | (Err e, w1) => removeBatchRelease (c, w) = (Err e, (c, w1))
      /\ finalizingBatchRelease (c, w) = (Err e, (c, w1))
  | (Panic, w1) => removeBatchRelease (c, w) = (Panic, (c, w1))
      /\ finalizingBatchRelease (c, w) = (Panic, (c, w1))
  end.
Proof.
  unfold removeBatchRelease, finalizingBatchRelease, fetchBatchRelease, afterWrite, bind, getC,
    catch, inWorld, ret. simpl.
  destruct (api_Get (ctx_Key c) w) as [[br|e|] w1]; [|by destruct e|done]. simpl. split.
  - destruct (deleting (br_Meta br)); [done|]. simpl.
    destruct (api_Delete _ w1) as [[[]|e|] w2]; done.
  - destruct (bool_decide (BatchPartition _ = None) && bool_decide (br_Phase _ = _)); [done|].
    destruct (bool_decide (BatchPartition _ = None) && Bool.eqb _ _); [done|]. simpl.
    destruct (api_Patch _ _ w1) as [[[]|e|] w2]; done.
Qed.
End batch_release_properties.
