(* ===== verification/CanaryManager.v ===== *)
(** * The canary release manager (pkg/controller/rollout/rollout_canary.go)

    [canaryReleaseManager] drives the steps of a canary or partition release: the
    state machine of [runCanary], the sequence of finalising tasks and the
    BatchRelease it asks for. *)

From S2P Require Export ReleaseManager.

(** [canaryReleaseManager.createBatchRelease] *)
Definition canary_createBatchRelease (rollout : Rollout) (rolloutID : string) (batch : Z)
    (isRollback : bool) : res BatchRelease :=
  res_bind (deref (Canary (ro_Strategy rollout))) (fun canary =>
  res_bind (stepBatches (cn_Steps canary)) (fun batches =>
  res_bind (GetRollingStyle (ro_Strategy rollout)) (fun style =>
  Ok (newBatchRelease rollout
        {| Batches := batches;
           BatchPartition := Some batch;
           RolloutID := rolloutID;
           FailureThreshold := cn_FailureThreshold canary;
           FinalizingPolicy := FinalizingPolicyNone;
           rp_PatchPodTemplateMetadata := cn_PatchPodTemplateMetadata canary;
           RollingStyle := style;
           EnableExtraWorkloadForCanary := cn_EnableExtraWorkloadForCanary canary |}
        isRollback)))).

(** ** Finalising tasks *)

Definition canaryTaskSequence (reason : string) : list FinalisingStepType :=
  if String.eqb reason FinaliseReasonRollback then
    [FinalisingStepRouteTrafficToStable; FinalisingStepResumeWorkload;
     FinalisingStepReleaseWorkloadControl; FinalisingStepRestoreStableService;
     FinalisingStepRemoveCanaryService]
  else
    [FinalisingStepRestoreStableService; FinalisingStepRouteTrafficToStable;
     FinalisingStepRemoveCanaryService; FinalisingStepResumeWorkload;
     FinalisingStepReleaseWorkloadControl].

Definition nextCanaryTask (reason : string) (currentTask : FinalisingStepType)
    : FinalisingStepType := nextTask (canaryTaskSequence reason) currentTask.

(** ** The step machine *)

Section CanaryManager.
Context {W : Type} `{Clock W} `{Api W BatchRelease} `{WorkloadClient W} `{TrafficManager W}
  `{K8sLib} `{WorkloadFilter} `{PlanHash}.
Abbreviation MC := (M (RolloutContext * W)).

(** [c.NewStatus.CanaryStatus] read and written through. *)
Definition getCanary : MC CanaryStatusT :=
  c <- getC ;; lift (deref (CanaryStatus (NewStatus c))).
Definition modCanary (f : CanaryStatusT -> CanaryStatusT) : MC unit :=
  s <- getCanary ;; modStatus (fun st => st <| CanaryStatus := Some (f s) |>).
Definition modCanaryCommon (f : CommonStatus -> CommonStatus) : MC unit :=
  modCanary (fun s => s <| cn_Common := f (cn_Common s) |>).
Definition setCanaryState (state : CanaryStepState) : MC unit :=
  modCanaryCommon (fun s => s <| CurrentStepState := state |>).
(** [canaryStatus.LastUpdateTime = &metav1.Time{Time: time.Now()}] *)
Definition touchCanary : MC unit :=
  t <- now ;; modCanaryCommon (fun s => s <| cs_LastUpdateTime := Some t |>).

Definition canarySteps : MC (list CanaryStep) :=
  c <- getC ;; lift (res_map cn_Steps (deref (Canary (ctx_Strategy c)))).
Definition canaryCurrentStep : MC CanaryStep :=
  steps <- canarySteps ;;
  s <- getCanary ;;
  lift (go_index steps (wrap32 (CurrentStepIndex (cn_Common s) - 1))).
Definition canary_syncBatchRelease (br : BatchRelease) : MC unit :=
  modCanary (fun s => s
    <| CanaryReplicas := br_UpdatedReplicas (br_CanaryStatus (br_Status br)) |>
    <| CanaryReadyReplicas := br_UpdatedReadyReplicas (br_CanaryStatus (br_Status br)) |>
    <| cn_Common := (cn_Common s) <| cs_Message := syncMessage br |> |>) ;;
  s <- getCanary ;;
  let id := ObservedRolloutID (cn_Common s) in
  if String.eqb id (RolloutID (br_Plan br)) then ret tt
  else inWorld (api_Patch (O := BatchRelease) (br_Meta br) (PatchRolloutID id)).

Definition canary_doCanaryUpgrade : MC bool :=
  steps <- canarySteps ;;
  s <- getCanary ;;
  let index := CurrentStepIndex (cn_Common s) in
  setProgressMessage (stepMessage index (len steps) ", and upgrade workload to new version") ;;
  c <- getC ;;
  workload <- getWorkload ;;
  db <- inWorld (runBatchRelease canary_createBatchRelease (ctx_Rollout c)
          (getRolloutID (Some workload)) index (IsInRollback workload)) ;;
  if negb (fst db) then ret false
  else if negb (planObserved (snd db)) then ret false
  else if negb (batchReached (snd db) index) then ret false
  else
    modCanaryCommon (fun s => s <| PodTemplateHash := wl_PodTemplateHash workload |>) ;;
    ret true.

Definition canary_doCanaryMetricsAnalysis : MC bool := ret true.

Definition canary_doCanaryPaused : MC bool :=
  currentStep <- canaryCurrentStep ;;
  steps <- canarySteps ;;
  s <- getCanary ;;
  let index := CurrentStepIndex (cn_Common s) in
  if bool_decide (wrap32 (len steps) = index)
     && match Replicas currentStep with Some r => String.eqb (StrVal r) "100%" | None => false end
  then ret true else
  match Duration (Pause currentStep) with
  | None =>
      setProgressMessage (stepMessage index (len steps)
        ", and you need manually confirm to enter the next step") ;;
      ret false
  | Some seconds =>
      setProgressMessage (stepMessage index (len steps)
        (", and wait duration(" +:+ itoa seconds +:+ " seconds) to enter the next step")%string) ;;
      last <- lift (deref (cs_LastUpdateTime (cn_Common s))) ;;
      let expectedTime := last + Second * seconds in
      t <- now ;;
      if decide (expectedTime < t) then ret true else
      modC (fun c => c <| RecheckTime := Some expectedTime |>) ;;
      ret false
  end.

Definition canary_doCanaryJump : MC bool :=
  c <- getC ;;
  match ctx_Workload c with
  | None => ret false
  | Some workload =>
      steps <- canarySteps ;;
      doStepJump (ctx_Rollout c) steps (wl_Replicas workload)
  end.

(** ** runCanary *)

(** [expectedReplicas >= workload.Replicas && IsRealPartition(rollout)]: the step
    releases every stable pod. *)
Definition releasesAllStable (currentStep : CanaryStep) : MC bool :=
  c <- getC ;;
  workload <- getWorkload ;;
  if decide (scaled (Replicas currentStep) (wl_Replicas workload) >= wl_Replicas workload)
  then lift (IsRealPartition (ctx_Rollout c)) else ret false.

(** Sync with an existing BatchRelease and fill in the pod template hash. *)
Definition canary_sync : MC unit :=
  c <- getC ;;
  r <- catch (inWorld (fetchBatchRelease (ctx_Key c))) ;;
  match r with
  | inr err => if IsNotFound err then ret tt else fail err
  | inl br => canary_syncBatchRelease br
  end ;;
  s <- getCanary ;;
  if String.eqb (PodTemplateHash (cn_Common s)) "" then
    workload <- getWorkload ;;
    modCanaryCommon (fun s => s <| PodTemplateHash := wl_PodTemplateHash workload |>)
  else ret tt.

(** A step without traffic strategy first cleans up; false: wait. *)
Definition canary_cleanTraffic (currentStep : CanaryStep) : MC bool :=
  if bool_decide (Traffic (StepTraffic currentStep) = None)
     && bool_decide (Matches (StepTraffic currentStep) = [])
  then
    tr <- mkTR ;;
    r <- withTR tr tm_FinalisingTrafficRouting ;;
    modCanaryCommon (fun s => s <| cs_LastUpdateTime := tr_LastUpdateTime (fst r) |>) ;;
    match snd r with
    | inr err => fail err
    | inl false => recheckAfter (RecheckDuration (fst r)) ;; ret false
    | inl true => ret true
    end
  else ret true.

Definition canary_runUpgrade (currentStep : CanaryStep) : MC unit :=
  done <- canary_doCanaryUpgrade ;;
  if done : bool then
    setCanaryState CanaryStepStateTrafficRouting ;;
    all <- releasesAllStable currentStep ;;
    (if all : bool then setCanaryState CanaryStepStateMetricsAnalysis else ret tt) ;;
    touchCanary
  else ret tt.

Definition canary_runInit (currentStep : CanaryStep) : MC unit :=
  tr <- mkTR ;;
  if bool_decide (Traffic (StepTraffic currentStep) = None)
     && bool_decide (Matches (StepTraffic currentStep) = [])
  then setCanaryState CanaryStepStateUpgrade
  else
    all <- releasesAllStable currentStep ;;
    p1 <- (if all : bool then initOperation tr tm_RestoreStableService else ret (tr, true)) ;;
    if negb (snd p1) then ret tt else
    s <- getCanary ;;
    p2 <- (if bool_decide (CurrentStepIndex (cn_Common s) = 1)
              && negb (tr_DisableGenerateCanaryService (fst p1))
           then initOperation (fst p1) tm_PatchStableService else ret (fst p1, true)) ;;
    if negb (snd p2) then ret tt else
    touchCanary ;;
    setCanaryState CanaryStepStateUpgrade ;;
    canary_runUpgrade currentStep.

Definition canary_runTrafficRouting : MC unit :=
  tr <- mkTR ;;
  r <- withTR tr tm_DoTrafficRouting ;;
  modCanaryCommon (fun s => s <| cs_LastUpdateTime := tr_LastUpdateTime (fst r) |>) ;;
  match snd r with
  | inr err => fail err
  | inl done =>
      (if done : bool then touchCanary ;; setCanaryState CanaryStepStateMetricsAnalysis
       else ret tt) ;;
      recheckLater
  end.

Definition canary_runReady : MC unit :=
  c <- getC ;;
  steps <- canarySteps ;;
  s <- getCanary ;;
  let index := CurrentStepIndex (cn_Common s) in
  if decide (len steps > index) then
    touchCanary ;;
    next <- lift (NextBatchIndex (ctx_Rollout c) (wrap32 (index + 1))) ;;
    modCanaryCommon (fun s => s <| CurrentStepIndex := wrap32 (index + 1) |>
                                <| NextStepIndex := next |>) ;;
    setCanaryState CanaryStepStateInit
  else
    touchCanary ;;
    setCanaryState CanaryStepStateCompleted.

Definition canary_runCanary : MC unit :=
  canary_sync ;;
  jumped <- canary_doCanaryJump ;;
  if jumped : bool then ret tt else
  currentStep <- canaryCurrentStep ;;
  clean <- canary_cleanTraffic currentStep ;;
  if negb clean then ret tt else
  s <- getCanary ;;
  match CurrentStepState (cn_Common s) with
  | CanaryStepStateInit => canary_runInit currentStep
  | CanaryStepStateUpgrade => canary_runUpgrade currentStep
  | CanaryStepStateTrafficRouting => canary_runTrafficRouting
  | CanaryStepStateMetricsAnalysis =>
      done <- canary_doCanaryMetricsAnalysis ;;
      if done : bool then setCanaryState CanaryStepStatePaused else ret tt
  | CanaryStepStatePaused =>
      done <- canary_doCanaryPaused ;;
      if done : bool then touchCanary ;; setCanaryState CanaryStepStateReady else ret tt
  | CanaryStepStateReady => canary_runReady
  | CanaryStepStateCompleted | CanaryStepStateOther _ => ret tt
  end.

(** ** doCanaryFinalising *)

(** The task of the current finalising step; [None] for an unexpected step. *)
Definition canaryTask (step : FinalisingStepType) (tr : TrafficRoutingContext)
    : option (MC bool) :=
  let traffic op := r <- withTR tr op ;;
                    match snd r with inl b => ret b | inr err => fail err end in
  match step with
  | FinalisingStepResumeWorkload => Some finalizingBatchRelease
  | FinalisingStepReleaseWorkloadControl => Some removeBatchRelease
  | FinalisingStepRouteTrafficToStable => Some (traffic tm_RestoreGateway)
  | FinalisingStepRestoreStableService => Some (traffic tm_RestoreStableService)
  | FinalisingStepRemoveCanaryService => Some (traffic tm_RemoveCanaryService)
  | _ => None
  end.

Definition canary_doCanaryFinalising : MC bool :=
  c <- getC ;;
  match CanaryStatus (NewStatus c) with
  | None => ret true
  | Some canaryStatus =>
      let setStep st := modCanaryCommon (fun s => s <| FinalisingStep := st |>) in
      removeRolloutProgressingAnnotation ;;
      tr <- mkTR ;;
      let current := FinalisingStep (cn_Common canaryStatus) in
      let nextStep := nextCanaryTask (FinalizeReason c) current in
      if decide (current = FinalisingStepTypeEnd) then ret true else
      (if decide (current = FinalisingStepNone) then setStep nextStep ;; touchCanary
       else ret tt) ;;
      s <- getCanary ;;
      match canaryTask (FinalisingStep (cn_Common s)) tr with
      | None =>
          setStep (nextCanaryTask (FinalizeReason c) FinalisingStepNone) ;;
          ret false
      | Some task =>
          retry <- task ;;
          if retry : bool then ret false else
          touchCanary ;;
          setStep nextStep ;;
          ret (bool_decide (nextStep = FinalisingStepTypeEnd))
      end
  end.
End CanaryManager.

Definition canaryReleaseManager {W} `{Clock W} `{Api W BatchRelease} `{WorkloadClient W}
    `{TrafficManager W} `{K8sLib} `{WorkloadFilter} `{PlanHash} : ReleaseManager W := {|
  runCanary := canary_runCanary;
  doCanaryJump := canary_doCanaryJump;
  doCanaryFinalising := canary_doCanaryFinalising;
  createBatchRelease := canary_createBatchRelease
|}.

(** ** Frames of the manager's operations *)

Section CanaryFrames.
Context {W : Type} `{Clock W} `{Api W BatchRelease} `{WorkloadClient W} `{TrafficManager W}
  `{K8sLib} `{WorkloadFilter} `{PlanHash}.
Abbreviation MC := (M (RolloutContext * W)).

Lemma canary_sub st s : CanaryStatus st = Some s -> GetSubStatus st = Some (cn_Common s).
Proof. unfold GetSubStatus. by intros ->. Qed.

Definition setCanary (s : CanaryStatusT) (c : RolloutContext) : RolloutContext :=
  c <| NewStatus := (NewStatus c) <| CanaryStatus := Some s |> |>.

Lemma modCanary_run f c (w : W) s :
  CanaryStatus (NewStatus c) = Some s ->
  modCanary f (c, w) = (Ok tt, (setCanary (f s) c, w)).
Proof. intros Hs. unfold modCanary, getCanary, bind, getC, lift. simpl. by rewrite Hs. Qed.

Lemma getCanary_run c (w : W) s :
  CanaryStatus (NewStatus c) = Some s -> getCanary (c, w) = (Ok s, (c, w)).
Proof. intros Hs. unfold getCanary, bind, getC, lift. simpl. by rewrite Hs. Qed.

Lemma canarySteps_run c (w : W) canary :
  Canary (ctx_Strategy c) = Some canary -> canarySteps (c, w) = (Ok (cn_Steps canary), (c, w)).
Proof. intros Hs. unfold canarySteps, bind, getC, lift. simpl. by rewrite Hs. Qed.

Lemma ctxFrame_setCanary s c : is_Some (CanaryStatus (NewStatus c)) -> ctxFrame c (setCanary s c).
Proof. intros Hs. unfold setCanary. repeat split; simpl; auto. Qed.

Lemma stepFrame_setCanary s s' c :
  CanaryStatus (NewStatus c) = Some s -> standing (cn_Common s') = standing (cn_Common s) ->
  stepFrame c (setCanary s' c).
Proof.
  intros Hs E. split; [by apply ctxFrame_setCanary|].
  unfold stepView. rewrite (canary_sub _ _ Hs). unfold setCanary, GetSubStatus. simpl. by rewrite E.
Qed.

Lemma preserves_modCanary f :
  (forall s, standing (cn_Common (f s)) = standing (cn_Common s)) ->
  preserves stepFrame (modCanary f : MC unit).
Proof.
  intros Hf c w r c' w'. destruct (CanaryStatus (NewStatus c)) as [s|] eqn:Hs.
  - rewrite (modCanary_run _ _ _ _ Hs). intros [= <- <- <-]. by eapply stepFrame_setCanary.
  - unfold modCanary, getCanary, bind, getC, lift. simpl. rewrite Hs. simpl.
    intros [= <- <- <-]. reflexivity.
Qed.

Lemma preserves_modCanaryCommon f :
  (forall s, standing (f s) = standing s) -> preserves stepFrame (modCanaryCommon f : MC unit).
Proof. intros Hf. apply preserves_modCanary. intros s. apply Hf. Qed.

(** An edge of the machine: the state of the canary status is assigned. *)
Lemma setCanaryState_run st' c0 s0 st c (w : W) :
  is_Some (CanaryStatus (NewStatus c0)) -> standsAt c0 s0 st c ->
  exists c', setCanaryState st' (c, w) = (Ok tt, (c', w)) /\ standsAt c0 s0 st' c'.
Proof.
  intros Hsome (Hf & s & Hs & E).
  assert (is_Some (CanaryStatus (NewStatus c))) as [cs Hcs] by (by apply Hf).
  unfold setCanaryState, modCanaryCommon. rewrite (modCanary_run _ _ _ _ Hcs).
  eexists. split; [done|]. split.
  - etransitivity; [exact Hf|]. by apply ctxFrame_setCanary.
  - rewrite (canary_sub _ _ Hcs) in Hs. injection Hs as <-.
    eexists. split; [unfold setCanary, GetSubStatus; simpl; reflexivity|].
    unfold standing in *. simpl. congruence.
Qed.

Lemma setCanaryState_bind {B} st' (k : unit -> MC B) c0 s0 st c w (Q : RolloutContext -> Prop) :
  is_Some (CanaryStatus (NewStatus c0)) -> standsAt c0 s0 st c ->
  (forall c', standsAt c0 s0 st' c' -> wp (k tt) (fun _ s => Q (fst s)) (c', w)) ->
  wp (bind (setCanaryState st') k) (fun _ s => Q (fst s)) (c, w).
Proof.
  intros Hsome Hat HQ. destruct (setCanaryState_run st' c0 s0 st c w Hsome Hat) as (c' & Hr & Hat').
  apply wp_bind. unfold wp. rewrite Hr. by apply HQ.
Qed.

Lemma setCanaryState_last st' c0 s0 st c (w : W) (Q : RolloutContext -> Prop) :
  is_Some (CanaryStatus (NewStatus c0)) -> standsAt c0 s0 st c ->
  (forall c', standsAt c0 s0 st' c' -> Q c') ->
  wp (setCanaryState st') (fun _ s => Q (fst s)) (c, w).
Proof.
  intros Hsome Hat HQ. destruct (setCanaryState_run st' c0 s0 st c w Hsome Hat) as (c' & Hr & Hat').
  unfold wp. rewrite Hr. by apply HQ.
Qed.

Lemma preserves_touchCanary : preserves stepFrame (touchCanary : MC unit).
Proof.
  unfold touchCanary, now. solve_preserves. by apply preserves_modCanaryCommon.
Qed.

Hint Resolve preserves_touchCanary : frames.

Ltac solve_canary :=
  repeat (solve_preserves; first [ simple apply preserves_modCanary | simple apply preserves_modCanaryCommon ];
          try done).

Lemma preserves_canary_sync : preserves stepFrame (canary_sync : MC unit).
Proof.
  unfold canary_sync, canary_syncBatchRelease, getCanary, getWorkload. solve_canary.
  all: solve_preserves.
Qed.

Lemma preserves_canary_doCanaryUpgrade : preserves stepFrame (canary_doCanaryUpgrade : MC bool).
Proof.
  unfold canary_doCanaryUpgrade, canarySteps, getCanary, getWorkload. cbv zeta. solve_canary.
  all: solve_preserves.
Qed.

Lemma preserves_canary_doCanaryPaused : preserves stepFrame (canary_doCanaryPaused : MC bool).
Proof.
  unfold canary_doCanaryPaused, canaryCurrentStep, canarySteps, getCanary, now. cbv zeta.
  solve_preserves.
Qed.

Lemma preserves_canary_cleanTraffic step : preserves stepFrame (canary_cleanTraffic step : MC bool).
Proof. unfold canary_cleanTraffic, mkTR. solve_canary. all: solve_preserves. Qed.

Lemma preserves_releasesAllStable step : preserves stepFrame (releasesAllStable step : MC bool).
Proof. unfold releasesAllStable, getWorkload. solve_preserves. Qed.

Lemma preserves_canaryCurrentStep : preserves stepFrame (canaryCurrentStep : MC CanaryStep).
Proof. unfold canaryCurrentStep, canarySteps, getCanary. solve_preserves. Qed.
End CanaryFrames.

#[export] Hint Resolve preserves_touchCanary preserves_canary_sync
  preserves_canary_doCanaryUpgrade preserves_canary_doCanaryPaused preserves_canary_cleanTraffic
  preserves_releasesAllStable preserves_canaryCurrentStep : frames.

(** ** The step machine is implemented *)

Section CanaryMachine.
Context {W : Type} `{Clock W} `{Api W BatchRelease} `{WorkloadClient W} `{TrafficManager W}
  `{K8sLib} `{WorkloadFilter} `{PlanHash}.
Abbreviation MC := (M (RolloutContext * W)).

(** What [doCanaryUpgrade] has observed when it is done. *)
Definition upgradeObserved (c : RolloutContext) (index : Z) : Prop :=
  exists workload br want (w w' : W),
    ctx_Workload c = Some workload
    /\ api_Get (ctx_Key c) w = (Ok br, w')
    /\ canary_createBatchRelease (ctx_Rollout c) (getRolloutID (Some workload))
         (wrap32 (index - 1)) (IsInRollback workload) = Ok want
    /\ br_Spec br = br_Spec want
    /\ Annotations (br_Meta br) = Annotations (br_Meta want)
    /\ planObserved br = true /\ batchReached br index = true.

Lemma doCanaryUpgrade_observed c w c' w' s :
  CanaryStatus (NewStatus c) = Some s ->
  canary_doCanaryUpgrade (c, w) = (Ok true, (c', w')) ->
  upgradeObserved c (CurrentStepIndex (cn_Common s)).
Proof.
  unfold canary_doCanaryUpgrade, setProgressMessage, canarySteps, getCanary, getWorkload, modStatus.
  intros Hs Hrun. inv_run; try done.
  repeat match goal with E : negb _ = false |- _ => apply negb_false_iff in E; simpl in E end.
  simplify_eq. match goal with E : runBatchRelease _ _ _ _ _ _ = _ |- _ =>
    apply runBatchRelease_done in E as (want & wa & Hget & Hcreate & Hspec & Hann) end.
  eexists _, _, want, _, wa. split_and!; eassumption.
Qed.

Lemma doCanaryPaused_observed c w c' w' s :
  CanaryStatus (NewStatus c) = Some s ->
  canary_doCanaryPaused (c, w) = (Ok true, (c', w')) ->
  exists canary step, Canary (ctx_Strategy c) = Some canary
    /\ go_index (cn_Steps canary) (wrap32 (CurrentStepIndex (cn_Common s) - 1)) = Ok step
    /\ pauseOver (cn_Steps canary) step (cn_Common s).
Proof.
  unfold canary_doCanaryPaused, canaryCurrentStep, setProgressMessage, canarySteps, getCanary,
    now, modStatus.
  intros Hs Hrun. inv_run; try done; do 2 eexists; (split; [eassumption|]); split;
    try eassumption.
  - left. apply andb_true_iff in Eb as [?%bool_decide_eq_true Hr]. split; [done|].
    destruct (Replicas a) as [r|]; [|done]. exists r. split; [done|by apply String.eqb_eq].
  - right. match goal with E : time_Now ?w1 = _ |- _ => unfold time_Now in E;
      destruct (clock_now w1) eqn:Ec; simplify_eq; exists z, a1, w1; by rewrite Ec end.
Qed.

(** What the three guarded edges have observed, from the context [c0] on. *)
Definition canaryUpgraded (c0 : RolloutContext) (s0 : CommonStatus) : Prop :=
  upgradeObserved c0 (CurrentStepIndex s0).
Definition canaryRouted (c0 : RolloutContext) (s0 : CommonStatus) : Prop :=
  exists c tr (w : W) s', standsAt c0 s0 CanaryStepStateTrafficRouting c
    /\ newTrafficRoutingContext c = Ok tr
    /\ tm_DoTrafficRouting (tr, w) = (Ok true, s').
Definition canaryPauseOver (c0 : RolloutContext) (s0 : CommonStatus) : Prop :=
  exists c s canary step, standsAt c0 s0 CanaryStepStatePaused c
    /\ GetSubStatus (NewStatus c) = Some s
    /\ Canary (ctx_Strategy c0) = Some canary
    /\ go_index (cn_Steps canary) (wrap32 (CurrentStepIndex s0 - 1)) = Ok step
    /\ pauseOver (cn_Steps canary) step s.

Definition canaryPost (n : Z) (c0 : RolloutContext) (s0 : CommonStatus)
    (c' : RolloutContext) : Prop :=
  stepPost n (canaryUpgraded c0 s0) (canaryRouted c0 s0) (canaryPauseOver c0 s0) s0 c0 c'.

Lemma standsAt_canary c0 s0 st c :
  is_Some (CanaryStatus (NewStatus c0)) -> standsAt c0 s0 st c ->
  exists s, CanaryStatus (NewStatus c) = Some s
    /\ standing (cn_Common s) = (CurrentStepIndex s0, st, NextStepIndex s0, FinalisingStep s0).
Proof.
  intros Hsome (Hf & s & Hs & E). destruct (proj2 (ctxFrame_canary _ _ Hf) Hsome)
    as [cs Hcs]. exists cs. split; [done|].
  rewrite (canary_sub _ _ Hcs) in Hs. by injection Hs as <-.
Qed.

Section run.
Variables (n : Z) (c0 : RolloutContext) (s0 : CommonStatus).
Hypothesis Hsome : is_Some (CanaryStatus (NewStatus c0)).
Abbreviation post := (canaryPost n c0 s0).
Abbreviation edge st := (stepTrans n (NextStepIndex s0) (canaryUpgraded c0 s0)
  (canaryRouted c0 s0) (canaryPauseOver c0 s0)
  (CurrentStepIndex s0, CurrentStepState s0) (CurrentStepIndex s0, st)).

Lemma post_at st c : edge st -> standsAt c0 s0 st c -> post c.
Proof. intros He Hat. by eapply standsAt_post. Qed.

Lemma canary_runUpgrade_post step st c (w : W) :
  CurrentStepState s0 = CanaryStepStateInit \/ CurrentStepState s0 = CanaryStepStateUpgrade ->
  edge st -> standsAt c0 s0 st c ->
  wp (canary_runUpgrade step) (fun _ s => post (fst s)) (c, w).
Proof.
  intros Hst He Hat. unfold canary_runUpgrade.
  eapply wp_stand_bind; [auto with frames|exact Hat|by intros; eapply post_at|].
  intros done_ c1 w1 Hrun F1 Hat1. destruct done_; [|by apply wp_ret, (post_at st)].
  assert (Hup : canaryUpgraded c0 s0).
  { destruct (standsAt_canary _ _ _ _ Hsome Hat) as (cs & Hcs & Ecs).
    pose proof (doCanaryUpgrade_observed _ _ _ _ _ Hcs Hrun) as Hobs.
    destruct Hat as [(Hro & Hwl & _) _]. unfold standing in Ecs. injection Ecs as Ei _ _ _.
    unfold canaryUpgraded. rewrite <- Ei. unfold upgradeObserved, ctx_Key in *.
    by rewrite <- Hro, <- Hwl. }
  eapply setCanaryState_bind; [done|exact Hat1|]. intros c2 Hat2.
  eapply wp_stand_bind; [auto with frames|exact Hat2| |].
  { intros c'. apply post_at. apply step_upgrade; auto. }
  intros all c3 w3 _ _ Hat3. destruct all.
  - eapply setCanaryState_bind; [done|exact Hat3|]. intros c4 Hat4.
    eapply wp_stand; [auto with frames|exact Hat4|].
    intros c'. apply post_at. apply step_upgrade; auto.
  - apply wp_bind, wp_ret. simpl. eapply wp_stand; [auto with frames|exact Hat3|].
    intros c'. apply post_at. apply step_upgrade; auto.
Qed.

Lemma canary_runInit_post step c (w : W) :
  CurrentStepState s0 = CanaryStepStateInit ->
  standsAt c0 s0 CanaryStepStateInit c ->
  wp (canary_runInit step) (fun _ s => post (fst s)) (c, w).
Proof.
  intros Hst Hat. assert (He : edge CanaryStepStateInit) by (rewrite Hst; apply step_stay).
  assert (Hpost : forall c', standsAt c0 s0 CanaryStepStateInit c' -> post c')
    by (intros; by eapply post_at).
  assert (Hedge : edge CanaryStepStateUpgrade) by (rewrite Hst; apply step_init).
  unfold canary_runInit, mkTR.
  eapply wp_stand_bind; [solve_preserves|exact Hat|done|]. intros tr c1 w1 _ _ Hat1.
  destruct (_ && _).
  { eapply setCanaryState_last; [done|exact Hat1|]. intros c'. by apply post_at. }
  eapply wp_stand_bind; [auto with frames|exact Hat1|done|]. intros all c2 w2 _ _ Hat2.
  eapply wp_stand_bind; [destruct all; solve_preserves|exact Hat2|done|].
  intros p1 c3 w3 _ _ Hat3. destruct (negb (snd p1)); [by apply wp_ret, Hpost|].
  unfold getCanary. eapply wp_stand_bind; [solve_preserves|exact Hat3|done|].
  intros cs c4 w4 _ _ Hat4.
  eapply wp_stand_bind; [destruct (_ && _); solve_preserves|exact Hat4|done|].
  intros p2 c5 w5 _ _ Hat5. destruct (negb (snd p2)); [by apply wp_ret, Hpost|].
  eapply wp_stand_bind; [auto with frames|exact Hat5|done|]. intros u c6 w6 _ _ Hat6.
  eapply setCanaryState_bind; [done|exact Hat6|]. intros c7 Hat7.
  by eapply canary_runUpgrade_post; eauto.
Qed.

Lemma canary_runTrafficRouting_post c (w : W) :
  CurrentStepState s0 = CanaryStepStateTrafficRouting ->
  standsAt c0 s0 CanaryStepStateTrafficRouting c ->
  wp canary_runTrafficRouting (fun _ s => post (fst s)) (c, w).
Proof.
  intros Hst Hat. assert (He : edge CanaryStepStateTrafficRouting) by (rewrite Hst; apply step_stay).
  assert (Hpost : forall c', standsAt c0 s0 CanaryStepStateTrafficRouting c' -> post c')
    by (intros; by eapply post_at).
  unfold canary_runTrafficRouting, mkTR.
  eapply wp_stand_bind; [solve_preserves|exact Hat|done|]. intros tr c1 w1 Htr F1 Hat1.
  eapply wp_stand_bind; [auto with frames|exact Hat1|done|]. intros r c2 w2 Hdo F2 Hat2.
  eapply wp_stand_bind; [by apply preserves_modCanaryCommon|exact Hat2|done|].
  intros u c3 w3 _ F3 Hat3. destruct r as [tr' [[]|e]] eqn:Er; simpl.
  - assert (Hr : canaryRouted c0 s0).
    { inv_run. exists c1, tr, w1. unfold withTR in Hdo. simpl in Hdo.
      destruct (tm_DoTrafficRouting (tr, w1)) as [[a|?|] [trx wx]] eqn:Et; simplify_eq.
      eexists. split; [done|]. done. }
    apply wp_bind_assoc.
    eapply wp_stand_bind; [auto with frames|exact Hat3|done|]. intros u1 c4 w4 _ _ Hat4.
    eapply setCanaryState_bind; [done|exact Hat4|]. intros c5 Hat5.
    eapply wp_stand; [auto with frames|exact Hat5|].
    intros c'. apply post_at. rewrite Hst. by apply step_route.
  - apply wp_bind, wp_ret. simpl. eapply wp_stand; [auto with frames|exact Hat3|done].
  - by apply wp_fail, Hpost.
Qed.

Lemma canary_runReady_post canary c (w : W) :
  Canary (ctx_Strategy c0) = Some canary -> n = len (cn_Steps canary) ->
  hasSteps (ctx_Rollout c0) (cn_Steps canary) -> 1 <= CurrentStepIndex s0 <= n ->
  CurrentStepState s0 = CanaryStepStateReady -> standsAt c0 s0 CanaryStepStateReady c ->
  wp canary_runReady (fun _ s => post (fst s)) (c, w).
Proof.
  intros Hcn Hn Hsteps Hi Hst Hat.
  assert (Hpost : forall c', standsAt c0 s0 CanaryStepStateReady c' -> post c').
  { intros. eapply post_at; [rewrite Hst; apply step_stay|done]. }
  pose proof (standsAt_canary _ _ _ _ Hsome Hat) as (cs & Hcs & Ecs).
  assert (Hro : ctx_Rollout c = ctx_Rollout c0) by apply Hat.
  unfold standing in Ecs. injection Ecs as Ei _ _ _.
  unfold canary_runReady. eapply wp_bind_run; [done|].
  eapply wp_bind_run; [apply canarySteps_run; unfold ctx_Strategy in *; by rewrite Hro|].
  eapply wp_bind_run; [by apply getCanary_run|]. rewrite Ei, <- Hn. case_decide as Hlt.
  - eapply wp_stand_bind; [auto with frames|exact Hat|done|]. intros u c1 w1 _ _ Hat1.
    pose proof (standsAt_canary _ _ _ _ Hsome Hat1) as (cs1 & Hcs1 & Ecs1).
    assert (n < 2 ^ 31 - 1) by (subst n; apply Hsteps).
    rewrite wrap32_id by (unfold in32; lia).
    eapply wp_bind_run; [unfold lift; simpl; rewrite Hro, (NextBatchIndex_val _ (cn_Steps canary)) by (done || lia); done|].
    eapply wp_bind_run; [by apply modCanary_run|].
    unfold wp, setCanaryState, modCanaryCommon. erewrite modCanary_run by done. simpl.
    unfold standing in Ecs1. injection Ecs1 as Ei1 Es1 En1 Ef1. split.
    + etransitivity; [apply Hat1|]. etransitivity; apply ctxFrame_setCanary; by eexists.
    + eexists. split; [done|]. simpl. rewrite Hst, <- Hn.
      split; [apply step_next; lia|]. split; [done|by right].
  - eapply wp_stand_bind; [auto with frames|exact Hat|done|]. intros u c1 w1 _ _ Hat1.
    eapply setCanaryState_last; [done|exact Hat1|]. intros c'. apply post_at.
    rewrite Hst. apply step_complete. lia.
Qed.
End run.

Lemma canary_doCanaryJump_post canary c0 s0 c (w : W) s :
  Canary (ctx_Strategy c0) = Some canary -> hasSteps (ctx_Rollout c0) (cn_Steps canary) ->
  1 <= CurrentStepIndex s0 <= len (cn_Steps canary) ->
  CanaryStatus (NewStatus c) = Some s -> standsAt c0 s0 (CurrentStepState s0) c ->
  exists b c' w', canary_doCanaryJump (c, w) = (Ok b, (c', w'))
    /\ if b : bool then canaryPost (len (cn_Steps canary)) c0 s0 c'
       else c' = c.
Proof.
  intros Hcn Hsteps Hi Hs (Hf & s' & Hs' & E). unfold canary_doCanaryJump.
  unfold bind at 1, getC at 1. simpl. destruct (ctx_Workload c) as [wl|]; [|by exists false, c, w].
  assert (Hro : ctx_Rollout c = ctx_Rollout c0) by apply Hf.
  unfold bind at 1. erewrite canarySteps_run by (unfold ctx_Strategy in *; by rewrite Hro).
  pose proof (canary_sub _ _ Hs) as Hsub. rewrite Hs' in Hsub. injection Hsub as ->.
  unfold standing in E. injection E as Ei Es En Ef. destruct Hsteps as [Hst Hlen].
  pose proof (doStepJump_run (ctx_Rollout c) (cn_Steps canary) (wl_Replicas wl) c w (UnifiedCanary s))
    as Hrun. cbv zeta in Hrun. simpl in Hrun.
  specialize (Hrun ltac:(by rewrite Hro) ltac:(by unfold GetUnifiedStatus; rewrite Hs) ltac:(lia)).
  destruct (jumpsTo _ _) eqn:Hj; [|by exists false, c, w].
  destruct Hrun as (step & _ & Hrun). exists true. do 2 eexists. split; [exact Hrun|].
  unfold jumpsTo in Hj. apply andb_true_iff in Hj as [Hne%bool_decide_eq_true Hr%bool_decide_eq_true].
  rewrite Ei, En in *. split; [etransitivity; [exact Hf|apply ctxFrame_modSub]|].
  eexists. split; [by apply getSub_set|]. unfold jumped. simpl. rewrite En, Ef.
  split; [apply step_jump; [done|done|]|]; [by destruct (bool_decide _); auto|].
  split; [done|by right].
Qed.

Lemma canary_paused_post canary n c0 s0 c (w : W) :
  Canary (ctx_Strategy c0) = Some canary -> is_Some (CanaryStatus (NewStatus c0)) ->
  CurrentStepState s0 = CanaryStepStatePaused -> standsAt c0 s0 CanaryStepStatePaused c ->
  wp (done <- canary_doCanaryPaused ;;
      if done : bool then touchCanary ;; setCanaryState CanaryStepStateReady else ret tt)
     (fun _ s => canaryPost n c0 s0 (fst s)) (c, w).
Proof.
  intros Hcn Hsome Hst Hat.
  assert (Hpost : forall c', standsAt c0 s0 CanaryStepStatePaused c' -> canaryPost n c0 s0 c').
  { intros. eapply post_at; [rewrite Hst; apply step_stay|done]. }
  destruct (standsAt_canary _ _ _ _ Hsome Hat) as (cs & Hcs & Ecs).
  eapply wp_stand_bind; [auto with frames|exact Hat|done|]. intros d c1 w1 Hrun _ Hat1.
  destruct d; [|by apply wp_ret, Hpost].
  assert (Hp : canaryPauseOver c0 s0).
  { apply (doCanaryPaused_observed _ _ _ _ _ Hcs) in Hrun as (cn & step & Hcn' & Hstep & Hover).
    assert (ctx_Rollout c = ctx_Rollout c0) as Hro by apply Hat.
    unfold standing in Ecs. injection Ecs as Ei _ _ _.
    exists c, (cn_Common cs), cn, step. rewrite <- Ei.
    split_and!; [done|by apply canary_sub|unfold ctx_Strategy in *; by rewrite <- Hro|done|done]. }
  eapply wp_stand_bind; [auto with frames|exact Hat1|done|]. intros u c2 w2 _ _ Hat2.
  eapply setCanaryState_last; [done|exact Hat2|]. intros c'. apply post_at.
  rewrite Hst. by apply step_pause.
Qed.

Lemma canary_runCanary_post canary c0 cs0 (w : W) :
  Canary (ctx_Strategy c0) = Some canary -> hasSteps (ctx_Rollout c0) (cn_Steps canary) ->
  CanaryStatus (NewStatus c0) = Some cs0 ->
  1 <= CurrentStepIndex (cn_Common cs0) <= len (cn_Steps canary) ->
  wp canary_runCanary (fun _ s => canaryPost (len (cn_Steps canary)) c0 (cn_Common cs0) (fst s)) (c0, w).
Proof.
  intros Hcn Hsteps Hcs0 Hi. set (s0 := cn_Common cs0). set (n := len (cn_Steps canary)).
  assert (Hsome : is_Some (CanaryStatus (NewStatus c0))) by by eexists.
  pose proof (standsAt_start c0 s0 (canary_sub _ _ Hcs0)) as Hat.
  assert (Hpost : forall c', standsAt c0 s0 (CurrentStepState s0) c' -> canaryPost n c0 s0 c').
  { intros. eapply post_at; [apply step_stay|done]. }
  unfold canary_runCanary.
  eapply wp_stand_bind; [auto with frames|exact Hat|done|]. intros u c1 w1 _ _ Hat1.
  destruct (standsAt_canary _ _ _ _ Hsome Hat1) as (cs1 & Hcs1 & _).
  destruct (canary_doCanaryJump_post canary c0 s0 c1 w1 cs1) as (b & c2 & w2 & Hjump & Hb); try done.
  eapply wp_bind_run; [exact Hjump|]. destruct b; [by apply wp_ret|]. subst c2.
  eapply wp_stand_bind; [auto with frames|exact Hat1|done|]. intros step c3 w3 _ _ Hat3.
  eapply wp_stand_bind; [auto with frames|exact Hat3|done|]. intros clean c4 w4 _ _ Hat4.
  destruct (negb clean); [by apply wp_ret, Hpost|].
  destruct (standsAt_canary _ _ _ _ Hsome Hat4) as (cs4 & Hcs4 & Ecs4).
  eapply wp_bind_run; [by apply getCanary_run|].
  unfold standing in Ecs4. injection Ecs4 as _ Es _ _. rewrite Es.
  destruct (CurrentStepState s0) eqn:Hst; try by apply wp_ret, Hpost.
  - by eapply canary_runInit_post.
  - eapply canary_runUpgrade_post; try done; [by right|rewrite Hst; apply step_stay].
  - by eapply canary_runTrafficRouting_post.
  - eapply wp_bind_run; [done|]. eapply setCanaryState_last; [done|exact Hat4|].
    intros c'. apply post_at. rewrite Hst. apply step_metrics.
  - by eapply canary_paused_post.
  - by eapply canary_runReady_post.
Qed.

(** ** The blue-green part is left alone *)

Definition keepsBlueGreen (c c' : RolloutContext) : Prop :=
  is_Some (CanaryStatus (NewStatus c)) ->
  is_Some (CanaryStatus (NewStatus c')) /\ BlueGreenStatus (NewStatus c') = BlueGreenStatus (NewStatus c).
#[local] Instance keepsBlueGreen_preorder : PreOrder keepsBlueGreen.
Proof.
  split; [by intros c Hc|]. intros c1 c2 c3 H12 H23 Hc. destruct (H12 Hc) as [Hc2 E2].
  destruct (H23 Hc2) as [Hc3 E3]. split; [done|congruence].
Qed.
#[local] Hint Extern 1 (keepsBlueGreen _ _) => (intros ?; split; [assumption|reflexivity]) : frames.

Lemma keepsBlueGreen_modCanary f : preserves keepsBlueGreen (modCanary f : MC unit).
Proof.
  intros c w r c' w'. destruct (CanaryStatus (NewStatus c)) as [s|] eqn:Hs.
  - rewrite (modCanary_run _ _ _ _ Hs). by intros [= <- <- <-] _.
  - unfold modCanary, getCanary, bind, getC, lift. simpl. rewrite Hs. simpl. by intros [= <- <- <-].
Qed.
Lemma keepsBlueGreen_modSub f : preserves keepsBlueGreen (modSub f : MC unit).
Proof.
  apply preserves_modSub; [apply _|]. intros c s _. unfold keepsBlueGreen, modSubStatus. simpl.
  by destruct (CanaryStatus (NewStatus c)) as [cs|] eqn:Hc; [|intros []].
Qed.
Lemma keepsBlueGreen_withTR {A} tr (m : M (TrafficRoutingContext * W) A) :
  preserves keepsBlueGreen (withTR tr m).
Proof. apply preserves_withTR, _. Qed.
#[local] Hint Resolve keepsBlueGreen_modCanary keepsBlueGreen_modSub keepsBlueGreen_withTR : frames.

Lemma keepsBlueGreen_runCanary : preserves keepsBlueGreen (canary_runCanary : MC unit).
Proof.
  unfold canary_runCanary, canary_sync, canary_syncBatchRelease, canary_doCanaryJump, doStepJump,
    canary_cleanTraffic, canary_runInit, canary_runUpgrade, canary_doCanaryUpgrade, releasesAllStable,
    canary_runTrafficRouting, canary_doCanaryPaused, canary_runReady, canary_doCanaryMetricsAnalysis,
    canaryCurrentStep, touchCanary, setCanaryState, modCanaryCommon, initOperation, setProgressMessage,
    recheckLater, recheckAfter, mkTR, canarySteps, getCanary, getWorkload, modStatus, now.
  cbv zeta. solve_preserves.
Qed.

(** C1. The canary step machine.  One call of [runCanary] of the canary manager on a
    release that stands at a step of the plan follows one edge of the abstract
    machine, whatever the API server, the traffic manager and the clock do, also
    when the call ends in an error: the step is upgraded only after a BatchRelease
    carrying exactly this plan was read ready for this step, traffic analysis is reached only
    after the traffic manager reported the routes in place, a pause ends only when it
    is over, a next step starts only from Ready, the release completes only at the
    last step; the step index stays in the plan; the next index is kept or
    recomputed; and nothing of the context but the canary part and the message of the
    status and the recheck time is touched. *)
Theorem canary_runCanary_refines (canary : CanaryStrategy) (c0 : RolloutContext) (w : W)
    (cs0 : CanaryStatusT)
    (Hcn : Canary (ctx_Strategy c0) = Some canary)
    (Hsteps : hasSteps (ctx_Rollout c0) (cn_Steps canary))
    (Hcs : CanaryStatus (NewStatus c0) = Some cs0)
    (Hi : 1 <= CurrentStepIndex (cn_Common cs0) <= len (cn_Steps canary)) :
  let s0 := cn_Common cs0 in
  let '(_, (c', _)) := canary_runCanary (c0, w) in
  stepPost (len (cn_Steps canary)) (canaryUpgraded c0 s0) (canaryRouted c0 s0)
    (canaryPauseOver c0 s0) s0 c0 c'
  /\ (exists s', GetSubStatus (NewStatus c') = Some s'
      /\ 1 <= CurrentStepIndex s' <= len (cn_Steps canary))
  /\ c' = c0 <| RecheckTime := RecheckTime c' |>
             <| NewStatus := (NewStatus c0) <| CanaryStatus := CanaryStatus (NewStatus c') |>
                  <| Message := Message (NewStatus c') |> |>.
Proof.
  intros s0.
  assert (Hwp : wp canary_runCanary (fun _ s => canaryPost (len (cn_Steps canary)) c0 s0 (fst s)) (c0, w)).
  { by apply canary_runCanary_post. }
  unfold wp in Hwp. destruct (canary_runCanary (c0, w)) as [r [c' w']] eqn:Hrun. simpl in Hwp.
  split; [exact Hwp|]. destruct Hwp as (Hf & s' & Hs' & Ht & _). split.
  - exists s'. split; [done|]. apply stepTrans_range in Ht; done.
  - pose proof (ctxFrame_outside _ _ Hf) as E.
    destruct (keepsBlueGreen_runCanary _ _ _ _ _ Hrun) as [_ Hblue]; [by eexists|].
    rewrite Hblue in E. rewrite E at 1. by destruct c0 as [? [] ? ? ? ?].
Qed.
End CanaryMachine.

(** ** Finalising *)

Section CanaryFinalising.
Context {W : Type} `{Clock W} `{Api W BatchRelease} `{WorkloadClient W} `{TrafficManager W}
  `{K8sLib} `{WorkloadFilter}.
Abbreviation MC := (M (RolloutContext * W)).

(** The operation of task [t] reported that nothing is left to do. *)
Definition canaryTaskDone (t : FinalisingStepType) : Prop :=
  exists (c : RolloutContext) tr op (w : W) s',
    canaryTask t tr = Some op /\ op (c, w) = (Ok false, s').

(** One call of [doCanaryFinalising] for [reason] took the finalising step from [f]
    to [f'], in whatever context it ran. *)
Definition canaryFinalCall (reason : string) (f f' : FinalisingStepType) : Prop :=
  exists c (w : W) cs r c' w' cs',
    FinalizeReason c = reason
    /\ CanaryStatus (NewStatus c) = Some cs /\ FinalisingStep (cn_Common cs) = f
    /\ canary_doCanaryFinalising (c, w) = (r, (c', w'))
    /\ CanaryStatus (NewStatus c') = Some cs' /\ FinalisingStep (cn_Common cs') = f'.

Lemma preserves_canaryTask t tr op :
  canaryTask t tr = Some op -> preserves stepFrame (op : MC bool).
Proof.
  unfold canaryTask. destruct t; intros [= <-];
    unfold finalizingBatchRelease, removeBatchRelease; solve_preserves.
Qed.

Lemma setFinalising_run st c0 f c (w : W) :
  is_Some (CanaryStatus (NewStatus c0)) -> finalAt c0 f c ->
  exists c', modCanaryCommon (fun s => s <| FinalisingStep := st |>) (c, w) = (Ok tt, (c', w))
    /\ finalAt c0 st c'.
Proof.
  intros Hsome (Hf & s & Hs & E).
  assert (is_Some (CanaryStatus (NewStatus c))) as [cs Hcs] by (by apply Hf).
  unfold modCanaryCommon. rewrite (modCanary_run _ _ _ _ Hcs).
  eexists. split; [done|]. split; [|by eexists].
  etransitivity; [exact Hf|]. by apply ctxFrame_setCanary.
Qed.

Lemma canarySequence_ok reason :
  NoDup (canaryTaskSequence reason) /\ (FinalisingStepTypeEnd ∉ canaryTaskSequence reason)
  /\ canaryTaskSequence reason <> [] /\ FinalisingStepNone ∉ canaryTaskSequence reason.
Proof.
  unfold canaryTaskSequence. destruct (String.eqb _ _); split_and!; try done;
    try (apply (bool_decide_unpack _); vm_compute; exact I).
Qed.

(** The task of the current step and the move to the next one. *)
Lemma canary_finalTask_post c0 f0 f1 tr c (w : W) :
  let seq := canaryTaskSequence (FinalizeReason c0) in
  is_Some (CanaryStatus (NewStatus c0)) -> f0 <> FinalisingStepTypeEnd ->
  f1 = (if decide (f0 = FinalisingStepNone) then hd FinalisingStepTypeEnd seq else f0) ->
  f1 <> FinalisingStepTypeEnd -> finalEdge seq canaryTaskDone f0 f1 -> finalAt c0 f1 c ->
  wp (s <- getCanary ;;
      match canaryTask (FinalisingStep (cn_Common s)) tr with
      | Some task =>
          retry <- task ;;
          if retry : bool then ret false else
          touchCanary ;;
          modCanaryCommon (fun s => s <| FinalisingStep := nextTask seq f0 |>) ;;
          ret (bool_decide (nextTask seq f0 = FinalisingStepTypeEnd))
      | None =>
          modCanaryCommon (fun s =>
            s <| FinalisingStep := nextCanaryTask (FinalizeReason c0) FinalisingStepNone |>) ;;
          ret false
      end)
     (fun r s => finalPost seq canaryTaskDone c0 f0 r (fst s)) (c, w).
Proof.
  intros seq Hsome He Hf1 Hne1 Hedge Hat.
  assert (Hfail : forall e c', finalAt c0 f1 c' ->
    finalPost seq canaryTaskDone c0 f0 (Err e) c' /\ finalPost seq canaryTaskDone c0 f0 Panic c').
  { intros e c' Hc. split; exists f1; split_and!; done. }
  pose proof Hat as (Hf & s & Hs & Es).
  assert (is_Some (CanaryStatus (NewStatus c))) as [cs Hcs] by (by apply Hf).
  eapply wp_bind_run; [by apply getCanary_run|].
  rewrite (canary_sub _ _ Hcs) in Hs. injection Hs as Hs. rewrite Hs, Es.
  destruct (canaryTask f1 tr) as [task|] eqn:Htask.
  - eapply wp_final_bind; [by eapply preserves_canaryTask|exact Hat|exact Hfail|].
    intros retry c1 w1 Hrun Hat1. destruct retry.
    { apply wp_ret. exists f1. split_and!; done. }
    eapply wp_final_bind; [auto with frames|exact Hat1|exact Hfail|]. intros u c2 w2 _ Hat2.
    destruct (setFinalising_run (nextTask seq f0) c0 f1 c2 w2 Hsome Hat2) as (c3 & Hset & Hat3).
    eapply wp_bind_run; [exact Hset|]. apply wp_ret. exists (nextTask seq f0).
    split; [done|]. split.
    + destruct (decide (f0 = FinalisingStepNone)) as [->|E0]; [by apply final_start|].
      subst f1. apply final_next; [done..|]. by exists c, tr, task, w, (c1, w1).
    + split; intros [= Hb]; [by apply bool_decide_eq_true in Hb|by apply bool_decide_eq_false in Hb].
  - destruct (setFinalising_run (nextCanaryTask (FinalizeReason c0) FinalisingStepNone)
      c0 f1 c w Hsome Hat) as (c3 & Hset & Hat3).
    eapply wp_bind_run; [exact Hset|]. apply wp_ret.
    exists (hd FinalisingStepTypeEnd seq). split; [done|]. split; [by apply final_start|].
    split; [done|]. intros _ Hhd. destruct (canarySequence_ok (FinalizeReason c0)) as (_ & Hend & Hnil & _).
    apply Hend. rewrite <- Hhd. by eapply list_elem_of_lookup_2, hd_lookup.
Qed.

Lemma canary_doCanaryFinalising_post c0 cs0 (w : W) :
  CanaryStatus (NewStatus c0) = Some cs0 ->
  wp canary_doCanaryFinalising (fun r s =>
    finalPost (canaryTaskSequence (FinalizeReason c0)) canaryTaskDone c0
      (FinalisingStep (cn_Common cs0)) r (fst s)) (c0, w).
Proof.
  intros Hcs0. set (f0 := FinalisingStep (cn_Common cs0)).
  set (seq := canaryTaskSequence (FinalizeReason c0)).
  assert (Hsome : is_Some (CanaryStatus (NewStatus c0))) by by eexists.
  assert (Hat : finalAt c0 f0 c0).
  { split; [reflexivity|]. exists (cn_Common cs0). by rewrite (canary_sub _ _ Hcs0). }
  assert (Hfail : forall e c', finalAt c0 f0 c' ->
    finalPost seq canaryTaskDone c0 f0 (Err e) c' /\ finalPost seq canaryTaskDone c0 f0 Panic c').
  { intros e c' Hc. split; exists f0; split_and!; try done; apply final_stay. }
  unfold canary_doCanaryFinalising. eapply wp_bind_run; [apply getC_run|]. rewrite Hcs0. cbv zeta.
  fold f0.
  eapply wp_final_bind; [apply preserves_removeAnnotation|exact Hat|exact Hfail|].
  intros u c1 w1 _ Hat1.
  eapply wp_final_bind; [unfold mkTR; solve_preserves|exact Hat1|exact Hfail|].
  intros tr c2 w2 _ Hat2. destruct (decide (f0 = FinalisingStepTypeEnd)) as [He|He].
  { apply wp_ret. exists f0. split_and!; try done. apply final_stay. }
  set (f1 := if decide (f0 = FinalisingStepNone) then hd FinalisingStepTypeEnd seq else f0).
  assert (He1 : finalEdge seq canaryTaskDone f0 f1).
  { unfold f1. case_decide; [by apply final_start|apply final_stay]. }
  assert (Hfail1 : forall e c', finalAt c0 f1 c' ->
    finalPost seq canaryTaskDone c0 f0 (Err e) c' /\ finalPost seq canaryTaskDone c0 f0 Panic c').
  { intros e c' Hc. split; exists f1; split_and!; done. }
  assert (Hne1 : f1 <> FinalisingStepTypeEnd).
  { unfold f1. case_decide; [|done]. intros Hhd.
    destruct (canarySequence_ok (FinalizeReason c0)) as (_ & Hend & Hnil & _). apply Hend.
    rewrite <- Hhd. by eapply list_elem_of_lookup_2, hd_lookup. }
  assert (Hnext : nextCanaryTask (FinalizeReason c0) f0 = nextTask seq f0) by done.
  rewrite Hnext. apply wp_bind.
  assert (Hset : wp (if decide (f0 = FinalisingStepNone)
      then modCanaryCommon (fun s => s <| FinalisingStep := nextTask seq f0 |>) ;; touchCanary
      else ret tt) (fun _ s => finalAt c0 f1 (fst s)) (c2, w2)).
  { unfold f1. case_decide as E0; [|by apply wp_ret].
    destruct (setFinalising_run (nextTask seq f0) c0 f0 c2 w2 Hsome Hat2) as (c3 & Hrun & Hat3).
    eapply wp_bind_run; [exact Hrun|]. apply (wp_preserves stepFrame); [auto with frames|].
    intros r c4 w4 _ F4. rewrite E0 in Hat3. by eapply finalAt_frame. }
  eapply wp_mono; [exact Hset|]. intros r [c3 w3] Hr.
  destruct r as [[]|e|]; [|by apply Hfail1|by eapply (Hfail1 ErrConflict)].
  by eapply canary_finalTask_post.
Qed.

Lemma canaryFinalCall_edge reason f f' :
  canaryFinalCall reason f f' -> finalEdge (canaryTaskSequence reason) canaryTaskDone f f'.
Proof.
  intros (c & w & cs & r & c' & w' & cs' & <- & Hcs & <- & Hrun & Hcs' & <-).
  pose proof (canary_doCanaryFinalising_post c cs w Hcs) as Hwp. unfold wp in Hwp.
  rewrite Hrun in Hwp. destruct Hwp as (f' & (_ & s & Hs & <-) & He & _). simpl in Hs.
  rewrite (canary_sub _ _ Hcs') in Hs. by injection Hs as <-.
Qed.

(** C4. Canary finalising completes.  Take any number of calls of
    [doCanaryFinalising] for one reason, each in whatever context, the first with no
    finalising step recorded and each continuing from the step the previous one
    left.  Then the tasks are done in the order of the sequence of that reason:
    when a task is current, every task before it has reported that nothing is left
    to do, and when the end is reached every task of the sequence has; and a call
    reports completion exactly when it is at the end. *)
Theorem canary_finalising_complete (reason : string) (f : FinalisingStepType)
    (Hcalls : rtc (canaryFinalCall reason) FinalisingStepNone f) :
  (f = FinalisingStepTypeEnd -> forall t, t ∈ canaryTaskSequence reason -> canaryTaskDone t)
  /\ (forall k j t, canaryTaskSequence reason !! k = Some f ->
        (j < k)%nat -> canaryTaskSequence reason !! j = Some t -> canaryTaskDone t)
  /\ forall c (w : W) cs b c' w', FinalizeReason c = reason ->
        CanaryStatus (NewStatus c) = Some cs -> FinalisingStep (cn_Common cs) = f ->
        canary_doCanaryFinalising (c, w) = (Ok b, (c', w')) ->
        exists cs', CanaryStatus (NewStatus c') = Some cs'
          /\ (b = true <-> FinalisingStep (cn_Common cs') = FinalisingStepTypeEnd).
Proof.
  destruct (canarySequence_ok reason) as (Hnd & Hend & Hne & Hnone).
  destruct (finalEdges_inv (canaryTaskSequence reason) canaryTaskDone Hnd Hend Hne
              FinalisingStepNone f) as [_ [H1' H2']].
  { clear -Hcalls. induction Hcalls; [done|]. eapply rtc_l; [by apply canaryFinalCall_edge|done]. }
  { by apply onSequence_start. }
  split; [exact H1'|]. split; [intros k j t Hk Hj; by eapply H2'|].
  intros c w cs b c' w' _ Hcs _ Hrun.
  pose proof (canary_doCanaryFinalising_post c cs w Hcs) as Hwp. unfold wp in Hwp.
  rewrite Hrun in Hwp. destruct Hwp as (f' & (Hfr & s & Hs & <-) & _ & Ht & Hf).
  assert (is_Some (CanaryStatus (NewStatus c'))) as [cs' Hcs'] by (apply Hfr; by eexists).
  exists cs'. split; [done|]. simpl in Hs. rewrite (canary_sub _ _ Hcs') in Hs. injection Hs as <-.
  destruct b; split; try done; [intros _; by apply Ht|intros E; by destruct (Hf eq_refl)].
Qed.
End CanaryFinalising.
