(* ===== verification/BlueGreenManager.v ===== *)
(** * The blue-green release manager (pkg/controller/rollout/rollout_bluegreen.go)

    [blueGreenReleaseManager]: the same step machine as the canary manager over the
    blue-green part of the status, without the shortcuts for full steps, and its
    own sequences of finalising tasks. *)

From S2P Require Export ReleaseManager.

(** [blueGreenReleaseManager.createBatchRelease] *)
Definition bg_createBatchRelease (rollout : Rollout) (rolloutID : string) (batch : Z)
    (isRollback : bool) : res BatchRelease :=
  res_bind (deref (BlueGreen (ro_Strategy rollout))) (fun blueGreen =>
  res_bind (stepBatches (bg_Steps blueGreen)) (fun batches =>
  Ok (newBatchRelease rollout
        {| Batches := batches;
           BatchPartition := Some batch;
           RolloutID := rolloutID;
           FailureThreshold := bg_FailureThreshold blueGreen;
           FinalizingPolicy := FinalizingPolicyNone;
           rp_PatchPodTemplateMetadata := None;
           RollingStyle := BlueGreenRollingStyle;
           EnableExtraWorkloadForCanary := false |}
        isRollback))).

(** ** Finalising tasks *)

Definition blueGreenTaskSequence (reason : string) : list FinalisingStepType :=
  if String.eqb reason FinaliseReasonSuccess then
    [FinalisingStepRouteTrafficToNew; FinalisingStepRestoreStableService;
     FinalisingStepResumeWorkload; FinalisingStepRouteTrafficToStable;
     FinalisingStepRemoveCanaryService; FinalisingStepReleaseWorkloadControl]
  else if String.eqb reason FinaliseReasonRollback then
    [FinalisingStepRouteTrafficToStable; FinalisingStepResumeWorkload;
     FinalisingStepRestoreStableService; FinalisingStepRemoveCanaryService;
     FinalisingStepReleaseWorkloadControl]
  else
    [FinalisingStepRestoreStableService; FinalisingStepRouteTrafficToStable;
     FinalisingStepRemoveCanaryService; FinalisingStepResumeWorkload;
     FinalisingStepReleaseWorkloadControl].

Definition nextBlueGreenTask (reason : string) (currentTask : FinalisingStepType)
    : FinalisingStepType := nextTask (blueGreenTaskSequence reason) currentTask.

(** ** The step machine *)

Section BlueGreenManager.
Context {W : Type} `{Clock W} `{Api W BatchRelease} `{WorkloadClient W} `{TrafficManager W}
  `{K8sLib} `{WorkloadFilter} `{PlanHash}.
Abbreviation MC := (M (RolloutContext * W)).

(** [c.NewStatus.BlueGreenStatus] read and written through. *)
Definition getBlueGreen : MC BlueGreenStatusT :=
  c <- getC ;; lift (deref (BlueGreenStatus (NewStatus c))).
Definition modBlueGreen (f : BlueGreenStatusT -> BlueGreenStatusT) : MC unit :=
  s <- getBlueGreen ;; modStatus (fun st => st <| BlueGreenStatus := Some (f s) |>).
Definition modBlueGreenCommon (f : CommonStatus -> CommonStatus) : MC unit :=
  modBlueGreen (fun s => s <| bg_Common := f (bg_Common s) |>).
Definition setBlueGreenState (state : CanaryStepState) : MC unit :=
  modBlueGreenCommon (fun s => s <| CurrentStepState := state |>).
(** [blueGreenStatus.LastUpdateTime = &metav1.Time{Time: time.Now()}] *)
Definition touchBlueGreen : MC unit :=
  t <- now ;; modBlueGreenCommon (fun s => s <| cs_LastUpdateTime := Some t |>).

Definition blueGreenSteps : MC (list CanaryStep) :=
  c <- getC ;; lift (res_map bg_Steps (deref (BlueGreen (ctx_Strategy c)))).
Definition blueGreenCurrentStep : MC CanaryStep :=
  steps <- blueGreenSteps ;;
  s <- getBlueGreen ;;
  lift (go_index steps (wrap32 (CurrentStepIndex (bg_Common s) - 1))).
Definition bg_syncBatchRelease (br : BatchRelease) : MC unit :=
  modBlueGreen (fun s => s
    <| UpdatedReplicas := br_UpdatedReplicas (br_CanaryStatus (br_Status br)) |>
    <| UpdatedReadyReplicas := br_UpdatedReadyReplicas (br_CanaryStatus (br_Status br)) |>
    <| bg_Common := (bg_Common s) <| cs_Message := syncMessage br |> |>) ;;
  s <- getBlueGreen ;;
  let id := ObservedRolloutID (bg_Common s) in
  if String.eqb id (RolloutID (br_Plan br)) then ret tt
  else inWorld (api_Patch (O := BatchRelease) (br_Meta br) (PatchRolloutID id)).

Definition bg_doCanaryUpgrade : MC bool :=
  steps <- blueGreenSteps ;;
  s <- getBlueGreen ;;
  let index := CurrentStepIndex (bg_Common s) in
  setProgressMessage (stepMessage index (len steps) ", and upgrade workload to new version") ;;
  c <- getC ;;
  workload <- getWorkload ;;
  db <- inWorld (runBatchRelease bg_createBatchRelease (ctx_Rollout c)
          (getRolloutID (Some workload)) index (IsInRollback workload)) ;;
  if negb (fst db) then ret false
  else if negb (planObserved (snd db)) then ret false
  else if negb (batchReached (snd db) index) then ret false
  else
    modBlueGreenCommon (fun s => s <| PodTemplateHash := wl_PodTemplateHash workload |>) ;;
    ret true.

Definition bg_doCanaryMetricsAnalysis : MC bool := ret true.

Definition bg_doCanaryPaused : MC bool :=
  currentStep <- blueGreenCurrentStep ;;
  steps <- blueGreenSteps ;;
  s <- getBlueGreen ;;
  let index := CurrentStepIndex (bg_Common s) in
  match Duration (Pause currentStep) with
  | None =>
      setProgressMessage (stepMessage index (len steps)
        ", and you need manually confirm to enter the next step") ;;
      ret false
  | Some seconds =>
      setProgressMessage (stepMessage index (len steps)
        (", and wait duration(" +:+ itoa seconds +:+ " seconds) to enter the next step")%string) ;;
      last <- lift (deref (cs_LastUpdateTime (bg_Common s))) ;;
      let expectedTime := last + Second * seconds in
      t <- now ;;
      if decide (expectedTime < t) then ret true else
      modC (fun c => c <| RecheckTime := Some expectedTime |>) ;;
      ret false
  end.

Definition bg_doCanaryJump : MC bool :=
  c <- getC ;;
  match ctx_Workload c with
  | None => ret false
  | Some workload =>
      steps <- blueGreenSteps ;;
      doStepJump (ctx_Rollout c) steps (wl_Replicas workload)
  end.

(** ** runCanary *)

(** Sync with an existing BatchRelease and fill in the pod template hash. *)
Definition bg_sync : MC unit :=
  c <- getC ;;
  r <- catch (inWorld (fetchBatchRelease (ctx_Key c))) ;;
  match r with
  | inr err => if IsNotFound err then ret tt else fail err
  | inl br => bg_syncBatchRelease br
  end ;;
  s <- getBlueGreen ;;
  if String.eqb (PodTemplateHash (bg_Common s)) "" then
    workload <- getWorkload ;;
    modBlueGreenCommon (fun s => s <| PodTemplateHash := wl_PodTemplateHash workload |>)
  else ret tt.

(** A step without traffic strategy first cleans up; false: wait. *)
Definition bg_cleanTraffic (currentStep : CanaryStep) : MC bool :=
  if bool_decide (Traffic (StepTraffic currentStep) = None)
     && bool_decide (Matches (StepTraffic currentStep) = [])
  then
    tr <- mkTR ;;
    r <- withTR tr tm_FinalisingTrafficRouting ;;
    modBlueGreenCommon (fun s => s <| cs_LastUpdateTime := tr_LastUpdateTime (fst r) |>) ;;
    match snd r with
    | inr err => fail err
    | inl false => recheckAfter (RecheckDuration (fst r)) ;; ret false
    | inl true => ret true
    end
  else ret true.

Definition bg_runUpgrade : MC unit :=
  done <- bg_doCanaryUpgrade ;;
  if done : bool then
    setBlueGreenState CanaryStepStateTrafficRouting ;;
    touchBlueGreen
  else ret tt.

Definition bg_runInit (currentStep : CanaryStep) : MC unit :=
  tr <- mkTR ;;
  s <- getBlueGreen ;;
  p <- (if (bool_decide (Traffic (StepTraffic currentStep) <> None)
            || bool_decide (Matches (StepTraffic currentStep) <> []))
           && bool_decide (CurrentStepIndex (bg_Common s) = 1)
        then initOperation tr tm_PatchStableService else ret (tr, true)) ;;
  if negb (snd p) then ret tt else
  touchBlueGreen ;;
  setBlueGreenState CanaryStepStateUpgrade ;;
  bg_runUpgrade.

Definition bg_runTrafficRouting : MC unit :=
  tr <- mkTR ;;
  r <- withTR tr tm_DoTrafficRouting ;;
  modBlueGreenCommon (fun s => s <| cs_LastUpdateTime := tr_LastUpdateTime (fst r) |>) ;;
  match snd r with
  | inr err => fail err
  | inl done =>
      (if done : bool then touchBlueGreen ;; setBlueGreenState CanaryStepStateMetricsAnalysis
       else ret tt) ;;
      recheckLater
  end.

Definition bg_runReady : MC unit :=
  touchBlueGreen ;;
  c <- getC ;;
  steps <- blueGreenSteps ;;
  s <- getBlueGreen ;;
  let index := CurrentStepIndex (bg_Common s) in
  if decide (len steps > index) then
    next <- lift (NextBatchIndex (ctx_Rollout c) (wrap32 (index + 1))) ;;
    modBlueGreenCommon (fun s => s <| CurrentStepIndex := wrap32 (index + 1) |>
                                   <| NextStepIndex := next |>) ;;
    setBlueGreenState CanaryStepStateInit
  else setBlueGreenState CanaryStepStateCompleted.

Definition bg_runCanary : MC unit :=
  bg_sync ;;
  jumped <- bg_doCanaryJump ;;
  if jumped : bool then ret tt else
  currentStep <- blueGreenCurrentStep ;;
  clean <- bg_cleanTraffic currentStep ;;
  if negb clean then ret tt else
  s <- getBlueGreen ;;
  match CurrentStepState (bg_Common s) with
  | CanaryStepStateInit => bg_runInit currentStep
  | CanaryStepStateUpgrade => bg_runUpgrade
  | CanaryStepStateTrafficRouting => bg_runTrafficRouting
  | CanaryStepStateMetricsAnalysis =>
      done <- bg_doCanaryMetricsAnalysis ;;
      if done : bool then setBlueGreenState CanaryStepStatePaused else ret tt
  | CanaryStepStatePaused =>
      done <- bg_doCanaryPaused ;;
      if done : bool then touchBlueGreen ;; setBlueGreenState CanaryStepStateReady else ret tt
  | CanaryStepStateReady => bg_runReady
  | CanaryStepStateCompleted | CanaryStepStateOther _ => ret tt
  end.

(** ** doCanaryFinalising *)

(** The task of the current finalising step; [None] for an unexpected step. *)
Definition blueGreenTask (step : FinalisingStepType) (tr : TrafficRoutingContext)
    : option (MC bool) :=
  let traffic op := r <- withTR tr op ;;
                    match snd r with inl b => ret b | inr err => fail err end in
  match step with
  | FinalisingStepResumeWorkload => Some finalizingBatchRelease
  | FinalisingStepReleaseWorkloadControl => Some removeBatchRelease
  | FinalisingStepRouteTrafficToStable => Some (traffic tm_RestoreGateway)
  | FinalisingStepRestoreStableService => Some (traffic tm_RestoreStableService)
  | FinalisingStepRemoveCanaryService => Some (traffic tm_RemoveCanaryService)
  | FinalisingStepRouteTrafficToNew => Some (traffic tm_RouteAllTrafficToNewVersion)
  | FinalisingStepWaitEndless =>
      Some (fail (ErrOther "only for debugging, just wait endlessly"))
  | _ => None
  end.

Definition bg_doCanaryFinalising : MC bool :=
  c <- getC ;;
  match BlueGreenStatus (NewStatus c) with
  | None => ret true
  | Some blueGreenStatus =>
      let setStep st := modBlueGreenCommon (fun s => s <| FinalisingStep := st |>) in
      removeRolloutProgressingAnnotation ;;
      tr <- mkTR ;;
      let current := FinalisingStep (bg_Common blueGreenStatus) in
      let nextStep := nextBlueGreenTask (FinalizeReason c) current in
      if decide (current = FinalisingStepTypeEnd) then ret true else
      (if decide (current = FinalisingStepNone) then setStep nextStep ;; touchBlueGreen
       else ret tt) ;;
      s <- getBlueGreen ;;
      match blueGreenTask (FinalisingStep (bg_Common s)) tr with
      | None =>
          setStep (nextBlueGreenTask (FinalizeReason c) FinalisingStepNone) ;;
          ret false
      | Some task =>
          retry <- task ;;
          if retry : bool then ret false else
          touchBlueGreen ;;
          setStep nextStep ;;
          ret (bool_decide (nextStep = FinalisingStepTypeEnd))
      end
  end.
End BlueGreenManager.

Definition blueGreenReleaseManager {W} `{Clock W} `{Api W BatchRelease} `{WorkloadClient W}
    `{TrafficManager W} `{K8sLib} `{WorkloadFilter} `{PlanHash} : ReleaseManager W := {|
  runCanary := bg_runCanary;
  doCanaryJump := bg_doCanaryJump;
  doCanaryFinalising := bg_doCanaryFinalising;
  createBatchRelease := bg_createBatchRelease
|}.

(** ** Frames of the manager's operations *)

Section BlueGreenFrames.
Context {W : Type} `{Clock W} `{Api W BatchRelease} `{WorkloadClient W} `{TrafficManager W}
  `{K8sLib} `{WorkloadFilter} `{PlanHash}.
Abbreviation MC := (M (RolloutContext * W)).

Lemma bg_sub st s :
  CanaryStatus st = None -> BlueGreenStatus st = Some s -> GetSubStatus st = Some (bg_Common s).
Proof. unfold GetSubStatus. by intros -> ->. Qed.

Definition setBlueGreen (s : BlueGreenStatusT) (c : RolloutContext) : RolloutContext :=
  c <| NewStatus := (NewStatus c) <| BlueGreenStatus := Some s |> |>.

Lemma modBlueGreen_run f c (w : W) s :
  BlueGreenStatus (NewStatus c) = Some s ->
  modBlueGreen f (c, w) = (Ok tt, (setBlueGreen (f s) c, w)).
Proof. intros Hs. unfold modBlueGreen, getBlueGreen, bind, getC, lift. simpl. by rewrite Hs. Qed.

Lemma getBlueGreen_run c (w : W) s :
  BlueGreenStatus (NewStatus c) = Some s -> getBlueGreen (c, w) = (Ok s, (c, w)).
Proof. intros Hs. unfold getBlueGreen, bind, getC, lift. simpl. by rewrite Hs. Qed.

Lemma blueGreenSteps_run c (w : W) blueGreen :
  BlueGreen (ctx_Strategy c) = Some blueGreen -> blueGreenSteps (c, w) = (Ok (bg_Steps blueGreen), (c, w)).
Proof. intros Hs. unfold blueGreenSteps, bind, getC, lift. simpl. by rewrite Hs. Qed.

Lemma ctxFrame_setBlueGreen s c : is_Some (BlueGreenStatus (NewStatus c)) -> ctxFrame c (setBlueGreen s c).
Proof. intros Hs. unfold setBlueGreen. repeat split; simpl; auto. Qed.

(** The status of a blue-green release has no canary part. *)
Definition onlyBlueGreen (c : RolloutContext) : Prop :=
  CanaryStatus (NewStatus c) = None /\ is_Some (BlueGreenStatus (NewStatus c)).

Lemma onlyBlueGreen_frame c0 c :
  onlyBlueGreen c0 -> ctxFrame c0 c ->
  exists s, BlueGreenStatus (NewStatus c) = Some s /\ CanaryStatus (NewStatus c) = None
    /\ GetSubStatus (NewStatus c) = Some (bg_Common s).
Proof.
  intros [Hn Hsome] (_ & _ & _ & _ & _ & _ & _ & Hc & Hb).
  destruct (proj2 Hb Hsome) as [s Hs]. exists s.
  assert (CanaryStatus (NewStatus c) = None) as Hn'.
  { destruct (CanaryStatus (NewStatus c)) eqn:E; [|done].
    destruct (proj1 Hc ltac:(by eexists)) as [? Hx]. congruence. }
  split_and!; [done|done|by apply bg_sub].
Qed.

Lemma stepFrame_setBlueGreen s s' c :
  BlueGreenStatus (NewStatus c) = Some s -> standing (bg_Common s') = standing (bg_Common s) ->
  stepFrame c (setBlueGreen s' c).
Proof.
  intros Hs E. split; [by apply ctxFrame_setBlueGreen|].
  unfold stepView, setBlueGreen, GetSubStatus. simpl. rewrite Hs.
  destruct (CanaryStatus (NewStatus c)); simpl; [done|by rewrite E].
Qed.

Lemma preserves_modBlueGreen f :
  (forall s, standing (bg_Common (f s)) = standing (bg_Common s)) ->
  preserves stepFrame (modBlueGreen f : MC unit).
Proof.
  intros Hf c w r c' w'. destruct (BlueGreenStatus (NewStatus c)) as [s|] eqn:Hs.
  - rewrite (modBlueGreen_run _ _ _ _ Hs). intros [= <- <- <-]. by eapply stepFrame_setBlueGreen.
  - unfold modBlueGreen, getBlueGreen, bind, getC, lift. simpl. rewrite Hs. simpl.
    intros [= <- <- <-]. reflexivity.
Qed.

Lemma preserves_modBlueGreenCommon f :
  (forall s, standing (f s) = standing s) -> preserves stepFrame (modBlueGreenCommon f : MC unit).
Proof. intros Hf. apply preserves_modBlueGreen. intros s. apply Hf. Qed.

(** An edge of the machine: the state of the canary status is assigned. *)
Lemma setBlueGreenState_run st' c0 s0 st c (w : W) :
  onlyBlueGreen c0 -> standsAt c0 s0 st c ->
  exists c', setBlueGreenState st' (c, w) = (Ok tt, (c', w)) /\ standsAt c0 s0 st' c'.
Proof.
  intros Hsome (Hf & s & Hs & E).
  destruct (onlyBlueGreen_frame _ _ Hsome Hf) as (cs & Hcs & Hn & Hsub).
  unfold setBlueGreenState, modBlueGreenCommon. rewrite (modBlueGreen_run _ _ _ _ Hcs).
  eexists. split; [done|]. split.
  - etransitivity; [exact Hf|]. by apply ctxFrame_setBlueGreen.
  - rewrite Hsub in Hs. injection Hs as <-.
    eexists. split; [unfold setBlueGreen, GetSubStatus; simpl; rewrite Hn; reflexivity|].
    unfold standing in *. simpl. congruence.
Qed.

Lemma setBlueGreenState_bind {B} st' (k : unit -> MC B) c0 s0 st c w (Q : RolloutContext -> Prop) :
  onlyBlueGreen c0 -> standsAt c0 s0 st c ->
  (forall c', standsAt c0 s0 st' c' -> wp (k tt) (fun _ s => Q (fst s)) (c', w)) ->
  wp (bind (setBlueGreenState st') k) (fun _ s => Q (fst s)) (c, w).
Proof.
  intros Hsome Hat HQ. destruct (setBlueGreenState_run st' c0 s0 st c w Hsome Hat) as (c' & Hr & Hat').
  apply wp_bind. unfold wp. rewrite Hr. by apply HQ.
Qed.

Lemma setBlueGreenState_last st' c0 s0 st c (w : W) (Q : RolloutContext -> Prop) :
  onlyBlueGreen c0 -> standsAt c0 s0 st c ->
  (forall c', standsAt c0 s0 st' c' -> Q c') ->
  wp (setBlueGreenState st') (fun _ s => Q (fst s)) (c, w).
Proof.
  intros Hsome Hat HQ. destruct (setBlueGreenState_run st' c0 s0 st c w Hsome Hat) as (c' & Hr & Hat').
  unfold wp. rewrite Hr. by apply HQ.
Qed.

Lemma preserves_touchBlueGreen : preserves stepFrame (touchBlueGreen : MC unit).
Proof.
  unfold touchBlueGreen, now. solve_preserves. by apply preserves_modBlueGreenCommon.
Qed.

Hint Resolve preserves_touchBlueGreen : frames.

Ltac solve_bg :=
  repeat (solve_preserves; first [ simple apply preserves_modBlueGreen | simple apply preserves_modBlueGreenCommon ];
          try done).

Lemma preserves_bg_sync : preserves stepFrame (bg_sync : MC unit).
Proof.
  unfold bg_sync, bg_syncBatchRelease, getBlueGreen, getWorkload. solve_bg.
  all: solve_preserves.
Qed.

Lemma preserves_bg_doCanaryUpgrade : preserves stepFrame (bg_doCanaryUpgrade : MC bool).
Proof.
  unfold bg_doCanaryUpgrade, blueGreenSteps, getBlueGreen, getWorkload. cbv zeta. solve_bg.
  all: solve_preserves.
Qed.

Lemma preserves_bg_doCanaryPaused : preserves stepFrame (bg_doCanaryPaused : MC bool).
Proof.
  unfold bg_doCanaryPaused, blueGreenCurrentStep, blueGreenSteps, getBlueGreen, now. cbv zeta.
  solve_preserves.
Qed.

Lemma preserves_bg_cleanTraffic step : preserves stepFrame (bg_cleanTraffic step : MC bool).
Proof. unfold bg_cleanTraffic, mkTR. solve_bg. all: solve_preserves. Qed.


Lemma preserves_blueGreenCurrentStep : preserves stepFrame (blueGreenCurrentStep : MC CanaryStep).
Proof. unfold blueGreenCurrentStep, blueGreenSteps, getBlueGreen. solve_preserves. Qed.
End BlueGreenFrames.

#[export] Hint Resolve preserves_touchBlueGreen preserves_bg_sync
  preserves_bg_doCanaryUpgrade preserves_bg_doCanaryPaused preserves_bg_cleanTraffic
  preserves_blueGreenCurrentStep : frames.

(** ** The step machine is implemented *)

Section BlueGreenMachine.
Context {W : Type} `{Clock W} `{Api W BatchRelease} `{WorkloadClient W} `{TrafficManager W}
  `{K8sLib} `{WorkloadFilter} `{PlanHash}.
Abbreviation MC := (M (RolloutContext * W)).

(** What [doCanaryUpgrade] has observed when it is done. *)
Definition bg_upgradeObserved (c : RolloutContext) (index : Z) : Prop :=
  exists workload br want (w w' : W),
    ctx_Workload c = Some workload
    /\ api_Get (ctx_Key c) w = (Ok br, w')
    /\ bg_createBatchRelease (ctx_Rollout c) (getRolloutID (Some workload))
         (wrap32 (index - 1)) (IsInRollback workload) = Ok want
    /\ br_Spec br = br_Spec want
    /\ Annotations (br_Meta br) = Annotations (br_Meta want)
    /\ planObserved br = true /\ batchReached br index = true.

Lemma bg_doCanaryUpgrade_observed c w c' w' s :
  BlueGreenStatus (NewStatus c) = Some s ->
  bg_doCanaryUpgrade (c, w) = (Ok true, (c', w')) ->
  bg_upgradeObserved c (CurrentStepIndex (bg_Common s)).
Proof.
  unfold bg_doCanaryUpgrade, setProgressMessage, blueGreenSteps, getBlueGreen, getWorkload, modStatus.
  intros Hs Hrun. inv_run; try done.
  repeat match goal with E : negb _ = false |- _ => apply negb_false_iff in E; simpl in E end.
  simplify_eq. match goal with E : runBatchRelease _ _ _ _ _ _ = _ |- _ =>
    apply runBatchRelease_done in E as (want & wa & Hget & Hcreate & Hspec & Hann) end.
  eexists _, _, want, _, wa. split_and!; eassumption.
Qed.

Lemma bg_doCanaryPaused_observed c w c' w' s :
  BlueGreenStatus (NewStatus c) = Some s ->
  bg_doCanaryPaused (c, w) = (Ok true, (c', w')) ->
  exists blueGreen step, BlueGreen (ctx_Strategy c) = Some blueGreen
    /\ go_index (bg_Steps blueGreen) (wrap32 (CurrentStepIndex (bg_Common s) - 1)) = Ok step
    /\ durationOver step (bg_Common s).
Proof.
  unfold bg_doCanaryPaused, blueGreenCurrentStep, setProgressMessage, blueGreenSteps, getBlueGreen,
    now, modStatus.
  intros Hs Hrun. inv_run; try done; do 2 eexists; (split; [eassumption|]); split;
    try eassumption.
  match goal with E : time_Now ?w1 = _ |- _ => unfold time_Now in E;
    destruct (clock_now w1) eqn:Ec; simplify_eq; exists z, a1, w1; by rewrite Ec end.
Qed.

(** What the three guarded edges have observed, from the context [c0] on. *)
Definition blueGreenUpgraded (c0 : RolloutContext) (s0 : CommonStatus) : Prop :=
  bg_upgradeObserved c0 (CurrentStepIndex s0).
Definition blueGreenRouted (c0 : RolloutContext) (s0 : CommonStatus) : Prop :=
  exists c tr (w : W) s', standsAt c0 s0 CanaryStepStateTrafficRouting c
    /\ newTrafficRoutingContext c = Ok tr
    /\ tm_DoTrafficRouting (tr, w) = (Ok true, s').
Definition blueGreenPauseOver (c0 : RolloutContext) (s0 : CommonStatus) : Prop :=
  exists c s blueGreen step, standsAt c0 s0 CanaryStepStatePaused c
    /\ GetSubStatus (NewStatus c) = Some s
    /\ BlueGreen (ctx_Strategy c0) = Some blueGreen
    /\ go_index (bg_Steps blueGreen) (wrap32 (CurrentStepIndex s0 - 1)) = Ok step
    /\ durationOver step s.

Definition blueGreenPost (n : Z) (c0 : RolloutContext) (s0 : CommonStatus)
    (c' : RolloutContext) : Prop :=
  stepPost n (blueGreenUpgraded c0 s0) (blueGreenRouted c0 s0) (blueGreenPauseOver c0 s0) s0 c0 c'.

Lemma standsAt_bg c0 s0 st c :
  onlyBlueGreen c0 -> standsAt c0 s0 st c ->
  exists s, BlueGreenStatus (NewStatus c) = Some s /\ CanaryStatus (NewStatus c) = None
    /\ GetSubStatus (NewStatus c) = Some (bg_Common s)
    /\ standing (bg_Common s) = (CurrentStepIndex s0, st, NextStepIndex s0, FinalisingStep s0).
Proof.
  intros Hsome (Hf & s & Hs & E).
  destruct (onlyBlueGreen_frame _ _ Hsome Hf) as (cs & Hcs & Hn & Hsub).
  exists cs. rewrite Hsub in Hs. injection Hs as <-. done.
Qed.

Section run.
Variables (n : Z) (c0 : RolloutContext) (s0 : CommonStatus).
Hypothesis Hsome : onlyBlueGreen c0.
Abbreviation post := (blueGreenPost n c0 s0).
Abbreviation edge st := (stepTrans n (NextStepIndex s0) (blueGreenUpgraded c0 s0)
  (blueGreenRouted c0 s0) (blueGreenPauseOver c0 s0)
  (CurrentStepIndex s0, CurrentStepState s0) (CurrentStepIndex s0, st)).

Lemma bg_post_at st c : edge st -> standsAt c0 s0 st c -> post c.
Proof. intros He Hat. by eapply standsAt_post. Qed.

Lemma bg_runUpgrade_post st c (w : W) :
  CurrentStepState s0 = CanaryStepStateInit \/ CurrentStepState s0 = CanaryStepStateUpgrade ->
  edge st -> standsAt c0 s0 st c ->
  wp bg_runUpgrade (fun _ s => post (fst s)) (c, w).
Proof.
  intros Hst He Hat. unfold bg_runUpgrade.
  eapply wp_stand_bind; [auto with frames|exact Hat|by intros; eapply bg_post_at|].
  intros done_ c1 w1 Hrun F1 Hat1. destruct done_; [|by apply wp_ret, (bg_post_at st)].
  assert (Hup : blueGreenUpgraded c0 s0).
  { destruct (standsAt_bg _ _ _ _ Hsome Hat) as (cs & Hcs & _ & _ & Ecs).
    pose proof (bg_doCanaryUpgrade_observed _ _ _ _ _ Hcs Hrun) as Hobs.
    destruct Hat as [(Hro & Hwl & _) _]. unfold standing in Ecs. injection Ecs as Ei _ _ _.
    unfold blueGreenUpgraded. rewrite <- Ei. unfold bg_upgradeObserved, ctx_Key in *.
    by rewrite <- Hro, <- Hwl. }
  eapply setBlueGreenState_bind; [done|exact Hat1|]. intros c2 Hat2.
  eapply wp_stand; [auto with frames|exact Hat2|].
  intros c'. apply bg_post_at. apply step_upgrade; auto.
Qed.

Lemma bg_runInit_post step c (w : W) :
  CurrentStepState s0 = CanaryStepStateInit ->
  standsAt c0 s0 CanaryStepStateInit c ->
  wp (bg_runInit step) (fun _ s => post (fst s)) (c, w).
Proof.
  intros Hst Hat. assert (He : edge CanaryStepStateInit) by (rewrite Hst; apply step_stay).
  assert (Hpost : forall c', standsAt c0 s0 CanaryStepStateInit c' -> post c')
    by (intros; by eapply bg_post_at).
  assert (Hedge : edge CanaryStepStateUpgrade) by (rewrite Hst; apply step_init).
  unfold bg_runInit, mkTR.
  eapply wp_stand_bind; [solve_preserves|exact Hat|done|]. intros tr c1 w1 _ _ Hat1.
  unfold getBlueGreen. eapply wp_stand_bind; [solve_preserves|exact Hat1|done|].
  intros cs c2 w2 _ _ Hat2.
  eapply wp_stand_bind; [destruct (_ && _); solve_preserves|exact Hat2|done|].
  intros p c3 w3 _ _ Hat3. destruct (negb (snd p)); [by apply wp_ret, Hpost|].
  eapply wp_stand_bind; [auto with frames|exact Hat3|done|]. intros u c4 w4 _ _ Hat4.
  eapply setBlueGreenState_bind; [done|exact Hat4|]. intros c5 Hat5.
  by eapply bg_runUpgrade_post; eauto.
Qed.

Lemma bg_runTrafficRouting_post c (w : W) :
  CurrentStepState s0 = CanaryStepStateTrafficRouting ->
  standsAt c0 s0 CanaryStepStateTrafficRouting c ->
  wp bg_runTrafficRouting (fun _ s => post (fst s)) (c, w).
Proof.
  intros Hst Hat. assert (He : edge CanaryStepStateTrafficRouting) by (rewrite Hst; apply step_stay).
  assert (Hpost : forall c', standsAt c0 s0 CanaryStepStateTrafficRouting c' -> post c')
    by (intros; by eapply bg_post_at).
  unfold bg_runTrafficRouting, mkTR.
  eapply wp_stand_bind; [solve_preserves|exact Hat|done|]. intros tr c1 w1 Htr F1 Hat1.
  eapply wp_stand_bind; [auto with frames|exact Hat1|done|]. intros r c2 w2 Hdo F2 Hat2.
  eapply wp_stand_bind; [by apply preserves_modBlueGreenCommon|exact Hat2|done|].
  intros u c3 w3 _ F3 Hat3. destruct r as [tr' [[]|e]] eqn:Er; simpl.
  - assert (Hr : blueGreenRouted c0 s0).
    { inv_run. exists c1, tr, w1. unfold withTR in Hdo. simpl in Hdo.
      destruct (tm_DoTrafficRouting (tr, w1)) as [[a|?|] [trx wx]] eqn:Et; simplify_eq.
      eexists. split; [done|]. done. }
    apply wp_bind_assoc.
    eapply wp_stand_bind; [auto with frames|exact Hat3|done|]. intros u1 c4 w4 _ _ Hat4.
    eapply setBlueGreenState_bind; [done|exact Hat4|]. intros c5 Hat5.
    eapply wp_stand; [auto with frames|exact Hat5|].
    intros c'. apply bg_post_at. rewrite Hst. by apply step_route.
  - apply wp_bind, wp_ret. simpl. eapply wp_stand; [auto with frames|exact Hat3|done].
  - by apply wp_fail, Hpost.
Qed.

Lemma bg_runReady_post blueGreen c (w : W) :
  BlueGreen (ctx_Strategy c0) = Some blueGreen -> n = len (bg_Steps blueGreen) ->
  hasSteps (ctx_Rollout c0) (bg_Steps blueGreen) -> 1 <= CurrentStepIndex s0 <= n ->
  CurrentStepState s0 = CanaryStepStateReady -> standsAt c0 s0 CanaryStepStateReady c ->
  wp bg_runReady (fun _ s => post (fst s)) (c, w).
Proof.
  intros Hcn Hn Hsteps Hi Hst Hat.
  assert (Hpost : forall c', standsAt c0 s0 CanaryStepStateReady c' -> post c').
  { intros. eapply bg_post_at; [rewrite Hst; apply step_stay|done]. }
  unfold bg_runReady. eapply wp_stand_bind; [auto with frames|exact Hat|done|].
  intros u c1 w1 _ _ Hat1.
  pose proof (standsAt_bg _ _ _ _ Hsome Hat1) as (cs1 & Hcs1 & Hn1 & _ & Ecs1).
  assert (Hro : ctx_Rollout c1 = ctx_Rollout c0) by apply Hat1.
  unfold standing in Ecs1. injection Ecs1 as Ei1 Es1 En1 Ef1.
  eapply wp_bind_run; [apply getC_run|].
  eapply wp_bind_run; [apply blueGreenSteps_run; unfold ctx_Strategy in *; by rewrite Hro|].
  eapply wp_bind_run; [by apply getBlueGreen_run|]. rewrite Ei1, <- Hn. case_decide as Hlt.
  - assert (n < 2 ^ 31 - 1) by (subst n; apply Hsteps).
    rewrite wrap32_id by (unfold in32; lia).
    eapply wp_bind_run; [unfold lift; rewrite Hro, (NextBatchIndex_val _ (bg_Steps blueGreen)) by (done || lia); done|].
    eapply wp_bind_run; [by apply modBlueGreen_run|].
    unfold wp, setBlueGreenState, modBlueGreenCommon. erewrite modBlueGreen_run by done. simpl.
    split.
    + etransitivity; [apply Hat1|]. etransitivity; apply ctxFrame_setBlueGreen; by eexists.
    + eexists. split; [unfold GetSubStatus; simpl; rewrite Hn1; done|]. simpl. rewrite Hst, <- Hn.
      split; [apply step_next; lia|]. split; [done|by right].
  - eapply setBlueGreenState_last; [done|exact Hat1|]. intros c'. apply bg_post_at.
    rewrite Hst. apply step_complete. lia.
Qed.
End run.

Lemma bg_doCanaryJump_post blueGreen c0 s0 c (w : W) s :
  BlueGreen (ctx_Strategy c0) = Some blueGreen -> hasSteps (ctx_Rollout c0) (bg_Steps blueGreen) ->
  1 <= CurrentStepIndex s0 <= len (bg_Steps blueGreen) ->
  CanaryStatus (NewStatus c) = None -> BlueGreenStatus (NewStatus c) = Some s ->
  standsAt c0 s0 (CurrentStepState s0) c ->
  exists b c' w', bg_doCanaryJump (c, w) = (Ok b, (c', w'))
    /\ if b : bool then blueGreenPost (len (bg_Steps blueGreen)) c0 s0 c'
       else c' = c.
Proof.
  intros Hcn Hsteps Hi Hn Hs (Hf & s' & Hs' & E). unfold bg_doCanaryJump.
  unfold bind at 1, getC at 1. simpl. destruct (ctx_Workload c) as [wl|]; [|by exists false, c, w].
  assert (Hro : ctx_Rollout c = ctx_Rollout c0) by apply Hf.
  unfold bind at 1. erewrite blueGreenSteps_run by (unfold ctx_Strategy in *; by rewrite Hro).
  pose proof (bg_sub _ _ Hn Hs) as Hsub. rewrite Hs' in Hsub. injection Hsub as ->.
  unfold standing in E. injection E as Ei Es En Ef. destruct Hsteps as [Hst Hlen].
  pose proof (doStepJump_run (ctx_Rollout c) (bg_Steps blueGreen) (wl_Replicas wl) c w (UnifiedBlueGreen s))
    as Hrun. cbv zeta in Hrun. simpl in Hrun.
  specialize (Hrun ltac:(by rewrite Hro) ltac:(by unfold GetUnifiedStatus; rewrite Hn, Hs) ltac:(lia)).
  destruct (jumpsTo _ _) eqn:Hj; [|by exists false, c, w].
  destruct Hrun as (step & _ & Hrun). exists true. do 2 eexists. split; [exact Hrun|].
  unfold jumpsTo in Hj. apply andb_true_iff in Hj as [Hne%bool_decide_eq_true Hr%bool_decide_eq_true].
  rewrite Ei, En in *. split; [etransitivity; [exact Hf|apply ctxFrame_modSub]|].
  eexists. split; [by apply getSub_set|]. unfold jumped. simpl. rewrite En, Ef.
  split; [apply step_jump; [done|done|]|]; [by destruct (bool_decide _); auto|].
  split; [done|by right].
Qed.

Lemma bg_paused_post blueGreen n c0 s0 c (w : W) :
  BlueGreen (ctx_Strategy c0) = Some blueGreen -> onlyBlueGreen c0 ->
  CurrentStepState s0 = CanaryStepStatePaused -> standsAt c0 s0 CanaryStepStatePaused c ->
  wp (done <- bg_doCanaryPaused ;;
      if done : bool then touchBlueGreen ;; setBlueGreenState CanaryStepStateReady else ret tt)
     (fun _ s => blueGreenPost n c0 s0 (fst s)) (c, w).
Proof.
  intros Hcn Hsome Hst Hat.
  assert (Hpost : forall c', standsAt c0 s0 CanaryStepStatePaused c' -> blueGreenPost n c0 s0 c').
  { intros. eapply bg_post_at; [rewrite Hst; apply step_stay|done]. }
  destruct (standsAt_bg _ _ _ _ Hsome Hat) as (cs & Hcs & _ & Hsub & Ecs).
  eapply wp_stand_bind; [auto with frames|exact Hat|done|]. intros d c1 w1 Hrun _ Hat1.
  destruct d; [|by apply wp_ret, Hpost].
  assert (Hp : blueGreenPauseOver c0 s0).
  { apply (bg_doCanaryPaused_observed _ _ _ _ _ Hcs) in Hrun as (cn & step & Hcn' & Hstep & Hover).
    assert (ctx_Rollout c = ctx_Rollout c0) as Hro by apply Hat.
    unfold standing in Ecs. injection Ecs as Ei _ _ _.
    exists c, (bg_Common cs), cn, step. rewrite <- Ei.
    split_and!; [done|done|unfold ctx_Strategy in *; by rewrite <- Hro|done|done]. }
  eapply wp_stand_bind; [auto with frames|exact Hat1|done|]. intros u c2 w2 _ _ Hat2.
  eapply setBlueGreenState_last; [done|exact Hat2|]. intros c'. apply bg_post_at.
  rewrite Hst. by apply step_pause.
Qed.

Lemma bg_runCanary_post blueGreen c0 cs0 (w : W) :
  BlueGreen (ctx_Strategy c0) = Some blueGreen -> hasSteps (ctx_Rollout c0) (bg_Steps blueGreen) ->
  CanaryStatus (NewStatus c0) = None -> BlueGreenStatus (NewStatus c0) = Some cs0 ->
  1 <= CurrentStepIndex (bg_Common cs0) <= len (bg_Steps blueGreen) ->
  wp bg_runCanary (fun _ s => blueGreenPost (len (bg_Steps blueGreen)) c0 (bg_Common cs0) (fst s)) (c0, w).
Proof.
  intros Hcn Hsteps Hn0 Hcs0 Hi. set (s0 := bg_Common cs0). set (n := len (bg_Steps blueGreen)).
  assert (Hsome : onlyBlueGreen c0) by (split; [done|by eexists]).
  pose proof (standsAt_start c0 s0 (bg_sub _ _ Hn0 Hcs0)) as Hat.
  assert (Hpost : forall c', standsAt c0 s0 (CurrentStepState s0) c' -> blueGreenPost n c0 s0 c').
  { intros. eapply bg_post_at; [apply step_stay|done]. }
  unfold bg_runCanary.
  eapply wp_stand_bind; [auto with frames|exact Hat|done|]. intros u c1 w1 _ _ Hat1.
  destruct (standsAt_bg _ _ _ _ Hsome Hat1) as (cs1 & Hcs1 & Hn1 & _).
  destruct (bg_doCanaryJump_post blueGreen c0 s0 c1 w1 cs1) as (b & c2 & w2 & Hjump & Hb); try done.
  eapply wp_bind_run; [exact Hjump|]. destruct b; [by apply wp_ret|]. subst c2.
  eapply wp_stand_bind; [auto with frames|exact Hat1|done|]. intros step c3 w3 _ _ Hat3.
  eapply wp_stand_bind; [auto with frames|exact Hat3|done|]. intros clean c4 w4 _ _ Hat4.
  destruct (negb clean); [by apply wp_ret, Hpost|].
  destruct (standsAt_bg _ _ _ _ Hsome Hat4) as (cs4 & Hcs4 & _ & _ & Ecs4).
  eapply wp_bind_run; [by apply getBlueGreen_run|].
  unfold standing in Ecs4. injection Ecs4 as _ Es _ _. rewrite Es.
  destruct (CurrentStepState s0) eqn:Hst; try by apply wp_ret, Hpost.
  - by eapply bg_runInit_post.
  - eapply bg_runUpgrade_post; try done; [by right|rewrite Hst; apply step_stay].
  - by eapply bg_runTrafficRouting_post.
  - eapply wp_bind_run; [done|]. eapply setBlueGreenState_last; [done|exact Hat4|].
    intros c'. apply bg_post_at. rewrite Hst. apply step_metrics.
  - by eapply bg_paused_post.
  - by eapply bg_runReady_post.
Qed.

(** C10. The blueGreen step machine.  One call of [runCanary] of the blue-green manager on a
    release that stands at a step of the plan follows one edge of the abstract
    machine, whatever the API server, the traffic manager and the clock do, also
    when the call ends in an error: the step is upgraded only after a BatchRelease
    carrying exactly this plan was read ready for this step, traffic analysis is reached only
    after the traffic manager reported the routes in place, a pause ends only when it
    is over, a next step starts only from Ready, the release completes only at the
    last step; the step index stays in the plan; the next index is kept or
    recomputed; and nothing of the context but the blue-green part and the message of the
    status and the recheck time is touched. *)
Theorem bg_runCanary_refines (blueGreen : BlueGreenStrategy) (c0 : RolloutContext) (w : W)
    (cs0 : BlueGreenStatusT)
    (Hcn : BlueGreen (ctx_Strategy c0) = Some blueGreen)
    (Hsteps : hasSteps (ctx_Rollout c0) (bg_Steps blueGreen))
    (Hnc : CanaryStatus (NewStatus c0) = None)
    (Hcs : BlueGreenStatus (NewStatus c0) = Some cs0)
    (Hi : 1 <= CurrentStepIndex (bg_Common cs0) <= len (bg_Steps blueGreen)) :
  let s0 := bg_Common cs0 in
  let '(_, (c', _)) := bg_runCanary (c0, w) in
  stepPost (len (bg_Steps blueGreen)) (blueGreenUpgraded c0 s0) (blueGreenRouted c0 s0)
    (blueGreenPauseOver c0 s0) s0 c0 c'
  /\ (exists s', GetSubStatus (NewStatus c') = Some s'
      /\ 1 <= CurrentStepIndex s' <= len (bg_Steps blueGreen))
  /\ c' = c0 <| RecheckTime := RecheckTime c' |>
             <| NewStatus := (NewStatus c0) <| BlueGreenStatus := BlueGreenStatus (NewStatus c') |>
                  <| Message := Message (NewStatus c') |> |>.
Proof.
  intros s0.
  assert (Hwp : wp bg_runCanary (fun _ s => blueGreenPost (len (bg_Steps blueGreen)) c0 s0 (fst s)) (c0, w)).
  { by apply bg_runCanary_post. }
  unfold wp in Hwp. destruct (bg_runCanary (c0, w)) as [r [c' w']]. simpl in Hwp.
  split; [exact Hwp|]. destruct Hwp as (Hf & s' & Hs' & Ht & _). split.
  - exists s'. split; [done|]. apply stepTrans_range in Ht; done.
  - pose proof (ctxFrame_outside _ _ Hf) as E. destruct (ctxFrame_canary _ _ Hf) as [Hnone _].
    destruct (CanaryStatus (NewStatus c')) as [cs|] eqn:Hcan; [by destruct Hnone; [eexists|congruence]|].
    rewrite E at 1. by destruct c0 as [? [] ? ? ? ?]; simpl in *; subst.
Qed.
End BlueGreenMachine.

(** ** Finalising *)

Section BlueGreenFinalising.
Context {W : Type} `{Clock W} `{Api W BatchRelease} `{WorkloadClient W} `{TrafficManager W}
  `{K8sLib} `{WorkloadFilter}.
Abbreviation MC := (M (RolloutContext * W)).

(** The operation of task [t] reported that nothing is left to do. *)
Definition blueGreenTaskDone (t : FinalisingStepType) : Prop :=
  exists (c : RolloutContext) tr op (w : W) s',
    blueGreenTask t tr = Some op /\ op (c, w) = (Ok false, s').

(** One call of [doCanaryFinalising] for [reason] took the finalising step from [f]
    to [f'], in whatever context it ran. *)
Definition blueGreenFinalCall (reason : string) (f f' : FinalisingStepType) : Prop :=
  exists c (w : W) cs r c' w' cs',
    FinalizeReason c = reason
    /\ CanaryStatus (NewStatus c) = None
    /\ BlueGreenStatus (NewStatus c) = Some cs /\ FinalisingStep (bg_Common cs) = f
    /\ bg_doCanaryFinalising (c, w) = (r, (c', w'))
    /\ BlueGreenStatus (NewStatus c') = Some cs' /\ FinalisingStep (bg_Common cs') = f'.

Lemma preserves_blueGreenTask t tr op :
  blueGreenTask t tr = Some op -> preserves stepFrame (op : MC bool).
Proof.
  unfold blueGreenTask. destruct t; intros [= <-];
    unfold finalizingBatchRelease, removeBatchRelease; solve_preserves.
Qed.

Lemma bg_setFinalising_run st c0 f c (w : W) :
  onlyBlueGreen c0 -> finalAt c0 f c ->
  exists c', modBlueGreenCommon (fun s => s <| FinalisingStep := st |>) (c, w) = (Ok tt, (c', w))
    /\ finalAt c0 st c'.
Proof.
  intros Hsome (Hf & s & Hs & E).
  destruct (onlyBlueGreen_frame _ _ Hsome Hf) as (cs & Hcs & Hn & Hsub).
  unfold modBlueGreenCommon. rewrite (modBlueGreen_run _ _ _ _ Hcs).
  eexists. split; [done|]. split; [|unfold setBlueGreen, GetSubStatus; simpl; rewrite Hn; by eexists].
  etransitivity; [exact Hf|]. by apply ctxFrame_setBlueGreen.
Qed.

Lemma blueGreenSequence_ok reason :
  NoDup (blueGreenTaskSequence reason) /\ (FinalisingStepTypeEnd ∉ blueGreenTaskSequence reason)
  /\ blueGreenTaskSequence reason <> [] /\ FinalisingStepNone ∉ blueGreenTaskSequence reason.
Proof.
  unfold blueGreenTaskSequence. repeat destruct (String.eqb _ _); split_and!; try done;
    try (apply (bool_decide_unpack _); vm_compute; exact I).
Qed.

(** The task of the current step and the move to the next one. *)
Lemma bg_finalTask_post c0 f0 f1 tr c (w : W) :
  let seq := blueGreenTaskSequence (FinalizeReason c0) in
  onlyBlueGreen c0 -> f0 <> FinalisingStepTypeEnd ->
  f1 = (if decide (f0 = FinalisingStepNone) then hd FinalisingStepTypeEnd seq else f0) ->
  f1 <> FinalisingStepTypeEnd -> finalEdge seq blueGreenTaskDone f0 f1 -> finalAt c0 f1 c ->
  wp (s <- getBlueGreen ;;
      match blueGreenTask (FinalisingStep (bg_Common s)) tr with
      | Some task =>
          retry <- task ;;
          if retry : bool then ret false else
          touchBlueGreen ;;
          modBlueGreenCommon (fun s => s <| FinalisingStep := nextTask seq f0 |>) ;;
          ret (bool_decide (nextTask seq f0 = FinalisingStepTypeEnd))
      | None =>
          modBlueGreenCommon (fun s =>
            s <| FinalisingStep := nextBlueGreenTask (FinalizeReason c0) FinalisingStepNone |>) ;;
          ret false
      end)
     (fun r s => finalPost seq blueGreenTaskDone c0 f0 r (fst s)) (c, w).
Proof.
  intros seq Hsome He Hf1 Hne1 Hedge Hat.
  assert (Hfail : forall e c', finalAt c0 f1 c' ->
    finalPost seq blueGreenTaskDone c0 f0 (Err e) c' /\ finalPost seq blueGreenTaskDone c0 f0 Panic c').
  { intros e c' Hc. split; exists f1; split_and!; done. }
  pose proof Hat as (Hf & s & Hs & Es).
  destruct (onlyBlueGreen_frame _ _ Hsome Hf) as (cs & Hcs & _ & Hsub).
  eapply wp_bind_run; [by apply getBlueGreen_run|].
  rewrite Hsub in Hs. injection Hs as Hs. rewrite Hs, Es.
  destruct (blueGreenTask f1 tr) as [task|] eqn:Htask.
  - eapply wp_final_bind; [by eapply preserves_blueGreenTask|exact Hat|exact Hfail|].
    intros retry c1 w1 Hrun Hat1. destruct retry.
    { apply wp_ret. exists f1. split_and!; done. }
    eapply wp_final_bind; [auto with frames|exact Hat1|exact Hfail|]. intros u c2 w2 _ Hat2.
    destruct (bg_setFinalising_run (nextTask seq f0) c0 f1 c2 w2 Hsome Hat2) as (c3 & Hset & Hat3).
    eapply wp_bind_run; [exact Hset|]. apply wp_ret. exists (nextTask seq f0).
    split; [done|]. split.
    + destruct (decide (f0 = FinalisingStepNone)) as [->|E0]; [by apply final_start|].
      subst f1. apply final_next; [done..|]. by exists c, tr, task, w, (c1, w1).
    + split; intros [= Hb]; [by apply bool_decide_eq_true in Hb|by apply bool_decide_eq_false in Hb].
  - destruct (bg_setFinalising_run (nextBlueGreenTask (FinalizeReason c0) FinalisingStepNone)
      c0 f1 c w Hsome Hat) as (c3 & Hset & Hat3).
    eapply wp_bind_run; [exact Hset|]. apply wp_ret.
    exists (hd FinalisingStepTypeEnd seq). split; [done|]. split; [by apply final_start|].
    split; [done|]. intros _ Hhd. destruct (blueGreenSequence_ok (FinalizeReason c0)) as (_ & Hend & Hnil & _).
    apply Hend. rewrite <- Hhd. by eapply list_elem_of_lookup_2, hd_lookup.
Qed.

Lemma bg_doCanaryFinalising_post c0 cs0 (w : W) :
  CanaryStatus (NewStatus c0) = None -> BlueGreenStatus (NewStatus c0) = Some cs0 ->
  wp bg_doCanaryFinalising (fun r s =>
    finalPost (blueGreenTaskSequence (FinalizeReason c0)) blueGreenTaskDone c0
      (FinalisingStep (bg_Common cs0)) r (fst s)) (c0, w).
Proof.
  intros Hn0 Hcs0. set (f0 := FinalisingStep (bg_Common cs0)).
  set (seq := blueGreenTaskSequence (FinalizeReason c0)).
  assert (Hsome : onlyBlueGreen c0) by (split; [done|by eexists]).
  assert (Hat : finalAt c0 f0 c0).
  { split; [reflexivity|]. exists (bg_Common cs0). by rewrite (bg_sub _ _ Hn0 Hcs0). }
  assert (Hfail : forall e c', finalAt c0 f0 c' ->
    finalPost seq blueGreenTaskDone c0 f0 (Err e) c' /\ finalPost seq blueGreenTaskDone c0 f0 Panic c').
  { intros e c' Hc. split; exists f0; split_and!; try done; apply final_stay. }
  unfold bg_doCanaryFinalising. eapply wp_bind_run; [apply getC_run|]. rewrite Hcs0. cbv zeta.
  fold f0.
  eapply wp_final_bind; [apply preserves_removeAnnotation|exact Hat|exact Hfail|].
  intros u c1 w1 _ Hat1.
  eapply wp_final_bind; [unfold mkTR; solve_preserves|exact Hat1|exact Hfail|].
  intros tr c2 w2 _ Hat2. destruct (decide (f0 = FinalisingStepTypeEnd)) as [He|He].
  { apply wp_ret. exists f0. split_and!; try done. apply final_stay. }
  set (f1 := if decide (f0 = FinalisingStepNone) then hd FinalisingStepTypeEnd seq else f0).
  assert (He1 : finalEdge seq blueGreenTaskDone f0 f1).
  { unfold f1. case_decide; [by apply final_start|apply final_stay]. }
  assert (Hfail1 : forall e c', finalAt c0 f1 c' ->
    finalPost seq blueGreenTaskDone c0 f0 (Err e) c' /\ finalPost seq blueGreenTaskDone c0 f0 Panic c').
  { intros e c' Hc. split; exists f1; split_and!; done. }
  assert (Hne1 : f1 <> FinalisingStepTypeEnd).
  { unfold f1. case_decide; [|done]. intros Hhd.
    destruct (blueGreenSequence_ok (FinalizeReason c0)) as (_ & Hend & Hnil & _). apply Hend.
    rewrite <- Hhd. by eapply list_elem_of_lookup_2, hd_lookup. }
  assert (Hnext : nextBlueGreenTask (FinalizeReason c0) f0 = nextTask seq f0) by done.
  rewrite Hnext. apply wp_bind.
  assert (Hset : wp (if decide (f0 = FinalisingStepNone)
      then modBlueGreenCommon (fun s => s <| FinalisingStep := nextTask seq f0 |>) ;; touchBlueGreen
      else ret tt) (fun _ s => finalAt c0 f1 (fst s)) (c2, w2)).
  { unfold f1. case_decide as E0; [|by apply wp_ret].
    destruct (bg_setFinalising_run (nextTask seq f0) c0 f0 c2 w2 Hsome Hat2) as (c3 & Hrun & Hat3).
    eapply wp_bind_run; [exact Hrun|]. apply (wp_preserves stepFrame); [auto with frames|].
    intros r c4 w4 _ F4. rewrite E0 in Hat3. by eapply finalAt_frame. }
  eapply wp_mono; [exact Hset|]. intros r [c3 w3] Hr.
  destruct r as [[]|e|]; [|by apply Hfail1|by eapply (Hfail1 ErrConflict)].
  by eapply bg_finalTask_post.
Qed.

Lemma blueGreenFinalCall_edge reason f f' :
  blueGreenFinalCall reason f f' -> finalEdge (blueGreenTaskSequence reason) blueGreenTaskDone f f'.
Proof.
  intros (c & w & cs & r & c' & w' & cs' & <- & Hn & Hcs & <- & Hrun & Hcs' & <-).
  pose proof (bg_doCanaryFinalising_post c cs w Hn Hcs) as Hwp. unfold wp in Hwp.
  rewrite Hrun in Hwp. destruct Hwp as (f' & (Hfr & s & Hs & <-) & He & _). simpl in Hs, Hfr.
  destruct (onlyBlueGreen_frame c c' (conj Hn (mk_is_Some _ _ Hcs)) Hfr) as (cs1 & Hcs1 & _ & Hsub).
  rewrite Hsub in Hs. rewrite Hcs' in Hcs1. injection Hcs1 as <-. by injection Hs as <-.
Qed.

(** Blue-green finalising completes.  Take any number of calls of
    [doCanaryFinalising] for one reason, each in whatever context, the first with no
    finalising step recorded and each continuing from the step the previous one
    left.  Then the tasks are done in the order of the sequence of that reason:
    when a task is current, every task before it has reported that nothing is left
    to do, and when the end is reached every task of the sequence has; and a call
    reports completion exactly when it is at the end. *)
Theorem bg_finalising_complete (reason : string) (f : FinalisingStepType)
    (Hcalls : rtc (blueGreenFinalCall reason) FinalisingStepNone f) :
  (f = FinalisingStepTypeEnd -> forall t, t ∈ blueGreenTaskSequence reason -> blueGreenTaskDone t)
  /\ (forall k j t, blueGreenTaskSequence reason !! k = Some f ->
        (j < k)%nat -> blueGreenTaskSequence reason !! j = Some t -> blueGreenTaskDone t)
  /\ forall c (w : W) cs b c' w', FinalizeReason c = reason ->
        CanaryStatus (NewStatus c) = None ->
        BlueGreenStatus (NewStatus c) = Some cs -> FinalisingStep (bg_Common cs) = f ->
        bg_doCanaryFinalising (c, w) = (Ok b, (c', w')) ->
        exists cs', BlueGreenStatus (NewStatus c') = Some cs'
          /\ (b = true <-> FinalisingStep (bg_Common cs') = FinalisingStepTypeEnd).
Proof.
  destruct (blueGreenSequence_ok reason) as (Hnd & Hend & Hne & Hnone).
  destruct (finalEdges_inv (blueGreenTaskSequence reason) blueGreenTaskDone Hnd Hend Hne
              FinalisingStepNone f) as [_ [H1' H2']].
  { clear -Hcalls. induction Hcalls; [done|]. eapply rtc_l; [by apply blueGreenFinalCall_edge|done]. }
  { by apply onSequence_start. }
  split; [exact H1'|]. split; [intros k j t Hk Hj; by eapply H2'|].
  intros c w cs b c' w' _ Hn Hcs _ Hrun.
  pose proof (bg_doCanaryFinalising_post c cs w Hn Hcs) as Hwp. unfold wp in Hwp.
  rewrite Hrun in Hwp. destruct Hwp as (f' & (Hfr & s & Hs & <-) & _ & Ht & Hf).
  destruct (onlyBlueGreen_frame c c' (conj Hn (mk_is_Some _ _ Hcs)) Hfr) as (cs' & Hcs' & _ & Hsub).
  exists cs'. split; [done|]. simpl in Hs. rewrite Hsub in Hs. injection Hs as <-.
  destruct b; split; try done; [intros _; by apply Ht|intros E; by destruct (Hf eq_refl)].
Qed.
End BlueGreenFinalising.
