(* ===== verification/Progressing.v ===== *)
(** * The progressing phase (pkg/controller/rollout/rollout_progressing.go)

    One reconciliation of a rollout in phase Progressing: the reason of its
    Progressing condition selects what to do; in reason InRolling the five special
    cases are tried in order before the release manager runs a step. *)

From S2P Require Export ApiAlpha CanaryManager BlueGreenManager.

Section Progressing.
Context {W : Type} `{Clock W} `{Api W BatchRelease} `{Api W TrafficRouting} `{WorkloadClient W}
  `{WorkloadFinder W} `{TrafficManager W} `{Retry W} `{K8sLib} `{WorkloadFilter} `{PlanHash}.
Abbreviation MC := (M (RolloutContext * W)).

(** ** Conditions *)

Definition progressingStateTransition (condStatus : ConditionStatus) (reason message : string)
    : MC unit :=
  c <- getC ;;
  cond <- match GetRolloutCondition (NewStatus c) RolloutConditionProgressing with
          | None => inWorld (NewRolloutCondition RolloutConditionProgressing condStatus reason message)
          | Some cond =>
              let cond := cond <| cond_Status := condStatus |> <| Reason := reason |> in
              ret (if nonempty message then cond <| cond_Message := message |> else cond)
          end ;;
  modStatus (fun st => (fst (SetRolloutCondition st cond)) <| Message := cond_Message cond |>).

Definition setRolloutSucceededCondition (condStatus : ConditionStatus) : MC unit :=
  c <- getC ;;
  cond <- match GetRolloutCondition (NewStatus c) RolloutConditionSucceeded with
          | None => inWorld (NewRolloutCondition RolloutConditionSucceeded condStatus "" "")
          | Some cond => ret (cond <| cond_Status := condStatus |>)
          end ;;
  modStatus (fun st => fst (SetRolloutCondition st cond)).

(** ** The cases of a rolling release *)

Definition isRolloutPaused (rollout : Rollout) : bool := Paused (ro_Strategy rollout).

Definition isRolloutPlanChanged (rollout : Rollout) : res bool :=
  res_map (fun sub => nonempty (RolloutHash sub)
             && negb (String.eqb (RolloutHash sub) (annotation (ro_Meta rollout) RolloutHashAnnotation)))
    (deref (GetSubStatus (ro_Status rollout))).

Definition revisionChanged (rollout : Rollout) (workload : Workload) : bool :=
  negb (String.eqb (wl_CanaryRevision workload) (GetCanaryRevision (ro_Status rollout))).

Definition isContinuousRelease (rollout : Rollout) (workload : Workload) : bool :=
  nonempty (GetCanaryRevision (ro_Status rollout)) && revisionChanged rollout workload
  && negb (IsInRollback workload).

Definition isRollingBackDirectly (rollout : Rollout) (workload : Workload) : res bool :=
  res_map (fun inBatch => IsInRollback workload && revisionChanged rollout workload && negb inBatch)
    (IsRollbackInBatchPolicy rollout (Labels (wl_Meta workload))).

Definition isRollingBackInBatches (rollout : Rollout) (workload : Workload) : res bool :=
  res_map (fun inBatch => IsInRollback workload && revisionChanged rollout workload && inBatch)
    (IsRollbackInBatchPolicy rollout (Labels (wl_Meta workload))).

Definition getReleaseManager (rollout : Rollout) : res (ReleaseManager W) :=
  res_bind (IsCanaryStragegy (ro_Strategy rollout)) (fun canary =>
    if canary : bool then Ok canaryReleaseManager else
    res_bind (IsBlueGreenRelease (ro_Strategy rollout)) (fun blueGreen =>
      if blueGreen : bool then Ok blueGreenReleaseManager
      else Err (ErrOther "unknown rolling style"))).

Definition handleRollbackDirectly (workload : Workload) : MC unit :=
  modStatus (SetCanaryRevision (wl_CanaryRevision workload)) ;;
  progressingStateTransition ConditionTrue ProgressingReasonCancelling
    "The workload has been rolled back and the rollout process will be canceled".

Definition handleRolloutPaused : MC unit :=
  progressingStateTransition ConditionTrue ProgressingReasonPaused
    "Rollout has been paused, you can resume it by kube-cli".

Definition handleRollbackInBatches (workload : Workload) : MC unit :=
  c <- getC ;;
  modSub (fun s => s <| CurrentStepIndex := 1 |>) ;;
  next <- lift (NextBatchIndex (ctx_Rollout c) 1) ;;
  modSub (fun s => s <| NextStepIndex := next |>) ;;
  modStatus (SetCanaryRevision (wl_CanaryRevision workload)) ;;
  modSub (fun s => s <| CurrentStepState := CanaryStepStateInit |>) ;;
  t <- now ;;
  modSub (fun s => s <| cs_LastUpdateTime := Some t |>
    <| RolloutHash := annotation (ro_Meta (ctx_Rollout c)) RolloutHashAnnotation |>).

(** ** Resetting a release *)

Definition resetCanaryService (tr : TrafficRoutingContext) : MC bool :=
  r <- withTR tr tm_RemoveCanaryService ;;
  match snd r with
  | inr err =>
      modSub (fun s => s <| cs_LastUpdateTime := tr_LastUpdateTime (fst r) |>) ;;
      fail err
  | inl _ => ret true
  end.

Definition resetWorkloadControl (tr : TrafficRoutingContext) : MC bool :=
  retry <- removeBatchRelease ;;
  if retry : bool then ret false else
  t <- now ;;
  modSub (fun s => s <| cs_LastUpdateTime := Some t |>
                     <| FinalisingStep := FinalisingStepRemoveCanaryService |>) ;;
  resetCanaryService tr.

Definition resetGateway (tr : TrafficRoutingContext) : MC bool :=
  r <- withTR tr tm_RestoreGateway ;;
  match snd r with
  | inr err =>
      modSub (fun s => s <| cs_LastUpdateTime := tr_LastUpdateTime (fst r) |>) ;; fail err
  | inl true =>
      modSub (fun s => s <| cs_LastUpdateTime := tr_LastUpdateTime (fst r) |>) ;; ret false
  | inl false =>
      t <- now ;;
      modSub (fun s => s <| cs_LastUpdateTime := Some t |>
                         <| FinalisingStep := FinalisingStepReleaseWorkloadControl |>) ;;
      resetWorkloadControl (fst r)
  end.

Definition doProgressingReset : MC bool :=
  c <- getC ;;
  lift (getReleaseManager (ctx_Rollout c)) ;;
  has <- lift (HasTrafficRoutings (ctx_Strategy c)) ;;
  if negb has then
    retry <- removeBatchRelease ;; ret (negb retry)
  else
    match GetSubStatus (NewStatus c) with
    | None => ret true
    | Some subStatus =>
        tr <- mkTR ;;
        match FinalisingStep subStatus with
        | FinalisingStepRouteTrafficToStable => resetGateway tr
        | FinalisingStepReleaseWorkloadControl => resetWorkloadControl tr
        | FinalisingStepRemoveCanaryService => resetCanaryService tr
        | _ =>
            modSub (fun s => s <| FinalisingStep := FinalisingStepRouteTrafficToStable |>) ;;
            resetGateway tr
        end
    end.

Definition handleContinuousRelease : MC unit :=
  c <- getC ;;
  blueGreen <- lift (IsBlueGreenRelease (ctx_Strategy c)) ;;
  if blueGreen : bool then
    let msg := "new version releasing detected in the progress of blue-green release, please rollback first"%string in
    setProgressMessage msg ;;
    fail (ErrBadRequest msg)
  else
    done <- doProgressingReset ;;
    if done : bool then
      modStatus Clear ;;
      progressingStateTransition ConditionTrue ProgressingReasonInitializing
        "Workload is continuous release"
    else recheckLater.

(** ** Plan changes *)

(** The order in which steps are tried: the current one first, if it exists. *)
Definition stepOrder (currentIndex : Z) (n : nat) : list nat :=
  ((if decide (0 <= currentIndex < Z.of_nat n) then [Z.to_nat currentIndex] else [])
   ++ filter (fun i => Z.of_nat i <> currentIndex) (seq 0 n))%list.

(** The loop over that order: the first step whose replicas suffice, else the last tried. *)
Fixpoint searchStep (steps : list CanaryStep) (replicas currentReplicas : Z)
    (order : list nat) (stepIndex : Z) : res Z :=
  match order with
  | [] => Ok stepIndex
  | i :: rest =>
      res_bind (deref (steps !! i)) (fun step =>
        let stepIndex := wrap32 (Z.of_nat i + 1) in
        if decide (currentReplicas <= scaled (Replicas step) replicas) then Ok stepIndex
        else searchStep steps replicas currentReplicas rest stepIndex)
  end.

Definition recalculateCanaryStep : MC Z :=
  c <- getC ;;
  lift (getReleaseManager (ctx_Rollout c)) ;;
  r <- catch (inWorld (fetchBatchRelease (ctx_Key c))) ;;
  match r with
  | inr err => if IsNotFound err then ret 1 else fail err
  | inl batch =>
      partition <- lift (deref (BatchPartition (br_Plan batch))) ;;
      current <- lift (go_index (Batches (br_Plan batch)) partition) ;;
      workload <- getWorkload ;;
      let currentReplicas := scaled (Some (batch_CanaryReplicas current)) (wl_Replicas workload) in
      sub <- getSub ;;
      steps <- lift (GetSteps (ctx_Strategy c)) ;;
      let currentIndex := wrap32 (CurrentStepIndex sub - 1) in
      lift (searchStep steps (wl_Replicas workload) currentReplicas
              (stepOrder currentIndex (length steps)) 0)
  end.

Definition handleRolloutPlanChanged : MC unit :=
  newStepIndex <- recalculateCanaryStep ;;
  c <- getC ;;
  let hash := annotation (ro_Meta (ctx_Rollout c)) RolloutHashAnnotation in
  sub <- getSub ;;
  if decide (NextStepIndex sub = newStepIndex) then
    modSub (fun s => s <| CurrentStepState := CanaryStepStateReady |>) ;;
    t <- now ;;
    modSub (fun s => s <| cs_LastUpdateTime := Some t |> <| RolloutHash := hash |>)
  else
    modSub (fun s => s <| NextStepIndex := newStepIndex |>) ;;
    t <- now ;;
    modSub (fun s => s <| cs_LastUpdateTime := Some t |> <| RolloutHash := hash |>) ;;
    releaseManager <- lift (getReleaseManager (ctx_Rollout c)) ;;
    doCanaryJump releaseManager ;;
    ret tt.

Definition handleNormalRolling : MC unit :=
  sub <- getSub ;;
  if decide (CurrentStepState sub = CanaryStepStateCompleted) then
    progressingStateTransition ConditionTrue ProgressingReasonFinalising
      "Rollout has been completed and some closing work is being done"
  else
    c <- getC ;;
    rollout <- lift (CheckNextBatchIndexWithCorrect (ctx_Rollout c)) ;;
    modC (fun c => c <| ctx_Rollout := rollout |>) ;;
    releaseManager <- lift (getReleaseManager rollout) ;;
    runCanary releaseManager.

Definition doProgressingInRolling : MC unit :=
  c <- getC ;;
  workload <- getWorkload ;;
  let rollout := ctx_Rollout c in
  b1 <- lift (isRollingBackDirectly rollout workload) ;;
  if b1 : bool then handleRollbackDirectly workload else
  if isRolloutPaused rollout then handleRolloutPaused else
  b3 <- lift (isRollingBackInBatches rollout workload) ;;
  if b3 : bool then handleRollbackInBatches workload else
  if isContinuousRelease rollout workload then handleContinuousRelease else
  b5 <- lift (isRolloutPlanChanged rollout) ;;
  if b5 : bool then handleRolloutPlanChanged else handleNormalRolling.

(** ** The TrafficRouting of a rollout *)

Definition handleTrafficRouting (ns name tr : string) : M W bool :=
  r <- catch (api_Get (O := TrafficRouting) (ns, tr)) ;;
  match r with
  | inr err => if IsNotFound err then ret false else fail err
  | inl obj =>
      if ContainsFinalizer (tro_Meta obj) (ProgressingRolloutFinalizer name) then ret true else
      if bool_decide (trs_Phase (tro_Status obj) = TrafficRoutingPhaseFinalizing)
         || bool_decide (trs_Phase (tro_Status obj) = TrafficRoutingPhaseTerminating)
      then ret false else
      UpdateFinalizer obj AddFinalizerOpType (ProgressingRolloutFinalizer name) ;;
      ret false
  end.

Definition finalizeTrafficRouting (ns name tr : string) : M W unit :=
  r <- catch (api_Get (O := TrafficRouting) (ns, tr)) ;;
  match r with
  | inr err => if IsNotFound err then ret tt else fail err
  | inl obj =>
      let finalizer := ProgressingRolloutFinalizer name in
      if ContainsFinalizer (tro_Meta obj) finalizer
      then UpdateFinalizer obj RemoveFinalizerOpType finalizer else ret tt
  end.

Definition doProgressingInitializing : MC bool :=
  c <- getC ;;
  has <- lift (HasTrafficRoutings (ctx_Strategy c)) ;;
  (if has : bool then
     tr <- mkTR ;;
     r <- withTR tr tm_InitializeTrafficRouting ;;
     match snd r with inr err => fail err | inl _ => ret tt end
   else ret tt) ;;
  cond <- lift (deref (GetRolloutCondition (NewStatus c) RolloutConditionProgressing)) ;;
  t <- now ;;
  if decide (LastUpdateTime cond + Second * rolloutGracePeriodSeconds > t) then ret false else
  let meta := ro_Meta (ctx_Rollout c) in
  let tr := annotation meta TrafficRoutingAnnotation in
  if nonempty tr then inWorld (handleTrafficRouting (Namespace meta) (Name meta) tr)
  else ret true.

Definition doFinalising : MC bool :=
  c <- getC ;;
  let meta := ro_Meta (ctx_Rollout c) in
  let tr := annotation meta TrafficRoutingAnnotation in
  (if nonempty tr then inWorld (finalizeTrafficRouting (Namespace meta) (Name meta) tr)
   else ret tt) ;;
  releaseManager <- lift (getReleaseManager (ctx_Rollout c)) ;;
  doCanaryFinalising releaseManager.

(** ** The reconciliation *)

(** The status of a release that begins at its first step. *)
Definition initialSubStatus (rollout : Rollout) (workload : Workload) (next t : Z) : CommonStatus :=
  {| ObservedWorkloadGeneration := Generation (wl_Meta workload);
     ObservedRolloutID := getRolloutID (Some workload);
     RolloutHash := annotation (ro_Meta rollout) RolloutHashAnnotation;
     StableRevision := wl_StableRevision workload;
     PodTemplateHash := "";
     CurrentStepIndex := 1;
     NextStepIndex := next;
     FinalisingStep := FinalisingStepNone;
     CurrentStepState := CanaryStepStateInit;
     cs_Message := "";
     cs_LastUpdateTime := Some t |}.

(** The sub status of the rollout's style. *)
Definition setSubStatus (blueGreen : bool) (common : CommonStatus) (revision : string)
    (st : RolloutStatus) : RolloutStatus :=
  if blueGreen
  then st <| BlueGreenStatus := Some (mkBlueGreenStatus common revision 0 0) |>
  else st <| CanaryStatus := Some (mkCanaryStatus common revision 0 0) |>.

Definition progressingInitializing (workload : Workload) : MC unit :=
  c <- getC ;;
  let rollout := ctx_Rollout c in
  modStatus Clear ;;
  next <- lift (NextBatchIndex rollout 1) ;;
  t <- now ;;
  let commonStatus := initialSubStatus rollout workload next t in
  modStatus (fun st => st <| st_CurrentStepIndex := CurrentStepIndex commonStatus |>
                          <| st_CurrentStepState := CurrentStepState commonStatus |>) ;;
  blueGreen <- lift (IsBlueGreenRelease (ro_Strategy rollout)) ;;
  modStatus (setSubStatus blueGreen commonStatus (wl_CanaryRevision workload)) ;;
  done <- doProgressingInitializing ;;
  if done : bool then
    progressingStateTransition ConditionTrue ProgressingReasonInRolling "Rollout is in Progressing"
  else recheckLater.

(** The reasons Finalising and Cancelling: finalise, then complete. *)
Definition progressingFinalising (waitReady : bool) (reason : string)
    (succeeded : ConditionStatus) (message : string) : MC unit :=
  modC (fun c => c <| WaitReady := waitReady |> <| FinalizeReason := reason |>) ;;
  done <- doFinalising ;;
  if done : bool then
    progressingStateTransition ConditionFalse ProgressingReasonCompleted message ;;
    setRolloutSucceededCondition succeeded
  else recheckLater.

(** The switch on the reason; the result is the time to come back, and a bad
    request is swallowed together with that time. *)
Definition progressingSwitch (reason : string) (workload : Workload) : MC (option Z) :=
  c <- getC ;;
  let done := (c <- getC ;; ret (RecheckTime c)) in
  if String.eqb reason ProgressingReasonInitializing then
    progressingInitializing workload ;; done
  else if String.eqb reason ProgressingReasonInRolling then
    r <- catch doProgressingInRolling ;;
    match r with
    | inr (ErrBadRequest _) => ret None
    | inr err => fail err
    | inl _ => done
    end
  else if String.eqb reason ProgressingReasonFinalising then
    progressingFinalising true FinaliseReasonSuccess ConditionTrue
      "Rollout progressing has been completed" ;; done
  else if String.eqb reason ProgressingReasonPaused then
    (if isRolloutPaused (ctx_Rollout c) then ret tt
     else progressingStateTransition ConditionTrue ProgressingReasonInRolling "") ;; done
  else if String.eqb reason ProgressingReasonCancelling then
    progressingFinalising false FinaliseReasonRollback ConditionFalse
      "Rollout progressing has been canceled" ;; done
  else if String.eqb reason ProgressingReasonCompleted then
    modStatus (fun st => st <| Phase := RolloutPhaseHealthy |>) ;; done
  else done.

(** [None] for the recheck time also covers the early returns.  The rollout and the
    new status are the objects behind the two pointer arguments. *)
Definition reconcileRolloutProgressing (rollout : Rollout) (newStatus : RolloutStatus)
    : M W (option Z * Rollout * RolloutStatus) :=
  workload <- GetWorkloadForRef rollout ;;
  match workload with
  | None => ret (None, rollout, newStatus)
  | Some workload =>
      if negb (IsStatusConsistent workload) then ret (None, rollout, newStatus) else
      cond <- lift (deref (GetRolloutCondition (ro_Status rollout) RolloutConditionProgressing)) ;;
      fun w =>
        let c := mkContext rollout newStatus (Some workload) None false "" in
        match progressingSwitch (Reason cond) workload (c, w) with
        | (Ok recheck, (c', w')) => (Ok (recheck, ctx_Rollout c', NewStatus c'), w')
        | (Err e, (_, w')) => (Err e, w')
        | (Panic, (_, w')) => (Panic, w')
        end
  end.
End Progressing.
