(* ===== verification/RolloutController.v ===== *)
(** * The rollout controller (pkg/controller/rollout)

    rollout_status.go: the new status of a rollout, its hash, its finalizer and the
    terminating and disabling phases; rollout_controller.go: [Reconcile], which ties
    them to the progressing phase. *)

From S2P Require Export Progressing.

(** [rand.SafeEncodeString(util.EncodeHash(util.DumpJSON(x)))] of the two strategies. *)
Class StrategyHash := {
  hashCanary : CanaryStrategy -> string;
  hashBlueGreen : BlueGreenStrategy -> string
}.

(** The watches of the controller: the kinds already watched, and
    [AddWatcherDynamically], which answers whether the kind exists. *)
Class Watcher (W : Type) := {
  isWatched : GroupVersionKind -> W -> bool;
  addWatched : GroupVersionKind -> W -> W;
  AddWatcherDynamically : GroupVersionKind -> M W bool
}.

Section RolloutController.
Context {W : Type} `{Clock W} `{Api W Rollout} `{Api W BatchRelease} `{Api W TrafficRouting}
  `{WorkloadClient W} `{WorkloadFinder W} `{TrafficManager W} `{Retry W} `{Watcher W}
  `{K8sLib} `{WorkloadFilter} `{PlanHash} `{StrategyHash}.

(** ** The rollout hash *)

(** The steps without their pauses. *)
Definition hashedSteps (steps : list CanaryStep) : list CanaryStep :=
  map (fun step => step <| Pause := {| Duration := None |} |>) steps.

Definition rolloutHash (strategy : RolloutStrategy) : res string :=
  res_bind (IsCanaryStragegy strategy) (fun isCanary =>
    if isCanary : bool then
      res_map (fun canary => hashCanary (canary <| cn_FailureThreshold := None |>
                                          <| cn_Steps := hashedSteps (cn_Steps canary) |>))
        (deref (Canary strategy))
    else
      res_bind (IsBlueGreenRelease strategy) (fun isBlueGreen =>
        if isBlueGreen : bool then
          res_map (fun blueGreen => hashBlueGreen (blueGreen <| bg_FailureThreshold := None |>
                                      <| bg_Steps := hashedSteps (bg_Steps blueGreen) |>))
            (deref (BlueGreen strategy))
        else Err (ErrOther "unknown rolling style"))).

Definition setAnnotation (k v : string) (m : ObjectMeta) : ObjectMeta :=
  m <| Annotations := Some (<[k := v]> (default ∅ (Annotations m))) |>.

(** The rollout with its hash annotation up to date. *)
Definition calculateRolloutHash (rollout : Rollout) : M W Rollout :=
  hash <- lift (rolloutHash (ro_Strategy rollout)) ;;
  if String.eqb (annotation (ro_Meta rollout) RolloutHashAnnotation) hash then ret rollout else
  api_Patch (O := Rollout) (ro_Meta rollout) (PatchAnnotation RolloutHashAnnotation (Some hash)) ;;
  ret (rollout <| ro_Meta := setAnnotation RolloutHashAnnotation hash (ro_Meta rollout) |>).

(** ** The new status *)

(** Phase and message of a rollout that was just disabled. *)
Definition disablePhase (disabled : bool) (st : RolloutStatus) : RolloutStatus :=
  if disabled && bool_decide (Phase st <> RolloutPhaseDisabled)
     && bool_decide (Phase st <> RolloutPhaseDisabling)
  then
    if decide (Phase st = RolloutPhaseProgressing)
    then st <| Phase := RolloutPhaseDisabling |>
            <| Message := "Disabling rollout, release resources"%string |>
    else st <| Phase := RolloutPhaseDisabled |> <| Message := "Rollout is disabled"%string |>
  else st.

(** The status of a rollout that is healthy but never ran. *)
Definition completedSubStatus (rollout : Rollout) (workload : Workload) (n next : Z)
    : CommonStatus :=
  {| ObservedWorkloadGeneration := Generation (wl_Meta workload);
     ObservedRolloutID := getRolloutID (Some workload);
     RolloutHash := annotation (ro_Meta rollout) RolloutHashAnnotation;
     StableRevision := wl_StableRevision workload;
     PodTemplateHash := wl_PodTemplateHash workload;
     CurrentStepIndex := n;
     NextStepIndex := next;
     FinalisingStep := FinalisingStepNone;
     CurrentStepState := CanaryStepStateCompleted;
     cs_Message := "";
     cs_LastUpdateTime := None |}.

(** The switch on the phase. *)
Definition phaseStatus (rollout : Rollout) (workload : Workload) (newStatus : RolloutStatus)
    : M W RolloutStatus :=
  match Phase newStatus with
  | RolloutPhaseInitial =>
      ret (newStatus <| Phase := RolloutPhaseHealthy |> <| Message := "rollout is healthy"%string |>)
  | RolloutPhaseHealthy =>
      if InRolloutProgressing workload then
        cond <- NewRolloutCondition RolloutConditionProgressing ConditionTrue
                  ProgressingReasonInitializing "Rollout is in Progressing" ;;
        ret (RemoveRolloutCondition
               (fst (SetRolloutCondition (newStatus <| Phase := RolloutPhaseProgressing |>) cond))
               RolloutConditionSucceeded)
      else if IsSubStatusEmpty newStatus then
        steps <- lift (GetSteps (ro_Strategy rollout)) ;;
        let n := wrap32 (len steps) in
        next <- lift (NextBatchIndex rollout n) ;;
        blueGreen <- lift (IsBlueGreenRelease (ro_Strategy rollout)) ;;
        ret ((setSubStatus blueGreen (completedSubStatus rollout workload n next)
                (wl_CanaryRevision workload) newStatus)
               <| Message := "workload deployment is completed"%string |>)
      else ret newStatus
  | RolloutPhaseDisabled =>
      if Disabled (ro_Spec rollout) then ret newStatus
      else ret (newStatus <| Phase := RolloutPhaseHealthy |> <| Message := "rollout is healthy"%string |>)
  | _ => ret newStatus
  end.

(** Observe the workload of the release under way. *)
Definition observeWorkload (workload : Workload) (st : RolloutStatus) : RolloutStatus :=
  if negb (IsSubStatusEmpty st) && nonempty (GetCanaryRevision st)
     && String.eqb (GetCanaryRevision st) (wl_CanaryRevision workload)
  then modSubStatus (fun s => s <| ObservedRolloutID := getRolloutID (Some workload) |>
         <| ObservedWorkloadGeneration := Generation (wl_Meta workload) |>) st
  else st.

Definition emptyStatus : RolloutStatus :=
  mkStatus 0 None None [] RolloutPhaseNone "" 0 (CanaryStepStateOther "").

(** The rollout with its hash, and the new status: [None] asks for a retry. *)
Definition calculateRolloutStatus (rollout0 : Rollout) : M W (Rollout * option RolloutStatus) :=
  rollout <- calculateRolloutHash rollout0 ;;
  let newStatus := (ro_Status rollout)
                     <| ObservedGeneration := Generation (ro_Meta rollout) |> in
  if deleting (ro_Meta rollout) then
    if decide (Phase newStatus = RolloutPhaseTerminating) then ret (rollout, Some newStatus) else
    cond <- NewRolloutCondition RolloutConditionTerminating ConditionTrue
              TerminatingReasonInTerminating "Rollout is in terminating" ;;
    ret (rollout, Some (fst (SetRolloutCondition
                               (newStatus <| Phase := RolloutPhaseTerminating |>) cond)))
  else
    let disabled := Disabled (ro_Spec rollout) in
    let newStatus := disablePhase disabled newStatus in
    let newStatus := if decide (Phase newStatus = RolloutPhaseNone)
                     then newStatus <| Phase := RolloutPhaseInitial |> else newStatus in
    workload <- GetWorkloadForRef rollout ;;
    match workload with
    | None =>
        ret (rollout, Some (if disabled : bool then newStatus else
          emptyStatus <| ObservedGeneration := Generation (ro_Meta rollout) |>
                      <| Phase := RolloutPhaseInitial |>
                      <| Message := "Workload Not Found"%string |>))
    | Some workload =>
        if negb (IsStatusConsistent workload) then ret (rollout, None) else
        st <- phaseStatus rollout workload (observeWorkload workload newStatus) ;;
        ret (rollout, Some st)
    end.

(** [newStatus.CurrentStepIndex] and its state mirror the sub status. *)
Definition mirrorSubStatus (st : RolloutStatus) : RolloutStatus :=
  match GetSubStatus st with
  | Some sub => st <| st_CurrentStepIndex := CurrentStepIndex sub |>
                   <| st_CurrentStepState := CurrentStepState sub |>
  | None => st
  end.

Definition updateRolloutStatusInternal (rollout : Rollout) (newStatus0 : RolloutStatus) : M W unit :=
  let newStatus := mirrorSubStatus newStatus0 in
  if decide (ro_Status rollout = newStatus) then ret tt else
  RetryOnConflict (
    rolloutClone <- api_Get (O := Rollout) (keyOf (ro_Meta rollout)) ;;
    api_UpdateStatus (rolloutClone <| ro_Status := newStatus |>)).

(** ** Terminating and disabling *)

(** Run [doFinalising] for a reason on a fresh context. *)
Definition finaliseFor (reason : string) (rollout : Rollout) (newStatus : RolloutStatus)
    (workload : option Workload) : M W (bool * RolloutContext) :=
  fun w =>
    let c := mkContext rollout newStatus workload None false reason in
    match (done <- doFinalising ;;
           (if done : bool then ret tt else recheckLater) ;; ret done) (c, w) with
    | (Ok done, (c', w')) => (Ok (done, c'), w')
    | (Err e, (_, w')) => (Err e, w')
    | (Panic, (_, w')) => (Panic, w')
    end.

Definition reconcileRolloutTerminating (rollout : Rollout) (newStatus : RolloutStatus)
    : M W (option Z * RolloutStatus) :=
  cond <- lift (deref (GetRolloutCondition (ro_Status rollout) RolloutConditionTerminating)) ;;
  if String.eqb (Reason cond) TerminatingReasonCompleted then ret (None, newStatus) else
  workload <- GetWorkloadForRef rollout ;;
  r <- finaliseFor FinaliseReasonDelete rollout newStatus workload ;;
  let '(done, c) := r in
  ret (RecheckTime c,
       if done : bool then
         fst (SetRolloutCondition (NewStatus c)
                (cond <| Reason := TerminatingReasonCompleted |> <| cond_Status := ConditionFalse |>))
       else NewStatus c).

Definition reconcileRolloutDisabling (rollout : Rollout) (newStatus : RolloutStatus)
    : M W (option Z * RolloutStatus) :=
  workload <- GetWorkloadForRef rollout ;;
  r <- finaliseFor FinaliseReasonDisalbed rollout newStatus workload ;;
  let '(done, c) := r in
  ret (RecheckTime c,
       if done : bool then
         (NewStatus c) <| Phase := RolloutPhaseDisabled |>
                       <| Message := "Rollout is disabled"%string |>
       else NewStatus c).

(** ** The webhook label and the finalizer *)

(** The value of the label: "" for a kind without one. *)
Definition workloadTypeOf (kind : string) : string :=
  if String.eqb kind (GVKKind ControllerKruiseKindCS) then "cloneset"
  else if String.eqb kind (GVKKind ControllerKindDep) then "deployment"
  else if String.eqb kind (GVKKind ControllerKindSts) then "statefulset"
  else if String.eqb kind (GVKKind ControllerKruiseKindSts)
          || String.eqb kind (GVKKind ControllerKruiseOldKindSts) then "statefulset"
  else if String.eqb kind (GVKKind ControllerKruiseKindDS) then "daemonset"
  else if String.eqb kind (GVKKind ControllerKindDS) then "daemonset"
  else "".

Definition patchWorkloadRolloutWebhookLabel (rollout : Rollout) : M W unit :=
  workload <- GetWorkloadForRef rollout ;;
  match workload with
  | None => ret tt
  | Some workload =>
      let workloadType := workloadTypeOf (wl_Kind workload) in
      if String.eqb (wl_label workload WorkloadTypeLabel) "" && nonempty workloadType then
        obj <- lift (deref (GetEmptyWorkloadObject
                 (FromAPIVersionAndKind (wl_APIVersion workload) (wl_Kind workload)))) ;;
        patchWorkload obj (keyOf (wl_Meta workload)) (PatchLabel WorkloadTypeLabel workloadType)
      else ret tt
  end.

Definition handleFinalizer (rollout : Rollout) : M W unit :=
  if deleting (ro_Meta rollout) then
    match GetRolloutCondition (ro_Status rollout) RolloutConditionTerminating with
    | Some cond =>
        if String.eqb (Reason cond) TerminatingReasonCompleted
           && ContainsFinalizer (ro_Meta rollout) KruiseRolloutFinalizer
        then UpdateFinalizer rollout RemoveFinalizerOpType KruiseRolloutFinalizer
        else ret tt
    | None => ret tt
    end
  else if ContainsFinalizer (ro_Meta rollout) KruiseRolloutFinalizer then ret tt
  else UpdateFinalizer rollout AddFinalizerOpType KruiseRolloutFinalizer.

(** ** Reconcile *)

(** Make sure that the kind is watched; true: just added, wait for the cache. *)
Definition ensureWatched (gvk : GroupVersionKind) : M W bool :=
  w <- get ;;
  if isWatched gvk w then ret false else
  succeeded <- AddWatcherDynamically gvk ;;
  if succeeded : bool then modify (addWatched gvk) ;; ret true else ret false.

(** The phase handler: recheck time, rollout and new status after it. *)
Definition reconcilePhase (rollout : Rollout) (newStatus : RolloutStatus)
    : M W (option Z * Rollout * RolloutStatus) :=
  match Phase (ro_Status rollout) with
  | RolloutPhaseProgressing => reconcileRolloutProgressing rollout newStatus
  | RolloutPhaseTerminating =>
      r <- reconcileRolloutTerminating rollout newStatus ;; ret (fst r, rollout, snd r)
  | RolloutPhaseDisabling =>
      r <- reconcileRolloutDisabling rollout newStatus ;; ret (fst r, rollout, snd r)
  | _ => ret (None, rollout, newStatus)
  end.

(** [time.Until(t)]: the delay of [RequeueAfter]. *)
Definition requeueAt (recheckTime : option Z) : M W (option Z) :=
  match recheckTime with
  | None => ret None
  | Some t => n <- time_Now ;; ret (Some (t - n))
  end.

(** The result is [RequeueAfter], if set. *)
Definition Reconcile (request : ObjectKey) : M W (option Z) :=
  r <- catch (api_Get (O := Rollout) request) ;;
  match r with
  | inr err => if IsNotFound err then ret None else fail err
  | inl rollout0 =>
      let ref := WorkloadRef (ro_Spec rollout0) in
      added <- ensureWatched (FromAPIVersionAndKind (APIVersion ref) (Kind ref)) ;;
      if added : bool then ret None else
      handleFinalizer rollout0 ;;
      patchWorkloadRolloutWebhookLabel rollout0 ;;
      calc <- calculateRolloutStatus rollout0 ;;
      let '(rollout, status) := calc in
      match status with
      | None => t <- time_Now ;; requeueAt (Some (t + rolloutGracePeriodSeconds * Second))
      | Some newStatus =>
          res <- reconcilePhase rollout newStatus ;;
          let '(recheckTime, rollout', newStatus') := res in
          updateRolloutStatusInternal rollout' newStatus' ;;
          requeueAt recheckTime
      end
  end.
End RolloutController.
