(* ===== verification/ProgressingProofs.v ===== *)
(** * The progressing phase: frames and properties

    What the operations of Progressing.v leave alone, the machine of the reasons of
    the Progressing condition, the order of a reset and the choice of the step
    after a plan change. *)

From S2P Require Export Progressing.

(** ** Frames of the managers' operations *)

Lemma preserves_weaken {C W A} (R R' : C -> C -> Prop) (m : M (C * W) A) :
  (forall c c', R c c' -> R' c c') -> preserves R m -> preserves R' m.
Proof. intros HR Hm c w r c' w' E. eauto. Qed.

Lemma ctx_of_step {W A} (m : M (RolloutContext * W) A) :
  preserves stepFrame m -> preserves ctxFrame m.
Proof. apply preserves_weaken. by intros c c' [H _]. Qed.

#[export] Hint Extern 3 (preserves ctxFrame _) =>
  simple apply ctx_of_step; solve [eauto 3 with frames] : frames.

Section frames.
Context {W : Type} `{Clock W} `{Api W BatchRelease} `{Api W TrafficRouting} `{WorkloadClient W}
  `{WorkloadFinder W} `{TrafficManager W} `{Retry W} `{K8sLib} `{WorkloadFilter} `{PlanHash}.
Abbreviation MC := (M (RolloutContext * W)).

Lemma ctxFrame_modSubAny f : preserves ctxFrame (modSub f : MC unit).
Proof. apply preserves_modSub; [typeclasses eauto|]. intros. apply ctxFrame_modSub. Qed.

Lemma ctxFrame_modCanary f : preserves ctxFrame (modCanary f : MC unit).
Proof.
  intros c w r c' w'. destruct (CanaryStatus (NewStatus c)) as [s|] eqn:Hs.
  - rewrite (modCanary_run _ _ _ _ Hs). intros [= <- <- <-]. by apply ctxFrame_setCanary.
  - unfold modCanary, getCanary, bind, getC, lift. simpl. rewrite Hs. simpl.
    intros [= <- <- <-]. reflexivity.
Qed.

Lemma ctxFrame_modBlueGreen f : preserves ctxFrame (modBlueGreen f : MC unit).
Proof.
  intros c w r c' w'. destruct (BlueGreenStatus (NewStatus c)) as [s|] eqn:Hs.
  - rewrite (modBlueGreen_run _ _ _ _ Hs). intros [= <- <- <-]. by apply ctxFrame_setBlueGreen.
  - unfold modBlueGreen, getBlueGreen, bind, getC, lift. simpl. rewrite Hs. simpl.
    intros [= <- <- <-]. reflexivity.
Qed.

Lemma ctxFrame_stepJump rollout steps replicas :
  preserves ctxFrame (doStepJump rollout steps replicas : MC bool).
Proof.
  unfold doStepJump, now. pose proof ctxFrame_modSubAny. solve_preserves.
Qed.

Lemma ctxFrame_finalTask (taskOf : FinalisingStepType -> TrafficRoutingContext -> option (MC bool)) :
  (forall t tr op, taskOf t tr = Some op -> preserves stepFrame op) ->
  forall t tr op, taskOf t tr = Some op -> preserves ctxFrame op.
Proof. intros HT t tr op E. apply ctx_of_step. by eapply HT. Qed.

Lemma ctxFrame_canary_runCanary : preserves ctxFrame (canary_runCanary : MC unit).
Proof.
  unfold canary_runCanary, canary_doCanaryJump, canary_runInit, canary_runUpgrade,
    canary_runTrafficRouting, canary_runReady, canary_doCanaryMetricsAnalysis, setCanaryState,
    modCanaryCommon, mkTR, canarySteps, getCanary, getWorkload.
  pose proof ctxFrame_modCanary. pose proof ctxFrame_stepJump. cbv zeta. solve_preserves.
Qed.

Lemma ctxFrame_bg_runCanary : preserves ctxFrame (bg_runCanary : MC unit).
Proof.
  unfold bg_runCanary, bg_doCanaryJump, bg_runInit, bg_runUpgrade, bg_runTrafficRouting,
    bg_runReady, bg_doCanaryMetricsAnalysis, setBlueGreenState, modBlueGreenCommon, mkTR,
    blueGreenSteps, getBlueGreen, getWorkload.
  pose proof ctxFrame_modBlueGreen. pose proof ctxFrame_stepJump. cbv zeta. solve_preserves.
Qed.

Lemma ctxFrame_canary_final : preserves ctxFrame (canary_doCanaryFinalising : MC bool).
Proof.
  unfold canary_doCanaryFinalising, modCanaryCommon, mkTR, getCanary.
  pose proof ctxFrame_modCanary.
  pose proof (ctxFrame_finalTask canaryTask preserves_canaryTask) as HT.
  pose proof preserves_removeAnnotation. cbv zeta.
  solve_preserves.
Qed.

Lemma ctxFrame_bg_final : preserves ctxFrame (bg_doCanaryFinalising : MC bool).
Proof.
  unfold bg_doCanaryFinalising, modBlueGreenCommon, mkTR, getBlueGreen.
  pose proof ctxFrame_modBlueGreen.
  pose proof (ctxFrame_finalTask blueGreenTask preserves_blueGreenTask) as HT.
  pose proof preserves_removeAnnotation. cbv zeta.
  solve_preserves.
Qed.
End frames.

(** ** What both managers promise to the controller *)

(** The laws of a release manager for one style: no operation touches the rollout,
    the workload, the conditions or the phase; and finalising is reported complete
    only at the end of the manager's sequence, or before the release began. *)
Record managerLaws {W} (finalStep : RolloutStatus -> option FinalisingStepType)
    (m : ReleaseManager W) : Prop := {
  law_run : preserves ctxFrame (runCanary m);
  law_jump : preserves ctxFrame (doCanaryJump m);
  law_final : preserves ctxFrame (doCanaryFinalising m);
  law_end : forall c w c' w',
    doCanaryFinalising m (c, w) = (Ok true, (c', w')) ->
    finalStep (NewStatus c') = None \/ finalStep (NewStatus c') = Some FinalisingStepTypeEnd
}.

Definition canaryFinalStep (st : RolloutStatus) : option FinalisingStepType :=
  option_map (fun s => FinalisingStep (cn_Common s)) (CanaryStatus st).
(** A status with a canary part is not one of a blue-green release. *)
Definition blueGreenFinalStep (st : RolloutStatus) : option FinalisingStepType :=
  match CanaryStatus st with
  | Some _ => None
  | None => option_map (fun s => FinalisingStep (bg_Common s)) (BlueGreenStatus st)
  end.
Definition styleFinalStep (rollout : Rollout) (st : RolloutStatus) : option FinalisingStepType :=
  match IsBlueGreenRelease (ro_Strategy rollout) with
  | Ok true => blueGreenFinalStep st
  | _ => canaryFinalStep st
  end.

Section laws.
Context {W : Type} `{Clock W} `{Api W BatchRelease} `{WorkloadClient W} `{TrafficManager W}
  `{K8sLib} `{WorkloadFilter} `{PlanHash}.

Lemma canaryManager_laws : managerLaws canaryFinalStep (canaryReleaseManager (W := W)).
Proof.
  split; simpl.
  - apply ctxFrame_canary_runCanary.
  - unfold canary_doCanaryJump, canarySteps. pose proof ctxFrame_stepJump. solve_preserves.
  - apply ctxFrame_canary_final.
  - intros c w c' w' E. destruct (CanaryStatus (NewStatus c)) as [s|] eqn:Hs.
    + pose proof (canary_doCanaryFinalising_post c s w Hs) as Hwp. unfold wp in Hwp.
      rewrite E in Hwp. destruct Hwp as (f' & (Hf & s' & Hs' & Ef) & _ & Hend & _).
      right. rewrite (Hend eq_refl) in Ef. unfold canaryFinalStep. simpl in *.
      destruct (CanaryStatus (NewStatus c')) as [s1|] eqn:Hs1.
      * rewrite (canary_sub _ _ Hs1) in Hs'. injection Hs' as <-. simpl. by rewrite Ef.
      * destruct (proj2 (ctxFrame_canary _ _ Hf)
                    (mk_is_Some _ _ Hs)) as [? Hx]. congruence.
    + left. unfold canary_doCanaryFinalising, bind, getC in E. simpl in E. rewrite Hs in E.
      injection E as <- <-. unfold canaryFinalStep. by rewrite Hs.
Qed.

Lemma blueGreenManager_laws : managerLaws blueGreenFinalStep (blueGreenReleaseManager (W := W)).
Proof.
  split; simpl.
  - apply ctxFrame_bg_runCanary.
  - unfold bg_doCanaryJump, blueGreenSteps. pose proof ctxFrame_stepJump. solve_preserves.
  - apply ctxFrame_bg_final.
  - intros c w c' w' E. unfold blueGreenFinalStep.
    destruct (CanaryStatus (NewStatus c')) as [s1|] eqn:Hs1; [by left|].
    pose proof (ctxFrame_bg_final _ _ _ _ _ E) as Hf. destruct (CanaryStatus (NewStatus c)) eqn:Hn.
    { destruct (proj2 (ctxFrame_canary _ _ Hf)
                  (mk_is_Some _ _ Hn)) as [? Hx]. congruence. }
    destruct (BlueGreenStatus (NewStatus c)) as [s|] eqn:Hs.
    + pose proof (bg_doCanaryFinalising_post c s w Hn Hs) as Hwp. unfold wp in Hwp.
      rewrite E in Hwp. destruct Hwp as (f' & (_ & s' & Hs' & Ef) & _ & Hend & _).
      right. rewrite (Hend eq_refl) in Ef. simpl in *. unfold GetSubStatus in Hs'. rewrite Hs1 in Hs'.
      destruct (BlueGreenStatus (NewStatus c')); [|done]. injection Hs' as <-. simpl. by rewrite Ef.
    + left. unfold bg_doCanaryFinalising, bind, getC in E. simpl in E. rewrite Hs in E.
      injection E as <- <-. by rewrite Hs.
Qed.

Lemma getReleaseManager_laws rollout m :
  getReleaseManager (W := W) rollout = Ok m ->
  managerLaws (styleFinalStep rollout) m.
Proof.
  unfold getReleaseManager, styleFinalStep, IsCanaryStragegy, IsBlueGreenRelease.
  destruct (GetRollingStyle (ro_Strategy rollout)) as [st|e|]; simpl; [|done|done].
  destruct st; simpl; intros [= <-];
    auto using canaryManager_laws, blueGreenManager_laws.
Qed.
End laws.

(** ** Setting the conditions *)

(** Nothing but conditions and message differs. *)
Definition onlyConditions (st st' : RolloutStatus) : Prop :=
  (st' <| Conditions := Conditions st |> <| Message := Message st |>) = st.

Lemma onlyConditions_inv st st' :
  onlyConditions st st' ->
  CanaryStatus st' = CanaryStatus st /\ BlueGreenStatus st' = BlueGreenStatus st
  /\ Phase st' = Phase st /\ GetSubStatus st' = GetSubStatus st
  /\ GetCanaryRevision st' = GetCanaryRevision st.
Proof. unfold onlyConditions. intros <-. by destruct st'. Qed.

Section conditions.
Context {W : Type} `{Clock W}.
Abbreviation MC := (M (RolloutContext * W)).

Lemma modStatus_run f c (w : W) :
  modStatus f (c, w) = (Ok tt, (c <| NewStatus := f (NewStatus c) |>, w)).
Proof. done. Qed.

(** Setting [cond], whatever becomes of the message. *)
Lemma setCondition_facts st cond st' :
  let x := fst (SetRolloutCondition st cond) in
  (st' <| Message := Message x |>) = x ->
  onlyConditions st st'
  /\ (exists d, GetRolloutCondition st' (Type_ cond) = Some d
        /\ Reason d = Reason cond /\ cond_Status d = cond_Status cond)
  /\ forall t, t <> Type_ cond -> GetRolloutCondition st' t = GetRolloutCondition st t.
Proof.
  intros x E. assert (Hc : Conditions st' = Conditions x) by by rewrite <- E.
  pose proof (SetRolloutCondition_rest st cond) as Hrest. fold x in Hrest.
  unfold GetRolloutCondition. rewrite Hc. split; [|split].
  - unfold onlyConditions. rewrite <- Hrest. rewrite <- E. by destruct st'.
  - destruct (SetRolloutCondition_same st cond) as (d & Hd & Hm & _).
    exists d. split; [exact Hd|]. unfold condMeaning in Hm. split; congruence.
  - intros t Hne. apply (SetRolloutCondition_other st cond t Hne).
Qed.

Lemma transition_run condStatus reason message c (w : W) cond :
  GetRolloutCondition (NewStatus c) RolloutConditionProgressing = Some cond ->
  exists st', progressingStateTransition condStatus reason message (c, w)
      = (Ok tt, (c <| NewStatus := st' |>, w))
    /\ onlyConditions (NewStatus c) st'
    /\ (exists d, GetRolloutCondition st' RolloutConditionProgressing = Some d
          /\ Reason d = reason /\ cond_Status d = condStatus)
    /\ forall t, t <> RolloutConditionProgressing ->
         GetRolloutCondition st' t = GetRolloutCondition (NewStatus c) t.
Proof.
  intros Hc. pose proof (findCondition_type _ _ _ Hc) as Ht.
  unfold progressingStateTransition, bind, getC. simpl. rewrite Hc.
  set (cond' := if nonempty message then _ else _).
  assert (Type_ cond' = RolloutConditionProgressing /\ Reason cond' = reason
          /\ cond_Status cond' = condStatus) as Hcond
    by (unfold cond'; destruct (nonempty message); done).
  clearbody cond'. destruct Hcond as (<- & <- & <-).
  unfold ret. rewrite modStatus_run. eexists. split; [done|].
  apply setCondition_facts. by destruct (fst _).
Qed.

Lemma succeeded_run condStatus c (w : W) c' w' :
  setRolloutSucceededCondition condStatus (c, w) = (Ok tt, (c', w')) ->
  exists st', c' = c <| NewStatus := st' |>
    /\ onlyConditions (NewStatus c) st'
    /\ (exists d, GetRolloutCondition st' RolloutConditionSucceeded = Some d
          /\ cond_Status d = condStatus)
    /\ forall t, t <> RolloutConditionSucceeded ->
         GetRolloutCondition st' t = GetRolloutCondition (NewStatus c) t.
Proof.
  assert (Hset : forall cond w1, Type_ cond = RolloutConditionSucceeded -> cond_Status cond = condStatus ->
    modStatus (fun st => fst (SetRolloutCondition st cond)) (c, w1) = (Ok tt, (c', w')) ->
    exists st', c' = c <| NewStatus := st' |> /\ onlyConditions (NewStatus c) st'
      /\ (exists d, GetRolloutCondition st' RolloutConditionSucceeded = Some d
            /\ cond_Status d = condStatus)
      /\ forall t, t <> RolloutConditionSucceeded ->
           GetRolloutCondition st' t = GetRolloutCondition (NewStatus c) t).
  { intros cond w1 <- <- Hrun. rewrite modStatus_run in Hrun. injection Hrun as <- <-.
    eexists. split; [done|].
    destruct (setCondition_facts (NewStatus c) cond (fst (SetRolloutCondition (NewStatus c) cond)))
      as (Ho & (d & Hd & _ & Hs) & Hother); [by destruct (fst _)|]. eauto. }
  unfold setRolloutSucceededCondition. intros Hrun. inv_run.
  - refine (Hset _ _ _ _ Hrun); [|done]. simpl. by eapply findCondition_type.
  - refine (Hset _ _ _ _ Hrun); unfold NewRolloutCondition in *; by inv_run.
Qed.

Lemma succeeded_ok condStatus c (w : W) :
  exists c' w', setRolloutSucceededCondition condStatus (c, w) = (Ok tt, (c', w')).
Proof.
  unfold setRolloutSucceededCondition, NewRolloutCondition, time_Now, bind, getC, inWorld. simpl.
  destruct (GetRolloutCondition (NewStatus c) RolloutConditionSucceeded); simpl; [by do 2 eexists|].
  destruct (clock_now w) as [t w1]. destruct (clock_now w1). by do 2 eexists.
Qed.
End conditions.

(** ** The machine of the reasons *)

Definition condFrame (c c' : RolloutContext) : Prop :=
  Conditions (NewStatus c') = Conditions (NewStatus c)
  /\ Phase (NewStatus c') = Phase (NewStatus c).

#[export] Instance condFrame_preorder : PreOrder condFrame.
Proof.
  split; [done|]. intros c1 c2 c3 [H1 H2] [H3 H4]. split; congruence.
Qed.

Lemma cond_of_ctx {W A} (m : M (RolloutContext * W) A) :
  preserves ctxFrame m -> preserves condFrame m.
Proof. apply preserves_weaken. by intros c c' (_ & _ & _ & _ & H1 & H2 & _). Qed.

Lemma SetCanaryRevision_frame rev st :
  Conditions (SetCanaryRevision rev st) = Conditions st
  /\ Phase (SetCanaryRevision rev st) = Phase st
  /\ CanaryStatus (SetCanaryRevision rev st)
     = option_map (fun s => s <| CanaryRevision := rev |>) (CanaryStatus st).
Proof. unfold SetCanaryRevision. by destruct st as [? [] []]. Qed.

#[export] Hint Extern 1 (condFrame _ _) => split; reflexivity : frames.
#[export] Hint Extern 3 (preserves condFrame _) =>
  simple apply cond_of_ctx; solve [eauto 4 with frames] : frames.

Section handlers.
Context {W : Type} `{Clock W} `{Api W BatchRelease} `{Api W TrafficRouting} `{WorkloadClient W}
  `{WorkloadFinder W} `{TrafficManager W} `{Retry W} `{K8sLib} `{WorkloadFilter} `{PlanHash}.
Abbreviation MC := (M (RolloutContext * W)).

Lemma condFrame_modSubAny f : preserves condFrame (modSub f : MC unit).
Proof. apply cond_of_ctx, ctxFrame_modSubAny. Qed.

Lemma condFrame_removeBatchRelease : preserves condFrame (removeBatchRelease : MC bool).
Proof. unfold removeBatchRelease. solve_preserves. Qed.

Lemma condFrame_rollbackInBatches workload : preserves condFrame (handleRollbackInBatches workload : MC unit).
Proof.
  unfold handleRollbackInBatches, now, modStatus. pose proof condFrame_modSubAny. solve_preserves.
  apply preserves_modC. intros c. destruct (SetCanaryRevision_frame (wl_CanaryRevision workload) (NewStatus c))
    as (? & ? & _). by split.
Qed.

Lemma condFrame_reset : preserves condFrame (doProgressingReset : MC bool).
Proof.
  unfold doProgressingReset, resetGateway, resetWorkloadControl, resetCanaryService, now, mkTR.
  pose proof condFrame_modSubAny. pose proof condFrame_removeBatchRelease. solve_preserves.
Qed.

Lemma condFrame_planChanged : preserves condFrame (handleRolloutPlanChanged : MC unit).
Proof.
  unfold handleRolloutPlanChanged, recalculateCanaryStep, getSub, getWorkload, now.
  pose proof condFrame_modSubAny. solve_preserves.
  all: by eapply cond_of_ctx, law_jump, getReleaseManager_laws.
Qed.
End handlers.

(** ** Reasons of the Progressing condition *)

(** The release stands before its first step, in the sub status of its style. *)
Definition freshRelease (rollout : Rollout) (workload : Workload) (st : RolloutStatus) : Prop :=
  exists sub, GetSubStatus st = Some sub /\ CurrentStepIndex sub = 1
  /\ CurrentStepState sub = CanaryStepStateInit /\ FinalisingStep sub = FinalisingStepNone
  /\ GetCanaryRevision st = wl_CanaryRevision workload
  /\ NextBatchIndex rollout 1 = Ok (NextStepIndex sub)
  /\ RolloutHash sub = annotation (ro_Meta rollout) RolloutHashAnnotation
  /\ StableRevision sub = wl_StableRevision workload
  /\ ObservedRolloutID sub = getRolloutID (Some workload)
  /\ IsBlueGreenRelease (ro_Strategy rollout)
     = Ok (match BlueGreenStatus st with Some _ => true | None => false end)
  /\ (is_Some (BlueGreenStatus st) <-> CanaryStatus st = None).

(** The outcomes after which the status is written: success and, while rolling, a
    bad request. *)
Definition kept {A} (rolling : bool) (r : res A) : Prop :=
  match r with
  | Ok _ => True
  | Err (ErrBadRequest _) => rolling = true
  | _ => False
  end.

(** How a finalising reason runs the finalisation, and what it records at the end. *)
Inductive closing : string -> bool -> string -> ConditionStatus -> Prop :=
  | closing_success : closing ProgressingReasonFinalising true FinaliseReasonSuccess ConditionTrue
  | closing_rollback : closing ProgressingReasonCancelling false FinaliseReasonRollback ConditionFalse.

Section reasonEdges.
Context {W : Type} `{Clock W} `{Api W BatchRelease} `{Api W TrafficRouting} `{WorkloadClient W}
  `{WorkloadFinder W} `{TrafficManager W} `{Retry W} `{K8sLib} `{WorkloadFilter} `{PlanHash}.
Variables (rollout : Rollout) (workload : Workload) (cond : RolloutCondition) (w : W) (st : RolloutStatus).
Abbreviation start := (mkContext rollout st (Some workload) None false "").
Abbreviation hash := (annotation (ro_Meta rollout) RolloutHashAnnotation).

(** The release goes back to its first step, for the revision rolled back to. *)
Definition restartedAt (next t : Z) (s : CommonStatus) : CommonStatus :=
  s <| CurrentStepIndex := 1 |> <| NextStepIndex := next |>
    <| CurrentStepState := CanaryStepStateInit |> <| cs_LastUpdateTime := Some t |> <| RolloutHash := hash |>.

(** The current step stays, under the new plan. *)
Definition replannedAt (t : Z) (s : CommonStatus) : CommonStatus :=
  s <| CurrentStepState := CanaryStepStateReady |> <| cs_LastUpdateTime := Some t |> <| RolloutHash := hash |>.
(** Another step is the next one, under the new plan. *)
Definition redirectedAt (idx t : Z) (s : CommonStatus) : CommonStatus :=
  s <| NextStepIndex := idx |> <| cs_LastUpdateTime := Some t |> <| RolloutHash := hash |>.

(** One reconciliation in reason InRolling that starts with the status [st] in the
    world [w] and leaves [st'] and a reason: which of the cases applied, and what
    was done in it. *)
Inductive rollingEdge (st' : RolloutStatus) : string -> Prop :=
  | roll_cancel :
      isRollingBackDirectly rollout workload = Ok true ->
      onlyConditions (SetCanaryRevision (wl_CanaryRevision workload) st) st' ->
      (is_Some (GetSubStatus st) -> GetCanaryRevision st' = wl_CanaryRevision workload) ->
      rollingEdge st' ProgressingReasonCancelling
  | roll_pause :
      isRollingBackDirectly rollout workload = Ok false -> isRolloutPaused rollout = true ->
      onlyConditions st st' ->
      rollingEdge st' ProgressingReasonPaused
  | roll_back_in_batches next :
      isRollingBackDirectly rollout workload = Ok false -> isRolloutPaused rollout = false ->
      isRollingBackInBatches rollout workload = Ok true ->
      is_Some (GetSubStatus st) -> NextBatchIndex rollout 1 = Ok next ->
      st' = SetCanaryRevision (wl_CanaryRevision workload)
              (modSubStatus (restartedAt next (fst (clock_now w))) st) ->
      rollingEdge st' ProgressingReasonInRolling
  | roll_other target :
      isRollingBackDirectly rollout workload = Ok false -> isRolloutPaused rollout = false ->
      isRollingBackInBatches rollout workload = Ok false ->
      forwardEdge st' target ->
      rollingEdge st' target

(** No rollback and no pause. *)
with forwardEdge (st' : RolloutStatus) : string -> Prop :=
  | forward_refuse msg :
      isContinuousRelease rollout workload = true ->
      IsBlueGreenRelease (ro_Strategy rollout) = Ok true ->
      st' = st <| Message := msg |> ->
      forwardEdge st' ProgressingReasonInRolling
  | forward_resetting r c2 w2 :
      isContinuousRelease rollout workload = true ->
      IsBlueGreenRelease (ro_Strategy rollout) = Ok false ->
      doProgressingReset (start, w) = (r, (c2, w2)) -> kept true r -> r <> Ok true ->
      st' = NewStatus c2 ->
      forwardEdge st' ProgressingReasonInRolling
  | forward_restart c2 w2 :
      isContinuousRelease rollout workload = true ->
      IsBlueGreenRelease (ro_Strategy rollout) = Ok false ->
      doProgressingReset (start, w) = (Ok true, (c2, w2)) ->
      onlyConditions (Clear (NewStatus c2)) st' -> GetSubStatus st' = None ->
      forwardEdge st' ProgressingReasonInitializing
  | forward_refused_plan msg w1 :
      isContinuousRelease rollout workload = false -> isRolloutPlanChanged rollout = Ok true ->
      recalculateCanaryStep (start, w) = (Err (ErrBadRequest msg), (start, w1)) -> st' = st ->
      forwardEdge st' ProgressingReasonInRolling
  | forward_replan sub w1 :
      isContinuousRelease rollout workload = false -> isRolloutPlanChanged rollout = Ok true ->
      GetSubStatus st = Some sub ->
      recalculateCanaryStep (start, w) = (Ok (NextStepIndex sub), (start, w1)) ->
      st' = modSubStatus (replannedAt (fst (clock_now w1))) st ->
      forwardEdge st' ProgressingReasonInRolling
  | forward_redirect sub idx m w1 r c2 w2 :
      isContinuousRelease rollout workload = false -> isRolloutPlanChanged rollout = Ok true ->
      GetSubStatus st = Some sub -> NextStepIndex sub <> idx ->
      recalculateCanaryStep (start, w) = (Ok idx, (start, w1)) ->
      getReleaseManager rollout = Ok m ->
      doCanaryJump m (start <| NewStatus := modSubStatus (redirectedAt idx (fst (clock_now w1))) st |>,
                      snd (clock_now w1)) = (r, (c2, w2)) ->
      kept true r -> st' = NewStatus c2 ->
      forwardEdge st' ProgressingReasonInRolling
  | forward_finalise sub :
      isContinuousRelease rollout workload = false -> isRolloutPlanChanged rollout = Ok false ->
      GetSubStatus st = Some sub -> CurrentStepState sub = CanaryStepStateCompleted ->
      onlyConditions st st' ->
      forwardEdge st' ProgressingReasonFinalising
  | forward_run sub corrected m r c2 w2 :
      isContinuousRelease rollout workload = false -> isRolloutPlanChanged rollout = Ok false ->
      GetSubStatus st = Some sub -> CurrentStepState sub <> CanaryStepStateCompleted ->
      CheckNextBatchIndexWithCorrect rollout = Ok corrected -> getReleaseManager corrected = Ok m ->
      runCanary m (start <| ctx_Rollout := corrected |>, w) = (r, (c2, w2)) ->
      kept true r -> st' = NewStatus c2 ->
      forwardEdge st' ProgressingReasonInRolling.

(** The step of one reconciliation in the reason of the condition [cond], from the
    status [st] to [st'], with what the controller has seen and done when it takes it. *)
Inductive reasonEdge (st' : RolloutStatus) : string -> string -> Prop :=
  | reason_initialise c1 s2 :
      ctx_Rollout c1 = rollout -> ctx_Workload c1 = Some workload -> freshRelease rollout workload (NewStatus c1) ->
      doProgressingInitializing (c1, snd (clock_now w)) = (Ok false, s2) ->
      st' = NewStatus c1 ->
      reasonEdge st' ProgressingReasonInitializing ProgressingReasonInitializing
  | reason_start c1 s2 (wt : W) :
      ctx_Rollout c1 = rollout -> ctx_Workload c1 = Some workload -> freshRelease rollout workload (NewStatus c1) ->
      doProgressingInitializing (c1, snd (clock_now w)) = (Ok true, s2) ->
      onlyConditions (NewStatus c1) st' -> freshRelease rollout workload st' ->
      LastUpdateTime cond + Second * rolloutGracePeriodSeconds <= fst (clock_now wt) ->
      reasonEdge st' ProgressingReasonInitializing ProgressingReasonInRolling
  | reason_rolling target :
      rollingEdge st' target -> reasonEdge st' ProgressingReasonInRolling target
  | reason_paused :
      isRolloutPaused rollout = true -> st' = st ->
      reasonEdge st' ProgressingReasonPaused ProgressingReasonPaused
  | reason_resume :
      isRolloutPaused rollout = false -> onlyConditions st st' ->
      reasonEdge st' ProgressingReasonPaused ProgressingReasonInRolling
  | reason_finalising reason waitReady why succeeded c2 w2 :
      closing reason waitReady why succeeded ->
      doFinalising (start <| WaitReady := waitReady |> <| FinalizeReason := why |>, w)
        = (Ok false, (c2, w2)) ->
      st' = NewStatus c2 ->
      reasonEdge st' reason reason
  | reason_complete reason waitReady why succeeded c2 w2 d :
      closing reason waitReady why succeeded ->
      doFinalising (start <| WaitReady := waitReady |> <| FinalizeReason := why |>, w)
        = (Ok true, (c2, w2)) ->
      onlyConditions (NewStatus c2) st' ->
      GetRolloutCondition st' RolloutConditionSucceeded = Some d -> cond_Status d = succeeded ->
      (styleFinalStep rollout st' = None \/ styleFinalStep rollout st' = Some FinalisingStepTypeEnd) ->
      reasonEdge st' reason ProgressingReasonCompleted
  | reason_completed :
      st' = st <| Phase := RolloutPhaseHealthy |> ->
      reasonEdge st' ProgressingReasonCompleted ProgressingReasonCompleted
  | reason_unknown reason :
      reason ∉ [ProgressingReasonInitializing; ProgressingReasonInRolling; ProgressingReasonFinalising;
                ProgressingReasonPaused; ProgressingReasonCancelling; ProgressingReasonCompleted] ->
      st' = st -> reasonEdge st' reason reason.

(** What the reconciliation does to the status as a whole. *)
Definition reasonPost (st' : RolloutStatus) : Prop :=
  exists cond', GetRolloutCondition st' RolloutConditionProgressing = Some cond'
  /\ reasonEdge st' (Reason cond) (Reason cond')
  /\ (Reason cond' <> Reason cond ->
      cond_Status cond' = (if String.eqb (Reason cond') ProgressingReasonCompleted
                           then ConditionFalse else ConditionTrue))
  /\ GetRolloutCondition st' RolloutConditionTerminating
     = GetRolloutCondition st RolloutConditionTerminating
  /\ Phase st' = (if String.eqb (Reason cond) ProgressingReasonCompleted
                  then RolloutPhaseHealthy else Phase st).

(** The outcome of a handler: a status that is going to be written is a good one. *)
Definition handled {A} (rolling : bool) (r : res A) (s : RolloutContext * W) : Prop :=
  kept rolling r -> reasonPost (NewStatus (fst s)).
End reasonEdges.

(** Computations that never end in an error. *)
Definition errorFree {A} (r : res A) : Prop := forall e, r <> Err e.

Lemma errorFree_bind {A B} (r : res A) (k : A -> res B) :
  errorFree r -> (forall a, errorFree (k a)) -> errorFree (res_bind r k).
Proof. intros Hr Hk e. destruct r as [a|e'|]; simpl; [apply Hk|by destruct (Hr e')|done]. Qed.
Lemma errorFree_deref {A} (p : option A) : errorFree (deref p).
Proof. by destruct p. Qed.
Lemma errorFree_style r : errorFree (GetRollingStyle r).
Proof. intros e. unfold GetRollingStyle. destruct (BlueGreen r); [done|]. by destruct (Canary r). Qed.

(** Splits a computation into parts without errors. *)
Ltac error_free := repeat first
  [ progress unfold res_map | apply errorFree_bind | apply errorFree_deref | apply errorFree_style
  | intros ?e; discriminate | intros ?x; match goal with |- errorFree _ => idtac end
  | case_decide | match goal with |- errorFree (if ?b then _ else _) => destruct b
                  | |- errorFree (match ?x with _ => _ end) => destruct x end ].

Lemma errorFree_steps r : errorFree (GetSteps r).
Proof. unfold GetSteps. error_free. Qed.
Lemma errorFree_next rollout i : errorFree (NextBatchIndex rollout i).
Proof. unfold NextBatchIndex. apply errorFree_bind; [apply errorFree_steps|]. intros. error_free. Qed.
Lemma errorFree_correct rollout : errorFree (CheckNextBatchIndexWithCorrect rollout).
Proof.
  unfold CheckNextBatchIndexWithCorrect. apply errorFree_bind; [error_free|]. intros sub. cbv zeta.
  apply errorFree_bind.
  - case_decide; [error_free|]. apply errorFree_bind; [apply errorFree_steps|]. error_free.
  - intros []; [|error_free]. apply errorFree_bind; [apply errorFree_next|]. error_free.
Qed.
Lemma errorFree_inBatch rollout labels : errorFree (IsRollbackInBatchPolicy rollout labels).
Proof. unfold IsRollbackInBatchPolicy, HasTrafficRoutings, GetTrafficRouting. cbv zeta. error_free. Qed.
Lemma errorFree_direct rollout workload : errorFree (isRollingBackDirectly rollout workload).
Proof. apply errorFree_bind; [apply errorFree_inBatch|]. error_free. Qed.
Lemma errorFree_batches rollout workload : errorFree (isRollingBackInBatches rollout workload).
Proof. apply errorFree_bind; [apply errorFree_inBatch|]. error_free. Qed.
Lemma errorFree_plan rollout : errorFree (isRolloutPlanChanged rollout).
Proof. unfold isRolloutPlanChanged. error_free. Qed.
Lemma errorFree_blueGreen r : errorFree (IsBlueGreenRelease r).
Proof. unfold IsBlueGreenRelease. error_free. Qed.

Lemma onlyConditions_trans st1 st2 st3 :
  onlyConditions st1 st2 -> onlyConditions st2 st3 -> onlyConditions st1 st3.
Proof. unfold onlyConditions. intros <- <-. by destruct st3. Qed.

Lemma freshRelease_only rollout workload st st' :
  onlyConditions st st' -> freshRelease rollout workload st -> freshRelease rollout workload st'.
Proof. unfold onlyConditions. intros <-. by destruct st'. Qed.

Section reason_lemmas.
Context {W : Type} `{Clock W} `{Api W BatchRelease} `{Api W TrafficRouting} `{WorkloadClient W}
  `{WorkloadFinder W} `{TrafficManager W} `{Retry W} `{K8sLib} `{WorkloadFilter} `{PlanHash}.
Abbreviation MC := (M (RolloutContext * W)).
Variables (rollout : Rollout) (workload : Workload) (cond : RolloutCondition) (w0 : W) (st : RolloutStatus).
Hypothesis Hcond : GetRolloutCondition st RolloutConditionProgressing = Some cond.
Abbreviation edge := (reasonEdge rollout workload cond w0 st).
Abbreviation post := (reasonPost rollout workload cond w0 st).
Abbreviation handled := (handled rollout workload cond w0 st).
Abbreviation start := (mkContext rollout st (Some workload) None false "").

Lemma now_run (c : RolloutContext) (w : W) :
  now (c, w) = (Ok (fst (clock_now w)), (c, snd (clock_now w))).
Proof. unfold now, inWorld, time_Now. simpl. by destruct (clock_now w). Qed.

Lemma recheckLater_run (c : RolloutContext) (w : W) :
  exists t, recheckLater (c, w) = (Ok tt, (c <| RecheckTime := Some t |>, snd (clock_now w))).
Proof. eexists. unfold recheckLater, recheckAfter. by rewrite (bind_step _ _ _ _ _ (now_run c w)). Qed.

Lemma post_stay st' :
  Conditions st' = Conditions st ->
  Phase st' = (if String.eqb (Reason cond) ProgressingReasonCompleted
               then RolloutPhaseHealthy else Phase st) ->
  edge st' (Reason cond) (Reason cond) -> post st'.
Proof using Hcond.
  intros E HP He. exists cond. unfold GetRolloutCondition in *. rewrite E.
  split; [done|]. split; [done|]. split; [done|]. split; [done|done].
Qed.

Lemma post_frame c' :
  Reason cond <> ProgressingReasonCompleted -> condFrame start c' ->
  edge (NewStatus c') (Reason cond) (Reason cond) -> post (NewStatus c').
Proof using Hcond.
  intros Hr [E HP] He. apply post_stay; [done| |done]. rewrite HP.
  by destruct (String.eqb_spec (Reason cond) ProgressingReasonCompleted).
Qed.

(** The last operation of a handler that stays in its reason. *)
Lemma wp_handled_frame {A} rolling (m : MC A) c w :
  Reason cond <> ProgressingReasonCompleted -> condFrame start c -> preserves condFrame m ->
  (forall r c' w', m (c, w) = (r, (c', w')) -> kept rolling r ->
     edge (NewStatus c') (Reason cond) (Reason cond)) ->
  wp m (handled rolling) (c, w).
Proof using Hcond.
  intros Hr HF0 Hm He. apply (wp_preserves condFrame); [done|]. intros r c' w' E HF Hk.
  apply post_frame; [done|by transitivity c|]. by eapply He.
Qed.

Lemma wp_handled_bind {A B} rolling (m : MC A) (k : A -> MC B) c w :
  Reason cond <> ProgressingReasonCompleted -> condFrame start c -> preserves condFrame m ->
  (forall a c2 w2, m (c, w) = (Ok a, (c2, w2)) -> condFrame start c2 -> wp (k a) (handled rolling) (c2, w2)) ->
  (forall msg c2 w2, m (c, w) = (Err (ErrBadRequest msg), (c2, w2)) -> rolling = true ->
     edge (NewStatus c2) (Reason cond) (Reason cond)) ->
  wp (bind m k) (handled rolling) (c, w).
Proof using Hcond.
  intros Hr HF0 Hm Hk He. apply wp_bind, (wp_preserves condFrame); [done|].
  intros r c2 w2 E HF. assert (condFrame start c2) by by transitivity c.
  destruct r as [a|e|]; simpl; [by eapply Hk| |by intros []].
  intros Hkept. destruct e; try done. apply post_frame; [done|done|]. by eapply He.
Qed.

(** An outcome other than an error decides how to go on. *)
Lemma wp_handled_lift {A B} rolling (r : res A) (k : A -> MC B) s :
  errorFree r -> (forall a, r = Ok a -> wp (k a) (handled rolling) s) ->
  wp (bind (lift r) k) (handled rolling) s.
Proof.
  intros Hf Hk. apply wp_bind, wp_lift. destruct r as [a|e|]; simpl; [by apply Hk| |by intros []].
  by destruct (Hf e).
Qed.

Lemma wp_handled_transition rolling c reason condStatus message (w : W) :
  Reason cond <> ProgressingReasonCompleted -> condFrame start c ->
  condStatus = (if String.eqb reason ProgressingReasonCompleted then ConditionFalse else ConditionTrue) ->
  (forall st', onlyConditions (NewStatus c) st' -> edge st' (Reason cond) reason) ->
  wp (progressingStateTransition condStatus reason message) (handled rolling) (c, w).
Proof using Hcond.
  intros Hnc [E HP] -> Hedge. simpl in E, HP.
  assert (Hcond1 : GetRolloutCondition (NewStatus c) RolloutConditionProgressing = Some cond)
    by (unfold GetRolloutCondition in *; by rewrite E).
  destruct (transition_run (if String.eqb reason ProgressingReasonCompleted then ConditionFalse else ConditionTrue)
              reason message c w cond Hcond1) as (st' & Hr & Ho & (d & Hd & Hdr & Hds) & Hother).
  unfold wp. rewrite Hr. intros _. simpl.
  exists d. rewrite Hdr. split; [done|]. split; [by apply Hedge|]. split; [by intros _|].
  split; [rewrite Hother by done; unfold GetRolloutCondition; by rewrite E|].
  destruct (onlyConditions_inv _ _ Ho) as (_ & _ & -> & _). rewrite HP.
  by destruct (String.eqb_spec (Reason cond) ProgressingReasonCompleted).
Qed.

(** Asking to come back changes no status. *)
Lemma wp_handled_recheck rolling c w :
  Reason cond <> ProgressingReasonCompleted -> condFrame start c ->
  edge (NewStatus c) (Reason cond) (Reason cond) -> wp recheckLater (handled rolling) (c, w).
Proof using Hcond.
  intros Hnc HF He. destruct (recheckLater_run c w) as [t Hrun]. unfold wp. rewrite Hrun.
  intros _. by apply (post_frame (c <| RecheckTime := Some t |>)).
Qed.
End reason_lemmas.

Lemma getSub_setRevision rev st : GetSubStatus (SetCanaryRevision rev st) = GetSubStatus st.
Proof. unfold GetSubStatus, SetCanaryRevision. by destruct st as [? [] []]. Qed.

Lemma modSub_setRevision rev f st :
  SetCanaryRevision rev (modSubStatus f st) = modSubStatus f (SetCanaryRevision rev st).
Proof. unfold modSubStatus, SetCanaryRevision. by destruct st as [? [] []]. Qed.

Section runs.
Context {W : Type} `{Clock W} `{Api W BatchRelease} `{Api W TrafficRouting} `{WorkloadClient W}
  `{WorkloadFinder W} `{TrafficManager W} `{Retry W} `{K8sLib} `{WorkloadFilter} `{PlanHash}.

Lemma getReleaseManager_refuses rollout e :
  getReleaseManager (W := W) rollout = Err e -> exists msg, e = ErrOther msg.
Proof.
  unfold getReleaseManager, IsCanaryStragegy, IsBlueGreenRelease. destruct (GetRollingStyle _) as [s|e'|] eqn:E; simpl;
    [|by destruct (errorFree_style _ _ E)|done].
  destruct (_ || _); simpl; [done|]. destruct (bool_decide (s = _)); simpl; [done|].
  intros [= <-]. by eexists.
Qed.

Lemma recalculate_same c (w : W) r c' w' :
  recalculateCanaryStep (c, w) = (r, (c', w')) -> c' = c.
Proof.
  intros E. symmetry. revert E. assert (Hp : preserves eq (recalculateCanaryStep : M (RolloutContext * W) Z))
    by (unfold recalculateCanaryStep, getSub, getWorkload; solve_preserves). apply Hp.
Qed.
End runs.

Section reason_handlers.
Context {W : Type} `{Clock W} `{Api W BatchRelease} `{Api W TrafficRouting} `{WorkloadClient W}
  `{WorkloadFinder W} `{TrafficManager W} `{Retry W} `{K8sLib} `{WorkloadFilter} `{PlanHash}.
Abbreviation MC := (M (RolloutContext * W)).
Variables (rollout : Rollout) (workload : Workload) (cond : RolloutCondition) (w : W) (st : RolloutStatus).
Hypothesis Hcond : GetRolloutCondition st RolloutConditionProgressing = Some cond.
Abbreviation handled := (handled rollout workload cond w st).
Abbreviation start := (mkContext rollout st (Some workload) None false "").

(** Frame-preserving work, then a continuation; a transition; a last operation. *)
Ltac handled_bind :=
  apply (wp_handled_bind rollout workload cond w st Hcond);
  [assumption|first [eassumption|reflexivity|by split]| | |].
Ltac handled_transition :=
  apply (wp_handled_transition rollout workload cond w st Hcond);
  [assumption|first [eassumption|reflexivity|by split]|reflexivity|].
Ltac handled_frame :=
  apply (wp_handled_frame rollout workload cond w st Hcond);
  [assumption|first [eassumption|reflexivity|by split]| |].
Ltac handled_recheck :=
  apply (wp_handled_recheck rollout workload cond w st Hcond);
  [assumption|first [eassumption|reflexivity|by split]|].
Ltac handled_lift :=
  apply (wp_handled_lift rollout workload cond w st).

Section in_rolling.
Hypothesis Hr : Reason cond = ProgressingReasonInRolling.

Local Lemma rolling_open : Reason cond <> ProgressingReasonCompleted.
Proof using Hr. by rewrite Hr. Qed.

Lemma rollbackDirectly_handled :
  isRollingBackDirectly rollout workload = Ok true ->
  wp (handleRollbackDirectly workload) (handled true) (start, w).
Proof using Hcond Hr.
  intros E1. pose proof rolling_open as Hnc. unfold handleRollbackDirectly. apply wp_bind.
  unfold modStatus. apply wp_modC. cbn [bind_post].
  destruct (SetCanaryRevision_frame (wl_CanaryRevision workload) st) as (HC & HP & _).
  assert (condFrame start (start <| NewStatus := SetCanaryRevision (wl_CanaryRevision workload) st |>))
    by (split; [exact HC|exact HP]).
  handled_transition. intros st' Ho. rewrite Hr. apply reason_rolling, roll_cancel; [done|exact Ho|].
  intros [sub Hsub]. destruct (onlyConditions_inv _ _ Ho) as (_ & _ & _ & _ & ->). simpl.
  unfold GetSubStatus in Hsub. unfold GetCanaryRevision, SetCanaryRevision. by destruct st as [? [] []].
Qed.

Lemma rollbackInBatches_handled :
  isRollingBackDirectly rollout workload = Ok false -> isRolloutPaused rollout = false ->
  isRollingBackInBatches rollout workload = Ok true ->
  wp (handleRollbackInBatches workload) (handled true) (start, w).
Proof using Hcond Hr.
  intros E1 E2 E3. pose proof rolling_open as Hnc. handled_frame; [apply condFrame_rollbackInBatches|].
  intros r c' w' Hrun Hk. rewrite Hr. apply reason_rolling.
  unfold handleRollbackInBatches, bind, lift, modStatus, modC in Hrun. rewrite getC_run in Hrun.
  destruct (GetSubStatus st) as [sub|] eqn:Es.
  2:{ unfold modSub at 1, getSub, bind, getC, lift in Hrun. simpl in Hrun. rewrite Es in Hrun.
      simpl in Hrun. injection Hrun as <- _ _. done. }
  erewrite modSub_run in Hrun by exact Es. simpl in Hrun.
  destruct (NextBatchIndex rollout 1) as [next|e|] eqn:En;
    [|by destruct (errorFree_next _ _ _ En)|by injection Hrun as <- _ _].
  erewrite modSub_run in Hrun by (simpl; by rewrite getSub_modSub, Es). simpl in Hrun.
  erewrite modSub_run in Hrun by (simpl; by rewrite getSub_setRevision, !getSub_modSub, Es). simpl in Hrun.
  rewrite now_run in Hrun. simpl in Hrun.
  erewrite modSub_run in Hrun by (simpl; by rewrite getSub_modSub, getSub_setRevision, !getSub_modSub, Es).
  injection Hrun as _ <- _. simpl.
  eapply (roll_back_in_batches _ _ _ _ _ next); [done|done|done|by rewrite Es|done|].
  rewrite <- !modSub_setRevision, !modSub_compose. by apply (f_equal (SetCanaryRevision _)), (modSub_ext _ _ _ sub).
Qed.

Lemma planChanged_handled :
  isRollingBackDirectly rollout workload = Ok false -> isRolloutPaused rollout = false ->
  isRollingBackInBatches rollout workload = Ok false ->
  isContinuousRelease rollout workload = false -> isRolloutPlanChanged rollout = Ok true ->
  wp handleRolloutPlanChanged (handled true) (start, w).
Proof using Hcond Hr.
  intros E1 E2 E3 E4 E5. pose proof rolling_open as Hnc. handled_frame; [apply condFrame_planChanged|].
  intros r c' w' Hrun Hk. rewrite Hr. apply reason_rolling, roll_other; [done|done|done|].
  unfold handleRolloutPlanChanged in Hrun. unfold bind at 1 in Hrun.
  destruct (recalculateCanaryStep (start, w)) as [ri [c1 w1]] eqn:Eidx.
  pose proof (recalculate_same _ _ _ _ _ Eidx) as ->.
  destruct ri as [idx|e|]; [| |by injection Hrun as <- <- <-].
  2:{ injection Hrun as <- <- <-. destruct e; try done. by eapply forward_refused_plan. }
  unfold bind at 1 in Hrun. rewrite getC_run in Hrun. simpl in Hrun.
  unfold bind at 1, getSub at 1, bind at 1, lift at 1 in Hrun. rewrite getC_run in Hrun. simpl in Hrun.
  destruct (GetSubStatus st) as [sub|] eqn:Es; [simpl in Hrun|by injection Hrun as <- _ _].
  case_decide as Hidx; unfold bind, lift in Hrun.
  - erewrite modSub_run in Hrun by exact Es. rewrite now_run in Hrun. simpl in Hrun.
    erewrite modSub_run in Hrun by (simpl; by rewrite getSub_modSub, Es). injection Hrun as _ <- _. simpl.
    subst idx. eapply forward_replan; [done|done|exact Es|exact Eidx|].
    rewrite modSub_compose. by apply (modSub_ext _ _ _ sub).
  - erewrite modSub_run in Hrun by exact Es. rewrite now_run in Hrun. simpl in Hrun.
    erewrite modSub_run in Hrun by (simpl; by rewrite getSub_modSub, Es). simpl in Hrun.
    rewrite modSub_compose in Hrun.
    destruct (getReleaseManager rollout) as [m|e|] eqn:Em;
      [|by injection Hrun as <- _ _; destruct (getReleaseManager_refuses _ _ Em) as [? ->]|by injection Hrun as <- _ _].
    destruct (doCanaryJump m _) as [rj [c2 w2]] eqn:Ej.
    eapply (forward_redirect _ _ _ _ _ sub idx m w1 rj c2 w2); try done.
    + by destruct rj; injection Hrun as <- _ _.
    + by destruct rj; injection Hrun as _ <- _.
Qed.

Lemma continuousRelease_handled :
  isRollingBackDirectly rollout workload = Ok false -> isRolloutPaused rollout = false ->
  isRollingBackInBatches rollout workload = Ok false ->
  isContinuousRelease rollout workload = true ->
  wp handleContinuousRelease (handled true) (start, w).
Proof using Hcond Hr.
  intros E1 E2 E3 E4. pose proof rolling_open as Hnc.
  assert (Hgo : forall st' target, forwardEdge rollout workload w st st' target ->
    reasonEdge rollout workload cond w st st' (Reason cond) target)
    by (intros; rewrite Hr; by apply reason_rolling, roll_other).
  unfold handleContinuousRelease. apply wp_bind, wp_getC. cbn [bind_post].
  handled_lift; [apply errorFree_blueGreen|]. intros [] Eb.
  - handled_frame; [solve_preserves|]. intros r c' w' Hrun Hk. rewrite Hr at 2. apply Hgo.
    unfold setProgressMessage, bind, lift, modStatus, modC in Hrun. rewrite getC_run in Hrun. simpl in Hrun.
    rewrite Hcond in Hrun. injection Hrun as <- <- <-. by eapply forward_refuse.
  - handled_bind; [apply condFrame_reset| |].
    + intros [] c2 w2 E HF.
      * apply wp_bind. unfold modStatus. apply wp_modC. cbn [bind_post].
        assert (HF2 : condFrame start (c2 <| NewStatus := Clear (NewStatus c2) |>)) by exact HF.
        handled_transition. intros st' Ho. apply Hgo. eapply forward_restart; try done.
        by destruct (onlyConditions_inv _ _ Ho) as (_ & _ & _ & -> & _).
      * handled_recheck. rewrite Hr at 2. apply Hgo. by eapply forward_resetting.
    + intros msg c2 w2 E _. rewrite Hr at 2. apply Hgo. by eapply forward_resetting.
Qed.

Lemma normalRolling_handled :
  isRollingBackDirectly rollout workload = Ok false -> isRolloutPaused rollout = false ->
  isRollingBackInBatches rollout workload = Ok false ->
  isContinuousRelease rollout workload = false -> isRolloutPlanChanged rollout = Ok false ->
  wp handleNormalRolling (handled true) (start, w).
Proof using Hcond Hr.
  intros E1 E2 E3 E4 E5. pose proof rolling_open as Hnc.
  assert (Hgo : forall st' target, forwardEdge rollout workload w st st' target ->
    reasonEdge rollout workload cond w st st' (Reason cond) target)
    by (intros; rewrite Hr; by apply reason_rolling, roll_other).
  unfold handleNormalRolling. apply wp_bind. unfold getSub. apply wp_bind, wp_getC. cbn [bind_post].
  apply wp_lift. simpl. destruct (GetSubStatus st) as [sub|] eqn:Es; [simpl|by intros []].
  case_decide as Hdone.
  { handled_transition. intros st' Ho. apply Hgo. by eapply forward_finalise. }
  apply wp_bind, wp_getC. cbn [bind_post]. simpl.
  handled_lift; [apply errorFree_correct|]. intros corrected Ec.
  apply wp_bind, wp_modC. cbn [bind_post]. simpl. apply wp_bind, wp_lift.
  destruct (getReleaseManager corrected) as [m|e|] eqn:Em; simpl;
    [|by destruct (getReleaseManager_refuses _ _ Em) as [? ->]; intros []|by intros []].
  handled_frame.
  - by eapply cond_of_ctx, law_run, getReleaseManager_laws.
  - intros r c' w' Hrun Hk. rewrite Hr at 2. apply Hgo. by eapply forward_run.
Qed.

Lemma inRolling_handled : wp doProgressingInRolling (handled true) (start, w).
Proof using Hcond Hr.
  pose proof rolling_open as Hnc.
  unfold doProgressingInRolling. apply wp_bind, wp_getC. cbn [bind_post].
  apply wp_bind. unfold getWorkload. apply wp_bind, wp_getC. cbn [bind_post]. apply wp_lift. simpl.
  handled_lift; [apply errorFree_direct|]. intros [] E1; [by apply rollbackDirectly_handled|].
  destruct (isRolloutPaused rollout) eqn:E2.
  { unfold handleRolloutPaused. handled_transition. intros st' Ho. rewrite Hr. by apply reason_rolling, roll_pause. }
  handled_lift; [apply errorFree_batches|]. intros [] E3; [by apply rollbackInBatches_handled|].
  destruct (isContinuousRelease rollout workload) eqn:E4; [by apply continuousRelease_handled|].
  handled_lift; [apply errorFree_plan|]. intros [] E5; [by apply planChanged_handled|].
  by apply normalRolling_handled.
Qed.
End in_rolling.

Lemma condFrame_doFinalising : preserves condFrame (doFinalising : MC bool).
Proof.
  unfold doFinalising. cbv zeta. solve_preserves.
  all: by eapply cond_of_ctx, law_final, getReleaseManager_laws.
Qed.

Lemma doFinalising_end c (w1 : W) c' w' :
  doFinalising (c, w1) = (Ok true, (c', w')) ->
  styleFinalStep (ctx_Rollout c) (NewStatus c') = None
  \/ styleFinalStep (ctx_Rollout c) (NewStatus c') = Some FinalisingStepTypeEnd.
Proof.
  unfold doFinalising. intros Hrun. inv_run;
    (eapply law_end; [by eapply getReleaseManager_laws|eassumption]).
Qed.

(** Both writes at the end of a finalising. *)
Lemma complete_handled c w2 waitReady why succeeded message :
  condFrame start c -> closing (Reason cond) waitReady why succeeded ->
  doFinalising (start <| WaitReady := waitReady |> <| FinalizeReason := why |>, w) = (Ok true, (c, w2)) ->
  wp (progressingStateTransition ConditionFalse ProgressingReasonCompleted message ;;
      setRolloutSucceededCondition succeeded) (handled false) (c, w2).
Proof using Hcond.
  intros [HC HP] Hr Hfin. pose proof (doFinalising_end _ _ _ _ Hfin) as Hend. simpl in HC, HP, Hend.
  assert (Hc : GetRolloutCondition (NewStatus c) RolloutConditionProgressing = Some cond)
    by (unfold GetRolloutCondition in *; by rewrite HC).
  destruct (transition_run ConditionFalse ProgressingReasonCompleted message c w2 cond Hc)
    as (st1 & Hrun & Ho1 & (d1 & Hd1 & Hr1 & Hs1) & Hother1).
  eapply wp_bind_run; [exact Hrun|]. unfold wp.
  destruct (succeeded_ok succeeded (c <| NewStatus := st1 |>) w2) as (c3 & w3 & E). rewrite E.
  intros _. simpl. apply succeeded_run in E as (st2 & -> & Ho2 & (d2 & Hd2 & Hs2) & Hother2). simpl in *.
  pose proof (onlyConditions_trans _ _ _ Ho1 Ho2) as Ho.
  destruct (onlyConditions_inv _ _ Ho) as (C1 & B1 & P1 & _).
  exists d1. rewrite Hother2 by done. split; [done|]. rewrite Hr1. split; [|split; [|split]].
  - eapply (reason_complete _ _ _ _ _ _ (Reason cond)); try eassumption.
    unfold styleFinalStep, canaryFinalStep, blueGreenFinalStep in *. by rewrite C1, B1.
  - done.
  - rewrite Hother2, Hother1 by done. unfold GetRolloutCondition. by rewrite HC.
  - rewrite P1, HP. by destruct Hr.
Qed.

Lemma finalising_handled waitReady why succeeded message :
  closing (Reason cond) waitReady why succeeded ->
  wp (progressingFinalising waitReady why succeeded message) (handled false) (start, w).
Proof using Hcond.
  intros Hr. assert (Hnc : Reason cond <> ProgressingReasonCompleted) by (by destruct Hr).
  unfold progressingFinalising. apply wp_bind, wp_modC. cbn [bind_post].
  handled_bind; [apply condFrame_doFinalising| |done].
  intros [] c2 w2 E2 HF2; [by eapply complete_handled|].
  handled_recheck. by eapply reason_finalising.
Qed.

Lemma same_initializing : preserves eq (doProgressingInitializing : MC bool).
Proof.
  unfold doProgressingInitializing, mkTR, now. cbv zeta. solve_preserves.
  by apply preserves_withTR; typeclasses eauto.
Qed.

Lemma initializing_grace c (w1 : W) c' w' cond0 :
  GetRolloutCondition (NewStatus c) RolloutConditionProgressing = Some cond0 ->
  doProgressingInitializing (c, w1) = (Ok true, (c', w')) ->
  exists wt : W, LastUpdateTime cond0 + Second * rolloutGracePeriodSeconds <= fst (clock_now wt).
Proof.
  intros Hc. unfold doProgressingInitializing. intros Hrun. inv_run.
  all: match goal with E : now (_, ?wt) = _ |- _ =>
         exists wt; unfold now, inWorld, time_Now in E; simpl in E;
         destruct (clock_now wt); simplify_eq/=; lia end.
Qed.

Lemma initializing_handled :
  Reason cond = ProgressingReasonInitializing ->
  wp (progressingInitializing workload) (handled false) (start, w).
Proof using Hcond.
  intros Hr. assert (Hnc : Reason cond <> ProgressingReasonCompleted) by (by rewrite Hr).
  unfold progressingInitializing. apply wp_bind, wp_getC. cbn [bind_post]. cbv zeta.
  apply wp_bind. unfold modStatus. apply wp_modC. cbn [bind_post]. simpl.
  handled_lift; [apply errorFree_next|]. intros next En.
  eapply wp_bind_run; [apply now_run|]. apply wp_bind, wp_modC. cbn [bind_post]. simpl.
  handled_lift; [apply errorFree_blueGreen|]. intros b Eb.
  apply wp_bind, wp_modC. cbn [bind_post]. simpl. set (c3 := mkContext _ _ _ _ _ _).
  assert (HF3 : condFrame start c3) by (by destruct b).
  assert (Hro : ctx_Rollout c3 = rollout /\ ctx_Workload c3 = Some workload) by done.
  assert (Hfresh : freshRelease rollout workload (NewStatus c3)).
  { destruct b; unfold freshRelease; eexists; (split; [reflexivity|]); simpl; split_and!; try done;
      split; try done; by intros []. }
  clearbody c3. destruct Hro as [Hro Hwo].
  assert (Hc3 : GetRolloutCondition (NewStatus c3) RolloutConditionProgressing = Some cond)
    by (destruct HF3 as [HF3 _]; unfold GetRolloutCondition in *; by rewrite HF3).
  handled_bind; [apply (preserves_weaken eq); [by intros ? ? ->|apply same_initializing]| |done].
  intros done c4 w4 E HF4. assert (c3 = c4) as <- by (by eapply same_initializing).
  destruct done.
  - handled_transition. intros st' Ho. rewrite Hr.
    destruct (initializing_grace _ _ _ _ _ Hc3 E) as [wt Hwt].
    eapply (reason_start _ _ _ _ _ _ c3 _ wt); try done. by apply (freshRelease_only _ _ _ _ Ho).
  - handled_recheck. rewrite Hr. by eapply reason_initialise.
Qed.

Lemma handled_recheck rolling (m : MC unit) s :
  wp m (handled rolling) s -> wp (m ;; (c <- getC ;; ret (RecheckTime c))) (handled rolling) s.
Proof. intros Hm. apply wp_bind. eapply wp_mono; [exact Hm|]. by intros [[]|e|] [c' w']. Qed.

Lemma switch_handled : wp (progressingSwitch (Reason cond) workload) (handled false) (start, w).
Proof using Hcond.
  unfold progressingSwitch. apply wp_bind, wp_getC. cbn [bind_post]. cbv zeta.
  destruct (String.eqb_spec (Reason cond) ProgressingReasonInitializing) as [E1|E1];
    [by apply handled_recheck, initializing_handled|].
  destruct (String.eqb_spec (Reason cond) ProgressingReasonInRolling) as [E2|E2].
  { apply wp_bind, wp_catch. eapply wp_mono; [by apply inRolling_handled|].
    intros [[]|e|] [c' w'] Hpost; [by intros _; apply Hpost| |by intros []].
    destruct e; simpl; try (by intros []). intros _. by apply Hpost. }
  destruct (String.eqb_spec (Reason cond) ProgressingReasonFinalising) as [E3|E3];
    [by apply handled_recheck, finalising_handled; rewrite E3; constructor|].
  destruct (String.eqb_spec (Reason cond) ProgressingReasonPaused) as [E4|E4].
  { assert (Hnc : Reason cond <> ProgressingReasonCompleted) by (by rewrite E4).
    apply handled_recheck. destruct (isRolloutPaused (ctx_Rollout start)) eqn:Ep.
    - apply wp_ret. intros _. apply (post_frame rollout workload cond w st Hcond start); [done|done|].
      rewrite E4. by apply reason_paused.
    - handled_transition. intros st' Ho. rewrite E4. by apply reason_resume. }
  destruct (String.eqb_spec (Reason cond) ProgressingReasonCancelling) as [E5|E5];
    [by apply handled_recheck, finalising_handled; rewrite E5; constructor|].
  destruct (String.eqb_spec (Reason cond) ProgressingReasonCompleted) as [E6|E6].
  { apply handled_recheck. unfold modStatus. apply wp_modC. intros _. simpl.
    apply (post_stay rollout workload cond w st Hcond); [done|by rewrite E6|].
    rewrite E6. by apply reason_completed. }
  apply wp_bind, wp_getC. cbn [bind_post]. apply wp_ret. intros _.
  apply (post_frame rollout workload cond w st Hcond start); [done|done|].
  apply reason_unknown; [|done]. repeat (apply not_elem_of_cons; split; [done|]). apply not_elem_of_nil.
Qed.
End reason_handlers.

(** ** Resets *)

Definition resetSequence : list FinalisingStepType :=
  [FinalisingStepRouteTrafficToStable; FinalisingStepReleaseWorkloadControl;
   FinalisingStepRemoveCanaryService].

Section reset.
Context {W : Type} `{Clock W} `{Api W BatchRelease} `{WorkloadClient W} `{TrafficManager W}
  `{K8sLib} `{WorkloadFilter} `{PlanHash}.
Abbreviation MC := (M (RolloutContext * W)).

(** What each step of a reset has seen when it is over. *)
Definition resetDone (t : FinalisingStepType) : Prop :=
  match t with
  | FinalisingStepRouteTrafficToStable =>
      exists tr (w : W) s', tm_RestoreGateway (tr, w) = (Ok false, s')
  | FinalisingStepReleaseWorkloadControl =>
      exists c (w : W) s', removeBatchRelease (c, w) = (Ok false, s')
  | FinalisingStepRemoveCanaryService =>
      exists tr (w : W) retry s', tm_RemoveCanaryService (tr, w) = (Ok retry, s')
  | _ => False
  end.

Abbreviation resetEdge := (finalEdge resetSequence resetDone).
Definition finalisingAt (c : RolloutContext) (f : FinalisingStepType) : Prop :=
  option_map FinalisingStep (GetSubStatus (NewStatus c)) = Some f.

(** One call on a release with traffic routings whose status is kept, that is one
    without an error. *)
Definition resetCall (f f' : FinalisingStepType) : Prop :=
  exists c (w : W) b c' w', HasTrafficRoutings (ctx_Strategy c) = Ok true
  /\ finalisingAt c f /\ doProgressingReset (c, w) = (Ok b, (c', w')) /\ finalisingAt c' f'.

Lemma modSub_final (f : CommonStatus -> CommonStatus) c (w : W) x c' w' t t' :
  modSub f (c, w) = (Ok x, (c', w')) -> finalisingAt c t ->
  (forall s, FinalisingStep s = t -> FinalisingStep (f s) = t') -> finalisingAt c' t'.
Proof.
  unfold modSub, getSub, modStatus, finalisingAt, bind, getC, lift, modC. simpl.
  destruct (GetSubStatus (NewStatus c)) as [s|] eqn:Es; simpl; [|done].
  intros [= <- <- <-] Hat Hf. simpl. rewrite getSub_modSub, Es. simpl.
  injection Hat as Hat. by rewrite (Hf s Hat).
Qed.

Lemma withTR_same {A} tr (m : M (TrafficRoutingContext * W) A) c w r c' w' :
  withTR tr m (c, w) = (r, (c', w')) -> c' = c.
Proof. intros E. symmetry. by eapply (preserves_withTR eq). Qed.

Lemma removeBatchRelease_same c (w : W) r c' w' :
  removeBatchRelease (c, w) = (r, (c', w')) -> c' = c.
Proof.
  intros E. symmetry. revert E. assert (Hp : preserves eq (removeBatchRelease : MC bool))
    by (unfold removeBatchRelease; solve_preserves). apply Hp.
Qed.

Ltac solve_reset := unfold resetSequence; repeat (apply list_elem_of_here || apply list_elem_of_further).

(** The three pieces, from the step where each stands. *)
Lemma resetCanaryService_end tr c (w : W) b c' w' :
  resetCanaryService tr (c, w) = (Ok b, (c', w')) ->
  c' = c /\ b = true /\ resetDone FinalisingStepRemoveCanaryService.
Proof.
  unfold resetCanaryService. intros Hrun. apply bind_Ok_inv in Hrun as ([tr' r] & [c1 w1] & E & Hrun).
  pose proof (withTR_same _ _ _ _ _ _ _ E) as ->. unfold withTR in E. simpl in E.
  destruct (tm_RemoveCanaryService (tr, w)) as [[retry|e|] [tr1 w2]] eqn:Et; simplify_eq/=.
  - apply ret_Ok_inv in Hrun as [-> ?]. simplify_eq. split; [done|]. split; [done|]. by do 4 eexists.
  - by inv_run.
Qed.

Lemma resetWorkloadControl_end tr c (w : W) b c' w' :
  finalisingAt c FinalisingStepReleaseWorkloadControl ->
  resetWorkloadControl tr (c, w) = (Ok b, (c', w')) ->
  exists f', finalisingAt c' f' /\ f' ∈ resetSequence
  /\ rtc resetEdge FinalisingStepReleaseWorkloadControl f'
  /\ (b = true -> f' = FinalisingStepRemoveCanaryService /\ resetDone f').
Proof.
  intros Hat Hrun. unfold resetWorkloadControl in Hrun.
  apply bind_Ok_inv in Hrun as (retry & [c1 w1] & E & Hrun).
  pose proof (removeBatchRelease_same _ _ _ _ _ E) as ->. destruct retry.
  { apply ret_Ok_inv in Hrun as [-> ?]. simplify_eq. exists FinalisingStepReleaseWorkloadControl. split_and!; [done|solve_reset|done|done]. }
  assert (Hd : resetDone FinalisingStepReleaseWorkloadControl) by by do 3 eexists.
  apply bind_Ok_inv in Hrun as (t & [c2 w2] & Et & Hrun). unfold now in Et.
  apply inWorld_inv in Et as [_ ->].
  apply bind_Ok_inv in Hrun as ([] & [c3 w3] & Em & Hrun).
  eapply (modSub_final _ _ _ _ _ _ _ FinalisingStepRemoveCanaryService) in Em; [|exact Hat|done].
  apply resetCanaryService_end in Hrun as (-> & -> & Hdone).
  exists FinalisingStepRemoveCanaryService. split_and!; [done|solve_reset| |done].
  apply rtc_once. exact (final_next _ _ FinalisingStepReleaseWorkloadControl ltac:(done) ltac:(done) Hd).
Qed.

Lemma resetGateway_end tr c (w : W) b c' w' :
  finalisingAt c FinalisingStepRouteTrafficToStable ->
  resetGateway tr (c, w) = (Ok b, (c', w')) ->
  exists f', finalisingAt c' f' /\ f' ∈ resetSequence
  /\ rtc resetEdge FinalisingStepRouteTrafficToStable f'
  /\ (b = true -> f' = FinalisingStepRemoveCanaryService /\ resetDone f').
Proof.
  intros Hat Hrun. unfold resetGateway in Hrun.
  apply bind_Ok_inv in Hrun as ([tr' r] & [c1 w1] & E & Hrun).
  pose proof (withTR_same _ _ _ _ _ _ _ E) as ->. unfold withTR in E. simpl in E.
  destruct (tm_RestoreGateway (tr, w)) as [[[]|e|] [tr1 w2]] eqn:Et; simplify_eq/=; [| |by inv_run].
  - apply bind_Ok_inv in Hrun as ([] & [c2 w3] & Em & Hrun).
    eapply (modSub_final _ _ _ _ _ _ _ FinalisingStepRouteTrafficToStable) in Em; [|exact Hat|done].
    apply ret_Ok_inv in Hrun as [-> ?]. simplify_eq. exists FinalisingStepRouteTrafficToStable. split_and!; [done|solve_reset|done|done].
  - assert (Hd : resetDone FinalisingStepRouteTrafficToStable) by by do 3 eexists.
    apply bind_Ok_inv in Hrun as (t & [c2 w3] & Ec & Hrun). unfold now in Ec.
    apply inWorld_inv in Ec as [_ ->].
    apply bind_Ok_inv in Hrun as ([] & [c3 w4] & Em & Hrun).
    eapply (modSub_final _ _ _ _ _ _ _ FinalisingStepReleaseWorkloadControl) in Em; [|exact Hat|done].
    apply resetWorkloadControl_end in Hrun as (f' & Hat' & Hin & He & Hb); [|done].
    exists f'. split_and!; [done|done| |done]. eapply rtc_l; [|exact He].
    exact (final_next _ _ FinalisingStepRouteTrafficToStable ltac:(done) ltac:(done) Hd).
Qed.

Lemma doProgressingReset_end c (w : W) b c' w' f :
  HasTrafficRoutings (ctx_Strategy c) = Ok true -> finalisingAt c f ->
  f <> FinalisingStepTypeEnd -> doProgressingReset (c, w) = (Ok b, (c', w')) ->
  exists f', finalisingAt c' f' /\ f' ∈ resetSequence /\ rtc resetEdge f f'
  /\ (b = true -> f' = FinalisingStepRemoveCanaryService /\ resetDone f').
Proof.
  intros Hhas Hat Hne. unfold doProgressingReset, bind at 1, getC at 1. simpl.
  unfold bind at 1, lift at 1. destruct (getReleaseManager _) as [m|e|]; [|done|done].
  unfold bind at 1, lift at 1. rewrite Hhas. simpl.
  assert (exists sub, GetSubStatus (NewStatus c) = Some sub /\ FinalisingStep sub = f) as (sub & -> & Ef).
  { unfold finalisingAt in Hat. destruct (GetSubStatus _) as [sub|]; [|done].
    exists sub. split; [done|]. simpl in Hat. congruence. }
  unfold bind at 1, mkTR at 1, bind at 1, getC at 1, lift at 1. simpl.
  destruct (newTrafficRoutingContext c) as [tr|e|]; [|done|done].
  assert (Hstart : forall x, bind (modSub (fun s => s <| FinalisingStep := FinalisingStepRouteTrafficToStable |>))
       (fun _ => resetGateway tr) (c, w) = x -> x = (Ok b, (c', w')) ->
     exists f', finalisingAt c' f' /\ f' ∈ resetSequence /\ rtc resetEdge f f'
       /\ (b = true -> f' = FinalisingStepRemoveCanaryService /\ resetDone f')).
  { intros x <- Hrun. apply bind_Ok_inv in Hrun as ([] & [c1 w1] & Em & Hrun).
    eapply (modSub_final _ _ _ _ _ _ _ FinalisingStepRouteTrafficToStable) in Em; [|exact Hat|done].
    apply resetGateway_end in Hrun as (f' & Hat' & Hin & He & Hb); [|done].
    exists f'. split_and!; [done|done| |done]. eapply rtc_l; [|exact He]. by apply (final_start resetSequence). }
  destruct (FinalisingStep sub) eqn:Es; subst f; try (intros Hrun; by eapply Hstart).
  - by apply resetGateway_end.
  - intros Hrun. apply resetCanaryService_end in Hrun as (-> & -> & Hd).
    exists FinalisingStepRemoveCanaryService. split_and!; [done|solve_reset|done|done].
  - by apply resetWorkloadControl_end.
Qed.

Lemma resetCalls_edges f f' :
  rtc resetCall f f' -> f <> FinalisingStepTypeEnd ->
  rtc resetEdge f f' /\ f' <> FinalisingStepTypeEnd.
Proof.
  induction 1 as [f|f f1 f' Hcall _ IH]; [done|]. intros Hne.
  destruct Hcall as (c & w & b & c' & w' & Hhas & Hat & Hrun & Hat').
  destruct (doProgressingReset_end _ _ _ _ _ _ Hhas Hat Hne Hrun) as (f2 & Hat2 & Hin & He & _).
  assert (f2 = f1) as -> by (unfold finalisingAt in *; congruence).
  destruct IH as [He' Hne']; [by intros ->; unfold resetSequence in Hin; set_solver|].
  split; [by etransitivity|done].
Qed.

Lemma resetSequence_ok :
  NoDup resetSequence /\ (FinalisingStepTypeEnd ∉ resetSequence) /\ resetSequence <> []
  /\ FinalisingStepNone ∉ resetSequence.
Proof. split_and!; try done; apply (bool_decide_unpack _); vm_compute; exact I. Qed.
End reset.

(** ** The step after a plan change *)

Section search.
Context `{K8sLib}.
Variables (steps : list CanaryStep) (replicas current : Z).

(** Step [i], counted from 0, allows for the current replicas. *)
Definition suffices (i : nat) : Prop :=
  exists step, steps !! i = Some step /\ current <= scaled (Replicas step) replicas.

(** The first index of [order] whose step suffices, else the last of them. *)
Lemma searchStep_first order acc :
  Forall (fun i => (i < length steps)%nat) order -> len steps < 2 ^ 31 ->
  (exists pre i post, order = pre ++ i :: post /\ suffices i /\ Forall (fun j => ~ suffices j) pre
     /\ searchStep steps replicas current order acc = Ok (Z.of_nat i + 1))%list
  \/ (Forall (fun j => ~ suffices j) order
      /\ searchStep steps replicas current order acc
         = Ok (default acc (option_map (fun i => Z.of_nat i + 1) (last order)))).
Proof.
  intros Hin Hlen. revert acc. induction order as [|i order IH]; intros acc; [by right|].
  apply Forall_cons in Hin as [Hi Hin]. simpl.
  destruct (lookup_lt_is_Some_2 steps i Hi) as [step Hs]. rewrite Hs. simpl.
  unfold len in Hlen. rewrite wrap32_id by (unfold in32; lia).
  destruct (decide (current <= scaled (Replicas step) replicas)) as [Hle|Hle].
  { left. exists [], i, order. split_and!; [done|by exists step|done|done]. }
  assert (Hno : ~ suffices i) by (intros (s & ? & ?); by simplify_eq).
  destruct (IH Hin (Z.of_nat i + 1)) as [(pre & j & post & -> & Hj & Hpre & ->)|[Hall ->]].
  - left. exists (i :: pre), j, post. split_and!; [done|done|by constructor|done].
  - right. split; [by constructor|]. destruct order as [|k order]; [done|].
    f_equal. change (last (i :: k :: order)) with (last (k :: order)).
    destruct (last (k :: order)) eqn:E; [done|]. by apply last_None in E.
Qed.

Lemma stepOrder_elem cur n i : i ∈ stepOrder cur n <-> (i < n)%nat.
Proof.
  unfold stepOrder. rewrite elem_of_app, list_elem_of_filter, elem_of_seq. case_decide as Hc.
  - rewrite list_elem_of_singleton. split; [lia|]. intros. destruct (decide (i = Z.to_nat cur)); [by left|right; lia].
  - rewrite elem_of_nil. split; [lia|]. intros. right. lia.
Qed.

Lemma filter_seq_ordered (P : nat -> Prop) `{!forall i, Decision (P i)} n a pre i post :
  filter P (seq a n) = (pre ++ i :: post)%list -> Forall (fun j => (i < j)%nat) post.
Proof.
  revert a pre. induction n as [|n IH]; intros a pre; simpl; [by destruct pre|].
  rewrite filter_cons. case_decide; [|apply IH].
  destruct pre as [|x pre]; simpl; intros E; simplify_eq.
  - apply Forall_forall. intros j [_ Hj%elem_of_seq]%list_elem_of_filter. lia.
  - by eapply IH.
Qed.

(** The step the loop settles on, counted from 1. *)
Definition settlesOn (cur r : Z) : Prop :=
  1 <= r <= len steps
  /\ (suffices (Z.to_nat (r - 1)) \/ forall j, ~ suffices j)
  /\ (0 <= cur -> suffices (Z.to_nat cur) -> r = cur + 1)
  /\ (forall j, suffices j -> ~ (0 <= cur /\ suffices (Z.to_nat cur)) -> r <= Z.of_nat j + 1).

Lemma searchStep_settles cur :
  steps <> [] -> len steps < 2 ^ 31 ->
  exists r, searchStep steps replicas current (stepOrder cur (length steps)) 0 = Ok r
  /\ settlesOn cur r.
Proof.
  intros Hne Hlen.
  assert (Hlt : forall j, suffices j -> (j < length steps)%nat)
    by (intros j (s & Hs & _); by eapply lookup_lt_Some).
  assert (Hin : forall j, (j < length steps)%nat <-> j ∈ stepOrder cur (length steps))
    by (intros j; by rewrite stepOrder_elem).
  destruct (searchStep_first (stepOrder cur (length steps)) 0) as
    [(pre & i & post & Eo & Hi & Hpre & ->)|[Hall ->]];
    [apply Forall_forall; intros j; apply Hin|done|..].
  - exists (Z.of_nat i + 1). split; [done|]. pose proof (Hlt i Hi). unfold settlesOn, len.
    split; [lia|]. split; [left; by replace (Z.to_nat (Z.of_nat i + 1 - 1)) with i by lia|].
    rewrite Forall_forall in Hpre. unfold stepOrder in Eo. split.
    + intros Hc0 Hc. pose proof (Hlt _ Hc). rewrite decide_True in Eo by lia.
      destruct pre as [|x pre]; simpl in Eo; injection Eo as Ex Eo; [lia|].
      exfalso. apply (Hpre x); [by left|]. by rewrite <- Ex.
    + intros j Hj Hno. destruct (decide (Z.of_nat j < Z.of_nat i)) as [Hji|]; [|lia]. exfalso.
      assert (j ∈ pre \/ j ∈ post) as [Hjp|Hjp]; [|by eapply Hpre|].
      { pose proof (proj1 (Hin j) (Hlt j Hj)) as Hj'. unfold stepOrder in Hj'. rewrite Eo in Hj'.
        apply elem_of_app in Hj' as [?|[->|?]%elem_of_cons]; [by left|lia|by right]. }
      assert (Hp : Forall (fun k => (i < k)%nat) post); [|rewrite Forall_forall in Hp; specialize (Hp j Hjp); lia].
      case_decide as Hcur; [|by eapply filter_seq_ordered].
      destruct pre as [|x pre]; simpl in Eo; injection Eo as Ex Eo; [|by eapply filter_seq_ordered].
      exfalso. apply Hno. split; [lia|]. by rewrite Ex.
  - rewrite Forall_forall in Hall.
    assert (Hnone : forall j, ~ suffices j) by (intros j Hj; apply (Hall j); [apply Hin; auto|done]).
    destruct (last (stepOrder cur (length steps))) as [k|] eqn:El.
    + exists (Z.of_nat k + 1). split; [done|].
      assert (k < length steps)%nat by (apply Hin, list_elem_of_lookup; eexists; by rewrite <- last_lookup).
      unfold settlesOn, len. split; [lia|]. split; [by right|].
      split; intros; exfalso; by eapply Hnone.
    + apply last_None in El. exfalso. destruct steps as [|x l]; [done|].
      pose proof (proj1 (Hin 0%nat)) as Hz. rewrite El in Hz. simpl in Hz.
      apply (not_elem_of_nil 0%nat), Hz. lia.
Qed.
End search.

(** ** Properties *)

Section progressing_properties.
Context {W : Type} `{Clock W} `{Api W BatchRelease} `{Api W TrafficRouting} `{WorkloadClient W}
  `{WorkloadFinder W} `{TrafficManager W} `{Retry W} `{K8sLib} `{WorkloadFilter} `{PlanHash}.

(** C3. The reasons of the Progressing condition.  A reconciliation of the progressing
    phase that returns a status either found no workload with a consistent status,
    and returns what it was given, or follows one edge of the reason machine, and each
    edge, also one that stays in its reason, says which case applied and what was done
    in it.  A new release stands at its first step and starts only after the grace
    period, when its initialisation reports that it is done.  A rolling release is
    cancelled, with the revision rolled back to recorded, exactly for a direct
    rollback; else it is paused if the user asks for it; else a rollback in batches
    restarts it at its first step; else a new revision is refused for blue-green, and
    for a canary the previous release is reset: it stays in its reason until the reset
    reports that it is done, and only then is the sub status cleared and the release
    initialised again; else a changed plan is searched for the step to go on with and
    its hash is recorded; else it is finalised if its last step is complete, and one
    pass of its release manager is run if not.  Finalising and cancelling run the
    finalisation, stay until it reports that it is done, complete only with the release
    manager at the end of its sequence, and record success or failure accordingly.  A
    paused release stays while it is paused.  What an operation of a case leaves in
    the status is kept, also when it ends in a bad request; the transitions write
    conditions and message only; the phase leaves Progressing only from Completed; the
    Terminating condition is never touched. *)
Theorem reconcileRolloutProgressing_reasons (rollout : Rollout) (st : RolloutStatus)
    (cond : RolloutCondition) (w : W) recheck rollout' st' w'
    (Hcur : GetRolloutCondition (ro_Status rollout) RolloutConditionProgressing = Some cond)
    (Hnew : GetRolloutCondition st RolloutConditionProgressing = Some cond)
    (Hrun : reconcileRolloutProgressing rollout st w = (Ok (recheck, rollout', st'), w')) :
  exists found w1, GetWorkloadForRef rollout w = (Ok found, w1)
  /\ match found with
     | Some workload =>
         if IsStatusConsistent workload
         then reasonPost rollout workload cond w1 st st'
         else (recheck, rollout', st') = (None, rollout, st)
     | None => (recheck, rollout', st') = (None, rollout, st)
     end.
Proof.
  unfold reconcileRolloutProgressing in Hrun.
  apply bind_Ok_inv in Hrun as (found & w1 & Hf & Hrun). exists found, w1. split; [done|].
  destruct found as [workload|]; [|by apply ret_Ok_inv in Hrun as [-> _]].
  destruct (IsStatusConsistent workload); simpl in Hrun; [|by apply ret_Ok_inv in Hrun as [-> _]].
  apply bind_Ok_inv in Hrun as (cond' & w2 & Hd & Hrun).
  unfold lift in Hd. injection Hd as Hd <-. apply deref_Ok in Hd.
  assert (cond' = cond) as -> by congruence.
  pose proof (switch_handled rollout workload cond w1 st Hnew) as Hwp. unfold wp in Hwp.
  destruct (progressingSwitch (Reason cond) workload _) as [[a|e|] [c' w3]]; try done.
  injection Hrun as <- <- <- <-. by apply Hwp.
Qed.

(** C9. Resets.  Before a continuous release the previous one is taken down in three
    steps.  Take any number of calls of [doProgressingReset], each in whatever
    context with traffic routings, each continuing from the finalising step the
    previous one left: when a step is current every step before it has reported that
    nothing is left to do (the gateway is restored before the BatchRelease is
    removed, and that before the canary Service), and a call reports completion
    only when all three have. *)
Theorem doProgressingReset_order (f : FinalisingStepType)
    (Hcalls : rtc (resetCall (W := W)) FinalisingStepNone f) :
  (forall k j t, resetSequence !! k = Some f -> (j < k)%nat -> resetSequence !! j = Some t ->
     resetDone (W := W) t)
  /\ forall c (w : W) c' w', HasTrafficRoutings (ctx_Strategy c) = Ok true -> finalisingAt c f ->
       doProgressingReset (c, w) = (Ok true, (c', w')) ->
       forall t, t ∈ resetSequence -> resetDone (W := W) t.
Proof.
  destruct resetSequence_ok as (Hnd & Hend & Hne & Hnone).
  destruct (resetCalls_edges _ _ Hcalls ltac:(done)) as [He Hf].
  pose proof (finalEdges_inv resetSequence resetDone Hnd Hend Hne _ _ He
    (onSequence_start resetSequence resetDone Hnone)) as Hinv.
  split; [intros k j t Hk Hj; by eapply (proj2 (proj2 Hinv))|].
  intros c w c' w' Hhas Hat Hrun t Ht.
  destruct (doProgressingReset_end _ _ _ _ _ _ Hhas Hat Hf Hrun) as (f' & _ & _ & He' & Hb).
  destruct (Hb eq_refl) as [-> Hlast].
  pose proof (finalEdges_inv resetSequence resetDone Hnd Hend Hne _ _ He' Hinv) as [_ [_ Hall]].
  apply list_elem_of_lookup_1 in Ht as [j Hj]. destruct (decide (j = 2%nat)) as [->|].
  { injection Hj as <-. exact Hlast. }
  apply (Hall 2%nat eq_refl j t); [|done]. apply lookup_lt_Some in Hj. simpl in Hj. lia.
Qed.

(** The step after a plan change.  Without a BatchRelease the release starts over at
    step 1.  Otherwise the step chosen is one of the new plan; it allows for the
    replicas the current batch has already updated whenever any step does; it is the
    current step if that one does, else the first step that does. *)
Theorem recalculateCanaryStep_spec (c : RolloutContext) (w : W) (steps : list CanaryStep) r s'
    (Hsteps : GetSteps (ctx_Strategy c) = Ok steps) (Hne : steps <> []) (Hlen : len steps < 2 ^ 31)
    (Hrun : recalculateCanaryStep (c, w) = (Ok r, s')) :
  match fst (api_Get (O := BatchRelease) (ctx_Key c) w) with
  | Ok batch => exists sub workload p current,
      GetSubStatus (NewStatus c) = Some sub /\ ctx_Workload c = Some workload
      /\ BatchPartition (br_Plan batch) = Some p
      /\ go_index (Batches (br_Plan batch)) p = Ok current
      /\ settlesOn steps (wl_Replicas workload)
           (scaled (Some (batch_CanaryReplicas current)) (wl_Replicas workload))
           (wrap32 (CurrentStepIndex sub - 1)) r
  | Err e => e = ErrNotFound /\ r = 1
  | Panic => False
  end.
Proof.
  destruct s' as [c' w']. unfold recalculateCanaryStep, fetchBatchRelease in Hrun.
  unfold bind at 1, getC at 1 in Hrun. simpl in Hrun. unfold bind at 1, lift at 1 in Hrun.
  destruct (getReleaseManager _) as [m|e|]; [|done|done].
  unfold bind at 1, catch, inWorld in Hrun. simpl in Hrun.
  destruct (api_Get (ctx_Key c) w) as [[batch|e|] w1]; [| |done]; simpl.
  - unfold getWorkload, getSub in Hrun. inv_run. rewrite Hsteps in *. simplify_eq.
    match goal with E : searchStep ?l ?n ?cur (stepOrder ?i _) _ = Ok _ |- _ =>
      destruct (searchStep_settles l n cur i Hne Hlen) as (r' & Hr & Hset) end.
    assert (r' = r) as -> by congruence. do 4 eexists. split_and!; eassumption.
  - destruct e; simpl in Hrun; try done. apply ret_Ok_inv in Hrun as [-> _]. done.
Qed.
End progressing_properties.
