(* ===== verification/RolloutControllerProofs.v ===== *)
(** * The rollout controller: properties

    The phases of a rollout, the hash of its strategy, and the order in which a
    deletion finalises and releases it. *)

From S2P Require Export RolloutController ProgressingProofs.

(** ** The phase of a rollout that is not being deleted *)

Section phase.
Variables (disabled progressing : bool).

(** A rollout that was disabled: a working one is finalised first. *)
Definition phaseWhenDisabled (p : RolloutPhase) : RolloutPhase :=
  if disabled then
    match p with
    | RolloutPhaseDisabled | RolloutPhaseDisabling => p
    | RolloutPhaseProgressing => RolloutPhaseDisabling
    | _ => RolloutPhaseDisabled
    end
  else p.

(** The next phase, given whether the workload is in a rollout. *)
Definition nextPhase (p : RolloutPhase) : RolloutPhase :=
  match phaseWhenDisabled p with
  | RolloutPhaseNone | RolloutPhaseInitial => RolloutPhaseHealthy
  | RolloutPhaseHealthy => if progressing then RolloutPhaseProgressing else RolloutPhaseHealthy
  | RolloutPhaseDisabled => if disabled then RolloutPhaseDisabled else RolloutPhaseHealthy
  | p' => p'
  end.

(** A rollout whose workload is missing. *)
Definition missingPhase (p : RolloutPhase) : RolloutPhase :=
  if disabled then phaseWhenDisabled p else RolloutPhaseInitial.
End phase.

Section status_lemmas.
Context {W : Type} `{Clock W} `{Api W Rollout} `{WorkloadFinder W} `{K8sLib} `{StrategyHash}.

Lemma disablePhase_spec disabled st :
  Phase (disablePhase disabled st) = phaseWhenDisabled disabled (Phase st)
  /\ ((disablePhase disabled st) <| Phase := Phase st |> <| Message := Message st |>) = st.
Proof.
  unfold disablePhase, phaseWhenDisabled. destruct disabled; [|by destruct st].
  destruct st as [? ? ? ? p]; destruct p; vm_compute; done.
Qed.

Lemma observeWorkload_rest workload st :
  Phase (observeWorkload workload st) = Phase st
  /\ Conditions (observeWorkload workload st) = Conditions st
  /\ ObservedGeneration (observeWorkload workload st) = ObservedGeneration st.
Proof.
  unfold observeWorkload, modSubStatus.
  destruct st as [? [] []]; simpl; repeat case_match; done.
Qed.

Lemma calculateRolloutHash_keeps rollout (w : W) rollout' w' :
  calculateRolloutHash rollout w = (Ok rollout', w') ->
  ro_Status rollout' = ro_Status rollout /\ ro_Spec rollout' = ro_Spec rollout
  /\ deleting (ro_Meta rollout') = deleting (ro_Meta rollout)
  /\ Generation (ro_Meta rollout') = Generation (ro_Meta rollout)
  /\ keyOf (ro_Meta rollout') = keyOf (ro_Meta rollout).
Proof. unfold calculateRolloutHash. intros Hrun. by inv_run. Qed.

(** The switch on the phase and, when a release begins, sets up
    its condition. *)
Definition beginsRelease (st' : RolloutStatus) : Prop :=
  (exists d, GetRolloutCondition st' RolloutConditionProgressing = Some d
     /\ Reason d = ProgressingReasonInitializing /\ cond_Status d = ConditionTrue)
  /\ GetRolloutCondition st' RolloutConditionSucceeded = None.

Lemma NewRolloutCondition_run t status reason msg (w : W) cond w' :
  NewRolloutCondition t status reason msg w = (Ok cond, w') ->
  condMeaning cond = (t, status, reason, msg).
Proof. unfold NewRolloutCondition. intros Hrun. by inv_run. Qed.

Lemma SetRolloutCondition_keeps st cond :
  let st' := fst (SetRolloutCondition st cond) in
  Phase st' = Phase st /\ GetSubStatus st' = GetSubStatus st
  /\ ObservedGeneration st' = ObservedGeneration st.
Proof.
  intros st'. pose proof (SetRolloutCondition_rest st cond) as E. fold st' in E.
  rewrite <- E. split_and!; by destruct st'.
Qed.

Lemma beginRelease_spec st cond :
  condMeaning cond = (RolloutConditionProgressing, ConditionTrue, ProgressingReasonInitializing,
                      "Rollout is in Progressing"%string) ->
  let st' := RemoveRolloutCondition
    (fst (SetRolloutCondition (st <| Phase := RolloutPhaseProgressing |>) cond))
    RolloutConditionSucceeded in
  Phase st' = RolloutPhaseProgressing /\ beginsRelease st' /\ GetSubStatus st' = GetSubStatus st
  /\ ObservedGeneration st' = ObservedGeneration st.
Proof.
  intros Hm st'. unfold st', RemoveRolloutCondition. set (st0 := st <| Phase := _ |>).
  destruct (SetRolloutCondition_keeps st0 cond) as (HP & HS & HG).
  split; [exact HP|]. split; [|by split].
  unfold beginsRelease, GetRolloutCondition. simpl. split; [|apply find_filterOut_same].
  destruct (SetRolloutCondition_same st0 cond) as (d & Hd & Hdm & _).
  assert (Type_ cond = RolloutConditionProgressing) as Ht by (unfold condMeaning in Hm; congruence).
  rewrite Ht in Hd. exists d. rewrite find_filterOut_other by done. split; [exact Hd|].
  unfold condMeaning in *. split; congruence.
Qed.

Lemma phaseStatus_spec rollout workload st (w : W) st' w' :
  phaseStatus rollout workload st w = (Ok st', w') ->
  Phase st' = match Phase st with
              | RolloutPhaseInitial => RolloutPhaseHealthy
              | RolloutPhaseHealthy =>
                  if InRolloutProgressing workload then RolloutPhaseProgressing else RolloutPhaseHealthy
              | RolloutPhaseDisabled =>
                  if Disabled (ro_Spec rollout) then RolloutPhaseDisabled else RolloutPhaseHealthy
              | p => p
              end
  /\ (if decide (Phase st' = RolloutPhaseProgressing /\ Phase st <> RolloutPhaseProgressing)
      then beginsRelease st' else Conditions st' = Conditions st)
  /\ (forall sub, GetSubStatus st = Some sub -> GetSubStatus st' = Some sub)
  /\ ObservedGeneration st' = ObservedGeneration st.
Proof.
  unfold phaseStatus. intros Hrun. destruct (Phase st) eqn:E; inv_run.
  all: try (match goal with Hn : NewRolloutCondition _ _ _ _ _ = _ |- _ =>
      apply NewRolloutCondition_run in Hn; destruct (beginRelease_spec st _ Hn) as (HP & Hb & HS & HG) end;
    rewrite HP, HS, HG; split; [done|]; rewrite decide_True by done; by split).
  all: try match goal with |- context [setSubStatus ?b _ _ _] => destruct b end.
  all: split; [try exact E; done|]; rewrite decide_False by (simpl; rewrite ?E; intros [? ?]; congruence).
  all: split; [done|]; split; [|done]; intros sub Hs; try done.
  all: unfold IsSubStatusEmpty, GetSubStatus in *; by destruct st as [? [] []].
Qed.
End status_lemmas.

(** The phase before the workload is looked at. *)
Definition startPhase (disabled : bool) (p : RolloutPhase) : RolloutPhase :=
  match phaseWhenDisabled disabled p with RolloutPhaseNone => RolloutPhaseInitial | p' => p' end.

Lemma startStatus_spec disabled st :
  let st1 := disablePhase disabled st in
  let st2 := if decide (Phase st1 = RolloutPhaseNone) then st1 <| Phase := RolloutPhaseInitial |> else st1 in
  Phase st2 = startPhase disabled (Phase st) /\ Conditions st2 = Conditions st
  /\ ObservedGeneration st2 = ObservedGeneration st.
Proof.
  intros st1. destruct (disablePhase_spec disabled st) as [HP Hrest]. fold st1 in HP, Hrest.
  unfold startPhase. rewrite <- HP, <- Hrest.
  case_decide as E; simpl; [by rewrite E|]. split; [by destruct (Phase st1)|done].
Qed.

(** ** Strategies that differ in what the hash leaves out *)

Definition sameStep (s1 s2 : CanaryStep) : Prop :=
  StepTraffic s1 = StepTraffic s2 /\ Replicas s1 = Replicas s2.

(** The same plan up to pauses, the failure threshold and the paused switch. *)
Definition sameStrategy (r1 r2 : RolloutStrategy) : Prop :=
  match Canary r1, Canary r2 with
  | Some c1, Some c2 => Forall2 sameStep (cn_Steps c1) (cn_Steps c2)
      /\ (c2 <| cn_Steps := cn_Steps c1 |> <| cn_FailureThreshold := cn_FailureThreshold c1 |>) = c1
  | None, None => True
  | _, _ => False
  end
  /\ match BlueGreen r1, BlueGreen r2 with
     | Some b1, Some b2 => Forall2 sameStep (bg_Steps b1) (bg_Steps b2)
         /\ (b2 <| bg_Steps := bg_Steps b1 |> <| bg_FailureThreshold := bg_FailureThreshold b1 |>) = b1
     | None, None => True
     | _, _ => False
     end.

Lemma hashedSteps_same l1 l2 : Forall2 sameStep l1 l2 -> hashedSteps l1 = hashedSteps l2.
Proof.
  unfold hashedSteps. induction 1 as [|[] [] ? ? [Ht Hr] _ IH]; simpl in *; [done|]. by rewrite Ht, Hr, IH.
Qed.

(** ** Properties *)

Section controller_properties.
Context {W : Type} `{Clock W} `{Api W Rollout} `{Api W BatchRelease} `{Api W TrafficRouting}
  `{WorkloadClient W} `{WorkloadFinder W} `{TrafficManager W} `{Retry W} `{Watcher W}
  `{K8sLib} `{WorkloadFilter} `{PlanHash} `{StrategyHash}.

(** The phases of a rollout.  A new status observes the current generation.  A rollout
    that is being deleted is Terminating, with its condition set once.  Otherwise the
    phase is the next one for what was observed: a disabled rollout goes to Disabling
    when it was Progressing and else to Disabled; a missing workload resets the whole
    status unless the rollout is disabled; Progressing is entered only from Healthy,
    when the workload is in a rollout, and then with a fresh Initializing condition and
    without a Succeeded one; on every other way the conditions are kept. *)
Theorem calculateRolloutStatus_phase (rollout0 : Rollout) (w : W) rollout st' w'
    (Hrun : calculateRolloutStatus rollout0 w = (Ok (rollout, Some st'), w')) :
  let st := ro_Status rollout0 in
  let disabled := Disabled (ro_Spec rollout0) in
  ObservedGeneration st' = Generation (ro_Meta rollout0)
  /\ if deleting (ro_Meta rollout0) then
       Phase st' = RolloutPhaseTerminating
       /\ (if decide (Phase st = RolloutPhaseTerminating) then Conditions st' = Conditions st
           else exists d, GetRolloutCondition st' RolloutConditionTerminating = Some d
                  /\ Reason d = TerminatingReasonInTerminating)
     else exists w1 found w2, calculateRolloutHash rollout0 w = (Ok rollout, w1)
       /\ GetWorkloadForRef rollout w1 = (Ok found, w2)
       /\ match found with
          | None => Phase st' = missingPhase disabled (Phase st)
                    /\ (disabled = false -> GetSubStatus st' = None /\ Conditions st' = [])
          | Some workload => IsStatusConsistent workload = true
              /\ Phase st' = nextPhase disabled (InRolloutProgressing workload) (Phase st)
              /\ (if decide (Phase st' = RolloutPhaseProgressing /\ Phase st <> RolloutPhaseProgressing)
                  then beginsRelease st' else Conditions st' = Conditions st)
          end.
Proof.
  intros st disabled. unfold calculateRolloutStatus in Hrun.
  apply bind_Ok_inv in Hrun as (r & w1 & Hh & Hrun).
  destruct (calculateRolloutHash_keeps _ _ _ _ Hh) as (E1 & E2 & E3 & E4 & _).
  cbv zeta in Hrun. rewrite E3, E1, E4, E2 in Hrun. fold st disabled in Hrun.
  destruct (deleting (ro_Meta rollout0)).
  { case_decide as Hp; simpl in Hp.
    - apply ret_Ok_inv in Hrun as [[= -> ->] ->]. by rewrite decide_True.
    - inv_run. apply NewRolloutCondition_run in Hm.
      match goal with |- context [SetRolloutCondition ?s ?c] =>
        destruct (SetRolloutCondition_same s c) as (d & Hd & Hdm & _);
        pose proof (SetRolloutCondition_rest s c) as Hrest end.
      pose proof (f_equal ObservedGeneration Hrest) as Hg.
      pose proof (f_equal Phase Hrest) as HP. rewrite decide_False by done.
      split; [exact Hg|]. split; [exact HP|]. exists d. unfold condMeaning in *.
      assert (Type_ a = RolloutConditionTerminating) as <- by congruence.
      split; [exact Hd|congruence]. }
  set (st0 := st <| ObservedGeneration := _ |>) in Hrun.
  destruct (startStatus_spec disabled st0) as (HP2 & HC2 & HG2). simpl in HP2, HC2, HG2.
  set (st2 := if decide _ then _ else _) in Hrun, HP2, HC2, HG2. clearbody st2.
  apply bind_Ok_inv in Hrun as (found & w2 & Hf & Hrun). destruct found as [workload|].
  - destruct (IsStatusConsistent workload) eqn:Ec; simpl in Hrun; [|by inv_run].
    apply bind_Ok_inv in Hrun as (st3 & w3 & Hp & Hrun).
    apply ret_Ok_inv in Hrun as [[= <- <-] _].
    destruct (observeWorkload_rest workload st2) as (OP & OC & OG).
    apply phaseStatus_spec in Hp as (HP & HC & _ & HG). rewrite OP in HP, HC. rewrite OC in HC.
    split; [congruence|]. eexists _, _, _. split; [exact Hh|]. split; [exact Hf|]. split; [done|].
    assert (HN : Phase st' = nextPhase disabled (InRolloutProgressing workload) (Phase st)).
    { rewrite HP, HP2, E2. fold disabled. unfold nextPhase, startPhase.
      by destruct (phaseWhenDisabled disabled (Phase st)). }
    split; [done|]. rewrite <- HC2.
    assert (Heq : Phase st' = RolloutPhaseProgressing ->
              (Phase st2 = RolloutPhaseProgressing <-> Phase st = RolloutPhaseProgressing)).
    { rewrite HN, HP2. unfold nextPhase, startPhase, phaseWhenDisabled.
      destruct disabled, (Phase st); simpl; try done; by destruct (InRolloutProgressing workload). }
    repeat case_decide; naive_solver.
  - apply ret_Ok_inv in Hrun as [[= <- ->] _]. split.
    { by destruct disabled. }
    eexists _, None, _. split; [exact Hh|]. split; [exact Hf|]. unfold missingPhase.
    destruct disabled; simpl; [|done]. split; [|done].
    rewrite HP2. unfold startPhase, phaseWhenDisabled. by destruct (Phase st).
Qed.

(** The rollout hash.  It does not depend on pauses, on the failure threshold or
    on the paused switch, so changing them does not recalculate the step of a running
    release; and once written it is stable: the rollout that [calculateRolloutHash]
    hands on carries exactly that hash, and a second call finds it up to date and makes
    no API call. *)
Theorem rolloutHash_stable :
  (forall r1 r2, sameStrategy r1 r2 -> rolloutHash r1 = rolloutHash r2)
  /\ forall (rollout : Rollout) (w : W),
       match calculateRolloutHash rollout w with
       | (Ok rollout', _) => exists h, rolloutHash (ro_Strategy rollout) = Ok h
           /\ annotation (ro_Meta rollout') RolloutHashAnnotation = h
           /\ (forall k, k <> RolloutHashAnnotation ->
                 annotation (ro_Meta rollout') k = annotation (ro_Meta rollout) k)
           /\ forall w2, calculateRolloutHash rollout' w2 = (Ok rollout', w2)
       | _ => True
       end.
Proof.
  split.
  - intros [p1 c1 b1] [p2 c2 b2] [Hc Hb]. simpl in *.
    unfold rolloutHash, IsCanaryStragegy, IsBlueGreenRelease, GetRollingStyle. simpl.
    destruct b1 as [b1|], b2 as [b2|]; try done; simpl.
    { destruct Hb as [Hs Hb]. rewrite <- Hb. simpl. by rewrite (hashedSteps_same _ _ Hs). }
    destruct c1 as [c1|], c2 as [c2|]; try done; simpl. destruct Hc as [Hs Hc].
    rewrite <- Hc. simpl. destruct (cn_EnableExtraWorkloadForCanary c2); simpl;
      by rewrite (hashedSteps_same _ _ Hs).
  - intros rollout w. unfold calculateRolloutHash, bind, lift.
    destruct (rolloutHash (ro_Strategy rollout)) as [h|e|] eqn:Eh; [|done|done].
    destruct (String.eqb_spec (annotation (ro_Meta rollout) RolloutHashAnnotation) h) as [Ea|Ea]; simpl.
    { exists h. split_and!; try done. intros w2. rewrite Eh, Ea. by rewrite String.eqb_refl. }
    assert (Hk : forall k, annotation (setAnnotation RolloutHashAnnotation h (ro_Meta rollout)) k
        = if decide (k = RolloutHashAnnotation) then h else annotation (ro_Meta rollout) k).
    { intros k. unfold annotation, setAnnotation, mapget. simpl.
      case_decide as Hk; [subst k; by rewrite lookup_insert|by rewrite lookup_insert_ne]. }
    set (m' := setAnnotation _ _ _) in *. clearbody m'.
    destruct (api_Patch _ _ w) as [[[]|e|] w1]; simpl; [|done|done].
    exists h. split; [done|]. split; [by rewrite Hk, decide_True|]. split.
    + intros k Hne. by rewrite Hk, decide_False.
    + intros w2. unfold ro_Strategy in *. simpl. rewrite Eh.
      rewrite Hk, decide_True by done. by rewrite String.eqb_refl.
Qed.

(** C6. Deletion is safe.  As long as the Terminating condition of a rollout that is
    being deleted is not Completed, the finalizer handler does nothing at all; and the
    terminating phase completes the condition only when the release manager has reached
    the end of its finalising sequence (or no release ever began), asking to be called
    again otherwise. *)
Theorem deletion_waits_for_finalising (rollout : Rollout) (st : RolloutStatus) (w : W) cond
    (Hdel : deleting (ro_Meta rollout) = true)
    (Hcur : GetRolloutCondition (ro_Status rollout) RolloutConditionTerminating = Some cond)
    (Hnew : GetRolloutCondition st RolloutConditionTerminating = Some cond)
    (Hreason : Reason cond <> TerminatingReasonCompleted) :
  handleFinalizer rollout w = (Ok tt, w)
  /\ forall t st' w', reconcileRolloutTerminating rollout st w = (Ok (t, st'), w') ->
       exists d, GetRolloutCondition st' RolloutConditionTerminating = Some d
       /\ if String.eqb (Reason d) TerminatingReasonCompleted
          then cond_Status d = ConditionFalse
               /\ (styleFinalStep rollout st' = None
                   \/ styleFinalStep rollout st' = Some FinalisingStepTypeEnd)
          else d = cond /\ is_Some t.
Proof.
  assert (Hne : String.eqb (Reason cond) TerminatingReasonCompleted = false)
    by by apply String.eqb_neq.
  split.
  { unfold handleFinalizer. by rewrite Hdel, Hcur, Hne. }
  intros t st' w' Hrun. unfold reconcileRolloutTerminating in Hrun.
  apply bind_Ok_inv in Hrun as (cond' & w1 & Hd & Hrun). unfold lift in Hd. rewrite Hcur in Hd.
  injection Hd as <- <-. rewrite Hne in Hrun.
  apply bind_Ok_inv in Hrun as (workload & w1 & _ & Hrun).
  apply bind_Ok_inv in Hrun as ([done c] & w2 & Hfin & Hrun).
  apply ret_Ok_inv in Hrun as [[= -> ->] _].
  unfold finaliseFor in Hfin.
  destruct (bind doFinalising _ _) as [[b|e|] [c1 w3]] eqn:Efin; try done.
  injection Hfin as <- <- _. apply bind_Ok_inv in Efin as (b0 & [c2 w4] & Ed & Efin).
  pose proof (condFrame_doFinalising _ _ _ _ _ Ed) as [HC _]. simpl in HC.
  destruct b0.
  - inv_run. simpl. apply doFinalising_end in Ed. simpl in Ed.
    match goal with |- context [SetRolloutCondition ?s ?c] =>
      destruct (SetRolloutCondition_same s c) as (d & Hd & Hdm & _);
      pose proof (SetRolloutCondition_rest s c) as Hrest; set (s' := fst (SetRolloutCondition s c)) in * end.
    unfold condMeaning in Hdm. injection Hdm as Ht Hs Hr _. rewrite (findCondition_type _ _ _ Hcur) in Hd.
    exists d. split; [exact Hd|]. rewrite Hr. simpl. split; [exact Hs|].
    pose proof (f_equal CanaryStatus Hrest) as E1. pose proof (f_equal BlueGreenStatus Hrest) as E2.
    simpl in E1, E2. unfold styleFinalStep, canaryFinalStep, blueGreenFinalStep in *. by rewrite E1, E2.
  - unfold recheckLater, recheckAfter, now in Efin. inv_run. simpl. exists cond.
    unfold GetRolloutCondition. rewrite HC. split; [exact Hnew|]. rewrite Hne. by split.
Qed.
End controller_properties.
