(* ===== verification/Conversion.v ===== *)
(** * Conversion between v1alpha1 and v1beta1 (api/v1alpha1/conversion.go)

    Both directions for Rollouts and BatchReleases, and what a round trip keeps.  The
    object metadata is copied by value but its annotations are a map, which both
    objects then share: [ConvertFrom] writes into it, so it also returns the hub object
    it was given, as it is afterwards. *)

From S2P Require Export RolloutController.

(** ** Parts *)

Definition styleString (style : RollingStyleType) : string :=
  match style with
  | PartitionRollingStyle => "Partition"
  | CanaryRollingStyle => "Canary"
  | BlueGreenRollingStyle => "BlueGreen"
  | RollingStyleNone => ""
  | RollingStyleOther s => s
  end.

(** Loops over a possibly nil slice build nil from an empty one. *)
Definition copySlice {A} (l : option (list A)) : option (list A) :=
  match l with Some [] => None | _ => l end.

(** The copies of the two maps are never nil. *)
Definition patchMetaTo (p : alpha_PatchPodTemplateMetadata) : PatchPodTemplateMetadata :=
  mkPatchMeta (Some (default ∅ (a_PatchAnnotations p))) (Some (default ∅ (a_PatchLabels p))).
Definition patchMetaFrom (p : PatchPodTemplateMetadata) : alpha_PatchPodTemplateMetadata :=
  mkAlphaPatchMeta (Some (default ∅ (PatchAnnotations p))) (Some (default ∅ (PatchLabels p))).

Definition conditionTo (c : alpha_RolloutCondition) : RolloutCondition :=
  mkCondition (ac_Type c) (ac_Status c) (ac_LastUpdateTime c) (ac_LastTransitionTime c) (ac_Reason c) (ac_Message c).
Definition conditionFrom (c : RolloutCondition) : alpha_RolloutCondition :=
  mkAlphaCondition (Type_ c) (cond_Status c) (LastUpdateTime c) (LastTransitionTime c) (Reason c) (cond_Message c).

Definition canaryStatusTo (c : alpha_CanaryStatus) : CanaryStatusT := {|
  cn_Common := {|
    ObservedWorkloadGeneration := acs_ObservedWorkloadGeneration c;
    ObservedRolloutID := acs_ObservedRolloutID c;
    RolloutHash := acs_RolloutHash c;
    StableRevision := acs_StableRevision c;
    PodTemplateHash := acs_PodTemplateHash c;
    CurrentStepIndex := acs_CurrentStepIndex c;
    NextStepIndex := acs_NextStepIndex c;
    FinalisingStep := acs_FinalisingStep c;
    CurrentStepState := acs_CurrentStepState c;
    cs_Message := acs_Message c;
    cs_LastUpdateTime := acs_LastUpdateTime c
  |};
  CanaryRevision := acs_CanaryRevision c;
  CanaryReplicas := acs_CanaryReplicas c;
  CanaryReadyReplicas := acs_CanaryReadyReplicas c
|}.
Definition canaryStatusFrom (c : CanaryStatusT) : alpha_CanaryStatus :=
  let common := cn_Common c in {|
  acs_ObservedWorkloadGeneration := ObservedWorkloadGeneration common;
  acs_ObservedRolloutID := ObservedRolloutID common;
  acs_RolloutHash := RolloutHash common;
  acs_StableRevision := StableRevision common;
  acs_CanaryRevision := CanaryRevision c;
  acs_PodTemplateHash := PodTemplateHash common;
  acs_CanaryReplicas := CanaryReplicas c;
  acs_CanaryReadyReplicas := CanaryReadyReplicas c;
  acs_NextStepIndex := NextStepIndex common;
  acs_CurrentStepIndex := CurrentStepIndex common;
  acs_CurrentStepState := CurrentStepState common;
  acs_Message := cs_Message common;
  acs_LastUpdateTime := cs_LastUpdateTime common;
  acs_FinalisingStep := FinalisingStep common
|}.

(** What appending to a nil slice gives. *)
Definition appended {A} (l : list A) : option (list A) :=
  match l with [] => None | _ => Some l end.
Lemma default_appended {A} (l : list A) : default [] (appended l) = l.
Proof. by destruct l. Qed.

Definition weightString (weight : Z) : string := (itoa weight +:+ "%")%string.

Definition ConversionToV1beta1TrafficRoutingRef (src : alpha_TrafficRoutingRef) : TrafficRoutingRef :=
  mkTRRef (a_Service src) (a_GracePeriodSeconds src) (a_Ingress src) (a_Gateway src)
    (copySlice (a_CustomNetworkRefs src)).

Definition ConversionToV1alpha1TrafficRoutingRef (src : TrafficRoutingRef) : alpha_TrafficRoutingRef :=
  mkAlphaTRRef (Service src) (GracePeriodSeconds src) (Ingress src) (Gateway src)
    (copySlice (CustomNetworkRefs src)).

Definition ConversionToV1beta1TrafficRoutingStrategy (src : alpha_TrafficRoutingStrategy)
    : TrafficRoutingStrategy :=
  mkTRStrategy (option_map weightString (a_Weight src)) (a_RequestHeaderModifier src)
    (map (fun match_ => mkRouteMatch None (a_Headers match_) []) (default [] (a_Matches src))).

Definition setStyle (m : ObjectMeta) (style : RollingStyleType) : ObjectMeta :=
  m <| Annotations := Some (<[RolloutStyleAnnotation := toLower (styleString style)]>
                              (default ∅ (Annotations m))) |>.

(** ** Rollouts *)

Definition convertStepTo (step : alpha_CanaryStep) : CanaryStep :=
  mkStep (ConversionToV1beta1TrafficRoutingStrategy (a_StepTraffic step))
    (match a_Replicas step, a_Weight (a_StepTraffic step) with
     | None, Some weight => Some (FromString (weightString weight))
     | replicas, _ => replicas
     end)
    (mkPause (a_Duration (a_Pause step))).

Definition convertCanaryTo (meta : ObjectMeta) (c : alpha_CanaryStrategy) : CanaryStrategy :=
  {| cn_Steps := map convertStepTo (a_Steps c);
     cn_TrafficRoutings := map ConversionToV1beta1TrafficRoutingRef (a_TrafficRoutings c);
     cn_FailureThreshold := a_FailureThreshold c;
     cn_PatchPodTemplateMetadata := option_map patchMetaTo (a_PatchPodTemplateMetadata c);
     cn_EnableExtraWorkloadForCanary :=
       negb (EqualFold (annotation meta RolloutStyleAnnotation) (styleString PartitionRollingStyle));
     cn_TrafficRoutingRef := annotation meta TrafficRoutingAnnotation;
     cn_DisableGenerateCanaryService := false |}.

(** The status of a v1beta1 object with nothing in it. *)
Definition zeroStatus : RolloutStatus :=
  mkStatus 0 None None [] RolloutPhaseNone "" 0 (CanaryStepStateOther "").

(** A nil workload reference or canary strategy panics. *)
Definition rollout_ConvertTo (src : alpha_Rollout) : res Rollout :=
  let spec := a_Spec src in
  let st := a_Status src in
  res_bind (deref (a_WorkloadRef spec)) (fun ref =>
  res_bind (deref (a_Canary spec)) (fun canary =>
  Ok (mkRollout (a_Meta src)
        (mkSpec ref (mkStrategy (a_Paused spec) (Some (convertCanaryTo (a_Meta src) canary)) None)
           (a_Disabled spec))
        (zeroStatus <| ObservedGeneration := a_ObservedGeneration st |> <| Phase := a_Phase st |>
           <| Message := a_Message st |> <| Conditions := map conditionTo (a_Conditions st) |>
           <| CanaryStatus := option_map canaryStatusTo (a_CanaryStatus st) |>)))).

Section convert_from.
Context `{K8sLib}.

Definition ConversionToV1alpha1TrafficRoutingStrategy (src : TrafficRoutingStrategy)
    : alpha_TrafficRoutingStrategy :=
  mkAlphaTRStrategy
    (option_map (fun traffic =>
       wrap32 (fst (GetScaledValueFromIntOrPercent (Some (FromString traffic)) 100 true))) (Traffic src))
    (RequestHeaderModifier src) (appended (map (fun match_ => mkAlphaRouteMatch (Headers match_)) (Matches src))).

Definition convertStepFrom (step : CanaryStep) : alpha_CanaryStep :=
  mkAlphaStep (ConversionToV1alpha1TrafficRoutingStrategy (StepTraffic step)) (Replicas step)
    (mkAlphaPause (Duration (Pause step))).

Definition convertCanaryFrom (c : CanaryStrategy) : alpha_CanaryStrategy :=
  mkAlphaCanary (map convertStepFrom (cn_Steps c))
    (map ConversionToV1alpha1TrafficRoutingRef (cn_TrafficRoutings c)) (cn_FailureThreshold c)
    (option_map patchMetaFrom (cn_PatchPodTemplateMetadata c)) false.

(** The annotations [ConvertFrom] leaves in the metadata of both objects. *)
Definition annotateFrom (c : CanaryStrategy) (m : ObjectMeta) : ObjectMeta :=
  let m := setStyle m (if cn_EnableExtraWorkloadForCanary c then CanaryRollingStyle
                       else PartitionRollingStyle) in
  if nonempty (cn_TrafficRoutingRef c)
  then m <| Annotations := option_map (<[TrafficRoutingAnnotation := cn_TrafficRoutingRef c]>)
                             (Annotations m) |>
  else m.

(** [dst] is the object to fill; a blue-green rollout fills only its metadata.  A nil
    map is replaced by a new one, which the hub object does not share. *)
Definition rollout_ConvertFrom (dst : alpha_Rollout) (src : Rollout)
    : res (alpha_Rollout * Rollout) :=
  res_bind (IsCanaryStragegy (ro_Strategy src)) (fun canaryStyle =>
  if negb canaryStyle then Ok (mkAlphaRollout (ro_Meta src) (a_Spec dst) (a_Status dst), src) else
  res_bind (deref (Canary (ro_Strategy src))) (fun canary =>
  let meta := annotateFrom canary (ro_Meta src) in
  let src' := match Annotations (ro_Meta src) with
              | Some _ => src <| ro_Meta := meta |>
              | None => src
              end in
  let st := ro_Status src in
  Ok (mkAlphaRollout meta
        (mkAlphaSpec (Some (WorkloadRef (ro_Spec src))) (Paused (ro_Strategy src))
           (Some (convertCanaryFrom canary)) "" (Disabled (ro_Spec src)))
        (mkAlphaStatus (ObservedGeneration st) (option_map canaryStatusFrom (CanaryStatus st))
           (map conditionFrom (Conditions st)) (Phase st) (Message st)),
      src'))).
End convert_from.

(** ** BatchReleases *)

(** The rolling style is read from the annotation alone. *)
Definition annotatedStyle (m : ObjectMeta) : RollingStyleType :=
  let style := annotation m RolloutStyleAnnotation in
  if EqualFold style (styleString BlueGreenRollingStyle) then BlueGreenRollingStyle
  else if EqualFold style (styleString CanaryRollingStyle) then CanaryRollingStyle
  else if EqualFold style (styleString PartitionRollingStyle) then PartitionRollingStyle
  else RollingStyleNone.

Definition planTo (plan : alpha_ReleasePlan) (style : RollingStyleType) : ReleasePlan := {|
  Batches := map (fun batch => mkBatch (ab_CanaryReplicas batch)) (ab_Batches plan);
  BatchPartition := ab_BatchPartition plan;
  RolloutID := ab_RolloutID plan;
  FailureThreshold := ab_FailureThreshold plan;
  FinalizingPolicy := ab_FinalizingPolicy plan;
  rp_PatchPodTemplateMetadata := option_map patchMetaTo (ab_PatchPodTemplateMetadata plan);
  RollingStyle := style;
  EnableExtraWorkloadForCanary := ab_EnableExtraWorkloadForCanary plan
|}.
Definition planFrom (plan : ReleasePlan) : alpha_ReleasePlan := {|
  ab_Batches := map (fun batch => mkAlphaBatch (batch_CanaryReplicas batch)) (Batches plan);
  ab_BatchPartition := BatchPartition plan;
  ab_RolloutID := RolloutID plan;
  ab_FailureThreshold := FailureThreshold plan;
  ab_FinalizingPolicy := FinalizingPolicy plan;
  ab_PatchPodTemplateMetadata := option_map patchMetaFrom (rp_PatchPodTemplateMetadata plan);
  ab_RollingStyle := RollingStyle plan;
  ab_EnableExtraWorkloadForCanary := EnableExtraWorkloadForCanary plan
|}.

Definition releaseStatusTo (st : alpha_BatchReleaseStatus) : BatchReleaseStatus :=
  let canary := ab_CanaryStatus st in {|
  br_Conditions := map conditionTo (ab_Conditions st);
  br_CanaryStatus := mkBRCanaryStatus (ab_CurrentBatchState canary) (ab_CurrentBatch canary) (ab_BatchReadyTime canary)
    (ab_UpdatedReplicas canary) (ab_UpdatedReadyReplicas canary) (ab_NoNeedUpdateReplicas canary);
  br_StableRevision := ab_StableRevision st;
  br_UpdateRevision := ab_UpdateRevision st;
  br_ObservedGeneration := ab_ObservedGeneration st;
  br_ObservedRolloutID := ab_ObservedRolloutID st;
  ObservedWorkloadReplicas := ab_ObservedWorkloadReplicas st;
  CollisionCount := ab_CollisionCount st;
  ObservedReleasePlanHash := ab_ObservedReleasePlanHash st;
  br_Phase := ab_Phase st;
  br_Message := ""
|}.
Definition releaseStatusFrom (st : BatchReleaseStatus) : alpha_BatchReleaseStatus :=
  let canary := br_CanaryStatus st in {|
  ab_Conditions := map conditionFrom (br_Conditions st);
  ab_CanaryStatus := mkAlphaBRCanaryStatus (CurrentBatchState canary) (CurrentBatch canary) (BatchReadyTime canary)
    (br_UpdatedReplicas canary) (br_UpdatedReadyReplicas canary) (NoNeedUpdateReplicas canary);
  ab_StableRevision := br_StableRevision st;
  ab_UpdateRevision := br_UpdateRevision st;
  ab_ObservedGeneration := br_ObservedGeneration st;
  ab_ObservedRolloutID := br_ObservedRolloutID st;
  ab_ObservedWorkloadReplicas := ObservedWorkloadReplicas st;
  ab_CollisionCount := CollisionCount st;
  ab_ObservedReleasePlanHash := ObservedReleasePlanHash st;
  ab_Phase := br_Phase st
|}.

Definition batchRelease_ConvertTo (src : alpha_BatchRelease) : res BatchRelease :=
  res_bind (deref (ab_WorkloadRef (ab_Spec src))) (fun ref =>
  Ok (mkBR (ab_Meta src)
        (mkBRSpec ref (planTo (ab_ReleasePlan (ab_Spec src)) (annotatedStyle (ab_Meta src))))
        (releaseStatusTo (ab_Status src)))).

Definition batchRelease_ConvertFrom (src : BatchRelease) : alpha_BatchRelease * BatchRelease :=
  let plan := br_Plan src in
  let meta := setStyle (br_Meta src) (RollingStyle plan) in
  (mkAlphaBR meta (mkAlphaBRSpec (Some (br_WorkloadRef (br_Spec src))) (planFrom plan))
     (releaseStatusFrom (br_Status src)),
   match Annotations (br_Meta src) with Some _ => src <| br_Meta := meta |> | None => src end).

(** ** Properties *)

(** A step that v1alpha1 can express: its traffic is a whole percentage, it matches only
    headers, and it has replicas of its own when it has traffic. *)
Definition expressibleStep (step : CanaryStep) : Prop :=
  (match Traffic (StepTraffic step) with
   | Some t => (exists p, 0 <= p <= 100 /\ t = weightString p) /\ Replicas step <> None
   | None => True
   end)
  /\ Forall (fun m => Path m = None /\ QueryParams m = []) (Matches (StepTraffic step)).

Definition copiedPatch (p : option PatchPodTemplateMetadata) : Prop :=
  match p with
  | Some p => is_Some (PatchAnnotations p) /\ is_Some (PatchLabels p)
  | None => True
  end.

Definition expressibleCanary (m : ObjectMeta) (c : CanaryStrategy) : Prop :=
  Forall expressibleStep (cn_Steps c)
  /\ Forall (fun r => CustomNetworkRefs r <> Some []) (cn_TrafficRoutings c)
  /\ copiedPatch (cn_PatchPodTemplateMetadata c)
  /\ cn_DisableGenerateCanaryService c = false
  /\ (cn_TrafficRoutingRef c = ""%string -> annotation m TrafficRoutingAnnotation = ""%string).

(** What the way to v1beta1 and back makes of a v1alpha1 strategy: a step has replicas
    where it had only a weight, empty lists are nil and nil maps empty, and the flag of the
    canary Service is gone. *)
Definition normalStep (step : alpha_CanaryStep) : alpha_CanaryStep :=
  let traffic := a_StepTraffic step in
  mkAlphaStep (mkAlphaTRStrategy (a_Weight traffic) (a_RequestHeaderModifier traffic) (copySlice (a_Matches traffic)))
    (match a_Replicas step, a_Weight traffic with
     | None, Some weight => Some (FromString (weightString weight))
     | replicas, _ => replicas
     end)
    (a_Pause step).
Definition normalRef (ref : alpha_TrafficRoutingRef) : alpha_TrafficRoutingRef :=
  mkAlphaTRRef (a_Service ref) (a_GracePeriodSeconds ref) (a_Ingress ref) (a_Gateway ref)
    (copySlice (a_CustomNetworkRefs ref)).
Definition normalPatch (p : alpha_PatchPodTemplateMetadata) : alpha_PatchPodTemplateMetadata :=
  mkAlphaPatchMeta (Some (default ∅ (a_PatchAnnotations p))) (Some (default ∅ (a_PatchLabels p))).
Definition normalCanary (c : alpha_CanaryStrategy) : alpha_CanaryStrategy :=
  mkAlphaCanary (map normalStep (a_Steps c)) (map normalRef (a_TrafficRoutings c)) (a_FailureThreshold c)
    (option_map normalPatch (a_PatchPodTemplateMetadata c)) false.

(** The weight of a step is a percentage, if it has one. *)
Definition weighted (step : alpha_CanaryStep) : Prop :=
  match a_Weight (a_StepTraffic step) with Some weight => 0 <= weight <= 100 | None => True end.

Lemma patchMeta_id p : copiedPatch p -> option_map patchMetaTo (option_map patchMetaFrom p) = p.
Proof. by destruct p as [[[a|] [l|]]|]; simpl; try by intros [[? ?] [? ?]]. Qed.

Lemma conditions_id l : map conditionTo (map conditionFrom l) = l.
Proof. induction l as [|[] l IH]; simpl; [done|by rewrite IH]. Qed.

Lemma conditions_back l : map conditionFrom (map conditionTo l) = l.
Proof. induction l as [|[] l IH]; simpl; [done|by rewrite IH]. Qed.

Lemma canaryStatus_back s : option_map canaryStatusFrom (option_map canaryStatusTo s) = s.
Proof. by destruct s as [[]|]. Qed.

Lemma canaryStatus_id s : option_map canaryStatusTo (option_map canaryStatusFrom s) = s.
Proof. by destruct s as [[[]]|]. Qed.

Lemma plan_id plan :
  copiedPatch (rp_PatchPodTemplateMetadata plan) -> planTo (planFrom plan) (RollingStyle plan) = plan.
Proof.
  intros Hp. unfold planTo, planFrom. simpl. rewrite (patchMeta_id _ Hp), map_map.
  assert (map (fun batch => mkBatch (ab_CanaryReplicas (mkAlphaBatch (batch_CanaryReplicas batch)))) (Batches plan)
    = Batches plan) as -> by (induction (Batches plan) as [|[] l IH]; simpl in *; congruence).
  by destruct plan.
Qed.

Lemma releaseStatus_id st : releaseStatusTo (releaseStatusFrom st) = st <| br_Message := ""%string |>.
Proof. unfold releaseStatusTo, releaseStatusFrom. simpl. rewrite conditions_id. by destruct st as [? []]. Qed.

Lemma copySlice_id {A} (l : option (list A)) : l <> Some [] -> copySlice l = l.
Proof. by destruct l as [[|]|]. Qed.

Lemma copySlice_idemp {A} (l : option (list A)) : copySlice (copySlice l) = copySlice l.
Proof. by destruct l as [[|]|]. Qed.

Lemma map_id_Forall {A} (f : A -> A) (P : A -> Prop) l :
  (forall x, P x -> f x = x) -> Forall P l -> map f l = l.
Proof. intros Hf. induction 1 as [|x l Hx _ IH]; simpl; [done|]. by rewrite IH, Hf. Qed.

Lemma annotation_setStyle m style k :
  annotation (setStyle m style) k
  = if decide (k = RolloutStyleAnnotation) then toLower (styleString style) else annotation m k.
Proof.
  unfold annotation, setStyle, mapget. simpl. case_decide as E; [subst k; by rewrite lookup_insert_eq|].
  by rewrite lookup_insert_ne.
Qed.

Lemma annotation_annotateFrom c m k :
  annotation (annotateFrom c m) k
  = if decide (k = TrafficRoutingAnnotation) then
      (if nonempty (cn_TrafficRoutingRef c) then cn_TrafficRoutingRef c
       else annotation m TrafficRoutingAnnotation)
    else annotation (setStyle m (if cn_EnableExtraWorkloadForCanary c then CanaryRollingStyle
                                 else PartitionRollingStyle)) k.
Proof.
  unfold annotateFrom. set (m1 := setStyle m _).
  assert (Hk : annotation m1 TrafficRoutingAnnotation = annotation m TrafficRoutingAnnotation)
    by (unfold m1; by rewrite annotation_setStyle).
  destruct (nonempty _) eqn:E.
  - unfold annotation, mapget in *. unfold m1, setStyle in *. simpl in *.
    case_decide as Ek; [subst k; by rewrite lookup_insert_eq|]. by rewrite lookup_insert_ne.
  - case_decide; [by subst k|done].
Qed.

Section round_trip.
Context `{K8sLib} `{!K8sLaws}.

Lemma weight_percent p :
  0 <= p <= 100 ->
  wrap32 (fst (GetScaledValueFromIntOrPercent (Some (FromString (weightString p))) 100 true)) = p.
Proof.
  intros Hp. unfold weightString. rewrite scaled_percent by lia. simpl.
  rewrite <- (Z.div_unique (100 * p + 99) 100 p 99) by lia. apply wrap32_id. unfold in32. lia.
Qed.

Lemma convertStep_back step : weighted step -> convertStepFrom (convertStepTo step) = normalStep step.
Proof.
  destruct step as [[weight modifier matches] replicas [pause]]. unfold weighted. simpl. intros Hw.
  unfold convertStepFrom, convertStepTo, normalStep, ConversionToV1alpha1TrafficRoutingStrategy,
    ConversionToV1beta1TrafficRoutingStrategy. simpl.
  assert (appended (map (fun match_ => mkAlphaRouteMatch (Headers match_))
    (map (fun match_ => mkRouteMatch None (a_Headers match_) []) (default [] matches))) = copySlice matches) as ->.
  { destruct matches as [matches|]; [|done]. simpl. rewrite map_map.
    rewrite (map_ext _ id); [|by intros []]. rewrite map_id. by destruct matches. }
  destruct weight as [weight|]; simpl; [by rewrite weight_percent|done].
Qed.

Lemma convertRef_back ref :
  ConversionToV1alpha1TrafficRoutingRef (ConversionToV1beta1TrafficRoutingRef ref) = normalRef ref.
Proof.
  unfold ConversionToV1alpha1TrafficRoutingRef, ConversionToV1beta1TrafficRoutingRef, normalRef. simpl.
  by rewrite copySlice_idemp.
Qed.

Lemma convertCanary_back m c :
  Forall weighted (a_Steps c) -> convertCanaryFrom (convertCanaryTo m c) = normalCanary c.
Proof.
  intros Hw. unfold convertCanaryFrom, convertCanaryTo, normalCanary. simpl. rewrite !map_map.
  rewrite (map_ext _ _ convertRef_back). f_equal.
  - apply map_ext_in. intros step Hin. apply convertStep_back. rewrite Forall_forall in Hw.
    by apply Hw, list_elem_of_In.
  - by destruct (a_PatchPodTemplateMetadata c).
Qed.

Lemma convertStep_id step : expressibleStep step -> convertStepTo (convertStepFrom step) = step.
Proof.
  destruct step as [[traffic modifier matches] replicas [pause]]. intros [Ht Hm]. simpl in *.
  unfold convertStepTo, convertStepFrom, ConversionToV1beta1TrafficRoutingStrategy,
    ConversionToV1alpha1TrafficRoutingStrategy. simpl.
  assert (Em : map (fun match_ => mkRouteMatch None (a_Headers match_) [])
    (map (fun match_ => mkAlphaRouteMatch (Headers match_)) matches) = matches).
  { rewrite map_map. revert Hm. apply map_id_Forall. intros [path headers query] [Ep Eq]. simpl in *. by subst. }
  rewrite default_appended, Em. destruct traffic as [t|]; simpl; [|by destruct replicas].
  destruct Ht as [(p & Hp & ->) Hr].
  rewrite (weight_percent p Hp). by destruct replicas.
Qed.

Lemma convertRef_id r :
  CustomNetworkRefs r <> Some [] ->
  ConversionToV1beta1TrafficRoutingRef (ConversionToV1alpha1TrafficRoutingRef r) = r.
Proof.
  destruct r. intros Hr. unfold ConversionToV1beta1TrafficRoutingRef, ConversionToV1alpha1TrafficRoutingRef.
  simpl in *. by rewrite copySlice_idemp, copySlice_id.
Qed.

Lemma convertCanary_id m c :
  expressibleCanary m c -> convertCanaryTo (annotateFrom c m) (convertCanaryFrom c) = c.
Proof.
  intros (Hs & Hr & Hp & Hd & Htr). unfold convertCanaryTo, convertCanaryFrom. simpl.
  rewrite !annotation_annotateFrom, annotation_setStyle, !map_map.
  rewrite (map_id_Forall _ _ _ convertStep_id Hs), (map_id_Forall _ _ _ convertRef_id Hr).
  rewrite (patchMeta_id _ Hp). simpl.
  assert (Etr : (if nonempty (cn_TrafficRoutingRef c) then cn_TrafficRoutingRef c
                 else annotation m TrafficRoutingAnnotation) = cn_TrafficRoutingRef c).
  { unfold nonempty. destruct (String.eqb_spec (cn_TrafficRoutingRef c) "") as [E|E]; [|done].
    rewrite E. by apply Htr. }
  rewrite Etr. destruct c as [? ? ? ? extra ? ?]; simpl in *. subst. by destruct extra.
Qed.

(** What [ConvertFrom] gives for a canary strategy. *)
Lemma ConvertFrom_canary dst b c :
  Canary (ro_Strategy b) = Some c -> BlueGreen (ro_Strategy b) = None ->
  let st := ro_Status b in
  exists b1, rollout_ConvertFrom dst b
    = Ok (mkAlphaRollout (annotateFrom c (ro_Meta b))
            (mkAlphaSpec (Some (WorkloadRef (ro_Spec b))) (Paused (ro_Strategy b)) (Some (convertCanaryFrom c)) ""
               (Disabled (ro_Spec b)))
            (mkAlphaStatus (ObservedGeneration st) (option_map canaryStatusFrom (CanaryStatus st))
               (map conditionFrom (Conditions st)) (Phase st) (Message st)), b1)
  /\ ro_Spec b1 = ro_Spec b /\ ro_Status b1 = ro_Status b
  /\ (ro_Meta b1 = ro_Meta b \/ ro_Meta b1 = annotateFrom c (ro_Meta b)).
Proof.
  intros Hc Hbg st. unfold rollout_ConvertFrom, IsCanaryStragegy, GetRollingStyle. rewrite Hbg, Hc. simpl.
  destruct (cn_EnableExtraWorkloadForCanary c); simpl; (eexists; split; [reflexivity|]);
    destruct (Annotations (ro_Meta b)); simpl; auto.
Qed.

(** C35. Conversion round trips.  A v1beta1 canary Rollout whose strategy v1alpha1 can
    express comes back from v1alpha1 with the same spec, the same status up to the two
    step fields v1alpha1 has not, and the same annotations up to the style and traffic
    routing ones; the hub object itself changes at most in these annotations, through
    the map it shares.  A BatchRelease with one of the known rolling styles comes back
    with the same spec, the same status up to the message, and the same annotations up
    to the style.  A v1alpha1 Rollout with percentages for weights comes back from v1beta1
    with the same status, the same annotations up to the style, which then is one of the
    two, and the same spec but for its deprecated id and what [normalCanary] says. *)
Theorem conversion_roundtrip :
  (forall (dst : alpha_Rollout) (b : Rollout) (c : CanaryStrategy),
     Canary (ro_Strategy b) = Some c -> BlueGreen (ro_Strategy b) = None ->
     BlueGreenStatus (ro_Status b) = None -> expressibleCanary (ro_Meta b) c ->
     exists a b1 b2, rollout_ConvertFrom dst b = Ok (a, b1) /\ rollout_ConvertTo a = Ok b2
     /\ ro_Spec b2 = ro_Spec b
     /\ ro_Status b2 = (ro_Status b) <| st_CurrentStepIndex := 0 |>
                                     <| st_CurrentStepState := CanaryStepStateOther "" |>
     /\ (forall k, k <> RolloutStyleAnnotation -> k <> TrafficRoutingAnnotation ->
          annotation (ro_Meta b2) k = annotation (ro_Meta b) k)
     /\ ro_Spec b1 = ro_Spec b /\ ro_Status b1 = ro_Status b
     /\ (ro_Meta b1 = ro_Meta b \/ ro_Meta b1 = ro_Meta b2))
  /\ (forall (b : BatchRelease),
        (forall s, RollingStyle (br_Plan b) <> RollingStyleOther s) ->
        copiedPatch (rp_PatchPodTemplateMetadata (br_Plan b)) ->
        exists b2, batchRelease_ConvertTo (fst (batchRelease_ConvertFrom b)) = Ok b2
        /\ br_Spec b2 = br_Spec b /\ br_Status b2 = (br_Status b) <| br_Message := ""%string |>
        /\ forall k, k <> RolloutStyleAnnotation -> annotation (br_Meta b2) k = annotation (br_Meta b) k)
  /\ (forall (a dst : alpha_Rollout) (ref : ObjectRef) (c : alpha_CanaryStrategy),
        a_WorkloadRef (a_Spec a) = Some ref -> a_Canary (a_Spec a) = Some c -> Forall weighted (a_Steps c) ->
        exists b a2 b1, rollout_ConvertTo a = Ok b /\ rollout_ConvertFrom dst b = Ok (a2, b1)
        /\ a_Spec a2 = mkAlphaSpec (Some ref) (a_Paused (a_Spec a)) (Some (normalCanary c)) "" (a_Disabled (a_Spec a))
        /\ a_Status a2 = a_Status a
        /\ (forall k, k <> RolloutStyleAnnotation -> annotation (a_Meta a2) k = annotation (a_Meta a) k)
        /\ annotation (a_Meta a2) RolloutStyleAnnotation
           = if EqualFold (annotation (a_Meta a) RolloutStyleAnnotation) "Partition" then "partition"%string
             else "canary"%string).
Proof.
  split; [|split].
  - intros dst b c Hc Hbg Hbs Hexp. destruct (ConvertFrom_canary dst b c Hc Hbg) as (b1 & E & Hspec & Hstatus & Hmeta).
    eexists _, b1, _. split; [exact E|]. split; [reflexivity|]. simpl.
    rewrite (convertCanary_id _ _ Hexp), conditions_id, canaryStatus_id. split_and!; try done.
    + destruct b as [? [? [] ?] ?]; simpl in *; by subst.
    + destruct b as [? ? []]; simpl in *; by subst.
    + intros k Hk1 Hk2. rewrite annotation_annotateFrom, annotation_setStyle. by rewrite !decide_False.
  - intros b Hstyle Hp. eexists. split; [reflexivity|]. simpl. rewrite releaseStatus_id. split; [|split; [done|]].
    + assert (Es : annotatedStyle (setStyle (br_Meta b) (RollingStyle (br_Plan b))) = RollingStyle (br_Plan b)).
      { unfold annotatedStyle. rewrite annotation_setStyle, decide_True by done.
        by destruct (RollingStyle _); try specialize (Hstyle _ eq_refl). }
      rewrite Es, (plan_id _ Hp). by destruct b as [? [] ?].
    + intros k Hk. rewrite annotation_setStyle. by rewrite decide_False.
  - intros a dst ref c Href Hc Hw. unfold rollout_ConvertTo. rewrite Href, Hc. simpl.
    match goal with |- context [Ok ?b] => destruct (ConvertFrom_canary dst b (convertCanaryTo (a_Meta a) c) eq_refl eq_refl)
      as (b1 & E & _); exists b end.
    eexists _, b1. split; [reflexivity|]. split; [exact E|]. simpl.
    rewrite (convertCanary_back _ _ Hw), conditions_back, canaryStatus_back. split_and!; [done|..].
    + clear. by destruct (a_Status a).
    + intros k Hk. rewrite annotation_annotateFrom, annotation_setStyle, (decide_False (P := k = RolloutStyleAnnotation)) by done.
      case_decide as E'; [subst k|done]. simpl. unfold nonempty.
      by destruct (String.eqb_spec (annotation (a_Meta a) TrafficRoutingAnnotation) "").
    + rewrite annotation_annotateFrom, annotation_setStyle, decide_False, decide_True by done. simpl.
      by destruct (EqualFold _ _).
Qed.
End round_trip.
