(* ===== verification/Validation.v ===== *)
(** * Admission of Rollouts (pkg/webhook/rollout/validating)

    rollout_create_update_handler.go and validate_v1alphal_rollout.go: which Rollouts the
    webhook lets pass, on creation and on update, in both API versions. *)

From S2P Require Export Workloads ApiAlpha.

(** ** Errors and answers *)

(** [field.Path], [field.Error] and its list, the offending values left out. *)
Inductive PathElement := Child (name : string) | Index (i : Z).
Abbreviation FieldPath := (list PathElement).
Inductive FieldError :=
  | Invalid (path : FieldPath) (detail : string)
  | Forbidden (path : FieldPath) (detail : string)
  | InternalError (path : FieldPath) (err : goerror).
Abbreviation ErrorList := (list FieldError).
Definition child (path : FieldPath) (name : string) : FieldPath := (path ++ [Child name])%list.
Definition atIndex (path : FieldPath) (i : Z) : FieldPath := (path ++ [Index i])%list.

Inductive AdmissionResponse :=
  | Allowed
  | ErroredRequest (code : Z) (err : goerror)
  | ErroredInvalid (code : Z) (errs : ErrorList).

Inductive AdmissionOperation := OpCreate | OpUpdate | OpOther.
Record AdmissionRequest := mkAdmission {
  req_Operation : AdmissionOperation;
  req_Version : string;
  req_Object : string;
  req_OldObject : string
}.

(** [admission.Decoder] on the raw objects of a request. *)
Class Decoder (O : Type) := Decode : string -> O + goerror.
(** The flag [partition-percent-limit]. *)
Class PartitionLimit := PartitionReplicasLimitWithTraffic : Z.

Definition StatusBadRequest : Z := 400.
Definition StatusUnprocessableEntity : Z := 422.

(** [validateContext]: the style is a string, empty when there is no strategy. *)
Record validateContext := mkValidateContext { vc_style : RollingStyleType }.

(** The first complaint of a loop that returns at it. *)
Fixpoint firstError {A} (check : Z -> A -> ErrorList) (i : Z) (l : list A) : ErrorList :=
  match l with
  | [] => []
  | a :: rest => match check i a with [] => firstError check (i + 1) rest | errs => errs end
  end.

(** The loop over neighbours. *)
Fixpoint neighbours {A} (l : list A) : list (A * A) :=
  match l with
  | prev :: (curr :: _) as rest => (prev, curr) :: neighbours rest
  | _ => []
  end.

Definition IsPercentageCanaryReplicasType (replicas : option IntOrString) : bool :=
  match replicas with None | Some (FromString _) => true | Some (FromInt _) => false end.

Section validation.
Context `{K8sLib} `{WorkloadFilter} `{PartitionLimit}.

Definition scale100 (v : option IntOrString) : Z * option goerror :=
  GetScaledValueFromIntOrPercent v 100 true.

(** The checks on the number of replicas of a step, which both versions make. *)
Definition badReplicas (replicas : IntOrString) : bool :=
  let '(canaryReplicas, err) := scale100 (Some replicas) in
  negb (bool_decide (err = None)) || bool_decide (canaryReplicas <= 0)
  || (bool_decide (canaryReplicas > 100) && IsPercentageCanaryReplicasType (Some replicas)).
Definition replicasMessage : string :=
  "replicas must be positive number, or a percentage with 0% < canaryReplicas <= 100%".

(** ** v1beta1 (rollout_create_update_handler.go) *)

Definition blueGreenSupportWorkloadGVKs : list GroupVersionKind := [ControllerKindDep; ControllerKruiseKindCS].

Definition validateRolloutSpecObjectRef (c : validateContext) (workloadRef : ObjectRef) (path : FieldPath)
    : ErrorList :=
  let gvk := FromAPIVersionAndKind (APIVersion workloadRef) (Kind workloadRef) in
  let wrong := Invalid (child path "WorkloadRef") in
  if negb (IsSupportedWorkload gvk) then [wrong "WorkloadRef kind is not supported"%string] else
  if decide (vc_style c = BlueGreenRollingStyle) then
    if existsb (fun allowed => String.eqb (Group gvk) (Group allowed)
                               && String.eqb (GVKKind gvk) (GVKKind allowed)) blueGreenSupportWorkloadGVKs
    then [] else [wrong "WorkloadRef kind is not supported for bluegreen style"%string]
  else [].

Definition hasNoName (ref : IngressTrafficRouting) : bool := String.eqb (IngressName ref) "".
Definition hasNoRoute (ref : GatewayTrafficRouting) : bool :=
  match HTTPRouteName ref with None => true | Some name => String.eqb name "" end.

(** The two versions have the same checks on a traffic routing. *)
Definition validateRolloutSpecCanaryTraffic (traffic : TrafficRoutingRef) (path : FieldPath) : ErrorList :=
  ((if decide (GracePeriodSeconds traffic < 0)
    then [Invalid (child path "GracePeriodSeconds") "TrafficRouting.GracePeriodSeconds cannot be negative"]
    else [])
   ++ (if nonempty (Service traffic) then []
       else [Invalid (child path "Service") "TrafficRouting.Service cannot be empty"])
   ++ (if bool_decide (Gateway traffic = None) && bool_decide (Ingress traffic = None)
          && bool_decide (CustomNetworkRefs traffic = None)
       then [Invalid (child path "TrafficRoutings") "TrafficRoutings are not set"] else [])
   ++ (if match Ingress traffic with Some i => hasNoName i | None => false end
       then [Invalid (child path "Ingress") "TrafficRouting.Ingress.Ingress cannot be empty"] else [])
   ++ (if match Gateway traffic with Some g => hasNoRoute g | None => false end
       then [Invalid (child path "Gateway")
               "TrafficRouting.Gateway must set the name of HTTPRoute or HTTPsRoute"] else []))%list.

Definition badWeight (c : validateContext) (traffic : string) : bool :=
  let '(weight, err) := scale100 (Some (FromString traffic)) in
  negb (bool_decide (err = None))
  || (if decide (vc_style c = BlueGreenRollingStyle) then bool_decide (weight < 0) else bool_decide (weight <= 0))
  || bool_decide (weight > 100).

Definition checkStep (c : validateContext) (path : FieldPath) (i : Z) (s : CanaryStep) : ErrorList :=
  let wrong := Invalid (child (atIndex path i) "steps") in
  match Replicas s with
  | None => [wrong "replicas cannot be empty"%string]
  | Some replicas =>
      if badReplicas replicas then [Invalid (child (atIndex path i) "Replicas") replicasMessage] else
      if bool_decide (Traffic (StepTraffic s) = None) && bool_decide (Matches (StepTraffic s) = [])
      then [] else
      if bool_decide (vc_style c = PartitionRollingStyle) && IsPercentageCanaryReplicasType (Replicas s)
         && bool_decide (fst (scale100 (Some replicas)) > PartitionReplicasLimitWithTraffic)
      then [wrong "For partition style rollout: step[x].replicas must not greater than partition-percent-limit if traffic specified"%string] else
      match Traffic (StepTraffic s) with
      | None => []
      | Some traffic =>
          if badWeight c traffic then
            [wrong (if decide (vc_style c = BlueGreenRollingStyle)
                    then "traffic must be percentage with 0% <= traffic <= 100% in blueGreen strategy"
                    else "traffic must be percentage with 0% < traffic <= 100% in canary strategy")%string]
          else []
      end
  end.

Definition decreasing (prev curr : CanaryStep) : bool :=
  Bool.eqb (IsPercentageCanaryReplicasType (Replicas prev)) (IsPercentageCanaryReplicasType (Replicas curr))
  && bool_decide (fst (scale100 (Replicas curr)) < fst (scale100 (Replicas prev))).

Definition checkOrder (path : FieldPath) (_ : Z) (pair : CanaryStep * CanaryStep) : ErrorList :=
  if decreasing (fst pair) (snd pair)
  then [Invalid (child path "CanaryReplicas") "Steps.CanaryReplicas must be a non decreasing sequence"]
  else [].

Definition validateRolloutSpecCanarySteps (c : validateContext) (steps : list CanaryStep) (path : FieldPath)
    : ErrorList :=
  if decide (len steps = 0) then [Invalid path "The number of Canary.Steps cannot be empty"] else
  match firstError (checkStep c path) 0 steps with
  | [] => firstError (checkOrder path) 1 (neighbours steps)
  | errs => errs
  end.

Definition validateStepsAndTraffic (c : validateContext) (steps : list CanaryStep)
    (routings : list TrafficRoutingRef) (path : FieldPath) : ErrorList :=
  (validateRolloutSpecCanarySteps c steps (child path "Steps")
   ++ (if decide (len routings > 1)
       then [Invalid path "Rollout currently only support single TrafficRouting."] else [])
   ++ flat_map (fun traffic => validateRolloutSpecCanaryTraffic traffic (child path "TrafficRouting"))
        routings)%list.

Definition validateRolloutSpecCanaryStrategy (c : validateContext) (canary : CanaryStrategy)
    (path : FieldPath) : ErrorList :=
  validateStepsAndTraffic c (cn_Steps canary) (cn_TrafficRoutings canary) path.
Definition validateRolloutSpecBlueGreenStrategy (c : validateContext) (blueGreen : BlueGreenStrategy)
    (path : FieldPath) : ErrorList :=
  validateStepsAndTraffic c (bg_Steps blueGreen) (bg_TrafficRoutings blueGreen) path.

Definition validateRolloutSpecStrategy (c : validateContext) (strategy : RolloutStrategy) (path : FieldPath)
    : ErrorList :=
  match Canary strategy, BlueGreen strategy with
  | None, None => [Invalid path "Canary and BlueGreen cannot both be empty"]
  | Some _, Some _ => [Invalid path "Canary and BlueGreen cannot both be set"]
  | _, Some blueGreen => validateRolloutSpecBlueGreenStrategy c blueGreen (child path "BlueGreen")
  | Some canary, None => validateRolloutSpecCanaryStrategy c canary (child path "Canary")
  end.

Definition validateRolloutSpec (c : validateContext) (rollout : Rollout) (path : FieldPath) : ErrorList :=
  (validateRolloutSpecObjectRef c (WorkloadRef (ro_Spec rollout)) (child path "ObjectRef")
   ++ validateRolloutSpecStrategy c (ro_Strategy rollout) (child path "Strategy"))%list.

Definition GetContextFromv1beta1Rollout (rollout : Rollout) : res validateContext :=
  if IsEmptyRelease (ro_Strategy rollout) then Ok (mkValidateContext RollingStyleNone) else
  res_bind (GetRollingStyle (ro_Strategy rollout)) (fun style =>
  res_map (fun isPartition : bool => mkValidateContext (if isPartition then PartitionRollingStyle else style))
    (IsRealPartition rollout)).
End validation.

(** ** v1alpha1 (validate_v1alphal_rollout.go) *)

Section validation_alpha.
Context `{K8sLib} `{WorkloadFilter} `{PartitionLimit}.

Definition validateV1alpha1RolloutRollingStyle (rollout : alpha_Rollout) (path : FieldPath) : ErrorList :=
  let style := toLower (annotation (a_Meta rollout) RolloutStyleAnnotation) in
  if String.eqb style "" || String.eqb style "canary" || String.eqb style "partition" then []
  else [Invalid path "Rolling style must be 'Canary', 'Partition' or empty"].

Definition validateV1alpha1RolloutSpecObjectRef (workloadRef : option ObjectRef) (path : FieldPath) : ErrorList :=
  match workloadRef with
  | None => [Invalid (child path "WorkloadRef") "WorkloadRef is required"]
  | Some ref =>
      if negb (IsSupportedWorkload (FromAPIVersionAndKind (APIVersion ref) (Kind ref)))
      then [Invalid (child path "WorkloadRef") "WorkloadRef kind is not supported"] else []
  end.

Definition validateV1alpha1RolloutSpecCanaryTraffic (traffic : alpha_TrafficRoutingRef) (path : FieldPath)
    : ErrorList :=
  validateRolloutSpecCanaryTraffic
    (mkTRRef (a_Service traffic) (a_GracePeriodSeconds traffic) (a_Ingress traffic) (a_Gateway traffic)
       (a_CustomNetworkRefs traffic)) path.

(** A nil context is read only for a canary strategy, with which there is one. *)
Definition alpha_checkStep (c : validateContext) (path : FieldPath) (i : Z) (s : alpha_CanaryStep) : ErrorList :=
  let wrong := Invalid (child (atIndex path i) "steps") in
  let isPartition := bool_decide (vc_style c = PartitionRollingStyle) in
  match a_Replicas s, a_Weight (a_StepTraffic s) with
  | None, None => [wrong "weight and replicas cannot be empty at the same time"%string]
  | Some replicas, weight =>
      if badReplicas replicas then [Invalid (child (atIndex path i) "Replicas") replicasMessage] else
      if isPartition && IsPercentageCanaryReplicasType (Some replicas)
         && bool_decide (fst (scale100 (Some replicas)) > PartitionReplicasLimitWithTraffic)
         && (negb (bool_decide (a_Matches (a_StepTraffic s) = None)) || negb (bool_decide (weight = None)))
      then [wrong "For patition style rollout: step[x].replicas must not greater than replicasLimitWithTraffic if traffic or matches specified"%string]
      else []
  | None, Some weight =>
      if isPartition && bool_decide (weight > wrap32 PartitionReplicasLimitWithTraffic)
      then [wrong "For patition style rollout: step[x].weight must not greater than replicasLimitWithTraffic if replicas is not specified"%string]
      else if bool_decide (weight <= 0) || bool_decide (weight > 100)
      then [Invalid (child (atIndex path i) "Weight")
              "weight must be positive number, and less than or equal to replicasLimitWithTraffic (defaults to 30)"]
      else []
  end.

Definition stepWeight (s : alpha_CanaryStep) : option Z := a_Weight (a_StepTraffic s).
(** A step without replicas has a weight by now. *)
Definition stepReplicas (s : alpha_CanaryStep) : Z :=
  match a_Replicas s with
  | Some replicas => fst (scale100 (Some replicas))
  | None => default 0 (stepWeight s)
  end.

Definition alpha_checkOrder (isTraffic : bool) (path : FieldPath) (_ : Z)
    (pair : alpha_CanaryStep * alpha_CanaryStep) : ErrorList :=
  let '(prev, curr) := pair in
  if isTraffic && match stepWeight curr, stepWeight prev with
                  | Some c, Some p => bool_decide (c < p)
                  | _, _ => false
                  end
  then [Invalid (child path "Weight") "Steps.Weight must be a non decreasing sequence"] else
  if Bool.eqb (IsPercentageCanaryReplicasType (a_Replicas prev)) (IsPercentageCanaryReplicasType (a_Replicas curr))
     && bool_decide (stepReplicas curr < stepReplicas prev)
  then [Invalid (child path "CanaryReplicas") "Steps.CanaryReplicas must be a non decreasing sequence"]
  else [].

Definition validateV1alpha1RolloutSpecCanarySteps (c : validateContext) (steps : list alpha_CanaryStep)
    (path : FieldPath) (isTraffic : bool) : ErrorList :=
  if decide (len steps = 0) then [Invalid path "The number of Canary.Steps cannot be empty"] else
  match firstError (alpha_checkStep c path) 0 steps with
  | [] => firstError (alpha_checkOrder isTraffic path) 1 (neighbours steps)
  | errs => errs
  end.

Definition validateV1alpha1RolloutSpecCanaryStrategy (c : option validateContext)
    (canary : option alpha_CanaryStrategy) (path : FieldPath) : res ErrorList :=
  match canary with
  | None => Ok [Invalid path "Canary cannot be empty"]
  | Some canary =>
      res_bind (deref c) (fun c =>
      let routings := a_TrafficRoutings canary in
      Ok (validateV1alpha1RolloutSpecCanarySteps c (a_Steps canary) (child path "Steps")
            (bool_decide (len routings > 0))
          ++ (if decide (len routings > 1)
              then [Invalid path "Rollout currently only support single TrafficRouting."] else [])
          ++ flat_map (fun traffic =>
               validateV1alpha1RolloutSpecCanaryTraffic traffic (child path "TrafficRouting")) routings)%list)
  end.

Definition validateV1alpha1RolloutSpec (c : option validateContext) (rollout : alpha_Rollout)
    (path : FieldPath) : res ErrorList :=
  res_map (fun strategyErrors =>
      validateV1alpha1RolloutSpecObjectRef (a_WorkloadRef (a_Spec rollout)) (child path "ObjectRef")
      ++ validateV1alpha1RolloutRollingStyle rollout [Child "RollingStyle"] ++ strategyErrors)%list
    (validateV1alpha1RolloutSpecCanaryStrategy c (a_Canary (a_Spec rollout))
       (child (child path "Strategy") "Canary")).

(** A canary style looks into the workload reference before anything has checked it. *)
Definition GetContextFromv1alpha1Rollout (rollout : alpha_Rollout) : res (option validateContext) :=
  match a_Canary (a_Spec rollout) with
  | None => Ok None
  | Some _ =>
      let style := toLower (annotation (a_Meta rollout) RolloutStyleAnnotation) in
      if String.eqb style "" || String.eqb style "canary" then
        res_map (fun targetRef => Some (mkValidateContext
            (if String.eqb (APIVersion targetRef) appsv1 && String.eqb (Kind targetRef) "Deployment"
             then CanaryRollingStyle else PartitionRollingStyle)))
          (deref (a_WorkloadRef (a_Spec rollout)))
      else Ok (Some (mkValidateContext PartitionRollingStyle))
  end.
End validation_alpha.

(** ** The handler *)

Section handler.
Context {W : Type} `{Api W Rollout} `{Api W alpha_Rollout} `{ListApi W Rollout} `{ListApi W alpha_Rollout}
  `{Decoder Rollout} `{Decoder alpha_Rollout} `{K8sLib} `{WorkloadFilter} `{PartitionLimit}.

Definition specPath : FieldPath := [Child "Spec"].
Definition conflictPath : FieldPath := [Child "Conflict Checker"].
Definition keyString (m : ObjectMeta) : string := (Namespace m +:+ "/" +:+ Name m)%string.

Definition conflictMessage (m : ObjectMeta) : string :=
  ("This rollout conflict with Rollout(" +:+ keyString m
   +:+ "), one workload only have less than one Rollout")%string.

(** The complaint about the first other Rollout that claims the workload. *)
Definition conflictWith {O} (metaOf : O -> ObjectMeta) (same : O -> bool) (name : string)
    (others : list O) : ErrorList :=
  match list_find (fun r => Name (metaOf r) <> name /\ same r = true) others with
  | Some (_, r) => [Invalid conflictPath (conflictMessage (metaOf r))]
  | None => []
  end.

Definition IsSameWorkloadRefGVKName (a b : ObjectRef) : bool := bool_decide (a = b).
Definition IsSameV1alpha1WorkloadRefGVKName (a b : option ObjectRef) : bool :=
  match a, b with Some a, Some b => bool_decide (a = b) | _, _ => false end.

Definition validateRolloutConflict (rollout : Rollout) : M W ErrorList :=
  l <- catch (api_List (O := Rollout) (Namespace (ro_Meta rollout)) (fun _ => true)) ;;
  ret match l with
      | inr err => [InternalError conflictPath err]
      | inl others =>
          conflictWith ro_Meta (fun r => IsSameWorkloadRefGVKName (WorkloadRef (ro_Spec r))
                                           (WorkloadRef (ro_Spec rollout)))
            (Name (ro_Meta rollout)) others
      end.

Definition validateV1alpha1RolloutConflict (rollout : alpha_Rollout) : M W ErrorList :=
  l <- catch (api_List (O := alpha_Rollout) (Namespace (a_Meta rollout)) (fun _ => true)) ;;
  ret match l with
      | inr err => [InternalError conflictPath err]
      | inl others =>
          conflictWith a_Meta (fun r => IsSameV1alpha1WorkloadRefGVKName (a_WorkloadRef (a_Spec r))
                                          (a_WorkloadRef (a_Spec rollout)))
            (Name (a_Meta rollout)) others
      end.

Definition validateRollout (rollout : Rollout) : M W ErrorList :=
  c <- lift (GetContextFromv1beta1Rollout rollout) ;;
  conflicts <- validateRolloutConflict rollout ;;
  ret (validateRolloutSpec c rollout specPath ++ conflicts)%list.

Definition validateV1alpha1Rollout (rollout : alpha_Rollout) : M W ErrorList :=
  c <- lift (GetContextFromv1alpha1Rollout rollout) ;;
  errList <- lift (validateV1alpha1RolloutSpec c rollout specPath) ;;
  conflicts <- validateV1alpha1RolloutConflict rollout ;;
  ret (errList ++ conflicts)%list.

Definition restricted (phase : RolloutPhase) : bool :=
  bool_decide (phase = RolloutPhaseProgressing) || bool_decide (phase = RolloutPhaseTerminating).

(** What may not change while a Rollout progresses or terminates.  A nil and an empty
    list of routings count as the same. *)
Definition immutableParts (oldObj newObj : Rollout) : res ErrorList :=
  let oldS := ro_Strategy oldObj in
  let newS := ro_Strategy newObj in
  let strategyPath := [Child "Spec.Strategy.Canary|BlueGreen"] in
  if negb (bool_decide (WorkloadRef (ro_Spec oldObj) = WorkloadRef (ro_Spec newObj)))
  then Ok [Forbidden [Child "Spec.ObjectRef"] "Rollout 'ObjectRef' field is immutable"] else
  res_bind (GetTrafficRouting oldS) (fun oldRoutings =>
  res_bind (GetTrafficRouting newS) (fun newRoutings =>
  if negb (bool_decide (oldRoutings = newRoutings))
  then Ok [Forbidden [Child "Spec.Strategy.Canary|BlueGreen.TrafficRoutings"]
             "Rollout 'Strategy.Canary|BlueGreen.TrafficRoutings' field is immutable"] else
  res_bind (GetRollingStyle oldS) (fun oldStyle =>
  res_bind (GetRollingStyle newS) (fun newStyle =>
  if negb (bool_decide (oldStyle = newStyle))
  then Ok [Forbidden strategyPath "Rollout style and enableExtraWorkloadForCanary are immutable"] else
  res_bind (GetSteps oldS) (fun oldSteps =>
  res_bind (GetSteps newS) (fun newSteps =>
  if negb (bool_decide (len oldSteps = len newSteps))
  then Ok [Forbidden strategyPath "Amount of Rollout steps are immutable"] else Ok [])))))).

Definition alpha_immutableParts (oldObj newObj : alpha_Rollout) : res ErrorList :=
  if negb (bool_decide (a_WorkloadRef (a_Spec oldObj) = a_WorkloadRef (a_Spec newObj)))
  then Ok [Forbidden [Child "Spec.ObjectRef"] "Rollout 'ObjectRef' field is immutable"] else
  res_bind (deref (a_Canary (a_Spec oldObj))) (fun oldCanary =>
  res_bind (deref (a_Canary (a_Spec newObj))) (fun newCanary =>
  if negb (bool_decide (a_TrafficRoutings oldCanary = a_TrafficRoutings newCanary))
  then Ok [Forbidden [Child "Spec.Strategy.Canary.TrafficRoutings"]
             "Rollout 'Strategy.Canary.TrafficRoutings' field is immutable"] else
  if negb (EqualFold (annotation (a_Meta oldObj) RolloutStyleAnnotation)
             (annotation (a_Meta newObj) RolloutStyleAnnotation))
  then Ok [Forbidden [Child "Metadata.Annotation"] "Rollout 'Rolling-Style' annotation is immutable"]
  else Ok [])).

(** The common shape of the two update checks. *)
Definition validateUpdate {O} (latest : M W O) (phaseOf : O -> RolloutPhase) (validate : O -> M W ErrorList)
    (immutable : O -> O -> res ErrorList) (oldObj newObj : O) : M W ErrorList :=
  l <- catch latest ;;
  match l with
  | inr err => ret [InternalError [Child "Rollout"] err]
  | inl latestObject =>
      errs <- validate newObj ;;
      match errs with
      | [] => if restricted (phaseOf latestObject) then lift (immutable oldObj newObj) else ret []
      | _ => ret errs
      end
  end.

Definition validateRolloutUpdate (oldObj newObj : Rollout) : M W ErrorList :=
  validateUpdate (api_Get (O := Rollout) (keyOf (ro_Meta newObj))) (fun r => Phase (ro_Status r))
    validateRollout immutableParts oldObj newObj.
Definition validateV1alpha1RolloutUpdate (oldObj newObj : alpha_Rollout) : M W ErrorList :=
  validateUpdate (api_Get (O := alpha_Rollout) (keyOf (a_Meta newObj))) (fun r => a_Phase (a_Status r))
    validateV1alpha1Rollout alpha_immutableParts oldObj newObj.

(** Decode, validate, and on an update decode the old object and validate the change. *)
Definition answerRequest {O} `{Decoder O} (validate : O -> M W ErrorList) (validateChange : O -> O -> M W ErrorList)
    (req : AdmissionRequest) : M W AdmissionResponse :=
  match Decode (req_Object req) with
  | inr err => ret (ErroredRequest StatusBadRequest err)
  | inl obj =>
      errs <- validate obj ;;
      if bool_decide (len errs <> 0) then ret (ErroredInvalid StatusUnprocessableEntity errs) else
      match req_Operation req with
      | OpUpdate =>
          match Decode (req_OldObject req) with
          | inr err => ret (ErroredRequest StatusBadRequest err)
          | inl oldObj =>
              errs <- validateChange oldObj obj ;;
              ret (if bool_decide (len errs <> 0) then ErroredInvalid StatusUnprocessableEntity errs else Allowed)
          end
      | _ => ret Allowed
      end
  end.

Definition validating_Handle (req : AdmissionRequest) : M W AdmissionResponse :=
  match req_Operation req with
  | OpOther => ret Allowed
  | _ =>
      if String.eqb (req_Version req) "v1alpha1"
      then answerRequest validateV1alpha1Rollout validateV1alpha1RolloutUpdate req
      else answerRequest validateRollout validateRolloutUpdate req
  end.
End handler.
