(* ===== verification/ValidationProofs.v ===== *)
(** * What the admission of Rollouts guarantees

    A Rollout passes exactly when it is legal and the only one of its workload; an update
    of a Rollout that progresses keeps what the release depends on. *)

From S2P Require Export Validation Conversion.

(** ** Loops over lists *)

Lemma firstError_nil {A} (check : Z -> A -> ErrorList) (P : A -> Prop) i l :
  (forall j a, check j a = [] <-> P a) -> firstError check i l = [] <-> Forall P l.
Proof.
  intros Hcheck. revert i. induction l as [|a l IH]; intros i; simpl.
  - split; [constructor|done].
  - rewrite Forall_cons, <- (Hcheck i a), <- (IH (i + 1)).
    destruct (check i a); [tauto|]. split; [done|]. by intros [? _].
Qed.

Lemma neighbours_Forall {A} (P : A * A -> Prop) l :
  Forall P (neighbours l) <-> forall i a b, l !! i = Some a -> l !! S i = Some b -> P (a, b).
Proof.
  induction l as [|x [|y l] IH]; simpl.
  - split; [done|constructor].
  - split; [|constructor]. by intros _ [|i] a b.
  - rewrite Forall_cons, IH. split.
    + intros [H1 H2] [|i] a b Ha Hb; [by simplify_eq/=|by eapply H2].
    + intros Hall. split; [by apply (Hall O)|]. intros i. apply (Hall (S i)).
Qed.

Lemma flat_map_nil {A B} (f : A -> list B) (P : A -> Prop) l :
  (forall a, f a = [] <-> P a) -> flat_map f l = [] <-> Forall P l.
Proof.
  intros Hf. induction l as [|a l IH]; simpl; [split; [constructor|done]|].
  rewrite app_nil, Forall_cons, IH, Hf. done.
Qed.

Lemma nil_unless {A} (b : bool) (a : A) : (if b then [a] else []) = [] <-> b = false.
Proof. by destruct b. Qed.
Lemma nil_if {A} (b : bool) (a : A) : (if b then [] else [a]) = [] <-> b = true.
Proof. by destruct b. Qed.
Lemma nil_unless_dec {A} (P : Prop) `{Decision P} (a : A) : (if decide P then [a] else []) = [] <-> ~ P.
Proof. by case_decide. Qed.

(** ** Legal Rollouts *)

Section legal.
Context `{K8sLib} `{WorkloadFilter} `{PartitionLimit}.

(** Whether the step routes traffic of its own. *)
Definition routed (s : CanaryStep) : Prop :=
  Traffic (StepTraffic s) <> None \/ Matches (StepTraffic s) <> [].

(** The replicas of a step, a positive number or a percentage, small enough to leave the
    stable pods the load of a rollback; and its share of the traffic. *)
Definition legalReplicas (style : RollingStyleType) (s : CanaryStep) (replicas : IntOrString) : Prop :=
  exists n, scale100 (Some replicas) = (n, None) /\ 0 < n
  /\ (IsPercentageCanaryReplicasType (Some replicas) = true ->
        n <= 100 /\ (routed s -> style = PartitionRollingStyle -> n <= PartitionReplicasLimitWithTraffic)).
Definition legalWeight (style : RollingStyleType) (traffic : string) : Prop :=
  exists weight, scale100 (Some (FromString traffic)) = (weight, None) /\ weight <= 100
  /\ (if decide (style = BlueGreenRollingStyle) then 0 <= weight else 0 < weight).
Definition legalStep (style : RollingStyleType) (s : CanaryStep) : Prop :=
  (exists replicas, Replicas s = Some replicas /\ legalReplicas style s replicas)
  /\ (forall traffic, Traffic (StepTraffic s) = Some traffic -> legalWeight style traffic).

(** Neighbours that can be compared do not decrease. *)
Definition ascending (steps : list CanaryStep) : Prop :=
  forall i prev curr, steps !! i = Some prev -> steps !! S i = Some curr ->
    IsPercentageCanaryReplicasType (Replicas prev) = IsPercentageCanaryReplicasType (Replicas curr) ->
    fst (scale100 (Replicas prev)) <= fst (scale100 (Replicas curr)).

Definition legalRouting (t : TrafficRoutingRef) : Prop :=
  0 <= GracePeriodSeconds t /\ Service t <> ""%string
  /\ (Gateway t <> None \/ Ingress t <> None \/ CustomNetworkRefs t <> None)
  /\ (forall i, Ingress t = Some i -> IngressName i <> ""%string)
  /\ (forall g, Gateway t = Some g -> exists name, HTTPRouteName g = Some name /\ name <> ""%string).

Definition legalPlan (style : RollingStyleType) (steps : list CanaryStep) (routings : list TrafficRoutingRef)
    : Prop :=
  steps <> [] /\ Forall (legalStep style) steps /\ ascending steps
  /\ len routings <= 1 /\ Forall legalRouting routings.

Definition workloadGVK (rollout : Rollout) : GroupVersionKind :=
  FromAPIVersionAndKind (APIVersion (WorkloadRef (ro_Spec rollout))) (Kind (WorkloadRef (ro_Spec rollout))).
Definition isDeployment (ref : ObjectRef) : bool :=
  String.eqb (APIVersion ref) appsv1 && String.eqb (Kind ref) "Deployment".

Definition legalRollout (rollout : Rollout) : Prop :=
  IsSupportedWorkload (workloadGVK rollout) = true
  /\ match Canary (ro_Strategy rollout), BlueGreen (ro_Strategy rollout) with
     | Some canary, None =>
         legalPlan (if cn_EnableExtraWorkloadForCanary canary && isDeployment (WorkloadRef (ro_Spec rollout))
                    then CanaryRollingStyle else PartitionRollingStyle)
           (cn_Steps canary) (cn_TrafficRoutings canary)
     | None, Some blueGreen =>
         legalPlan BlueGreenRollingStyle (bg_Steps blueGreen) (bg_TrafficRoutings blueGreen)
         /\ exists allowed, allowed ∈ [ControllerKindDep; ControllerKruiseKindCS]
            /\ Group (workloadGVK rollout) = Group allowed /\ GVKKind (workloadGVK rollout) = GVKKind allowed
     | _, _ => False
     end.

(** ** The checks find exactly what is not legal *)

Lemma badReplicas_false replicas :
  badReplicas replicas = false
  <-> exists n, scale100 (Some replicas) = (n, None) /\ 0 < n
      /\ (IsPercentageCanaryReplicasType (Some replicas) = true -> n <= 100).
Proof.
  unfold badReplicas. destruct (scale100 (Some replicas)) as [n err].
  rewrite !orb_false_iff, negb_false_iff, andb_false_iff, bool_decide_eq_true, !bool_decide_eq_false.
  split.
  - intros [[-> Hn] Hp]. exists n. split; [done|]. split; [lia|]. intros E. rewrite E in Hp.
    destruct Hp; [lia|done].
  - intros (m & [= <- ->] & Hm & Hp). split; [split; [done|lia]|].
    destruct (IsPercentageCanaryReplicasType _); [left; specialize (Hp eq_refl); lia|by right].
Qed.

Lemma badWeight_false c traffic : badWeight c traffic = false <-> legalWeight (vc_style c) traffic.
Proof.
  unfold badWeight, legalWeight. destruct (scale100 (Some (FromString traffic))) as [w err].
  rewrite !orb_false_iff, negb_false_iff, bool_decide_eq_true.
  case_decide; rewrite !bool_decide_eq_false;
    (split; [intros [[-> ?] ?]; exists w; split; [done|lia]|intros (m & [= <- ->] & ? & ?); split_and!; [done|lia..]]).
Qed.

Lemma notRouted s :
  bool_decide (Traffic (StepTraffic s) = None) && bool_decide (Matches (StepTraffic s) = []) = true
  <-> ~ routed s.
Proof.
  unfold routed. rewrite andb_true_iff, !bool_decide_eq_true.
  destruct (Traffic (StepTraffic s)), (Matches (StepTraffic s)); naive_solver.
Qed.

Lemma checkStep_nil c path i s : checkStep c path i s = [] <-> legalStep (vc_style c) s.
Proof.
  unfold checkStep, legalStep. destruct (Replicas s) as [replicas|] eqn:Er; [|split; [done|]; by intros [(? & [=] & _) _]].
  destruct (badReplicas replicas) eqn:Eb.
  { split; [done|]. intros [(r & [= <-] & n & Hs & Hn & Hp) _].
    apply not_false_iff_true in Eb. destruct Eb. apply badReplicas_false. exists n.
    split; [done|]. split; [done|]. apply Hp. }
  apply badReplicas_false in Eb as (n & Hs & Hn & Hp). rewrite Hs. simpl.
  destruct (_ && bool_decide (Matches _ = [])) eqn:Enr.
  { apply notRouted in Enr. split; [|done]. intros _. split.
    - exists replicas. split; [done|]. exists n. split; [done|]. split; [done|].
      intros E. split; [by apply Hp|done].
    - intros t Ht. destruct Enr. left. by rewrite Ht. }
  assert (Hr : routed s) by (apply dec_stable; rewrite <- notRouted, Enr; done).
  clear Enr.
  assert (Hlimit : bool_decide (vc_style c = PartitionRollingStyle) && IsPercentageCanaryReplicasType (Some replicas)
             && bool_decide (n > PartitionReplicasLimitWithTraffic) = false
           <-> legalReplicas (vc_style c) s replicas).
  { rewrite !andb_false_iff, !bool_decide_eq_false. unfold legalReplicas. split.
    - intros Hl. exists n. split; [done|]. split; [done|]. intros E. split; [by apply Hp|].
      intros _ Hstyle. rewrite E in Hl. destruct Hl as [[?|?]|?]; [done..|lia].
    - intros (m & Em & _ & Hl). rewrite Hs in Em. injection Em as <-.
      destruct (decide (vc_style c = PartitionRollingStyle)); [|by left; left].
      destruct (IsPercentageCanaryReplicasType _); [|by left; right].
      right. destruct (Hl eq_refl) as [_ Hl']. specialize (Hl' Hr ltac:(done)). lia. }
  destruct (_ && bool_decide (_ > _)) eqn:El.
  { split; [done|]. intros [(r & Hr1 & Hlegal) _]. injection Hr1 as <-.
    by apply Hlimit in Hlegal. }
  assert (Hlegal : legalReplicas (vc_style c) s replicas) by by apply Hlimit.
  destruct (Traffic (StepTraffic s)) as [traffic|] eqn:Et.
  - destruct (badWeight c traffic) eqn:Ew.
    + split; [done|]. intros [_ Hw]. specialize (Hw traffic eq_refl). apply badWeight_false in Hw. congruence.
    + apply badWeight_false in Ew. split; [|done]. intros _. split; [by exists replicas|].
      by intros t [= <-].
  - split; [|done]. intros _. split; [by exists replicas|done].
Qed.

Lemma steps_nil c steps path :
  validateRolloutSpecCanarySteps c steps path = []
  <-> steps <> [] /\ Forall (legalStep (vc_style c)) steps /\ ascending steps.
Proof.
  unfold validateRolloutSpecCanarySteps. case_decide as Hlen.
  { split; [done|]. intros [Hne _]. destruct steps; [done|]. unfold len in Hlen. simpl in Hlen. lia. }
  assert (Hne : steps <> []) by (by intros ->).
  pose proof (firstError_nil (checkStep c path) _ 0 steps (checkStep_nil c path)) as Hsteps.
  destruct (firstError (checkStep c path) 0 steps) as [|e errs].
  - rewrite (firstError_nil _ (fun pair => decreasing (fst pair) (snd pair) = false)) by
      (intros j pair; apply nil_unless).
    rewrite neighbours_Forall. unfold ascending, decreasing. simpl.
    split.
    + intros Hall. split; [done|]. split; [by apply Hsteps|]. intros i a b Ha Hb E.
      specialize (Hall i a b Ha Hb). rewrite E, eqb_reflx in Hall. apply bool_decide_eq_false in Hall. lia.
    + intros (_ & _ & Hall) i a b Ha Hb. apply andb_false_iff. rewrite bool_decide_eq_false.
      destruct (Bool.eqb _ _) eqn:E; [|by left]. apply eqb_prop in E. right.
      specialize (Hall i a b Ha Hb E). lia.
  - split; [done|]. intros (_ & Hf & _). by apply Hsteps in Hf.
Qed.

Lemma traffic_nil traffic path : validateRolloutSpecCanaryTraffic traffic path = [] <-> legalRouting traffic.
Proof.
  unfold validateRolloutSpecCanaryTraffic, legalRouting.
  rewrite !app_nil, !nil_unless, nil_unless_dec, nil_if. unfold nonempty, hasNoName, hasNoRoute.
  rewrite negb_true_iff, String.eqb_neq, !andb_false_iff, !bool_decide_eq_false.
  split.
  - intros (Hg & Hs & Hr & Hi & Hgw). split_and!; [lia|done|tauto| |].
    + intros i Ei. rewrite Ei in Hi. by apply String.eqb_neq.
    + intros g Eg. rewrite Eg in Hgw. destruct (HTTPRouteName g) as [name|]; [|done].
      exists name. split; [done|]. by apply String.eqb_neq.
  - intros (Hg & Hs & Hr & Hi & Hgw). split_and!; [lia|done|tauto| |].
    + destruct (Ingress traffic); [|done]. by apply String.eqb_neq, Hi.
    + destruct (Gateway traffic) as [g|]; [|done]. destruct (Hgw g eq_refl) as (name & -> & Hn).
      by apply String.eqb_neq.
Qed.

Lemma plan_nil c steps routings path :
  validateStepsAndTraffic c steps routings path = [] <-> legalPlan (vc_style c) steps routings.
Proof.
  unfold validateStepsAndTraffic, legalPlan.
  rewrite !app_nil, steps_nil, nil_unless_dec, (flat_map_nil _ legalRouting) by (intros; apply traffic_nil).
  split; [intros ((? & ? & ?) & ? & ?)|intros (? & ? & ? & ? & ?)]; split_and!; try done; lia.
Qed.

Lemma ref_nil c workloadRef path :
  let gvk := FromAPIVersionAndKind (APIVersion workloadRef) (Kind workloadRef) in
  validateRolloutSpecObjectRef c workloadRef path = []
  <-> IsSupportedWorkload gvk = true
      /\ (vc_style c = BlueGreenRollingStyle ->
          exists allowed, allowed ∈ [ControllerKindDep; ControllerKruiseKindCS]
          /\ Group gvk = Group allowed /\ GVKKind gvk = GVKKind allowed).
Proof.
  intros gvk. unfold validateRolloutSpecObjectRef. fold gvk.
  destruct (IsSupportedWorkload gvk); simpl; [|split; [done|by intros [? _]]].
  case_decide as Hs; [|split; [|done]; split; [done|by intros ?]].
  match goal with |- context [if ?x then _ else _] => set (found := x) end.
  assert (Hfound : found = true <-> exists allowed, allowed ∈ [ControllerKindDep; ControllerKruiseKindCS]
          /\ Group gvk = Group allowed /\ GVKKind gvk = GVKKind allowed).
  { unfold found. change (_ || _) with (existsb (fun allowed => String.eqb (Group gvk) (Group allowed)
      && String.eqb (GVKKind gvk) (GVKKind allowed)) [ControllerKindDep; ControllerKruiseKindCS]).
    rewrite existsb_exists. setoid_rewrite list_elem_of_In.
    setoid_rewrite andb_true_iff. setoid_rewrite String.eqb_eq. done. }
  destruct found; simpl; [|split; [done|]]; naive_solver.
Qed.

(** The context is there for every Rollout, and with it the check is exact. *)
Lemma spec_nil rollout path :
  exists c, GetContextFromv1beta1Rollout rollout = Ok c
  /\ (validateRolloutSpec c rollout path = [] <-> legalRollout rollout).
Proof.
  unfold GetContextFromv1beta1Rollout, legalRollout, IsRealPartition, IsEmptyRelease, GetRollingStyle,
    validateRolloutSpec, validateRolloutSpecStrategy.
  destruct (Canary (ro_Strategy rollout)) as [canary|], (BlueGreen (ro_Strategy rollout)) as [bg|]; simpl.
  - eexists. split; [done|]. rewrite app_nil. naive_solver.
  - fold (isDeployment (WorkloadRef (ro_Spec rollout))).
    set (isDep := isDeployment (WorkloadRef (ro_Spec rollout))).
    exists (mkValidateContext (if cn_EnableExtraWorkloadForCanary canary && isDep
                               then CanaryRollingStyle else PartitionRollingStyle)).
    split; [by destruct (cn_EnableExtraWorkloadForCanary canary), isDep|].
    rewrite app_nil, ref_nil. unfold validateRolloutSpecCanaryStrategy. rewrite plan_nil. simpl.
    fold (workloadGVK rollout). destruct (_ && isDep); naive_solver.
  - eexists. split; [done|]. rewrite app_nil, ref_nil.
    unfold validateRolloutSpecBlueGreenStrategy. rewrite plan_nil. simpl.
    fold (workloadGVK rollout). naive_solver.
  - eexists. split; [done|]. rewrite app_nil. naive_solver.
Qed.
End legal.

(** ** Admission *)

Section admission.
Context {W : Type} `{Api W Rollout} `{Api W alpha_Rollout} `{ListApi W Rollout} `{ListApi W alpha_Rollout}
  `{Decoder Rollout} `{Decoder alpha_Rollout} `{K8sLib} `{WorkloadFilter} `{PartitionLimit}.

(** The other Rollouts of the namespace, and that none of them claims the workload. *)
Definition othersOf (rollout : Rollout) : M W (list Rollout) :=
  api_List (O := Rollout) (Namespace (ro_Meta rollout)) (fun _ => true).
Definition noConflict (rollout : Rollout) (others : list Rollout) : Prop :=
  forall r, r ∈ others -> WorkloadRef (ro_Spec r) = WorkloadRef (ro_Spec rollout) ->
    Name (ro_Meta r) = Name (ro_Meta rollout).

Lemma conflictWith_nil {O} (meta : O -> ObjectMeta) same name others :
  conflictWith meta same name others = []
  <-> forall r, r ∈ others -> same r = true -> Name (meta r) = name.
Proof.
  unfold conflictWith. destruct (list_find _ others) as [[i r]|] eqn:E.
  - apply list_find_Some in E as (Hi & [Hne Hs] & _). split; [done|]. intros Hall. destruct Hne.
    apply Hall; [by eapply list_elem_of_lookup_2|done].
  - apply list_find_None in E. split; [|done]. intros _ r Hr Hs.
    rewrite Forall_forall in E. apply dec_stable. intros Hne. by apply (E r Hr).
Qed.

(** What validation answers, by what listing the other Rollouts answers. *)
Lemma validateRollout_run rollout (w : W) :
  match othersOf rollout w with
  | (Ok others, w') => exists errs, validateRollout rollout w = (Ok errs, w')
      /\ (errs = [] <-> legalRollout rollout /\ noConflict rollout others)
  | (Err _, w') => exists errs, validateRollout rollout w = (Ok errs, w') /\ errs <> []
  | (Panic, w') => validateRollout rollout w = (Panic, w')
  end.
Proof.
  unfold validateRollout. destruct (spec_nil rollout specPath) as (c & -> & Hspec).
  unfold lift, bind at 1. unfold validateRolloutConflict. fold (othersOf rollout).
  destruct (othersOf rollout w) as [[others|e|] w'] eqn:E; unfold bind, catch; rewrite E; simpl.
  - eexists. split; [done|]. rewrite app_nil, Hspec, conflictWith_nil. unfold noConflict.
    setoid_rewrite bool_decide_eq_true. done.
  - eexists. split; [done|]. intros Hnil. by apply app_nil in Hnil as [_ ?].
  - done.
Qed.

Definition createOf (rollout : Rollout) (req : AdmissionRequest) : Prop :=
  req_Operation req = OpCreate /\ req_Version req <> "v1alpha1"%string
  /\ Decode (req_Object req) = inl rollout.

(** C36. Which Rollouts are admitted.  A request to create a Rollout is allowed exactly
    when the Rollout is legal (a supported workload, exactly one strategy, steps whose
    replicas and traffic lie in their bounds and do not decrease, at most one complete
    traffic routing) and no other Rollout of the namespace claims its workload; every
    other answer is an error: 422 with complaints when the Rollout is not legal, in
    conflict or the others cannot be listed, and 400 when it cannot be decoded.  The
    handler panics only when the client does. *)
Theorem create_admitted (req : AdmissionRequest) (w : W)
    (Hop : req_Operation req = OpCreate) (Hversion : req_Version req <> "v1alpha1"%string) :
  match Decode (O := Rollout) (req_Object req) with
  | inr err => validating_Handle req w = (Ok (ErroredRequest 400 err), w)
  | inl rollout =>
      match othersOf rollout w with
      | (Ok others, w') =>
          (legalRollout rollout /\ noConflict rollout others /\ validating_Handle req w = (Ok Allowed, w'))
          \/ (~ (legalRollout rollout /\ noConflict rollout others)
              /\ exists errs, errs <> [] /\ validating_Handle req w = (Ok (ErroredInvalid 422 errs), w'))
      | (Err err, w') => exists errs, errs <> [] /\ validating_Handle req w = (Ok (ErroredInvalid 422 errs), w')
      | (Panic, w') => validating_Handle req w = (Panic, w')
      end
  end.
Proof.
  unfold validating_Handle, answerRequest. rewrite Hop, (proj2 (String.eqb_neq _ _) Hversion).
  destruct (Decode (req_Object req)) as [rollout|err]; [|done].
  pose proof (validateRollout_run rollout w) as Hrun.
  destruct (othersOf rollout w) as [[others|e|] w'].
  - destruct Hrun as (errs & Hv & Hnil). unfold bind. rewrite Hv.
    destruct errs as [|e errs]; simpl.
    + left. destruct (proj1 Hnil eq_refl). by split_and!.
    + right. split; [by intros Hlegal%Hnil|]. by exists (e :: errs).
  - destruct Hrun as (errs & Hv & Hne). exists errs. split; [done|]. unfold bind. rewrite Hv.
    by destruct errs.
  - unfold bind. by rewrite Hrun.
Qed.

(** What an update of a Rollout keeps. *)
Definition keptParts (oldObj newObj : Rollout) : Prop :=
  WorkloadRef (ro_Spec oldObj) = WorkloadRef (ro_Spec newObj)
  /\ (exists routings, GetTrafficRouting (ro_Strategy oldObj) = Ok routings
                       /\ GetTrafficRouting (ro_Strategy newObj) = Ok routings)
  /\ (exists style, GetRollingStyle (ro_Strategy oldObj) = Ok style
                    /\ GetRollingStyle (ro_Strategy newObj) = Ok style)
  /\ exists oldSteps newSteps, GetSteps (ro_Strategy oldObj) = Ok oldSteps
     /\ GetSteps (ro_Strategy newObj) = Ok newSteps /\ len oldSteps = len newSteps.

Lemma immutable_kept oldObj newObj : immutableParts oldObj newObj = Ok [] -> keptParts oldObj newObj.
Proof.
  unfold immutableParts. intros E.
  destruct (bool_decide (WorkloadRef _ = _)) eqn:Eref; [|done]. apply bool_decide_eq_true in Eref. simpl in E.
  apply res_bind_Ok in E as (r1 & Hr1 & E). apply res_bind_Ok in E as (r2 & Hr2 & E).
  destruct (bool_decide (r1 = r2)) eqn:Er; [|done]. apply bool_decide_eq_true in Er as ->. simpl in E.
  apply res_bind_Ok in E as (s1 & Hs1 & E). apply res_bind_Ok in E as (s2 & Hs2 & E).
  destruct (bool_decide (s1 = s2)) eqn:Es; [|done]. apply bool_decide_eq_true in Es as ->. simpl in E.
  apply res_bind_Ok in E as (t1 & Ht1 & E). apply res_bind_Ok in E as (t2 & Ht2 & E).
  destruct (bool_decide (len t1 = len t2)) eqn:Et; [|done]. apply bool_decide_eq_true in Et.
  unfold keptParts. split_and!; [done|by exists r2|by exists s2|by exists t1, t2].
Qed.

(** C37. Which updates are admitted.  When a request to update a Rollout is allowed, the
    new Rollout decodes and is legal; the Rollout as the server has it was read; and if
    that one progresses or terminates, the workload, the traffic routings, the rolling
    style and the number of steps are those of the old one, so that the step index and
    the routes of the release in progress keep their meaning. *)
Theorem update_admitted (req : AdmissionRequest) (w w' : W)
    (Hop : req_Operation req = OpUpdate) (Hversion : req_Version req <> "v1alpha1"%string)
    (Hrun : validating_Handle req w = (Ok Allowed, w')) :
  exists newObj oldObj latest w0 w1,
    Decode (req_Object req) = inl newObj /\ Decode (req_OldObject req) = inl oldObj
    /\ legalRollout newObj
    /\ api_Get (O := Rollout) (keyOf (ro_Meta newObj)) w0 = (Ok latest, w1)
    /\ (Phase (ro_Status latest) = RolloutPhaseProgressing
        \/ Phase (ro_Status latest) = RolloutPhaseTerminating -> keptParts oldObj newObj).
Proof.
  unfold validating_Handle, answerRequest in Hrun. rewrite Hop, (proj2 (String.eqb_neq _ _) Hversion) in Hrun.
  destruct (Decode (req_Object req)) as [newObj|err]; [|by inv_run].
  apply bind_Ok_inv in Hrun as (errs & w0 & Hv & Hrun).
  destruct (bool_decide (len errs <> 0)) eqn:Elen; [by inv_run|].
  assert (errs = []) as -> by (by destruct errs).
  destruct (Decode (req_OldObject req)) as [oldObj|err]; [|by inv_run].
  apply bind_Ok_inv in Hrun as (errs & w2 & Hu & Hrun).
  destruct (bool_decide (len errs <> 0)) eqn:Elen'; [by inv_run|].
  assert (errs = []) as -> by (by destruct errs).
  unfold validateRolloutUpdate, validateUpdate in Hu.
  apply bind_Ok_inv in Hu as ([latest|e] & w1 & Hget & Hu); [|by inv_run].
  apply catch_Ok_inv in Hget.
  apply bind_Ok_inv in Hu as (errs & w3 & Hv2 & Hu).
  destruct errs as [|e errs]; [|by inv_run].
  exists newObj, oldObj, latest, w0, w1. split; [done|]. split; [done|].
  split; [|split; [done|]].
  - pose proof (validateRollout_run newObj w) as Hr. destruct (othersOf newObj w) as [[others|e|] wx].
    + destruct Hr as (errs & Hv' & Hnil). rewrite Hv' in Hv. injection Hv as -> <-. by apply Hnil.
    + destruct Hr as (errs & Hv' & Hne). rewrite Hv' in Hv. injection Hv as -> <-. done.
    + congruence.
  - intros Hphase. unfold restricted in Hu.
    replace (bool_decide _ || bool_decide _) with true in Hu.
    + inv_run. by apply immutable_kept.
    + symmetry. rewrite orb_true_iff, !bool_decide_eq_true. done.
Qed.

(** The older version.  Validating a v1alpha1 Rollout panics exactly when it has a
    canary strategy of canary style but no reference to a workload, which is what
    validation should have complained about, or when listing the others panics; it
    returns no error.  A Rollout it lets pass can be converted to v1beta1, and one whose
    canary strategy or workload reference is missing never passes. *)
Theorem alpha_admitted (rollout : alpha_Rollout) (w : W) :
  let style := toLower (annotation (a_Meta rollout) RolloutStyleAnnotation) in
  let blind := a_Canary (a_Spec rollout) <> None /\ a_WorkloadRef (a_Spec rollout) = None
               /\ (style = ""%string \/ style = "canary"%string) in
  match validateV1alpha1Rollout rollout w with
  | (Panic, w') => (blind /\ w' = w)
      \/ (~ blind /\ api_List (O := alpha_Rollout) (Namespace (a_Meta rollout)) (fun _ => true) w = (Panic, w'))
  | (Err _, _) => False
  | (Ok errs, _) => ~ blind /\ (errs = [] -> exists converted, rollout_ConvertTo rollout = Ok converted)
  end.
Proof.
  intros style blind. unfold validateV1alpha1Rollout, GetContextFromv1alpha1Rollout.
  fold style. unfold validateV1alpha1RolloutSpec, validateV1alpha1RolloutSpecCanaryStrategy,
    validateV1alpha1RolloutConflict, rollout_ConvertTo.
  assert (Hstyle : (String.eqb style "" || String.eqb style "canary") = true
                   <-> style = ""%string \/ style = "canary"%string)
    by (by rewrite orb_true_iff, !String.eqb_eq).
  unfold blind. destruct (a_Canary (a_Spec rollout)) as [canary|], (a_WorkloadRef (a_Spec rollout)) as [ref|].
  - destruct (_ || _); unfold bind, lift, catch; simpl;
      (destruct (api_List _ _ w) as [[others|e|] w']; simpl;
       [split; [naive_solver|by eexists] | split; [naive_solver|by eexists] | right; split; [naive_solver|done]]).
  - destruct (_ || _); unfold bind, lift, catch; simpl; [left; naive_solver|].
    destruct (api_List _ _ w) as [[others|e|] w']; simpl; [naive_solver..|].
    right. split; [|done]. intros (_ & _ & Hs). by apply Hstyle in Hs.
  - unfold bind, lift, catch; simpl.
    destruct (api_List _ _ w) as [[others|e|] w']; simpl.
    + split; [naive_solver|]. rewrite !app_nil. naive_solver.
    + split; [naive_solver|]. rewrite !app_nil. naive_solver.
    + right. naive_solver.
  - unfold bind, lift, catch; simpl.
    destruct (api_List _ _ w) as [[others|e|] w']; simpl; [naive_solver..|].
    right. naive_solver.
Qed.
End admission.
