(* ===== verification/TrafficRoutingController.v ===== *)
(** * The TrafficRouting controller (pkg/controller/trafficrouting/trafficrouting_controller.go)

    A TrafficRouting follows the Rollouts that hold it with a finalizer: the controller
    routes while there is one and restores afterwards, with the manager of
    TrafficManager.v.  Registration and watches are not modelled. *)

From S2P Require Export RolloutUtil Conversion.

Definition ProgressingRolloutFinalizerPrefix : string := "progressing.rollouts.kruise.io".
Definition TrafficRoutingFinalizer : string := "rollouts.kruise.io/trafficrouting".
Definition tr_defaultGracePeriodSeconds : Z := 3.

(** [strings.Contains] *)
Definition Contains (s substr : string) : bool :=
  match String.index 0 substr s with Some _ => true | None => false end.

Definition rolloutProgressingFinalizer (tr : TrafficRouting) : gset string :=
  list_to_set (List.filter (fun s => Contains s ProgressingRolloutFinalizerPrefix)
                 (Finalizers (tro_Meta tr))).

Definition newTrafficRoutingContext (tr : TrafficRouting) : TrafficRoutingContext := {|
  tr_Key := "TrafficRouting(" +:+ Namespace (tro_Meta tr) +:+ "/" +:+ Name (tro_Meta tr) +:+ ")";
  tr_Namespace := Namespace (tro_Meta tr);
  ObjectRef_ := map ConversionToV1beta1TrafficRoutingRef (tro_ObjectRef tr);
  tr_Strategy := ConversionToV1beta1TrafficRoutingStrategy (tro_Strategy tr);
  CanaryServiceSelectorPatch := ∅;
  OnlyTrafficRouting := true;
  OwnerRef := NewControllerRef (tro_Meta tr) "rollouts.kruise.io/v1alpha1" "TrafficRouting";
  RevisionLabelKey := "";
  tr_StableRevision := "";
  tr_CanaryRevision := "";
  tr_LastUpdateTime := None;
  tr_DisableGenerateCanaryService := false;
  RecheckDuration := 0
|}.

Section controller.
Context {W : Type} `{Clock W} `{Api W TrafficRouting} `{Retry W} `{TrafficManager W} `{K8sLib}.

(** A call of the manager on a context of its own. *)
Definition onContext {A} (tr : TrafficRouting) (m : M (TrafficRoutingContext * W) A) : M W A :=
  fun w => let '(r, (_, w')) := m (newTrafficRoutingContext tr, w) in (r, w').

Definition tr_handleFinalizer (tr : TrafficRouting) : M W unit :=
  if deleting (tro_Meta tr) then UpdateFinalizer tr RemoveFinalizerOpType TrafficRoutingFinalizer
  else if ContainsFinalizer (tro_Meta tr) TrafficRoutingFinalizer then ret tt
  else UpdateFinalizer tr AddFinalizerOpType TrafficRoutingFinalizer.

Definition updateTrafficRoutingStatus (tr : TrafficRouting) (newStatus : TrafficRoutingStatus) : M W unit :=
  if bool_decide (tro_Status tr = newStatus) then ret tt else
  trClone <- api_Get (O := TrafficRouting) (keyOf (tro_Meta tr)) ;;
  api_UpdateStatus (trClone <| tro_Status := newStatus |>).

(** The phase to act on. *)
Definition startPhase (tr : TrafficRouting) : TrafficRoutingStatus :=
  let s := tro_Status tr in
  let s := if decide (trs_Phase s = TrafficRoutingPhaseNone)
           then s <| trs_Phase := TrafficRoutingPhaseInitial |>
                  <| trs_Message := "TrafficRouting is Initializing" |>
           else s in
  if deleting (tro_Meta tr) then s <| trs_Phase := TrafficRoutingPhaseTerminating |> else s.

Definition enter (phase : TrafficRoutingPhase) (message : string) (s : TrafficRoutingStatus)
    : TrafficRoutingStatus := s <| trs_Phase := phase |> <| trs_Message := message |>.
Definition healthy := enter TrafficRoutingPhaseHealthy "TrafficRouting is Healthy".

(** The switch: whether the work of the phase is done, and the new status. *)
Definition reconcilePhase (tr : TrafficRouting) (s : TrafficRoutingStatus)
    : M W (bool * TrafficRoutingStatus) :=
  let held := bool_decide (rolloutProgressingFinalizer tr <> ∅) in
  match trs_Phase s with
  | TrafficRoutingPhaseInitial =>
      onContext tr tm_InitializeTrafficRouting ;; ret (true, healthy s)
  | TrafficRoutingPhaseHealthy =>
      ret (true, if held then enter TrafficRoutingPhaseProgressing "TrafficRouting is Progressing" s else s)
  | TrafficRoutingPhaseProgressing =>
      if held then done <- onContext tr tm_DoTrafficRouting ;; ret (done : bool, s)
      else ret (true, enter TrafficRoutingPhaseFinalizing "TrafficRouting is Finalizing" s)
  | TrafficRoutingPhaseFinalizing =>
      done <- onContext tr tm_FinalisingTrafficRouting ;;
      ret (done : bool, if done then healthy s else s)
  | TrafficRoutingPhaseTerminating =>
      done <- onContext tr tm_FinalisingTrafficRouting ;;
      if done : bool then tr_handleFinalizer tr ;; ret (true, s) else ret (false, s)
  | _ => ret (true, s)
  end.

(** [RequeueAfter], nothing when the queue is to forget the object. *)
Definition tr_Reconcile (key : ObjectKey) : M W (option Z) :=
  r <- catch (api_Get (O := TrafficRouting) key) ;;
  match r with
  | inr err => if IsNotFound err then ret None else fail err
  | inl tr =>
      tr_handleFinalizer tr ;;
      p <- reconcilePhase tr (startPhase tr) ;;
      let '(done, newStatus) := p in
      if negb done then
        now <- time_Now ;;
        now' <- time_Now ;;
        ret (Some (now + tr_defaultGracePeriodSeconds * Second - now'))
      else
        updateTrafficRoutingStatus tr
          (newStatus <| trs_ObservedGeneration := Generation (tro_Meta tr) |>) ;;
        ret None
  end.
End controller.

(** ** Properties *)

Section properties.
Context {W : Type} `{Clock W} `{Api W TrafficRouting} `{Retry W} `{TrafficManager W} `{K8sLib}.

Definition isHeld (tr : TrafficRouting) : Prop :=
  exists f, f ∈ Finalizers (tro_Meta tr) /\ Contains f ProgressingRolloutFinalizerPrefix = true.

Lemma held_spec tr : rolloutProgressingFinalizer tr <> ∅ <-> isHeld tr.
Proof.
  unfold rolloutProgressingFinalizer, isHeld. split.
  - intros Hne. apply set_choose_L in Hne as [f Hf]. apply elem_of_list_to_set in Hf.
    apply list_elem_of_In, filter_In in Hf as [Hf Hc]. exists f. split; [by apply list_elem_of_In|done].
  - intros (f & Hf & Hc) E. assert (Hin : f ∈ (∅ : gset string)).
    { rewrite <- E. apply elem_of_list_to_set, list_elem_of_In, filter_In.
      split; [by apply list_elem_of_In|done]. }
    set_solver.
Qed.

(** One move of the machine of a TrafficRouting, and the call that allows it. *)
Inductive phaseEdge (tr : TrafficRouting) (w w' : W) : TrafficRoutingPhase -> TrafficRoutingPhase -> Prop :=
  | edge_initialized :
      onContext tr tm_InitializeTrafficRouting w = (Ok tt, w') ->
      phaseEdge tr w w' TrafficRoutingPhaseInitial TrafficRoutingPhaseHealthy
  | edge_idle :
      ~ isHeld tr -> w' = w -> phaseEdge tr w w' TrafficRoutingPhaseHealthy TrafficRoutingPhaseHealthy
  | edge_held :
      isHeld tr -> w' = w -> phaseEdge tr w w' TrafficRoutingPhaseHealthy TrafficRoutingPhaseProgressing
  | edge_routed :
      isHeld tr -> onContext tr tm_DoTrafficRouting w = (Ok true, w') ->
      phaseEdge tr w w' TrafficRoutingPhaseProgressing TrafficRoutingPhaseProgressing
  | edge_released :
      ~ isHeld tr -> w' = w ->
      phaseEdge tr w w' TrafficRoutingPhaseProgressing TrafficRoutingPhaseFinalizing
  | edge_restored :
      onContext tr tm_FinalisingTrafficRouting w = (Ok true, w') ->
      phaseEdge tr w w' TrafficRoutingPhaseFinalizing TrafficRoutingPhaseHealthy
  | edge_terminated w1 :
      onContext tr tm_FinalisingTrafficRouting w = (Ok true, w1) ->
      tr_handleFinalizer tr w1 = (Ok tt, w') ->
      phaseEdge tr w w' TrafficRoutingPhaseTerminating TrafficRoutingPhaseTerminating
  | edge_unknown s :
      w' = w -> phaseEdge tr w w' (TrafficRoutingPhaseOther s) (TrafficRoutingPhaseOther s).

(** The phases in which the manager may answer that it needs another call. *)
Definition unfinished (tr : TrafficRouting) (w w' : W) (phase : TrafficRoutingPhase) : Prop :=
  match phase with
  | TrafficRoutingPhaseProgressing =>
      isHeld tr /\ onContext tr tm_DoTrafficRouting w = (Ok false, w')
  | TrafficRoutingPhaseFinalizing | TrafficRoutingPhaseTerminating =>
      onContext tr tm_FinalisingTrafficRouting w = (Ok false, w')
  | _ => False
  end.

Lemma startPhase_phase tr :
  trs_Phase (startPhase tr)
  = if deleting (tro_Meta tr) then TrafficRoutingPhaseTerminating
    else if decide (trs_Phase (tro_Status tr) = TrafficRoutingPhaseNone) then TrafficRoutingPhaseInitial
    else trs_Phase (tro_Status tr).
Proof. unfold startPhase. by destruct (deleting _); case_decide. Qed.

Lemma reconcilePhase_edge tr s (w w' : W) finished s' :
  trs_Phase s <> TrafficRoutingPhaseNone ->
  reconcilePhase tr s w = (Ok (finished, s'), w') ->
  if finished then phaseEdge tr w w' (trs_Phase s) (trs_Phase s')
  else unfinished tr w w' (trs_Phase s).
Proof.
  intros Hnone. unfold reconcilePhase. pose proof (held_spec tr) as Hheld.
  destruct (trs_Phase s) eqn:Ep; intros Hrun; try done.
  - inv_run. simpl. apply edge_initialized. by match goal with u : unit |- _ => destruct u end.
  - inv_run. case_bool_decide; [simpl; apply edge_held; tauto|rewrite Ep; apply edge_idle; tauto].
  - case_bool_decide; [|inv_run; simpl; apply edge_released; tauto].
    apply bind_Ok_inv in Hrun as (isDone & w1 & Hd & Hrun).
    apply ret_Ok_inv in Hrun as [[= -> ->] ->].
    destruct isDone; [rewrite Ep; apply edge_routed; tauto|simpl; tauto].
  - apply bind_Ok_inv in Hrun as (isDone & w1 & Hd & Hrun).
    apply ret_Ok_inv in Hrun as [[= -> ->] ->]. destruct isDone; [simpl; by apply edge_restored|done].
  - apply bind_Ok_inv in Hrun as (isDone & w1 & Hf & Hrun). destruct isDone; inv_run; [|done].
    rewrite Ep. eapply edge_terminated; [done|]. by match goal with u : unit |- _ => destruct u end.
  - inv_run. rewrite Ep. by apply edge_unknown.
Qed.

(** C38. The machine of a TrafficRouting.  A reconciliation that ends without an error found
    no TrafficRouting, or read one and first brought its finalizer up to date; then it
    followed one edge of the machine (healthy once initialized, progressing while a
    Rollout holds it, finalizing when released, healthy again only when the manager
    reported everything restored) and wrote the phase the edge leads to, or the manager
    needed another call and the reconciliation asked to be run again without writing a
    status.  A deleted one is terminating whatever its phase; its finalizer is removed
    at the start, before the first call of the manager, so nothing keeps the object
    until the routes are restored. *)
Theorem trafficrouting_phases (key : ObjectKey) (w w' : W) (requeue : option Z)
    (Hrun : tr_Reconcile key w = (Ok requeue, w')) :
  (api_Get (O := TrafficRouting) key w = (Err ErrNotFound, w') /\ requeue = None)
  \/ exists tr w0 w1 w2,
      api_Get (O := TrafficRouting) key w = (Ok tr, w0)
      /\ (if deleting (tro_Meta tr)
          then UpdateFinalizer tr RemoveFinalizerOpType TrafficRoutingFinalizer w0 = (Ok tt, w1)
          else ContainsFinalizer (tro_Meta tr) TrafficRoutingFinalizer = true /\ w1 = w0
               \/ UpdateFinalizer tr AddFinalizerOpType TrafficRoutingFinalizer w0 = (Ok tt, w1))
      /\ let phase := trs_Phase (startPhase tr) in
         (deleting (tro_Meta tr) = true -> phase = TrafficRoutingPhaseTerminating)
         /\ ((unfinished tr w1 w2 phase /\ is_Some requeue)
             \/ exists status, phaseEdge tr w1 w2 phase (trs_Phase status) /\ requeue = None
                /\ trs_ObservedGeneration status = Generation (tro_Meta tr)
                /\ updateTrafficRoutingStatus tr status w2 = (Ok tt, w')).
Proof.
  unfold tr_Reconcile in Hrun. apply bind_Ok_inv in Hrun as (r & w0 & Hget & Hrun).
  apply catch_Ok_inv in Hget. destruct r as [tr|err].
  2: { left. by destruct err; inv_run. }
  right. apply bind_Ok_inv in Hrun as ([] & w1 & Hfin & Hrun).
  apply bind_Ok_inv in Hrun as ([finished status] & w2 & Hphase & Hrun).
  exists tr, w0, w1, w2. split; [done|]. split.
  { unfold tr_handleFinalizer in Hfin. destruct (deleting _); [done|].
    destruct (ContainsFinalizer _ _); [left; by inv_run|by right]. }
  apply reconcilePhase_edge in Hphase; [|rewrite startPhase_phase; by destruct (deleting _); [|case_decide]].
  split; [intros Hd; by rewrite startPhase_phase, Hd|].
  destruct finished; simpl in Hrun.
  - right. apply bind_Ok_inv in Hrun as ([] & w3 & Hup & Hrun). apply ret_Ok_inv in Hrun as [-> ->].
    eexists. split; [|split; [done|split; [|exact Hup]]]; done.
  - left. inv_run. by eexists.
Qed.
End properties.
