(* ===== verification/BatchControl.v ===== *)
(** * The workload as a batch release sees it (pkg/controller/batchrelease)

    The interface of the control planes, the batch context and the helpers of
    control/util.go, with what they compute; the summary is in Workloads.v. *)

From S2P Require Export RolloutController Workloads.

(** ** The control interface (control/interface.go) *)

Inductive WorkloadEventType :=
  | WorkloadNormalState
  | WorkloadUnknownState
  | WorkloadPodTemplateChanged
  | WorkloadReplicasChanged
  | WorkloadStillReconciling
  | WorkloadHasGone
  | WorkloadRollbackInBatch.
#[export] Instance WorkloadEventType_eq_dec : EqDecision WorkloadEventType.
Proof. solve_decision. Defined.

(** A control plane shares the new status of the BatchRelease with the executor, so
    its methods run over that status and the world.  [SyncWorkloadInformation]
    returns an event and a (possibly nil) summary next to its error. *)
Record ControlInterface (W : Type) := mkControl {
  cp_Initialize : M (BatchReleaseStatus * W) unit;
  cp_UpgradeBatch : M (BatchReleaseStatus * W) unit;
  cp_EnsureBatchPodsReadyAndLabeled : M (BatchReleaseStatus * W) unit;
  cp_Finalize : M (BatchReleaseStatus * W) unit;
  cp_SyncWorkloadInformation :
    M (BatchReleaseStatus * W) (WorkloadEventType * option WorkloadInfo * option goerror)
}.
Arguments mkControl {W}.
Arguments cp_Initialize {W}.
Arguments cp_UpgradeBatch {W}.
Arguments cp_EnsureBatchPodsReadyAndLabeled {W}.
Arguments cp_Finalize {W}.
Arguments cp_SyncWorkloadInformation {W}.

(** What a control plane leaves alone: the fields that hold the state of the
    executor's machine. *)
Definition machineState (s : BatchReleaseStatus) :=
  (br_Phase s, CurrentBatchState (br_CanaryStatus s), CurrentBatch (br_CanaryStatus s),
   BatchReadyTime (br_CanaryStatus s), ObservedReleasePlanHash s, br_ObservedRolloutID s).
Definition machineFrame (s s' : BatchReleaseStatus) : Prop := machineState s' = machineState s.

#[export] Instance machineFrame_preorder : PreOrder machineFrame.
Proof. split; [by intros s|by intros s1 s2 s3 E1 E2; transitivity (machineState s2)]. Qed.

(** The contract of a control plane. *)
Record ControlLaws {W} (ctl : ControlInterface W) : Prop := {
  law_Initialize : preserves machineFrame (cp_Initialize ctl);
  law_UpgradeBatch : preserves machineFrame (cp_UpgradeBatch ctl);
  law_EnsureBatch : preserves machineFrame (cp_EnsureBatchPodsReadyAndLabeled ctl);
  law_Finalize : preserves machineFrame (cp_Finalize ctl);
  law_Sync : preserves eq (cp_SyncWorkloadInformation ctl);
}.

(** ** Batch sizes and percentages (control/util.go) *)

Section util.
Context `{K8sLib}.

(** [batches[currentBatch]] panics out of range. *)
Definition CalculateBatchReplicas (release : BatchRelease) (workloadReplicas currentBatch : Z)
    : res Z :=
  res_map (fun batch =>
    let batchSize := fst (GetScaledValueFromIntOrPercent (Some (batch_CanaryReplicas batch))
                            workloadReplicas true) in
    if decide (batchSize > workloadReplicas) then workloadReplicas
    else if decide (batchSize < 0) then 0 else batchSize)
  (go_index (Batches (br_Plan release)) currentBatch).

(** Go's [int32] product and truncating division; the pointer is read only in the last
    case. *)
Definition ParseIntegerAsPercentageIfPossible (stableReplicas allReplicas : Z)
    (canaryReplicas : option IntOrString) : res IntOrString :=
  if decide (stableReplicas >= allReplicas) then Ok (FromString "100%")
  else if decide (stableReplicas <= 0) then Ok (FromString "0%")
  else
    let pValue := Z.quot (wrap32 (stableReplicas * 100)) allReplicas in
    let percent := FromString (itoa pValue +:+ "%") in
    let restored := fst (GetScaledValueFromIntOrPercent (Some percent) allReplicas true) in
    if decide (restored <= 0) then
      res_map (fun canary => if String.eqb (StrVal canary) "100%" then percent else FromString "1%")
        (deref canaryReplicas)
    else Ok percent.

Definition IsCurrentMoreThanOrEqualToDesired (current desired : IntOrString) : bool :=
  bool_decide (fst (GetScaledValueFromIntOrPercent (Some current) 10000000 true)
               >= fst (GetScaledValueFromIntOrPercent (Some desired) 10000000 true)).
End util.

Definition ShouldWaitResume (release : BatchRelease) : bool :=
  bool_decide (FinalizingPolicy (br_Plan release) = WaitResumeFinalizingPolicyType).

(** ** The batch context (context/context.go) *)

(** The two functions of labelpatch/filter.go the field [FilterFunc] can hold. *)
Inductive FilterFuncType :=
  | FilterPodsForUnorderedUpdate
  | FilterPodsForOrderedUpdate.

Record BatchContext := mkBatchContext {
  bc_RolloutID : string;
  bc_CurrentBatch : Z;
  bc_UpdateRevision : string;
  bc_Replicas : Z;
  bc_UpdatedReplicas : Z;
  bc_UpdatedReadyReplicas : Z;
  bc_NoNeedUpdatedReplicas : option Z;
  bc_PlannedUpdatedReplicas : Z;
  bc_DesiredUpdatedReplicas : Z;
  bc_CurrentPartition : IntOrString;
  bc_DesiredPartition : IntOrString;
  bc_FailureThreshold : option IntOrString;
  bc_Pods : list Pod;
  bc_FilterFunc : option FilterFuncType;
  bc_CurrentSurge : IntOrString;
  bc_DesiredSurge : IntOrString
}.

#[export] Instance eta_BatchContext : Eta BatchContext := fun x =>
  mkBatchContext (bc_RolloutID x) (bc_CurrentBatch x) (bc_UpdateRevision x) (bc_Replicas x)
    (bc_UpdatedReplicas x) (bc_UpdatedReadyReplicas x) (bc_NoNeedUpdatedReplicas x)
    (bc_PlannedUpdatedReplicas x) (bc_DesiredUpdatedReplicas x) (bc_CurrentPartition x)
    (bc_DesiredPartition x) (bc_FailureThreshold x) (bc_Pods x) (bc_FilterFunc x)
    (bc_CurrentSurge x) (bc_DesiredSurge x).

Definition batchLabelSatisfied (pods : list Pod) (rolloutID : string) (targetCount : Z) : bool :=
  if String.eqb rolloutID "" || bool_decide (targetCount <= 0) then true else
  match pods with
  | [] => false
  | _ =>
      let patchedCount := WrappedPodCount pods (fun pod =>
        if deleting (pod_Meta pod) then false
        else String.eqb (mapget (Labels (pod_Meta pod)) RolloutIDLabel) rolloutID) in
      bool_decide (patchedCount >= targetCount)
  end.

Definition allowedUnavailable `{K8sLib} (threshold : option IntOrString) (replicas : Z) : Z :=
  match threshold with
  | Some t => wrap32 (fst (GetScaledValueFromIntOrPercent (Some t) replicas true))
  | None => 0
  end.

Definition IsBatchReady `{K8sLib} (bc : BatchContext) : res unit :=
  let toleration := allowedUnavailable (bc_FailureThreshold bc) (bc_UpdatedReplicas bc) in
  let enough := wrap32 (toleration + bc_UpdatedReadyReplicas bc) in
  if decide (bc_UpdatedReplicas bc < bc_DesiredUpdatedReplicas bc) then
    Err (ErrOther ("current batch not ready: updated replicas not satisfied, UpdatedReplicas "
      +:+ itoa (bc_UpdatedReplicas bc) +:+ " < DesiredUpdatedReplicas "
      +:+ itoa (bc_DesiredUpdatedReplicas bc)))
  else if decide (enough < bc_DesiredUpdatedReplicas bc) then
    Err (ErrOther ("current batch not ready: updated ready replicas not satisfied, allowedUnavailable + UpdatedReadyReplicas "
      +:+ itoa enough +:+ " < DesiredUpdatedReplicas " +:+ itoa (bc_DesiredUpdatedReplicas bc)))
  else if decide (bc_DesiredUpdatedReplicas bc > 0 /\ bc_UpdatedReadyReplicas bc = 0) then
    Err (ErrOther ("current batch not ready: no updated ready replicas, DesiredUpdatedReplicas "
      +:+ itoa (bc_DesiredUpdatedReplicas bc) +:+ " > 0 and UpdatedReadyReplicas "
      +:+ itoa (bc_UpdatedReadyReplicas bc) +:+ " = 0"))
  else if negb (batchLabelSatisfied (bc_Pods bc) (bc_RolloutID bc) (bc_PlannedUpdatedReplicas bc)) then
    Err (ErrOther ("current batch not ready: pods with batch label not satisfied, RolloutID "
      +:+ bc_RolloutID bc +:+ ", PlannedUpdatedReplicas " +:+ itoa (bc_PlannedUpdatedReplicas bc)))
  else Ok tt.

(** ** Lemmas *)

(** The pods that carry the batch label of the rollout. *)
Definition labelled (rolloutID : string) (pod : Pod) : Prop :=
  deleting (pod_Meta pod) = false /\ mapget (Labels (pod_Meta pod)) RolloutIDLabel = rolloutID.
#[export] Instance labelled_dec rolloutID pod : Decision (labelled rolloutID pod).
Proof. unfold labelled. apply _. Defined.

Lemma batchLabelSatisfied_iff pods rolloutID target :
  batchLabelSatisfied pods rolloutID target = true
  <-> (rolloutID <> ""%string -> target <= len (filter (labelled rolloutID) pods)).
Proof.
  unfold batchLabelSatisfied. destruct (String.eqb_spec rolloutID "") as [->|Hid]; simpl; [naive_solver|].
  case_bool_decide as Ht; simpl.
  { split; [|done]. intros _ _. pose proof (len_nonneg (filter (labelled rolloutID) pods)). lia. }
  assert (E : WrappedPodCount pods (fun pod => if deleting (pod_Meta pod) then false
      else String.eqb (mapget (Labels (pod_Meta pod)) RolloutIDLabel) rolloutID)
      = len (filter (labelled rolloutID) pods)).
  { rewrite WrappedPodCount_length. f_equal. apply list_filter_iff. intros pod. unfold labelled.
    destruct (deleting (pod_Meta pod)); [naive_solver|]. rewrite String.eqb_eq. naive_solver. }
  destruct pods as [|pod pods].
  { split; [done|]. intros Hle. specialize (Hle Hid). unfold len in Hle. simpl in Hle. lia. }
  rewrite E, bool_decide_eq_true. split; [intros; lia|]. intros Hle. specialize (Hle Hid). lia.
Qed.

(** ** Properties *)

Section util_properties.
Context `{K8sLib} `{!K8sLaws}.

(** The size of a batch.  It panics exactly for an index that is no batch of the
    plan; else it lies between zero and the replicas of the workload.  An absolute
    number is taken as it is within these bounds, and a percentage is rounded up: the
    batch is never smaller than the percentage asked for and less than one
    replica larger, so that a full percentage releases every replica. *)
Theorem CalculateBatchReplicas_spec (release : BatchRelease) (replicas i : Z)
    (Hreplicas : 0 <= replicas < 2 ^ 31) :
  match go_index (Batches (br_Plan release)) i with
  | Ok batch => exists n, CalculateBatchReplicas release replicas i = Ok n /\ 0 <= n <= replicas
      /\ (forall k, batch_CanaryReplicas batch = FromInt k -> n = Z.max 0 (Z.min k replicas))
      /\ (forall p, 0 <= p <= 100 -> batch_CanaryReplicas batch = FromString (itoa p +:+ "%") ->
            p * replicas <= 100 * n < p * replicas + 100)
  | _ => CalculateBatchReplicas release replicas i = Panic
         /\ ~ (0 <= i < len (Batches (br_Plan release)))
  end.
Proof.
  unfold CalculateBatchReplicas.
  destruct (go_index (Batches (br_Plan release)) i) as [batch|e|] eqn:E; simpl.
  - eexists. split; [done|]. set (size := fst _). split; [repeat case_decide; lia|]. split.
    + intros k Ek. unfold size. rewrite Ek, scaled_int. simpl. repeat case_decide; lia.
    + intros p Hp Ek. unfold size. rewrite Ek, scaled_percent by lia. simpl.
      pose proof (Z.div_mod (replicas * p + 99) 100 ltac:(lia)).
      pose proof (Z.mod_pos_bound (replicas * p + 99) 100 ltac:(lia)).
      repeat case_decide; nia.
  - unfold go_index in E. case_decide; [|done]. by destruct (_ !! _).
  - split; [done|]. intros Hi. destruct (go_index_ok (Batches (br_Plan release)) i) as (x & Hx & _);
      [done|congruence].
Qed.

(** A number of replicas as a percentage.  As long as a hundred times the number
    fits 32 bits, the result is a percentage from 0 to 100 which, scaled back and
    rounded up, differs from the number asked for (cut to the bounds) by less than one
    percent of all replicas; and unless the canary asks for everything, a number of at
    least one replica never comes back as none. *)
Theorem ParseIntegerAsPercentageIfPossible_spec (stable all : Z) (canary : IntOrString)
    (Hall : 0 <= all < 2 ^ 31) (Hstable : stable * 100 < 2 ^ 31) :
  exists p, ParseIntegerAsPercentageIfPossible stable all (Some canary)
              = Ok (FromString (itoa p +:+ "%"))
  /\ 0 <= p <= 100
  /\ exists restored,
       GetScaledValueFromIntOrPercent (Some (FromString (itoa p +:+ "%"))) all true = (restored, None)
       /\ (0 < all -> - all < 100 * (restored - Z.max 0 (Z.min stable all)) < all)
       /\ (0 < stable -> 0 < all -> canary <> FromString "100%" -> 1 <= restored).
Proof.
  unfold ParseIntegerAsPercentageIfPossible.
  destruct (decide (stable >= all)) as [Hge|Hlt].
  { exists 100. split; [done|]. split; [lia|]. eexists. rewrite scaled_percent by lia.
    split; [done|]. pose proof (Z.div_unique (all * 100 + 99) 100 all 99 ltac:(lia) ltac:(lia)).
    split; intros; lia. }
  destruct (decide (stable <= 0)) as [Hle|Hpos].
  { exists 0. split; [done|]. split; [lia|]. eexists. rewrite scaled_percent by lia.
    split; [done|]. pose proof (Z.div_unique (all * 0 + 99) 100 0 99 ltac:(lia) ltac:(lia)).
    split; intros; lia. }
  rewrite wrap32_id by (unfold in32; lia). rewrite Z.quot_div_nonneg by lia.
  set (p := stable * 100 / all).
  pose proof (Z.div_mod (stable * 100) all ltac:(lia)) as Hdiv. fold p in Hdiv.
  pose proof (Z.mod_pos_bound (stable * 100) all ltac:(lia)) as Hmod.
  assert (0 <= p <= 100) as Hp by nia. cbv zeta. rewrite scaled_percent by lia. simpl.
  pose proof (Z.div_mod (all * p + 99) 100 ltac:(lia)) as Hd.
  pose proof (Z.mod_pos_bound (all * p + 99) 100 ltac:(lia)) as Hm.
  case_decide as Hr.
  - assert (p = 0) as Ep by nia. simpl.
    destruct (String.eqb_spec (StrVal canary) "100%") as [Es|Es].
    + exists p. split; [done|]. split; [done|]. eexists. rewrite scaled_percent by lia. split; [done|].
      rewrite Z.max_r, Z.min_l by lia. split; [nia|]. intros _ _ Hc. exfalso. apply Hc.
      destruct canary; [done|]. by f_equal.
    + exists 1. split; [done|]. split; [lia|]. eexists. rewrite scaled_percent by lia. split; [done|].
      pose proof (Z.div_mod (all * 1 + 99) 100 ltac:(lia)).
      pose proof (Z.mod_pos_bound (all * 1 + 99) 100 ltac:(lia)).
      rewrite Z.max_r, Z.min_l by lia. split; [nia|intros; nia].
  - exists p. split; [done|]. split; [done|]. eexists. rewrite scaled_percent by lia. split; [done|].
    rewrite Z.max_r, Z.min_l by lia. split; [nia|intros; nia].
Qed.

(** A ready batch.  A batch counts as ready exactly when as many pods are updated as
    desired, as many of them are ready as desired up to the failure threshold, at least
    one is ready when any is desired, and, for a rollout with an id, as many living
    pods carry its label as planned. *)
Theorem IsBatchReady_spec (bc : BatchContext)
    (Hbounds : in32 (allowedUnavailable (bc_FailureThreshold bc) (bc_UpdatedReplicas bc)
                     + bc_UpdatedReadyReplicas bc)) :
  IsBatchReady bc = Ok tt
  <-> bc_DesiredUpdatedReplicas bc <= bc_UpdatedReplicas bc
      /\ bc_DesiredUpdatedReplicas bc
         <= bc_UpdatedReadyReplicas bc
            + allowedUnavailable (bc_FailureThreshold bc) (bc_UpdatedReplicas bc)
      /\ (0 < bc_DesiredUpdatedReplicas bc -> bc_UpdatedReadyReplicas bc <> 0)
      /\ (bc_RolloutID bc <> ""%string ->
          bc_PlannedUpdatedReplicas bc <= len (filter (labelled (bc_RolloutID bc)) (bc_Pods bc))).
Proof.
  unfold IsBatchReady. cbv zeta. rewrite (wrap32_id _ Hbounds), <- batchLabelSatisfied_iff.
  case_decide; [split; [done|lia]|]. case_decide; [split; [done|lia]|].
  case_decide; [split; [done|lia]|].
  destruct (batchLabelSatisfied _ _ _); simpl; [|naive_solver].
  split; [|done]. intros _. split_and!; try done; lia.
Qed.
End util_properties.
