(* ===== verification/BatchStatus.v ===== *)
(** * The status of a batch release (batchrelease_status.go)

    What is synchronised before a plan is executed: the special cases of the plan and
    of the workload, in the order of the source, and the signals they raise. *)

From S2P Require Export BatchControl.

(** ** Signals *)

Definition resetStatus (status : BatchReleaseStatus) : BatchReleaseStatus :=
  status <| br_Phase := RolloutPhasePreparing |> <| br_StableRevision := ""%string |>
    <| br_UpdateRevision := ""%string |> <| ObservedReleasePlanHash := ""%string |>
    <| ObservedWorkloadReplicas := -1 |>
    <| br_CanaryStatus := br_CanaryStatus emptyBRStatus |>.

Definition getInitializedStatus (status : BatchReleaseStatus) : BatchReleaseStatus :=
  if decide (br_Phase status = RolloutPhaseNone) then resetStatus status else status.

(** [status.CanaryStatus.BatchReadyTime = nil] and the state Upgrading. *)
Definition restartState (canary : BatchReleaseCanaryStatus) : BatchReleaseCanaryStatus :=
  canary <| BatchReadyTime := None |> <| CurrentBatchState := UpgradingBatchState |>.

Definition signalRePrepareRollback (status : BatchReleaseStatus) : BatchReleaseStatus :=
  status <| br_Phase := RolloutPhasePreparing |>
    <| br_CanaryStatus := restartState (br_CanaryStatus status) |>.

Definition signalRestartBatch (status : BatchReleaseStatus) : BatchReleaseStatus :=
  status <| br_CanaryStatus := restartState (br_CanaryStatus status) |>.

Definition signalRestartAll (status : BatchReleaseStatus) : BatchReleaseStatus :=
  resetStatus emptyBRStatus.

Definition signalFinalizing (status : BatchReleaseStatus) : BatchReleaseStatus :=
  status <| br_Phase := RolloutPhaseFinalizing |>.

(** The batch to go on with after a plan change; lengths are [int32]. *)
Definition recalculatedBatch (release : BatchRelease) : Z :=
  match BatchPartition (br_Plan release) with
  | Some partition =>
      if String.eqb (RolloutID (br_Plan release)) (br_ObservedRolloutID (br_Status release))
      then Z.min partition (wrap32 (len (Batches (br_Plan release)) - 1)) else 0
  | None => 0
  end.

Section signals.
Context `{PlanHash}.

Definition signalRecalculate (release : BatchRelease) (status : BatchReleaseStatus)
    : BatchReleaseStatus :=
  status
    <| br_CanaryStatus := (br_CanaryStatus status) <| BatchReadyTime := None |>
         <| CurrentBatch := recalculatedBatch release |>
         <| CurrentBatchState := UpgradingBatchState |> |>
    <| br_ObservedRolloutID := RolloutID (br_Plan release) |>
    <| ObservedReleasePlanHash := HashReleasePlanBatches (br_Plan release) |>.

Definition refreshStatus (release : BatchRelease) (workloadInfo : option WorkloadInfo)
    (status : BatchReleaseStatus) : BatchReleaseStatus :=
  let status := match workloadInfo with
    | Some info => status <| br_CanaryStatus := (br_CanaryStatus status)
        <| br_UpdatedReplicas := ws_UpdatedReplicas (wi_Status info) |>
        <| br_UpdatedReadyReplicas := ws_UpdatedReadyReplicas (wi_Status info) |> |>
    | None => status
    end in
  let status := if String.eqb (ObservedReleasePlanHash status) ""
    then status <| ObservedReleasePlanHash := HashReleasePlanBatches (br_Plan release) |>
    else status in
  status <| br_ObservedRolloutID := RolloutID (br_Plan release) |>.
End signals.

(** ** Special cases *)

Definition isPlanFinalizing (release : BatchRelease) : bool :=
  if deleting (br_Meta release)
     || bool_decide (br_Phase (br_Status release) = RolloutPhaseFinalizing) then true
  else bool_decide (BatchPartition (br_Plan release) = None).

Definition isPlanCompleted (release : BatchRelease) : bool :=
  bool_decide (br_Phase (br_Status release) = RolloutPhaseCompleted).

Definition isProgressing (release : BatchRelease) : bool :=
  bool_decide (br_Phase (br_Status release) = RolloutPhaseProgressing).

Definition isPlanChanged `{PlanHash} (release : BatchRelease) : bool :=
  negb (String.eqb (ObservedReleasePlanHash (br_Status release))
          (HashReleasePlanBatches (br_Plan release)))
  && isProgressing release.

Definition isPlanUnhealthy (release : BatchRelease) : bool :=
  bool_decide (CurrentBatch (br_CanaryStatus (br_Status release)) >= len (Batches (br_Plan release)))
  && isProgressing release.

Definition isGetWorkloadInfoError (err : option goerror) : bool :=
  match err with Some e => negb (IsNotFound e) | None => false end.

Definition isWorkloadGone (event : WorkloadEventType) (release : BatchRelease) : bool :=
  bool_decide (event = WorkloadHasGone)
  && bool_decide (br_Phase (br_Status release) <> RolloutPhaseInitial)
  && bool_decide (br_Phase (br_Status release) <> RolloutPhaseNone).

Definition isWorkloadScaling (event : WorkloadEventType) (release : BatchRelease) : bool :=
  bool_decide (event = WorkloadReplicasChanged) && isProgressing release.

Definition isWorkloadRevisionChanged (event : WorkloadEventType) (release : BatchRelease) : bool :=
  bool_decide (event = WorkloadPodTemplateChanged) && isProgressing release.

Definition isWorkloadUnstable (event : WorkloadEventType) : bool :=
  bool_decide (event = WorkloadStillReconciling).

Definition hasRollbackAnnotation (release : BatchRelease) : bool :=
  nonempty (annotation (br_Meta release) RollbackInBatchAnnotation).

Definition isWorkloadRollbackInBatch (event : WorkloadEventType) (release : BatchRelease) : bool :=
  (bool_decide (event = WorkloadRollbackInBatch) || hasRollbackAnnotation release)
  && bool_decide (NoNeedUpdateReplicas (br_CanaryStatus (br_Status release)) = None)
  && isProgressing release.

Definition isRollbackInBatchSatisfied (info : WorkloadInfo) (release : BatchRelease) : bool :=
  String.eqb (ws_StableRevision (wi_Status info)) (ws_UpdateRevision (wi_Status info))
  && hasRollbackAnnotation release.

(** ** The synchronisation *)

(** [DefaultDuration] *)
Definition DefaultDuration : Z := 2 * Second.

Section sync.
Context {W : Type} `{PlanHash}.
Abbreviation MB := (M (BatchReleaseStatus * W)).

(** The switch over the special cases: whether this round has to stop.  The summary is
    a pointer that may be nil. *)
Definition specialCases (release : BatchRelease) (event : WorkloadEventType)
    (info : option WorkloadInfo) (err : option goerror) : MB bool :=
  if isPlanCompleted release then ret true
  else if isPlanFinalizing release then modC signalFinalizing ;; ret false
  else if isPlanChanged release then modC (signalRecalculate release) ;; ret false
  else if isPlanUnhealthy release then modC signalRestartAll ;; ret false
  else if isGetWorkloadInfoError err then ret false
  else if isWorkloadGone event release then modC signalFinalizing ;; ret false
  else if isWorkloadScaling event release then
    modC signalRestartBatch ;;
    workloadInfo <- lift (deref info) ;;
    modC (fun s => s <| ObservedWorkloadReplicas := wi_Replicas workloadInfo |>) ;; ret false
  else if isWorkloadRevisionChanged event release then
    workloadInfo <- lift (deref info) ;;
    modC (fun s => s <| br_UpdateRevision := ws_UpdateRevision (wi_Status workloadInfo) |>) ;; ret true
  else if isWorkloadUnstable event then ret true
  else if isWorkloadRollbackInBatch event release then
    workloadInfo <- lift (deref info) ;;
    if isRollbackInBatchSatisfied workloadInfo release then
      modC signalRePrepareRollback ;;
      modC (fun s => s <| br_UpdateRevision := ws_UpdateRevision (wi_Status workloadInfo) |>) ;; ret false
    else ret true
  else ret false.

(** [client.IgnoreNotFound] *)
Definition IgnoreNotFound (err : option goerror) : option goerror :=
  match err with Some ErrNotFound => None | e => e end.

(** Whether to stop, [RequeueAfter] and the error. *)
Definition syncStatusBeforeExecuting (release : BatchRelease) (controller : ControlInterface W)
    : MB (bool * option Z * option goerror) :=
  r <- cp_SyncWorkloadInformation controller ;;
  let '(workloadEvent, workloadInfo, err) := r in
  needStopThisRound <- specialCases release workloadEvent workloadInfo err ;;
  modC (refreshStatus release workloadInfo) ;;
  newStatus <- getC ;;
  let needRetry := negb (bool_decide (br_Status release = newStatus)) in
  let err := IgnoreNotFound err in
  if needRetry && bool_decide (err = None) then ret (true, Some DefaultDuration, err)
  else ret (needStopThisRound, None, err).
End sync.
