(* ===== verification/BatchExecutor.v ===== *)
(** * The batch release executor and controller (batchrelease_executor.go, batchrelease_controller.go)

    The state machine of a batch release, driven through the control interface: one
    call of [Do] synchronises the status and then makes at most one step. *)

From S2P Require Export BatchStatus.

(** ** Deployments, as far as the choice of a controller reads them *)

Definition MinReadyOriginalAnnotations : list string :=
  ["rollouts.kruise.io/original-min-ready-seconds";
   "rollouts.kruise.io/original-progress-deadline-seconds";
   "rollouts.kruise.io/original-max-unavailable"]%string.

Definition hasAnnotation (m : ObjectMeta) (k : string) : bool :=
  bool_decide (is_Some (default ∅ (Annotations m) !! k)).

Definition HasMinReadyOriginalAnnotations (m : ObjectMeta) : bool :=
  existsb (hasAnnotation m) MinReadyOriginalAnnotations.

Definition IsUnderRolloutControl (deployment : Deployment) : bool :=
  if String.eqb (annotation (dep_Meta deployment) BatchReleaseControlAnnotation) "" then false
  else if negb (String.eqb (dep_StrategyType deployment) "Recreate") then false
  else dep_Paused deployment.

(** The feature gate [MinReadySecondsStrategy]. *)
Class MinReadyGate := MinReadySecondsStrategy : bool.

(** ** The controllers to choose from *)

Inductive ReleaseControllerKind :=
  | BlueGreenCloneSetController
  | BlueGreenDeploymentController
  | CanaryDeploymentController
  | PartitionDaemonSetController
  | PartitionNativeDaemonSetController
  | PartitionCloneSetController
  | PartitionMinReadyController
  | PartitionDeploymentController
  | PartitionStatefulSetController.
#[export] Instance ReleaseControllerKind_eq_dec : EqDecision ReleaseControllerKind.
Proof. solve_decision. Defined.

(** [NewControlPlane] of the three styles with the constructor of the kind. *)
Class ControlPlanes (W : Type) :=
  NewControlPlane : ReleaseControllerKind -> BatchRelease -> ObjectKey -> GroupVersionKind
                    -> ControlInterface W.

Class ControlPlanesLaws (W : Type) `{ControlPlanes W} :=
  controlPlane_laws kind release key gvk : ControlLaws (NewControlPlane kind release key gvk).

Definition appsAPI : string := "apps/v1".
Definition kruiseAPI : string := "apps.kruise.io/v1alpha1".
Definition refIs (ref : ObjectRef) (version kind : string) : bool :=
  String.eqb (APIVersion ref) version && String.eqb (Kind ref) kind.

(** [rollingStyle] after the compatibility default. *)
Definition effectiveStyle (plan : ReleasePlan) : RollingStyleType :=
  if decide (RollingStyle plan = RollingStyleNone) then
    if EnableExtraWorkloadForCanary plan then CanaryRollingStyle else RollingStyleNone
  else RollingStyle plan.

Section executor.
Context {W : Type} `{Clock W} `{Api W BatchRelease} `{Api W Deployment} `{Retry W} `{Watcher W}
  `{K8sLib} `{WorkloadFilter} `{MinReadyGate} `{PlanHash} `{ControlPlanes W}.
Abbreviation MB := (M (BatchReleaseStatus * W)).

Definition useMinReadyController (key : ObjectKey) : M W bool :=
  r <- catch (api_Get (O := Deployment) key) ;;
  ret match r with
      | inr _ => MinReadySecondsStrategy
      | inl deployment =>
          if HasMinReadyOriginalAnnotations (dep_Meta deployment) then true
          else if negb MinReadySecondsStrategy then false
          else negb (IsUnderRolloutControl deployment)
      end.

(** The choice among the partition-style controllers, and the default. *)
Definition partitionController (ref : ObjectRef) (key : ObjectKey) : M W ReleaseControllerKind :=
  if refIs ref kruiseAPI "DaemonSet" then ret PartitionDaemonSetController
  else if refIs ref appsAPI "DaemonSet" then ret PartitionNativeDaemonSetController
  else if refIs ref kruiseAPI "CloneSet" then ret PartitionCloneSetController
  else if refIs ref appsAPI "Deployment" then
    minReady <- useMinReadyController key ;;
    ret (if minReady : bool then PartitionMinReadyController else PartitionDeploymentController)
  else ret PartitionStatefulSetController.

Definition releaseControllerKind (release : BatchRelease) (key : ObjectKey)
    : M W ReleaseControllerKind :=
  let ref := br_WorkloadRef (br_Spec release) in
  match effectiveStyle (br_Plan release) with
  | BlueGreenRollingStyle =>
      if refIs ref kruiseAPI "CloneSet" then ret BlueGreenCloneSetController
      else if refIs ref appsAPI "Deployment" then ret BlueGreenDeploymentController
      else ret PartitionStatefulSetController
  | CanaryRollingStyle =>
      if refIs ref appsAPI "Deployment" then ret CanaryDeploymentController
      else partitionController ref key
  | PartitionRollingStyle | RollingStyleNone => partitionController ref key
  | _ => ret PartitionStatefulSetController
  end.

Definition getReleaseController (release : BatchRelease) : M W (ControlInterface W) :=
  let ref := br_WorkloadRef (br_Spec release) in
  let gvk := FromAPIVersionAndKind (APIVersion ref) (Kind ref) in
  if negb (IsSupportedWorkload gvk) then
    fail (ErrOther "the workload type is not supported")
  else
    let targetKey := (Namespace (br_Meta release), RefName ref) in
    kind <- releaseControllerKind release targetKey ;;
    ret (NewControlPlane kind release targetKey gvk).

(** ** Batches *)

Definition isPartitioned (release : BatchRelease) : bool :=
  match BatchPartition (br_Plan release) with
  | Some partition => bool_decide (partition <= CurrentBatch (br_CanaryStatus (br_Status release)))
  | None => false
  end.

Definition moveToNextBatch (release : BatchRelease) (status : BatchReleaseStatus)
    : BatchReleaseStatus :=
  let canary := br_CanaryStatus status in
  let canary :=
    match BatchPartition (br_Plan release) with
    | Some partition =>
        if decide (partition > CurrentBatch canary)
        then canary <| CurrentBatch := wrap32 (CurrentBatch canary + 1) |> else canary
    | None => canary <| CurrentBatch := wrap32 (CurrentBatch canary + 1) |>
    end in
  status <| br_CanaryStatus := canary <| CurrentBatchState := UpgradingBatchState |> |>.

Definition br_progressingStateTransition (condStatus : ConditionStatus) (reason message : string)
    : MB unit :=
  status <- getC ;;
  cond <- match GetBatchReleaseCondition status RolloutConditionProgressing with
          | None => inWorld (NewRolloutCondition RolloutConditionProgressing condStatus reason message)
          | Some cond =>
              let cond := cond <| cond_Status := condStatus |> <| Reason := reason |> in
              ret (if nonempty message then cond <| cond_Message := message |> else cond)
          end ;;
  modC (fun s => (fst (SetBatchReleaseCondition s cond)) <| br_Message := cond_Message cond |>).

Definition removeProgressingCondition (status : BatchReleaseStatus) : BatchReleaseStatus :=
  (RemoveBatchReleaseCondition status RolloutConditionProgressing) <| br_Message := ""%string |>.

Definition setBatchState (state : BatchReleaseBatchStateType) (s : BatchReleaseStatus)
    : BatchReleaseStatus :=
  s <| br_CanaryStatus := (br_CanaryStatus s) <| CurrentBatchState := state |> |>.
Definition setReadyTime (t : option Z) (s : BatchReleaseStatus) : BatchReleaseStatus :=
  s <| br_CanaryStatus := (br_CanaryStatus s) <| BatchReadyTime := t |> |>.

(** The three states; each answers [RequeueAfter] and the error of its call. *)
Definition upgradeBatch (controller : ControlInterface W) : MB (option Z * option goerror) :=
  r <- catch (cp_UpgradeBatch controller) ;;
  match r with
  | inl _ =>
      modC removeProgressingCondition ;; modC (setBatchState VerifyingBatchState) ;;
      ret (Some DefaultDuration, None)
  | inr (ErrBadRequest msg) =>
      br_progressingStateTransition ConditionTrue ProgressingReasonInRolling msg ;;
      ret (None, Some (ErrBadRequest msg))
  | inr err => ret (None, Some err)
  end.

Definition verifyBatch (controller : ControlInterface W) : MB (option Z * option goerror) :=
  r <- catch (cp_EnsureBatchPodsReadyAndLabeled controller) ;;
  match r with
  | inr err => modC (setBatchState UpgradingBatchState) ;; ret (None, Some err)
  | inl _ =>
      t <- inWorld time_Now ;;
      modC (setReadyTime (Some t)) ;; modC (setBatchState ReadyBatchState) ;;
      ret (Some DefaultDuration, None)
  end.

Definition recheckBatch (release : BatchRelease) (controller : ControlInterface W)
    : MB (option Z * option goerror) :=
  r <- catch (cp_EnsureBatchPodsReadyAndLabeled controller) ;;
  match r with
  | inr err =>
      modC (setReadyTime None) ;; modC (setBatchState UpgradingBatchState) ;; ret (None, Some err)
  | inl _ =>
      if negb (isPartitioned release) then
        modC (moveToNextBatch release) ;; ret (Some DefaultDuration, None)
      else ret (None, None)
  end.

Definition progressBatches (release : BatchRelease) (controller : ControlInterface W)
    : MB (option Z * option goerror) :=
  newStatus <- getC ;;
  match CurrentBatchState (br_CanaryStatus newStatus) with
  | UpgradingBatchState => upgradeBatch controller
  | VerifyingBatchState => verifyBatch controller
  | ReadyBatchState => recheckBatch release controller
  | _ => modC (setBatchState UpgradingBatchState) ;; upgradeBatch controller
  end.

(** ** The plan *)

Definition preparePlan (controller : ControlInterface W) : MB (option Z * option goerror) :=
  r <- catch (cp_Initialize controller) ;;
  match r with
  | inl _ => modC (fun s => s <| br_Phase := RolloutPhaseProgressing |>) ;;
             ret (Some DefaultDuration, None)
  | inr err => ret (None, Some err)
  end.

Definition executeBatchReleasePlan (release : BatchRelease) (controller : ControlInterface W)
    : MB (option Z * option goerror) :=
  newStatus <- getC ;;
  match br_Phase newStatus with
  | RolloutPhasePreparing => preparePlan controller
  | RolloutPhaseProgressing => progressBatches release controller
  | RolloutPhaseFinalizing =>
      r <- catch (cp_Finalize controller) ;;
      match r with
      | inl _ => modC (fun s => s <| br_Phase := RolloutPhaseCompleted |>) ;; ret (None, None)
      | inr err => ret (None, Some err)
      end
  | RolloutPhaseCompleted => ret (None, None)
  | _ => modC (fun s => s <| br_Phase := RolloutPhasePreparing |>) ;; preparePlan controller
  end.

(** [RequeueAfter], the new status (nil when no controller was found) and the error. *)
Definition Do (release : BatchRelease)
    : M W (option Z * option BatchReleaseStatus * option goerror) :=
  r <- catch (getReleaseController release) ;;
  match r with
  | inr _ => ret (None, None, None)
  | inl controller => fun w =>
      let round :=
        s <- syncStatusBeforeExecuting release controller ;;
        let '(stop, result, err) := s in
        if stop || negb (bool_decide (err = None)) then ret (result, err)
        else executeBatchReleasePlan release controller in
      match round (getInitializedStatus (br_Status release), w) with
      | (Ok (result, err), (newStatus, w')) => (Ok (result, Some newStatus, err), w')
      | (Err e, (_, w')) => (Err e, w')
      | (Panic, (_, w')) => (Panic, w')
      end
  end.

(** ** The controller *)

Definition ReleaseFinalizer : string := "rollouts.kruise.io/batch-release-finalizer".

Definition br_updateStatus (release : BatchRelease) (newStatus0 : option BatchReleaseStatus)
    : M W unit :=
  s <- lift (deref newStatus0) ;;
  let newStatus := s <| br_ObservedGeneration := Generation (br_Meta release) |> in
  if decide (br_Status release = newStatus) then ret tt else
  RetryOnConflict (
    clone <- api_Get (O := BatchRelease) (keyOf (br_Meta release)) ;;
    api_UpdateStatus (clone <| br_Status := newStatus |>)).

(** [reconcileDone], with the error it returns. *)
Definition br_handleFinalizer (release : BatchRelease) : M W (bool * option goerror) :=
  if deleting (br_Meta release)
     && bool_decide (br_Phase (br_Status release) = RolloutPhaseCompleted)
     && ContainsFinalizer (br_Meta release) ReleaseFinalizer then
    r <- catch (UpdateFinalizer release RemoveFinalizerOpType ReleaseFinalizer) ;;
    ret (true, match r with inl _ => None | inr err => IgnoreNotFound (Some err) end)
  else if negb (ContainsFinalizer (br_Meta release) ReleaseFinalizer) then
    r <- catch (UpdateFinalizer release AddFinalizerOpType ReleaseFinalizer) ;;
    ret match r with
        | inl _ => (false, None)
        | inr err => if IsNotFound err then (false, None) else (true, Some err)
        end
  else ret (false, None).

(** [RequeueAfter] and the aggregate of the errors. *)
Definition br_Reconcile (request : ObjectKey) : M W (option Z * option goerror) :=
  r <- catch (api_Get (O := BatchRelease) request) ;;
  match r with
  | inr err => ret (None, if IsNotFound err then None else Some err)
  | inl release =>
      let ref := br_WorkloadRef (br_Spec release) in
      added <- catch (ensureWatched (FromAPIVersionAndKind (APIVersion ref) (Kind ref))) ;;
      match added with
      | inr err => ret (None, Some err)
      | inl true => ret (None, None)
      | inl false =>
          f <- br_handleFinalizer release ;;
          if fst f : bool then ret (None, snd f) else
          d <- Do release ;;
          let '(result, currentStatus, err) := d in
          u <- catch (br_updateStatus release currentStatus) ;;
          ret (result, ToAggregate (match err with Some e => [e] | None => [] end
                                    ++ match u with inl _ => [] | inr e => [e] end))
      end
  end.
End executor.
