(* ===== verification/BatchExecutorProofs.v ===== *)
(** * The batch release executor: properties

    The abstract machine of a batch release and the proof that every round of the
    executor follows it, against the contract of the control planes. *)

From S2P Require Export BatchExecutor.

(** ** The abstract machine *)

(** Where a batch release stands. *)
Definition position (s : BatchReleaseStatus)
    : RolloutPhase * BatchReleaseBatchStateType * Z :=
  (br_Phase s, CurrentBatchState (br_CanaryStatus s), CurrentBatch (br_CanaryStatus s)).

Section machine.
Context {W : Type} `{PlanHash}.
Variables (release : BatchRelease) (ctl : ControlInterface W).

(** The plan the executor may work on: not being deleted or cancelled, not changed since
    it was observed, and at one of its batches. *)
Definition planInForce : Prop :=
  deleting (br_Meta release) = false
  /\ BatchPartition (br_Plan release) <> None
  /\ ObservedReleasePlanHash (br_Status release) = HashReleasePlanBatches (br_Plan release)
  /\ CurrentBatch (br_CanaryStatus (br_Status release)) < len (Batches (br_Plan release)).

(** An unknown phase or batch state starts over. *)
Definition normalPhase (s : BatchReleaseStatus) : BatchReleaseStatus :=
  match br_Phase s with
  | RolloutPhasePreparing | RolloutPhaseProgressing | RolloutPhaseFinalizing
  | RolloutPhaseCompleted => s
  | _ => s <| br_Phase := RolloutPhasePreparing |>
  end.
Definition normalState (s : BatchReleaseStatus) : BatchReleaseStatus :=
  match CurrentBatchState (br_CanaryStatus s) with
  | UpgradingBatchState | VerifyingBatchState | ReadyBatchState => s
  | _ => setBatchState UpgradingBatchState s
  end.

(** An operation of the control plane called on the stored status [f (br_Status release)]
    that ended in [P]. *)
Definition called {A} (m : M (BatchReleaseStatus * W) A) (f : BatchReleaseStatus -> BatchReleaseStatus)
    (P : res A -> Prop) : Prop :=
  exists w r s', m (f (br_Status release), w) = (r, s') /\ P r.
Definition succeeded {A} (r : res A) : Prop := exists a, r = Ok a.
Definition failed {A} (r : res A) : Prop := exists e, r = Err e.

(** Signals: what synchronising the status alone may do. *)
Inductive signalEdge (event : WorkloadEventType) :
    RolloutPhase * BatchReleaseBatchStateType * Z ->
    RolloutPhase * BatchReleaseBatchStateType * Z -> Prop :=
  | signal_none p : signalEdge event p p
  | signal_finalize ph st b :
      isPlanFinalizing release = true \/ event = WorkloadHasGone ->
      signalEdge event (ph, st, b) (RolloutPhaseFinalizing, st, b)
  | signal_recalculate st b :
      isPlanChanged release = true ->
      signalEdge event (RolloutPhaseProgressing, st, b)
        (RolloutPhaseProgressing, UpgradingBatchState, recalculatedBatch release)
  | signal_restart_all st b :
      len (Batches (br_Plan release)) <= b ->
      signalEdge event (RolloutPhaseProgressing, st, b) (RolloutPhasePreparing, BatchStateNone, 0)
  | signal_restart_batch st b :
      event = WorkloadReplicasChanged ->
      signalEdge event (RolloutPhaseProgressing, st, b)
        (RolloutPhaseProgressing, UpgradingBatchState, b)
  | signal_rollback st b :
      event = WorkloadRollbackInBatch \/ hasRollbackAnnotation release = true ->
      NoNeedUpdateReplicas (br_CanaryStatus (br_Status release)) = None ->
      signalEdge event (RolloutPhaseProgressing, st, b)
        (RolloutPhasePreparing, UpgradingBatchState, b).

(** Actions: what one operation of the control plane may do. *)
Inductive actionEdge :
    RolloutPhase * BatchReleaseBatchStateType * Z ->
    RolloutPhase * BatchReleaseBatchStateType * Z -> Prop :=
  | action_prepared ph st b :
      ph <> RolloutPhaseProgressing -> ph <> RolloutPhaseFinalizing -> ph <> RolloutPhaseCompleted ->
      called (cp_Initialize ctl) normalPhase succeeded ->
      actionEdge (ph, st, b) (RolloutPhaseProgressing, st, b)
  | action_not_prepared ph st b :
      ph <> RolloutPhaseProgressing -> ph <> RolloutPhaseFinalizing -> ph <> RolloutPhaseCompleted ->
      called (cp_Initialize ctl) normalPhase failed ->
      actionEdge (ph, st, b) (RolloutPhasePreparing, st, b)
  | action_upgraded st b :
      planInForce -> st <> VerifyingBatchState -> st <> ReadyBatchState ->
      called (cp_UpgradeBatch ctl) normalState succeeded ->
      actionEdge (RolloutPhaseProgressing, st, b) (RolloutPhaseProgressing, VerifyingBatchState, b)
  | action_not_upgraded st b :
      planInForce -> st <> VerifyingBatchState -> st <> ReadyBatchState ->
      called (cp_UpgradeBatch ctl) normalState failed ->
      actionEdge (RolloutPhaseProgressing, st, b) (RolloutPhaseProgressing, UpgradingBatchState, b)
  | action_ready b :
      planInForce -> called (cp_EnsureBatchPodsReadyAndLabeled ctl) id succeeded ->
      actionEdge (RolloutPhaseProgressing, VerifyingBatchState, b)
        (RolloutPhaseProgressing, ReadyBatchState, b)
  | action_not_ready st b :
      planInForce -> called (cp_EnsureBatchPodsReadyAndLabeled ctl) id failed ->
      st = VerifyingBatchState \/ st = ReadyBatchState ->
      actionEdge (RolloutPhaseProgressing, st, b) (RolloutPhaseProgressing, UpgradingBatchState, b)
  | action_wait p b :
      planInForce -> called (cp_EnsureBatchPodsReadyAndLabeled ctl) id succeeded ->
      BatchPartition (br_Plan release) = Some p -> p <= b ->
      actionEdge (RolloutPhaseProgressing, ReadyBatchState, b)
        (RolloutPhaseProgressing, ReadyBatchState, b)
  | action_next p b :
      planInForce -> called (cp_EnsureBatchPodsReadyAndLabeled ctl) id succeeded ->
      BatchPartition (br_Plan release) = Some p -> b < p ->
      actionEdge (RolloutPhaseProgressing, ReadyBatchState, b)
        (RolloutPhaseProgressing, UpgradingBatchState, b + 1)
  | action_finalized st b :
      called (cp_Finalize ctl) id succeeded ->
      actionEdge (RolloutPhaseFinalizing, st, b) (RolloutPhaseCompleted, st, b)
  | action_not_finalized st b :
      called (cp_Finalize ctl) id failed ->
      actionEdge (RolloutPhaseFinalizing, st, b) (RolloutPhaseFinalizing, st, b).
End machine.

(** ** Synchronising *)

Section sync_lemmas.
Context {W : Type} `{PlanHash}.
Variables (release : BatchRelease) (ctl : ControlInterface W).
Abbreviation st := (br_Status release).
Abbreviation start := (getInitializedStatus st).

Lemma refreshStatus_keeps info s :
  position (refreshStatus release info s) = position s
  /\ ObservedReleasePlanHash (refreshStatus release info s)
     = (if String.eqb (ObservedReleasePlanHash s) "" then HashReleasePlanBatches (br_Plan release)
        else ObservedReleasePlanHash s).
Proof.
  unfold refreshStatus, position. destruct info; simpl; destruct (String.eqb _ ""); done.
Qed.

Lemma progressing_start : br_Phase st = RolloutPhaseProgressing -> start = st.
Proof. unfold getInitializedStatus. intros E. rewrite decide_False by congruence. done. Qed.

Lemma isProgressing_true : isProgressing release = true -> br_Phase st = RolloutPhaseProgressing.
Proof. unfold isProgressing. by rewrite bool_decide_eq_true. Qed.

Lemma position_progressing s :
  br_Phase s = RolloutPhaseProgressing ->
  position s = (RolloutPhaseProgressing, CurrentBatchState (br_CanaryStatus s),
                CurrentBatch (br_CanaryStatus s)).
Proof. unfold position. by intros ->. Qed.

(** A signal raised while progressing. *)
Lemma progressing_signal event s' p :
  isProgressing release = true -> position s' = p ->
  (forall bst b, br_Phase st = RolloutPhaseProgressing ->
     position st = (RolloutPhaseProgressing, bst, b) ->
     signalEdge release event (RolloutPhaseProgressing, bst, b) p) ->
  signalEdge release event (position start) (position s').
Proof.
  intros Hp%isProgressing_true <- Hedge. rewrite (progressing_start Hp), (position_progressing _ Hp).
  apply Hedge; [done|by apply position_progressing].
Qed.

(** What a special case leaves behind, before the refresh. *)
Lemma specialCases_spec event info err (w : W) stop s' w' :
  specialCases release event info err (start, w) = (Ok stop, (s', w')) ->
  w' = w /\ signalEdge release event (position start) (position s')
  /\ (br_Phase s' = RolloutPhaseProgressing ->
      isPlanCompleted release = true
      \/ isPlanFinalizing release = false
         /\ (isPlanChanged release = true ->
             ObservedReleasePlanHash s' = HashReleasePlanBatches (br_Plan release))
         /\ (isPlanChanged release = false -> isPlanUnhealthy release = false))
  /\ (isPlanCompleted release = true -> stop = true).
Proof.
  unfold specialCases. intros Hrun.
  destruct (isPlanCompleted release) eqn:Ecomp.
  { inv_run. split; [done|]. split; [constructor|]. split; [by left|done]. }
  destruct (isPlanFinalizing release) eqn:Efin.
  { inv_run. split; [done|]. split; [by apply signal_finalize; left|]. by split. }
  destruct (isPlanChanged release) eqn:Ech.
  { inv_run. split; [done|]. split; [|by split; [right|]].
    apply andb_true_iff in Ech as Hc. destruct Hc as [_ Hp].
    eapply (progressing_signal _ _ _ Hp); [done|]. intros bst b E _.
    unfold position, getInitializedStatus. simpl. rewrite decide_False by congruence. rewrite E. by constructor. }
  destruct (isPlanUnhealthy release) eqn:Eun.
  { inv_run. split; [done|]. split; [|by split].
    apply andb_true_iff in Eun as [Hb Hp]. apply bool_decide_eq_true in Hb.
    eapply (progressing_signal _ _ _ Hp); [done|]. intros bst b E Hpos.
    apply signal_restart_all. unfold position in Hpos. simplify_eq. lia. }
  assert (Hok : forall s'' : BatchReleaseStatus, (br_Phase s'' = RolloutPhaseProgressing ->
      false = true \/ false = false /\ (false = true ->
        ObservedReleasePlanHash s'' = HashReleasePlanBatches (br_Plan release)) /\ (false = false -> false = false))
      /\ (false = true -> stop = true)) by (split; [by right|done]).
  destruct (isGetWorkloadInfoError err); [inv_run; split; [done|split; [constructor|apply Hok]]|].
  destruct (isWorkloadGone event release) eqn:Eg.
  { inv_run. split; [done|]. split; [|apply Hok]. apply signal_finalize. right.
    unfold isWorkloadGone in Eg. rewrite !andb_true_iff, bool_decide_eq_true in Eg. tauto. }
  destruct (isWorkloadScaling event release) eqn:Es.
  { inv_run. split; [done|]. split; [|apply Hok]. apply andb_true_iff in Es as [He%bool_decide_eq_true Hp].
    eapply (progressing_signal _ _ _ Hp); [done|]. intros bst b E Hpos.
    unfold position, getInitializedStatus in *. simpl. rewrite decide_False by congruence.
    rewrite E in *. simplify_eq. by constructor. }
  destruct (isWorkloadRevisionChanged event release) eqn:Er.
  { inv_run. split; [done|]. split; [|apply Hok]. constructor. }
  destruct (isWorkloadUnstable event); [inv_run; split; [done|split; [constructor|apply Hok]]|].
  destruct (isWorkloadRollbackInBatch event release) eqn:Eb;
    [|inv_run; split; [done|split; [constructor|apply Hok]]].
  apply bind_Ok_inv in Hrun as (i & [s1 w1] & Hi & Hrun). inv_run;
    [|split; [done|split; [constructor|apply Hok]]].
  split; [done|]. split; [|apply Hok]. unfold isWorkloadRollbackInBatch in Eb.
  rewrite !andb_true_iff, orb_true_iff, !bool_decide_eq_true in Eb. destruct Eb as [[Hev Hn] Hp].
  eapply (progressing_signal _ _ _ Hp); [done|]. intros bst b E Hpos.
  unfold position, getInitializedStatus in *. simpl. rewrite decide_False by congruence.
  simplify_eq. by constructor.
Qed.

Lemma isPlanFinalizing_false :
  isPlanFinalizing release = false ->
  deleting (br_Meta release) = false /\ BatchPartition (br_Plan release) <> None.
Proof.
  unfold isPlanFinalizing. destruct (deleting _); [done|]. simpl. case_bool_decide; [done|].
  by rewrite bool_decide_eq_false.
Qed.

Lemma planInForce_intro :
  br_Phase st = RolloutPhaseProgressing -> isPlanFinalizing release = false ->
  ObservedReleasePlanHash st = HashReleasePlanBatches (br_Plan release) ->
  (isPlanChanged release = false -> isPlanUnhealthy release = false) -> planInForce release.
Proof.
  intros Hp Hfin Hh Hun. apply isPlanFinalizing_false in Hfin as [Hd Hpart].
  assert (Hch : isPlanChanged release = false)
    by (unfold isPlanChanged; rewrite Hh, String.eqb_refl; done).
  specialize (Hun Hch). unfold isPlanUnhealthy, isProgressing in Hun.
  rewrite Hp, (bool_decide_eq_true_2 _ eq_refl), andb_true_r, bool_decide_eq_false in Hun.
  split_and!; [done|done|done|lia].
Qed.

Lemma sync_spec (w : W) stop result err s' w' :
  ControlLaws ctl ->
  syncStatusBeforeExecuting release ctl (start, w) = (Ok (stop, result, err), (s', w')) ->
  exists event info err0,
    cp_SyncWorkloadInformation ctl (start, w) = (Ok (event, info, err0), (start, w'))
    /\ err = IgnoreNotFound err0
    /\ signalEdge release event (position start) (position s')
    /\ (s' <> st -> stop || negb (bool_decide (err = None)) = true)
    /\ (stop || negb (bool_decide (err = None)) = false ->
        isPlanCompleted release = false
        /\ (br_Phase st = RolloutPhaseProgressing -> planInForce release)).
Proof.
  intros Hlaws Hrun. unfold syncStatusBeforeExecuting in Hrun.
  apply bind_Ok_inv in Hrun as ([[event info] err0] & [s0 w0] & Hs & Hrun).
  pose proof (law_Sync _ Hlaws _ _ _ _ _ Hs) as <-.
  apply bind_Ok_inv in Hrun as (need & [s1 w1] & Hc & Hrun).
  apply specialCases_spec in Hc as (-> & Hedge & Hforce & Hcomp).
  unfold bind, modC, getC in Hrun. simpl in Hrun.
  destruct (refreshStatus_keeps info s1) as [Hpos Hhash].
  set (s2 := refreshStatus release info s1) in *.
  assert (s' = s2 /\ w' = w0 /\ err = IgnoreNotFound err0
    /\ (s2 <> st -> stop || negb (bool_decide (err = None)) = true)
    /\ (stop || negb (bool_decide (err = None)) = false -> need = false /\ s2 = st))
    as (-> & -> & -> & Hne & Hgo).
  { destruct (bool_decide_reflect (st = s2)) as [E|E]; simpl in Hrun.
    - injection Hrun as <- _ <- <- <-. split_and!; try done. destruct need; simpl; [done|]. by split.
    - destruct (bool_decide_reflect (IgnoreNotFound err0 = None)) as [Ee|Ee]; simpl in Hrun;
        injection Hrun as <- _ <- <- <-; split_and!; try done.
      + intros _. by rewrite (bool_decide_eq_false_2 _ Ee), orb_true_r.
      + by rewrite (bool_decide_eq_false_2 _ Ee), orb_true_r. }
  exists event, info, err0. rewrite Hpos. split_and!; try done. intros Hstop.
  destruct (Hgo Hstop) as [Hneed Est]. split.
  { destruct (isPlanCompleted release); [|done]. specialize (Hcomp eq_refl). congruence. }
  intros Hp. assert (Hp1 : br_Phase s1 = RolloutPhaseProgressing).
  { transitivity (br_Phase s2); [unfold position in Hpos; congruence|congruence]. }
  destruct (Hforce Hp1) as [Hco|(Hfin & Hch & Hun)].
  { specialize (Hcomp Hco). congruence. }
  apply planInForce_intro; [done|done| |done].
  destruct (isPlanChanged release) eqn:Ech.
  - rewrite <- Est, Hhash, (Hch eq_refl). apply Tauto.if_same.
  - unfold isPlanChanged, isProgressing in Ech.
    rewrite Hp, (bool_decide_eq_true_2 _ eq_refl), andb_true_r in Ech.
    destruct (String.eqb_spec (ObservedReleasePlanHash st) (HashReleasePlanBatches (br_Plan release)));
      done.
Qed.
End sync_lemmas.

(** ** Executing *)

Section execute_lemmas.
Context {W : Type} `{Clock W} `{PlanHash}.
Variables (release : BatchRelease) (ctl : ControlInterface W).
Abbreviation st := (br_Status release).

(** The [int32] fields the machine computes with. *)
Definition int32Fields : Prop :=
  in32 (CurrentBatch (br_CanaryStatus st))
  /\ forall p, BatchPartition (br_Plan release) = Some p -> in32 p.

Lemma machineFrame_position s s' : machineFrame s s' -> position s' = position s.
Proof. unfold machineFrame, machineState, position. congruence. Qed.

(** An operation under the contract, run to a value or an error. *)
Lemma catch_call {A} (m : M (BatchReleaseStatus * W) A) f w x s' w' :
  preserves machineFrame m -> catch m (f st, w) = (Ok x, (s', w')) ->
  position s' = position (f st)
  /\ match x with
     | inl _ => called release m f succeeded
     | inr _ => called release m f failed
     end.
Proof.
  intros Hm E. apply catch_Ok_inv in E. split.
  - apply machineFrame_position. destruct x; by eapply Hm.
  - destruct x as [a|e]; eexists _, _, _; (split; [exact E|]); by eexists.
Qed.

Lemma removeProgressingCondition_position s : position (removeProgressingCondition s) = position s.
Proof. done. Qed.

Lemma preserves_br_transition cs reason msg :
  preserves machineFrame (br_progressingStateTransition cs reason msg : M (BatchReleaseStatus * W) unit).
Proof.
  unfold br_progressingStateTransition. solve_preserves.
  apply preserves_modC. intros s. unfold SetBatchReleaseCondition.
  match goal with |- context [sameCondition ?a ?b] => by destruct (sameCondition a b) end.
Qed.

Lemma setBatchState_position state s :
  position (setBatchState state s) = (br_Phase s, state, CurrentBatch (br_CanaryStatus s)).
Proof. done. Qed.

Lemma position_inv s ph bst b :
  position s = (ph, bst, b) ->
  br_Phase s = ph /\ CurrentBatchState (br_CanaryStatus s) = bst /\ CurrentBatch (br_CanaryStatus s) = b.
Proof. unfold position. by intros [= -> -> ->]. Qed.

Lemma upgradeBatch_edge w result err s' w' bst :
  ControlLaws ctl -> planInForce release ->
  position st = (RolloutPhaseProgressing, bst, CurrentBatch (br_CanaryStatus st)) ->
  bst <> VerifyingBatchState -> bst <> ReadyBatchState ->
  upgradeBatch ctl (normalState st, w) = (Ok (result, err), (s', w')) ->
  actionEdge release ctl (position st) (position s').
Proof.
  intros Hlaws Hf Hpos Hv Hr Hrun. unfold upgradeBatch in Hrun.
  apply bind_Ok_inv in Hrun as (x & [s1 w1] & Hc & Hrun).
  apply catch_call in Hc as [Hp1 Hcall]; [|apply Hlaws].
  assert (Hn : position (normalState st)
      = (RolloutPhaseProgressing, UpgradingBatchState, CurrentBatch (br_CanaryStatus st))).
  { apply position_inv in Hpos as (E1 & E2 & _). unfold normalState.
    rewrite <- E2 in Hv, Hr. destruct (CurrentBatchState (br_CanaryStatus st)) eqn:E; try done;
      unfold position; simpl; by rewrite E1, ?E. }
  rewrite Hn in Hp1. apply position_inv in Hp1 as (P1 & P2 & P3). rewrite Hpos.
  destruct x as [[]|e].
  - inv_run. unfold position. simpl. rewrite P1, P3. by apply action_upgraded.
  - assert (Hlast : position s' = position s1).
    { destruct e; inv_run; try done. apply machineFrame_position. by eapply preserves_br_transition. }
    rewrite Hlast. unfold position. rewrite P1, P2, P3. by apply action_not_upgraded.
Qed.

Lemma moveToNextBatch_position s p :
  BatchPartition (br_Plan release) = Some p -> CurrentBatch (br_CanaryStatus s) < p ->
  in32 (CurrentBatch (br_CanaryStatus s)) -> in32 p ->
  position (moveToNextBatch release s)
  = (br_Phase s, UpgradingBatchState, CurrentBatch (br_CanaryStatus s) + 1).
Proof.
  intros Hp Hlt Hb Hp32. unfold moveToNextBatch, position. rewrite Hp.
  rewrite decide_True by lia. simpl. rewrite wrap32_id by (unfold in32 in *; lia). done.
Qed.

Lemma recheckBatch_edge w result err s' w' :
  ControlLaws ctl -> planInForce release -> int32Fields ->
  position st = (RolloutPhaseProgressing, ReadyBatchState, CurrentBatch (br_CanaryStatus st)) ->
  recheckBatch release ctl (st, w) = (Ok (result, err), (s', w')) ->
  actionEdge release ctl (position st) (position s').
Proof.
  intros Hlaws Hf [Hb32 Hp32] Hpos Hrun. unfold recheckBatch in Hrun.
  apply bind_Ok_inv in Hrun as (x & [s1 w1] & Hc & Hrun).
  apply (catch_call _ id) in Hc as [Hp1 Hcall]; [|apply Hlaws].
  unfold id in Hp1. rewrite Hpos in Hp1 |- *. apply position_inv in Hp1 as (P1 & P2 & P3).
  destruct x as [[]|e].
  - pose proof Hf as (Hd & Hpart & Hh & Hlen).
    destruct (BatchPartition (br_Plan release)) as [p|] eqn:Ep; [|done].
    unfold isPartitioned in Hrun. rewrite Ep in Hrun. case_bool_decide as Hle; simpl in Hrun; inv_run.
    + unfold position. rewrite P1, P2, P3. by eapply action_wait.
    + rewrite (moveToNextBatch_position _ p), P1, P3; [|exact Ep|rewrite P3; lia|by rewrite P3|by apply Hp32].
      eapply action_next; [done|done|done|lia].
  - inv_run. unfold position. simpl. rewrite P1, P3. apply action_not_ready; [done|done|by right].
Qed.

Lemma verifyBatch_edge w result err s' w' :
  ControlLaws ctl -> planInForce release ->
  position st = (RolloutPhaseProgressing, VerifyingBatchState, CurrentBatch (br_CanaryStatus st)) ->
  verifyBatch ctl (st, w) = (Ok (result, err), (s', w')) ->
  actionEdge release ctl (position st) (position s').
Proof.
  intros Hlaws Hf Hpos Hrun. unfold verifyBatch in Hrun.
  apply bind_Ok_inv in Hrun as (x & [s1 w1] & Hc & Hrun).
  apply (catch_call _ id) in Hc as [Hp1 Hcall]; [|apply Hlaws].
  unfold id in Hp1. rewrite Hpos in Hp1 |- *. apply position_inv in Hp1 as (P1 & P2 & P3).
  destruct x as [[]|e]; inv_run; unfold position; simpl; rewrite P1, P3.
  - by apply action_ready.
  - apply action_not_ready; [done|done|by left].
Qed.

Lemma progressBatches_edge w result err s' w' :
  ControlLaws ctl -> planInForce release -> int32Fields ->
  br_Phase st = RolloutPhaseProgressing ->
  progressBatches release ctl (st, w) = (Ok (result, err), (s', w')) ->
  actionEdge release ctl (position st) (position s').
Proof.
  intros Hlaws Hf H32 Hp Hrun. pose proof (position_progressing st Hp) as Hpos.
  unfold progressBatches, bind at 1, getC in Hrun. simpl in Hrun.
  assert (Hu : forall bst, CurrentBatchState (br_CanaryStatus st) = bst ->
      bst <> VerifyingBatchState -> bst <> ReadyBatchState ->
      upgradeBatch ctl (normalState st, w) = (Ok (result, err), (s', w')) ->
      actionEdge release ctl (position st) (position s')).
  { intros bst E Hv Hr Hx. rewrite E in Hpos. by eapply upgradeBatch_edge. }
  destruct (CurrentBatchState (br_CanaryStatus st)) eqn:E.
  all: unfold normalState in Hu; rewrite E in Hu.
  - by apply (Hu UpgradingBatchState).
  - by eapply verifyBatch_edge.
  - by eapply recheckBatch_edge.
  - by apply (Hu BatchStateNone).
  - by apply (Hu (BatchStateOther s)).
Qed.

Lemma preparePlan_edge w result err s' w' :
  ControlLaws ctl -> br_Phase st <> RolloutPhaseProgressing ->
  br_Phase st <> RolloutPhaseFinalizing -> br_Phase st <> RolloutPhaseCompleted ->
  preparePlan ctl (normalPhase st, w) = (Ok (result, err), (s', w')) ->
  actionEdge release ctl (position st) (position s').
Proof.
  intros Hlaws H1 H2 H3 Hrun. unfold preparePlan in Hrun.
  apply bind_Ok_inv in Hrun as (x & [s1 w1] & Hc & Hrun).
  apply catch_call in Hc as [Hp1 Hcall]; [|apply Hlaws].
  assert (Hn : position (normalPhase st) = (RolloutPhasePreparing,
      CurrentBatchState (br_CanaryStatus st), CurrentBatch (br_CanaryStatus st))).
  { unfold normalPhase, position. destruct (br_Phase st) eqn:E; simpl; rewrite ?E; done. }
  rewrite Hn in Hp1. apply position_inv in Hp1 as (P1 & P2 & P3).
  destruct x as [[]|e]; inv_run; unfold position; simpl; rewrite ?P1, P2, P3.
  - by apply action_prepared.
  - by apply action_not_prepared.
Qed.

Lemma execute_edge w result err s' w' :
  ControlLaws ctl -> int32Fields -> isPlanCompleted release = false ->
  (br_Phase st = RolloutPhaseProgressing -> planInForce release) ->
  executeBatchReleasePlan release ctl (st, w) = (Ok (result, err), (s', w')) ->
  actionEdge release ctl (position st) (position s').
Proof.
  intros Hlaws H32 Hcomp Hforce Hrun. unfold executeBatchReleasePlan, bind at 1, getC in Hrun.
  simpl in Hrun. unfold isPlanCompleted in Hcomp. apply bool_decide_eq_false in Hcomp.
  pose proof (fun H1 H2 H3 => preparePlan_edge w result err s' w' Hlaws H1 H2 H3) as Hprep.
  unfold normalPhase in Hprep.
  destruct (br_Phase st) eqn:E; try done; try (apply Hprep; [congruence..|exact Hrun]).
  - eapply progressBatches_edge; [done|by apply Hforce|done|done|exact Hrun].
  - apply bind_Ok_inv in Hrun as (x & [s1 w1] & Hc & Hrun).
    apply (catch_call _ id) in Hc as [Hp1 Hcall]; [|apply Hlaws]. unfold id in Hp1.
    assert (Hpos : position st = (RolloutPhaseFinalizing, CurrentBatchState (br_CanaryStatus st),
      CurrentBatch (br_CanaryStatus st))) by (unfold position; by rewrite E).
    rewrite Hpos in Hp1 |- *. apply position_inv in Hp1 as (P1 & P2 & P3).
    destruct x as [[]|e]; inv_run; unfold position; simpl; rewrite ?P1, P2, P3.
    + by apply action_finalized.
    + by apply action_not_finalized.
Qed.
End execute_lemmas.

(** ** Rounds *)

Section rounds.
Context {W : Type} `{Clock W} `{Api W Deployment} `{K8sLib} `{WorkloadFilter} `{MinReadyGate}
  `{PlanHash} `{ControlPlanes W} `{!ControlPlanesLaws W}.

(** A round that ended with its synchronisation. *)
Definition onlySynced (release : BatchRelease) (ctl : ControlInterface W) (w : W)
    (result : option Z) (err : option goerror) (st' : BatchReleaseStatus) (w' : W) : Prop :=
  exists stop, stop || negb (bool_decide (err = None)) = true
  /\ syncStatusBeforeExecuting release ctl (getInitializedStatus (br_Status release), w)
     = (Ok (stop, result, err), (st', w')).

(** What a round that returns a status did. *)
Definition roundPost (release : BatchRelease) (ctl : ControlInterface W) (w : W)
    (result : option Z) (err : option goerror) (st' : BatchReleaseStatus) (w' : W) : Prop :=
  let st := br_Status release in
  let start := getInitializedStatus st in
  exists event info err0 w0,
    cp_SyncWorkloadInformation ctl (start, w) = (Ok (event, info, err0), (start, w0))
    /\ (onlySynced release ctl w result err st' w'
        /\ signalEdge release event (position start) (position st') /\ err = IgnoreNotFound err0
        \/ exists requeue w1,
             syncStatusBeforeExecuting release ctl (start, w) = (Ok (false, requeue, None), (st, w1))
             /\ start = st /\ isPlanCompleted release = false
             /\ executeBatchReleasePlan release ctl (st, w1) = (Ok (result, err), (st', w'))
             /\ actionEdge release ctl (position st) (position st')).

Lemma actionEdge_in_force release (ctl : ControlInterface W) s p :
  actionEdge release ctl (position s) p -> br_Phase s = RolloutPhaseProgressing -> planInForce release.
Proof. unfold position. intros Hedge Hp. rewrite Hp in Hedge. inversion Hedge; by simplify_eq. Qed.

Lemma getReleaseController_laws release (w : W) ctl w' :
  getReleaseController release w = (Ok ctl, w') -> ControlLaws ctl.
Proof.
  unfold getReleaseController. intros Hrun. destruct (negb _); [done|]. inv_run.
  apply controlPlane_laws.
Qed.

Lemma Do_post release (w : W) result st' err w' :
  int32Fields release ->
  Do release w = (Ok (result, Some st', err), w') ->
  exists ctl w0, getReleaseController release w = (Ok ctl, w0)
  /\ roundPost release ctl w0 result err st' w'.
Proof.
  intros H32 Hrun. unfold Do in Hrun. apply bind_Ok_inv in Hrun as (x & w0 & Hg & Hrun).
  apply catch_Ok_inv in Hg. destruct x as [ctl|e]; [|by apply ret_Ok_inv in Hrun as [[=] _]].
  exists ctl, w0. split; [done|]. pose proof (getReleaseController_laws _ _ _ _ Hg) as Hlaws.
  destruct (bind _ _ _) as [[[result1 err1]|e|] [s1 w1]] eqn:E in Hrun; try done.
  injection Hrun as <- <- <- <-.
  apply bind_Ok_inv in E as ([[stop res] err2] & [s2 w2] & Hs & E). pose proof Hs as Hsync.
  apply sync_spec in Hs as (event & info & err0 & Hs & He & Hedge & Hne & Hgo); [|done].
  exists event, info, err0, w2. split; [done|].
  destruct (stop || negb (bool_decide (err2 = None))) eqn:Estop.
  - apply ret_Ok_inv in E as [[= <- <-] [= <- <-]]. left. split; [|done]. by exists stop.
  - destruct (Hgo eq_refl) as [Hcomp Hforce]. right.
    apply orb_false_iff in Estop as [-> Herr]. apply negb_false_iff, bool_decide_eq_true in Herr.
    assert (s2 = br_Status release) as ->.
    { destruct (decide (s2 = br_Status release)) as [|Hx]; [done|]. by specialize (Hne Hx). }
    assert (Hstart : getInitializedStatus (br_Status release) = br_Status release).
    { unfold getInitializedStatus in *. case_decide as Hn; [|done]. exfalso.
      unfold position in Hedge. simpl in Hedge. rewrite Hn in Hedge. inversion Hedge. }
    rewrite Herr in Hsync. exists res, w2. split_and!; try done. by eapply execute_edge.
Qed.

(** ** Runs *)

(** A plan the rollout controller may hand down while it allows for batch [P]. *)
Definition planWithin (P : Z) (release : BatchRelease) : Prop :=
  int32Fields release /\ 0 < len (Batches (br_Plan release)) < 2 ^ 31
  /\ forall p, BatchPartition (br_Plan release) = Some p -> 0 <= p <= P.

(** A round from the stored status [s], under whatever plan and in whatever world, whose
    status [s'] is stored. *)
Definition roundCall (P : Z) (s s' : BatchReleaseStatus) : Prop :=
  exists release (w : W) result err w', br_Status release = s /\ planWithin P release
  /\ Do release w = (Ok (result, Some s', err), w').

Lemma getInitializedStatus_batch s b :
  CurrentBatch (br_CanaryStatus s) = b ->
  CurrentBatch (br_CanaryStatus (getInitializedStatus s)) = b
  \/ CurrentBatch (br_CanaryStatus (getInitializedStatus s)) = 0.
Proof. intros <-. unfold getInitializedStatus. case_decide; [by right|by left]. Qed.

Lemma recalculatedBatch_within P release :
  0 <= P -> planWithin P release -> 0 <= recalculatedBatch release <= P.
Proof.
  intros HP (_ & Hlen & Hp). unfold recalculatedBatch.
  destruct (BatchPartition _) as [p|]; [|lia]. specialize (Hp p eq_refl).
  rewrite wrap32_id by (unfold in32; lia). destruct (String.eqb _ _); lia.
Qed.

Lemma roundCall_batch P s s' :
  0 <= P -> 0 <= CurrentBatch (br_CanaryStatus s) <= P -> roundCall P s s' ->
  0 <= CurrentBatch (br_CanaryStatus s') <= P.
Proof.
  intros HP Hs (release & w & result & err & w' & <- & Hplan & Hrun).
  apply Do_post in Hrun as (ctl & w0 & _ & event & info & err0 & w1 & _ & Hpost); [|apply Hplan].
  pose proof (recalculatedBatch_within P release HP Hplan) as Hrec.
  destruct Hplan as (_ & _ & Hpart).
  destruct Hpost as [(_ & Hedge & _)|(requeue & w2 & _ & _ & _ & _ & Hedge)].
  - assert (Hb : 0 <= CurrentBatch (br_CanaryStatus (getInitializedStatus (br_Status release))) <= P).
    { destruct (getInitializedStatus_batch (br_Status release) _ eq_refl) as [->| ->]; lia. }
    unfold position in Hedge. inversion Hedge; simplify_eq; try lia; congruence.
  - unfold position in Hedge. inversion Hedge; simplify_eq; try lia; try congruence.
    match goal with Hp : BatchPartition _ = Some _ |- _ => specialize (Hpart _ Hp) end. lia.
Qed.

(** A round that completes the release has finalised it. *)
Lemma roundCall_completed P s s' :
  roundCall P s s' -> br_Phase s <> RolloutPhaseCompleted -> br_Phase s' = RolloutPhaseCompleted ->
  exists release ctl (w0 w1 : W), br_Status release = s /\ getReleaseController release w0 = (Ok ctl, w1)
  /\ br_Phase s = RolloutPhaseFinalizing /\ called release (cp_Finalize ctl) id succeeded.
Proof.
  intros (release & w & result & err & w' & <- & Hplan & Hrun) Hne Hc.
  apply Do_post in Hrun as (ctl & w0 & Hg & event & info & err0 & w1 & _ & Hpost); [|apply Hplan].
  exists release, ctl, w, w0. split; [done|]. split; [done|].
  destruct Hpost as [(_ & Hedge & _)|(requeue & w2 & _ & _ & _ & _ & Hedge)]; unfold position in Hedge; rewrite Hc in Hedge.
  - exfalso. inversion Hedge as [p E| | | | |]. simplify_eq.
    match goal with E : br_Phase (getInitializedStatus _) = _ |- _ =>
      unfold getInitializedStatus in E; case_decide; [by simpl in E|congruence] end.
  - inversion Hedge; simplify_eq. by split.
Qed.
End rounds.

(** ** Properties *)

Section executor_properties.
Context {W : Type} `{Clock W} `{Api W BatchRelease} `{Api W Deployment} `{Retry W} `{K8sLib}
  `{WorkloadFilter} `{MinReadyGate} `{PlanHash} `{ControlPlanes W} `{!ControlPlanesLaws W}.

(** C2. The machine of a batch release.  A round without a controller returns nothing.
    A round that returns a status has either only synchronised it, raising at most one
    signal (finalise, recalculate, restart the plan, restart the batch, roll
    back), or has called exactly one operation of the control plane and moved by its
    outcome: a batch is verified only after an upgrade that succeeded, ready only after
    its pods were found ready, left only when ready and short of the partition, and a
    release completed only when finalised.  Operations run only when the status in the
    cluster is the one the executor works from, and batch operations only while the plan
    is in force: neither deleted, cancelled, changed nor run past its end. *)
Theorem Do_refines (release : BatchRelease) (w : W) (H32 : int32Fields release) :
  match Do release w with
  | (Ok (result, None, err), w') =>
      result = None /\ err = None /\ exists e, getReleaseController release w = (Err e, w')
  | (Ok (result, Some st', err), w') =>
      exists ctl w0, getReleaseController release w = (Ok ctl, w0)
      /\ roundPost release ctl w0 result err st' w'
  | _ => (exists ctl w0, getReleaseController release w = (Ok ctl, w0))
         \/ exists w0, getReleaseController release w = (Panic, w0)
  end.
Proof.
  destruct (Do release w) as [[[[result [st'|]] err]|e|] w'] eqn:Hrun.
  - by eapply Do_post.
  - unfold Do, bind, catch, ret in Hrun. destruct (getReleaseController release w) as [[ctl|e|] w0]; [| |done].
    + match type of Hrun with match ?x with _ => _ end = _ => by destruct x as [[[? ?]|?|] [? ?]] end.
    + injection Hrun as <- <- <-. split_and!; try done. by exists e.
  - unfold Do, bind, catch, ret in Hrun. destruct (getReleaseController release w) as [[ctl|e'|] w0]; try done.
    left. by exists ctl, w0.
  - unfold Do, bind, catch, ret in Hrun. destruct (getReleaseController release w) as [[ctl|e'|] w0]; try done.
    + left. by exists ctl, w0.
    + right. by exists w0.
Qed.

(** C7. The batch index.  Start from a status whose batch lies between zero and [P], and
    run any number of rounds, each in whatever world and under whatever plan with a batch
    at least and no partition beyond [P]: the batch still lies between zero and [P], so
    the release never gets ahead of what the rollout allowed for; and a further round of
    a progressing release that does more than synchronise works on one of the plan's
    batches, whose size can be computed without running out of range. *)
Theorem batch_index_safe (P : Z) (s s' : BatchReleaseStatus) (HP : 0 <= P)
    (Hstart : 0 <= CurrentBatch (br_CanaryStatus s) <= P)
    (Hruns : rtc (roundCall (W := W) P) s s') :
  0 <= CurrentBatch (br_CanaryStatus s') <= P
  /\ forall release (w : W) result st2 err w2, br_Status release = s' -> planWithin P release ->
       br_Phase s' = RolloutPhaseProgressing -> Do release w = (Ok (result, Some st2, err), w2) ->
       (exists ctl w0, onlySynced release ctl w0 result err st2 w2)
       \/ forall replicas, exists n,
            CalculateBatchReplicas release replicas (CurrentBatch (br_CanaryStatus s')) = Ok n.
Proof.
  assert (Hin : 0 <= CurrentBatch (br_CanaryStatus s') <= P).
  { revert Hstart. induction Hruns as [s|s s1 s' Hround _ IH]; [done|]. intros Hs.
    apply IH. by eapply roundCall_batch. }
  split; [done|]. intros release w result st2 err w2 <- Hplan Hphase Hrun.
  apply Do_post in Hrun as (ctl & w0 & _ & event & info & err0 & w1 & _ & Hpost); [|apply Hplan].
  destruct Hpost as [(Hsync & _)|(requeue & w3 & _ & _ & _ & _ & Hedge)]; [left; by exists ctl, w0|].
  right. intros replicas. unfold CalculateBatchReplicas.
  apply (actionEdge_in_force _ _ _ _ Hedge) in Hphase as (_ & _ & _ & Hlen).
  destruct (go_index_ok (Batches (br_Plan release)) (CurrentBatch (br_CanaryStatus (br_Status release))))
    as (b & -> & _); [lia|]. by eexists.
Qed.

(** C8. Completion and the finalizer.  Over any number of rounds a release that was not
    completed completes only in a round in which the control plane has finalised the
    workload successfully.  And the finalizer of a BatchRelease is removed only when it is
    being deleted and completed; until then the handler writes at most to add it. *)
Theorem finalizer_after_finalize (P : Z) (s s' : BatchReleaseStatus)
    (Hs : br_Phase s <> RolloutPhaseCompleted)
    (Hruns : rtc (roundCall (W := W) P) s s') (Hs' : br_Phase s' = RolloutPhaseCompleted) :
  (exists release ctl (w0 w1 : W), getReleaseController release w0 = (Ok ctl, w1)
     /\ br_Phase (br_Status release) = RolloutPhaseFinalizing
     /\ rtc (roundCall (W := W) P) s (br_Status release)
     /\ called release (cp_Finalize ctl) id succeeded)
  /\ forall (release : BatchRelease) (w : W),
       deleting (br_Meta release) = false \/ br_Phase (br_Status release) <> RolloutPhaseCompleted ->
       br_handleFinalizer release w =
         if ContainsFinalizer (br_Meta release) ReleaseFinalizer then (Ok (false, None), w)
         else match UpdateFinalizer release AddFinalizerOpType ReleaseFinalizer w with
              | (Ok _, w') => (Ok (false, None), w')
              | (Err e, w') => (Ok (if IsNotFound e then (false, None) else (true, Some e)), w')
              | (Panic, w') => (Panic, w')
              end.
Proof.
  split.
  - assert (Hgen : forall x, rtc (roundCall (W := W) P) s x -> br_Phase x <> RolloutPhaseCompleted
        \/ exists release ctl (w0 w1 : W), getReleaseController release w0 = (Ok ctl, w1)
           /\ br_Phase (br_Status release) = RolloutPhaseFinalizing
           /\ rtc (roundCall (W := W) P) s (br_Status release)
           /\ called release (cp_Finalize ctl) id succeeded).
    { apply rtc_ind_r; [by left|]. intros y z Hy Hround IH.
      destruct IH as [Hne|]; [|by right].
      destruct (decide (br_Phase z = RolloutPhaseCompleted)) as [Hz|]; [|by left]. right.
      destruct (roundCall_completed _ _ _ Hround Hne Hz) as (release & ctl & w0 & w1 & <- & Hg & Hp & Hf).
      exists release, ctl, w0, w1. by split_and!. }
    by destruct (Hgen s' Hruns).
  - intros release w Hno. unfold br_handleFinalizer, bind, catch, ret.
    replace (deleting _ && bool_decide _) with false.
    + simpl. destruct (ContainsFinalizer _ _); [done|]. simpl.
      destruct (UpdateFinalizer _ _ _ w) as [[[]|e|] w']; [done| |done]. by destruct e.
    + symmetry. apply andb_false_iff. rewrite bool_decide_eq_false. naive_solver.
Qed.
End executor_properties.

(** ** Reaching the partition *)

Section progress.
Context {W : Type} `{Clock W} `{Api W BatchRelease} `{Api W Deployment} `{Retry W} `{K8sLib}
  `{WorkloadFilter} `{MinReadyGate} `{PlanHash} `{ControlPlanes W} `{!ControlPlanesLaws W}.

(** The operation a round calls, and the status it is called on. *)
Definition nextOperation (ctl : ControlInterface W) (s : BatchReleaseStatus) : M (BatchReleaseStatus * W) unit :=
  if decide (br_Phase s = RolloutPhaseProgressing) then
    match CurrentBatchState (br_CanaryStatus s) with
    | VerifyingBatchState | ReadyBatchState => cp_EnsureBatchPodsReadyAndLabeled ctl
    | _ => cp_UpgradeBatch ctl
    end
  else cp_Initialize ctl.
Definition normalized (s : BatchReleaseStatus) : BatchReleaseStatus :=
  if decide (br_Phase s = RolloutPhaseProgressing) then normalState s else normalPhase s.

(** The counts that the status shows are those of the workload. *)
Definition showsCounts (info : option WorkloadInfo) (s : BatchReleaseStatus) : bool :=
  match info with
  | Some info => bool_decide (br_UpdatedReplicas (br_CanaryStatus s) = ws_UpdatedReplicas (wi_Status info)
                   /\ br_UpdatedReadyReplicas (br_CanaryStatus s) = ws_UpdatedReadyReplicas (wi_Status info))
  | None => true
  end.

Variable release : BatchRelease.
Definition storing (s : BatchReleaseStatus) : BatchRelease := release <| br_Status := s |>.

(** In the world [w] there is nothing wrong with the workload, and the operation that a
    round calls succeeds; [settled] tells whether the status shows the counts. *)
Definition healthy (s : BatchReleaseStatus) (w : W) (settled : bool) : Prop :=
  exists ctl w0 info w1,
    getReleaseController (storing s) w = (Ok ctl, w0)
    /\ cp_SyncWorkloadInformation ctl (getInitializedStatus s, w0)
       = (Ok (WorkloadNormalState, info, None), (getInitializedStatus s, w1))
    /\ settled = showsCounts info s
    /\ exists s2 w2, nextOperation ctl s (normalized s, w1) = (Ok tt, (s2, w2)).

(** Healthy rounds, each in a world of its own, and how many of them were settled. *)
Inductive healthyRounds : nat -> BatchReleaseStatus -> BatchReleaseStatus -> Prop :=
  | rounds_none s : healthyRounds 0 s s
  | rounds_more n s w settled result s' err w' s'' :
      healthy s w settled -> Do (storing s) w = (Ok (result, Some s', err), w') ->
      healthyRounds n s' s'' ->
      healthyRounds (if settled then S n else n) s s''.

Variable p : Z.
Hypotheses (Hlive : deleting (br_Meta release) = false) (Hforward : hasRollbackAnnotation release = false)
  (Hpart : BatchPartition (br_Plan release) = Some p)
  (Hp : 0 <= p < len (Batches (br_Plan release))) (Hlen : len (Batches (br_Plan release)) < 2 ^ 31).

(** Where a release may stand that is not done. *)
Definition underway (s : BatchReleaseStatus) : Prop :=
  br_Phase s <> RolloutPhaseFinalizing /\ br_Phase s <> RolloutPhaseCompleted
  /\ 0 <= CurrentBatch (br_CanaryStatus s) <= p.

(** The rounds that are left: three for each batch, one for a plan that has changed. *)
Definition stateLeft (s : BatchReleaseStatus) : Z :=
  match CurrentBatchState (br_CanaryStatus s) with
  | ReadyBatchState => 0 | VerifyingBatchState => 1 | _ => 2
  end.
Definition workLeft (s : BatchReleaseStatus) : Z :=
  if decide (ObservedReleasePlanHash s = HashReleasePlanBatches (br_Plan release))
  then 3 * (p - CurrentBatch (br_CanaryStatus s)) + stateLeft s else 3 * p + 3.
Definition idLeft (s : BatchReleaseStatus) : Z :=
  if decide (br_ObservedRolloutID s = RolloutID (br_Plan release)) then 0 else 1.
Definition roundsLeft (s : BatchReleaseStatus) : Z :=
  if decide (br_Phase s = RolloutPhaseNone) then 3 * p + 4
  else if decide (br_Phase s = RolloutPhaseProgressing) then workLeft s + idLeft s
  else 1 + workLeft s + idLeft s.

Lemma roundsLeft_bounds s : underway s -> 0 <= roundsLeft s <= 3 * p + 5.
Proof.
  intros (_ & _ & Hb). unfold roundsLeft, workLeft, idLeft, stateLeft.
  destruct (CurrentBatchState _); repeat case_decide; lia.
Qed.

Lemma roundsLeft_zero s :
  underway s -> roundsLeft s = 0 -> position s = (RolloutPhaseProgressing, ReadyBatchState, p).
Proof.
  intros (_ & _ & Hb). unfold roundsLeft, workLeft, idLeft, stateLeft, position.
  destruct (CurrentBatchState _) eqn:E; repeat case_decide; intros Hz; try lia.
  f_equal; [by f_equal|lia].
Qed.

(** The status a healthy round works on. *)
Definition synced (info : option WorkloadInfo) (s : BatchReleaseStatus) : BatchReleaseStatus :=
  let start := getInitializedStatus s in
  refreshStatus release info (if isPlanChanged (storing s) then signalRecalculate (storing s) start else start).

Lemma healthy_sync (ctl : ControlInterface W) s w0 info w1 :
  underway s ->
  cp_SyncWorkloadInformation ctl (getInitializedStatus s, w0)
    = (Ok (WorkloadNormalState, info, None), (getInitializedStatus s, w1)) ->
  syncStatusBeforeExecuting (storing s) ctl (getInitializedStatus s, w0)
  = (Ok (if decide (s = synced info s) then (false, None, None) else (true, Some DefaultDuration, None)),
     (synced info s, w1)).
Proof.
  intros (Hf & Hc & Hb) Hsync. unfold syncStatusBeforeExecuting. rewrite (bind_step _ _ _ _ _ Hsync). simpl.
  assert (Hcases : specialCases (storing s) WorkloadNormalState info None (getInitializedStatus s, w1)
    = (Ok false, (if isPlanChanged (storing s) then signalRecalculate (storing s) (getInitializedStatus s)
                  else getInitializedStatus s, w1))).
  { unfold specialCases, isPlanCompleted. simpl. rewrite (bool_decide_eq_false_2 _ Hc).
    unfold isPlanFinalizing. change (br_Meta (storing s)) with (br_Meta release).
    change (br_Plan (storing s)) with (br_Plan release). change (br_Status (storing s)) with s.
    rewrite Hlive, (bool_decide_eq_false_2 _ Hf), Hpart. simpl.
    destruct (isPlanChanged (storing s)) eqn:Ech; [done|].
    unfold isPlanUnhealthy. change (br_Plan (storing s)) with (br_Plan release). change (br_Status (storing s)) with s.
    rewrite bool_decide_eq_false_2 by lia. simpl. unfold isWorkloadRollbackInBatch, hasRollbackAnnotation in *.
    change (br_Meta (storing s)) with (br_Meta release). by rewrite Hforward. }
  rewrite (bind_step _ _ _ _ _ Hcases). unfold bind, modC, getC, ret. simpl.
  change (refreshStatus (storing s)) with (refreshStatus release). fold (synced info s).
  by destruct (bool_decide_reflect (s = synced info s)) as [E|E]; simpl; [rewrite decide_True|rewrite decide_False].
Qed.

Lemma storing_changed s :
  isPlanChanged (storing s) = true <->
  ObservedReleasePlanHash s <> HashReleasePlanBatches (br_Plan release) /\ br_Phase s = RolloutPhaseProgressing.
Proof.
  unfold isPlanChanged, isProgressing. simpl. rewrite andb_true_iff, negb_true_iff, bool_decide_eq_true.
  by rewrite String.eqb_neq.
Qed.

Lemma refresh_fields info s :
  position (refreshStatus release info s) = position s
  /\ br_ObservedRolloutID (refreshStatus release info s) = RolloutID (br_Plan release)
  /\ ObservedReleasePlanHash (refreshStatus release info s)
     = (if String.eqb (ObservedReleasePlanHash s) "" then HashReleasePlanBatches (br_Plan release)
        else ObservedReleasePlanHash s).
Proof. unfold refreshStatus, position. destruct info; simpl; by destruct (String.eqb _ ""). Qed.

Lemma recalculated_batch s : 0 <= recalculatedBatch (storing s) <= p.
Proof.
  unfold recalculatedBatch. simpl. change (br_Plan (storing s)) with (br_Plan release). rewrite Hpart.
  rewrite wrap32_id by (unfold in32; lia). destruct (String.eqb _ _); lia.
Qed.

(** A refresh that only shows the counts it shows already changes the plan's hash or the
    rollout id. *)
Lemma refresh_settled info s :
  showsCounts info s = true -> ObservedReleasePlanHash s <> ""%string ->
  br_ObservedRolloutID s = RolloutID (br_Plan release) -> refreshStatus release info s = s.
Proof.
  intros Hcounts Hhash Hid. unfold refreshStatus. destruct s as [c cs st up g id ow cc h ph m]. simpl in *.
  destruct cs as [bs cb rt u ur nn]. destruct info as [info|]; simpl in *.
  - apply bool_decide_eq_true in Hcounts as [<- <-]. rewrite (proj2 (String.eqb_neq _ _) Hhash). simpl. by rewrite Hid.
  - rewrite (proj2 (String.eqb_neq _ _) Hhash). simpl. by rewrite Hid.
Qed.

Lemma synced_progress info s :
  underway s -> s <> synced info s ->
  underway (synced info s) /\ roundsLeft (synced info s) <= roundsLeft s
  /\ (showsCounts info s = true -> roundsLeft (synced info s) < roundsLeft s).
Proof.
  intros Hu Hne. pose proof Hu as (Hf & Hc & Hb). unfold synced in *.
  destruct (isPlanChanged (storing s)) eqn:Ech.
  - apply storing_changed in Ech as [Hh Hph]. set (s1 := signalRecalculate (storing s) (getInitializedStatus s)) in *.
    destruct (refresh_fields info s1) as (Hpos & Hid & Hhash). set (s2 := refreshStatus release info s1) in *.
    assert (Hpos1 : position s1 = (RolloutPhaseProgressing, UpgradingBatchState, recalculatedBatch (storing s))).
    { unfold s1, position, getInitializedStatus. simpl. rewrite decide_False by congruence. by rewrite Hph. }
    assert (Hhash2 : ObservedReleasePlanHash s2 = HashReleasePlanBatches (br_Plan release)).
    { rewrite Hhash. unfold s1. simpl. by destruct (String.eqb _ ""). }
    rewrite Hpos1 in Hpos. apply position_inv in Hpos as (P1 & P2 & P3). pose proof (recalculated_batch s) as Hrec.
    assert (Hlt : roundsLeft s2 < roundsLeft s).
    { unfold roundsLeft, workLeft, idLeft, stateLeft. rewrite P1, P2, P3, Hph, Hid, Hhash2.
      repeat case_decide; try congruence; lia. }
    split; [|lia]. unfold underway. rewrite P1, P3. split_and!; [done|done|lia..].
  - assert (Hch : br_Phase s = RolloutPhaseProgressing -> ObservedReleasePlanHash s = HashReleasePlanBatches (br_Plan release)).
    { intros Hph. destruct (decide (ObservedReleasePlanHash s = HashReleasePlanBatches (br_Plan release))) as [|Hx]; [done|].
      by rewrite (proj2 (storing_changed s) (conj Hx Hph)) in Ech. }
    unfold getInitializedStatus in *. destruct (decide (br_Phase s = RolloutPhaseNone)) as [Hnone|Hsome].
    + destruct (refresh_fields info (resetStatus s)) as (Hpos & Hid & Hhash). set (s2 := refreshStatus release info (resetStatus s)) in *.
      change (position (resetStatus s)) with (RolloutPhasePreparing, BatchStateNone, 0) in Hpos.
      change (ObservedReleasePlanHash s2 = HashReleasePlanBatches (br_Plan release)) in Hhash.
      apply position_inv in Hpos as (P1 & P2 & P3).
      assert (Hlt : roundsLeft s2 < roundsLeft s).
      { unfold roundsLeft at 2. rewrite decide_True by done. unfold roundsLeft, workLeft, idLeft, stateLeft.
        rewrite P1, P2, P3, Hid, Hhash. repeat case_decide; try congruence; lia. }
      split; [|lia]. unfold underway. rewrite P1, P3. split_and!; [done|done|lia..].
    + destruct (refresh_fields info s) as (Hpos & Hid & Hhash). set (s2 := refreshStatus release info s) in *.
      apply position_inv in Hpos as (P1 & P2 & P3).
      assert (Hwork : workLeft s2 <= workLeft s
        /\ (ObservedReleasePlanHash s = ""%string -> HashReleasePlanBatches (br_Plan release) <> ""%string -> workLeft s2 < workLeft s)).
      { unfold workLeft, stateLeft. rewrite Hhash, P2, P3.
        destruct (String.eqb_spec (ObservedReleasePlanHash s) "") as [E|E]; [|split; [lia|done]].
        rewrite (decide_True (P := HashReleasePlanBatches _ = _)) by done.
        destruct (CurrentBatchState (br_CanaryStatus s)); case_decide; split; intros; try lia; congruence. }
      assert (Hids : idLeft s2 = 0) by (unfold idLeft; by rewrite Hid, decide_True).
      assert (Hid0 : 0 <= idLeft s) by (unfold idLeft; case_decide; lia).
      split; [unfold underway; rewrite P1, P3; done|].
      assert (Hle : forall d, (workLeft s2 + idLeft s2 <= workLeft s + idLeft s - d) -> roundsLeft s2 <= roundsLeft s - d).
      { intros d Hd. unfold roundsLeft. rewrite P1. rewrite !(decide_False (P := _ = RolloutPhaseNone)) by done.
        case_decide; lia. }
      split; [specialize (Hle 0); lia|]. intros Hcounts. enough (workLeft s2 + idLeft s2 < workLeft s + idLeft s) by (specialize (Hle 1); lia).
      destruct (decide (br_ObservedRolloutID s = RolloutID (br_Plan release))) as [Ei|Ei];
        [|assert (idLeft s = 1) by (unfold idLeft; by rewrite decide_False); lia].
      assert (Hempty : ObservedReleasePlanHash s = ""%string /\ HashReleasePlanBatches (br_Plan release) <> ""%string).
      { destruct (decide (ObservedReleasePlanHash s = ""%string)) as [Eh|Eh]; 
          [|exfalso; apply Hne; symmetry; by apply refresh_settled].
        split; [done|]. intros Eh'. apply Hne. symmetry.
        unfold s2, refreshStatus. clear -Hcounts Eh Ei Eh'. destruct s as [c cs st up g id ow cc h ph m], cs as [bs cb rt u ur nn].
        simpl in *. subst h. destruct info as [info|]; simpl in *.
        - apply bool_decide_eq_true in Hcounts as [<- <-]. by rewrite Eh', Ei.
        - by rewrite Eh', Ei. }
      destruct Hempty as [E1 E2]. pose proof (proj2 Hwork E1 E2). lia.
Qed.

(** ** One round *)

Lemma nextOperation_laws (ctl : ControlInterface W) s :
  ControlLaws ctl -> preserves machineFrame (nextOperation ctl s).
Proof.
  intros Hlaws. unfold nextOperation. case_decide; [|apply Hlaws].
  destruct (CurrentBatchState (br_CanaryStatus s)); apply Hlaws.
Qed.

(** What an execution leads to whose operation succeeds. *)
Definition advanced (s s' : BatchReleaseStatus) : Prop :=
  underway s' /\ roundsLeft s' <= roundsLeft s /\ (roundsLeft s <> 0 -> roundsLeft s' < roundsLeft s).

Lemma advanced_intro s s' phase' state' batch' :
  underway s -> br_Phase s <> RolloutPhaseNone ->
  (br_Phase s = RolloutPhaseProgressing -> ObservedReleasePlanHash s = HashReleasePlanBatches (br_Plan release)) ->
  br_ObservedRolloutID s = RolloutID (br_Plan release) ->
  position s' = (phase', state', batch') ->
  ObservedReleasePlanHash s' = ObservedReleasePlanHash s -> br_ObservedRolloutID s' = br_ObservedRolloutID s ->
  phase' = RolloutPhaseProgressing ->
  (br_Phase s <> RolloutPhaseProgressing /\ state' = CurrentBatchState (br_CanaryStatus s)
     /\ batch' = CurrentBatch (br_CanaryStatus s)
   \/ br_Phase s = RolloutPhaseProgressing
     /\ match CurrentBatchState (br_CanaryStatus s) with
        | VerifyingBatchState => state' = ReadyBatchState /\ batch' = CurrentBatch (br_CanaryStatus s)
        | ReadyBatchState =>
            if decide (p <= CurrentBatch (br_CanaryStatus s))
            then state' = ReadyBatchState /\ batch' = CurrentBatch (br_CanaryStatus s)
            else state' = UpgradingBatchState /\ batch' = CurrentBatch (br_CanaryStatus s) + 1
        | _ => state' = VerifyingBatchState /\ batch' = CurrentBatch (br_CanaryStatus s)
        end) ->
  advanced s s'.
Proof.
  intros (Hf & Hc & Hb) Hnone Hforce Hids (P1 & P2 & P3)%position_inv Hhash Hid -> Hcase.
  unfold advanced, underway, roundsLeft, workLeft, idLeft, stateLeft. rewrite P1, P2, P3, Hhash, Hid.
  destruct Hcase as [(Hph & -> & ->)|[Hph Hcase]].
  - repeat case_decide; try congruence; split_and!; (done || lia).
  - specialize (Hforce Hph).
    destruct (CurrentBatchState (br_CanaryStatus s)); repeat case_decide; try congruence;
      destruct Hcase as [-> ->]; cbn; split_and!; (done || lia).
Qed.

Lemma upgradeBatch_ok (ctl : ControlInterface W) s s2 (w w2 : W) :
  cp_UpgradeBatch ctl (s, w) = (Ok tt, (s2, w2)) ->
  upgradeBatch ctl (s, w)
  = (Ok (Some DefaultDuration, None), (setBatchState VerifyingBatchState (removeProgressingCondition s2), w2)).
Proof. intros Hop%catch_step. unfold upgradeBatch. by rewrite (bind_step _ _ _ _ _ Hop). Qed.
Lemma verifyBatch_ok (ctl : ControlInterface W) s s2 (w w2 : W) :
  cp_EnsureBatchPodsReadyAndLabeled ctl (s, w) = (Ok tt, (s2, w2)) ->
  exists t w3, verifyBatch ctl (s, w)
  = (Ok (Some DefaultDuration, None), (setBatchState ReadyBatchState (setReadyTime (Some t) s2), w3)).
Proof.
  intros Hop%catch_step. unfold verifyBatch. rewrite (bind_step _ _ _ _ _ Hop).
  unfold bind, inWorld, time_Now, modC, ret. simpl. destruct (clock_now w2) as [t w3]. by exists t, w3.
Qed.
Lemma recheckBatch_ok (ctl : ControlInterface W) s s1 s2 (w w2 : W) :
  cp_EnsureBatchPodsReadyAndLabeled ctl (s, w) = (Ok tt, (s2, w2)) ->
  exists result, recheckBatch (storing s1) ctl (s, w)
  = (Ok (result, None), (if decide (p <= CurrentBatch (br_CanaryStatus s1)) then s2
                         else moveToNextBatch (storing s1) s2, w2)).
Proof.
  intros Hop%catch_step. unfold recheckBatch. rewrite (bind_step _ _ _ _ _ Hop).
  assert (E : isPartitioned (storing s1) = bool_decide (p <= CurrentBatch (br_CanaryStatus s1))).
  { unfold isPartitioned. change (br_Plan (storing s1)) with (br_Plan release). by rewrite Hpart. }
  rewrite E. case_decide as Hle; [rewrite bool_decide_eq_true_2 by done|rewrite bool_decide_eq_false_2 by done];
    by eexists.
Qed.

Lemma execute_advances (ctl : ControlInterface W) s w s2 w2 :
  ControlLaws ctl -> underway s -> br_Phase s <> RolloutPhaseNone ->
  (br_Phase s = RolloutPhaseProgressing -> ObservedReleasePlanHash s = HashReleasePlanBatches (br_Plan release)) ->
  br_ObservedRolloutID s = RolloutID (br_Plan release) ->
  nextOperation ctl s (normalized s, w) = (Ok tt, (s2, w2)) ->
  exists result s' w', executeBatchReleasePlan (storing s) ctl (s, w) = (Ok (result, None), (s', w')) /\ advanced s s'.
Proof.
  intros Hlaws Hu Hnone Hforce Hids Hop. pose proof Hu as (Hf & Hc & Hb).
  pose proof (nextOperation_laws ctl s Hlaws _ _ _ _ _ Hop) as [= F1 F2 F3 _ F4 F5].
  unfold nextOperation, normalized in Hop.
  destruct (decide (br_Phase s = RolloutPhaseProgressing)) as [Hph|Hph].
  - assert (Hrun : executeBatchReleasePlan (storing s) ctl (s, w) = progressBatches (storing s) ctl (s, w)).
    { unfold executeBatchReleasePlan, bind at 1, getC. simpl. by rewrite Hph. }
    rewrite Hrun. unfold progressBatches, bind at 1, getC. simpl. clear Hrun.
    unfold normalized, normalState in *. rewrite decide_True in F1, F2, F3, F4, F5 by done.
    pose proof (advanced_intro s) as Hadv. specialize Hadv with (phase' := RolloutPhaseProgressing) (1 := Hu) (2 := Hnone) (3 := Hforce) (4 := Hids).
    destruct (CurrentBatchState (br_CanaryStatus s)) eqn:E.
    + eexists _, _, _. split; [by eapply upgradeBatch_ok|].
      apply Hadv with VerifyingBatchState (CurrentBatch (br_CanaryStatus s)); [|done|done|done|by right].
      rewrite setBatchState_position. simpl in *. by rewrite F1, F3, Hph.
    + destruct (verifyBatch_ok _ _ _ _ _ Hop) as (t & w3 & Hrun). eexists _, _, _. split; [exact Hrun|].
      apply Hadv with ReadyBatchState (CurrentBatch (br_CanaryStatus s)); [|done|done|done|by right].
      rewrite setBatchState_position. simpl in *. by rewrite F1, F3, Hph.
    + destruct (recheckBatch_ok _ _ s _ _ _ Hop) as (result & Hrun). eexists _, _, _. split; [exact Hrun|].
      case_decide as Hle.
      * apply Hadv with ReadyBatchState (CurrentBatch (br_CanaryStatus s)); [|done|done|done|by right].
        unfold position. by rewrite F1, F2, F3, Hph, E.
      * apply Hadv with UpgradingBatchState (CurrentBatch (br_CanaryStatus s) + 1); [|exact F4|exact F5|done|by right].
        rewrite (moveToNextBatch_position _ _ p); rewrite ?F1, ?F3, ?Hph; unfold in32; (done || lia).
    + eexists _, _, _. split; [by eapply upgradeBatch_ok|].
      apply Hadv with VerifyingBatchState (CurrentBatch (br_CanaryStatus s)); [|done|done|done|by right].
      rewrite setBatchState_position. simpl in *. by rewrite F1, F3, Hph.
    + eexists _, _, _. split; [by eapply upgradeBatch_ok|].
      apply Hadv with VerifyingBatchState (CurrentBatch (br_CanaryStatus s)); [|done|done|done|by right].
      rewrite setBatchState_position. simpl in *. by rewrite F1, F3, Hph.
  - unfold normalized in *. rewrite decide_False in F1, F2, F3, F4, F5 by done.
    assert (Hrun : executeBatchReleasePlan (storing s) ctl (s, w) = preparePlan ctl (normalPhase s, w)).
    { unfold executeBatchReleasePlan, bind at 1, getC, normalPhase. simpl. by destruct (br_Phase s). }
    assert (Hprep : preparePlan ctl (normalPhase s, w)
      = (Ok (Some DefaultDuration, None), (s2 <| br_Phase := RolloutPhaseProgressing |>, w2))).
    { unfold preparePlan. by rewrite (bind_step _ _ _ _ _ (catch_step _ _ _ _ Hop)). }
    rewrite Hrun, Hprep. eexists _, _, _. split; [done|].
    assert (Hn : position (normalPhase s) = (br_Phase (normalPhase s), CurrentBatchState (br_CanaryStatus s), CurrentBatch (br_CanaryStatus s))
      /\ ObservedReleasePlanHash (normalPhase s) = ObservedReleasePlanHash s
      /\ br_ObservedRolloutID (normalPhase s) = br_ObservedRolloutID s).
    { unfold normalPhase, position. by destruct (br_Phase s). }
    destruct Hn as ([= N2 N3] & N4 & N5). rewrite N2 in F2. rewrite N3 in F3. rewrite N4 in F4. rewrite N5 in F5.
    apply (advanced_intro s _ RolloutPhaseProgressing (CurrentBatchState (br_CanaryStatus s)) (CurrentBatch (br_CanaryStatus s)));
      [done..| |exact F4|exact F5|done|by left]. unfold position. simpl. by rewrite F2, F3.
Qed.

Lemma healthy_round s w settled :
  underway s -> healthy s w settled ->
  exists result s' w', Do (storing s) w = (Ok (result, Some s', None), w') /\ underway s'
  /\ roundsLeft s' <= roundsLeft s /\ (settled = true -> roundsLeft s <> 0 -> roundsLeft s' < roundsLeft s).
Proof.
  intros Hu (ctl & w0 & info & w1 & Hg & Hsync & -> & s2 & w2 & Hop).
  pose proof (getReleaseController_laws _ _ _ _ Hg) as Hlaws.
  pose proof (healthy_sync ctl s w0 info w1 Hu Hsync) as Hrun.
  unfold Do. rewrite (bind_step _ _ _ _ _ (catch_step _ _ _ _ Hg)). change (br_Status (storing s)) with s.
  rewrite (bind_step _ _ _ _ _ Hrun). destruct (decide (s = synced info s)) as [E|E]; simpl.
  - assert (Hnone : br_Phase s <> RolloutPhaseNone).
    { intros Hx. assert (Hp' : br_Phase (synced info s) <> RolloutPhaseNone); [|congruence].
      unfold synced. destruct (refresh_fields info (if isPlanChanged (storing s) then signalRecalculate (storing s) (getInitializedStatus s)
        else getInitializedStatus s)) as ((Hpos & _ & _)%position_inv & _). rewrite Hpos.
      unfold getInitializedStatus. rewrite decide_True by done. by destruct (isPlanChanged _). }
    destruct (refresh_fields info (if isPlanChanged (storing s) then signalRecalculate (storing s) (getInitializedStatus s)
      else getInitializedStatus s)) as (_ & Hid & Hhash). fold (synced info s) in Hid, Hhash. rewrite <- E in Hid, Hhash.
    assert (Hforce : br_Phase s = RolloutPhaseProgressing -> ObservedReleasePlanHash s = HashReleasePlanBatches (br_Plan release)).
    { intros Hph. destruct (isPlanChanged (storing s)) eqn:Ech.
      - rewrite Hhash. simpl. by destruct (String.eqb _ "").
      - destruct (decide (ObservedReleasePlanHash s = HashReleasePlanBatches (br_Plan release))) as [|Hx]; [done|].
        by rewrite (proj2 (storing_changed s) (conj Hx Hph)) in Ech. }
    rewrite <- E. destruct (execute_advances ctl s w1 s2 w2 Hlaws Hu Hnone Hforce Hid Hop) as (result & s' & w' & Hexec & Hu' & Hle & Hlt).
    rewrite Hexec. exists result, s', w'. split; [done|]. split; [done|]. split; [done|]. by intros _.
  - destruct (synced_progress info s Hu E) as (Hu' & Hle & Hlt). eexists _, _, _. split; [done|]. split; [done|]. split; [done|].
    intros Hset _. by apply Hlt.
Qed.

Lemma healthyRounds_left n s s' :
  healthyRounds n s s' -> underway s ->
  underway s' /\ 0 <= roundsLeft s' /\ roundsLeft s' <= Z.max 0 (roundsLeft s - Z.of_nat n).
Proof.
  induction 1 as [s|n s w settled result s1 err w1 s2 Hhealthy Hrun Hrest IH]; intros Hu.
  - pose proof (roundsLeft_bounds s Hu). split; [done|lia].
  - destruct (healthy_round s w settled Hu Hhealthy) as (result' & s1' & w1' & Hrun' & Hu1 & Hle & Hlt).
    rewrite Hrun in Hrun'. injection Hrun' as <- <- _ _. destruct (IH Hu1) as (Hu2 & Hge & Hfinal).
    split; [done|]. split; [done|]. destruct settled; [|lia]. specialize (Hlt eq_refl).
    pose proof (roundsLeft_bounds s Hu). lia.
Qed.
End progress.

(** C12. A release gets where it may go.  Take a BatchRelease that is neither deleted nor
    rolled back and whose plan has a batch at its partition, in any status that is not
    finalizing or completed and whose batch is not beyond the partition: of another plan,
    not begun, or at any state of a batch.  After any rounds of the executor that are
    healthy, that is, the workload is as expected and the one operation the round calls
    succeeds, every further healthy round returns a status and no error; and as soon as
    five rounds and three for each batch before the partition found the counts in the
    status up to date, the batch of the partition is ready, and stays so. *)
Theorem release_reaches_partition {W : Type} `{Clock W} `{Api W Deployment} `{K8sLib} `{WorkloadFilter}
    `{MinReadyGate} `{PlanHash} `{ControlPlanes W} `{!ControlPlanesLaws W}
    (release : BatchRelease) (p : Z) (n : nat) (s s' : BatchReleaseStatus)
    (Hlive : deleting (br_Meta release) = false) (Hforward : hasRollbackAnnotation release = false)
    (Hpart : BatchPartition (br_Plan release) = Some p)
    (Hp : 0 <= p < len (Batches (br_Plan release))) (Hlen : len (Batches (br_Plan release)) < 2 ^ 31)
    (Hs : underway p s) (Hrounds : healthyRounds (W := W) release n s s') :
  (forall w settled, healthy release s' w settled ->
     exists result s'' w', Do (storing release s') w = (Ok (result, Some s'', None), w'))
  /\ (5 + 3 * p <= Z.of_nat n -> position s' = (RolloutPhaseProgressing, ReadyBatchState, p)).
Proof.
  destruct (healthyRounds_left release p Hlive Hforward Hpart Hp Hlen n s s' Hrounds Hs) as (Hu & Hge & Hle).
  split.
  - intros w settled Hhealthy.
    destruct (healthy_round release p Hlive Hforward Hpart Hp Hlen s' w settled Hu Hhealthy) as (result & s'' & w' & Hrun & _).
    by exists result, s'', w'.
  - intros Hn. apply (roundsLeft_zero release p Hp); [done|].
    pose proof (roundsLeft_bounds release p Hp s Hs). lia.
Qed.
