(* ===== verification/ControlPlane.v ===== *)
(** * The control planes (control/partitionstyle, bluegreenstyle, canarystyle: control_plane.go)

    The three implementations of the control interface over the controllers of the
    single kinds of workloads, which they reach through interfaces of their own. *)

From S2P Require Export BatchExecutor.

(** ** Pods *)

Definition NoNeedUpdatePodLabel : string := "rollouts.kruise.io/no-need-update".
(** [LabelPatcher.PatchPodBatchLabel], for the batches of a release. *)
Class LabelPatcher (W : Type) := PatchPodBatchLabel : list ReleaseBatch -> BatchContext -> M W unit.

(** ** Classifying a workload *)

Definition classifyWorkload (newStatus : BatchReleaseStatus)
    (workloadInfo : WorkloadInfo) : WorkloadEventType :=
  if negb (IsStable workloadInfo) then WorkloadStillReconciling
  else if IsPromoted workloadInfo then WorkloadNormalState
  else if IsScaling workloadInfo (ObservedWorkloadReplicas newStatus) then WorkloadReplicasChanged
  else if IsRollback workloadInfo (br_StableRevision newStatus) (br_UpdateRevision newStatus)
  then WorkloadRollbackInBatch
  else if IsRevisionNotEqual workloadInfo (br_UpdateRevision newStatus)
  then WorkloadPodTemplateChanged
  else WorkloadNormalState.

(** The events of a workload that could not be built. *)
Definition buildFailed (err : goerror) : WorkloadEventType :=
  if IsNotFound err then WorkloadHasGone else WorkloadUnknownState.

(** [status.StableRevision = ...; status.UpdateRevision = ...;
    status.ObservedWorkloadReplicas = ...] *)
Definition recordWorkload (stable update : string) (replicas : Z) (s : BatchReleaseStatus)
    : BatchReleaseStatus :=
  s <| br_StableRevision := stable |> <| br_UpdateRevision := update |>
    <| ObservedWorkloadReplicas := replicas |>.

Definition setNoNeedUpdate (n : option Z) (s : BatchReleaseStatus) : BatchReleaseStatus :=
  s <| br_CanaryStatus := (br_CanaryStatus s) <| NoNeedUpdateReplicas := n |> |>.

(** ** The partition-style plane *)

Inductive StrategyOperation :=
  | StrategyOperationInitialize
  | StrategyOperationBatching
  | StrategyOperationFinalize.

Definition operationName (op : StrategyOperation) : string :=
  match op with
  | StrategyOperationInitialize => "Initialize"
  | StrategyOperationBatching => "Batching"
  | StrategyOperationFinalize => "Finalize"
  end.

(** [Reporter]: it writes conditions into the status it is bound to. *)
Record Reporter (W : Type) := mkReporter {
  RecordZeroReplicaBatching : M (BatchReleaseStatus * W) unit;
  RecordBatchAdvanced : M (BatchReleaseStatus * W) unit;
  RecordZeroReplicaBatchReady : M (BatchReleaseStatus * W) unit;
  RecordBatchReady : M (BatchReleaseStatus * W) unit;
  ObserveBatchWait : M (BatchReleaseStatus * W) unit;
  RecordOperationFailed : string -> goerror -> M (BatchReleaseStatus * W) unit;
  RecordInitialized : M (BatchReleaseStatus * W) unit;
  RecordFinalized : M (BatchReleaseStatus * W) unit;
  FailureReason : StrategyOperation -> string
}.
Arguments RecordZeroReplicaBatching {W}.
Arguments RecordBatchAdvanced {W}.
Arguments RecordZeroReplicaBatchReady {W}.
Arguments RecordBatchReady {W}.
Arguments ObserveBatchWait {W}.
Arguments RecordOperationFailed {W}.
Arguments RecordInitialized {W}.
Arguments RecordFinalized {W}.
Arguments FailureReason {W}.

(** [partitionstyle.Interface] after [BuildController]; the optional method is the type
    assertion on [MinReadyDriftReconciler]. *)
Record PartitionController (W : Type) := mkPartition {
  pt_GetWorkloadInfo : option WorkloadInfo;
  pt_ListOwnedPods : M W (list Pod);
  pt_CalculateBatchContext : BatchRelease -> M W BatchContext;
  pt_Initialize : BatchRelease -> M W unit;
  pt_UpgradeBatch : BatchContext -> M W unit;
  pt_Finalize : BatchRelease -> M W unit;
  pt_GetReporter : option (Reporter W);
  pt_ReconcileMaxUnavailableDrift : option (BatchContext -> M W unit)
}.
Arguments pt_GetWorkloadInfo {W}.
Arguments pt_ListOwnedPods {W}.
Arguments pt_CalculateBatchContext {W}.
Arguments pt_Initialize {W}.
Arguments pt_UpgradeBatch {W}.
Arguments pt_Finalize {W}.
Arguments pt_GetReporter {W}.
Arguments pt_ReconcileMaxUnavailableDrift {W}.

Section partition_plane.
Context {W : Type} `{Api W Pod} `{LabelPatcher W} `{K8sLib}.
Abbreviation MB := (M (BatchReleaseStatus * W)).
(** [BuildController] returns a controller next to its error. *)
Variables (build : M W (PartitionController W * option goerror)) (release : BatchRelease).

Definition withReporter (controller : PartitionController W) (f : Reporter W -> MB unit) : MB unit :=
  match pt_GetReporter controller with Some r => f r | None => ret tt end.

Definition failureReason (controller : PartitionController W) (op : StrategyOperation) : string :=
  let other := ("PartitionStyle" +:+ operationName op +:+ "Failed")%string in
  match pt_GetReporter controller with
  | Some r => if nonempty (FailureReason r op) then FailureReason r op else other
  | None => other
  end.

Definition reportOperationFailed (controller : PartitionController W) (op : StrategyOperation)
    (err : goerror) : MB unit :=
  withReporter controller (fun r => RecordOperationFailed r (failureReason controller op) err).

(** The deferred report: an error of [m] is reported and returned. *)
Definition reported {A} (controller : PartitionController W) (op : StrategyOperation) (m : MB A)
    : MB A :=
  r <- catch m ;;
  match r with
  | inl a => ret a
  | inr err => reportOperationFailed controller op err ;; fail err
  end.

(** Build, or report and return the error. *)
Definition built (op : StrategyOperation) : MB (PartitionController W) :=
  b <- inWorld build ;;
  match snd b with
  | None => ret (fst b)
  | Some err => reportOperationFailed (fst b) op err ;; fail err
  end.

(** The first loop of [markNoNeedUpdatePodsIfNeeds]. *)
Fixpoint splitNoNeedUpdate (pods : list Pod) (rolloutID revision : string) (n : Z)
    (filterPods : list Pod) : Z * list Pod :=
  match pods with
  | [] => (n, filterPods)
  | pod :: rest =>
      let labels := Labels (pod_Meta pod) in
      if deleting (pod_Meta pod) then splitNoNeedUpdate rest rolloutID revision n filterPods
      else if negb (IsConsistentWithRevision labels revision)
      then splitNoNeedUpdate rest rolloutID revision n filterPods
      else if String.eqb (mapget labels NoNeedUpdatePodLabel) rolloutID
      then splitNoNeedUpdate rest rolloutID revision (wrap32 (n + 1)) filterPods
      else splitNoNeedUpdate rest rolloutID revision n (filterPods ++ [pod])%list
  end.

(** The second loop: the count so far, and the error of the first patch that failed. *)
Fixpoint patchNoNeedUpdate (pods : list Pod) (rolloutID : string) (n : Z)
    : M W (Z * option goerror) :=
  match pods with
  | [] => ret (n, None)
  | pod :: rest =>
      r <- catch (api_Patch (O := Pod) (pod_Meta pod) (PatchLabel NoNeedUpdatePodLabel rolloutID)) ;;
      match r with
      | inr err => ret (n, Some err)
      | inl _ => patchNoNeedUpdate rest rolloutID (wrap32 (n + 1))
      end
  end.

Definition markNoNeedUpdatePodsIfNeeds (controller : PartitionController W)
    : MB (option Z * option goerror) :=
  if String.eqb (annotation (br_Meta release) RollbackInBatchAnnotation) "" then ret (None, None) else
  newStatus <- getC ;;
  let rolloutID := RolloutID (br_Plan release) in
  if String.eqb rolloutID "" then ret (Some (br_UpdatedReplicas (br_CanaryStatus newStatus)), None) else
  r <- catch (inWorld (pt_ListOwnedPods controller)) ;;
  match r with
  | inr err => ret (None, Some err)
  | inl pods =>
      let '(n, filterPods) := splitNoNeedUpdate pods rolloutID (br_UpdateRevision newStatus) 0 [] in
      match filterPods with
      | [] => ret (Some n, None)
      | _ =>
          p <- inWorld (patchNoNeedUpdate filterPods rolloutID n) ;;
          match snd p with
          | Some err => ret (Some (fst p), Some err)
          | None => ret (Some (fst p), Some (ErrOther ("initilization not yet: patch and find "
                       +:+ itoa (fst p) +:+ " pods with no-need-update-label")))
          end
      end
  end.

Definition partition_Initialize : MB unit :=
  controller <- built StrategyOperationInitialize ;;
  reported controller StrategyOperationInitialize (
    inWorld (pt_Initialize controller release) ;;
    withReporter controller RecordInitialized ;;
    workloadInfo <- lift (deref (pt_GetWorkloadInfo controller)) ;;
    modC (recordWorkload (ws_StableRevision (wi_Status workloadInfo))
            (ws_UpdateRevision (wi_Status workloadInfo)) (wi_Replicas workloadInfo)) ;;
    r <- markNoNeedUpdatePodsIfNeeds controller ;;
    match r with
    | (_, Some err) => fail err
    | (Some n, None) => modC (setNoNeedUpdate (Some n))
    | (None, None) => ret tt
    end).

(** The loop of [countAndUpdateNoNeedUpdateReplicas]. *)
Fixpoint countNoNeedUpdate (pods : list Pod) (rolloutID revision : string) (n : Z) : Z :=
  match pods with
  | [] => n
  | pod :: rest =>
      let labels := Labels (pod_Meta pod) in
      if deleting (pod_Meta pod) then countNoNeedUpdate rest rolloutID revision n
      else if negb (IsConsistentWithRevision labels revision)
      then countNoNeedUpdate rest rolloutID revision n
      else if bool_decide (labels !! NoNeedUpdatePodLabel = Some rolloutID)
      then countNoNeedUpdate rest rolloutID revision (wrap32 (n + 1))
      else countNoNeedUpdate rest rolloutID revision n
  end.

(** The release with which the batch context is calculated: the control plane's own copy,
    whose status is refreshed here. *)
Definition countAndUpdateNoNeedUpdateReplicas (controller : PartitionController W) : MB BatchRelease :=
  let status := br_Status release in
  if String.eqb (RolloutID (br_Plan release)) ""
     || bool_decide (NoNeedUpdateReplicas (br_CanaryStatus status) = None) then ret release else
  pods <- inWorld (pt_ListOwnedPods controller) ;;
  let n := countNoNeedUpdate pods (RolloutID (br_Plan release)) (br_UpdateRevision status) 0 in
  modC (setNoNeedUpdate (Some n)) ;;
  ret (release <| br_Status := setNoNeedUpdate (Some n) status |>).

Definition partition_UpgradeBatch : MB unit :=
  controller <- built StrategyOperationBatching ;;
  workloadInfo <- lift (deref (pt_GetWorkloadInfo controller)) ;;
  if decide (wi_Replicas workloadInfo = 0) then withReporter controller RecordZeroReplicaBatching else
  reported controller StrategyOperationBatching (
    release' <- countAndUpdateNoNeedUpdateReplicas controller ;;
    batchContext <- inWorld (pt_CalculateBatchContext controller release') ;;
    inWorld (pt_UpgradeBatch controller batchContext) ;;
    inWorld (PatchPodBatchLabel (Batches (br_Plan release)) batchContext)) ;;
  withReporter controller RecordBatchAdvanced.

Definition partition_EnsureBatchPodsReadyAndLabeled : MB unit :=
  controller <- built StrategyOperationBatching ;;
  workloadInfo <- lift (deref (pt_GetWorkloadInfo controller)) ;;
  if decide (wi_Replicas workloadInfo = 0) then withReporter controller RecordZeroReplicaBatchReady else
  batchContext <- reported controller StrategyOperationBatching (
    batchContext <- inWorld (pt_CalculateBatchContext controller release) ;;
    (match pt_ReconcileMaxUnavailableDrift controller with
     | Some reconcile => inWorld (reconcile batchContext)
     | None => ret tt
     end) ;; ret batchContext) ;;
  r <- catch (lift (IsBatchReady batchContext)) ;;
  match r with
  | inr err => withReporter controller ObserveBatchWait ;; fail err
  | inl _ => withReporter controller RecordBatchReady
  end.

Definition partition_Finalize : MB unit :=
  b <- inWorld build ;;
  let controller := fst b in
  match snd b with
  | Some err =>
      if IsNotFound err then ret tt
      else reportOperationFailed controller StrategyOperationFinalize err ;; fail err
  | None =>
      r <- catch (inWorld (pt_Finalize controller release)) ;;
      match r with
      | inr err =>
          if IsNotFound err then withReporter controller RecordFinalized
          else reportOperationFailed controller StrategyOperationFinalize err ;; fail err
      | inl _ => withReporter controller RecordFinalized
      end
  end.

Definition partition_SyncWorkloadInformation
    : MB (WorkloadEventType * option WorkloadInfo * option goerror) :=
  if deleting (br_Meta release) then ret (WorkloadNormalState, None, None) else
  b <- inWorld build ;;
  match snd b with
  | Some err => ret (buildFailed err, None, Some err)
  | None =>
      workloadInfo <- lift (deref (pt_GetWorkloadInfo (fst b))) ;;
      newStatus <- getC ;;
      ret (classifyWorkload newStatus workloadInfo, Some workloadInfo, None)
  end.

Definition partitionControlPlane : ControlInterface W :=
  mkControl partition_Initialize partition_UpgradeBatch partition_EnsureBatchPodsReadyAndLabeled
    partition_Finalize partition_SyncWorkloadInformation.
End partition_plane.

(** ** The blue-green-style plane *)

Record BlueGreenController (W : Type) := mkBlueGreenController {
  bgc_GetWorkloadInfo : option WorkloadInfo;
  bgc_ListOwnedPods : M W (list Pod);
  bgc_CalculateBatchContext : BatchRelease -> M W BatchContext;
  bgc_Initialize : BatchRelease -> M W unit;
  bgc_UpgradeBatch : BatchContext -> M W unit;
  bgc_Finalize : BatchRelease -> M W unit
}.
Arguments bgc_GetWorkloadInfo {W}.
Arguments bgc_ListOwnedPods {W}.
Arguments bgc_CalculateBatchContext {W}.
Arguments bgc_Initialize {W}.
Arguments bgc_UpgradeBatch {W}.
Arguments bgc_Finalize {W}.

Section bluegreen_plane.
Context {W : Type} `{LabelPatcher W} `{K8sLib}.
Abbreviation MB := (M (BatchReleaseStatus * W)).
Variables (build : M W (BlueGreenController W * option goerror)) (release : BatchRelease).

Definition bg_built : MB (BlueGreenController W) :=
  b <- inWorld build ;;
  match snd b with None => ret (fst b) | Some err => fail err end.

Definition bg_Initialize : MB unit :=
  controller <- bg_built ;;
  inWorld (bgc_Initialize controller release) ;;
  workloadInfo <- lift (deref (bgc_GetWorkloadInfo controller)) ;;
  modC (recordWorkload (ws_StableRevision (wi_Status workloadInfo))
          (ws_UpdateRevision (wi_Status workloadInfo)) (wi_Replicas workloadInfo)).

(** The batch context with the pods in it, when they could be listed, and the error of
    listing or patching them. *)
Definition patchPodLabels (controller : BlueGreenController W) (batchContext : BatchContext)
    : MB (BatchContext * option goerror) :=
  r <- catch (inWorld (bgc_ListOwnedPods controller)) ;;
  match r with
  | inr err => ret (batchContext, Some err)
  | inl pods =>
      let batchContext := batchContext <| bc_Pods := pods |> in
      p <- catch (inWorld (PatchPodBatchLabel (Batches (br_Plan release)) batchContext)) ;;
      ret (batchContext, match p with inl _ => None | inr err => Some err end)
  end.

Definition bg_UpgradeBatch : MB unit :=
  controller <- bg_built ;;
  workloadInfo <- lift (deref (bgc_GetWorkloadInfo controller)) ;;
  if decide (wi_Replicas workloadInfo = 0) then ret tt else
  batchContext <- inWorld (bgc_CalculateBatchContext controller release) ;;
  inWorld (bgc_UpgradeBatch controller batchContext).

(** An error of the labels is only logged. *)
Definition bg_EnsureBatchPodsReadyAndLabeled : MB unit :=
  controller <- bg_built ;;
  workloadInfo <- lift (deref (bgc_GetWorkloadInfo controller)) ;;
  if decide (wi_Replicas workloadInfo = 0) then ret tt else
  batchContext <- inWorld (bgc_CalculateBatchContext controller release) ;;
  p <- patchPodLabels controller batchContext ;;
  lift (IsBatchReady (fst p)).

Definition bg_Finalize : MB unit :=
  b <- inWorld build ;;
  match snd b with
  | Some err => if IsNotFound err then ret tt else fail err
  | None => inWorld (bgc_Finalize (fst b) release)
  end.

Definition bg_SyncWorkloadInformation
    : MB (WorkloadEventType * option WorkloadInfo * option goerror) :=
  if deleting (br_Meta release) then ret (WorkloadNormalState, None, None) else
  b <- inWorld build ;;
  match snd b with
  | Some err => ret (buildFailed err, None, Some err)
  | None =>
      workloadInfo <- lift (deref (bgc_GetWorkloadInfo (fst b))) ;;
      newStatus <- getC ;;
      ret (classifyWorkload newStatus workloadInfo, Some workloadInfo, None)
  end.

Definition blueGreenControlPlane : ControlInterface W :=
  mkControl bg_Initialize bg_UpgradeBatch bg_EnsureBatchPodsReadyAndLabeled bg_Finalize
    bg_SyncWorkloadInformation.
End bluegreen_plane.

(** ** The canary-style plane *)

(** [canarystyle.StableInterface] and [CanaryInterface], as [BuildStableController] and
    [BuildCanaryController] return them: next to an error, and with a nil summary then. *)
Record StableController (W : Type) := mkStable {
  st_GetStableInfo : option WorkloadInfo;
  st_Initialize : BatchRelease -> M W unit;
  st_Finalize : BatchRelease -> M W unit
}.
Arguments st_GetStableInfo {W}.
Arguments st_Initialize {W}.
Arguments st_Finalize {W}.

Record CanaryController (W : Type) := mkCanaryController {
  cnc_GetCanaryInfo : option WorkloadInfo;
  cnc_UpgradeBatch : BatchContext -> M W unit;
  cnc_Create : BatchRelease -> M W unit;
  cnc_Delete : BatchRelease -> M W unit
}.
Arguments cnc_GetCanaryInfo {W}.
Arguments cnc_UpgradeBatch {W}.
Arguments cnc_Create {W}.
Arguments cnc_Delete {W}.

Section canary_plane.
Context {W : Type} `{LabelPatcher W} `{K8sLib}.
Abbreviation MB := (M (BatchReleaseStatus * W)).
Variables (buildStable : M W (StableController W * option goerror))
  (buildCanary : BatchRelease -> M W (CanaryController W * option goerror))
  (calculate : BatchRelease -> M W BatchContext) (release : BatchRelease).

(** Build, and return an error that [ignored] does not hold back. *)
Definition builtUnless {A} (ignored : goerror -> bool) (m : M W (A * option goerror)) : MB A :=
  b <- inWorld m ;;
  match snd b with
  | Some err => if ignored err then ret (fst b) else fail err
  | None => ret (fst b)
  end.
Definition anyError (err : goerror) : bool := false.

Definition cnp_Initialize : MB unit :=
  stable <- builtUnless anyError buildStable ;;
  inWorld (st_Initialize stable release) ;;
  canary <- builtUnless IsNotFound (buildCanary release) ;;
  inWorld (cnc_Create canary release) ;;
  stableInfo <- lift (deref (st_GetStableInfo stable)) ;;
  modC (fun s => s <| ObservedWorkloadReplicas := wi_Replicas stableInfo |>
                   <| br_StableRevision := ws_StableRevision (wi_Status stableInfo) |>) ;;
  canaryInfo <- lift (deref (cnc_GetCanaryInfo canary)) ;;
  modC (fun s => s <| br_UpdateRevision := ws_UpdateRevision (wi_Status canaryInfo) |>).

(** Upgrading and checking begin alike; nil: the workload has no replicas. *)
Definition canaryBatch : MB (option (CanaryController W * BatchContext)) :=
  stable <- builtUnless anyError buildStable ;;
  stableInfo <- lift (deref (st_GetStableInfo stable)) ;;
  if decide (wi_Replicas stableInfo = 0) then ret None else
  canary <- builtUnless anyError (buildCanary release) ;;
  canaryInfo <- lift (deref (cnc_GetCanaryInfo canary)) ;;
  if negb (IsStable canaryInfo) then fail (ErrOther "wait canary workload reconcile") else
  batchContext <- inWorld (calculate release) ;;
  ret (Some (canary, batchContext)).

Definition cnp_UpgradeBatch : MB unit :=
  b <- canaryBatch ;;
  match b with
  | None => ret tt
  | Some (canary, batchContext) => inWorld (cnc_UpgradeBatch canary batchContext)
  end.

(** An error of the labels is only logged. *)
Definition cnp_EnsureBatchPodsReadyAndLabeled : MB unit :=
  b <- canaryBatch ;;
  match b with
  | None => ret tt
  | Some (canary, batchContext) =>
      p <- catch (inWorld (PatchPodBatchLabel (Batches (br_Plan release)) batchContext)) ;;
      lift (IsBatchReady batchContext)
  end.

Definition cnp_Finalize : MB unit :=
  stable <- builtUnless IsNotFound buildStable ;;
  inWorld (st_Finalize stable release) ;;
  canary <- builtUnless IsNotFound (buildCanary release) ;;
  inWorld (cnc_Delete canary release).

Definition emptyInfo : WorkloadInfo :=
  mkWI (mkMeta "" "" "" 0 0 None [] [] None ∅) 0 (mkWS 0 0 0 0 0 0 "" "").

(** The summary of the canary, as the executor's status shows it. *)
Definition syncInfo (canaryInfo : option WorkloadInfo) : WorkloadInfo :=
  match canaryInfo with
  | Some info => emptyInfo <| wi_Status := (wi_Status emptyInfo)
      <| ws_UpdatedReplicas := ws_Replicas (wi_Status info) |>
      <| ws_UpdatedReadyReplicas := ws_AvailableReplicas (wi_Status info) |> |>
  | None => emptyInfo
  end.

Definition syncInfos (stable : StableController W) (canary : CanaryController W)
    : MB (WorkloadEventType * option WorkloadInfo * option goerror) :=
  stableInfo <- lift (deref (st_GetStableInfo stable)) ;;
  newStatus <- getC ;;
  let info := syncInfo (cnc_GetCanaryInfo canary) in
  ret (if negb (IsStable stableInfo) then (WorkloadStillReconciling, Some info, None)
       else if IsPromoted stableInfo then (WorkloadNormalState, Some info, None)
       else if IsScaling stableInfo (ObservedWorkloadReplicas newStatus)
       then (WorkloadReplicasChanged, Some (info <| wi_Replicas := wi_Replicas stableInfo |>), None)
       else if IsRevisionNotEqual stableInfo (br_UpdateRevision newStatus)
       then (WorkloadPodTemplateChanged,
             Some (info <| wi_Status := (wi_Status info)
                     <| ws_UpdateRevision := ws_UpdateRevision (wi_Status stableInfo) |> |>), None)
       else (WorkloadUnknownState, Some info, None)).

Definition cnp_SyncWorkloadInformation
    : MB (WorkloadEventType * option WorkloadInfo * option goerror) :=
  if deleting (br_Meta release) then ret (WorkloadNormalState, None, None) else
  s <- inWorld buildStable ;;
  match snd s with
  | Some err => ret (buildFailed err, None, Some err)
  | None =>
      c <- inWorld (buildCanary release) ;;
      match snd c with
      | Some err => if IsNotFound err then syncInfos (fst s) (fst c)
                    else ret (WorkloadUnknownState, None, Some err)
      | None => syncInfos (fst s) (fst c)
      end
  end.

Definition canaryControlPlane : ControlInterface W :=
  mkControl cnp_Initialize cnp_UpgradeBatch cnp_EnsureBatchPodsReadyAndLabeled cnp_Finalize
    cnp_SyncWorkloadInformation.
End canary_plane.
