(* ===== verification/ControlPlaneProofs.v ===== *)
(** * The control planes: properties

    The three planes honour the contract of the control interface, the events they
    raise restart or stop a batch as they should, and the pods that need no update are
    marked and counted completely. *)

From S2P Require Export ControlPlane BatchExecutorProofs.

(** ** The contract *)

Section contract.
Context {W : Type} `{Api W Pod} `{LabelPatcher W} `{K8sLib}.

(** What a reporter leaves alone. *)
Record ReporterLaws (r : Reporter W) : Prop := {
  law_ZeroReplicaBatching : preserves machineFrame (RecordZeroReplicaBatching r);
  law_BatchAdvanced : preserves machineFrame (RecordBatchAdvanced r);
  law_ZeroReplicaBatchReady : preserves machineFrame (RecordZeroReplicaBatchReady r);
  law_BatchReady : preserves machineFrame (RecordBatchReady r);
  law_BatchWait : preserves machineFrame (ObserveBatchWait r);
  law_OperationFailed reason err : preserves machineFrame (RecordOperationFailed r reason err);
  law_Initialized : preserves machineFrame (RecordInitialized r);
  law_Finalized : preserves machineFrame (RecordFinalized r)
}.

Definition lawfulReporter (controller : PartitionController W) : Prop :=
  forall r, pt_GetReporter controller = Some r -> ReporterLaws r.
Definition lawfulBuild (build : M W (PartitionController W * option goerror)) : Prop :=
  forall w b w', build w = (Ok b, w') -> lawfulReporter (fst b).

Lemma preserves_withReporter controller f :
  lawfulReporter controller -> (forall r, ReporterLaws r -> preserves machineFrame (f r)) ->
  preserves machineFrame (withReporter controller f).
Proof.
  intros Hc Hf. unfold withReporter, lawfulReporter in *.
  destruct (pt_GetReporter controller) as [r|]; [by apply Hf, Hc|solve_preserves].
Qed.

Lemma preserves_reportFailed controller op err :
  lawfulReporter controller -> preserves machineFrame (reportOperationFailed controller op err).
Proof. intros Hc. apply preserves_withReporter; [done|]. intros r Hr. apply Hr. Qed.

Lemma preserves_reported {A} controller op (m : M (BatchReleaseStatus * W) A) :
  lawfulReporter controller -> preserves machineFrame m ->
  preserves machineFrame (reported controller op m).
Proof.
  intros Hc Hm. unfold reported. solve_preserves. by apply preserves_reportFailed.
Qed.

Lemma built_spec build op :
  lawfulBuild build ->
  preserves machineFrame (built build op)
  /\ forall s controller s', built build op s = (Ok controller, s') -> lawfulReporter controller.
Proof.
  intros Hb.
  assert (Hrun : forall (s : BatchReleaseStatus * W) b s', inWorld build s = (Ok b, s') -> lawfulReporter (fst b)).
  { intros [s w] b [s' w'] E. apply inWorld_inv in E as [E _]. by eapply Hb. }
  unfold built. split.
  - apply (preserves_bind_run _ (fun b => lawfulReporter (fst b))); [apply preserves_inWorld; tc_solve|exact Hrun|].
    intros [controller [err|]] Hc; simpl in *; solve_preserves. by apply preserves_reportFailed.
  - intros s controller s' E. apply bind_Ok_inv in E as ([c e] & s1 & E1 & E). apply Hrun in E1.
    simpl in *. destruct e; [by inv_run|]. by apply ret_Ok_inv in E as [-> _].
Qed.

Lemma preserves_built build op (k : PartitionController W -> M (BatchReleaseStatus * W) unit) :
  lawfulBuild build ->
  (forall controller, lawfulReporter controller -> preserves machineFrame (k controller)) ->
  preserves machineFrame (bind (built build op) k).
Proof.
  intros Hb Hk. destruct (built_spec build op Hb) as [Hp Hrun].
  by apply (preserves_bind_run _ lawfulReporter).
Qed.

Lemma preserves_mark release controller :
  preserves (W := W) machineFrame (markNoNeedUpdatePodsIfNeeds release controller).
Proof. unfold markNoNeedUpdatePodsIfNeeds. solve_preserves. Qed.

Lemma preserves_count release controller :
  preserves (W := W) machineFrame (countAndUpdateNoNeedUpdateReplicas release controller).
Proof. unfold countAndUpdateNoNeedUpdateReplicas. solve_preserves; apply preserves_modC; by intros s. Qed.

Lemma frame_recordWorkload stable update replicas s :
  machineFrame s (recordWorkload stable update replicas s).
Proof. done. Qed.
Lemma frame_setNoNeedUpdate n s : machineFrame s (setNoNeedUpdate n s).
Proof. done. Qed.
Hint Resolve frame_recordWorkload frame_setNoNeedUpdate preserves_mark preserves_count
  preserves_reportFailed preserves_reported preserves_withReporter : frames.

Ltac solve_reporter :=
  match goal with
  | Hc : lawfulReporter ?c |- preserves _ (withReporter ?c _) =>
      apply preserves_withReporter; [exact Hc|]; let r := fresh "r" in let Hr := fresh "Hr" in
      intros r Hr; apply Hr
  end.

Lemma partition_frames build release :
  lawfulBuild build -> ControlLaws (partitionControlPlane build release).
Proof.
  intros Hb. split; simpl.
  - apply preserves_built; [done|]. intros controller Hc. apply preserves_reported; [done|].
    solve_preserves; solve_reporter.
  - apply preserves_built; [done|]. intros controller Hc. solve_preserves; try solve_reporter.
    apply preserves_reported; [done|]. solve_preserves.
  - apply preserves_built; [done|]. intros controller Hc. solve_preserves; try solve_reporter.
    apply preserves_reported; [done|]. solve_preserves.
  - apply (preserves_bind_run _ (fun b => lawfulReporter (fst b))); [apply preserves_inWorld; tc_solve| |].
    + intros [s w] b [s' w'] E. apply inWorld_inv in E as [E _]. by eapply Hb.
    + intros [controller e] Hc. simpl in *. solve_preserves; solve_reporter.
  - unfold partition_SyncWorkloadInformation. solve_preserves.
Qed.
End contract.

Section other_planes.
Context {W : Type} `{LabelPatcher W} `{K8sLib}.

Lemma bluegreen_frames (build : M W (BlueGreenController W * option goerror)) release :
  ControlLaws (blueGreenControlPlane build release).
Proof.
  split; simpl; unfold bg_Initialize, bg_UpgradeBatch, bg_EnsureBatchPodsReadyAndLabeled, bg_Finalize,
    bg_SyncWorkloadInformation, bg_built, patchPodLabels; solve_preserves.
  all: by apply preserves_modC.
Qed.

Lemma canary_frames (buildStable : M W (StableController W * option goerror))
    (buildCanary : BatchRelease -> M W (CanaryController W * option goerror)) calculate release :
  ControlLaws (canaryControlPlane buildStable buildCanary calculate release).
Proof.
  split; simpl; unfold cnp_Initialize, cnp_UpgradeBatch, cnp_EnsureBatchPodsReadyAndLabeled, cnp_Finalize,
    cnp_SyncWorkloadInformation, canaryBatch, builtUnless, syncInfos; solve_preserves.
  all: by apply preserves_modC.
Qed.
End other_planes.

(** ** Events *)

Section events.
Context {W : Type} `{PlanHash}.
Variables (release : BatchRelease).
Abbreviation st := (br_Status release).
Hypothesis Hphase : br_Phase st = RolloutPhaseProgressing.
Hypothesis Hforce : planInForce release.

(** While the plan is in force only the workload can raise a special case. *)
Lemma specialCases_in_force event info :
  specialCases (W := W) release event info None =
    if bool_decide (event = WorkloadHasGone) then modC signalFinalizing ;; ret false
    else if bool_decide (event = WorkloadReplicasChanged) then
      modC signalRestartBatch ;;
      workloadInfo <- lift (deref info) ;;
      modC (fun s => s <| ObservedWorkloadReplicas := wi_Replicas workloadInfo |>) ;; ret false
    else if bool_decide (event = WorkloadPodTemplateChanged) then
      workloadInfo <- lift (deref info) ;;
      modC (fun s => s <| br_UpdateRevision := ws_UpdateRevision (wi_Status workloadInfo) |>) ;; ret true
    else if bool_decide (event = WorkloadStillReconciling) then ret true
    else if (bool_decide (event = WorkloadRollbackInBatch) || hasRollbackAnnotation release)
            && bool_decide (NoNeedUpdateReplicas (br_CanaryStatus st) = None) then
      workloadInfo <- lift (deref info) ;;
      if isRollbackInBatchSatisfied workloadInfo release then
        modC signalRePrepareRollback ;;
        modC (fun s => s <| br_UpdateRevision := ws_UpdateRevision (wi_Status workloadInfo) |>) ;; ret false
      else ret true
    else ret false.
Proof using Hphase Hforce.
  destruct Hforce as (Hd & Hpart & Hh & Hlen).
  assert (isPlanCompleted release = false) as E1
    by (unfold isPlanCompleted; rewrite Hphase; by apply bool_decide_eq_false_2).
  assert (isPlanFinalizing release = false) as E2.
  { unfold isPlanFinalizing. rewrite Hd, Hphase, !bool_decide_eq_false_2; done. }
  assert (isPlanChanged release = false) as E3.
  { unfold isPlanChanged. by rewrite Hh, String.eqb_refl. }
  assert (isPlanUnhealthy release = false) as E4.
  { unfold isPlanUnhealthy. rewrite bool_decide_eq_false_2; [done|lia]. }
  assert (isProgressing release = true) as E5 by (unfold isProgressing; by rewrite Hphase).
  unfold specialCases, isWorkloadGone, isWorkloadScaling, isWorkloadRevisionChanged, isWorkloadUnstable,
    isWorkloadRollbackInBatch.
  rewrite E1, E2, E3, E4, E5, Hphase, !andb_true_r. done.
Qed.

(** The end of the synchronisation: stop when the status changed. *)
Lemma sync_run ctl event info (s1 : BatchReleaseStatus) need (w w1 w2 : W) :
  cp_SyncWorkloadInformation ctl (st, w) = (Ok (event, info, None), (st, w1)) ->
  specialCases release event info None (st, w1) = (Ok need, (s1, w2)) ->
  let s' := refreshStatus release info s1 in
  syncStatusBeforeExecuting release ctl (st, w)
  = (Ok (if decide (s' = st) then (need, None, None) else (true, Some DefaultDuration, None)), (s', w2)).
Proof.
  intros Hs Hc s'. unfold syncStatusBeforeExecuting, bind. rewrite Hs, Hc. simpl. fold s'.
  destruct (decide (s' = st)) as [E|E].
  - rewrite (bool_decide_eq_true_2 (st = s')) by done. done.
  - rewrite (bool_decide_eq_false_2 (st = s')) by congruence. done.
Qed.

Lemma refresh_info info (s1 : BatchReleaseStatus) :
  let s' := refreshStatus release (Some info) s1 in
  br_UpdatedReplicas (br_CanaryStatus s') = ws_UpdatedReplicas (wi_Status info)
  /\ br_UpdatedReadyReplicas (br_CanaryStatus s') = ws_UpdatedReadyReplicas (wi_Status info)
  /\ position s' = position s1 /\ br_UpdateRevision s' = br_UpdateRevision s1
  /\ ObservedWorkloadReplicas s' = ObservedWorkloadReplicas s1
  /\ BatchReadyTime (br_CanaryStatus s') = BatchReadyTime (br_CanaryStatus s1).
Proof. unfold refreshStatus, position. simpl. by destruct (String.eqb _ ""). Qed.

(** What the events of a workload do, before the refresh. *)
Lemma eventOutcome info (w : W) :
  let changed := ObservedWorkloadReplicas st <> -1 /\ wi_Replicas info <> ObservedWorkloadReplicas st in
  exists need s1,
    specialCases release (classifyWorkload st info) (Some info) None (st, w) = (Ok need, (s1, w))
    /\ (IsStable info = false -> need = true /\ s1 = st)
    /\ (IsStable info = true -> IsPromoted info = false -> changed ->
        BatchReadyTime (br_CanaryStatus s1) = None
        /\ position s1 = (RolloutPhaseProgressing, UpgradingBatchState, CurrentBatch (br_CanaryStatus st))
        /\ ObservedWorkloadReplicas s1 = wi_Replicas info)
    /\ (IsStable info = true -> IsPromoted info = false -> ~ changed ->
        IsRollback info (br_StableRevision st) (br_UpdateRevision st) = false ->
        IsRevisionNotEqual info (br_UpdateRevision st) = true ->
        need = true /\ position s1 = position st
        /\ br_UpdateRevision s1 = ws_UpdateRevision (wi_Status info))
    /\ (IsStable info = true -> hasRollbackAnnotation release = false ->
        IsPromoted info = true
        \/ ~ changed /\ IsRollback info (br_StableRevision st) (br_UpdateRevision st) = false
           /\ IsRevisionNotEqual info (br_UpdateRevision st) = false ->
        need = false /\ s1 = st).
Proof using Hphase Hforce.
  intros changed. rewrite specialCases_in_force.
  assert (Hch : IsScaling info (ObservedWorkloadReplicas st) = true <-> changed).
  { unfold IsScaling, changed. case_decide; [naive_solver|]. rewrite bool_decide_eq_true. naive_solver. }
  assert (Hroll : forall ask, exists need s1,
      (if ask && bool_decide (NoNeedUpdateReplicas (br_CanaryStatus st) = None) then
         workloadInfo <- lift (deref (Some info)) ;;
         if isRollbackInBatchSatisfied workloadInfo release then
           modC signalRePrepareRollback ;;
           modC (fun s => s <| br_UpdateRevision := ws_UpdateRevision (wi_Status workloadInfo) |>) ;; ret false
         else ret true
       else ret false) (st, w) = (Ok need, (s1, w))
      /\ (ask = false -> need = false /\ s1 = st)).
  { intros ask. destruct (ask && _) eqn:E.
    - unfold bind at 1, lift, deref. destruct (isRollbackInBatchSatisfied info release).
      + eexists _, _. split; [reflexivity|]. by intros ->.
      + eexists _, _. split; [reflexivity|]. by intros ->.
    - eexists _, _. split; [reflexivity|done]. }
  unfold classifyWorkload. clearbody changed.
  destruct (IsStable info); simpl; [|eexists _, _; split; [reflexivity|]; naive_solver].
  destruct (IsPromoted info); simpl.
  { destruct (Hroll (hasRollbackAnnotation release)) as (need & s1 & Hrun & Hn).
    exists need, s1. split; [exact Hrun|]. naive_solver. }
  destruct (IsScaling info (ObservedWorkloadReplicas st)); simpl.
  { eexists _, _. split; [reflexivity|]. unfold position. simpl. rewrite Hphase. naive_solver. }
  destruct (IsRollback info (br_StableRevision st) (br_UpdateRevision st)); simpl.
  { destruct (Hroll true) as (need & s1 & Hrun & Hn). exists need, s1. split; [exact Hrun|]. naive_solver. }
  destruct (IsRevisionNotEqual info (br_UpdateRevision st)); simpl.
  { eexists _, _. split; [reflexivity|]. unfold position. simpl. naive_solver. }
  destruct (Hroll (hasRollbackAnnotation release)) as (need & s1 & Hrun & Hn).
  exists need, s1. split; [exact Hrun|]. naive_solver.
Qed.
End events.

(** ** Properties *)

Section plane_properties.
Context {W : Type} `{Api W Pod} `{LabelPatcher W} `{K8sLib} `{PlanHash}.

(** Changes of the workload during a release.  While a plan is in force, synchronising
    with a partition-style workload copies its updated replicas into the status and has
    no error.  An unstable workload stops the round where it stands.  A stable one that
    is not fully updated and was scaled restarts the current batch, not another one, with
    the new size recorded.  One with a revision that is neither the observed one nor a
    roll back stops the round and records the revision.  One that is fully updated, or
    has neither change, leaves the release where it stands unless a roll back is
    asked for, and the round goes on exactly when the status needs no writing. *)
Theorem partition_sync_events (build : M W (PartitionController W * option goerror))
    (release : BatchRelease) controller info (w w1 : W)
    (Hphase : br_Phase (br_Status release) = RolloutPhaseProgressing)
    (Hforce : planInForce release)
    (Hbuild : build w = (Ok (controller, None), w1))
    (Hinfo : pt_GetWorkloadInfo controller = Some info) :
  let st := br_Status release in
  let changed := ObservedWorkloadReplicas st <> -1 /\ wi_Replicas info <> ObservedWorkloadReplicas st in
  exists stop requeue s',
    syncStatusBeforeExecuting release (partitionControlPlane build release) (st, w)
      = (Ok (stop, requeue, None), (s', w1))
    /\ br_UpdatedReplicas (br_CanaryStatus s') = ws_UpdatedReplicas (wi_Status info)
    /\ br_UpdatedReadyReplicas (br_CanaryStatus s') = ws_UpdatedReadyReplicas (wi_Status info)
    /\ (s' <> st -> stop = true)
    /\ (IsStable info = false -> stop = true /\ position s' = position st)
    /\ (IsStable info = true -> IsPromoted info = false -> changed ->
        stop = true /\ BatchReadyTime (br_CanaryStatus s') = None
        /\ position s' = (RolloutPhaseProgressing, UpgradingBatchState, CurrentBatch (br_CanaryStatus st))
        /\ ObservedWorkloadReplicas s' = wi_Replicas info)
    /\ (IsStable info = true -> IsPromoted info = false -> ~ changed ->
        IsRollback info (br_StableRevision st) (br_UpdateRevision st) = false ->
        IsRevisionNotEqual info (br_UpdateRevision st) = true ->
        stop = true /\ position s' = position st
        /\ br_UpdateRevision s' = ws_UpdateRevision (wi_Status info))
    /\ (IsStable info = true -> hasRollbackAnnotation release = false ->
        IsPromoted info = true
        \/ ~ changed /\ IsRollback info (br_StableRevision st) (br_UpdateRevision st) = false
           /\ IsRevisionNotEqual info (br_UpdateRevision st) = false ->
        position s' = position st /\ (stop = true <-> s' <> st)).
Proof.
  intros st changed.
  assert (Hs : cp_SyncWorkloadInformation (partitionControlPlane build release) (st, w)
      = (Ok (classifyWorkload st info, Some info, None), (st, w1))).
  { simpl. unfold partition_SyncWorkloadInformation. destruct Hforce as [-> _].
    unfold bind at 1, inWorld. simpl. rewrite Hbuild. simpl. by rewrite Hinfo. }
  destruct (eventOutcome release Hphase Hforce info w1) as (need & s1 & Hc & Hun & Hsc & Hrev & Hno).
  pose proof (sync_run release _ _ _ _ _ _ _ _ Hs Hc) as Hrun. cbv zeta in Hrun.
  destruct (refresh_info release info s1) as (K1 & K2 & K3 & K4 & K5 & K6).
  set (s' := refreshStatus release (Some info) s1) in *.
  assert (Hfin : exists stop requeue, (if decide (s' = st) then (need, None, None)
      else (true, Some DefaultDuration, None)) = (stop, requeue, @None goerror)
      /\ (need = true -> stop = true) /\ (s' <> st -> stop = true) /\ (need = false -> stop = true -> s' <> st)).
  { destruct (decide (s' = st)) as [E|E];
      [exists need, None|exists true, (Some DefaultDuration)]; (split; [reflexivity|]);
      split_and!; intros; congruence. }
  destruct Hfin as (stop & requeue & Hif & Hneed & Hne & Hgo).
  fold st in Hrun. rewrite Hif in Hrun.
  exists stop, requeue, s'. split; [exact Hrun|]. split; [done|]. split; [done|]. split; [done|].
  rewrite K3, K4, K5, K6. split; [|split; [|split]].
  - intros E. destruct (Hun E) as [E1 ->]. auto.
  - intros E Ep Hchg. destruct (Hsc E Ep Hchg) as (Q1 & Q2 & Q3). split_and!; try done.
    apply Hne. intros Heq. destruct Hchg as [_ Hchg]. apply Hchg. rewrite <- Q3, <- K5. by rewrite Heq.
  - intros E Ep Hchg Hr Hv. destruct (Hrev E Ep Hchg Hr Hv) as (Q1 & Q2 & Q3). auto.
  - intros E Ha Hcase. destruct (Hno E Ha Hcase) as [Q1 ->]. split; [done|]. naive_solver.
Qed.
End plane_properties.
