(* ===== verification/LabelPatch.v ===== *)
(** * Pod batch labels (pkg/controller/batchrelease/labelpatch)

    Which pods get the labels of which batch: the filters for rollbacks in batches
    (filter.go) and the patcher (patcher.go), with the plan of patches it amounts to. *)

From Stdlib Require Import Sorting.Sorted.
From S2P Require Export ControlPlane.

Definition RolloutBatchIDLabel : string := "rollouts.kruise.io/rollout-batch-id".

(** ** Filters (filter.go) *)

Section filters.
Context `{K8sLib} `{Strconv} `{SortLib}.

Record PodClasses := mkClasses {
  terminatingPods : list Pod;
  lowPriorityPods : list Pod;
  highPriorityPods : list Pod
}.
#[export] Instance eta_PodClasses : Eta PodClasses := fun x =>
  mkClasses (terminatingPods x) (lowPriorityPods x) (highPriorityPods x).

(** The loop of both filters: a living pod of the update revision is of low priority when
    [low] says so. *)
Fixpoint classifyPods (low : Pod -> bool) (revision : string) (pods : list Pod) (c : PodClasses)
    : PodClasses :=
  match pods with
  | [] => c
  | pod :: rest =>
      classifyPods low revision rest
        (if deleting (pod_Meta pod)
         then c <| terminatingPods := (terminatingPods c ++ [pod])%list |>
         else if negb (IsConsistentWithRevision (Labels (pod_Meta pod)) revision) then c
         else if low pod then c <| lowPriorityPods := (lowPriorityPods c ++ [pod])%list |>
         else c <| highPriorityPods := (highPriorityPods c ++ [pod])%list |>)
  end.

(** The end of both filters. *)
Definition selectPods (pods : list Pod) (c : PodClasses) (planned needUpdate : Z) : list Pod :=
  if decide (needUpdate <= 0) then pods else
  let diff := wrap32 (planned - needUpdate) in
  if decide (diff <= 0) then (highPriorityPods c ++ terminatingPods c)%list else
  let lastIndex := Z.min diff (wrap32 (len (lowPriorityPods c))) in
  (highPriorityPods c ++ take (Z.to_nat lastIndex) (lowPriorityPods c) ++ terminatingPods c)%list.

(** The pods that were marked before the rollback and have no label of it yet. *)
Definition noNeedUpdate (rolloutID : string) (pod : Pod) : bool :=
  let labels := Labels (pod_Meta pod) in
  String.eqb (mapget labels NoNeedUpdatePodLabel) rolloutID
  && negb (String.eqb (mapget labels RolloutIDLabel) rolloutID).

Definition filterPodsForUnorderedUpdate (pods : list Pod) (bc : BatchContext) : list Pod :=
  let c := classifyPods (noNeedUpdate (bc_RolloutID bc)) (bc_UpdateRevision bc) pods
             (mkClasses [] [] []) in
  selectPods pods c (bc_PlannedUpdatedReplicas bc)
    (wrap32 (bc_DesiredUpdatedReplicas bc - wrap32 (len (lowPriorityPods c)))).

(** [pod.Name[strings.LastIndex(pod.Name, "-"):]] panics without a dash. *)
Definition fromDash (s : string) : string :=
  let i := Z.to_nat (lastDash s) in String.substring i (String.length s - i) s.
Definition ordinalKey (pod : Pod) : Z := default 0 (Atoi (fromDash (Name (pod_Meta pod)))).
Definition getPodOrdinal (pod : Pod) : Z := default 0 (Atoi (afterDash (Name (pod_Meta pod)))).

(** Every sort of two or more elements compares each of them. *)
Definition sortPodsByOrdinal (pods : list Pod) : res (list Pod) :=
  if bool_decide (len pods >= 2)
     && existsb (fun pod => bool_decide (lastDash (Name (pod_Meta pod)) < 0)) pods
  then Panic
  else Ok (sortSlice (fun a b => bool_decide (ordinalKey a < ordinalKey b)) pods).

(** The slice is sorted in place, so [pods] is the sorted list from there on. *)
Definition filterPodsForOrderedUpdate (pods : list Pod) (bc : BatchContext) : res (list Pod) :=
  res_bind (sortPodsByOrdinal pods) (fun pods =>
    let partition := fst (GetScaledValueFromIntOrPercent (Some (bc_DesiredPartition bc))
                            (bc_Replicas bc) true) in
    let c := classifyPods (fun pod => bool_decide (getPodOrdinal pod < partition))
               (bc_UpdateRevision bc) pods (mkClasses [] [] []) in
    Ok (selectPods pods c (bc_PlannedUpdatedReplicas bc)
          (wrap32 (bc_Replicas bc - wrap32 partition)))).

Definition applyFilter (f : FilterFuncType) (pods : list Pod) (bc : BatchContext) : res (list Pod) :=
  match f with
  | FilterPodsForUnorderedUpdate => Ok (filterPodsForUnorderedUpdate pods bc)
  | FilterPodsForOrderedUpdate => filterPodsForOrderedUpdate pods bc
  end.
End filters.

(** ** The patcher (patcher.go) *)

(** The order in which a [range] over a map visits its entries, which Go leaves open. *)
Class MapRange := rangeOrder : forall {A : Type}, list A -> list A.
Class MapRangeLaws `{MapRange} :=
  rangeOrder_perm : forall (A : Type) (l : list A), rangeOrder l ≡ₚ l.

(** [calculateBatchReplicas]: the batch size of control/util.go, from the batches alone. *)
Definition calculateBatchReplicas `{K8sLib} (batches : list ReleaseBatch)
    (workloadReplicas currentBatch : Z) : res Z :=
  res_map (fun batch =>
    let batchSize := fst (GetScaledValueFromIntOrPercent (Some (batch_CanaryReplicas batch))
                            workloadReplicas true) in
    if decide (batchSize > workloadReplicas) then workloadReplicas
    else if decide (batchSize < 0) then 0 else batchSize)
  (go_index batches currentBatch).

(** The sizes of the first [n] batches; a batch that the plan has not panics. *)
Fixpoint batchSizes `{K8sLib} (batches : list ReleaseBatch) (workloadReplicas : Z) (n : nat)
    : res (list Z) :=
  match n with
  | O => Ok []
  | S n =>
      res_bind (batchSizes batches workloadReplicas n) (fun sizes =>
      res_bind (calculateBatchReplicas batches workloadReplicas (Z.of_nat n)) (fun size =>
      Ok (sizes ++ [size])%list))
  end.

(** [res[i] -= res[i-1]], from the last one to the second. *)
Fixpoint increments (previous : Z) (sizes : list Z) : list Z :=
  match sizes with
  | [] => []
  | size :: rest => (size - previous) :: increments size rest
  end.

(** The pods each batch adds; batches beyond the current one add none. *)
Definition calculatePlannedStepIncrements `{K8sLib} (batches : list ReleaseBatch)
    (workloadReplicas currentBatch : Z) : res (list Z) :=
  res_bind (batchSizes batches workloadReplicas (Z.to_nat (currentBatch + 1))) (fun sizes =>
  Ok (increments 0 sizes ++ replicate (length batches - length sizes) 0)%list).

(** A pod to be patched, with the hash that was computed for it, if any. *)
Definition PodToPatch : Type := Pod * option string.

(** The state of the loop over the pods: the plan of each batch less the pods found in it,
    the updated pods without a batch, the other pods with a computed hash, and the hashes
    known by the UID of the ReplicaSet. *)
Record Survey := mkSurvey {
  sv_planned : list Z;
  sv_unpatched : list PodToPatch;
  sv_others : list (Pod * string);
  sv_cache : gmap string string
}.
#[export] Instance eta_Survey : Eta Survey := fun x =>
  mkSurvey (sv_planned x) (sv_unpatched x) (sv_others x) (sv_cache x).

Section patcher.
Context {W : Type} `{Api W Pod} `{Api W ReplicaSet} `{Api W Deployment} `{K8sLib} `{Strconv}
  `{SortLib} `{MapRange} `{MetaLib} `{TemplateHash}.

(** The template hash of a pod without revision label, through its ReplicaSet.  A
    template label the Deployment does not carry itself is left out. *)
Definition replicaSetHash (pod : Pod) (owner : OwnerReference) : M W string :=
  let ns := Namespace (pod_Meta pod) in
  rs <- api_Get (O := ReplicaSet) (ns, or_Name owner) ;;
  match GetControllerOf (rs_Meta rs) with
  | Some rsOwner =>
      if negb (String.eqb (or_Kind rsOwner) "Deployment")
      then fail (ErrOther "ReplicaSet has no deployment owner") else
      deploy <- api_Get (O := Deployment) (ns, or_Name rsOwner) ;;
      let template := rs_Template rs in
      let carried := mapget (default ∅ (tmpl_Labels (dep_Template deploy)))
                       DefaultDeploymentUniqueLabelKey in
      ret (ComputeHash
             (if String.eqb carried ""
              then template <| tmpl_Labels :=
                     option_map (delete DefaultDeploymentUniqueLabelKey) (tmpl_Labels template) |>
              else template) None)
  | None => fail (ErrOther "ReplicaSet has no deployment owner")
  end.

(** The hash computed for a pod, if it needs one, and the cache with it. *)
Definition podHash (pod : Pod) (cache : gmap string string)
    : M W (option string * gmap string string) :=
  if nonempty (mapget (Labels (pod_Meta pod)) ControllerRevisionHashLabelKey)
  then ret (None, cache) else
  match GetControllerOf (pod_Meta pod) with
  | Some owner =>
      if negb (String.eqb (or_Kind owner) "ReplicaSet") then ret (None, cache) else
      match cache !! or_UID owner with
      | Some hash => ret (Some hash, cache)
      | None =>
          hash <- replicaSetHash pod owner ;;
          ret (Some hash, <[or_UID owner := hash]> cache)
      end
  | None => ret (None, cache)
  end.

(** Where a pod with these labels belongs: nowhere, to a batch of the plan (from 1), or
    among those to be patched. *)
Inductive PodPlace := NotConcerned | InBatch (i : Z) | ToPatch.
#[export] Instance PodPlace_eq_dec : EqDecision PodPlace.
Proof. solve_decision. Defined.

Definition placeOf (labels : gmap string string) (batches : Z) (bc : BatchContext) : PodPlace :=
  if negb (IsConsistentWithRevision labels (bc_UpdateRevision bc)) then NotConcerned
  else if negb (String.eqb (mapget labels RolloutIDLabel) (bc_RolloutID bc)) then ToPatch
  else match Atoi (mapget labels RolloutBatchIDLabel) with
       | Some i => if bool_decide (i > 0) && bool_decide (i <= batches) then InBatch i else ToPatch
       | None => ToPatch
       end.

Definition surveyPod (bc : BatchContext) (pod : Pod) (sv : Survey) : M W Survey :=
  if deleting (pod_Meta pod) then ret sv else
  h <- podHash pod (sv_cache sv) ;;
  let '(hash, cache) := h in
  let labels := match hash with
                | Some hash => <[ControllerRevisionHashLabelKey := hash]> (Labels (pod_Meta pod))
                | None => Labels (pod_Meta pod)
                end in
  let sv := sv <| sv_cache := cache |> in
  let other := match hash with
               | Some hash => sv <| sv_others := (sv_others sv ++ [(pod, hash)])%list |>
               | None => sv
               end in
  ret match placeOf labels (len (sv_planned sv)) bc with
      | NotConcerned => other
      | InBatch i => other <| sv_planned := alter (fun n => n - 1) (Z.to_nat (i - 1)) (sv_planned sv) |>
      | ToPatch => sv <| sv_unpatched := (sv_unpatched sv ++ [(pod, hash)])%list |>
      end.

Fixpoint surveyPods (bc : BatchContext) (pods : list Pod) (sv : Survey) : M W Survey :=
  match pods with
  | [] => ret sv
  | pod :: rest => sv <- surveyPod bc pod sv ;; surveyPods bc rest sv
  end.

Definition labelPatch (bc : BatchContext) (batchID : Z) (hash : option string) : RawPatch :=
  PatchFields (labelField RolloutIDLabel (VString (bc_RolloutID bc))
    :: labelField RolloutBatchIDLabel (VString (itoa batchID))
    :: match hash with
       | Some hash => [labelField ControllerRevisionHashLabelKey (VString hash)]
       | None => []
       end).

(** The inner loop for one batch, which takes pods from the end: what is left of the pods,
    and whether they ran out. *)
Fixpoint patchBatch (bc : BatchContext) (batchID : Z) (count : nat) (lastFirst : list PodToPatch)
    : M W (list PodToPatch * bool) :=
  match count with
  | O => ret (lastFirst, false)
  | S count =>
      match lastFirst with
      | [] => ret ([], true)
      | (pod, hash) :: rest =>
          api_Patch (O := Pod) (pod_Meta pod) (labelPatch bc batchID hash) ;;
          patchBatch bc batchID count rest
      end
  end.

(** The outer loop, from the last batch [len planned] to the first one. *)
Fixpoint patchBatches (bc : BatchContext) (plannedLastFirst : list Z) (lastFirst : list PodToPatch)
    : M W (list PodToPatch) :=
  match plannedLastFirst with
  | [] => ret lastFirst
  | planned :: before =>
      r <- patchBatch bc (len plannedLastFirst) (Z.to_nat planned) lastFirst ;;
      if snd r : bool then ret (fst r) else patchBatches bc before (fst r)
  end.

(** The last loop, over the hashes not patched yet. *)
Fixpoint patchHashes (l : list (Pod * string)) : M W unit :=
  match l with
  | [] => ret tt
  | (pod, hash) :: rest =>
      api_Patch (O := Pod) (pod_Meta pod)
        (PatchFields [labelField ControllerRevisionHashLabelKey (VString hash)]) ;;
      patchHashes rest
  end.

Definition withHash (l : list PodToPatch) : list (Pod * string) :=
  omap (fun p => option_map (pair (fst p)) (snd p)) l.

Definition patchPodBatchLabel (batches : list ReleaseBatch) (pods : list Pod) (bc : BatchContext)
    : M W unit :=
  planned <- lift (calculatePlannedStepIncrements batches (bc_Replicas bc) (bc_CurrentBatch bc)) ;;
  sv <- surveyPods bc pods (mkSurvey planned [] [] ∅) ;;
  left <- patchBatches bc (rev (sv_planned sv)) (rev (sv_unpatched sv)) ;;
  patchHashes (rangeOrder (sv_others sv ++ withHash left)%list).

Definition realPatcher_PatchPodBatchLabel (batches : list ReleaseBatch) (bc : BatchContext) : M W unit :=
  if String.eqb (bc_RolloutID bc) "" || bool_decide (len (bc_Pods bc) = 0) then ret tt else
  pods <- lift (match bc_FilterFunc bc with
                | Some f => applyFilter f (bc_Pods bc) bc
                | None => Ok (bc_Pods bc)
                end) ;;
  patchPodBatchLabel batches pods bc.

#[export] Instance realPatcher : LabelPatcher W := realPatcher_PatchPodBatchLabel.
End patcher.

(** ** The plan of patches *)

(** Which pods get which batch: from the last batch, the last pods first. *)
Fixpoint assign (plannedLastFirst : list Z) (lastFirst : list PodToPatch) : list (PodToPatch * Z) :=
  match plannedLastFirst with
  | [] => []
  | planned :: before =>
      (map (fun pod => (pod, len plannedLastFirst)) (take (Z.to_nat planned) lastFirst)
       ++ assign before (drop (Z.to_nat planned) lastFirst))%list
  end.

(** The pods a plan adds over all batches. *)
Definition planTotal (planned : list Z) : nat := sum_list_with Z.to_nat planned.
Definition sumZ (l : list Z) : Z := foldr Z.add 0 l.

Lemma assign_take planned pods : map fst (assign planned pods) = take (planTotal planned) pods.
Proof.
  revert pods. induction planned as [|p before IH]; intros pods; [done|].
  simpl. unfold planTotal in *. simpl. rewrite map_app, map_map, IH. simpl. rewrite map_id.
  by rewrite take_take_drop.
Qed.

Lemma assign_nil planned : assign planned [] = [].
Proof.
  induction planned as [|p before IH]; [done|]. simpl. by rewrite take_nil, drop_nil, IH.
Qed.

Lemma filter_tagged (k j : Z) (pods : list PodToPatch) :
  filter (fun a => snd a = k) (map (fun pod => (pod, j)) pods)
  = if decide (j = k) then map (fun pod => (pod, j)) pods else [].
Proof.
  induction pods as [|x l IH]; simpl; [by case_decide|]. rewrite filter_cons, IH. simpl.
  by repeat case_decide.
Qed.

(** No batch gets more than it lacks. *)
Lemma assign_count planned pods b :
  len (filter (fun a => snd a = Z.of_nat (S b)) (assign (rev planned) pods))
  <= Z.max 0 (default 0 (planned !! b)).
Proof.
  revert pods. induction planned as [|p planned IH] using rev_ind; intros pods; [done|].
  rewrite rev_app_distr. simpl. rewrite filter_app.
  assert (Hlen : len (p :: rev planned) = Z.of_nat (S (length planned))).
  { unfold len. simpl. by rewrite length_rev. }
  unfold len in *. rewrite length_app. rewrite Hlen.
  specialize (IH (drop (Z.to_nat p) pods)).
  destruct (decide (b = length planned)) as [->|Nb].
  - rewrite list_lookup_middle by done. simpl.
    rewrite (lookup_ge_None_2 planned (length planned)) in IH by lia. simpl in IH.
    rewrite filter_tagged, decide_True, length_map, length_take by done. lia.
  - rewrite filter_tagged, decide_False by lia. simpl.
    destruct (decide (b < length planned)%nat).
    + rewrite lookup_app_l by lia. lia.
    + rewrite lookup_ge_None_2 in IH |- * by (rewrite ?length_app; simpl; lia). simpl in *. lia.
Qed.

(** A batch that the pods do not reach leaves no pods; with enough of them each gets
    what it lacks. *)
Lemma assign_full planned pods b :
  (planTotal planned <= length pods)%nat ->
  len (filter (fun a => snd a = Z.of_nat (S b)) (assign (rev planned) pods))
  = Z.max 0 (default 0 (planned !! b)).
Proof.
  revert pods. induction planned as [|p planned IH] using rev_ind; intros pods Hpods; [done|].
  unfold planTotal in Hpods. rewrite sum_list_with_app in Hpods. simpl in Hpods.
  rewrite rev_app_distr. simpl. rewrite filter_app.
  assert (Hlen : len (p :: rev planned) = Z.of_nat (S (length planned))).
  { unfold len. simpl. by rewrite length_rev. }
  specialize (IH (drop (Z.to_nat p) pods) ltac:(unfold planTotal; rewrite length_drop; lia)).
  unfold len in *. rewrite length_app, Hlen.
  destruct (decide (b = length planned)) as [->|Nb].
  - rewrite list_lookup_middle by done. simpl.
    rewrite (lookup_ge_None_2 planned (length planned)) in IH by lia. simpl in IH.
    rewrite filter_tagged, decide_True, length_map, length_take by done. lia.
  - rewrite filter_tagged, decide_False by lia. simpl. destruct (decide (b < length planned)%nat).
    + rewrite lookup_app_l by lia. lia.
    + rewrite lookup_ge_None_2 in IH |- * by (rewrite ?length_app; simpl; lia). simpl in *. lia.
Qed.

(** Batches are numbered from 1 and served from the last one. *)
Lemma assign_descending planned pods :
  Sorted.StronglySorted Z.ge (map snd (assign planned pods))
  /\ Forall (fun a => 1 <= snd a <= len planned) (assign planned pods).
Proof.
  revert pods. induction planned as [|p before IH]; intros pods; simpl; [by repeat constructor|].
  destruct (IH (drop (Z.to_nat p) pods)) as [Hs Hr].
  assert (Hlen : len (p :: before) = len before + 1) by (unfold len; simpl; lia).
  rewrite Hlen. pose proof (len_nonneg before). split.
  - rewrite map_app, map_map. simpl. induction (take (Z.to_nat p) pods) as [|x l IHl]; [done|].
    simpl. constructor; [done|]. apply Forall_app. split.
    + apply Forall_forall. intros z Hz. apply list_elem_of_In, in_map_iff in Hz as (y & <- & _). lia.
    + apply Forall_map. eapply Forall_impl; [exact Hr|]. intros a Ha. simpl in *. lia.
  - apply Forall_app. split; [|eapply Forall_impl; [exact Hr|]; intros a Ha; simpl in *; lia].
    apply Forall_map, Forall_true. intros x. simpl. lia.
Qed.

Lemma planTotal_sum planned : sumZ planned <= Z.of_nat (planTotal planned).
Proof. unfold planTotal. induction planned as [|p l IH]; simpl in *; lia. Qed.

Lemma planTotal_nonneg planned : Forall (Z.le 0) planned -> Z.of_nat (planTotal planned) = sumZ planned.
Proof. unfold planTotal. induction 1; simpl in *; lia. Qed.

Lemma planTotal_rev planned : planTotal (rev planned) = planTotal planned.
Proof. unfold planTotal. by rewrite <- Permutation_rev. Qed.

Section plan.
Context {W : Type} `{Api W Pod} `{Api W ReplicaSet} `{Api W Deployment} `{K8sLib} `{Strconv}
  `{SortLib} `{MapRange} `{MetaLib} `{TemplateHash}.

(** Send patches one after the other, up to the first error. *)
Fixpoint patchAll (l : list (Pod * RawPatch)) : M W unit :=
  match l with
  | [] => ret tt
  | (pod, patch) :: rest => api_Patch (O := Pod) (pod_Meta pod) patch ;; patchAll rest
  end.

Lemma bind_ret_l {A B} (a : A) (k : A -> M W B) w : bind (ret a) k w = k a w.
Proof. done. Qed.

Lemma bind_assoc_run {A B D} (m : M W A) (k : A -> M W B) (k' : B -> M W D) w :
  bind (bind m k) k' w = bind m (fun a => bind (k a) k') w.
Proof. unfold bind. by destruct (m w) as [[a|e|] w']. Qed.

Lemma bind_ext_run {A B} (m : M W A) (k k' : A -> M W B) w :
  (forall a w', k a w' = k' a w') -> bind m k w = bind m k' w.
Proof. intros Hk. unfold bind. destruct (m w) as [[a|e|] w']; [apply Hk|done..]. Qed.

Lemma patchAll_app l l' w : patchAll (l ++ l') w = bind (patchAll l) (fun _ => patchAll l') w.
Proof.
  revert w. induction l as [|[pod patch] l IH]; intros w; simpl; [done|].
  rewrite bind_assoc_run. apply bind_ext_run. intros _ w'. apply IH.
Qed.

(** The patches of an assignment, and those of the last loop. *)
Definition labelPatches (bc : BatchContext) (l : list (PodToPatch * Z)) : list (Pod * RawPatch) :=
  map (fun a => (fst (fst a), labelPatch bc (snd a) (snd (fst a)))) l.
Definition hashPatches (l : list (Pod * string)) : list (Pod * RawPatch) :=
  map (fun p => (fst p, PatchFields [labelField ControllerRevisionHashLabelKey (VString (snd p))])) l.

Lemma patchHashes_all l w : patchHashes l w = patchAll (hashPatches l) w.
Proof.
  revert w. induction l as [|[pod hash] l IH]; intros w; simpl; [done|].
  apply bind_ext_run. intros _ w'. apply IH.
Qed.

Lemma patchBatch_all {B} bc batchID n pods (k : list PodToPatch * bool -> M W B) w :
  bind (patchBatch bc batchID n pods) k w
  = bind (patchAll (labelPatches bc (map (fun pod => (pod, batchID)) (take n pods))))
      (fun _ => k (drop n pods, Nat.ltb (length pods) n)) w.
Proof.
  revert pods w. induction n as [|n IH]; intros pods w; simpl; [done|].
  destruct pods as [|[pod hash] rest]; simpl; [done|].
  rewrite !bind_assoc_run. apply bind_ext_run. intros _ w'. by rewrite IH.
Qed.

Lemma patchBatches_all {B} bc planned pods (k : list PodToPatch -> M W B) w :
  bind (patchBatches bc planned pods) k w
  = bind (patchAll (labelPatches bc (assign planned pods)))
      (fun _ => k (drop (planTotal planned) pods)) w.
Proof.
  revert pods w. induction planned as [|p before IH]; intros pods w; [done|].
  cbn [patchBatches assign]. unfold labelPatches. rewrite map_app.
  rewrite bind_assoc_run, patchBatch_all. cbn [fst snd].
  transitivity (bind (bind (patchAll (labelPatches bc (map (fun pod => (pod, len (p :: before)))
      (take (Z.to_nat p) pods)))) (fun _ => patchAll (labelPatches bc
        (assign before (drop (Z.to_nat p) pods))))) (fun _ => k (drop (planTotal (p :: before)) pods)) w).
  - rewrite bind_assoc_run. apply bind_ext_run. intros _ w'.
    unfold planTotal. simpl. rewrite <- drop_drop.
    destruct (Nat.ltb_spec (length pods) (Z.to_nat p)) as [Hlt|Hge].
    + rewrite drop_ge by lia. by rewrite assign_nil, drop_nil.
    + apply IH.
  - unfold bind at 1 3. by rewrite patchAll_app.
Qed.

(** ** The planned increments *)

Lemma calculateBatchReplicas_total batches replicas i :
  (0 <= i < len batches -> exists size, calculateBatchReplicas batches replicas i = Ok size)
  /\ (~ (0 <= i < len batches) -> calculateBatchReplicas batches replicas i = Panic).
Proof.
  unfold calculateBatchReplicas. split.
  - intros Hi. destruct (go_index_ok batches i Hi) as (batch & -> & _). by eexists.
  - intros Hi. unfold go_index. case_decide; [|done].
    rewrite lookup_ge_None_2; [done|]. unfold len in Hi. lia.
Qed.

Lemma batchSizes_spec batches replicas n :
  if decide (n <= length batches)%nat then
    exists sizes, batchSizes batches replicas n = Ok sizes /\ length sizes = n
      /\ forall i, (i < n)%nat -> exists size, sizes !! i = Some size
           /\ calculateBatchReplicas batches replicas (Z.of_nat i) = Ok size
  else batchSizes batches replicas n = Panic.
Proof.
  induction n as [|n IH].
  { rewrite decide_True by lia. exists []. split; [done|]. split; [done|]. lia. }
  simpl. destruct (calculateBatchReplicas_total batches replicas (Z.of_nat n)) as [Hok Hpanic].
  destruct (decide (n <= length batches)%nat) as [Hn|Hn].
  - destruct IH as (sizes & Es & Hlen & Hi). rewrite Es. simpl. case_decide as HS.
    + destruct Hok as [size Esize]; [unfold len; lia|]. rewrite Esize. simpl. eexists. split; [done|].
      rewrite length_app. split; [simpl; lia|]. intros i Hlt. destruct (decide (i = n)) as [->|].
      * exists size. rewrite lookup_app_r by lia. by rewrite Hlen, Nat.sub_diag.
      * rewrite lookup_app_l by lia. apply Hi. lia.
    + rewrite Hpanic by (unfold len; lia). done.
  - rewrite IH. simpl. by rewrite decide_False by lia.
Qed.

Lemma increments_sum previous sizes :
  sumZ (increments previous sizes) = default previous (last sizes) - previous.
Proof.
  revert previous. induction sizes as [|s sizes IH]; intros previous; simpl; [lia|].
  unfold sumZ in *. simpl. rewrite IH. destruct sizes as [|s' sizes]; simpl; [lia|].
  destruct (last (s' :: sizes)) eqn:E; [simpl; lia|]. by apply last_None in E.
Qed.

Lemma sumZ_app l l' : sumZ (l ++ l') = sumZ l + sumZ l'.
Proof. unfold sumZ. induction l as [|x l IH]; simpl; lia. Qed.

Lemma increments_length previous sizes : length (increments previous sizes) = length sizes.
Proof. revert previous. induction sizes; intros; simpl; auto. Qed.

(** What the plan means by the size of a batch, and by the pods it adds to the batch
    before it, as long as the release has come to it. *)
Definition batchTarget (batches : list ReleaseBatch) (replicas : Z) (b : nat) : Z :=
  match batches !! b with
  | Some batch =>
      let scaled := fst (GetScaledValueFromIntOrPercent (Some (batch_CanaryReplicas batch)) replicas true) in
      if decide (replicas < scaled) then replicas else Z.max 0 scaled
  | None => 0
  end.
Definition batchCapacity (batches : list ReleaseBatch) (replicas cur : Z) (b : nat) : Z :=
  if decide (Z.of_nat b <= cur)
  then batchTarget batches replicas b
       - match b with O => 0 | S b' => batchTarget batches replicas b' end
  else 0.

Lemma calculateBatchReplicas_target batches replicas b size :
  calculateBatchReplicas batches replicas (Z.of_nat b) = Ok size -> size = batchTarget batches replicas b.
Proof.
  unfold calculateBatchReplicas, batchTarget, go_index. rewrite decide_True by lia. rewrite Nat2Z.id.
  destruct (batches !! b) as [batch|]; simpl; [|done]. intros [= <-].
  repeat case_decide; lia.
Qed.

Lemma increments_lookup previous sizes b :
  (b < length sizes)%nat ->
  increments previous sizes !! b
  = Some (default 0 (sizes !! b) - match b with O => previous | S b' => default 0 (sizes !! b') end).
Proof.
  revert previous b. induction sizes as [|s sizes IH]; intros previous b Hb; simpl in Hb; [lia|].
  destruct b as [|b]; [done|]. simpl. rewrite IH by lia. destruct b; simpl; [|done].
  by destruct sizes.
Qed.

Lemma plannedIncrements_capacity batches replicas cur planned b :
  0 <= cur -> calculatePlannedStepIncrements batches replicas cur = Ok planned ->
  (b < length batches)%nat -> planned !! b = Some (batchCapacity batches replicas cur b).
Proof.
  intros Hcur Hplan Hb. unfold calculatePlannedStepIncrements in Hplan.
  apply res_bind_Ok in Hplan as (sizes & Es & [= <-]).
  pose proof (batchSizes_spec batches replicas (Z.to_nat (cur + 1))) as Hs.
  case_decide as Hle; [|by rewrite Es in Hs].
  destruct Hs as (sizes' & Es' & Hlen & Hi). rewrite Es in Es'. injection Es' as <-.
  assert (Hsize : forall i, (i < length sizes)%nat ->
            default 0 (sizes !! i) = batchTarget batches replicas i).
  { intros i Hlt. destruct (Hi i ltac:(lia)) as (size & -> & Esize).
    by apply calculateBatchReplicas_target. }
  unfold batchCapacity. case_decide.
  - rewrite lookup_app_l by (rewrite increments_length; lia).
    rewrite increments_lookup by lia. f_equal. rewrite Hsize by lia.
    destruct b as [|b]; [done|]. by rewrite Hsize by lia.
  - rewrite lookup_app_r by (rewrite increments_length; lia). rewrite increments_length.
    apply lookup_replicate. split; [done|]. lia.
Qed.

Lemma plannedIncrements_spec batches replicas cur :
  0 <= cur ->
  if decide (cur < len batches) then
    exists planned size, calculatePlannedStepIncrements batches replicas cur = Ok planned
      /\ length planned = length batches
      /\ calculateBatchReplicas batches replicas cur = Ok size /\ sumZ planned = size
  else calculatePlannedStepIncrements batches replicas cur = Panic.
Proof.
  intros Hcur. unfold calculatePlannedStepIncrements.
  pose proof (batchSizes_spec batches replicas (Z.to_nat (cur + 1))) as Hs. unfold len.
  case_decide as Hlt; (case_decide as Hle; [|try lia]); try lia.
  - destruct Hs as (sizes & Es & Hlen & Hi). rewrite Es. simpl.
    destruct (Hi (Z.to_nat cur)) as (size & Elast & Esize); [lia|].
    rewrite Z2Nat.id in Esize by lia. exists (increments 0 sizes ++ replicate (length batches - length sizes) 0)%list, size.
    split; [done|]. split; [rewrite length_app, increments_length, length_replicate; lia|].
    split; [done|]. rewrite sumZ_app, increments_sum.
    assert (Hl : last sizes = Some size).
    { rewrite last_lookup, Hlen. rewrite <- Elast. f_equal. lia. }
    rewrite Hl. simpl. unfold sumZ. generalize (length batches - length sizes)%nat.
    induction n as [|n IHn]; simpl in *; lia.
  - by rewrite Hs.
Qed.

(** ** The survey of pods that have their revision label *)

Definition revisionLabelled (pod : Pod) : Prop :=
  mapget (Labels (pod_Meta pod)) ControllerRevisionHashLabelKey <> ""%string.

Definition place (bc : BatchContext) (batches : Z) (pod : Pod) : PodPlace :=
  if deleting (pod_Meta pod) then NotConcerned else placeOf (Labels (pod_Meta pod)) batches bc.
Definition placedIn (bc : BatchContext) (batches : Z) (i : Z) (pods : list Pod) : list Pod :=
  filter (fun pod => place bc batches pod = InBatch i) pods.
Definition toPatch (bc : BatchContext) (batches : Z) (pods : list Pod) : list Pod :=
  filter (fun pod => place bc batches pod = ToPatch) pods.

(** The living pods of the update revision. *)
Definition updatedPods (bc : BatchContext) (pods : list Pod) : list Pod :=
  filter (fun pod => deleting (pod_Meta pod) = false
    /\ IsConsistentWithRevision (Labels (pod_Meta pod)) (bc_UpdateRevision bc) = true) pods.

Lemma place_range bc batches pod i : place bc batches pod = InBatch i -> 0 < i <= batches.
Proof.
  unfold place, placeOf. repeat case_match; try done. intros [= <-].
  match goal with H : _ && _ = true |- _ => apply andb_true_iff in H as [H1' H2'] end.
  apply bool_decide_eq_true in H1'. apply bool_decide_eq_true in H2'. lia.
Qed.

Lemma place_updated bc batches pod :
  place bc batches pod <> NotConcerned
  <-> deleting (pod_Meta pod) = false
      /\ IsConsistentWithRevision (Labels (pod_Meta pod)) (bc_UpdateRevision bc) = true.
Proof.
  unfold place, placeOf. destruct (deleting _); [naive_solver|].
  destruct (IsConsistentWithRevision _ _); simpl; [|naive_solver].
  repeat case_match; naive_solver.
Qed.

Lemma sumZ_alter k l : (k < length l)%nat -> sumZ (alter (fun n => n - 1) k l) = sumZ l - 1.
Proof.
  revert k. induction l as [|x l IH]; intros k Hk; simpl in *; [lia|].
  destruct k as [|k]; [unfold sumZ; simpl; lia|].
  change (x + sumZ (alter (fun n => n - 1) k l) = x + sumZ l - 1). rewrite IH by lia. lia.
Qed.

(** What the survey of such pods finds, in one step. *)
Lemma surveyPod_labelled bc pod sv w :
  revisionLabelled pod ->
  surveyPod bc pod sv w
  = (Ok match place bc (len (sv_planned sv)) pod with
        | NotConcerned => sv
        | InBatch i => sv <| sv_planned := alter (fun n => n - 1) (Z.to_nat (i - 1)) (sv_planned sv) |>
        | ToPatch => sv <| sv_unpatched := (sv_unpatched sv ++ [(pod, None)])%list |>
        end, w).
Proof.
  intros Hl. unfold surveyPod, place. destruct (deleting _); [done|].
  unfold podHash, nonempty. destruct (String.eqb_spec (mapget (Labels (pod_Meta pod)) ControllerRevisionHashLabelKey) "")
    as [E|_]; [by destruct Hl|]. unfold bind, ret. simpl.
  destruct sv as [planned unpatched others cache]. simpl. by destruct (placeOf _ _ _).
Qed.

Lemma surveyPods_labelled bc pods sv w :
  Forall revisionLabelled pods ->
  let n := len (sv_planned sv) in
  exists sv', surveyPods bc pods sv w = (Ok sv', w)
    /\ length (sv_planned sv') = length (sv_planned sv)
    /\ sv_unpatched sv' = (sv_unpatched sv ++ map (fun pod => (pod, None)) (toPatch bc n pods))%list
    /\ sv_others sv' = sv_others sv
    /\ (forall b, sv_planned sv' !! b
         = (fun p => p - len (placedIn bc n (Z.of_nat (S b)) pods)) <$> sv_planned sv !! b)
    /\ sumZ (sv_planned sv') + len (updatedPods bc pods)
       = sumZ (sv_planned sv) + len (toPatch bc n pods).
Proof.
  intros Hall. revert sv. induction Hall as [|pod pods Hpod Hall IH]; intros sv n.
  { exists sv. simpl. rewrite app_nil_r. split_and!; try done. intros b.
    destruct (sv_planned sv !! b); simpl; [|done]. unfold len. simpl. by rewrite Z.sub_0_r. }
  cbn [surveyPods]. unfold bind. rewrite (surveyPod_labelled bc pod sv w Hpod). fold n.
  unfold placedIn, toPatch, updatedPods in *.
  pose proof (place_updated bc n pod) as Hupd. pose proof (place_range bc n pod) as Hrange.
  destruct (place bc n pod) as [|i|] eqn:Epl.
  - destruct (IH sv) as (sv' & Es & Hlen & Hun & Hoth & Hb & Hsum). exists sv'.
    change (len (sv_planned sv)) with n in Hun, Hb, Hsum.
    rewrite !filter_cons, Epl. rewrite (decide_False (P := deleting _ = false /\ _)) by tauto.
    rewrite decide_False by done. split_and!; try done. intros b. rewrite Hb.
    rewrite filter_cons, Epl, decide_False by done. done.
  - destruct (IH (sv <| sv_planned := alter (fun n => n - 1) (Z.to_nat (i - 1)) (sv_planned sv) |>))
      as (sv' & Es & Hlen & Hun & Hoth & Hb & Hsum). exists sv'. simpl in *.
    assert (En : len (alter (fun n => n - 1) (Z.to_nat (i - 1)) (sv_planned sv)) = n)
      by (unfold n, len; by rewrite length_alter).
    rewrite En in *. rewrite length_alter in Hlen. specialize (Hrange i eq_refl).
    rewrite sumZ_alter in Hsum by (unfold n, len in Hrange; lia).
    rewrite !filter_cons, Epl. rewrite (decide_True (P := deleting _ = false /\ _)) by (apply Hupd; done).
    rewrite decide_False by done. split_and!; try done.
    + intros b. rewrite Hb, filter_cons, Epl. destruct (decide (b = Z.to_nat (i - 1))) as [->|Nb].
      * rewrite list_lookup_alter_eq, decide_True by (f_equal; lia).
        destruct (sv_planned sv !! _); simpl; [|done]. f_equal. unfold len. rewrite length_cons. lia.
      * rewrite list_lookup_alter_ne by done. rewrite decide_False by (intros [= E]; lia). done.
    + unfold len in *. simpl. lia.
  - destruct (IH (sv <| sv_unpatched := (sv_unpatched sv ++ [(pod, None)])%list |>))
      as (sv' & Es & Hlen & Hun & Hoth & Hb & Hsum). exists sv'. simpl in *.
    change (len (sv_planned sv)) with n in Hun, Hb, Hsum.
    rewrite !filter_cons, Epl. rewrite (decide_True (P := deleting _ = false /\ _)) by (apply Hupd; done).
    rewrite decide_True by done. split_and!; try done.
    + rewrite Hun. simpl. by rewrite <- app_assoc.
    + intros b. rewrite Hb, filter_cons, Epl, decide_False by done. done.
    + unfold len in *. simpl. lia.
Qed.

(** ** Properties *)

(** The code as a plan of patches. *)
Lemma patchPodBatchLabel_survey batches pods bc w planned sv w1 :
  calculatePlannedStepIncrements batches (bc_Replicas bc) (bc_CurrentBatch bc) = Ok planned ->
  surveyPods bc pods (mkSurvey planned [] [] ∅) w = (Ok sv, w1) ->
  let lastFirst := rev (sv_unpatched sv) in
  patchPodBatchLabel batches pods bc w
  = patchAll (labelPatches bc (assign (rev (sv_planned sv)) lastFirst)
      ++ hashPatches (rangeOrder (sv_others sv
           ++ withHash (drop (planTotal (sv_planned sv)) lastFirst))))%list w1.
Proof.
  intros Hp Hs lastFirst. unfold patchPodBatchLabel. rewrite Hp.
  unfold bind at 1. unfold lift. unfold bind at 1. rewrite Hs.
  rewrite patchBatches_all, patchAll_app, planTotal_rev. apply bind_ext_run.
  intros _ w'. apply patchHashes_all.
Qed.

Lemma withHash_none pods : withHash (map (fun pod => (pod, None)) pods) = [].
Proof. unfold withHash. induction pods; simpl; done. Qed.

(** The plan of patches that a survey leads to. *)
Lemma plan_of_survey `{!MapRangeLaws} batches pods bc (w : W) planned sv n :
  calculatePlannedStepIncrements batches (bc_Replicas bc) (bc_CurrentBatch bc) = Ok planned ->
  surveyPods bc pods (mkSurvey planned [] [] ∅) w = (Ok sv, w) ->
  sv_others sv = [] -> sv_unpatched sv = map (fun pod => (pod, None)) (toPatch bc n pods) ->
  exists plan, patchPodBatchLabel batches pods bc w = patchAll (labelPatches bc plan) w
  /\ map (fun a => fst (fst a)) plan = take (length plan) (rev (toPatch bc n pods))
  /\ length plan = Nat.min (planTotal (sv_planned sv)) (length (toPatch bc n pods))
  /\ Sorted.StronglySorted Z.ge (map snd plan)
  /\ Forall (fun a => 1 <= snd a <= Z.of_nat (length (sv_planned sv))) plan
  /\ (forall b, len (filter (fun a => snd a = Z.of_nat (S b)) plan)
                <= Z.max 0 (default 0 (sv_planned sv !! b)))
  /\ (forall b, (planTotal (sv_planned sv) <= length (toPatch bc n pods))%nat ->
        len (filter (fun a => snd a = Z.of_nat (S b)) plan)
        = Z.max 0 (default 0 (sv_planned sv !! b))).
Proof.
  intros Ep Es Hoth Hun. set (lastFirst := rev (sv_unpatched sv)).
  assert (Elf : map fst lastFirst = rev (toPatch bc n pods)).
  { unfold lastFirst. rewrite Hun, map_rev, map_map. simpl. by rewrite map_id. }
  assert (Elast : length lastFirst = length (toPatch bc n pods))
    by (unfold lastFirst; by rewrite length_rev, Hun, length_map).
  set (plan := assign (rev (sv_planned sv)) lastFirst).
  assert (Etake : map fst plan = take (planTotal (sv_planned sv)) lastFirst)
    by (unfold plan; by rewrite assign_take, planTotal_rev).
  assert (Elen : length plan = Nat.min (planTotal (sv_planned sv)) (length (toPatch bc n pods)))
    by (rewrite <- (length_map fst plan), Etake, length_take; by rewrite Elast).
  destruct (assign_descending (rev (sv_planned sv)) lastFirst) as [Hdesc Hrange]. fold plan in Hdesc, Hrange.
  exists plan. split_and!; [| |done|done| | |].
  - rewrite (patchPodBatchLabel_survey batches pods bc w planned sv w Ep Es). fold lastFirst.
    rewrite Hoth. simpl.
    assert (Ew : withHash (drop (planTotal (sv_planned sv)) lastFirst) = []).
    { unfold lastFirst. rewrite Hun, <- map_rev, skipn_map. apply withHash_none. }
    rewrite Ew. assert (Er : rangeOrder (A := Pod * string) [] = [])
      by (apply Permutation_nil; symmetry; apply rangeOrder_perm).
    rewrite Er. simpl. by rewrite app_nil_r.
  - transitivity (map fst (map fst plan)); [by rewrite map_map|].
    rewrite Etake. transitivity (take (planTotal (sv_planned sv)) (map fst lastFirst));
      [symmetry; apply firstn_map|]. rewrite Elf, Elen, <- (length_rev (toPatch bc n pods)).
    set (l := rev _). destruct (Nat.min_spec (planTotal (sv_planned sv)) (length l)) as [[? ->]|[? ->]]; [done|].
    by rewrite !take_ge by lia.
  - eapply Forall_impl; [exact Hrange|]. unfold len. rewrite length_rev. done.
  - intros b. apply assign_count.
  - intros b Hp. apply assign_full. by rewrite Elast.
Qed.

(** C32. The batch labels of pods.  With a current batch that the plan has not, the
    patcher panics before it patches anything; else it sends exactly the patches of a
    plan, one after the other up to the first error.  For pods that have their revision
    label, the plan takes each updated pod without a batch at most once, the last ones
    first, and serves the batches from the last one.  The capacity of a batch up to the
    current one is its size less that of the batch before it, and of a later one nothing:
    no batch is filled beyond its capacity (one that has more already gets none), and
    unless the pods run out each is filled up to it.  The labelled pods reach the size of
    the current batch or, if there are fewer, all the updated pods, so that the label
    condition of a ready batch can be met; they are exactly that many when no batch had
    more than its capacity before. *)
Theorem PatchPodBatchLabel_plan `{!MapRangeLaws} (batches : list ReleaseBatch) (pods : list Pod)
    (bc : BatchContext) (w : W)
    (Hcur : 0 <= bc_CurrentBatch bc) (Hlabels : Forall revisionLabelled pods) :
  let n := len batches in
  let capacity := batchCapacity batches (bc_Replicas bc) (bc_CurrentBatch bc) in
  let size := batchTarget batches (bc_Replicas bc) (Z.to_nat (bc_CurrentBatch bc)) in
  let found b := len (placedIn bc n (Z.of_nat (S b)) pods) in
  let labelled := len (updatedPods bc pods) - len (toPatch bc n pods) in
  if decide (bc_CurrentBatch bc < n) then
    exists plan, patchPodBatchLabel batches pods bc w = patchAll (labelPatches bc plan) w
    /\ let given b := len (filter (fun a => snd a = Z.of_nat (S b)) plan) in
       map (fun a => fst (fst a)) plan = take (length plan) (rev (toPatch bc n pods))
       /\ Sorted.StronglySorted Z.ge (map snd plan) /\ Forall (fun a => 1 <= snd a <= n) plan
       /\ (forall b, (b < length batches)%nat ->
            found b + given b <= Z.max (found b) (capacity b)
            /\ (len plan < len (toPatch bc n pods) ->
                 found b + given b = Z.max (found b) (capacity b)))
       /\ Z.min (len (updatedPods bc pods)) size <= labelled + len plan
       /\ ((forall b, (b < length batches)%nat -> found b <= capacity b) ->
           labelled + len plan = Z.min (len (updatedPods bc pods)) size)
  else patchPodBatchLabel batches pods bc w = (Panic, w).
Proof.
  intros n capacity size found labelled.
  pose proof (plannedIncrements_spec batches (bc_Replicas bc) (bc_CurrentBatch bc) Hcur) as Hp.
  fold n in Hp. case_decide as Hlt; [|unfold patchPodBatchLabel; by rewrite Hp].
  destruct Hp as (planned & size' & Ep & Hplen & Esize & Hsum).
  rewrite <- (Z2Nat.id (bc_CurrentBatch bc)) in Esize by done.
  apply calculateBatchReplicas_target in Esize. fold size in Esize. subst size'.
  destruct (surveyPods_labelled bc pods (mkSurvey planned [] [] ∅) w Hlabels)
    as (sv & Es & Hlen & Hun & Hoth & Hb & Htot). simpl in *.
  replace (len planned) with n in * by (unfold n, len; lia).
  assert (Hlack : forall b, (b < length batches)%nat -> sv_planned sv !! b = Some (capacity b - found b)).
  { intros b Hlb. by rewrite Hb, (plannedIncrements_capacity batches _ _ planned b Hcur Ep Hlb). }
  rewrite Hsum in Htot. pose proof (plan_of_survey batches pods bc w planned sv n Ep Es Hoth Hun) as Hplan.
  rewrite Hlen, Hplen in Hplan. fold n in Hplan.
  destruct Hplan as (plan & Hrun & Htake & Elen & Hdesc & Hrange & Hle & Hfull).
  exists plan. split; [done|]. cbv zeta. split; [done|]. split; [done|]. split; [done|].
  pose proof (planTotal_sum (sv_planned sv)). unfold labelled. split_and!.
  - intros b Hlb. specialize (Hle b). specialize (Hfull b). rewrite Hlack in Hle, Hfull by done.
    simpl in *. split; [lia|]. intros Hless. rewrite Hfull; [lia|]. unfold len in *. lia.
  - unfold len in *. lia.
  - intros Hroom. assert (Hpos : Forall (Z.le 0) (sv_planned sv)).
    { apply Forall_lookup. intros b x Hx. pose proof (lookup_lt_Some _ _ _ Hx).
      rewrite Hlack in Hx by lia. injection Hx as <-. specialize (Hroom b ltac:(lia)). lia. }
    apply planTotal_nonneg in Hpos. unfold len in *. lia.
Qed.
End plan.

(** ** What the filters keep *)

Section filter_properties.
Context `{K8sLib} `{Strconv} `{SortLib} `{!SortLaws}.

Definition terminating (pods : list Pod) : list Pod :=
  filter (fun pod => deleting (pod_Meta pod) = true) pods.
Definition withPriority (low : Pod -> bool) (b : bool) (bc : BatchContext) (pods : list Pod) : list Pod :=
  filter (fun pod => low pod = b) (updatedPods bc pods).

Lemma classifyPods_filter low bc pods c :
  classifyPods low (bc_UpdateRevision bc) pods c
  = mkClasses (terminatingPods c ++ terminating pods)
      (lowPriorityPods c ++ withPriority low true bc pods)
      (highPriorityPods c ++ withPriority low false bc pods).
Proof.
  unfold terminating, withPriority, updatedPods. revert c.
  induction pods as [|pod pods IH]; intros c; simpl.
  { rewrite !app_nil_r. by destruct c. }
  rewrite IH, !filter_cons. destruct (deleting (pod_Meta pod)); simpl.
  { by rewrite <- app_assoc. }
  destruct (IsConsistentWithRevision _ _); simpl; [|done]. rewrite !filter_cons.
  destruct (low pod); simpl; by rewrite <- ?app_assoc.
Qed.

(** The pods a filter keeps: all of them when there is nothing left to update; else the
    pods of high priority, then as many of the others as the plan asks for beyond the
    update, then the terminating ones. *)
Definition selected (low : Pod -> bool) (bc : BatchContext) (need : Z) (pods : list Pod) : list Pod :=
  if decide (need <= 0) then pods else
  (withPriority low false bc pods
   ++ take (Z.to_nat (bc_PlannedUpdatedReplicas bc - need)) (withPriority low true bc pods)
   ++ terminating pods)%list.

Lemma selectPods_selected low bc need pods :
  len pods < 2 ^ 31 -> 0 <= bc_PlannedUpdatedReplicas bc < 2 ^ 31 -> need < 2 ^ 31 ->
  selectPods pods (classifyPods low (bc_UpdateRevision bc) pods (mkClasses [] [] []))
    (bc_PlannedUpdatedReplicas bc) need
  = selected low bc need pods.
Proof.
  intros Hlen Hp Hneed. rewrite classifyPods_filter. unfold selectPods, selected. simpl.
  case_decide; [done|]. rewrite wrap32_id by (unfold in32; lia).
  assert (Hle : len (withPriority low true bc pods) <= len pods).
  { unfold len, withPriority, updatedPods. apply inj_le.
    etransitivity; [apply length_filter|apply length_filter]. }
  pose proof (len_nonneg (withPriority low true bc pods)).
  rewrite wrap32_id by (unfold in32; lia). case_decide as Hd.
  - by replace (Z.to_nat (bc_PlannedUpdatedReplicas bc - need)) with 0%nat by lia.
  - do 2 f_equal. destruct (Z.min_spec (bc_PlannedUpdatedReplicas bc - need) (len (withPriority low true bc pods)))
      as [[? ->]|[? ->]]; [done|]. unfold len in *. rewrite !take_ge by lia. done.
Qed.

(** Rollbacks in batches.  The unordered filter takes the pods marked as not to be
    updated (and not labelled yet) for the others, and the number still to be updated for
    the desired one less these; the ordered filter takes the pods below the partition,
    first sorting the list by the number at the last dash, read with the dash as its
    sign.  It panics exactly when there are pods to
    compare and one has no dash in its name. *)
Theorem FilterPods_spec (bc : BatchContext) (pods : list Pod) (partition : Z)
    (Hlen : len pods < 2 ^ 31) (Hplanned : 0 <= bc_PlannedUpdatedReplicas bc < 2 ^ 31)
    (Hdesired : 0 <= bc_DesiredUpdatedReplicas bc < 2 ^ 31)
    (Hpartition : fst (GetScaledValueFromIntOrPercent (Some (bc_DesiredPartition bc)) (bc_Replicas bc) true)
                  = partition)
    (Hreplicas : 0 <= bc_Replicas bc < 2 ^ 31) (Hin : 0 <= partition < 2 ^ 31) :
  (let low := noNeedUpdate (bc_RolloutID bc) in
   applyFilter FilterPodsForUnorderedUpdate pods bc
   = Ok (selected low bc (bc_DesiredUpdatedReplicas bc - len (withPriority low true bc pods)) pods))
  /\ match applyFilter FilterPodsForOrderedUpdate pods bc with
     | Ok kept => exists sorted, sorted ≡ₚ pods
         /\ Sorted (fun a b => ordinalKey a <= ordinalKey b) sorted
         /\ kept = selected (fun pod => bool_decide (getPodOrdinal pod < partition)) bc
                     (bc_Replicas bc - partition) sorted
     | _ => 2 <= len pods /\ exists pod, pod ∈ pods /\ lastDash (Name (pod_Meta pod)) < 0
     end.
Proof.
  split.
  - intros low. unfold applyFilter, filterPodsForUnorderedUpdate. cbv zeta. fold low.
    assert (El : lowPriorityPods (classifyPods low (bc_UpdateRevision bc) pods (mkClasses [] [] []))
                 = withPriority low true bc pods) by by rewrite classifyPods_filter.
    rewrite El.
    assert (Hle : len (withPriority low true bc pods) <= len pods).
    { unfold len, withPriority, updatedPods. apply inj_le.
      etransitivity; [apply length_filter|apply length_filter]. }
    pose proof (len_nonneg (withPriority low true bc pods)).
    rewrite !wrap32_id by (rewrite ?wrap32_id by (unfold in32; lia); unfold in32; lia).
    f_equal. apply selectPods_selected; lia.
  - simpl. unfold filterPodsForOrderedUpdate, sortPodsByOrdinal.
    destruct (bool_decide _ && existsb _ _) eqn:Ep; simpl.
    + apply andb_true_iff in Ep as [Hge%bool_decide_eq_true Hex].
      split; [lia|]. apply existsb_exists in Hex as (pod & Hin' & Hd%bool_decide_eq_true).
      exists pod. by rewrite list_elem_of_In.
    + rewrite Hpartition. rewrite !wrap32_id by (rewrite ?wrap32_id by (unfold in32; lia); unfold in32; lia).
      set (sorted := sortSlice _ pods). exists sorted.
      assert (Hperm : sorted ≡ₚ pods) by apply sortSlice_perm.
      split; [done|]. split; [by apply sortSlice_sorted|].
      apply selectPods_selected; [|lia..]. unfold len. by rewrite Hperm.
Qed.
End filter_properties.
