(* ===== verification/Expectation.v ===== *)
(** * Resource expectations (pkg/util/expectation)

    What the controllers have done and not seen yet: objects they created or deleted, by
    the key of the controller.  The store is one per process and every operation is
    atomic under its mutex. *)

From S2P Require Export Workloads.

Inductive Action := Create | Delete.
#[export] Instance Action_eq_dec : EqDecision Action.
Proof. solve_decision. Defined.
#[export] Instance Action_countable : Countable Action.
Proof.
  apply (inj_countable' (fun a => match a with Create => true | Delete => false end)
    (fun b : bool => if b then Create else Delete)). by intros [].
Defined.

Record realControllerResourceExpectations := mkExpectations {
  objsCache : gmap Action (gset string);
  firstUnsatisfiedTimestamp : option Z
}.
#[export] Instance eta_Expectations : Eta realControllerResourceExpectations := fun x =>
  mkExpectations (objsCache x) (firstUnsatisfiedTimestamp x).

Abbreviation ResourceStore := (gmap string realControllerResourceExpectations).

Definition resource_GetExpectations (st : ResourceStore) (controllerKey : string)
    : option (gmap Action (gset string)) := objsCache <$> st !! controllerKey.

Definition resource_Expect (controllerKey : string) (action : Action) (name : string)
    (st : ResourceStore) : ResourceStore :=
  let expectations := default (mkExpectations ∅ None) (st !! controllerKey) in
  let s := default ∅ (objsCache expectations !! action) in
  <[controllerKey := expectations <| objsCache := <[action := {[name]} ∪ s]> (objsCache expectations) |>]> st.

(** Some action of the key is still outstanding. *)
Definition unsatisfied (cache : gmap Action (gset string)) : bool :=
  existsb (fun a => bool_decide (default ∅ (cache !! a) <> ∅)) [Create; Delete].

Definition resource_Observe (controllerKey : string) (action : Action) (name : string)
    (st : ResourceStore) : ResourceStore :=
  match st !! controllerKey with
  | None => st
  | Some expectations =>
      match objsCache expectations !! action with
      | None => st
      | Some s =>
          let cache := <[action := s ∖ {[name]}]> (objsCache expectations) in
          if unsatisfied cache
          then <[controllerKey := expectations <| objsCache := cache |>]> st
          else delete controllerKey st
      end
  end.

Definition resource_DeleteExpectations (controllerKey : string) (st : ResourceStore) : ResourceStore :=
  delete controllerKey st.

(** The answer, how long the key has been found unsatisfied, and the new store; the first
    such check starts the time, and the clock is read only then. *)
Definition resource_SatisfiedExpectations (now since : Z) (controllerKey : string) (st : ResourceStore)
    : bool * Z * ResourceStore :=
  match st !! controllerKey with
  | None => (true, 0, st)
  | Some expectations =>
      if unsatisfied (objsCache expectations) then
        let first := default now (firstUnsatisfiedTimestamp expectations) in
        (false, since - first,
         <[controllerKey := expectations <| firstUnsatisfiedTimestamp := Some first |>]> st)
      else (true, 0, delete controllerKey st)
  end.

(** The store as a part of the world. *)
Class HasExpectations (W : Type) := {
  expectationsOf : W -> ResourceStore;
  setExpectations : ResourceStore -> W -> W
}.

Section operations.
Context {W : Type} `{Clock W} `{HasExpectations W}.

Definition ExpectResource (controllerKey : string) (action : Action) (name : string) : M W unit :=
  modify (fun w => setExpectations (resource_Expect controllerKey action name (expectationsOf w)) w).
Definition ObserveResource (controllerKey : string) (action : Action) (name : string) : M W unit :=
  modify (fun w => setExpectations (resource_Observe controllerKey action name (expectationsOf w)) w).
Definition DeleteResourceExpectations (controllerKey : string) : M W unit :=
  modify (fun w => setExpectations (resource_DeleteExpectations controllerKey (expectationsOf w)) w).

(** [time.Now] is read when the time starts, and again by [time.Since]. *)
Definition SatisfiedResourceExpectations (controllerKey : string) : M W (bool * Z) :=
  w <- get ;;
  match expectationsOf w !! controllerKey with
  | Some expectations =>
      if unsatisfied (objsCache expectations) then
        now <- (match firstUnsatisfiedTimestamp expectations with
                | Some first => ret first
                | None => time_Now
                end) ;;
        since <- time_Now ;;
        w <- get ;;
        let '(satisfied, timeoutDuration, st) :=
          resource_SatisfiedExpectations now since controllerKey (expectationsOf w) in
        put (setExpectations st w) ;;
        ret (satisfied, timeoutDuration)
      else
        let '(satisfied, timeoutDuration, st) :=
          resource_SatisfiedExpectations 0 0 controllerKey (expectationsOf w) in
        put (setExpectations st w) ;;
        ret (satisfied, timeoutDuration)
  | None => ret (true, 0)
  end.
End operations.

(** ** The life of an expectation *)

(** The names a key still waits for. *)
Definition outstanding (st : ResourceStore) (key : string) (action : Action) : gset string :=
  default ∅ (e ← st !! key; objsCache e !! action).

Lemma unsatisfied_spec cache :
  unsatisfied cache = true <-> exists a, default ∅ (cache !! a) <> ∅.
Proof.
  unfold unsatisfied. rewrite existsb_exists. setoid_rewrite bool_decide_eq_true. split.
  - intros (a & _ & Ha). by exists a.
  - intros (a & Ha). exists a. split; [destruct a; simpl; tauto|done].
Qed.

Lemma outstanding_expect st k a n k' a' :
  outstanding (resource_Expect k a n st) k' a'
  = if decide (k = k' /\ a = a') then {[n]} ∪ outstanding st k a else outstanding st k' a'.
Proof.
  unfold outstanding, resource_Expect. destruct (decide (k = k')) as [<-|Nk].
  - rewrite lookup_insert_eq. simpl. destruct (decide (a = a')) as [<-|Na].
    + rewrite decide_True by done. rewrite lookup_insert_eq. simpl.
      by destruct (st !! k) as [e|]; simpl.
    + rewrite decide_False by tauto. rewrite lookup_insert_ne by done.
      by destruct (st !! k) as [e|]; simpl.
  - rewrite decide_False by tauto. by rewrite lookup_insert_ne.
Qed.

Lemma outstanding_observe st k a n k' a' :
  outstanding (resource_Observe k a n st) k' a'
  = if decide (k = k' /\ a = a') then outstanding st k a ∖ {[n]} else outstanding st k' a'.
Proof.
  unfold outstanding, resource_Observe. destruct (st !! k) as [e|] eqn:Ek; simpl.
  2: { case_decide as HD; [|done]. destruct HD as [<- <-]. rewrite Ek. simpl. set_solver. }
  destruct (objsCache e !! a) as [s|] eqn:Ea; simpl.
  2: { case_decide as HD; [|done]. destruct HD as [<- <-]. rewrite Ek. simpl. rewrite Ea. simpl. set_solver. }
  destruct (unsatisfied _) eqn:Eu.
  - destruct (decide (k = k')) as [<-|Nk].
    + rewrite lookup_insert_eq, Ek. simpl. destruct (decide (a = a')) as [<-|Na].
      * rewrite decide_True by done. by rewrite lookup_insert_eq.
      * rewrite decide_False by tauto. by rewrite lookup_insert_ne.
    + rewrite decide_False by tauto. by rewrite lookup_insert_ne.
  - assert (Hall : forall a'', default ∅ (<[a := s ∖ {[n]}]> (objsCache e) !! a'') = ∅).
    { intros a''. destruct (decide (default ∅ (<[a := s ∖ {[n]}]> (objsCache e) !! a'') = ∅)) as [|Hne]; [done|].
      assert (unsatisfied (<[a := s ∖ {[n]}]> (objsCache e)) = true) by (apply unsatisfied_spec; by exists a'').
      congruence. }
    destruct (decide (k = k')) as [<-|Nk].
    + rewrite lookup_delete_eq, Ek. simpl. specialize (Hall a'). destruct (decide (a = a')) as [<-|Na].
      * rewrite decide_True by done. rewrite lookup_insert_eq in Hall. simpl in *. by rewrite Hall.
      * rewrite decide_False by tauto. rewrite lookup_insert_ne in Hall by done. by rewrite Hall.
    + rewrite decide_False by tauto. by rewrite lookup_delete_ne.
Qed.

(** The life of an expectation.  A name is outstanding from when it is expected until
    it is observed or the key is given up, whatever happens to other keys; a check
    answers yes exactly when nothing is outstanding for the key; checking changes
    nothing that is outstanding; and once a check has failed, each later one that fails
    reports the time since that first one. *)
Theorem expectations_lifecycle (st : ResourceStore) (k : string) (a : Action) (n : string)
    (now since : Z) :
  n ∈ outstanding (resource_Expect k a n st) k a
  /\ (forall k' a', (k', a') <> (k, a) -> outstanding (resource_Expect k a n st) k' a' = outstanding st k' a')
  /\ (forall k' a', outstanding (resource_Observe k a n st) k' a'
        = if decide ((k', a') = (k, a)) then outstanding st k a ∖ {[n]} else outstanding st k' a')
  /\ (forall a', outstanding (resource_DeleteExpectations k st) k a' = ∅)
  /\ let '(satisfied, waited, st') := resource_SatisfiedExpectations now since k st in
     (satisfied = true <-> forall a', outstanding st k a' = ∅)
     /\ (forall k' a', outstanding st' k' a' = outstanding st k' a')
     /\ (satisfied = false -> exists first, firstUnsatisfiedTimestamp <$> st' !! k = Some (Some first)
           /\ waited = since - first
           /\ forall now' since', resource_SatisfiedExpectations now' since' k st' = (false, since' - first, st')).
Proof.
  split; [rewrite outstanding_expect, decide_True by done; set_solver|].
  split; [intros k' a' Hne; rewrite outstanding_expect, decide_False by naive_solver; done|].
  split.
  { intros k' a'. rewrite outstanding_observe.
    destruct (decide (k = k' /\ a = a')) as [[<- <-]|]; [by rewrite decide_True|].
    by rewrite decide_False by naive_solver. }
  split; [intros a'; unfold outstanding, resource_DeleteExpectations; by rewrite lookup_delete_eq|].
  unfold resource_SatisfiedExpectations, outstanding. destruct (st !! k) as [e|] eqn:Ek; simpl.
  2: { split; [done|]. split; done. }
  pose proof (unsatisfied_spec (objsCache e)) as Hu. destruct (unsatisfied (objsCache e)) eqn:Eu.
  - split; [|split].
    + split; [done|]. intros Hall. destruct (proj1 Hu eq_refl) as (a' & Ha'). by destruct Ha'.
    + intros k' a'. destruct (decide (k = k')) as [<-|]; [by rewrite lookup_insert_eq, Ek|].
      by rewrite lookup_insert_ne.
    + intros _. eexists. rewrite lookup_insert_eq. split; [done|]. split; [done|]. intros now' since'.
      simpl. rewrite Eu. by rewrite insert_insert_eq.
  - assert (Hall : forall a', default ∅ (objsCache e !! a') = ∅).
    { intros a'. destruct (decide (default ∅ (objsCache e !! a') = ∅)) as [|Hne]; [done|].
      assert (false = true) by (apply Hu; by exists a'). done. }
    split; [|split; [|done]].
    + split; [intros _ a'; apply Hall|done].
    + intros k' a'. destruct (decide (k = k')) as [<-|]; [rewrite lookup_delete_eq, Ek; simpl; by rewrite Hall|].
      by rewrite lookup_delete_ne.
Qed.
