(* ===== verification/WorkloadControl.v ===== *)
(** * Claiming a workload (control/util.go, pkg/util/patch)

    The annotation with which a release claims its workload, the strategy that is saved
    before a blue-green release changes it, and what all controllers of partition style
    compute for a batch. *)

From S2P Require Export LabelPatch.

(** The feature gate [KeepWorkloadPausedOnRolloutDeletion]. *)
Class KeepPausedGate := KeepWorkloadPausedOnRolloutDeletion : bool.

(** [apiVersion] and [kind] as the decoded release carries them. *)
Class TypeMeta := ReleaseTypeMeta : BatchRelease -> string * string.

Section claim.
Context `{MetaLib} `{TypeMeta} `{Json OwnerReference}.

(** ** The control info *)

Definition IsControlledByBatchRelease (release : BatchRelease) (object : ObjectMeta) : bool :=
  let uid := UID (br_Meta release) in
  match GetControllerOf object with
  | Some owner => String.eqb (or_UID owner) uid
  | None => false
  end
  || (let controlInfo := annotation object BatchReleaseControlAnnotation in
      nonempty controlInfo
      && match Unmarshal controlInfo with
         | Some ref => String.eqb (or_UID ref) uid
         | None => false
         end).

Definition releaseControllerRef (release : BatchRelease) : OwnerReference :=
  let '(apiVersion, kind) := ReleaseTypeMeta release in
  NewControllerRef (br_Meta release) apiVersion kind.

(** [strings.Replace(s, `"`, `\"`, -1)]; 34 is the quote and 92 the backslash. *)
Fixpoint escapeQuotes (s : string) : string :=
  match s with
  | EmptyString => EmptyString
  | String c rest =>
      if Nat.eqb (Ascii.nat_of_ascii c) 34
      then String (Ascii.ascii_of_nat 92) (String c (escapeQuotes rest))
      else String c (escapeQuotes rest)
  end.

Definition BuildReleaseControlInfo (release : BatchRelease) : string :=
  escapeQuotes (Marshal (releaseControllerRef release)).

(** ** Blue-green readiness *)

Definition RecreateCloneSetUpdateStrategyType : string := "ReCreate".
Definition MaxProgressSeconds : Z := 2 ^ 31 - 1.
Definition MaxReadySeconds : Z := MaxProgressSeconds - 1.

Definition ValidateReadyForBlueGreenRelease (object : WorkloadObject) : res unit :=
  let unready msg := Err (ErrOther msg) in
  match object with
  | ODeployment o =>
      if String.eqb (annotation (dep_Meta o) BatchReleaseControlAnnotation) ""
      then unready "workload has no control info annotation"%string
      else if nonempty (dep_StrategyType o)
              && negb (String.eqb (dep_StrategyType o) RollingUpdateDeploymentStrategyType)
      then unready "deployment strategy type is not RollingUpdate"%string
      else if bool_decide (dep_RollingUpdate o = None)
      then unready "deployment strategy rollingUpdate is nil"%string
      else if bool_decide (dep_MinReadySeconds o <> MaxReadySeconds)
              || bool_decide (dep_ProgressDeadlineSeconds o <> Some MaxProgressSeconds)
      then unready "deployment strategy minReadySeconds or progressDeadlineSeconds is not MaxReadySeconds or MaxProgressSeconds"%string
      else Ok tt
  | OCloneSet o =>
      if String.eqb (annotation (clone_Meta o) BatchReleaseControlAnnotation) ""
      then unready "workload has no control info annotation"%string
      else if nonempty (clone_UpdateStrategyType o)
              && negb (String.eqb (clone_UpdateStrategyType o) RecreateCloneSetUpdateStrategyType)
      then unready "cloneSet strategy type is not ReCreate"%string
      else if bool_decide (clone_MinReadySeconds o <> MaxReadySeconds)
      then unready "cloneSet strategy minReadySeconds is not MaxReadySeconds"%string
      else Ok tt
  | _ => Panic
  end.
End claim.

(** ** The saved strategy *)

Definition OriginalDeploymentStrategyAnnotation : string :=
  "rollouts.kruise.io/original-deployment-strategy".

Record OriginalDeploymentStrategy := mkOriginal {
  os_MaxUnavailable : option IntOrString;
  os_MaxSurge : option IntOrString;
  os_MinReadySeconds : Z;
  os_ProgressDeadlineSeconds : option Z
}.
#[export] Instance eta_Original : Eta OriginalDeploymentStrategy := fun x =>
  mkOriginal (os_MaxUnavailable x) (os_MaxSurge x) (os_MinReadySeconds x)
    (os_ProgressDeadlineSeconds x).

Definition emptyOriginal : OriginalDeploymentStrategy := mkOriginal None None 0 None.

Definition GetOriginalSetting `{Json OriginalDeploymentStrategy} (object : ObjectMeta)
    : res OriginalDeploymentStrategy :=
  let settingStr := annotation object OriginalDeploymentStrategyAnnotation in
  if String.eqb settingStr "" then Ok emptyOriginal else
  match Unmarshal settingStr with
  | Some setting => Ok setting
  | None => Err (ErrOther "json")
  end.

Definition getMaxSurgeFromDeployment (ru : option RollingUpdateDeployment) : IntOrString :=
  default (FromString "25%") (r ← ru; ru_MaxSurge r).
Definition getMaxUnavailableFromDeployment (ru : option RollingUpdateDeployment) : IntOrString :=
  default (FromString "25%") (r ← ru; ru_MaxUnavailable r).
Definition getMaxSurgeFromCloneset (o : CloneSet) : IntOrString :=
  default (FromString "0%") (clone_MaxSurge o).
Definition getMaxUnavailableFromCloneset (o : CloneSet) : IntOrString :=
  default (FromString "20%") (clone_MaxUnavailable o).

(** What is not in the setting yet is taken from the workload. *)
Definition orElse {A} (p : option A) (a : A) : option A :=
  match p with Some _ => p | None => Some a end.

Definition InitOriginalSetting (setting : OriginalDeploymentStrategy) (object : WorkloadObject)
    : res OriginalDeploymentStrategy :=
  match object with
  | ODeployment o =>
      Ok (mkOriginal
        (orElse (os_MaxUnavailable setting) (getMaxUnavailableFromDeployment (dep_RollingUpdate o)))
        (orElse (os_MaxSurge setting) (getMaxSurgeFromDeployment (dep_RollingUpdate o)))
        (if decide (os_MinReadySeconds setting = 0) then dep_MinReadySeconds o
         else os_MinReadySeconds setting)
        (orElse (os_ProgressDeadlineSeconds setting) (default 600 (dep_ProgressDeadlineSeconds o))))
  | OCloneSet o =>
      Ok (mkOriginal
        (orElse (os_MaxUnavailable setting) (getMaxUnavailableFromCloneset o))
        (orElse (os_MaxSurge setting) (getMaxSurgeFromCloneset o))
        (if decide (os_MinReadySeconds setting = 0) then clone_MinReadySeconds o
         else os_MinReadySeconds setting)
        (os_ProgressDeadlineSeconds setting))
  | _ => Panic
  end.

(** ** Patches of Deployments and CloneSets (pkg/util/patch) *)

Definition InsertLabel (key value : string) : Field := labelField key (VString value).
Definition DeleteLabel (key : string) : Field := labelField key VNull.
Definition InsertAnnotation (key value : string) : Field := annotationField key (VString value).
Definition DeleteAnnotation (key : string) : Field := annotationField key VNull.
Definition DeploymentPatch_UpdatePaused (paused : bool) : Field := specField ["paused"%string] (VBool paused).
Definition DeploymentPatch_UpdateMinReadySeconds (seconds : Z) : Field :=
  specField ["minReadySeconds"%string] (VInt seconds).
Definition DeploymentPatch_UpdateProgressDeadlineSeconds (seconds : option Z) : Field :=
  specField ["progressDeadlineSeconds"%string] (VOption VInt seconds).
Definition DeploymentPatch_UpdateMaxSurge (maxSurge : option IntOrString) : Field :=
  specField ["strategy"; "rollingUpdate"; "maxSurge"]%string (VOption VIntOrString maxSurge).
Definition DeploymentPatch_UpdateMaxUnavailable (maxUnavailable : option IntOrString) : Field :=
  specField ["strategy"; "rollingUpdate"; "maxUnavailable"]%string (VOption VIntOrString maxUnavailable).
Definition DeploymentPatch_UpdateRecreateStrategy : list Field :=
  [specField ["strategy"; "type"]%string (VString RecreateDeploymentStrategyType);
   specField ["strategy"; "rollingUpdate"]%string VNull].

(** A marshalled [DeploymentStrategy]: empty fields are left out. *)
Definition DeploymentPatch_UpdateStrategy (type : string) (ru : option RollingUpdateDeployment)
    : list Field :=
  let at_ path v := specField ("strategy" :: path)%string v in
  (at_ ["type"%string] (VString type)
   :: match ru with
      | None => []
      | Some ru =>
          match ru_MaxUnavailable ru, ru_MaxSurge ru with
          | None, None => [at_ ["rollingUpdate"%string] VEmpty]
          | u, s =>
              option_list (option_map (fun v => at_ ["rollingUpdate"; "maxUnavailable"]%string (VIntOrString v)) u)
              ++ option_list (option_map (fun v => at_ ["rollingUpdate"; "maxSurge"]%string (VIntOrString v)) s)
          end
      end)%list.

Definition updateStrategyField (path : list string) (v : FieldValue) : Field :=
  specField ("updateStrategy"%string :: path) v.
Definition ClonesetPatch_UpdateMinReadySeconds (seconds : Z) : Field :=
  specField ["minReadySeconds"%string] (VInt seconds).
Definition ClonesetPatch_UpdatePaused (paused : bool) : Field :=
  updateStrategyField ["paused"%string] (VBool paused).
Definition ClonesetPatch_UpdatePartiton (partition : option IntOrString) : Field :=
  updateStrategyField ["partition"%string] (VOption VIntOrString partition).
Definition ClonesetPatch_UpdateMaxSurge (maxSurge : option IntOrString) : Field :=
  updateStrategyField ["maxSurge"%string] (VOption VIntOrString maxSurge).
Definition ClonesetPatch_UpdateMaxUnavailable (maxUnavailable : option IntOrString) : Field :=
  updateStrategyField ["maxUnavailable"%string] (VOption VIntOrString maxUnavailable).

(** ** Calls whose answer is decoded into an object *)

(** [client.Patch], with the object as the server has it afterwards. *)
Class PatchInto (W O : Type) := api_PatchInto : ObjectMeta -> RawPatch -> M W O.
(** [client.Create] of an object without a name but with a [GenerateName]. *)
Class GenerateApi (W O : Type) := api_Generate : string -> O -> M W O.

(** ** Waiting for a Deployment (canarystyle/deployment/stable.go, bluegreenstyle/deployment/control.go) *)

Definition waitAllUpdatedAndReady `{K8sLib} (deployment : Deployment) : res unit :=
  if dep_Paused deployment then Err (ErrOther "promote error: deployment should not be paused") else
  let created := ds_Replicas (dep_Status deployment) in
  let updated := ds_UpdatedReplicas (dep_Status deployment) in
  if decide (created <> updated) then Err (ErrOther "promote error: all replicas should be upgraded") else
  let available := ds_AvailableReplicas (dep_Status deployment) in
  res_bind (DeploymentMaxUnavailable deployment) (fun allowedUnavailable =>
  if decide (wrap32 (allowedUnavailable + available) < created)
  then Err (ErrOther "promote error: ready replicas should satisfy maxUnavailable") else Ok tt).

(** ** The batch of the plan, and the limit it sets to a Deployment *)

Definition currentPlanBatch (release : BatchRelease) : res IntOrString :=
  res_map batch_CanaryReplicas
    (go_index (Batches (br_Plan release)) (CurrentBatch (br_CanaryStatus (br_Status release)))).

Definition replicasLimit `{K8sLib} (partition : IntOrString) (replicas : Z) : Z :=
  let replicaLimit := fst (GetScaledValueFromIntOrPercent (Some partition) replicas true) in
  let replicaLimit := Z.max (Z.min replicaLimit replicas) 0 in
  wrap32 (if bool_decide (replicas > 1)
             && match partition with FromString s => negb (String.eqb s "100%") | FromInt _ => false end
          then Z.min replicaLimit (replicas - 1) else replicaLimit).
(** Nil replicas panic. *)
Definition NewRSReplicasLimit `{K8sLib} (partition : IntOrString) (deployment : Deployment) : res Z :=
  res_map (replicasLimit partition) (deref (dep_Replicas deployment)).
