(* ===== verification/PartitionControls.v ===== *)
(** * Controllers of the partition style (control/partitionstyle/...)

    The controllers of CloneSets, StatefulSets, DaemonSets of both kinds and advanced
    Deployments.  [BuildController] keeps the object it has read for the rest of a
    reconciliation; here every build reads, and a client that repeats its first answer
    is one of those the model allows. *)

From S2P Require Export WorkloadControl.

Definition MaxInt16 : Z := 32767.

(** What a controller holds once it is built. *)
Record realController (O : Type) := mkReal {
  rc_object : O;
  rc_WorkloadInfo : WorkloadInfo;
  rc_pods : option (list Pod)
}.
Arguments mkReal {O}.
Arguments rc_object {O}.
Arguments rc_WorkloadInfo {O}.
Arguments rc_pods {O}.

(** [intstr.IntOrString.String] *)
Definition IntOrString_String (x : IntOrString) : string :=
  match x with FromInt n => itoa n | FromString s => s end.
(** The field [IntVal], zero in a string. *)
Definition IntVal (x : IntOrString) : Z := match x with FromInt n => n | FromString _ => 0 end.

(** [strconv.Unquote] *)
Class Unquoter := Unquote : string -> option string.

(** The batch annotation of native DaemonSets (parse_utils.go). *)
Definition DaemonSetOriginalUpdateStrategy : string :=
  "rollouts.kruise.io/daemonset-original-update-strategy".

Record DaemonSetAdvancedControlInfo := mkAdvancedControl {
  dac_Partition : string;
  dac_BatchRevision : string
}.

Definition ParseDaemonSetAdvancedControl `{Json DaemonSetAdvancedControlInfo}
    (annotations : option (gmap string string)) : string * string :=
  let controlStr := mapget (default ∅ annotations) DaemonSetAdvancedControlAnnotation in
  if String.eqb controlStr "" then (""%string, ""%string) else
  match Unmarshal controlStr with
  | Some info => (dac_Partition info, dac_BatchRevision info)
  | None => (""%string, ""%string)
  end.

(** On a nil map nothing is set. *)
Definition SetDaemonSetAdvancedControl `{Json DaemonSetAdvancedControlInfo}
    (annotations : option (gmap string string)) (partition batchRevision : string)
    : option (gmap string string) :=
  option_map (<[DaemonSetAdvancedControlAnnotation := Marshal (mkAdvancedControl partition batchRevision)]>)
    annotations.

(** ** Constants of advanced Deployments (deployment_types.go) *)

Definition AdvancedDeploymentControlLabel : string := "rollouts.kruise.io/controlled-by-advanced-deployment-controller".
Definition PartitionStyle : string := "Partition".

(** ** The numbers of a batch *)

Record BatchNumbers := mkNumbers {
  plannedUpdate : Z;
  desiredUpdate : Z;
  desiredStable : Z
}.

(** The opening of every [CalculateBatchContext]: pods marked as not to be updated are
    left out of the batch and count as updated. *)
Definition batchNumbers `{K8sLib} (release : BatchRelease) (replicas : Z) : res BatchNumbers :=
  let status := br_CanaryStatus (br_Status release) in
  let currentBatch := CurrentBatch status in
  res_bind (CalculateBatchReplicas release replicas currentBatch) (fun planned =>
  let planned := wrap32 planned in
  let plain := Ok (mkNumbers planned planned (wrap32 (replicas - planned))) in
  match NoNeedUpdateReplicas status with
  | Some noNeedUpdate =>
      if decide (noNeedUpdate > 0) then
        let rest := wrap32 (replicas - noNeedUpdate) in
        res_bind (CalculateBatchReplicas release rest currentBatch) (fun desiredUpdateNew =>
        let stable := wrap32 (rest - wrap32 desiredUpdateNew) in
        Ok (mkNumbers planned (wrap32 (replicas - stable)) stable))
      else plain
  | None => plain
  end).

(** The rest of the context. *)
Definition newBatchContext {O} (rc : realController O) (release : BatchRelease) (updatedReady : Z)
    (numbers : BatchNumbers) (currentPartition desiredPartition : IntOrString)
    (filter : FilterFuncType) : BatchContext :=
  let status := br_CanaryStatus (br_Status release) in
  let info := wi_Status (rc_WorkloadInfo rc) in
  mkBatchContext (RolloutID (br_Plan release)) (CurrentBatch status)
    (br_UpdateRevision (br_Status release)) (wi_Replicas (rc_WorkloadInfo rc))
    (ws_UpdatedReplicas info) updatedReady (NoNeedUpdateReplicas status)
    (plannedUpdate numbers) (desiredUpdate numbers) currentPartition desiredPartition
    (FailureThreshold (br_Plan release)) (default [] (rc_pods rc))
    (match NoNeedUpdateReplicas status with Some _ => Some filter | None => None end)
    (FromInt 0) (FromInt 0).

(** A living pod of the revision that is ready. *)
Definition updatedReady (revision : string) (pod : Pod) : bool :=
  if deleting (pod_Meta pod) then false
  else if negb (IsConsistentWithRevision (Labels (pod_Meta pod)) revision) then false
  else IsPodReady pod.

Section controls.
Context {W : Type} `{Api W CloneSet} `{Api W KruiseDaemonSet} `{Api W DaemonSet} `{Api W Deployment}
  `{WorkloadClient W} `{ObjectReader W} `{ListApi W Pod} `{K8sLib} `{WorkloadFilter} `{StackDepth}
  `{MetaLib} `{TypeMeta} `{UnstructuredLib} `{TemplateHash} `{KeepPausedGate}.
Context `{Json OwnerReference} `{Json ObjectMeta} `{Json LabelSelector} `{Json IntOrString}
  `{Json DaemonSetRevisionInfo} `{Json DeploymentStrategy} `{Json DeploymentExtraStatus}
  `{Json DaemonSetAdvancedControlInfo} `{Unquoter}.

(** ** What the controllers share *)

(** A controller whose build failed: without summary, with nothing to finalize.  The
    control planes call nothing else of it. *)
Definition unbuiltController : PartitionController W :=
  mkPartition W None panic (fun _ => panic) (fun _ => panic) (fun _ => panic) (fun _ => ret tt) None None.

(** [BuildController]: the object, or the error next to the empty controller. *)
Definition buildFrom {O} (get : M W O) (build : O -> M W (PartitionController W * option goerror))
    : M W (PartitionController W * option goerror) :=
  r <- catch get ;;
  match r with
  | inr err => ret (unbuiltController, Some err)
  | inl object => build object
  end.

Definition rc_ListOwnedPods {O} (wrap : O -> WorkloadObject) (rc : realController O) : M W (list Pod) :=
  match rc_pods rc with
  | Some pods => ret pods
  | None => ListOwnedPods (wrap (rc_object rc))
  end.

(** The pods a context shows: listed when they have to be labelled. *)
Definition withPods {O} (wrap : O -> WorkloadObject) (rc : realController O) (release : BatchRelease)
    : M W (realController O) :=
  if nonempty (RolloutID (br_Plan release))
  then pods <- rc_ListOwnedPods wrap rc ;;
       ret (mkReal (rc_object rc) (rc_WorkloadInfo rc) (Some pods))
  else ret rc.

(** Kinds without a count of updated ready pods have them listed and counted. *)
Definition countUpdatedReady {O} (wrap : O -> WorkloadObject) (object : O) (info : WorkloadInfo)
    : M W (realController O + goerror) :=
  if decide (ws_UpdatedReadyReplicas (wi_Status info) <= 0) then
    r <- catch (ListOwnedPods (wrap object)) ;;
    ret match r with
        | inr err => inr err
        | inl pods =>
            let n := WrappedPodCount pods (updatedReady (ws_UpdateRevision (wi_Status info))) in
            inl (mkReal object
              (info <| wi_Status := (wi_Status info) <| ws_UpdatedReadyReplicas := wrap32 n |> |>) (Some pods))
        end
  else ret (inl (mkReal object info None)).

Definition buildCounted {O} (wrap : O -> WorkloadObject) (get : M W O)
    (controller : realController O -> PartitionController W)
    : M W (PartitionController W * option goerror) :=
  buildFrom get (fun object =>
    info <- lift (ParseWorkload (wrap object)) ;;
    r <- countUpdatedReady wrap object info ;;
    ret match r with
        | inr err => (unbuiltController, Some err)
        | inl rc => (controller rc, None)
        end).

Definition controlAnnotation (release : BatchRelease) : Field :=
  annotationField BatchReleaseControlAnnotation (VQuoted (BuildReleaseControlInfo release)).
Definition dropControlAnnotation : Field := annotationField BatchReleaseControlAnnotation VNull.

(** What is left at the end of a cancelled release under the feature gate. *)
Definition keepsPaused (release : BatchRelease) : bool :=
  KeepWorkloadPausedOnRolloutDeletion && negb (ShouldWaitResume release).

(** ** CloneSets *)

Definition cloneset_Initialize (object : CloneSet) (release : BatchRelease) : M W unit :=
  if IsControlledByBatchRelease release (clone_Meta object) then ret tt else
  api_Patch (O := CloneSet) (clone_Meta object) (PatchFields
    [controlAnnotation release; updateStrategyField ["paused"%string] (VBool false);
     updateStrategyField ["partition"%string] (VString "100%")]).

Definition cloneset_UpgradeBatch (object : CloneSet) (bc : BatchContext) : M W unit :=
  let partition := bc_DesiredPartition bc in
  let desired := match partition with
                 | FromInt n => n
                 | FromString _ => fst (GetScaledValueFromIntOrPercent (Some partition) (bc_Replicas bc) true)
                 end in
  let current := fst (GetScaledValueFromIntOrPercent (Some (bc_CurrentPartition bc)) (bc_Replicas bc) true) in
  if decide (current <= desired) then ret tt else
  api_Patch (O := CloneSet) (clone_Meta object)
    (PatchFields [updateStrategyField ["partition"%string] (VIntOrString partition)]).

Definition cloneset_Finalize (object : CloneSet) (release : BatchRelease) : M W unit :=
  let spec := match BatchPartition (br_Plan release) with
              | Some _ => []
              | None =>
                  if keepsPaused release then [updateStrategyField ["paused"%string] (VBool false)]
                  else [updateStrategyField ["partition"%string] VNull;
                        updateStrategyField ["paused"%string] (VBool false)]
              end in
  api_Patch (O := CloneSet) (clone_Meta object) (PatchFields (dropControlAnnotation :: spec)).

Definition cloneset_contextOf (rc : realController CloneSet) (release : BatchRelease) : res BatchContext :=
  let info := rc_WorkloadInfo rc in
  res_bind (batchNumbers release (wi_Replicas info)) (fun numbers =>
  res_bind (currentPlanBatch release) (fun batchPlan =>
  res_bind (match batchPlan with
            | FromInt _ => Ok (FromInt (desiredStable numbers))
            | FromString _ =>
                ParseIntegerAsPercentageIfPossible (desiredStable numbers) (wi_Replicas info) (Some batchPlan)
            end) (fun desiredPartition =>
  Ok (newBatchContext rc release (ws_UpdatedReadyReplicas (wi_Status info)) numbers
        (default (FromInt 0) (clone_Partition (rc_object rc))) desiredPartition
        FilterPodsForUnorderedUpdate)))).

Definition cloneset_CalculateBatchContext (rc : realController CloneSet) (release : BatchRelease)
    : M W BatchContext :=
  rc <- withPods OCloneSet rc release ;;
  lift (cloneset_contextOf rc release).

Definition cloneset_controller (rc : realController CloneSet) : PartitionController W :=
  mkPartition W (Some (rc_WorkloadInfo rc)) (rc_ListOwnedPods OCloneSet rc)
    (cloneset_CalculateBatchContext rc) (cloneset_Initialize (rc_object rc))
    (cloneset_UpgradeBatch (rc_object rc)) (cloneset_Finalize (rc_object rc)) None None.

Definition cloneset_BuildController (key : ObjectKey) : M W (PartitionController W * option goerror) :=
  buildFrom (api_Get (O := CloneSet) key) (fun object =>
    info <- lift (ParseWorkload (OCloneSet object)) ;;
    ret (cloneset_controller (mkReal object info None), None)).

(** ** StatefulSets of any kind *)

Section statefulset.
Variable gvk : GroupVersionKind.

Definition statefulset_Patch (object : WorkloadObject) (fields : list Field) : M W unit :=
  patchWorkload gvk (keyOf (objMeta object)) (PatchFields fields).

Definition rollingUpdateField (k : string) (v : FieldValue) : Field :=
  updateStrategyField ["rollingUpdate"%string; k] v.

Definition statefulset_Initialize (object : WorkloadObject) (release : BatchRelease) : M W unit :=
  if IsControlledByBatchRelease release (objMeta object) then ret tt else
  statefulset_Patch object
    [controlAnnotation release; rollingUpdateField "partition" (VInt MaxInt16);
     rollingUpdateField "paused" (VBool false)].

(** The partitions of a context that these controllers made are numbers. *)
Definition statefulset_UpgradeBatch (object : WorkloadObject) (bc : BatchContext) : M W unit :=
  let desired := IntVal (bc_DesiredPartition bc) in
  let current := IntVal (bc_CurrentPartition bc) in
  if decide (current <= desired) then ret tt else
  statefulset_Patch object [rollingUpdateField "partition" (VInt desired)].

Definition statefulset_Finalize (object : WorkloadObject) (release : BatchRelease) : M W unit :=
  let spec := match BatchPartition (br_Plan release) with
              | Some _ => []
              | None => if keepsPaused release then [] else [rollingUpdateField "partition" VNull]
              end in
  statefulset_Patch object (dropControlAnnotation :: spec).

(** An ordered update counts the marked pods, which have the lowest ordinals, as stable. *)
Definition orderedNumbers (noNeedUpdate : option Z) (unordered : bool) (replicas : Z)
    (numbers : BatchNumbers) : BatchNumbers :=
  match noNeedUpdate with
  | Some n =>
      if unordered then numbers else
      let stable := wrap32 (desiredStable numbers + n) in
      mkNumbers (plannedUpdate numbers) (wrap32 (wrap32 (replicas - stable) + n)) stable
  | None => numbers
  end.

Definition statefulset_contextOf (rc : realController WorkloadObject) (release : BatchRelease)
    : res BatchContext :=
  let info := rc_WorkloadInfo rc in
  res_bind (batchNumbers release (wi_Replicas info)) (fun numbers =>
  res_bind (IsStatefulSetUnorderedUpdate (rc_object rc)) (fun unorderedUpdate =>
  let numbers := orderedNumbers (NoNeedUpdateReplicas (br_CanaryStatus (br_Status release)))
                   unorderedUpdate (wi_Replicas info) numbers in
  res_bind (GetStatefulSetPartition (rc_object rc)) (fun currentPartition =>
  Ok (newBatchContext rc release (ws_UpdatedReadyReplicas (wi_Status info)) numbers
        (FromInt currentPartition) (FromInt (desiredStable numbers))
        (if unorderedUpdate : bool then FilterPodsForUnorderedUpdate else FilterPodsForOrderedUpdate))))).

Definition statefulset_CalculateBatchContext (rc : realController WorkloadObject) (release : BatchRelease)
    : M W BatchContext :=
  rc <- withPods id rc release ;;
  lift (statefulset_contextOf rc release).

Definition statefulset_controller (rc : realController WorkloadObject) : PartitionController W :=
  mkPartition W (Some (rc_WorkloadInfo rc)) (rc_ListOwnedPods id rc)
    (statefulset_CalculateBatchContext rc) (statefulset_Initialize (rc_object rc))
    (statefulset_UpgradeBatch (rc_object rc)) (statefulset_Finalize (rc_object rc)) None None.

(** The empty object of a kind that is not supported is nil, and reading into it panics. *)
Definition statefulset_BuildController (key : ObjectKey) : M W (PartitionController W * option goerror) :=
  match GetEmptyWorkloadObject gvk with
  | Some gvk => buildCounted id (getObject gvk key) statefulset_controller
  | None => panic
  end.
End statefulset.

(** ** Kruise DaemonSets *)

Definition daemonset_Patch (object : KruiseDaemonSet) (fields : list Field) : M W unit :=
  api_Patch (O := KruiseDaemonSet) (kds_Meta object) (PatchFields fields).

Definition daemonset_Initialize (rc : realController KruiseDaemonSet) (release : BatchRelease) : M W unit :=
  if IsControlledByBatchRelease release (kds_Meta (rc_object rc)) then ret tt else
  daemonset_Patch (rc_object rc)
    [controlAnnotation release; rollingUpdateField "paused" (VBool false);
     rollingUpdateField "partition" (VInt (wi_Replicas (rc_WorkloadInfo rc)))].

Definition daemonset_UpgradeBatch (object : KruiseDaemonSet) (bc : BatchContext) : M W unit :=
  let desired := IntVal (bc_DesiredPartition bc) in
  let current := IntVal (bc_CurrentPartition bc) in
  if decide (current <= desired) then ret tt else
  daemonset_Patch object [rollingUpdateField "partition" (VInt desired)].

(** Whatever the finalizing policy. *)
Definition daemonset_Finalize (object : KruiseDaemonSet) (release : BatchRelease) : M W unit :=
  let spec := match BatchPartition (br_Plan release) with
              | Some _ => []
              | None =>
                  if KeepWorkloadPausedOnRolloutDeletion : bool
                  then [rollingUpdateField "paused" (VBool false)]
                  else [rollingUpdateField "partition" VNull; rollingUpdateField "paused" (VBool false)]
              end in
  daemonset_Patch object (dropControlAnnotation :: spec).

Definition stablePartition (numbers : BatchNumbers) : IntOrString :=
  if decide (desiredStable numbers <= 0) then FromInt 0 else FromInt (desiredStable numbers).

(** Without rolling-update parameters reading the partition panics. *)
Definition daemonset_contextOf (rc : realController KruiseDaemonSet) (release : BatchRelease)
    : res BatchContext :=
  let info := rc_WorkloadInfo rc in
  res_bind (batchNumbers release (wi_Replicas info)) (fun numbers =>
  res_bind (deref (kds_RollingUpdate (rc_object rc))) (fun rollingUpdate =>
  Ok (newBatchContext rc release (ws_UpdatedReadyReplicas (wi_Status info)) numbers
        (FromInt (default 0 (dsru_Partition rollingUpdate))) (stablePartition numbers)
        FilterPodsForUnorderedUpdate))).

Definition daemonset_CalculateBatchContext (rc : realController KruiseDaemonSet) (release : BatchRelease)
    : M W BatchContext :=
  rc <- withPods OKruiseDaemonSet rc release ;;
  lift (daemonset_contextOf rc release).

Definition daemonset_controller (rc : realController KruiseDaemonSet) : PartitionController W :=
  mkPartition W (Some (rc_WorkloadInfo rc)) (rc_ListOwnedPods OKruiseDaemonSet rc)
    (daemonset_CalculateBatchContext rc) (daemonset_Initialize rc)
    (daemonset_UpgradeBatch (rc_object rc)) (daemonset_Finalize (rc_object rc)) None None.

Definition daemonset_BuildController (key : ObjectKey) : M W (PartitionController W * option goerror) :=
  buildCounted OKruiseDaemonSet (api_Get (O := KruiseDaemonSet) key) daemonset_controller.

(** ** Native DaemonSets *)

Definition quoted (s : string) : string :=
  let quote := String (Ascii.ascii_of_nat 34) EmptyString in quote +:+ s +:+ quote.

Definition nativedaemonset_Patch (object : DaemonSet) (fields : list Field) : M W unit :=
  api_Patch (O := DaemonSet) (dst_Meta object) (PatchFields fields).

Definition nativedaemonset_Initialize (object : DaemonSet) (release : BatchRelease) : M W unit :=
  if IsControlledByBatchRelease release (dst_Meta object) then ret tt else
  match Unquote (quoted (BuildReleaseControlInfo release)) with
  | None => fail (ErrOther "failed to unescape owner info")
  | Some unescapedOwner =>
      nativedaemonset_Patch object
        [annotationField BatchReleaseControlAnnotation (VString unescapedOwner);
         updateStrategyField ["type"%string] (VString "OnDelete")]
  end.

(** The annotations are set in a new map and sent as a whole. *)
Definition patchBatchAnnotations (object : DaemonSet) (bc : BatchContext) : M W unit :=
  let annotations := SetDaemonSetAdvancedControl (Some ∅)
                       (IntOrString_String (bc_DesiredPartition bc)) (bc_UpdateRevision bc) in
  nativedaemonset_Patch object
    (map (fun kv => annotationField (fst kv) (VString (snd kv))) (map_to_list (default ∅ annotations))).

Definition nativedaemonset_UpgradeBatch (object : DaemonSet) (bc : BatchContext) : M W unit :=
  let '(currentPartitionStr, _) := ParseDaemonSetAdvancedControl (Annotations (dst_Meta object)) in
  if String.eqb currentPartitionStr (IntOrString_String (bc_DesiredPartition bc)) then ret tt
  else patchBatchAnnotations object bc.

(** The strategy type the DaemonSet had, [RollingUpdate] when it was not saved; an empty
    one is left out of the marshalled strategy. *)
Definition originalStrategyField (object : DaemonSet) : Field :=
  let t := default "RollingUpdate"%string
             (default ∅ (Annotations (dst_Meta object)) !! DaemonSetOriginalUpdateStrategy) in
  if String.eqb t "" then updateStrategyField [] VEmpty else updateStrategyField ["type"%string] (VString t).

Definition nativedaemonset_Finalize (object : DaemonSet) (release : BatchRelease) : M W unit :=
  let spec := match BatchPartition (br_Plan release) with
              | Some _ => []
              | None => if keepsPaused release then [] else [originalStrategyField object]
              end in
  nativedaemonset_Patch object
    (dropControlAnnotation :: annotationField DaemonSetRevisionAnnotation VNull
     :: annotationField DaemonSetAdvancedControlAnnotation VNull
     :: annotationField DaemonSetOriginalUpdateStrategy VNull :: spec).

Definition nativedaemonset_contextOf (rc : realController DaemonSet) (release : BatchRelease)
    : res BatchContext :=
  let info := rc_WorkloadInfo rc in
  let updatedReadyReplicas :=
    match rc_pods rc with
    | Some pods => wrap32 (WrappedPodCount pods (updatedReady (br_UpdateRevision (br_Status release))))
    | None => ws_UpdatedReadyReplicas (wi_Status info)
    end in
  res_bind (batchNumbers release (wi_Replicas info)) (fun numbers =>
  Ok (newBatchContext rc release updatedReadyReplicas numbers (FromInt 0) (stablePartition numbers)
        FilterPodsForUnorderedUpdate)).

Definition nativedaemonset_CalculateBatchContext (rc : realController DaemonSet) (release : BatchRelease)
    : M W BatchContext :=
  rc <- withPods ODaemonSet rc release ;;
  lift (nativedaemonset_contextOf rc release).

Definition nativedaemonset_controller (rc : realController DaemonSet) : PartitionController W :=
  mkPartition W (Some (rc_WorkloadInfo rc)) (rc_ListOwnedPods ODaemonSet rc)
    (nativedaemonset_CalculateBatchContext rc) (nativedaemonset_Initialize (rc_object rc))
    (nativedaemonset_UpgradeBatch (rc_object rc)) (nativedaemonset_Finalize (rc_object rc)) None None.

Definition nativedaemonset_BuildController (key : ObjectKey)
    : M W (PartitionController W * option goerror) :=
  buildCounted ODaemonSet (api_Get (O := DaemonSet) key) nativedaemonset_controller.

(** ** Advanced Deployments *)

(** [SetDefaultDeploymentStrategy]; the parameters it completes may be those of the
    Deployment that was read, which is not used again. *)
Definition SetDefaultDeploymentStrategy (strategy : DeploymentStrategy) : DeploymentStrategy :=
  if negb (String.eqb (dstr_RollingStyle strategy) PartitionStyle) then strategy else
  let ru := default (mkRollingUpdate None None) (dstr_RollingUpdate strategy) in
  let maxUnavailable := default (FromString "25%") (ru_MaxUnavailable ru) in
  let maxSurge := default (FromString "25%") (ru_MaxSurge ru) in
  let scaled v := fst (GetScaledValueFromIntOrPercent (Some v) 100 true) in
  strategy <| dstr_RollingUpdate := Some
    (if bool_decide (scaled maxSurge = 0) && bool_decide (scaled maxUnavailable = 0)
     then mkRollingUpdate (Some (FromInt 1)) (Some (FromInt 0))
     else mkRollingUpdate (Some maxUnavailable) (Some maxSurge)) |>.

Definition deployment_Patch (object : Deployment) (fields : list Field) : M W unit :=
  api_Patch (O := Deployment) (dep_Meta object) (PatchFields fields).

Definition deployment_Initialize (object : Deployment) (release : BatchRelease) : M W unit :=
  if IsUnderRolloutControl object then ret tt else
  let rollingUpdate := match dep_RollingUpdate object with
                       | Some ru => Some ru
                       | None => dstr_RollingUpdate (GetDeploymentStrategy object)
                       end in
  let strategy := SetDefaultDeploymentStrategy
                    (mkDeploymentStrategy PartitionStyle rollingUpdate false (FromInt 0)) in
  deployment_Patch object
    (InsertLabel AdvancedDeploymentControlLabel "true"
     :: InsertAnnotation DeploymentStrategyAnnotation (Marshal strategy)
     :: InsertAnnotation BatchReleaseControlAnnotation (Marshal (releaseControllerRef release))
     :: DeploymentPatch_UpdatePaused true :: DeploymentPatch_UpdateRecreateStrategy).

Definition deployment_UpgradeBatch (object : Deployment) (bc : BatchContext) : M W unit :=
  if negb (IsUnderRolloutControl object) then ret tt else
  let strategy := GetDeploymentStrategy object in
  if IsCurrentMoreThanOrEqualToDesired (dstr_Partition strategy) (bc_DesiredPartition bc) then ret tt else
  deployment_Patch object [InsertAnnotation DeploymentStrategyAnnotation
    (Marshal (strategy <| dstr_Partition := bc_DesiredPartition bc |>))].

Definition deployment_Finalize (object : Deployment) (release : BatchRelease) : M W unit :=
  let isUnderRolloutControl :=
    nonempty (annotation (dep_Meta object) BatchReleaseControlAnnotation) && dep_Paused object in
  if negb isUnderRolloutControl then ret tt else
  let spec := match BatchPartition (br_Plan release) with
              | Some _ => []
              | None =>
                  (DeploymentPatch_UpdatePaused (keepsPaused release)
                   :: (if String.eqb (dep_StrategyType object) RecreateDeploymentStrategyType
                       then DeploymentPatch_UpdateStrategy RollingUpdateDeploymentStrategyType
                              (dstr_RollingUpdate (GetDeploymentStrategy object))
                       else [])
                   ++ [DeleteAnnotation DeploymentStrategyAnnotation;
                       DeleteAnnotation DeploymentExtraStatusAnnotation;
                       DeleteLabel DeploymentStableRevisionLabel;
                       DeleteLabel AdvancedDeploymentControlLabel])%list
              end in
  deployment_Patch object (spec ++ [DeleteAnnotation BatchReleaseControlAnnotation])%list.

Definition deployment_contextOf (rc : realController Deployment) (release : BatchRelease)
    : res BatchContext :=
  let status := br_CanaryStatus (br_Status release) in
  let info := wi_Status (rc_WorkloadInfo rc) in
  res_bind (currentPlanBatch release) (fun desiredPartition =>
  res_bind (NewRSReplicasLimit desiredPartition (rc_object rc)) (fun planned =>
  Ok (mkBatchContext (RolloutID (br_Plan release)) (CurrentBatch status)
        (br_UpdateRevision (br_Status release)) (wi_Replicas (rc_WorkloadInfo rc))
        (ws_UpdatedReplicas info) (ws_UpdatedReadyReplicas info) None planned planned
        (FromInt 0) desiredPartition (FailureThreshold (br_Plan release))
        (default [] (rc_pods rc)) None (FromInt 0) (FromInt 0)))).

Definition deployment_CalculateBatchContext (rc : realController Deployment) (release : BatchRelease)
    : M W BatchContext :=
  rc <- withPods ODeployment rc release ;;
  lift (deployment_contextOf rc release).

Definition deployment_getWorkloadInfo (d : Deployment) : res WorkloadInfo :=
  res_map (fun info => info <| wi_Status := (wi_Status info)
      <| ws_UpdatedReadyReplicas := dex_UpdatedReadyReplicas (GetDeploymentExtraStatus d) |>
      <| ws_StableRevision := mapget (Labels (dep_Meta d)) DeploymentStableRevisionLabel |> |>)
    (ParseWorkload (ODeployment d)).

Definition deployment_controller (rc : realController Deployment) : PartitionController W :=
  mkPartition W (Some (rc_WorkloadInfo rc)) (rc_ListOwnedPods ODeployment rc)
    (deployment_CalculateBatchContext rc) (deployment_Initialize (rc_object rc))
    (deployment_UpgradeBatch (rc_object rc)) (deployment_Finalize (rc_object rc)) None None.

Definition deployment_BuildController (key : ObjectKey) : M W (PartitionController W * option goerror) :=
  buildFrom (api_Get (O := Deployment) key) (fun object =>
    info <- lift (deployment_getWorkloadInfo object) ;;
    ret (deployment_controller (mkReal object info None), None)).
End controls.
