(* ===== verification/PartitionProofs.v ===== *)
(** * Properties of the partition-style controllers

    How many pods a batch lets the workload update, that an upgrade never takes pods
    back, and that a claimed workload is recognised. *)

From S2P Require Export PartitionControls.

(** ** The numbers of a batch *)

Section numbers.
Context `{K8sLib} `{!K8sLaws}.

(** The batch index is one of the plan. *)
Definition inPlan (release : BatchRelease) : Prop :=
  0 <= CurrentBatch (br_CanaryStatus (br_Status release)) < len (Batches (br_Plan release)).
Definition noNeedUpdateOf (release : BatchRelease) : Z :=
  Z.max 0 (default 0 (NoNeedUpdateReplicas (br_CanaryStatus (br_Status release)))).

Lemma CalculateBatchReplicas_total release replicas :
  inPlan release -> 0 <= replicas < 2 ^ 31 ->
  exists n, CalculateBatchReplicas release replicas (CurrentBatch (br_CanaryStatus (br_Status release))) = Ok n
  /\ 0 <= n <= replicas.
Proof.
  intros Hin Hr. unfold CalculateBatchReplicas.
  destruct (go_index_ok (Batches (br_Plan release)) _ Hin) as (batch & -> & _). simpl.
  eexists. split; [done|]. repeat case_decide; lia.
Qed.

(** What every context counts with: as many pods are planned as the batch is large, and
    the stable and the updated ones are all, the marked ones among the latter. *)
Lemma batchNumbers_total release replicas :
  inPlan release -> 0 <= replicas < 2 ^ 31 -> noNeedUpdateOf release <= replicas ->
  exists numbers, batchNumbers release replicas = Ok numbers
  /\ 0 <= plannedUpdate numbers <= replicas
  /\ CalculateBatchReplicas release replicas (CurrentBatch (br_CanaryStatus (br_Status release)))
     = Ok (plannedUpdate numbers)
  /\ noNeedUpdateOf release <= desiredUpdate numbers <= replicas
  /\ desiredStable numbers = replicas - desiredUpdate numbers
  /\ (noNeedUpdateOf release = 0 -> desiredUpdate numbers = plannedUpdate numbers).
Proof.
  intros Hin Hr Hn. unfold batchNumbers, noNeedUpdateOf in *.
  destruct (CalculateBatchReplicas_total release replicas Hin Hr) as (p & Ep & Hp). rewrite Ep. simpl.
  rewrite (wrap32_id p) by (unfold in32; lia).
  destruct (NoNeedUpdateReplicas _) as [n|]; simpl in *.
  2: { eexists. split; [done|]. simpl. rewrite wrap32_id by (unfold in32; lia). split_and!; try done; lia. }
  case_decide as Hpos.
  2: { eexists. split; [done|]. simpl. rewrite wrap32_id by (unfold in32; lia). split_and!; try done; lia. }
  rewrite (wrap32_id (replicas - n)) by (unfold in32; lia).
  destruct (CalculateBatchReplicas_total release (replicas - n) Hin ltac:(lia)) as (d & Ed & Hd).
  rewrite Ed. simpl. rewrite (wrap32_id d), (wrap32_id (replicas - n - d)), wrap32_id by (unfold in32; lia).
  eexists. split; [done|]. simpl. split_and!; try done; lia.
Qed.

(** How many pods keep the old revision under a partition. *)
Definition kept (partition : IntOrString) (replicas : Z) : Z :=
  fst (GetScaledValueFromIntOrPercent (Some partition) replicas true).

Lemma kept_int n replicas : kept (FromInt n) replicas = n.
Proof. unfold kept. by rewrite scaled_int. Qed.

(** The fallback to one percent, which keeps more pods than asked for. *)
Definition fallsBack (stable all : Z) (canary : IntOrString) : Prop :=
  0 < stable /\ 100 * stable < all /\ StrVal canary <> "100%"%string.
#[export] Instance fallsBack_dec stable all canary : Decision (fallsBack stable all canary).
Proof. unfold fallsBack. apply _. Defined.

(** The percentage chosen for a number of stable pods. *)
Lemma percentage_kept stable all canary :
  0 <= stable <= all -> 0 < all < 2 ^ 31 -> stable * 100 < 2 ^ 31 ->
  exists partition, ParseIntegerAsPercentageIfPossible stable all (Some canary) = Ok partition
  /\ (if decide (fallsBack stable all canary) then stable < kept partition all
      else kept partition all <= stable)
  /\ - all < 100 * (kept partition all - stable) < all + 100.
Proof.
  intros Hs Ha Hov. unfold ParseIntegerAsPercentageIfPossible, kept, fallsBack.
  destruct (decide (stable >= all)).
  { exists (FromString (itoa 100 +:+ "%")). split; [done|]. rewrite scaled_full. simpl.
    rewrite decide_False by lia. split; lia. }
  destruct (decide (stable <= 0)).
  { exists (FromString (itoa 0 +:+ "%")). split; [done|]. rewrite scaled_percent by lia. simpl.
    rewrite decide_False by lia. rewrite <- (Z.div_unique (all * 0 + 99) 100 0 99) by lia. split; lia. }
  rewrite wrap32_id by (unfold in32; lia). rewrite Z.quot_div_nonneg by lia.
  pose proof (Z.div_mod (stable * 100) all ltac:(lia)) as Hdiv.
  pose proof (Z.mod_pos_bound (stable * 100) all ltac:(lia)) as Hmod.
  set (m := (stable * 100) mod all) in *. set (p := stable * 100 / all) in *.
  clearbody m p. assert (Hp : 0 <= p <= 100) by nia. cbv zeta.
  rewrite scaled_percent by lia. simpl.
  pose proof (Z.div_mod (all * p + 99) 100 ltac:(lia)).
  pose proof (Z.mod_pos_bound (all * p + 99) 100 ltac:(lia)).
  case_decide as Hr; simpl.
  - assert (p = 0) as -> by nia. destruct (String.eqb_spec (StrVal canary) "100%") as [Es|Es].
    + eexists. split; [done|]. rewrite scaled_percent by lia. simpl.
      rewrite decide_False by tauto. split; nia.
    + exists (FromString (itoa 1 +:+ "%")). split; [done|]. rewrite scaled_percent by lia. simpl.
      pose proof (Z.div_mod (all * 1 + 99) 100 ltac:(lia)).
      pose proof (Z.mod_pos_bound (all * 1 + 99) 100 ltac:(lia)).
      rewrite decide_True by (split_and!; [lia|nia|done]). split; nia.
  - assert (p <> 0) by (intros ->; rewrite Z.mul_0_r in Hr; by destruct Hr).
    eexists. split; [done|]. rewrite scaled_percent by lia. simpl.
    rewrite decide_False by (intros (_ & ? & _); nia). split; nia.
Qed.
(** Outside the fallback the percentage is the number of stable pods in hundredths of
    all, rounded down; the pods it keeps are less than one percent short. *)
Lemma percentage_exact stable all canary :
  0 <= stable <= all -> 0 < all < 2 ^ 31 -> stable * 100 < 2 ^ 31 ->
  exists p, ParseIntegerAsPercentageIfPossible stable all (Some canary)
              = Ok (FromString (itoa p +:+ "%"))
  /\ if decide (fallsBack stable all canary) then p = 1
     else 0 <= p <= 100 /\ p * all <= 100 * stable < (p + 1) * all
          /\ 0 <= 100 * (stable - kept (FromString (itoa p +:+ "%")) all) < all
          /\ (100 * stable = p * all -> kept (FromString (itoa p +:+ "%")) all = stable).
Proof.
  intros Hs Ha Hov. unfold ParseIntegerAsPercentageIfPossible, kept, fallsBack.
  destruct (decide (stable >= all)).
  { exists 100. split; [done|]. rewrite decide_False by lia. rewrite scaled_percent by lia. simpl.
    rewrite <- (Z.div_unique (all * 100 + 99) 100 all 99) by lia. lia. }
  destruct (decide (stable <= 0)).
  { exists 0. split; [done|]. rewrite decide_False by lia. rewrite scaled_percent by lia. simpl.
    rewrite <- (Z.div_unique (all * 0 + 99) 100 0 99) by lia. lia. }
  rewrite wrap32_id by (unfold in32; lia). rewrite Z.quot_div_nonneg by lia.
  pose proof (Z.div_mod (stable * 100) all ltac:(lia)) as Hdiv.
  pose proof (Z.mod_pos_bound (stable * 100) all ltac:(lia)) as Hmod.
  set (m := (stable * 100) mod all) in *. set (p := stable * 100 / all) in *.
  clearbody m p. assert (Hp : 0 <= p <= 100) by nia. cbv zeta.
  rewrite scaled_percent by lia. simpl.
  pose proof (Z.div_mod (all * p + 99) 100 ltac:(lia)).
  pose proof (Z.mod_pos_bound (all * p + 99) 100 ltac:(lia)).
  case_decide as Hr; simpl.
  - assert (p = 0) as -> by nia. destruct (String.eqb_spec (StrVal canary) "100%") as [Es|Es].
    + exists 0. split; [done|]. rewrite decide_False by tauto. rewrite scaled_percent by lia. simpl.
      split_and!; nia.
    + exists 1. split; [done|]. by rewrite decide_True by (split_and!; [lia|nia|done]).
  - assert (p <> 0) by (intros ->; rewrite Z.mul_0_r in Hr; by destruct Hr).
    exists p. split; [done|]. rewrite decide_False by (intros (_ & ? & _); nia).
    rewrite scaled_percent by lia. simpl. split_and!; nia.
Qed.
End numbers.

(** ** Batches of CloneSets *)

Section cloneset_batches.
Context `{K8sLib} `{!K8sLaws}.

Lemma currentPlanBatch_total release :
  inPlan release -> exists canary, currentPlanBatch release = Ok canary.
Proof.
  intros Hin. unfold currentPlanBatch. destruct (go_index_ok _ _ Hin) as (b & -> & _). by eexists.
Qed.

(** C23. How far a batch of a CloneSet goes.  For a batch given by a number the partition
    lets exactly the desired pods be updated.  For a percentage the partition is the
    share of the stable pods rounded down to whole percents: it lets at least the
    desired pods be updated and less than one percent of all more, and exactly the
    desired ones when that share is a whole number of percents.  Except that a stable
    part of less than one percent (99% of a workload whose size is over a hundred and no
    multiple of it, say) falls back to a partition of 1%, with which fewer pods than
    desired are ever updated, and the batch never counts as ready. *)
Theorem cloneset_batch_exposure (rc : realController CloneSet) (release : BatchRelease)
    (Hin : inPlan release) (Hreplicas : 0 <= wi_Replicas (rc_WorkloadInfo rc))
    (Hsmall : wi_Replicas (rc_WorkloadInfo rc) * 100 < 2 ^ 31)
    (Hmarked : noNeedUpdateOf release <= wi_Replicas (rc_WorkloadInfo rc)) :
  exists bc canary, cloneset_contextOf rc release = Ok bc /\ currentPlanBatch release = Ok canary
  /\ let replicas := wi_Replicas (rc_WorkloadInfo rc) in
     let desired := bc_DesiredUpdatedReplicas bc in
     let updated := replicas - kept (bc_DesiredPartition bc) replicas in
     noNeedUpdateOf release <= desired <= replicas
     /\ match canary with
        | FromInt _ => updated = desired
        | FromString _ =>
            if decide (fallsBack (replicas - desired) replicas canary)
            then bc_DesiredPartition bc = FromString "1%" /\ updated < desired
                 /\ (ws_UpdatedReplicas (wi_Status (rc_WorkloadInfo rc)) <= updated -> IsBatchReady bc <> Ok tt)
            else exists p, bc_DesiredPartition bc = FromString (itoa p +:+ "%") /\ 0 <= p <= 100
                 /\ (0 < replicas -> p * replicas <= 100 * (replicas - desired) < (p + 1) * replicas)
                 /\ desired <= updated
                 /\ (100 * (updated - desired) < replicas \/ updated = desired)
                 /\ ((100 * (replicas - desired)) mod Z.max 1 replicas = 0 -> updated = desired)
        end.
Proof.
  set (replicas := wi_Replicas (rc_WorkloadInfo rc)) in *.
  assert (Hnonneg : 0 <= noNeedUpdateOf release) by (unfold noNeedUpdateOf; lia).
  destruct (batchNumbers_total release replicas Hin ltac:(lia) Hmarked)
    as (numbers & En & Hp & _ & Hd & Hst & _).
  destruct (currentPlanBatch_total release Hin) as (canary & Ec).
  unfold cloneset_contextOf. fold replicas. rewrite En. simpl. rewrite Ec. simpl.
  destruct canary as [k|s].
  { eexists _, _. split; [done|]. split; [done|]. simpl. split; [done|]. rewrite kept_int. lia. }
  destruct (decide (replicas = 0)) as [E0|Hpos].
  { rewrite Hst, E0. unfold ParseIntegerAsPercentageIfPossible. rewrite decide_True by lia. simpl.
    eexists _, _. split; [done|]. split; [done|]. simpl. split; [lia|].
    rewrite decide_False by (unfold fallsBack; lia). exists 100. split; [done|].
    unfold kept. rewrite scaled_full. simpl. split_and!; try lia. }
  pose proof (percentage_kept (replicas - desiredUpdate numbers) replicas (FromString s)
    ltac:(lia) ltac:(lia) ltac:(lia)) as (partition & Epart & Hkept & _).
  pose proof (percentage_exact (replicas - desiredUpdate numbers) replicas (FromString s)
    ltac:(lia) ltac:(lia) ltac:(lia)) as (p & Epart' & Hexact).
  rewrite Epart' in Epart. injection Epart as <-.
  rewrite Hst, Epart'. simpl. eexists _, _. split; [done|]. split; [done|]. simpl. split; [done|].
  case_decide.
  - subst p. split; [done|]. split; [lia|]. intros Hupd Hready. unfold IsBatchReady in Hready.
    simpl in Hready. rewrite decide_True in Hready by lia. done.
  - destruct Hexact as (Hp100 & Hshare & Hclose & Hexact). exists p. split; [done|].
    split_and!; try lia. intros Hmod. rewrite Z.max_r in Hmod by lia.
    apply Z.mod_divide in Hmod as [q Hq]; [|lia]. assert (q = p) as -> by nia. rewrite Hexact; lia.
Qed.
End cloneset_batches.

(** ** Upgrades never take pods back *)

Section upgrades.
Context {W : Type} `{Api W CloneSet} `{Api W KruiseDaemonSet} `{Api W Deployment} `{WorkloadClient W}
  `{K8sLib} `{!K8sLaws} `{UnstructuredLib} `{Json DeploymentStrategy}.

(** What an upgrade does to a workload that keeps [current] pods: nothing when it keeps
    no more than the batch asks for, else one patch to a smaller number. *)
Definition upgrades (run : res unit * W) (w : W) (current desired : Z) (patched : res unit * W) : Prop :=
  if decide (current <= desired) then run = (Ok tt, w) else desired < current /\ run = patched.

Lemma cloneset_contextOf_fields (rc : realController CloneSet) release bc :
  cloneset_contextOf rc release = Ok bc ->
  bc_Replicas bc = wi_Replicas (rc_WorkloadInfo rc)
  /\ bc_CurrentPartition bc = default (FromInt 0) (clone_Partition (rc_object rc)).
Proof.
  unfold cloneset_contextOf. intros Hbc. apply res_bind_Ok in Hbc as (numbers & _ & Hbc).
  apply res_bind_Ok in Hbc as (batchPlan & _ & Hbc). by apply res_bind_Ok in Hbc as (p & _ & [= <-]).
Qed.

(** The percentages of a Deployment are compared at a fixed size. *)
Definition comparisonSize : Z := 10000000.

(** Upgrades never take pods back.  For the context it computed from the object it
    read, [UpgradeBatch] of a CloneSet, a StatefulSet and a Kruise DaemonSet leaves the
    workload alone unless the batch lets strictly more pods be updated than the workload
    does already, and then sends one patch, to the partition of the batch; that of an
    advanced Deployment, whose partition counts the updated pods, does so only while it
    is under control and the batch asks for more. *)
Theorem upgrade_never_reverts (release : BatchRelease) (gvk : GroupVersionKind) (bc : BatchContext) (w : W) :
  (forall rc : realController CloneSet, cloneset_contextOf rc release = Ok bc ->
     let replicas := wi_Replicas (rc_WorkloadInfo rc) in
     upgrades (cloneset_UpgradeBatch (rc_object rc) bc w) w
       (kept (default (FromInt 0) (clone_Partition (rc_object rc))) replicas)
       (kept (bc_DesiredPartition bc) replicas)
       (api_Patch (O := CloneSet) (clone_Meta (rc_object rc)) (PatchFields
          [updateStrategyField ["partition"%string] (VIntOrString (bc_DesiredPartition bc))]) w))
  /\ (forall rc : realController WorkloadObject, statefulset_contextOf rc release = Ok bc ->
     exists current desired, GetStatefulSetPartition (rc_object rc) = Ok current
     /\ bc_DesiredPartition bc = FromInt desired
     /\ upgrades (statefulset_UpgradeBatch gvk (rc_object rc) bc w) w current desired
          (patchWorkload gvk (keyOf (objMeta (rc_object rc))) (PatchFields
             [updateStrategyField ["rollingUpdate"; "partition"]%string (VInt desired)]) w))
  /\ (forall rc : realController KruiseDaemonSet, daemonset_contextOf rc release = Ok bc ->
     exists ru desired, kds_RollingUpdate (rc_object rc) = Some ru
     /\ bc_DesiredPartition bc = FromInt desired /\ 0 <= desired
     /\ upgrades (daemonset_UpgradeBatch (rc_object rc) bc w) w (default 0 (dsru_Partition ru)) desired
          (api_Patch (O := KruiseDaemonSet) (kds_Meta (rc_object rc)) (PatchFields
             [updateStrategyField ["rollingUpdate"; "partition"]%string (VInt desired)]) w))
  /\ (forall rc : realController Deployment, deployment_contextOf rc release = Ok bc ->
     let strategy := GetDeploymentStrategy (rc_object rc) in
     if IsUnderRolloutControl (rc_object rc) then
       upgrades (deployment_UpgradeBatch (rc_object rc) bc w) w
         (kept (bc_DesiredPartition bc) comparisonSize) (kept (dstr_Partition strategy) comparisonSize)
         (api_Patch (O := Deployment) (dep_Meta (rc_object rc)) (PatchFields
            [InsertAnnotation DeploymentStrategyAnnotation
               (Marshal (strategy <| dstr_Partition := bc_DesiredPartition bc |>))]) w)
     else deployment_UpgradeBatch (rc_object rc) bc w = (Ok tt, w)).
Proof.
  unfold upgrades. split_and!.
  - intros rc Hbc. set (replicas := wi_Replicas (rc_WorkloadInfo rc)). apply cloneset_contextOf_fields in Hbc as (Er & Ec).
    unfold cloneset_UpgradeBatch. rewrite Er, Ec. fold replicas.
    assert (E : match bc_DesiredPartition bc with
                | FromInt n => n
                | FromString _ => fst (GetScaledValueFromIntOrPercent (Some (bc_DesiredPartition bc)) replicas true)
                end = kept (bc_DesiredPartition bc) replicas).
    { destruct (bc_DesiredPartition bc); [by rewrite kept_int|done]. }
    cbv zeta. rewrite E. fold (kept (default (FromInt 0) (clone_Partition (rc_object rc))) replicas).
    case_decide; split; done || lia.
  - intros rc Hbc. unfold statefulset_contextOf in Hbc.
    apply res_bind_Ok in Hbc as (numbers & _ & Hbc). apply res_bind_Ok in Hbc as (unordered & _ & Hbc).
    apply res_bind_Ok in Hbc as (current & Ec & [= <-]). simpl.
    eexists current, _. split; [done|]. split; [done|]. unfold statefulset_UpgradeBatch. simpl.
    case_decide; split; done || lia.
  - intros rc Hbc. unfold daemonset_contextOf in Hbc.
    apply res_bind_Ok in Hbc as (numbers & _ & Hbc).
    apply res_bind_Ok in Hbc as (ru & Eru%deref_Ok & [= <-]). simpl.
    unfold daemonset_UpgradeBatch, stablePartition. simpl.
    case_decide; eexists ru, _; (split; [done|]; split; [done|]; split; [lia|]); simpl;
      case_decide; split; done || lia.
  - intros rc Hbc. set (strategy := GetDeploymentStrategy (rc_object rc)). unfold deployment_UpgradeBatch. destruct (IsUnderRolloutControl _); simpl; [|done].
    unfold IsCurrentMoreThanOrEqualToDesired. fold strategy comparisonSize.
    unfold kept. case_decide.
    + by rewrite bool_decide_eq_true_2 by lia.
    + rewrite bool_decide_eq_false_2 by lia. split; [lia|done].
Qed.
End upgrades.

(** ** A claim is recognised *)

Section claims.
Context {W : Type} `{Api W CloneSet} `{Api W KruiseDaemonSet} `{WorkloadClient W}
  `{UnstructuredLib} `{MetaLib} `{TypeMeta} `{JsonLaws OwnerReference}.

Definition isChar (n : nat) (c : Ascii.ascii) : bool := Nat.eqb (Ascii.nat_of_ascii c) n.

(** The string a JSON literal stands for, by the text between its quotes, as far as it
    escapes quotes and backslashes only. *)
Fixpoint decodeLiteral (s : string) : option string :=
  match s with
  | EmptyString => Some EmptyString
  | String c rest =>
      if isChar 92 c then
        match rest with
        | String c' rest' =>
            if isChar 34 c' || isChar 92 c' then String c' <$> decodeLiteral rest' else None
        | EmptyString => None
        end
      else if isChar 34 c then None else String c <$> decodeLiteral rest
  end.

Fixpoint noBackslash (s : string) : bool :=
  match s with EmptyString => true | String c rest => negb (isChar 92 c) && noBackslash rest end.

Lemma decode_escape s : noBackslash s = true -> decodeLiteral (escapeQuotes s) = Some s.
Proof.
  induction s as [|c s IH]; [done|]. intros [Hc%negb_true_iff Hs]%andb_true_iff.
  cbn [escapeQuotes]. fold (isChar 34 c). destruct (isChar 34 c) eqn:Eq.
  - cbn [decodeLiteral]. change (isChar 92 (Ascii.ascii_of_nat 92)) with true. simpl.
    by rewrite Eq, (IH Hs).
  - cbn [decodeLiteral]. by rewrite Hc, Eq, (IH Hs).
Qed.

(** A claim is recognised.  Where the JSON of the controller reference has no
    backslash, the control info in the body of a patch is the literal of that JSON; a
    workload that carries it is seen as controlled by this release, so that
    initializing it again sends nothing, and by no release with another UID. *)
Theorem claim_recognised (release : BatchRelease) (object : ObjectMeta)
    (Hjson : noBackslash (Marshal (releaseControllerRef release)) = true)
    (Hstored : decodeLiteral (BuildReleaseControlInfo release)
               = Some (annotation object BatchReleaseControlAnnotation))
    (Hnonempty : annotation object BatchReleaseControlAnnotation <> ""%string) :
  annotation object BatchReleaseControlAnnotation = Marshal (releaseControllerRef release)
  /\ IsControlledByBatchRelease release object = true
  /\ (forall other, UID (br_Meta other) <> UID (br_Meta release) -> GetControllerOf object = None ->
        IsControlledByBatchRelease other object = false)
  /\ forall w : W,
     (forall o, clone_Meta o = object -> cloneset_Initialize o release w = (Ok tt, w))
     /\ (forall gvk o, objMeta o = object -> statefulset_Initialize gvk o release w = (Ok tt, w))
     /\ (forall rc, kds_Meta (rc_object rc) = object -> daemonset_Initialize rc release w = (Ok tt, w)).
Proof.
  unfold BuildReleaseControlInfo in Hstored. rewrite (decode_escape _ Hjson) in Hstored.
  injection Hstored as Hann. symmetry in Hann.
  assert (Huid : or_UID (releaseControllerRef release) = UID (br_Meta release)).
  { unfold releaseControllerRef. by destruct (ReleaseTypeMeta release). }
  assert (Hctl : IsControlledByBatchRelease release object = true).
  { unfold IsControlledByBatchRelease. apply orb_true_iff. right. unfold nonempty.
    rewrite (proj2 (String.eqb_neq _ _) Hnonempty). simpl. rewrite Hann, unmarshal_marshal, Huid.
    apply String.eqb_refl. }
  split; [done|]. split; [done|]. split.
  - intros other Hne Hnone. unfold IsControlledByBatchRelease. rewrite Hnone. simpl.
    rewrite Hann, unmarshal_marshal, Huid, (proj2 (String.eqb_neq _ _)) by done. apply andb_false_r.
  - intros w. unfold cloneset_Initialize, statefulset_Initialize, daemonset_Initialize.
    split_and!; intros; subst; by rewrite Hctl.
Qed.
End claims.
