(* ===== verification/MinReady.v ===== *)
(** * The MinReadySeconds strategy (pkg/util/minready, partitionstyle/deployment: minready_*.go, partitionstyle/strategy_status.go)

    A Deployment released in batches without the advanced controller: its readiness
    period is made unreachable, so that [maxUnavailable] counts the new pods, and the
    controller moves that number with the pods that are ready.  What the user had is kept
    in three annotations. *)

From S2P Require Export PartitionControls.

(** ** Saved strategies (util/minready/deployment.go) *)

Definition AnnotationOriginalMinReadySeconds : string := "rollouts.kruise.io/original-min-ready-seconds".
Definition AnnotationOriginalProgressDeadlineSeconds : string :=
  "rollouts.kruise.io/original-progress-deadline-seconds".
Definition AnnotationOriginalMaxUnavailable : string := "rollouts.kruise.io/original-max-unavailable".
Definition DefaultProgressDeadlineSeconds : Z := 600.
Definition DefaultMaxUnavailable : string := "25%".
Definition InflatedMinReadySeconds : Z := MaxReadySeconds.
Definition InflatedProgressDeadlineSeconds : Z := MaxProgressSeconds.

(** [strconv.ParseInt(s, 10, 32)] and [intstr.Parse]. *)
Class ParseLib := {
  ParseInt32 : string -> option Z;
  IntStrParse : string -> IntOrString
}.
Class ParseLaws `{ParseLib} := {
  ParseInt32_itoa n : in32 n -> ParseInt32 (itoa n) = Some n;
  IntStrParse_itoa n : in32 n -> IntStrParse (itoa n) = FromInt n;
  IntStrParse_percent p : IntStrParse (itoa p +:+ "%") = FromString (itoa p +:+ "%")
}.

Record MinReadyStrategy := mkMinReady {
  mr_MinReadySeconds : option Z;
  mr_ProgressDeadlineSeconds : option Z;
  mr_MaxUnavailable : option IntOrString
}.

Definition SerializeOriginalInt32 (value : option Z) (defaultValue : Z) : string :=
  itoa (default defaultValue value).
Definition SerializeOriginalIntOrString (value : option IntOrString) (defaultValue : string) : string :=
  match value with Some v => IntOrString_String v | None => defaultValue end.

(** The errors of the parser all wrap the sentinel of an invalid annotation. *)
Definition ErrMinReadyAnnotationInvalid (msg : string) : goerror :=
  ErrMarked "original annotation invalid" msg.
Definition ErrMinReadyDriftDetected (msg : string) : goerror :=
  ErrMarked "MinReadyDegradedDriftDetected" msg.
Definition ErrMinReadyFeatureGateDisabled (msg : string) : goerror :=
  ErrMarked "feature gate is disabled" msg.

Section saved.
Context `{K8sLib} `{ParseLib}.

Definition ParseOriginalIntOrString (raw : string) : option IntOrString :=
  let value := IntStrParse raw in
  match value with
  | FromString _ =>
      match GetScaledValueFromIntOrPercent (Some value) 1 true with
      | (_, Some _) => None
      | (_, None) => Some value
      end
  | FromInt _ => Some value
  end.

Definition originalAnnotationValue (annotations : option (gmap string string)) (key : string)
    : res string :=
  match default ∅ annotations !! key with
  | None => Err (ErrMinReadyAnnotationInvalid ("annotation " +:+ key +:+ " missing"))
  | Some raw =>
      if String.eqb raw ""
      then Err (ErrMinReadyAnnotationInvalid ("annotation " +:+ key +:+ " present but empty"))
      else Ok raw
  end.

Definition parsedAnnotation {A} (annotations : option (gmap string string)) (key : string)
    (parse : string -> option A) (what : string) : res A :=
  res_bind (originalAnnotationValue annotations key) (fun raw =>
  match parse raw with
  | Some value => Ok value
  | None => Err (ErrMinReadyAnnotationInvalid ("annotation " +:+ key +:+ " malformed " +:+ what))
  end).

Definition ParseOriginalDeploymentStrategy (annotations : option (gmap string string))
    : res MinReadyStrategy :=
  res_bind (parsedAnnotation annotations AnnotationOriginalMinReadySeconds ParseInt32 "int32") (fun ready =>
  res_bind (parsedAnnotation annotations AnnotationOriginalProgressDeadlineSeconds ParseInt32 "int32")
    (fun deadline =>
  res_bind (parsedAnnotation annotations AnnotationOriginalMaxUnavailable ParseOriginalIntOrString
              "IntOrString") (fun maxUnavailable =>
  Ok (mkMinReady (Some ready) (Some deadline) (Some maxUnavailable))))).

Definition setDepAnnotation (k v : string) (d : Deployment) : Deployment :=
  d <| dep_Meta := (dep_Meta d) <| Annotations :=
    Some (<[k := v]> (default ∅ (Annotations (dep_Meta d)))) |> |>.

Definition WriteOriginalAvailabilityAnnotations (original modified : Deployment) : Deployment :=
  setDepAnnotation AnnotationOriginalProgressDeadlineSeconds
    (SerializeOriginalInt32 (dep_ProgressDeadlineSeconds original) DefaultProgressDeadlineSeconds)
    (setDepAnnotation AnnotationOriginalMinReadySeconds
       (SerializeOriginalInt32 (Some (dep_MinReadySeconds original)) 0) modified).

Definition OriginalMaxUnavailable (deployment : Deployment) : option IntOrString :=
  ru ← dep_RollingUpdate deployment; ru_MaxUnavailable ru.

Definition WriteOriginalMaxUnavailableAnnotation (original modified : Deployment) : Deployment :=
  setDepAnnotation AnnotationOriginalMaxUnavailable
    (SerializeOriginalIntOrString (OriginalMaxUnavailable original) DefaultMaxUnavailable) modified.

Definition WriteOriginalAnnotations (original modified : Deployment) : Deployment :=
  WriteOriginalMaxUnavailableAnnotation original (WriteOriginalAvailabilityAnnotations original modified).

Definition setMaxUnavailable (v : option IntOrString) (d : Deployment) : Deployment :=
  let ru := default (mkRollingUpdate None None) (dep_RollingUpdate d) in
  d <| dep_RollingUpdate := Some (ru <| ru_MaxUnavailable := v |>) |>.

Definition InflateDeploymentStrategy (d : Deployment) : Deployment :=
  setMaxUnavailable (Some (FromInt 0))
    (d <| dep_Paused := false |> <| dep_MinReadySeconds := InflatedMinReadySeconds |>
       <| dep_ProgressDeadlineSeconds := Some InflatedProgressDeadlineSeconds |>).

Definition ValidateDeploymentStrategyType (d : Deployment) : option string :=
  if String.eqb (dep_StrategyType d) RollingUpdateDeploymentStrategyType then None
  else Some ("deployment strategy type " +:+ dep_StrategyType d +:+ " is not RollingUpdate")%string.

(** The complaint about a Deployment that is not inflated, if there is one. *)
Definition ValidateInflatedDeploymentStrategy (d : Deployment) : option string :=
  match ValidateDeploymentStrategyType d with
  | Some msg => Some msg
  | None =>
      if dep_Paused d then Some "deployment is paused"%string
      else if decide (dep_MinReadySeconds d <> InflatedMinReadySeconds) then Some "minReadySeconds"%string
      else if decide (dep_ProgressDeadlineSeconds d <> Some InflatedProgressDeadlineSeconds)
      then Some "progressDeadlineSeconds"%string
      else match dep_RollingUpdate d with None => Some "rollingUpdate is nil"%string | Some _ => None end
  end.

Definition HasOriginalAvailabilityChange (d : Deployment) : bool :=
  if decide (dep_MinReadySeconds d <> InflatedMinReadySeconds) then true
  else bool_decide (dep_ProgressDeadlineSeconds d <> Some InflatedProgressDeadlineSeconds).

Definition ValidateRefreshableDeployment (d : Deployment) : option string :=
  if dep_Paused d then Some "deployment is paused"%string
  else match dep_RollingUpdate d with None => Some "rollingUpdate is nil"%string | Some _ => None end.

(** ** The pure parts of the controller (minready_control.go) *)

Definition drift (complaint : option string) : res unit :=
  match complaint with Some msg => Err (ErrMinReadyDriftDetected msg) | None => Ok tt end.

(** What is written into the copy [writeTarget] of the Deployment. *)
Definition prepareOriginalAnnotations (d writeTarget : Deployment) : res Deployment :=
  if negb (HasMinReadyOriginalAnnotations (dep_Meta d)) then Ok (WriteOriginalAnnotations d writeTarget) else
  res_bind (ParseOriginalDeploymentStrategy (Annotations (dep_Meta d))) (fun _ =>
  match drift (ValidateInflatedDeploymentStrategy d) with
  | Ok _ => Ok writeTarget
  | Panic => Panic
  | Err err =>
      if negb (HasOriginalAvailabilityChange d) then Err err else
      match ValidateRefreshableDeployment d with
      | Some msg => Err (ErrOther msg)
      | None => Ok (WriteOriginalAvailabilityAnnotations d writeTarget)
      end
  end).

Definition hasInflatedDeploymentFields (d : Deployment) : bool :=
  bool_decide (dep_MinReadySeconds d = InflatedMinReadySeconds)
  || bool_decide (dep_ProgressDeadlineSeconds d = Some InflatedProgressDeadlineSeconds).

Definition applyOriginalDeploymentStrategy (d : Deployment) (original : MinReadyStrategy) : Deployment :=
  let d := d <| dep_MinReadySeconds := default 0 (mr_MinReadySeconds original) |>
             <| dep_ProgressDeadlineSeconds := mr_ProgressDeadlineSeconds original |> in
  if bool_decide (mr_MaxUnavailable original = None)
     && bool_decide ((ru ← dep_RollingUpdate d; ru_MaxSurge ru) = None)
  then d <| dep_RollingUpdate := None |>
  else setMaxUnavailable (mr_MaxUnavailable original) d.

Definition originalMinReadySeconds (original : MinReadyStrategy) : Z :=
  default 0 (mr_MinReadySeconds original).

(** Pods count as available by the readiness period the user had. *)
Definition updatedAvailable (updateRevision : string) (minReadySeconds now : Z) (pod : Pod) : bool :=
  if negb (IsPodActive pod) then false
  else if negb (IsConsistentWithRevision (Labels (pod_Meta pod)) updateRevision) then false
  else match GetPodReadyCondition pod with
       | Some ready =>
           bool_decide (podc_Status ready = ConditionTrue)
           && bool_decide (podc_LastTransitionTime ready + minReadySeconds * Second <= now)
       | None => false
       end.
Definition countUpdatedAvailablePods (pods : list Pod) (updateRevision : string)
    (minReadySeconds now : Z) : Z :=
  wrap32 (WrappedPodCount pods (updatedAvailable updateRevision minReadySeconds now)).

Definition minReadyDesiredUpdatedReplicas (desired : IntOrString) (d : Deployment) : res Z :=
  match dep_Replicas d with
  | None => Err (ErrOther "deployment replicas is nil")
  | Some replicas =>
      match GetScaledValueFromIntOrPercent (Some desired) replicas true with
      | (_, Some err) => Err err
      | (target, None) =>
          if decide (target < 0) then Ok 0
          else if decide (target > replicas) then Ok (wrap32 replicas) else Ok (wrap32 target)
      end
  end.

Definition maxUnavailableStep (d : Deployment) (replicas : Z) : res Z :=
  res_bind (ParseOriginalDeploymentStrategy (Annotations (dep_Meta d))) (fun original =>
  let step := default (FromString DefaultMaxUnavailable) (mr_MaxUnavailable original) in
  let surge := default (FromInt 0) (ru ← dep_RollingUpdate d; ru_MaxSurge ru) in
  match GetScaledValueFromIntOrPercent (Some surge) replicas true with
  | (_, Some err) => Err err
  | (resolvedSurge, None) =>
      match GetScaledValueFromIntOrPercent (Some step) replicas false with
      | (_, Some err) => Err err
      | (resolvedUnavailable, None) =>
          Ok (if decide (resolvedSurge = 0 /\ resolvedUnavailable = 0) then 1 else resolvedUnavailable)
      end
  end).

(** The number to write, if any. *)
Definition nextMaxUnavailable (d : Deployment) (bc : BatchContext) : res (option Z) :=
  res_bind (deref (dep_RollingUpdate d)) (fun ru =>
  match GetScaledValueFromIntOrPercent (ru_MaxUnavailable ru) (bc_Replicas bc) true with
  | (_, Some err) => Err err
  | (current, None) =>
      let target := bc_DesiredUpdatedReplicas bc in
      if decide (wrap32 current >= target) then
        Ok (if decide (wrap32 current = target) then None else Some target)
      else
        res_bind (maxUnavailableStep d (bc_Replicas bc)) (fun step =>
        if decide (step < 0)
        then Err (ErrMinReadyAnnotationInvalid "original maxUnavailable resolved to negative") else
        let next := bc_UpdatedReadyReplicas bc + (if decide (step > 0) then step else 0) in
        Ok (if decide (next <= current) then None
            else Some (if decide (wrap32 next > target) then target else next)))
  end).
End saved.

(** ** The controller *)

(** [client.Patch] with [MergeFromWithOptimisticLock]: the change from one object to the
    other, refused when the server has another version; the answer is the object as it
    is afterwards. *)
Class MergeFromApi (W O : Type) := api_MergeFrom : O -> O -> M W O.

Section minready.
Context {W : Type} `{Clock W} `{Api W Deployment} `{MergeFromApi W Deployment} `{Retry W}
  `{ListApi W Pod} `{ObjectReader W} `{K8sLib} `{ParseLib} `{WorkloadFilter} `{StackDepth} `{MetaLib}
  `{TypeMeta} `{UnstructuredLib} `{TemplateHash} `{MinReadyGate} `{ErrorText}.
Context `{Json OwnerReference} `{Json ObjectMeta} `{Json LabelSelector} `{Json DaemonSetRevisionInfo}
  `{Json DeploymentExtraStatus}.
Abbreviation MD := (M (Deployment * W)).
Variable key : ObjectKey.

(** The methods work on the Deployment they hold, which they replace by fresh ones. *)
Definition mr_merge (modify : Deployment -> Deployment) : MD unit :=
  original <- getC ;;
  modified <- inWorld (api_MergeFrom original (modify original)) ;;
  modC (fun _ => modified).

Definition refreshDeployment : MD unit :=
  object <- inWorld (api_Get (O := Deployment) key) ;;
  lift (deployment_getWorkloadInfo object) ;;
  modC (fun _ => object).

Definition ensureInflatedDeploymentStrategy : MD unit :=
  d <- getC ;;
  lift (drift (ValidateDeploymentStrategyType d)) ;;
  match ValidateInflatedDeploymentStrategy d with
  | None => ret tt
  | Some _ => mr_merge InflateDeploymentStrategy
  end.

Definition patchMaxUnavailable (value : Z) : MD unit :=
  mr_merge (setMaxUnavailable (Some (FromInt value))).

Definition reconcileMaxUnavailable (bc : BatchContext) : MD unit :=
  refreshDeployment ;;
  d <- getC ;;
  next <- lift (nextMaxUnavailable d bc) ;;
  match next with
  | Some value => patchMaxUnavailable value
  | None => ret tt
  end.

Definition mr_UpgradeBatch (bc : BatchContext) : MD unit :=
  ensureInflatedDeploymentStrategy ;; reconcileMaxUnavailable bc.
Definition ReconcileMaxUnavailableDrift (bc : BatchContext) : MD unit :=
  ensureInflatedDeploymentStrategy ;; reconcileMaxUnavailable bc.

Definition ensureInitializeAllowed (d : Deployment) : res unit :=
  if negb MinReadySecondsStrategy && negb (HasMinReadyOriginalAnnotations (dep_Meta d))
  then Err (ErrMinReadyFeatureGateDisabled "MinReadySecondsStrategy")
  else drift (ValidateDeploymentStrategyType d).

(** The Deployment as [Initialize] wants it. *)
Definition initialized (release : BatchRelease) (d : Deployment) : res Deployment :=
  res_map (fun modified => InflateDeploymentStrategy
      (setDepAnnotation BatchReleaseControlAnnotation (Marshal (releaseControllerRef release)) modified))
    (prepareOriginalAnnotations d d).

Definition mr_Initialize (release : BatchRelease) : MD unit :=
  d <- getC ;;
  lift (ensureInitializeAllowed d) ;;
  modified <- lift (initialized release d) ;;
  inWorld (api_MergeFrom d modified) ;;
  ret tt.

Definition annotationsMissing : goerror :=
  ErrMinReadyAnnotationInvalid "annotation state missing while deployment fields are still inflated".

(** The Deployment without what the strategy changed. *)
Definition finalizedDeployment (d : Deployment) (original : MinReadyStrategy) : Deployment :=
  let d := applyOriginalDeploymentStrategy d original in
  let keys := (BatchReleaseControlAnnotation :: MinReadyOriginalAnnotations)%list in
  d <| dep_Meta := (dep_Meta d)
    <| Annotations := option_map (fun m => foldr delete m keys) (Annotations (dep_Meta d)) |>
    <| Labels := delete DeploymentStableRevisionLabel (Labels (dep_Meta d)) |> |>.

(** One attempt, on a fresh Deployment; one that is gone or going is done with. *)
Definition mr_finalizeOnce : M W unit :=
  r <- catch (api_Get (O := Deployment) key) ;;
  match r with
  | inr err => if IsNotFound err then ret tt else fail err
  | inl d =>
      lift (deployment_getWorkloadInfo d) ;;
      if deleting (dep_Meta d) then ret tt else
      if negb (HasMinReadyOriginalAnnotations (dep_Meta d)) then
        if hasInflatedDeploymentFields d then fail annotationsMissing else ret tt
      else
        original <- lift (ParseOriginalDeploymentStrategy (Annotations (dep_Meta d))) ;;
        p <- catch (api_MergeFrom d (finalizedDeployment d original)) ;;
        match p with
        | inr err => if IsNotFound err then ret tt else fail err
        | inl _ => ret tt
        end
  end.

Definition mr_Finalize (d : Deployment) (release : BatchRelease) : M W unit :=
  if negb (HasMinReadyOriginalAnnotations (dep_Meta d)) then
    if hasInflatedDeploymentFields d then fail annotationsMissing else ret tt
  else RetryOnConflict mr_finalizeOnce.

Definition mr_CalculateBatchContext (d : Deployment) (info : WorkloadInfo) (release : BatchRelease)
    : M W BatchContext :=
  let revision := br_UpdateRevision (br_Status release) in
  pods <- ListOwnedPods (ODeployment d) ;;
  desiredPartition <- lift (currentPlanBatch release) ;;
  desired <- lift (minReadyDesiredUpdatedReplicas desiredPartition d) ;;
  original <- lift (ParseOriginalDeploymentStrategy (Annotations (dep_Meta d))) ;;
  now <- time_Now ;;
  ret (mkBatchContext (RolloutID (br_Plan release)) (CurrentBatch (br_CanaryStatus (br_Status release)))
         revision (wi_Replicas info) (ds_UpdatedReplicas (dep_Status d))
         (countUpdatedAvailablePods pods revision (originalMinReadySeconds original) now)
         None desired desired (FromInt 0) desiredPartition (FailureThreshold (br_Plan release)) pods None
         (FromInt 0) (FromInt 0)).

(** ** Reporting (strategy_status.go)

    Events are left out; the metrics are kept apart, below, since nothing reads them. *)

Abbreviation MB := (M (BatchReleaseStatus * W)).

Definition setCondition (condType : RolloutConditionType) (status : ConditionStatus)
    (reason message : string) : MB bool :=
  condition <- inWorld (NewRolloutCondition condType status reason message) ;;
  s <- getC ;;
  modC (fun s => fst (SetBatchReleaseCondition s condition)) ;;
  ret (snd (SetBatchReleaseCondition s condition)).

Definition clearMinReadyDegraded : MB unit :=
  setCondition RolloutConditionStrategyDegraded ConditionFalse "MinReadyHealthy" "" ;; ret tt.

Definition setBRMessage (message : string) : MB unit := modC (fun s => s <| br_Message := message |>).

Definition RecordNormal (condType : RolloutConditionType) (reason message : string) : MB unit :=
  updated <- setCondition condType ConditionTrue reason message ;;
  if updated && String.eqb reason "MinReadyFinalized"
  then clearMinReadyDegraded ;; setBRMessage ""
  else ret tt.

Definition classifyMinReadyDegradedReason (fallback : string) (err : goerror) : string :=
  match err with
  | ErrMarked mark _ =>
      if String.eqb mark "feature gate is disabled" then "MinReadyFeatureGateDisabled"
      else if String.eqb mark "original annotation invalid" then "MinReadyDegradedMissingAnnotations"
      else if String.eqb mark "MinReadyDegradedDriftDetected" then "MinReadyDegradedDriftDetected"
      else fallback
  | _ => fallback
  end.

(** The same reason again is no new transition, but its message is kept up to date. *)
Definition RecordDegraded (reason : string) (err : goerror) : MB unit :=
  let message := errorText err in
  let eventReason := classifyMinReadyDegradedReason reason err in
  s <- getC ;;
  let sameDegradedReason :=
    match GetBatchReleaseCondition s RolloutConditionStrategyDegraded with
    | Some c => bool_decide (cond_Status c = ConditionTrue) && String.eqb (Reason c) eventReason
    | None => false
    end in
  updated <- setCondition RolloutConditionStrategyDegraded ConditionTrue eventReason message ;;
  if sameDegradedReason || updated then setBRMessage message else ret tt.

Definition mr_FailureReason (operation : StrategyOperation) : string :=
  match operation with
  | StrategyOperationInitialize => "MinReadyInitializeFailed"
  | StrategyOperationBatching => "MinReadyBatchingFailed"
  | StrategyOperationFinalize => "MinReadyFinalizeFailed"
  end.

Definition minReadyReporter : Reporter W := {|
  RecordZeroReplicaBatching := RecordNormal RolloutConditionStrategyBatching "MinReadyBatching"
    "MinReadySeconds strategy has no replicas to upgrade";
  RecordBatchAdvanced := RecordNormal RolloutConditionStrategyBatching "MinReadyBatching"
    "MinReadySeconds strategy advanced the current batch";
  RecordZeroReplicaBatchReady := RecordNormal RolloutConditionStrategyBatching "MinReadyBatchReady"
    "MinReadySeconds strategy batch is ready";
  RecordBatchReady := RecordNormal RolloutConditionStrategyBatching "MinReadyBatchReady"
    "MinReadySeconds strategy batch is ready";
  ObserveBatchWait := ret tt;
  RecordOperationFailed := RecordDegraded;
  RecordInitialized := RecordNormal RolloutConditionStrategyInitialized "MinReadyInitialized"
    "MinReadySeconds strategy initialized";
  RecordFinalized := RecordNormal RolloutConditionStrategyFinalized "MinReadyFinalized"
    "MinReadySeconds strategy finalized";
  FailureReason := mr_FailureReason
|}.

(** A method on the Deployment that was built; what it leaves is not used again. *)
Definition onObject {A} (d : Deployment) (m : MD A) : M W A :=
  fun w => let '(r, (_, w')) := m (d, w) in (r, w').

Definition minready_controller (rc : realController Deployment) : PartitionController W :=
  let d := rc_object rc in
  mkPartition W (Some (rc_WorkloadInfo rc)) (rc_ListOwnedPods ODeployment rc)
    (mr_CalculateBatchContext d (rc_WorkloadInfo rc))
    (fun release => onObject d (mr_Initialize release))
    (fun bc => onObject d (mr_UpgradeBatch bc)) (mr_Finalize d) (Some minReadyReporter)
    (Some (fun bc => onObject d (ReconcileMaxUnavailableDrift bc))).

(** A failed build returns no controller at all, and so reports nothing. *)
Definition minready_BuildController : M W (PartitionController W * option goerror) :=
  buildFrom (api_Get (O := Deployment) key) (fun object =>
    info <- lift (deployment_getWorkloadInfo object) ;;
    ret (minready_controller (mkReal object info None), None)).
End minready.

(** ** Metrics (metrics/minready_metrics.go, strategy_status.go)

    The registry of the process: counters, observed durations and a gauge, by name and
    namespace of the release and a label.  Durations are in nanoseconds. *)

Record MinReadyMetrics := mkMinReadyMetrics {
  minReadyBatchesTotal : gmap (string * string * string) Z;
  minReadyBatchDurationSeconds : gmap (string * string) (list Z);
  minReadyStuckSeconds : gmap (string * string * string) Z;
  minReadyDegradedTotal : gmap (string * string * string) Z
}.
#[export] Instance eta_MinReadyMetrics : Eta MinReadyMetrics := fun x =>
  mkMinReadyMetrics (minReadyBatchesTotal x) (minReadyBatchDurationSeconds x) (minReadyStuckSeconds x)
    (minReadyDegradedTotal x).

Definition BatchResultSuccess : string := "success".
Definition BatchResultStuck : string := "stuck".
Definition BatchResultDegraded : string := "degraded".
Definition DegradedReasonControllerError : string := "controller_error".
Definition DegradedReasonFeatureGateDisabled : string := "feature_gate_disabled".
Definition DegradedReasonGitOpsDrift : string := "gitops_drift".
Definition DegradedReasonMissingAnnotations : string := "missing_annotations".
Definition StuckReasonBatchReadyTimeout : string := "batch_ready_timeout".

(** The labels of a release. *)
Definition seriesOf (release : BatchRelease) : string * string :=
  (Name (br_Meta release), Namespace (br_Meta release)).

(** [WithLabelValues(...).Inc()] *)
Definition incremented (k : string * string * string) (m : gmap (string * string * string) Z) :=
  <[k := default 0 (m !! k) + 1]> m.

(** Every function does nothing for a nil release. *)
Definition RecordMinReadyBatch (release : option BatchRelease) (result : string) (m : MinReadyMetrics) : MinReadyMetrics :=
  match release with
  | None => m
  | Some r => m <| minReadyBatchesTotal := incremented (seriesOf r, result) (minReadyBatchesTotal m) |>
  end.
Definition ObserveMinReadyBatchDuration (release : option BatchRelease) (duration : Z) (m : MinReadyMetrics) : MinReadyMetrics :=
  match release with
  | None => m
  | Some r => m <| minReadyBatchDurationSeconds :=
      <[seriesOf r := duration :: default [] (minReadyBatchDurationSeconds m !! seriesOf r)]>
        (minReadyBatchDurationSeconds m) |>
  end.
Definition SetMinReadyStuckSeconds (release : option BatchRelease) (reason : string) (seconds : Z) (m : MinReadyMetrics)
    : MinReadyMetrics :=
  match release with
  | None => m
  | Some r => m <| minReadyStuckSeconds := <[(seriesOf r, reason) := seconds]> (minReadyStuckSeconds m) |>
  end.
Definition ClearMinReadyStuckSeconds (release : option BatchRelease) (reason : string) (m : MinReadyMetrics) : MinReadyMetrics :=
  match release with
  | None => m
  | Some r => m <| minReadyStuckSeconds := delete (seriesOf r, reason) (minReadyStuckSeconds m) |>
  end.
Definition RecordMinReadyDegraded (release : option BatchRelease) (reason : string) (m : MinReadyMetrics) : MinReadyMetrics :=
  match release with
  | None => m
  | Some r => m <| minReadyDegradedTotal := incremented (seriesOf r, reason) (minReadyDegradedTotal m) |>
  end.
Definition DeleteMinReadyMetrics (release : option BatchRelease) (m : MinReadyMetrics) : MinReadyMetrics :=
  match release with
  | None => m
  | Some r =>
      let without (labels : list string) (series : gmap (string * string * string) Z) :=
        foldr (fun label => delete (seriesOf r, label)) series labels in
      mkMinReadyMetrics
        (without [BatchResultSuccess; BatchResultStuck; BatchResultDegraded] (minReadyBatchesTotal m))
        (delete (seriesOf r) (minReadyBatchDurationSeconds m))
        (without [StuckReasonBatchReadyTimeout] (minReadyStuckSeconds m))
        (without [DegradedReasonControllerError; DegradedReasonFeatureGateDisabled; DegradedReasonGitOpsDrift;
                  DegradedReasonMissingAnnotations] (minReadyDegradedTotal m))
  end.

(** The zero [time.Time], the beginning of the year 1, counted from 1970. *)
Definition zeroTime : Z := - 62135596800 * Second.

(** The time since a condition was updated, unless it has none or lies in the future. *)
Definition sinceUpdate (release : option BatchRelease) (condition : option RolloutCondition) (now : Z)
    (record : Z -> MinReadyMetrics -> MinReadyMetrics) (m : MinReadyMetrics) : MinReadyMetrics :=
  match release, condition with
  | Some _, Some c =>
      if decide (LastUpdateTime c = zeroTime) then m
      else if decide (now - LastUpdateTime c < 0) then m else record (now - LastUpdateTime c) m
  | _, _ => m
  end.
Definition observeMinReadyBatchDuration (release : option BatchRelease) (condition : option RolloutCondition) (now : Z) :=
  sinceUpdate release condition now (ObserveMinReadyBatchDuration release).
Definition ObserveMinReadyBatchWait (release : option BatchRelease) (condition : option RolloutCondition) (now : Z) :=
  sinceUpdate release condition now (SetMinReadyStuckSeconds release StuckReasonBatchReadyTimeout).

(** What [RecordNormal] does to the metrics: [updated] tells whether the condition changed,
    [previous] is the one before. *)
Definition normalMetrics (release : option BatchRelease) (reason : string) (updated : bool)
    (previous : option RolloutCondition) (now : Z) (m : MinReadyMetrics) : MinReadyMetrics :=
  if negb updated then if String.eqb reason "MinReadyFinalized" then DeleteMinReadyMetrics release m else m else
  let m := if String.eqb reason "MinReadyFinalized" then DeleteMinReadyMetrics release m else m in
  let m := if String.eqb reason "MinReadyBatchReady"
           then RecordMinReadyBatch release BatchResultSuccess (observeMinReadyBatchDuration release previous now m)
           else m in
  if String.eqb reason "MinReadyBatchReady" || String.eqb reason "MinReadyFinalized"
  then ClearMinReadyStuckSeconds release StuckReasonBatchReadyTimeout m else m.

(** The metric label next to the event reason of [classifyMinReadyDegradedReason]. *)
Definition degradedMetric (err : goerror) : string :=
  match err with
  | ErrMarked mark _ =>
      if String.eqb mark "feature gate is disabled" then DegradedReasonFeatureGateDisabled
      else if String.eqb mark "original annotation invalid" then DegradedReasonMissingAnnotations
      else if String.eqb mark "MinReadyDegradedDriftDetected" then DegradedReasonGitOpsDrift
      else DegradedReasonControllerError
  | _ => DegradedReasonControllerError
  end.

(** What [RecordDegraded] does to the metrics. *)
Definition degradedMetrics (release : option BatchRelease) (err : goerror) (sameDegradedReason updated : bool)
    (m : MinReadyMetrics) : MinReadyMetrics :=
  if sameDegradedReason then ClearMinReadyStuckSeconds release StuckReasonBatchReadyTimeout m
  else if negb updated then m
  else RecordMinReadyDegraded release (degradedMetric err) (RecordMinReadyBatch release BatchResultDegraded
         (ClearMinReadyStuckSeconds release StuckReasonBatchReadyTimeout m)).

(** When the finalizer of a release is removed ([cleanupMinReadyMetricsOnFinalizerRemoval]). *)
Definition hasMinReadyStatusCondition (conditions : list RolloutCondition) : bool :=
  existsb (fun c => bool_decide (Type_ c ∈ [RolloutConditionStrategyInitialized; RolloutConditionStrategyBatching;
    RolloutConditionStrategyDegraded; RolloutConditionStrategyFinalized])) conditions.
Definition cleanupMinReadyMetricsOnFinalizerRemoval (release : BatchRelease) (m : MinReadyMetrics) : MinReadyMetrics :=
  if hasMinReadyStatusCondition (br_Conditions (br_Status release)) then DeleteMinReadyMetrics (Some release) m else m.
