(* ===== verification/MinReadyProofs.v ===== *)
(** * Properties of the MinReadySeconds strategy

    What initializing changes, finalizing restores; the budget of unavailable pods never
    runs ahead of the batch or of the pods that are ready; and the reports of the strategy
    leave the state machine of the batch release alone. *)

From stdpp Require Import pretty.
From S2P Require Export MinReady ControlPlaneProofs.

(** ** Restoring *)

Lemma pretty_N_go_nonempty x s : s <> ""%string -> pretty_N_go x s <> ""%string.
Proof.
  revert s. induction (N.lt_wf_0 x) as [x _ IH]; intros s Hs.
  destruct (decide (x = 0)%N) as [->|Hx]; [done|].
  rewrite pretty_N_go_step by lia. apply IH; [|done].
  apply N.div_lt; lia.
Qed.

Lemma itoa_nonempty n : itoa n <> ""%string.
Proof.
  destruct n as [|p|p]; [discriminate|..]; unfold itoa, pretty, pretty_Z; [|discriminate].
  unfold pretty, pretty_positive, pretty, pretty_N. case_decide; [done|].
  rewrite pretty_N_go_step by lia. by apply pretty_N_go_nonempty.
Qed.

Section restoring.
Context `{K8sLib} `{ParseLib} `{!K8sLaws} `{!ParseLaws}.

(** A budget as users write it: a number or a percentage. *)
Definition plainBudget (v : IntOrString) : Prop :=
  match v with
  | FromInt n => in32 n
  | FromString s => exists p, 0 <= p <= 100 /\ s = (itoa p +:+ "%")%string
  end.

Lemma IntStrParse_plain v : plainBudget v -> IntStrParse (IntOrString_String v) = v.
Proof.
  destruct v as [n|s]; simpl; [apply IntStrParse_itoa|].
  intros (p & _ & ->). apply IntStrParse_percent.
Qed.

Lemma ParseOriginalIntOrString_plain v :
  plainBudget v -> ParseOriginalIntOrString (IntOrString_String v) = Some v.
Proof.
  intros Hv. unfold ParseOriginalIntOrString. rewrite IntStrParse_plain by done.
  destruct v as [n|s]; [done|]. destruct Hv as (p & Hp & ->). by rewrite scaled_percent by lia.
Qed.

Lemma plain_nonempty v : plainBudget v -> IntOrString_String v <> ""%string.
Proof.
  destruct v as [n|s]; simpl; [intros _; apply itoa_nonempty|].
  intros (p & _ & ->) E. by destruct (itoa p).
Qed.

Lemma parsedAnnotation_found {A} (anns : gmap string string) key (parse : string -> option A) what raw value :
  anns !! key = Some raw -> raw <> ""%string -> parse raw = Some value ->
  parsedAnnotation (Some anns) key parse what = Ok value.
Proof.
  intros Hk Hne Hp. unfold parsedAnnotation, originalAnnotationValue. simpl. rewrite Hk.
  destruct (String.eqb_spec raw ""); [done|]. simpl. by rewrite Hp.
Qed.

(** What is parsed is what was written, with the defaults for what was not set. *)
Lemma ParseOriginal_written d (anns : gmap string string) :
  let plain := default (FromString DefaultMaxUnavailable) (OriginalMaxUnavailable d) in
  let deadline := default DefaultProgressDeadlineSeconds (dep_ProgressDeadlineSeconds d) in
  in32 (dep_MinReadySeconds d) -> in32 deadline -> plainBudget plain ->
  anns !! AnnotationOriginalMinReadySeconds = Some (itoa (dep_MinReadySeconds d)) ->
  anns !! AnnotationOriginalProgressDeadlineSeconds = Some (itoa deadline) ->
  anns !! AnnotationOriginalMaxUnavailable
    = Some (SerializeOriginalIntOrString (OriginalMaxUnavailable d) DefaultMaxUnavailable) ->
  ParseOriginalDeploymentStrategy (Some anns)
  = Ok (mkMinReady (Some (dep_MinReadySeconds d)) (Some deadline) (Some plain)).
Proof.
  intros plain deadline Hready Hdeadline Hplain E1 E2 E3. unfold ParseOriginalDeploymentStrategy.
  rewrite (parsedAnnotation_found _ _ _ _ _ (dep_MinReadySeconds d) E1 (itoa_nonempty _));
    [|by apply ParseInt32_itoa].
  simpl. rewrite (parsedAnnotation_found _ _ _ _ _ deadline E2 (itoa_nonempty _));
    [|by apply ParseInt32_itoa].
  assert (Ev : SerializeOriginalIntOrString (OriginalMaxUnavailable d) DefaultMaxUnavailable
               = IntOrString_String plain)
    by (unfold plain; by destruct (OriginalMaxUnavailable d)).
  simpl. rewrite Ev in E3.
  rewrite (parsedAnnotation_found _ _ _ _ _ plain E3 (plain_nonempty _ Hplain)); [done|].
  by apply ParseOriginalIntOrString_plain.
Qed.
End restoring.

Section roundtrip.
Context `{K8sLib} `{ParseLib} `{!K8sLaws} `{!ParseLaws} `{TypeMeta} `{Json OwnerReference}.

(** The Deployment once released: as it was, with the defaults of the API written out,
    not paused, and without the marks of the release. *)
Definition withDefaults (d : Deployment) : Deployment :=
  d <| dep_RollingUpdate := Some (mkRollingUpdate
         (Some (default (FromString DefaultMaxUnavailable) (OriginalMaxUnavailable d)))
         (ru ← dep_RollingUpdate d; ru_MaxSurge ru)) |>
    <| dep_ProgressDeadlineSeconds :=
         Some (default DefaultProgressDeadlineSeconds (dep_ProgressDeadlineSeconds d)) |>
    <| dep_Paused := false |>
    <| dep_Meta := (dep_Meta d)
         <| Annotations :=
              Some (delete BatchReleaseControlAnnotation (default ∅ (Annotations (dep_Meta d)))) |>
         <| Labels := delete DeploymentStableRevisionLabel (Labels (dep_Meta d)) |> |>.

Lemma deleted_marks (m : gmap string string) control ready deadline budget :
  m !! AnnotationOriginalMinReadySeconds = None ->
  m !! AnnotationOriginalProgressDeadlineSeconds = None ->
  m !! AnnotationOriginalMaxUnavailable = None ->
  foldr delete
    (<[BatchReleaseControlAnnotation := control]> (<[AnnotationOriginalMaxUnavailable := budget]>
      (<[AnnotationOriginalProgressDeadlineSeconds := deadline]>
        (<[AnnotationOriginalMinReadySeconds := ready]> m))))
    (BatchReleaseControlAnnotation :: MinReadyOriginalAnnotations)%list
  = delete BatchReleaseControlAnnotation m.
Proof.
  intros E1 E2 E3. apply map_eq. intros k. cbn [foldr MinReadyOriginalAnnotations].
  fold AnnotationOriginalMinReadySeconds AnnotationOriginalProgressDeadlineSeconds
    AnnotationOriginalMaxUnavailable.
  destruct (decide (k = BatchReleaseControlAnnotation)) as [->|Hk]; [by rewrite !lookup_delete_eq|].
  rewrite !(lookup_delete_ne _ BatchReleaseControlAnnotation) by done.
  destruct (decide (k = AnnotationOriginalMinReadySeconds)) as [->|Hk1];
    [by rewrite lookup_delete_eq, E1|].
  rewrite (lookup_delete_ne _ AnnotationOriginalMinReadySeconds) by done.
  destruct (decide (k = AnnotationOriginalProgressDeadlineSeconds)) as [->|Hk2];
    [by rewrite lookup_delete_eq, E2|].
  rewrite (lookup_delete_ne _ AnnotationOriginalProgressDeadlineSeconds) by done.
  destruct (decide (k = AnnotationOriginalMaxUnavailable)) as [->|Hk3];
    [by rewrite lookup_delete_eq, E3|].
  by rewrite lookup_delete_ne, !lookup_insert_ne by done.
Qed.

Lemma no_marks m k :
  HasMinReadyOriginalAnnotations m = false -> k ∈ MinReadyOriginalAnnotations ->
  default ∅ (Annotations m) !! k = None.
Proof.
  unfold HasMinReadyOriginalAnnotations. intros E Hk. apply not_true_iff_false in E.
  destruct (default ∅ (Annotations m) !! k) eqn:Ek; [|done]. destruct E.
  apply existsb_exists. exists k. split; [by apply list_elem_of_In|].
  unfold hasAnnotation. apply bool_decide_eq_true_2. by rewrite Ek.
Qed.

(** C26. Releasing a Deployment by MinReadySeconds and finalizing it is a round trip: a
    Deployment that carries no saved strategy can always be initialized, what was saved
    can always be parsed again, and what [Finalize] then writes is the Deployment as it was,
    with the API defaults of the progress deadline and of maxUnavailable written out, not
    paused, and without the annotations and the label of the release. *)
Theorem minready_roundtrip release d :
  HasMinReadyOriginalAnnotations (dep_Meta d) = false ->
  in32 (dep_MinReadySeconds d) ->
  in32 (default DefaultProgressDeadlineSeconds (dep_ProgressDeadlineSeconds d)) ->
  plainBudget (default (FromString DefaultMaxUnavailable) (OriginalMaxUnavailable d)) ->
  exists modified original,
    initialized release d = Ok modified
    /\ ValidateDeploymentStrategyType modified = ValidateDeploymentStrategyType d
    /\ ParseOriginalDeploymentStrategy (Annotations (dep_Meta modified)) = Ok original
    /\ finalizedDeployment modified original = withDefaults d.
Proof.
  intros Hno Hready Hdeadline Hplain.
  assert (Hmarks := fun k => no_marks _ k Hno).
  set (modified := InflateDeploymentStrategy (setDepAnnotation BatchReleaseControlAnnotation
    (Marshal (releaseControllerRef release)) (WriteOriginalAnnotations d d))).
  exists modified, (mkMinReady (Some (dep_MinReadySeconds d))
    (Some (default DefaultProgressDeadlineSeconds (dep_ProgressDeadlineSeconds d)))
    (Some (default (FromString DefaultMaxUnavailable) (OriginalMaxUnavailable d)))).
  repeat split.
  - unfold initialized, prepareOriginalAnnotations. by rewrite Hno.
  - apply ParseOriginal_written; try done; cbn;
      repeat (rewrite lookup_insert_eq || rewrite lookup_insert_ne by done); done.
  - unfold finalizedDeployment, modified, withDefaults.
    cbn -[foldr MinReadyOriginalAnnotations].
    rewrite deleted_marks by (apply Hmarks; set_solver). by destruct d as [[] ? ? ? ? [[]|]].
Qed.
End roundtrip.

(** ** The window of unavailable pods *)

Section window.
Context `{K8sLib} `{ParseLib}.

(** The budget of unavailable pods stays in the window of the batch.  With a step the
    user's strategy allows ([step], never negative), the controller always comes to a
    decision; a number it writes is a change, is never above the target of the batch,
    goes down only to that target, and goes up by at most one step over the updated pods
    that are ready; and it leaves the number alone only at the target, or below it
    while the ready pods have not used up the budget.  So a batch whose new pods never
    become ready stops after one step. *)
Theorem minready_window d bc ru current step :
  dep_RollingUpdate d = Some ru ->
  GetScaledValueFromIntOrPercent (ru_MaxUnavailable ru) (bc_Replicas bc) true = (current, None) ->
  maxUnavailableStep d (bc_Replicas bc) = Ok step -> 0 <= step ->
  in32 current -> in32 (bc_UpdatedReadyReplicas bc + step) ->
  exists next, nextMaxUnavailable d bc = Ok next
  /\ match next with
     | Some v =>
         v <> current /\ v <= bc_DesiredUpdatedReplicas bc
         /\ (v < current -> v = bc_DesiredUpdatedReplicas bc)
         /\ (current < v -> v <= bc_UpdatedReadyReplicas bc + step)
     | None =>
         current = bc_DesiredUpdatedReplicas bc
         \/ (current < bc_DesiredUpdatedReplicas bc
             /\ bc_UpdatedReadyReplicas bc + step <= current)
     end.
Proof.
  intros Hru Hcur Hstep Hpos Hin Hnext.
  unfold nextMaxUnavailable. rewrite Hru. simpl. rewrite Hcur, (wrap32_id current) by done.
  case_decide as Hge; [case_decide as Heq|].
  - exists None. split; [done|]. by left.
  - eexists. split; [done|]. simpl. lia.
  - assert (Estep : (if decide (step > 0) then step else 0) = step) by (case_decide; lia).
    rewrite Hstep. simpl. rewrite decide_False, Estep by lia. rewrite wrap32_id by done.
    eexists. split; [done|]. repeat case_decide; lia.
Qed.
End window.

(** ** The reports *)

Section reports.
Context {W : Type} `{Clock W} `{ErrorText}.

Lemma preserves_setCondition condType status reason message :
  preserves (W := W) machineFrame (setCondition condType status reason message).
Proof.
  unfold setCondition. solve_preserves. apply preserves_modC. intros s.
  unfold SetBatchReleaseCondition.
  match goal with |- context [sameCondition ?a ?b] => by destruct (sameCondition a b) end.
Qed.

Lemma preserves_setBRMessage message : preserves (W := W) machineFrame (setBRMessage message).
Proof. by apply preserves_modC. Qed.
Hint Resolve preserves_setCondition preserves_setBRMessage : frames.

Lemma preserves_RecordNormal condType reason message :
  preserves (W := W) machineFrame (RecordNormal condType reason message).
Proof. unfold RecordNormal, clearMinReadyDegraded. solve_preserves. Qed.

Lemma preserves_RecordDegraded reason err :
  preserves (W := W) machineFrame (RecordDegraded reason err).
Proof. unfold RecordDegraded. solve_preserves. Qed.

Lemma minReadyReporter_laws : ReporterLaws (W := W) minReadyReporter.
Proof.
  split; intros; simpl;
    first [apply preserves_RecordNormal | apply preserves_RecordDegraded | solve_preserves].
Qed.
End reports.

(** ** Metrics *)

(** What the status writer and the removal of a finalizer do to the metrics. *)
Inductive metricsStep : MinReadyMetrics -> MinReadyMetrics -> Prop :=
  | metrics_normal release reason updated previous now m :
      metricsStep m (normalMetrics release reason updated previous now m)
  | metrics_degraded release err same updated m : metricsStep m (degradedMetrics release err same updated m)
  | metrics_wait release previous now m : metricsStep m (ObserveMinReadyBatchWait release previous now m)
  | metrics_cleanup release m : metricsStep m (cleanupMinReadyMetricsOnFinalizerRemoval release m).

Definition batchResults : list string := [BatchResultSuccess; BatchResultStuck; BatchResultDegraded].
Definition degradedReasons : list string :=
  [DegradedReasonControllerError; DegradedReasonFeatureGateDisabled; DegradedReasonGitOpsDrift;
   DegradedReasonMissingAnnotations].

(** All labels are among those that deleting goes through. *)
Definition labelsFrom (labels : list string) (series : gmap (string * string * string) Z) : Prop :=
  forall k label, is_Some (series !! (k, label)) -> label ∈ labels.
Definition knownLabels (m : MinReadyMetrics) : Prop :=
  labelsFrom batchResults (minReadyBatchesTotal m)
  /\ labelsFrom [StuckReasonBatchReadyTimeout] (minReadyStuckSeconds m)
  /\ labelsFrom degradedReasons (minReadyDegradedTotal m).

Lemma labelsFrom_insert labels series k label v :
  label ∈ labels -> labelsFrom labels series -> labelsFrom labels (<[(k, label) := v]> series).
Proof.
  intros Hin Hs k' label' Hk. destruct (decide ((k, label) = (k', label'))) as [[= <- <-]|Hne]; [done|].
  rewrite lookup_insert_ne in Hk by done. by eapply Hs.
Qed.
Lemma labelsFrom_delete labels series k : labelsFrom labels series -> labelsFrom labels (delete k series).
Proof. intros Hs k' label [v Hk]. apply lookup_delete_Some in Hk as [_ Hk]. eapply Hs. by exists v. Qed.
Lemma labelsFrom_deletes labels series (k : string * string) l :
  labelsFrom labels series -> labelsFrom labels (foldr (fun label => delete (k, label)) series l).
Proof. intros Hs. induction l as [|x l IH]; [done|]. by apply labelsFrom_delete. Qed.

Lemma delete_known release m : knownLabels m -> knownLabels (DeleteMinReadyMetrics release m).
Proof.
  intros (H1 & H2 & H3). destruct release as [r|]; [|done].
  split_and!; by apply labelsFrom_deletes.
Qed.
Lemma clear_known release m :
  knownLabels m -> knownLabels (ClearMinReadyStuckSeconds release StuckReasonBatchReadyTimeout m).
Proof. intros (H1 & H2 & H3). destruct release as [r|]; [|done]. split_and!; [done|by apply labelsFrom_delete|done]. Qed.
Lemma batch_known release result m :
  result ∈ batchResults -> knownLabels m -> knownLabels (RecordMinReadyBatch release result m).
Proof. intros Hin (H1 & H2 & H3). destruct release as [r|]; [|done]. split_and!; [by apply labelsFrom_insert|done..]. Qed.
Lemma degraded_known release err m :
  knownLabels m -> knownLabels (RecordMinReadyDegraded release (degradedMetric err) m).
Proof.
  intros (H1 & H2 & H3). destruct release as [r|]; [|done]. split_and!; [done..|]. apply labelsFrom_insert; [|done].
  unfold degradedMetric, degradedReasons. destruct err; repeat case_match; set_solver.
Qed.
Lemma observe_known release condition now m : knownLabels m -> knownLabels (observeMinReadyBatchDuration release condition now m).
Proof.
  intros Hm. unfold observeMinReadyBatchDuration, sinceUpdate. destruct release, condition; [|done..].
  by repeat case_decide.
Qed.
Create HintDb metrics.
#[local] Hint Resolve delete_known clear_known batch_known degraded_known observe_known : metrics.

Lemma metricsStep_known m m' : metricsStep m m' -> knownLabels m -> knownLabels m'.
Proof.
  assert (Hs : BatchResultSuccess ∈ batchResults) by (unfold batchResults; set_solver).
  assert (Hd : BatchResultDegraded ∈ batchResults) by (unfold batchResults; set_solver).
  intros [release reason updated previous now ?|release err same updated ?|release previous now ?|release ?] Hm.
  - unfold normalMetrics. destruct updated; simpl; repeat case_match; eauto 6 with metrics.
  - unfold degradedMetrics. repeat case_match; eauto 6 with metrics.
  - unfold ObserveMinReadyBatchWait, sinceUpdate. destruct release as [r|], previous; [|done..]. repeat case_decide; [done..|].
    destruct Hm as (H1 & H2 & H3). split_and!; [done| |done]. apply labelsFrom_insert; [set_solver|done].
  - unfold cleanupMinReadyMetricsOnFinalizerRemoval. case_match; eauto with metrics.
Qed.

Lemma deletes_lookup (labels : list string) (series : gmap (string * string * string) Z) (k k' : string * string) (label : string) :
  labelsFrom labels series ->
  foldr (fun label => delete (k, label)) series labels !! (k', label)
  = if decide (k = k') then None else series !! (k', label).
Proof.
  intros Hs. destruct (series !! (k', label)) as [v|] eqn:E.
  - assert (Hin : label ∈ labels) by (eapply Hs; by exists v). clear Hs. induction labels as [|x labels IH]; [by apply not_elem_of_nil in Hin|].
    simpl. destruct (decide (k = k')) as [<-|Hne].
    + destruct (decide (x = label)) as [->|Hx]; [by rewrite lookup_delete_eq|]. rewrite lookup_delete_ne by congruence.
      apply IH. set_solver.
    + rewrite lookup_delete_ne by congruence. destruct (decide (label ∈ labels)) as [Hl|Hl]; [by apply IH|].
      clear IH Hin. induction labels as [|y labels IH]; [done|]. simpl. rewrite lookup_delete_ne by congruence. apply IH. set_solver.
  - assert (Hnone : foldr (fun label => delete (k, label)) series labels !! (k', label) = None); [|rewrite Hnone; by case_decide].
    clear Hs. induction labels as [|x labels IH]; [done|]. simpl. apply lookup_delete_None. by right.
Qed.

(** However the metrics came about, deleting those of a release leaves none of it, and all
    of the others as they are: a release that was finalized or removed keeps no series. *)
Lemma DeleteMinReadyMetrics_spec (m : MinReadyMetrics) (release : BatchRelease) (k : string * string) (label : string) :
  rtc metricsStep (mkMinReadyMetrics ∅ ∅ ∅ ∅) m ->
  let m' := DeleteMinReadyMetrics (Some release) m in
  let kept {A} (before after : option A) := after = if decide (seriesOf release = k) then None else before in
  kept (minReadyBatchesTotal m !! (k, label)) (minReadyBatchesTotal m' !! (k, label))
  /\ kept (minReadyBatchDurationSeconds m !! k) (minReadyBatchDurationSeconds m' !! k)
  /\ kept (minReadyStuckSeconds m !! (k, label)) (minReadyStuckSeconds m' !! (k, label))
  /\ kept (minReadyDegradedTotal m !! (k, label)) (minReadyDegradedTotal m' !! (k, label)).
Proof.
  intros Hruns. assert (Hm : knownLabels m).
  { assert (Hempty : knownLabels (mkMinReadyMetrics ∅ ∅ ∅ ∅)) by (split_and!; intros k' l [v Hv]; exact (False_rect _ (lookup_empty_Some _ _ Hv))).
    revert Hempty. induction Hruns as [|m1 m2 m3 Hstep _ IH]; [done|]. intros Hk. by eapply IH, metricsStep_known. }
  destruct Hm as (H1 & H2 & H3). cbn. split_and!.
  - by apply (deletes_lookup batchResults).
  - case_decide as E; [subst k; by rewrite lookup_delete_eq|by rewrite lookup_delete_ne].
  - by apply (deletes_lookup [StuckReasonBatchReadyTimeout]).
  - by apply (deletes_lookup degradedReasons).
Qed.
