(* ===== verification/CanaryControls.v ===== *)
(** * The controller of canary Deployments (canarystyle/deployment: control.go, stable.go, canary.go)

    The stable Deployment is only claimed; a second Deployment, owned by the release,
    runs the new template.  As in PartitionControls.v, every build reads anew. *)

From S2P Require Export WorkloadControl Expectation.

Definition CanaryDeploymentFinalizer : string := "finalizer.rollouts.kruise.io/batch-release".
Definition CanaryDeploymentLabel : string := "rollouts.kruise.io/canary-deployment".

(** The flag [expectation-timeout]. *)
Class ExpectationFlags := ExpectationTimeout : Z.

Section canary_controls.
Context {W : Type} `{Clock W} `{HasExpectations W} `{Api W Deployment} `{PatchInto W Deployment}
  `{GenerateApi W Deployment} `{Retry W} `{ListApi W Deployment} `{ListApi W Pod} `{ObjectReader W}
  `{ExpectationFlags} `{K8sLib} `{WorkloadFilter} `{StackDepth} `{SortLib} `{MetaLib} `{TypeMeta}
  `{UnstructuredLib} `{TemplateHash}.
Context `{Json OwnerReference} `{Json ObjectMeta} `{Json LabelSelector} `{Json DaemonSetRevisionInfo}.
Variable stableKey : ObjectKey.

(** ** The stable Deployment *)

Definition stable_Initialize (object : Deployment) (release : BatchRelease) : M W unit :=
  if IsControlledByBatchRelease release (dep_Meta object) then ret tt else
  api_Patch (O := Deployment) (dep_Meta object) (PatchFields
    [annotationField BatchReleaseControlAnnotation (VQuoted (BuildReleaseControlInfo release))]).

Definition stable_Finalize (object : Deployment) (release : BatchRelease) : M W unit :=
  let pause := match BatchPartition (br_Plan release) with Some _ => true | None => false end in
  d <- api_PatchInto (O := Deployment) (dep_Meta object) (PatchFields
         [annotationField BatchReleaseControlAnnotation VNull; DeploymentPatch_UpdatePaused pause]) ;;
  if ShouldWaitResume release then lift (waitAllUpdatedAndReady d) else ret tt.

(** A Deployment that could not be read has no summary and nothing to finalize. *)
Definition unbuiltStable : StableController W := mkStable W None (fun _ => panic) (fun _ => ret tt).

Definition BuildStableController : M W (StableController W * option goerror) :=
  r <- catch (api_Get (O := Deployment) stableKey) ;;
  match r with
  | inr err => ret (unbuiltStable, Some err)
  | inl object =>
      info <- lift (ParseWorkload (ODeployment object)) ;;
      ret (mkStable W (Some info) (stable_Initialize object) (stable_Finalize object), None)
  end.

(** ** The canary Deployment *)

Definition listDeployment (release : BatchRelease) : M W (list Deployment) :=
  ds <- api_List (O := Deployment) (fst stableKey) (fun _ => true) ;;
  ret (filter (fun d => or_UID <$> GetControllerOf (dep_Meta d) = Some (UID (br_Meta release))) ds).

(** The keys a release patches into the pods of its canary. *)
Definition patchedKeys (release : BatchRelease) (part : PatchPodTemplateMetadata -> option (gmap string string))
    : list string :=
  match rp_PatchPodTemplateMetadata (br_Plan release) with
  | Some patch => map fst (map_to_list (default ∅ (part patch)))
  | None => []
  end.

Definition filterCanaryDeployment (release : BatchRelease) (ds : list Deployment)
    (template : option PodTemplateSpec) : option Deployment :=
  let ds := sortSlice (fun a b => bool_decide
    (CreationTimestamp (dep_Meta a) > CreationTimestamp (dep_Meta b))) ds in
  match template with
  | None => head ds
  | Some template =>
      snd <$> list_find (fun d => EqualIgnoreSpecifyMetadata template (dep_Template d)
        (patchedKeys release PatchLabels) (patchedKeys release PatchAnnotations) = true) ds
  end.

(** Assigning keys into the labels of a template: a nil map panics. *)
Definition assignAll (keys : option (gmap string string)) (m : option (gmap string string))
    : res (option (gmap string string)) :=
  match m with
  | Some m => Ok (Some (default ∅ keys ∪ m))
  | None => if decide (default ∅ keys = ∅) then Ok None else Panic
  end.

Definition canaryTemplate (release : BatchRelease) (template : PodTemplateSpec) : res PodTemplateSpec :=
  match rp_PatchPodTemplateMetadata (br_Plan release) with
  | None => Ok template
  | Some patch =>
      res_bind (assignAll (PatchLabels patch) (tmpl_Labels template)) (fun labels =>
      res_bind (assignAll (PatchAnnotations patch) (Some (default ∅ (tmpl_Annotations template))))
        (fun annotations =>
      Ok (mkTemplate labels annotations (tmpl_Rest template))))
  end.

Definition canaryDeployment (release : BatchRelease) (template : Deployment) : res Deployment :=
  let owner := releaseControllerRef release in
  let m := mkMeta (fst stableKey) "" "" 0 0 None [owner] [CanaryDeploymentFinalizer]
             (Some {[ BatchReleaseControlAnnotation := Marshal owner ]})
             {[ CanaryDeploymentLabel := Name (dep_Meta template) ]} in
  res_map (fun pod => template <| dep_Meta := m |> <| dep_Template := pod |>
                        <| dep_Replicas := Some 0 |> <| dep_Paused := false |>
                        <| dep_Status := emptyDeploymentStatus |>)
    (canaryTemplate release (dep_Template template)).

Definition controllerKey (release : BatchRelease) : string :=
  (Namespace (br_Meta release) +:+ "/" +:+ Name (br_Meta release))%string.

(** A creation ends the round with an error, to wait for the informer. *)
Definition canary_create (release : BatchRelease) (template : Deployment) : M W unit :=
  canary <- lift (canaryDeployment release template) ;;
  canary <- api_Generate (snd stableKey +:+ "-")%string canary ;;
  ExpectResource (controllerKey release) Create (UID (dep_Meta canary)) ;;
  fail (ErrOther "created canary deployment succeeded, but waiting informer synced").

Definition canary_Create (canaryObject : option Deployment) (release : BatchRelease) : M W unit :=
  match canaryObject with
  | Some _ => ret tt
  | None =>
      s <- SatisfiedResourceExpectations (controllerKey release) ;;
      let '(satisfied, timeoutDuration) := s in
      (if satisfied : bool then ret tt
       else if decide (timeoutDuration >= ExpectationTimeout)
       then DeleteResourceExpectations (controllerKey release)
       else fail (ErrOther "expectation is not satisfied")) ;;
      stable <- api_Get (O := Deployment) stableKey ;;
      canary_create release stable
  end.

Definition canary_UpgradeBatch (canaryObject : Deployment) (canaryInfo : WorkloadInfo) (bc : BatchContext)
    : M W unit :=
  let desired := bc_DesiredUpdatedReplicas bc in
  if decide (wi_Replicas canaryInfo >= desired) then ret tt else
  api_Patch (O := Deployment) (dep_Meta canaryObject)
    (PatchFields [specField ["replicas"%string] (VInt desired)]).

(** The loop of [Delete]: a Deployment that is gone meanwhile is passed over. *)
Fixpoint removeFinalizers (deployments : list Deployment) : M W unit :=
  match deployments with
  | [] => ret tt
  | d :: rest =>
      if negb (ContainsFinalizer (dep_Meta d) CanaryDeploymentFinalizer) then removeFinalizers rest else
      r <- catch (UpdateFinalizer d RemoveFinalizerOpType CanaryDeploymentFinalizer) ;;
      match r with
      | inr err => if IsNotFound err then removeFinalizers rest else fail err
      | inl _ => removeFinalizers rest
      end
  end.

Definition canary_Delete (release : BatchRelease) : M W unit :=
  deployments <- listDeployment release ;; removeFinalizers deployments.

Definition canaryController (canary : option (Deployment * WorkloadInfo)) : CanaryController W :=
  mkCanaryController W (snd <$> canary)
    (match canary with
     | Some (object, info) => canary_UpgradeBatch object info
     | None => fun _ => panic
     end)
    (canary_Create (fst <$> canary)) canary_Delete.

(** The canary of the release that runs the latest template, if there is one. *)
Definition findCanary (release : BatchRelease) : M W (option Deployment + goerror) :=
  l <- catch (listDeployment release) ;;
  match l with
  | inr err => ret (inr err)
  | inl ds =>
      r <- catch (api_Get (O := Deployment) stableKey) ;;
      let found template := filterCanaryDeployment release (FilterActiveDeployment ds) template in
      ret match r with
          | inl stable => inl (found (Some (dep_Template stable)))
          | inr err => if IsNotFound err then inl (found None) else inr err
          end
  end.

Definition BuildCanaryController (release : BatchRelease) : M W (CanaryController W * option goerror) :=
  r <- findCanary release ;;
  match r with
  | inr err => ret (canaryController None, Some err)
  | inl None => ret (canaryController None, Some ErrNotFound)
  | inl (Some object) =>
      info <- lift (ParseWorkload (ODeployment object)) ;;
      ret (canaryController (Some (object, info)), None)
  end.

(** Called when both have been built; without them it reads nil pointers. *)
Definition canary_CalculateBatchContext (release : BatchRelease) : M W BatchContext :=
  let currentBatch := CurrentBatch (br_CanaryStatus (br_Status release)) in
  c <- findCanary release ;;
  match c with
  | inl (Some canaryObject) =>
      pods <- (if nonempty (RolloutID (br_Plan release)) then ListOwnedPods (ODeployment canaryObject)
               else ret []) ;;
      s <- catch (api_Get (O := Deployment) stableKey) ;;
      match s with
      | inr _ => panic
      | inl stableObject =>
          replicas <- lift (deref (dep_Replicas stableObject)) ;;
          desiredUpdate <- lift (CalculateBatchReplicas release replicas currentBatch) ;;
          ret (mkBatchContext (RolloutID (br_Plan release)) currentBatch
                 (br_UpdateRevision (br_Status release)) replicas
                 (ds_Replicas (dep_Status canaryObject)) (ds_AvailableReplicas (dep_Status canaryObject))
                 None 0 (wrap32 desiredUpdate) (FromInt 0) (FromInt 0)
                 (FailureThreshold (br_Plan release)) pods None (FromInt 0) (FromInt 0))
      end
  | _ => panic
  end.
End canary_controls.
