(* ===== verification/BlueGreenControls.v ===== *)
(** * Controllers of the blue-green style (bluegreenstyle: cloneset, deployment, hpa)

    A blue-green release lets the new pods come up next to the old ones and keeps both
    until the end: it saves the strategy of the workload, replaces it by one with a surge
    and an unreachable readiness period, and disables the autoscaler. *)

From S2P Require Export WorkloadControl.

(** ** Autoscalers (hpa/hpa.go) *)

Definition HPADisableSuffix : string := "-DisableByRollout".

Definition addSuffix (HPARefName : string) : string :=
  if HasSuffix HPARefName HPADisableSuffix then HPARefName else HPARefName +:+ HPADisableSuffix.

(** The loop cuts the suffix off as long as there is one; a name has room for fewer
    suffixes than it has characters. *)
Fixpoint cutSuffixes (n : nat) (refName : string) : string :=
  match n with
  | O => refName
  | S n =>
      if HasSuffix refName HPADisableSuffix
      then cutSuffixes n (String.substring 0 (String.length refName - String.length HPADisableSuffix) refName)
      else refName
  end.
Definition removeSuffix (HPARefName : string) : string :=
  cutSuffixes (String.length HPARefName) HPARefName.

(** A tree that is an autoscaler: the version it was listed with, its metadata and the
    name, API version and kind of its target, if it has one; a target whose fields are not
    strings makes the type assertions panic. *)
Record HPA := mkHPA {
  hpa_Version : string;
  hpa_Meta : ObjectMeta;
  hpa_ScaleTargetRef : res (option (string * string * string))
}.

Class HPAClient (W : Type) := {
  list_HPA : string -> string -> M W (list HPA);
  patch_HPA : HPA -> RawPatch -> M W unit
}.

(** [apiVersion] and [kind] as the decoded workload carries them. *)
Class ObjectKind := ObjectTypeMeta : WorkloadObject -> string * string.

Section hpa.
Context {W : Type} `{HPAClient W} `{ObjectKind} `{UnstructuredLib}.

(** The first autoscaler of the list that targets the workload. *)
Fixpoint matchHPA (object : WorkloadObject) (items : list HPA) : res (option HPA) :=
  match items with
  | [] => Ok None
  | item :: rest =>
      match hpa_ScaleTargetRef item with
      | Ok None | Err _ => matchHPA object rest
      | Panic => Panic
      | Ok (Some (name, version, kind)) =>
          if String.eqb version (fst (ObjectTypeMeta object)) && String.eqb kind (snd (ObjectTypeMeta object))
             && String.eqb (removeSuffix name) (Name (objMeta object))
          then Ok (Some item) else matchHPA object rest
      end
  end.

(** A failed list counts as no autoscaler. *)
Definition findHPA (object : WorkloadObject) (version : string) : M W (option HPA) :=
  r <- catch (list_HPA version (Namespace (objMeta object))) ;;
  match r with
  | inr _ => ret None
  | inl items => lift (matchHPA object items)
  end.

Definition findHPAForWorkload (object : WorkloadObject) : M W (option HPA) :=
  hpa <- findHPA object "v2" ;;
  match hpa with
  | Some hpa => ret (Some hpa)
  | None => findHPA object "v1"
  end.

(** A target that is missing is reported by reading a nil error. *)
Definition hpaTarget (hpa : HPA) : res (string * string * string) :=
  match hpa_ScaleTargetRef hpa with
  | Ok (Some ref) => Ok ref
  | Err _ => Err (ErrOther "get HPA targetRef failed")
  | Ok None | Panic => Panic
  end.

Definition patchTarget (hpa : HPA) (version kind name : string) (msg : string) : M W unit :=
  let field k v := specField ["scaleTargetRef"%string; k] (VString v) in
  r <- catch (patch_HPA hpa (PatchFields
         [field "apiVersion"%string version; field "kind"%string kind; field "name"%string name])) ;;
  match r with inl _ => ret tt | inr _ => fail (ErrOther msg) end.

Definition DisableHPA (object : WorkloadObject) : M W unit :=
  hpa <- findHPAForWorkload object ;;
  match hpa with
  | None => ret tt
  | Some hpa =>
      ref <- lift (hpaTarget hpa) ;;
      let '(name, version, kind) := ref in
      if HasSuffix name HPADisableSuffix then ret tt
      else patchTarget hpa version kind (addSuffix name) "failed to disable HPA"
  end.

Definition RestoreHPA (object : WorkloadObject) : M W unit :=
  hpa <- findHPAForWorkload object ;;
  match hpa with
  | None => ret tt
  | Some hpa =>
      ref <- lift (hpaTarget hpa) ;;
      let '(name, version, kind) := ref in
      if HasSuffix name HPADisableSuffix
      then patchTarget hpa version kind (removeSuffix name) "failed to restore HPA"
      else ret tt
  end.
End hpa.

(** ** ReplicaSets of a Deployment (deployment_util.go, controller_finder.go) *)

(** The comparison of strings by bytes. *)
Definition stringLess (a b : string) : bool :=
  match String.compare a b with Lt => true | _ => false end.

Definition ReplicaSetsByCreationTimestamp (a b : ReplicaSet) : bool :=
  if decide (CreationTimestamp (rs_Meta a) = CreationTimestamp (rs_Meta b))
  then stringLess (Name (rs_Meta a)) (Name (rs_Meta b))
  else bool_decide (CreationTimestamp (rs_Meta a) < CreationTimestamp (rs_Meta b)).

Definition FindNewReplicaSet `{SortLib} (deployment : Deployment) (rsList : list ReplicaSet)
    : option ReplicaSet :=
  snd <$> list_find (fun rs => EqualIgnoreHash (rs_Template rs) (dep_Template deployment) = true)
    (sortSlice ReplicaSetsByCreationTimestamp rsList).

Section replicasets.
Context {W : Type} `{ListApi W ReplicaSet} `{SortLib} `{MetaLib}.

(** An unusable selector finds nothing. *)
Definition GetReplicaSetsForDeployment (obj : Deployment) : M W (list ReplicaSet) :=
  match LabelSelectorAsSelector (dep_Selector obj) with
  | Panic => panic
  | Err _ => ret []
  | Ok selector =>
      rss <- api_List (O := ReplicaSet) (Namespace (dep_Meta obj)) selector ;;
      ret (filter (fun rs => deleting (rs_Meta rs) = false /\ rs_Replicas rs <> Some 0
             /\ or_UID <$> GetControllerOf (rs_Meta rs) = Some (UID (dep_Meta obj))) rss)
  end.

Definition GetDeploymentStableRs (obj : Deployment) : M W (option ReplicaSet) :=
  rss <- GetReplicaSetsForDeployment obj ;;
  ret (head (sortSlice (fun a b =>
    bool_decide (CreationTimestamp (rs_Meta a) < CreationTimestamp (rs_Meta b))) rss)).
End replicasets.

(** ** The controllers *)

Section bluegreen_controls.
Context {W : Type} `{Api W CloneSet} `{Api W Deployment} `{Api W ReplicaSet} `{PatchInto W Deployment}
  `{ListApi W ReplicaSet} `{ListApi W Pod} `{ObjectReader W} `{HPAClient W} `{ObjectKind}
  `{K8sLib} `{WorkloadFilter} `{StackDepth} `{SortLib} `{MetaLib} `{TypeMeta} `{UnstructuredLib}
  `{TemplateHash}.
Context `{Json OwnerReference} `{Json ObjectMeta} `{Json LabelSelector} `{Json DaemonSetRevisionInfo}
  `{Json OriginalDeploymentStrategy}.

Definition badRequest {A} (r : res A) : res A :=
  match r with Err (ErrOther msg) => Err (ErrBadRequest msg) | Err _ => Err (ErrBadRequest "") | _ => r end.

(** The original setting, completed from the workload, as an annotation. *)
Definition savedSetting (object : WorkloadObject) (m : ObjectMeta) : res Field :=
  res_bind (badRequest (GetOriginalSetting m)) (fun setting =>
  res_map (fun setting => InsertAnnotation OriginalDeploymentStrategyAnnotation (Marshal setting))
    (InitOriginalSetting setting object)).

(** Nothing is left to restore of a workload that is deleted or has no saved setting. *)
Definition restored (m : ObjectMeta) : bool :=
  deleting m || String.eqb (annotation m OriginalDeploymentStrategyAnnotation) "".

(** The surge a workload is initialized with counts as none. *)
Definition currentSurge (maxSurge : option IntOrString) : IntOrString :=
  match maxSurge with
  | Some surge => if decide (surge = FromInt 1) then FromInt 0 else surge
  | None => FromInt 0
  end.

Definition surge_context (release : BatchRelease) (info : WorkloadInfo) (planned : Z)
    (current desired : IntOrString) : BatchContext :=
  mkBatchContext (RolloutID (br_Plan release)) (CurrentBatch (br_CanaryStatus (br_Status release)))
    (br_UpdateRevision (br_Status release)) (wi_Replicas info) (ws_UpdatedReplicas (wi_Status info))
    (ws_UpdatedReadyReplicas (wi_Status info)) None planned planned (FromInt 0) (FromInt 0) None []
    None current desired.

Definition surgeGrows (bc : BatchContext) : bool :=
  let scaled v := fst (GetScaledValueFromIntOrPercent (Some v) (bc_Replicas bc) true) in
  bool_decide (scaled (bc_CurrentSurge bc) < scaled (bc_DesiredSurge bc)).

(** A controller whose build failed; the control plane calls nothing of it. *)
Definition unbuiltBlueGreen : BlueGreenController W :=
  mkBlueGreenController W None panic (fun _ => panic) (fun _ => panic) (fun _ => panic) (fun _ => panic).

(** *** CloneSets *)

Definition bgcloneset_Initialize (object : CloneSet) (release : BatchRelease) : M W unit :=
  if IsControlledByBatchRelease release (clone_Meta object) then ret tt else
  DisableHPA (OCloneSet object) ;;
  saved <- lift (savedSetting (OCloneSet object) (clone_Meta object)) ;;
  api_Patch (O := CloneSet) (clone_Meta object) (PatchFields
    [saved; InsertAnnotation BatchReleaseControlAnnotation (Marshal (releaseControllerRef release));
     ClonesetPatch_UpdatePaused false; ClonesetPatch_UpdateMaxSurge (Some (FromInt 1));
     ClonesetPatch_UpdateMaxUnavailable (Some (FromInt 0));
     ClonesetPatch_UpdateMinReadySeconds MaxReadySeconds]).

Definition bgcloneset_UpgradeBatch (object : CloneSet) (bc : BatchContext) : M W unit :=
  lift (badRequest (ValidateReadyForBlueGreenRelease (OCloneSet object))) ;;
  if surgeGrows bc
  then api_Patch (O := CloneSet) (clone_Meta object) (PatchFields
         [ClonesetPatch_UpdatePartiton None; ClonesetPatch_UpdateMaxSurge (Some (bc_DesiredSurge bc))])
  else ret tt.

Definition bgcloneset_Finalize (object : CloneSet) (release : BatchRelease) : M W unit :=
  match BatchPartition (br_Plan release) with
  | Some _ => ret tt
  | None =>
      (if restored (clone_Meta object) then ret tt else
       setting <- lift (GetOriginalSetting (clone_Meta object)) ;;
       api_Patch (O := CloneSet) (clone_Meta object) (PatchFields
         [ClonesetPatch_UpdateMinReadySeconds (os_MinReadySeconds setting);
          ClonesetPatch_UpdateMaxSurge (os_MaxSurge setting);
          ClonesetPatch_UpdateMaxUnavailable (os_MaxUnavailable setting);
          DeleteAnnotation OriginalDeploymentStrategyAnnotation;
          DeleteAnnotation BatchReleaseControlAnnotation])) ;;
      if decide (cls_ReadyReplicas (clone_Status object) <> cls_UpdatedReadyReplicas (clone_Status object))
      then fail (ErrOther "[retry]: cloneset finalize not done")
      else RestoreHPA (OCloneSet object)
  end.

Definition bgcloneset_contextOf (object : CloneSet) (info : WorkloadInfo) (release : BatchRelease)
    : res BatchContext :=
  res_map (fun desiredSurge =>
    surge_context release info
      (wrap32 (fst (GetScaledValueFromIntOrPercent (Some desiredSurge) (wi_Replicas info) true)))
      (currentSurge (clone_MaxSurge object)) desiredSurge)
  (currentPlanBatch release).

Definition bgcloneset_controller (object : CloneSet) (info : WorkloadInfo) : BlueGreenController W :=
  mkBlueGreenController W (Some info) (ListOwnedPods (OCloneSet object))
    (fun release => lift (bgcloneset_contextOf object info release)) (bgcloneset_Initialize object)
    (bgcloneset_UpgradeBatch object) (bgcloneset_Finalize object).

Definition bgcloneset_BuildController (key : ObjectKey) : M W (BlueGreenController W * option goerror) :=
  r <- catch (api_Get (O := CloneSet) key) ;;
  match r with
  | inr err => ret (unbuiltBlueGreen, Some err)
  | inl object =>
      info <- lift (ParseWorkload (OCloneSet object)) ;;
      ret (bgcloneset_controller object info, None)
  end.

(** *** Deployments *)

(** Every failure is wrapped. *)
Definition patchStableRSMinReadySeconds (object : Deployment) (seconds : Z) : M W unit :=
  r <- catch (GetDeploymentStableRs object) ;;
  match r with
  | inr _ => fail (ErrOther "failed to get stable ReplicaSet")
  | inl None => ret tt
  | inl (Some stableRS) =>
      p <- catch (api_Patch (O := ReplicaSet) (rs_Meta stableRS)
             (PatchFields [specField ["minReadySeconds"%string] (VInt seconds)])) ;;
      match p with
      | inr _ => fail (ErrOther "failed to patch ReplicaSet minReadySeconds")
      | inl _ => ret tt
      end
  end.

Definition rollingStrategy (maxSurge : IntOrString) : list Field :=
  DeploymentPatch_UpdateStrategy RollingUpdateDeploymentStrategyType
    (Some (mkRollingUpdate (Some (FromInt 0)) (Some maxSurge))).

Definition patchDeployment (object : Deployment) (release : BatchRelease) : M W unit :=
  saved <- lift (savedSetting (ODeployment object) (dep_Meta object)) ;;
  p <- catch (api_Patch (O := Deployment) (dep_Meta object) (PatchFields
    (saved :: InsertAnnotation BatchReleaseControlAnnotation (Marshal (releaseControllerRef release))
     :: rollingStrategy (FromInt 1)
     ++ [DeploymentPatch_UpdateMinReadySeconds MaxReadySeconds;
         DeploymentPatch_UpdateProgressDeadlineSeconds (Some MaxProgressSeconds)])%list)) ;;
  match p with inr _ => fail (ErrOther "failed to patch deployment") | inl _ => ret tt end.

Definition bgdeployment_Initialize (object : Deployment) (release : BatchRelease) : M W unit :=
  if IsControlledByBatchRelease release (dep_Meta object) then ret tt else
  DisableHPA (ODeployment object) ;;
  patchStableRSMinReadySeconds object MaxReadySeconds ;;
  patchDeployment object release.

Definition bgdeployment_UpgradeBatch (object : Deployment) (bc : BatchContext) : M W unit :=
  lift (badRequest (ValidateReadyForBlueGreenRelease (ODeployment object))) ;;
  if surgeGrows bc
  then api_Patch (O := Deployment) (dep_Meta object)
         (PatchFields (DeploymentPatch_UpdatePaused false :: rollingStrategy (bc_DesiredSurge bc)))
  else ret tt.

Definition bg_waitAllUpdatedAndReady (deployment : Deployment) : res unit :=
  if dep_Paused deployment then Err (ErrOther "deployment should not be paused") else
  let s := dep_Status deployment in
  if decide (ds_ReadyReplicas s <> ds_UpdatedReplicas s)
  then Err (ErrOther "all ready replicas should be updated, and all updated replicas should be ready")
  else res_bind (DeploymentMaxUnavailable deployment) (fun allowedUnavailable =>
    if decide (wrap32 (allowedUnavailable + ds_AvailableReplicas s) < ds_Replicas s)
    then Err (ErrOther "ready replicas should satisfy maxUnavailable") else Ok tt).

(** [d] is the answer to the patch, and an object with nothing but its key when there was
    nothing to restore. *)
Definition bgdeployment_Finalize (object : Deployment) (release : BatchRelease) : M W unit :=
  match BatchPartition (br_Plan release) with
  | Some _ => ret tt
  | None =>
      d <- (if restored (dep_Meta object)
            then ret (emptyDeployment <| dep_Meta := mkMeta (Namespace (dep_Meta object))
                        (Name (dep_Meta object)) "" 0 0 None [] [] None ∅ |>)
            else
              setting <- lift (GetOriginalSetting (dep_Meta object)) ;;
              api_PatchInto (O := Deployment) (dep_Meta object) (PatchFields
                [DeploymentPatch_UpdatePaused false;
                 DeploymentPatch_UpdateMinReadySeconds (os_MinReadySeconds setting);
                 DeploymentPatch_UpdateProgressDeadlineSeconds (os_ProgressDeadlineSeconds setting);
                 DeploymentPatch_UpdateMaxSurge (os_MaxSurge setting);
                 DeploymentPatch_UpdateMaxUnavailable (os_MaxUnavailable setting);
                 DeleteAnnotation OriginalDeploymentStrategyAnnotation;
                 DeleteLabel DeploymentStableRevisionLabel;
                 DeleteAnnotation BatchReleaseControlAnnotation])) ;;
      match bg_waitAllUpdatedAndReady d with
      | Err (ErrOther msg) => fail (ErrOther ("[retry]: " +:+ msg))
      | Err err => fail err
      | Panic => panic
      | Ok _ => RestoreHPA (ODeployment object)
      end
  end.

Definition bgdeployment_contextOf (object : Deployment) (info : WorkloadInfo) (release : BatchRelease)
    : res BatchContext :=
  res_bind (currentPlanBatch release) (fun desiredSurge =>
  res_map (fun planned =>
    surge_context release info planned
      (currentSurge (ru ← dep_RollingUpdate object; ru_MaxSurge ru)) desiredSurge)
  (NewRSReplicasLimit desiredSurge object)).

(** A Deployment without selector panics. *)
Definition getUpdatedReadyReplicas (d : Deployment) : M W Z :=
  selector <- lift (deref (dep_Selector d)) ;;
  allRSs <- api_List (O := ReplicaSet) (Namespace (dep_Meta d))
              (fun labels => bool_decide (MatchLabels selector ⊆ labels)) ;;
  let ownedRSs := filter (fun rs => deleting (rs_Meta rs) = false
        /\ or_UID <$> GetControllerOf (rs_Meta rs) = Some (UID (dep_Meta d))) allRSs in
  ret match FindNewReplicaSet d ownedRSs with
      | Some newRS => rs_ReadyReplicas newRS
      | None => 0
      end.

Definition bgdeployment_getWorkloadInfo (d : Deployment) : M W WorkloadInfo :=
  info <- lift (ParseWorkload (ODeployment d)) ;;
  r <- catch (getUpdatedReadyReplicas d) ;;
  ret (info <| wi_Status := (wi_Status info)
    <| ws_UpdatedReadyReplicas := match r with inl n => n | inr _ => 0 end |>
    <| ws_StableRevision := mapget (Labels (dep_Meta d)) DeploymentStableRevisionLabel |> |>).

Definition bgdeployment_controller (object : Deployment) (info : WorkloadInfo) : BlueGreenController W :=
  mkBlueGreenController W (Some info) (ListOwnedPods (ODeployment object))
    (fun release => lift (bgdeployment_contextOf object info release)) (bgdeployment_Initialize object)
    (bgdeployment_UpgradeBatch object) (bgdeployment_Finalize object).

Definition bgdeployment_BuildController (key : ObjectKey) : M W (BlueGreenController W * option goerror) :=
  r <- catch (api_Get (O := Deployment) key) ;;
  match r with
  | inr err => ret (unbuiltBlueGreen, Some err)
  | inl object =>
      info <- bgdeployment_getWorkloadInfo object ;;
      ret (bgdeployment_controller object info, None)
  end.
End bluegreen_controls.
