(* ===== verification/BlueGreenProofs.v ===== *)
(** * Properties of the blue-green controllers

    Disabling and restoring an autoscaler are inverse, and what the end of a blue-green
    release waits for. *)

From S2P Require Export BlueGreenControls.

(** ** Suffixes *)

Lemma string_app_length a b : String.length (a +:+ b) = (String.length a + String.length b)%nat.
Proof. induction a as [|c a IH]; simpl; [done|]. change (S (String.length (a +:+ b)) = S (String.length a + String.length b)). by rewrite IH. Qed.

Lemma substring_all s : String.substring 0 (String.length s) s = s.
Proof. induction s as [|c s IH]; simpl; [done|]. by rewrite IH. Qed.

Lemma substring_app_l p s : String.substring 0 (String.length p) (p +:+ s) = p.
Proof. induction p as [|c p IH]; simpl; [by destruct s|]. change (String c (String.substring 0 (String.length p) (p +:+ s)) = String c p). by rewrite IH. Qed.

Lemma substring_app_r p s : String.substring (String.length p) (String.length s) (p +:+ s) = s.
Proof. induction p as [|c p IH]; simpl; [apply substring_all|exact IH]. Qed.

Lemma substring_split n s :
  (n <= String.length s)%nat ->
  s = String.substring 0 n s +:+ String.substring n (String.length s - n) s.
Proof.
  revert s. induction n as [|n IH]; intros s Hn.
  - rewrite Nat.sub_0_r, substring_all. by destruct s.
  - destruct s as [|c s]; simpl in *; [lia|].
    change (String c s = String c (String.substring 0 n s +:+ String.substring n (String.length s - n) s)).
    f_equal. apply IH. lia.
Qed.

Lemma HasSuffix_iff s suffix : HasSuffix s suffix = true <-> exists p, s = p +:+ suffix.
Proof.
  unfold HasSuffix. split.
  - intros [Hle%Nat.leb_le Heq%String.eqb_eq]%andb_true_iff.
    exists (String.substring 0 (String.length s - String.length suffix) s).
    rewrite (substring_split (String.length s - String.length suffix) s) at 1 by lia. f_equal.
    replace (String.length s - (String.length s - String.length suffix))%nat
      with (String.length suffix) by lia. done.
  - intros (p & ->). rewrite string_app_length.
    replace (String.length p + String.length suffix - String.length suffix)%nat with (String.length p) by lia.
    rewrite substring_app_r, String.eqb_refl, andb_true_r. apply Nat.leb_le. lia.
Qed.

Lemma HasSuffix_app p suffix : HasSuffix (p +:+ suffix) suffix = true.
Proof. apply HasSuffix_iff. by exists p. Qed.

(** ** Names of disabled autoscalers *)

Lemma cutSuffixes_app n p :
  cutSuffixes (S n) (p +:+ HPADisableSuffix) = cutSuffixes n p.
Proof.
  cbn [cutSuffixes]. rewrite HasSuffix_app, string_app_length.
  replace (String.length p + String.length HPADisableSuffix - String.length HPADisableSuffix)%nat
    with (String.length p) by lia. by rewrite substring_app_l.
Qed.

(** The loop ends within the length of the name, and more rounds change nothing. *)
Lemma cutSuffixes_enough n s :
  (String.length s <= n)%nat ->
  cutSuffixes n s = cutSuffixes (String.length s) s /\ HasSuffix (cutSuffixes n s) HPADisableSuffix = false.
Proof.
  revert s. induction n as [n IH] using lt_wf_ind. intros s Hn.
  destruct (HasSuffix s HPADisableSuffix) eqn:Es.
  - apply HasSuffix_iff in Es as (p & ->). rewrite string_app_length in *.
    assert (Hlen : String.length HPADisableSuffix = 17%nat) by done. rewrite Hlen in *.
    destruct n as [|n]; [lia|]. replace (String.length p + 17)%nat with (S (String.length p + 16)) by lia.
    rewrite !cutSuffixes_app.
    destruct (IH n ltac:(lia) p ltac:(lia)) as [E1 E2].
    destruct (IH (String.length p + 16)%nat ltac:(lia) p ltac:(lia)) as [E3 _].
    split; [congruence|done].
  - assert (E : forall k, cutSuffixes k s = s) by (intros [|k]; [done|]; cbn [cutSuffixes]; by rewrite Es).
    rewrite !E. done.
Qed.

Lemma removeSuffix_clean s : HasSuffix (removeSuffix s) HPADisableSuffix = false.
Proof. by apply cutSuffixes_enough. Qed.

Lemma removeSuffix_app s : removeSuffix (s +:+ HPADisableSuffix) = removeSuffix s.
Proof.
  unfold removeSuffix. rewrite string_app_length.
  change (String.length HPADisableSuffix) with 17%nat.
  replace (String.length s + 17)%nat with (S (String.length s + 16)) by lia.
  rewrite cutSuffixes_app. apply cutSuffixes_enough. lia.
Qed.

Lemma removeSuffix_id s : HasSuffix s HPADisableSuffix = false -> removeSuffix s = s.
Proof. intros Hs. unfold removeSuffix. destruct (String.length s); [done|]. cbn [cutSuffixes]. by rewrite Hs. Qed.

Lemma removeSuffix_add s : removeSuffix (addSuffix s) = removeSuffix s.
Proof. unfold addSuffix. destruct (HasSuffix s HPADisableSuffix); [done|]. apply removeSuffix_app. Qed.

(** ** Autoscalers *)

Section autoscalers.
Context {W : Type} `{HPAClient W} `{ObjectKind} `{UnstructuredLib}.

(** The autoscaler of a workload: its target, under its own or its disabled name. *)
Definition targets (object : WorkloadObject) (hpa : HPA) (name version kind : string) : Prop :=
  hpa_ScaleTargetRef hpa = Ok (Some (name, version, kind))
  /\ (version, kind) = ObjectTypeMeta object /\ removeSuffix name = Name (objMeta object).

Definition retarget (hpa : HPA) (name : string) : HPA :=
  match hpa_ScaleTargetRef hpa with
  | Ok (Some (_, version, kind)) =>
      mkHPA (hpa_Version hpa) (hpa_Meta hpa) (Ok (Some (name, version, kind)))
  | _ => hpa
  end.

Definition targetPatch (version kind name : string) : RawPatch :=
  PatchFields [specField ["scaleTargetRef"; "apiVersion"]%string (VString version);
               specField ["scaleTargetRef"; "kind"]%string (VString kind);
               specField ["scaleTargetRef"; "name"]%string (VString name)].

Lemma matchHPA_found object items hpa :
  matchHPA object items = Ok (Some hpa) -> hpa ∈ items /\ exists name version kind, targets object hpa name version kind.
Proof.
  induction items as [|item items IH]; simpl; [done|].
  destruct (hpa_ScaleTargetRef item) as [[[[name version] kind]|]|err|] eqn:Er; try done;
    try (intros E; destruct (IH E) as [Hin ?]; split; [by right|done]).
  destruct (_ && _) eqn:Em; [|intros E; destruct (IH E) as [Hin ?]; split; [by right|done]].
  intros [= <-]. split; [by left|]. exists name, version, kind.
  apply andb_true_iff in Em as [[Hv%String.eqb_eq Hk%String.eqb_eq]%andb_true_iff Hn%String.eqb_eq].
  split; [done|]. split; [|done]. destruct (ObjectTypeMeta object). simpl in *. congruence.
Qed.

(** Autoscalers are disabled and restored.  Where the autoscaler that is found for a
    workload targets it by some name, disabling sends exactly one patch, to the name
    with the suffix, unless it has the suffix already; the disabled autoscaler still
    targets the same workload; and restoring it then sends exactly one patch, to the
    name the workload has, whatever number of suffixes it had collected. *)
Theorem hpa_roundtrip (object : WorkloadObject) (hpa : HPA) (w w1 : W)
    (Hfound : findHPAForWorkload object w = (Ok (Some hpa), w1)) :
  exists name version kind, targets object hpa name version kind
  /\ DisableHPA object w
     = (if HasSuffix name HPADisableSuffix then (Ok tt, w1)
        else patchTarget hpa version kind (addSuffix name) "failed to disable HPA" w1)
  /\ targets object (retarget hpa (addSuffix name)) (addSuffix name) version kind
  /\ HasSuffix (addSuffix name) HPADisableSuffix = true
  /\ forall w' w2 hpa', findHPAForWorkload object w' = (Ok (Some hpa'), w2) ->
       hpa' = retarget hpa (addSuffix name) ->
       RestoreHPA object w'
       = patchTarget hpa' version kind (Name (objMeta object)) "failed to restore HPA" w2.
Proof.
  assert (Hhpa : exists name version kind, targets object hpa name version kind).
  { unfold findHPAForWorkload, findHPA in Hfound. inv_run.
    all: match goal with
         | Hm : matchHPA _ _ = Ok (Some _) |- _ => by destruct (matchHPA_found _ _ _ Hm)
         end. }
  destruct Hhpa as (name & version & kind & Ht). exists name, version, kind. split; [done|].
  destruct Ht as (Eref & Ekind & Ename).
  assert (Hadd : HasSuffix (addSuffix name) HPADisableSuffix = true).
  { unfold addSuffix. destruct (HasSuffix name HPADisableSuffix) eqn:E; [done|]. apply HasSuffix_app. }
  split; [|split; [|split; [done|]]].
  - unfold DisableHPA. unfold bind at 1. rewrite Hfound. unfold hpaTarget. rewrite Eref.
    unfold bind, lift. simpl. by destruct (HasSuffix name _).
  - unfold targets, retarget. rewrite Eref. simpl. by rewrite removeSuffix_add.
  - intros w' w2 hpa' Hfound' ->. unfold RestoreHPA. unfold bind at 1. rewrite Hfound'.
    unfold hpaTarget, retarget at 1. rewrite Eref. simpl. unfold bind, lift. simpl.
    rewrite Hadd, removeSuffix_add, Ename. done.
Qed.
End autoscalers.

(** ** Merging a patch *)

(** What a merge patch does to a workload, by the paths of the API: a null takes a field
    away.  A path that no blue-green controller sends has no meaning here. *)
Definition intOf (v : FieldValue) : option Z := match v with VInt n => Some n | _ => None end.
Definition intOrStringOf (v : FieldValue) : option IntOrString :=
  match v with VInt n => Some (FromInt n) | VString s => Some (FromString s) | _ => None end.
Definition textOf (v : FieldValue) : option string := match v with VString s => Some s | _ => None end.

Definition mergeMeta (f : Field) (m : ObjectMeta) : option ObjectMeta :=
  match f with
  | ([top; part; k], v) =>
      if negb (String.eqb top "metadata") then None
      else if String.eqb part "annotations"
      then Some (m <| Annotations := Some (partial_alter (fun _ => textOf v) k (default ∅ (Annotations m))) |>)
      else if String.eqb part "labels"
      then Some (m <| Labels := partial_alter (fun _ => textOf v) k (Labels m) |>)
      else None
  | _ => None
  end.

Definition mergeCloneSetField (c : CloneSet) (f : Field) : option CloneSet :=
  let '(path, v) := f in
  if decide (path = ["spec"; "minReadySeconds"]%string)
  then Some (c <| clone_MinReadySeconds := default 0 (intOf v) |>)
  else if decide (path = ["spec"; "updateStrategy"; "maxSurge"]%string)
  then Some (c <| clone_MaxSurge := intOrStringOf v |>)
  else if decide (path = ["spec"; "updateStrategy"; "maxUnavailable"]%string)
  then Some (c <| clone_MaxUnavailable := intOrStringOf v |>)
  else if decide (path = ["spec"; "updateStrategy"; "paused"]%string)
  then Some (c <| clone_Paused := bool_decide (v = VBool true) |>)
  else option_map (fun m => c <| clone_Meta := m |>) (mergeMeta f (clone_Meta c)).
Fixpoint mergeCloneSet (fields : list Field) (c : CloneSet) : option CloneSet :=
  match fields with
  | [] => Some c
  | f :: rest => c ← mergeCloneSetField c f; mergeCloneSet rest c
  end.

Definition rollingUpdateOf (d : Deployment) : RollingUpdateDeployment :=
  default (mkRollingUpdate None None) (dep_RollingUpdate d).
Definition mergeDeploymentField (d : Deployment) (f : Field) : option Deployment :=
  let '(path, v) := f in
  if decide (path = ["spec"; "paused"]%string) then Some (d <| dep_Paused := bool_decide (v = VBool true) |>)
  else if decide (path = ["spec"; "minReadySeconds"]%string)
  then Some (d <| dep_MinReadySeconds := default 0 (intOf v) |>)
  else if decide (path = ["spec"; "progressDeadlineSeconds"]%string)
  then Some (d <| dep_ProgressDeadlineSeconds := intOf v |>)
  else if decide (path = ["spec"; "strategy"; "type"]%string)
  then Some (d <| dep_StrategyType := default ""%string (textOf v) |>)
  else if decide (path = ["spec"; "strategy"; "rollingUpdate"; "maxSurge"]%string)
  then Some (d <| dep_RollingUpdate :=
         Some (mkRollingUpdate (ru_MaxUnavailable (rollingUpdateOf d)) (intOrStringOf v)) |>)
  else if decide (path = ["spec"; "strategy"; "rollingUpdate"; "maxUnavailable"]%string)
  then Some (d <| dep_RollingUpdate :=
         Some (mkRollingUpdate (intOrStringOf v) (ru_MaxSurge (rollingUpdateOf d))) |>)
  else option_map (fun m => d <| dep_Meta := m |>) (mergeMeta f (dep_Meta d)).
Fixpoint mergeDeployment (fields : list Field) (d : Deployment) : option Deployment :=
  match fields with
  | [] => Some d
  | f :: rest => d ← mergeDeploymentField d f; mergeDeployment rest d
  end.

(** A workload with the saved settings and without the marks of the release. *)
Definition unmarked (m : ObjectMeta) : ObjectMeta :=
  m <| Annotations := Some (delete BatchReleaseControlAnnotation
         (delete OriginalDeploymentStrategyAnnotation (default ∅ (Annotations m)))) |>.
Definition restoredCloneSet (setting : OriginalDeploymentStrategy) (c : CloneSet) : CloneSet :=
  c <| clone_Meta := unmarked (clone_Meta c) |>
    <| clone_MinReadySeconds := os_MinReadySeconds setting |>
    <| clone_MaxSurge := os_MaxSurge setting |>
    <| clone_MaxUnavailable := os_MaxUnavailable setting |>.
Definition restoredDeployment (setting : OriginalDeploymentStrategy) (d : Deployment) : Deployment :=
  d <| dep_Meta := (unmarked (dep_Meta d))
         <| Labels := delete DeploymentStableRevisionLabel (Labels (dep_Meta d)) |> |>
    <| dep_Paused := false |>
    <| dep_MinReadySeconds := os_MinReadySeconds setting |>
    <| dep_ProgressDeadlineSeconds := os_ProgressDeadlineSeconds setting |>
    <| dep_RollingUpdate := Some (mkRollingUpdate (os_MaxUnavailable setting) (os_MaxSurge setting)) |>.

(** The values a workload has before a release, with the defaults of the API. *)
Definition cloneSetSetting (c : CloneSet) : OriginalDeploymentStrategy :=
  mkOriginal (Some (default (FromString "20%") (clone_MaxUnavailable c)))
    (Some (default (FromString "0%") (clone_MaxSurge c))) (clone_MinReadySeconds c) None.
Definition deploymentSetting (d : Deployment) : OriginalDeploymentStrategy :=
  mkOriginal (Some (default (FromString "25%") (ru_MaxUnavailable (rollingUpdateOf d))))
    (Some (default (FromString "25%") (ru_MaxSurge (rollingUpdateOf d)))) (dep_MinReadySeconds d)
    (Some (default 600 (dep_ProgressDeadlineSeconds d))).

(** ** The end of a release *)

Section finalize.
Context {W : Type} `{Api W CloneSet} `{Api W Deployment} `{Api W ReplicaSet} `{PatchInto W Deployment}
  `{ListApi W ReplicaSet} `{HPAClient W} `{ObjectKind} `{K8sLib} `{SortLib} `{MetaLib} `{TypeMeta}
  `{UnstructuredLib} `{Json OwnerReference} `{Json LabelSelector} `{Json OriginalDeploymentStrategy}.

(** The pods of a Deployment as the end of a release wants them. *)
Definition allUpdatedAndReady (d : Deployment) : Prop :=
  let s := dep_Status d in
  dep_Paused d = false /\ ds_ReadyReplicas s = ds_UpdatedReplicas s
  /\ exists n, DeploymentMaxUnavailable d = Ok n /\ ds_Replicas s <= wrap32 (n + ds_AvailableReplicas s).

Lemma bg_wait_Ok d : bg_waitAllUpdatedAndReady d = Ok tt -> allUpdatedAndReady d.
Proof.
  unfold bg_waitAllUpdatedAndReady, allUpdatedAndReady. destruct (dep_Paused d); [done|].
  case_decide as Hr; [done|]. intros Hw. apply res_bind_Ok in Hw as (n & En & Hw).
  case_decide; [done|]. split; [done|]. split; [lia|]. exists n. split; [done|lia].
Qed.

(** The patches of the two ends of a release, merged. *)
Lemma merge_cloneset_finalize setting stored :
  mergeCloneSet
    [ClonesetPatch_UpdateMinReadySeconds (os_MinReadySeconds setting);
     ClonesetPatch_UpdateMaxSurge (os_MaxSurge setting);
     ClonesetPatch_UpdateMaxUnavailable (os_MaxUnavailable setting);
     DeleteAnnotation OriginalDeploymentStrategyAnnotation;
     DeleteAnnotation BatchReleaseControlAnnotation] stored
  = Some (restoredCloneSet setting stored).
Proof. destruct setting as [[[]|] [[]|] ? ?], stored as [[] ? ? ? ? ? ? ? ? ? ?]; reflexivity. Qed.

Lemma merge_deployment_finalize setting stored :
  mergeDeployment
    [DeploymentPatch_UpdatePaused false;
     DeploymentPatch_UpdateMinReadySeconds (os_MinReadySeconds setting);
     DeploymentPatch_UpdateProgressDeadlineSeconds (os_ProgressDeadlineSeconds setting);
     DeploymentPatch_UpdateMaxSurge (os_MaxSurge setting);
     DeploymentPatch_UpdateMaxUnavailable (os_MaxUnavailable setting);
     DeleteAnnotation OriginalDeploymentStrategyAnnotation;
     DeleteLabel DeploymentStableRevisionLabel;
     DeleteAnnotation BatchReleaseControlAnnotation] stored
  = Some (restoredDeployment setting stored).
Proof.
  destruct setting as [[[]|] [[]|] ? [|]], stored as [[] ? ? ? ? [[]|] ? ? ? ? ?]; reflexivity.
Qed.

Lemma cloneset_finalized release c w w' :
  BatchPartition (br_Plan release) = None -> bgcloneset_Finalize c release w = (Ok tt, w') ->
  cls_ReadyReplicas (clone_Status c) = cls_UpdatedReadyReplicas (clone_Status c)
  /\ exists w1, RestoreHPA (OCloneSet c) w1 = (Ok tt, w')
     /\ if restored (clone_Meta c) then w1 = w else
        exists setting fields, GetOriginalSetting (clone_Meta c) = Ok setting
        /\ api_Patch (O := CloneSet) (clone_Meta c) (PatchFields fields) w = (Ok tt, w1)
        /\ forall stored, mergeCloneSet fields stored = Some (restoredCloneSet setting stored).
Proof.
  intros Hp Hrun. unfold bgcloneset_Finalize in Hrun. rewrite Hp in Hrun.
  apply bind_Ok_inv in Hrun as ([] & w1 & Hpatch & Hrun).
  case_decide as Hr; [done|]. split; [lia|]. exists w1. split; [done|].
  destruct (restored (clone_Meta c)); [by injection Hpatch as <-|].
  apply bind_Ok_inv in Hpatch as (setting & w2 & Hset & Hpatch). unfold lift in Hset.
  injection Hset as Hset <-. eexists setting, _. split; [done|]. split; [exact Hpatch|].
  intros stored. apply merge_cloneset_finalize.
Qed.

Lemma deployment_finalized release d w w' :
  BatchPartition (br_Plan release) = None -> restored (dep_Meta d) = false ->
  bgdeployment_Finalize d release w = (Ok tt, w') ->
  exists setting fields d' w1, GetOriginalSetting (dep_Meta d) = Ok setting
  /\ api_PatchInto (dep_Meta d) (PatchFields fields) w = (Ok d', w1)
  /\ (forall stored, mergeDeployment fields stored = Some (restoredDeployment setting stored))
  /\ allUpdatedAndReady d' /\ RestoreHPA (ODeployment d) w1 = (Ok tt, w').
Proof.
  intros Hp Hrest Hrun. unfold bgdeployment_Finalize in Hrun. rewrite Hp, Hrest in Hrun.
  apply bind_Ok_inv in Hrun as (d' & w1 & Hpatch & Hrun).
  apply bind_Ok_inv in Hpatch as (setting & w2 & Hset & Hpatch). unfold lift in Hset.
  injection Hset as Hset <-. eexists setting, _, d', w1. split; [done|]. split; [exact Hpatch|].
  split; [intros stored; apply merge_deployment_finalize|].
  destruct (bg_waitAllUpdatedAndReady d') as [[]|e|] eqn:Ew; [|by destruct e|done].
  split; [by apply bg_wait_Ok|done].
Qed.

(** The saved setting is read back from the annotation. *)
Lemma saved_read_back `{!JsonLaws OriginalDeploymentStrategy} (s : OriginalDeploymentStrategy) m :
  Marshal s <> ""%string -> annotation m OriginalDeploymentStrategyAnnotation = Marshal s ->
  GetOriginalSetting m = Ok s.
Proof.
  intros Hs Hm. unfold GetOriginalSetting. rewrite Hm. destruct (String.eqb_spec (Marshal s) ""); [done|].
  by rewrite unmarshal_marshal.
Qed.

Lemma saved_annotation m (saved control : string) annotations :
  Annotations m = Some (partial_alter (fun _ => Some control) BatchReleaseControlAnnotation
    (partial_alter (fun _ => Some saved) OriginalDeploymentStrategyAnnotation annotations)) ->
  annotation m OriginalDeploymentStrategyAnnotation = saved.
Proof.
  intros E. unfold annotation, mapget. rewrite E. simpl.
  by rewrite lookup_partial_alter_ne, lookup_partial_alter_eq by done.
Qed.

Lemma cloneset_initialized `{!JsonLaws OriginalDeploymentStrategy} release c w w' :
  (forall s : OriginalDeploymentStrategy, Marshal s <> ""%string) ->
  annotation (clone_Meta c) OriginalDeploymentStrategyAnnotation = ""%string ->
  IsControlledByBatchRelease release (clone_Meta c) = false ->
  bgcloneset_Initialize c release w = (Ok tt, w') ->
  exists fields w1 c1, api_Patch (O := CloneSet) (clone_Meta c) (PatchFields fields) w1 = (Ok tt, w')
  /\ mergeCloneSet fields c = Some c1 /\ GetOriginalSetting (clone_Meta c1) = Ok (cloneSetSetting c).
Proof.
  intros Hjson Hnone Hctl Hrun. unfold bgcloneset_Initialize in Hrun. rewrite Hctl in Hrun.
  apply bind_Ok_inv in Hrun as ([] & w1 & _ & Hrun). apply bind_Ok_inv in Hrun as (saved & w2 & Hs & Hrun).
  unfold lift, savedSetting, GetOriginalSetting in Hs. rewrite Hnone in Hs.
  injection Hs as <- <-. eexists _, w1, _. split; [exact Hrun|]. split; [reflexivity|].
  apply saved_read_back; [apply Hjson|]. destruct c as [[] ? ? ? ? ? ? ? ? ? ?].
  by eapply saved_annotation.
Qed.

Lemma deployment_initialized `{!JsonLaws OriginalDeploymentStrategy} release d w w' :
  (forall s : OriginalDeploymentStrategy, Marshal s <> ""%string) ->
  annotation (dep_Meta d) OriginalDeploymentStrategyAnnotation = ""%string ->
  IsControlledByBatchRelease release (dep_Meta d) = false ->
  bgdeployment_Initialize d release w = (Ok tt, w') ->
  exists fields w1 d1, api_Patch (O := Deployment) (dep_Meta d) (PatchFields fields) w1 = (Ok tt, w')
  /\ mergeDeployment fields d = Some d1 /\ GetOriginalSetting (dep_Meta d1) = Ok (deploymentSetting d).
Proof.
  intros Hjson Hnone Hctl Hrun. unfold bgdeployment_Initialize in Hrun. rewrite Hctl in Hrun.
  apply bind_Ok_inv in Hrun as ([] & w1 & _ & Hrun). apply bind_Ok_inv in Hrun as ([] & w2 & _ & Hrun).
  unfold patchDeployment in Hrun. apply bind_Ok_inv in Hrun as (saved & w3 & Hs & Hrun).
  unfold lift, savedSetting, GetOriginalSetting in Hs. rewrite Hnone in Hs. injection Hs as <- <-.
  apply bind_Ok_inv in Hrun as (p & w4 & Hp & Hrun). destruct p as [[]|e]; [|done]. injection Hrun as <-.
  apply catch_Ok_inv in Hp. simpl in Hp. eexists _, w2, _. split; [exact Hp|]. split; [reflexivity|].
  apply saved_read_back; [apply Hjson|]. destruct d as [[] ? ? ? ? [[]|] ? ? ? ? ?]; by eapply saved_annotation.
Qed.

(** A restored Deployment has no object to look at: the check of its pods passes. *)
Lemma bg_wait_empty m : bg_waitAllUpdatedAndReady (emptyDeployment <| dep_Meta := m |>) = Ok tt.
Proof. reflexivity. Qed.

(** C27. The end of a blue-green release.  A release whose partition is still set leaves
    the workload alone.  Else the saved settings come back: unless nothing is saved any
    more (or the workload is being deleted), [Finalize] first sends one patch, whose merge
    into any state of the workload gives minReadySeconds, maxSurge and maxUnavailable, and
    the progress deadline of a Deployment, the values that were saved, unpauses a
    Deployment, takes the marks of the release off and changes nothing else.  What
    [Initialize] saved are the values that the workload had, the API's defaults for those
    it had not.  A CloneSet succeeds only when all ready pods of the object are updated
    ones, and then by restoring the autoscaler last.  A Deployment waits for the pods in
    the answer to its patch, but only in the call that restores it: each later call (and
    every call for a Deployment that is being deleted) restores the autoscaler whatever
    the pods are. *)
Theorem bluegreen_finalize (release : BatchRelease) (w : W) `{!JsonLaws OriginalDeploymentStrategy}
    (Hjson : forall s : OriginalDeploymentStrategy, Marshal s <> ""%string) :
  (is_Some (BatchPartition (br_Plan release)) -> forall c d,
     bgcloneset_Finalize c release w = (Ok tt, w) /\ bgdeployment_Finalize d release w = (Ok tt, w))
  /\ (BatchPartition (br_Plan release) = None ->
      (forall c w', bgcloneset_Finalize c release w = (Ok tt, w') ->
         cls_ReadyReplicas (clone_Status c) = cls_UpdatedReadyReplicas (clone_Status c)
         /\ exists w1, RestoreHPA (OCloneSet c) w1 = (Ok tt, w')
            /\ if restored (clone_Meta c) then w1 = w else
               exists setting fields, GetOriginalSetting (clone_Meta c) = Ok setting
               /\ api_Patch (O := CloneSet) (clone_Meta c) (PatchFields fields) w = (Ok tt, w1)
               /\ forall stored, mergeCloneSet fields stored = Some (restoredCloneSet setting stored))
      /\ (forall d w', restored (dep_Meta d) = false -> bgdeployment_Finalize d release w = (Ok tt, w') ->
           exists setting fields d' w1, GetOriginalSetting (dep_Meta d) = Ok setting
           /\ api_PatchInto (dep_Meta d) (PatchFields fields) w = (Ok d', w1)
           /\ (forall stored, mergeDeployment fields stored = Some (restoredDeployment setting stored))
           /\ allUpdatedAndReady d' /\ RestoreHPA (ODeployment d) w1 = (Ok tt, w'))
      /\ (forall d, restored (dep_Meta d) = true ->
           bgdeployment_Finalize d release w = RestoreHPA (ODeployment d) w))
  /\ (forall c w', annotation (clone_Meta c) OriginalDeploymentStrategyAnnotation = ""%string ->
       IsControlledByBatchRelease release (clone_Meta c) = false ->
       bgcloneset_Initialize c release w = (Ok tt, w') ->
       exists fields w1 c1, api_Patch (O := CloneSet) (clone_Meta c) (PatchFields fields) w1 = (Ok tt, w')
       /\ mergeCloneSet fields c = Some c1 /\ GetOriginalSetting (clone_Meta c1) = Ok (cloneSetSetting c))
  /\ (forall d w', annotation (dep_Meta d) OriginalDeploymentStrategyAnnotation = ""%string ->
       IsControlledByBatchRelease release (dep_Meta d) = false ->
       bgdeployment_Initialize d release w = (Ok tt, w') ->
       exists fields w1 d1, api_Patch (O := Deployment) (dep_Meta d) (PatchFields fields) w1 = (Ok tt, w')
       /\ mergeDeployment fields d = Some d1 /\ GetOriginalSetting (dep_Meta d1) = Ok (deploymentSetting d)).
Proof.
  split; [|split; [|split]].
  - intros [p Hp] c d. unfold bgcloneset_Finalize, bgdeployment_Finalize. by rewrite Hp.
  - intros Hp. split; [|split].
    + intros c w' Hrun. by eapply cloneset_finalized.
    + intros d w' Hrest Hrun. by eapply deployment_finalized.
    + intros d Hrest. unfold bgdeployment_Finalize. rewrite Hp, Hrest. unfold bind at 1, ret at 1.
      by rewrite bg_wait_empty.
  - intros c w' Hnone Hctl Hrun. by eapply cloneset_initialized.
  - intros d w' Hnone Hctl Hrun. by eapply deployment_initialized.
Qed.
End finalize.
