(* ===== verification/ControllerFinder.v ===== *)
(** * Finding the workload of a Rollout (pkg/util/controller_finder.go)

    The finders of the three styles, each of which turns one kind of object into the
    summary the rollout controller works on.  They give the class [WorkloadFinder] of
    RolloutUtil.v its meaning. *)

From S2P Require Export CanaryControls BlueGreenControls.

(** [schema.ParseGroupVersion]: the group of an API version. *)
Class GroupVersionParser := ParseGroupVersion : string -> option string.
(** [client.Patch] with [MergeFrom]: the change from one object to the other. *)
Class PatchDiff (W O : Type) := api_PatchDiff : O -> O -> M W unit.

Record ControllerRevision := mkControllerRevision { cr_Meta : ObjectMeta; cr_Revision : Z }.

(** [&Workload{IsStatusConsistent: false}] *)
Definition inconsistentWorkload : Workload :=
  mkWorkload "" "" emptyMeta 0 "" "" "" "" false false false.

Definition inProgressing (m : ObjectMeta) : bool := hasAnnotation m InRolloutProgressingAnnotation.

Definition verifyGroupKind `{GroupVersionParser} (ref : ObjectRef) (gvk : GroupVersionKind) : bool :=
  match ParseGroupVersion (APIVersion ref) with
  | None => false
  | Some group => String.eqb (Kind ref) (GVKKind gvk) && String.eqb (Group gvk) group
  end.

Section finders.
Context {W : Type} `{Api W CloneSet} `{Api W KruiseDaemonSet} `{Api W DaemonSet} `{Api W Deployment}
  `{PatchDiff W DaemonSet} `{ListApi W ReplicaSet} `{ListApi W Deployment} `{ListApi W ControllerRevision}
  `{ObjectReader W} `{K8sLib} `{WorkloadFilter} `{GroupVersionParser} `{ObjectKind} `{SortLib} `{MetaLib}
  `{Strconv} `{TemplateHash} `{UnstructuredLib}.
Context `{Json ObjectMeta} `{Json LabelSelector} `{Json DaemonSetRevisionInfo}.

Abbreviation Finder := (string -> ObjectRef -> M W (option Workload)).

(** The opening of a finder: another kind, and an object that is not there, is left to
    the next one; an object whose status lags behind is reported as inconsistent. *)
Definition finding {O} (matches : bool) (get : M W O) (generations : O -> Z * Z)
    (found : O -> M W (option Workload)) : M W (option Workload) :=
  if negb matches then ret None else
  r <- catch get ;;
  match r with
  | inr err => if IsNotFound err then ret None else fail err
  | inl o =>
      let '(generation, observed) := generations o in
      if decide (generation <> observed) then ret (Some inconsistentWorkload) else found o
  end.

(** A consistent summary, outside of a release. *)
Definition summary (object : WorkloadObject) (replicas : Z) (stable canary hash labelKey : string) : Workload :=
  let '(apiVersion, kind) := ObjectTypeMeta object in
  mkWorkload apiVersion kind (objMeta object) replicas stable canary hash labelKey false false true.

Definition getKruiseCloneSet : Finder := fun namespace ref =>
  finding (verifyGroupKind ref ControllerKruiseKindCS) (api_Get (O := CloneSet) (namespace, RefName ref))
    (fun o => (Generation (clone_Meta o), cls_ObservedGeneration (clone_Status o))) (fun cloneSet =>
  let status := clone_Status cloneSet in
  let update := afterDash (cls_UpdateRevision status) in
  replicas <- lift (deref (clone_Replicas cloneSet)) ;;
  let workload := summary (OCloneSet cloneSet) replicas (afterDash (cls_CurrentRevision status)) update
                    update DefaultDeploymentUniqueLabelKey in
  ret (Some (if negb (inProgressing (wl_Meta workload)) then workload else
    workload <| InRolloutProgressing := true |>
      <| IsInRollback := String.eqb (cls_CurrentRevision status) (cls_UpdateRevision status)
           && bool_decide (cls_UpdatedReplicas status <> cls_Replicas status) |>))).

Definition getKruiseDaemonSet : Finder := fun namespace ref =>
  finding (verifyGroupKind ref ControllerKruiseKindDS) (api_Get (O := KruiseDaemonSet) (namespace, RefName ref))
    (fun o => (Generation (kds_Meta o), dss_ObservedGeneration (kds_Status o))) (fun daemonSet =>
  let hash := afterDash (kds_DaemonSetHash daemonSet) in
  let workload := summary (OKruiseDaemonSet daemonSet) (dss_DesiredNumberScheduled (kds_Status daemonSet))
                    "" hash hash DefaultDeploymentUniqueLabelKey in
  ret (Some (workload <| InRolloutProgressing := inProgressing (wl_Meta workload) |>))).

(** Newest first. *)
Definition getControllerRevisionsForDaemonSet (daemonSet : DaemonSet) : M W (list ControllerRevision) :=
  revisions <- api_List (O := ControllerRevision) (Namespace (dst_Meta daemonSet)) (fun _ => true) ;;
  ret (sortSlice (fun a b => bool_decide (cr_Revision a > cr_Revision b))
         (filter (fun r => or_UID <$> GetControllerOf (cr_Meta r) = Some (UID (dst_Meta daemonSet))) revisions)).

Definition revisionHash (r : ControllerRevision) : option string :=
  Labels (cr_Meta r) !! ControllerRevisionHashLabelKey.

(** The canary and the stable revision of a list of revisions. *)
Definition daemonSetRevisions (revisions : list ControllerRevision) : string * string :=
  match revisions with
  | [] => (""%string, ""%string)
  | latest :: older =>
      let canary := default ""%string (revisionHash latest) in
      (canary, match older with
               | second :: _ => default ""%string (revisionHash second)
               | [] => canary
               end)
  end.

(** The annotations are shared with the summary, which sees the new revisions too. *)
Definition patchDaemonSetRevisionAnnotations (daemonSet : DaemonSet) (stableRevision canaryRevision : string)
    : M W ObjectMeta :=
  let '(existingCanary, existingStable) := ParseDaemonSetRevision (Annotations (dst_Meta daemonSet)) in
  let outdated revision existing := nonempty revision && negb (String.eqb existing revision) in
  if outdated canaryRevision existingCanary || outdated stableRevision existingStable then
    let meta := (dst_Meta daemonSet) <| Annotations :=
      SetDaemonSetRevision (Some (default ∅ (Annotations (dst_Meta daemonSet)))) canaryRevision stableRevision |> in
    api_PatchDiff daemonSet (daemonSet <| dst_Meta := meta |>) ;;
    ret meta
  else ret (dst_Meta daemonSet).

Definition getNativeDaemonSet : Finder := fun namespace ref =>
  finding (verifyGroupKind ref ControllerKindDS) (api_Get (O := DaemonSet) (namespace, RefName ref))
    (fun o => (Generation (dst_Meta o), dss_ObservedGeneration (dst_Status o))) (fun daemonSet =>
  let workload := summary (ODaemonSet daemonSet) (dss_DesiredNumberScheduled (dst_Status daemonSet))
                    "" "" "" ControllerRevisionHashLabelKey in
  if negb (inProgressing (wl_Meta workload)) then ret (Some workload) else
  revisions <- getControllerRevisionsForDaemonSet daemonSet ;;
  let '(canary, stable) := daemonSetRevisions revisions in
  let workload := workload <| wl_CanaryRevision := canary |> <| wl_PodTemplateHash := canary |>
                    <| wl_StableRevision := stable |> <| InRolloutProgressing := true |>
                    <| IsInRollback := nonempty stable && String.eqb stable canary |> in
  meta <- patchDaemonSetRevisionAnnotations daemonSet stable canary ;;
  ret (Some (workload <| wl_Meta := meta |>))).

Definition deploymentGenerations (d : Deployment) : Z * Z :=
  (Generation (dep_Meta d), ds_ObservedGeneration (dep_Status d)).

Definition getAdvancedDeployment : Finder := fun namespace ref =>
  finding (verifyGroupKind ref ControllerKindDep) (api_Get (O := Deployment) (namespace, RefName ref))
    deploymentGenerations (fun deployment =>
  replicas <- lift (deref (dep_Replicas deployment)) ;;
  let workload := summary (ODeployment deployment) replicas
                    (mapget (Labels (dep_Meta deployment)) DeploymentStableRevisionLabel)
                    (ComputeHash (dep_Template deployment) None) "" DefaultDeploymentUniqueLabelKey in
  if negb (inProgressing (wl_Meta workload)) then ret (Some workload) else
  rss <- GetReplicaSetsForDeployment deployment ;;
  found <- lift (FindCanaryAndStableReplicaSet rss deployment) ;;
  let hash := match fst found with
              | Some newRS => mapget (Labels (rs_Meta newRS)) DefaultDeploymentUniqueLabelKey
              | None => ""%string
              end in
  ret (Some (workload <| wl_PodTemplateHash := hash |> <| InRolloutProgressing := true |>
    <| IsInRollback := nonempty (wl_StableRevision workload)
                       && String.eqb (wl_StableRevision workload) hash |>))).

(** The newest canary Deployment that is not going.  A selector that cannot be built is
    no selector, with which every Deployment is listed. *)
Definition getLatestCanaryDeployment (stable : Deployment) : M W (option Deployment) :=
  let selector := match LabelSelectorAsSelector
                    (Some (mkLabelSelector {[ CanaryDeploymentLabel := Name (dep_Meta stable) ]} [])) with
                  | Ok selector => selector
                  | _ => fun _ => true
                  end in
  items <- api_List (O := Deployment) (Namespace (dep_Meta stable)) selector ;;
  ret (snd <$> list_find (fun d => deleting (dep_Meta d) = false)
         (sortSlice (fun a b => bool_decide (CreationTimestamp (dep_Meta b) < CreationTimestamp (dep_Meta a)))
            items)).

Definition getDeployment : Finder := fun namespace ref =>
  finding (verifyGroupKind ref ControllerKindDep) (api_Get (O := Deployment) (namespace, RefName ref))
    deploymentGenerations (fun stable =>
  stableRs <- GetDeploymentStableRs stable ;;
  match stableRs with
  | None => ret (Some inconsistentWorkload)
  | Some stableRs =>
      replicas <- lift (deref (dep_Replicas stable)) ;;
      let hashOf rs := mapget (Labels (rs_Meta rs)) DefaultDeploymentUniqueLabelKey in
      let workload := summary (ODeployment stable) replicas (hashOf stableRs)
                        (ComputeHash (dep_Template stable) None) "" DefaultDeploymentUniqueLabelKey in
      if negb (inProgressing (wl_Meta workload)) then ret (Some workload) else
      let workload := workload <| InRolloutProgressing := true |> in
      if EqualIgnoreHash (rs_Template stableRs) (dep_Template stable)
      then ret (Some (workload <| IsInRollback := true |>)) else
      canary <- getLatestCanaryDeployment stable ;;
      match canary with
      | None => ret (Some workload)
      | Some canary =>
          canaryRs <- GetDeploymentStableRs canary ;;
          ret (Some match canaryRs with
                    | None => workload
                    | Some canaryRs => workload <| wl_PodTemplateHash := hashOf canaryRs |>
                    end)
      end
  end).

Definition getStatefulSetLikeWorkload : Finder := fun namespace ref =>
  match GetEmptyWorkloadObject (FromAPIVersionAndKind (APIVersion ref) (Kind ref)) with
  | None => ret None
  | Some gvk =>
      r <- catch (getObject gvk (namespace, RefName ref)) ;;
      match r with
      | inr err => if IsNotFound err then ret None else fail err
      | inl set =>
          info <- lift (ParseWorkload set) ;;
          let status := wi_Status info in
          if decide (Generation (wi_Meta info) <> ws_ObservedGeneration status)
          then ret (Some inconsistentWorkload) else
          let workload := (summary set (wi_Replicas info) (ws_StableRevision status) (ws_UpdateRevision status)
                             (ws_UpdateRevision status) ControllerRevisionHashLabelKey)
                            <| wl_Meta := wi_Meta info |> in
          ret (Some (if negb (inProgressing (wl_Meta workload)) then workload else
            workload <| InRolloutProgressing := true |>
              <| IsInRollback := String.eqb (ws_UpdateRevision status) (ws_StableRevision status)
                   && bool_decide (ws_UpdatedReplicas status <> ws_Replicas status) |>))
      end
  end.

Definition canaryStyleFinders : list Finder := [getDeployment].
Definition partitionStyleFinders : list Finder :=
  [getKruiseCloneSet; getAdvancedDeployment; getKruiseDaemonSet; getNativeDaemonSet; getStatefulSetLikeWorkload].
Definition bluegreenStyleFinders : list Finder := [getKruiseCloneSet; getAdvancedDeployment].

(** The first finder with an answer. *)
Fixpoint firstFound (finders : list Finder) (namespace : string) (ref : ObjectRef) : M W (option Workload) :=
  match finders with
  | [] => ret None
  | finder :: rest =>
      workload <- finder namespace ref ;;
      match workload with
      | Some workload => ret (Some workload)
      | None => firstFound rest namespace ref
      end
  end.

Definition finder_GetWorkloadForRef (rollout : Rollout) : M W (option Workload) :=
  style <- lift (GetRollingStyle (ro_Strategy rollout)) ;;
  let finders := match style with
                 | CanaryRollingStyle => canaryStyleFinders ++ partitionStyleFinders
                 | BlueGreenRollingStyle => bluegreenStyleFinders
                 | _ => partitionStyleFinders
                 end in
  firstFound finders (Namespace (ro_Meta rollout)) (WorkloadRef (ro_Spec rollout)).

#[local] Instance codeFinder : WorkloadFinder W := finder_GetWorkloadForRef.
End finders.

(** ** Properties *)

Section properties.
Context {W : Type} `{Api W CloneSet} `{Api W KruiseDaemonSet} `{Api W DaemonSet} `{Api W Deployment}
  `{PatchDiff W DaemonSet} `{ListApi W ReplicaSet} `{ListApi W Deployment} `{ListApi W ControllerRevision}
  `{ObjectReader W} `{K8sLib} `{WorkloadFilter} `{GroupVersionParser} `{ObjectKind} `{SortLib} `{MetaLib}
  `{Strconv} `{TemplateHash} `{UnstructuredLib}.
Context `{Json ObjectMeta} `{Json LabelSelector} `{Json DaemonSetRevisionInfo}.

(** What the release managers rely on in a summary that is consistent. *)
Definition wellFormed (wl : Workload) : Prop :=
  IsStatusConsistent wl = true
  /\ InRolloutProgressing wl = inProgressing (wl_Meta wl)
  /\ (IsInRollback wl = true -> InRolloutProgressing wl = true)
  /\ (wl_RevisionLabelKey wl = DefaultDeploymentUniqueLabelKey
      \/ wl_RevisionLabelKey wl = ControllerRevisionHashLabelKey).
Definition wellFound (m : M W (option Workload)) : Prop :=
  forall w wl w', m w = (Ok (Some wl), w') -> wl = inconsistentWorkload \/ wellFormed wl.

Lemma finding_spec {O} matches (get : M W O) generations found (w w' : W) wl :
  finding matches get generations found w = (Ok (Some wl), w') ->
  matches = true /\ exists o w1, get w = (Ok o, w1)
  /\ (if decide (fst (generations o) = snd (generations o)) then found o w1 = (Ok (Some wl), w')
      else wl = inconsistentWorkload).
Proof.
  unfold finding. intros Hrun. destruct matches; [|by inv_run]. split; [done|]. simpl in Hrun.
  apply bind_Ok_inv in Hrun as ([o|err] & w1 & Hget & Hrun); [|by destruct (IsNotFound err); inv_run].
  apply catch_Ok_inv in Hget. exists o, w1. split; [done|].
  destruct (generations o) as [g obs]. simpl. destruct (decide (g = obs)) as [->|Hne].
  - by rewrite decide_False in Hrun by auto.
  - rewrite decide_True in Hrun by done. by inv_run.
Qed.

Lemma wellFound_finding {O} matches (get : M W O) generations found :
  (forall o, wellFound (found o)) -> wellFound (finding matches get generations found).
Proof.
  intros Hf w wl w' Hrun. apply finding_spec in Hrun as (_ & o & w1 & _ & Hrun).
  case_decide; [by eapply Hf|by left].
Qed.

Lemma wellFound_bind {A} (m : M W A) k : (forall a, wellFound (k a)) -> wellFound (bind m k).
Proof. intros Hk w wl w' Hrun. apply bind_Ok_inv in Hrun as (a & w1 & _ & Hrun). by eapply Hk. Qed.
Lemma wellFound_ret wl : wl = inconsistentWorkload \/ wellFormed wl -> wellFound (ret (Some wl)).
Proof. intros Hwl w wl' w' Hrun. apply ret_Ok_inv in Hrun as [[= ->] _]. done. Qed.
Lemma wellFound_none : wellFound (ret None).
Proof. intros w wl w' Hrun. by inv_run. Qed.
Lemma wellFound_fail e : wellFound (fail e).
Proof. intros w wl w' Hrun. by inv_run. Qed.

Lemma summary_wellFormed object replicas stable canary hash labelKey :
  labelKey = DefaultDeploymentUniqueLabelKey \/ labelKey = ControllerRevisionHashLabelKey ->
  let wl := summary object replicas stable canary hash labelKey in
  wl_Meta wl = objMeta object /\ InRolloutProgressing wl = false
  /\ (inProgressing (objMeta object) = false -> wellFormed wl)
  /\ (inProgressing (objMeta object) = true -> forall rollback,
        wellFormed (wl <| InRolloutProgressing := true |> <| IsInRollback := rollback |>)).
Proof. intros Hkey. unfold summary, wellFormed. destruct (ObjectTypeMeta object). simpl. naive_solver. Qed.

(** Walk through a finder; a summary at its end is judged by whether the object is in a
    release. *)
Ltac solve_found :=
  repeat (cbv zeta; first
    [ apply wellFound_none | apply wellFound_fail | apply wellFound_ret
    | apply wellFound_finding; intros ? | apply wellFound_bind; intros ?
    | match goal with
      | |- wellFound (if ?b then _ else _) => destruct b eqn:?
      | |- wellFound (match ?x with _ => _ end) => destruct x
      end ]);
  try match goal with
  | |- ?wl = inconsistentWorkload \/ wellFormed ?wl =>
      first [ by left | right; unfold wellFormed, summary in *; destruct (ObjectTypeMeta _); simpl in * ]
  end.

Lemma inProgressing_revision m v :
  inProgressing (m <| Annotations := Some (<[DaemonSetRevisionAnnotation := v]> (default ∅ (Annotations m))) |>)
  = inProgressing m.
Proof. unfold inProgressing, hasAnnotation. simpl. by rewrite lookup_insert_ne. Qed.

Lemma patched_inProgressing daemonSet stable canary (w w' : W) meta :
  patchDaemonSetRevisionAnnotations daemonSet stable canary w = (Ok meta, w') ->
  inProgressing meta = inProgressing (dst_Meta daemonSet).
Proof.
  unfold patchDaemonSetRevisionAnnotations. destruct (ParseDaemonSetRevision _) as [ec es].
  destruct (_ || _); intros Hrun; inv_run; [|done]. simpl. apply inProgressing_revision.
Qed.

Lemma found_cloneSet namespace ref : wellFound (getKruiseCloneSet namespace ref).
Proof. unfold getKruiseCloneSet. solve_found. all: destruct (inProgressing _) eqn:E; simpl; naive_solver. Qed.
Lemma found_daemonSet namespace ref : wellFound (getKruiseDaemonSet namespace ref).
Proof. unfold getKruiseDaemonSet. solve_found. all: naive_solver. Qed.
Lemma found_advanced namespace ref : wellFound (getAdvancedDeployment namespace ref).
Proof. unfold getAdvancedDeployment. solve_found. all: destruct (inProgressing _) eqn:E; naive_solver. Qed.
Lemma found_deployment namespace ref : wellFound (getDeployment namespace ref).
Proof.
  unfold getDeployment. solve_found. all: repeat case_match; destruct (inProgressing _) eqn:E; naive_solver.
Qed.
Lemma found_statefulSet namespace ref : wellFound (getStatefulSetLikeWorkload namespace ref).
Proof. unfold getStatefulSetLikeWorkload. solve_found. all: destruct (inProgressing _) eqn:E; naive_solver. Qed.

(** A native DaemonSet in a release, by its revisions. *)
Lemma nativeDaemonSet_run namespace ref (w w' : W) wl :
  getNativeDaemonSet namespace ref w = (Ok (Some wl), w') ->
  wl = inconsistentWorkload
  \/ (wellFormed wl /\ (IsInRollback wl = true ->
        exists daemonSet revisions w1 w2,
          getControllerRevisionsForDaemonSet daemonSet w1 = (Ok revisions, w2)
          /\ wl_CanaryRevision wl = fst (daemonSetRevisions revisions)
          /\ snd (daemonSetRevisions revisions) = fst (daemonSetRevisions revisions)
          /\ snd (daemonSetRevisions revisions) <> ""%string)).
Proof.
  intros Hrun. unfold getNativeDaemonSet in Hrun. apply finding_spec in Hrun as (_ & ds & w1 & _ & Hrun).
  case_decide; [|by left]. right.
  pose proof (summary_wellFormed (ODaemonSet ds) (dss_DesiredNumberScheduled (dst_Status ds)) "" "" ""
    ControllerRevisionHashLabelKey (or_intror eq_refl)) as (Hmeta & _ & Hidle & Hbusy).
  cbv zeta in Hrun. rewrite Hmeta in Hrun. destruct (inProgressing (objMeta (ODaemonSet ds))) eqn:Ep; simpl in Hrun.
  2: { apply ret_Ok_inv in Hrun as [[= ->] _]. split; [by apply Hidle|].
       unfold summary. by destruct (ObjectTypeMeta _). }
  apply bind_Ok_inv in Hrun as (revisions & w2 & Hrev & Hrun).
  destruct (daemonSetRevisions revisions) as [canary stable] eqn:Er.
  apply bind_Ok_inv in Hrun as (meta & w3 & Hpatch & Hrun). apply ret_Ok_inv in Hrun as [[= ->] _].
  apply patched_inProgressing in Hpatch. split.
  - unfold wellFormed, summary. destruct (ObjectTypeMeta _). simpl in *. rewrite Hpatch, Ep. naive_solver.
  - simpl. intros [Hne Heq%String.eqb_eq]%andb_true_iff. exists ds, revisions, w1, w2.
    split; [done|]. rewrite Er. split; [done|]. split; [done|]. simpl.
    unfold nonempty in Hne. by apply negb_true_iff, String.eqb_neq in Hne.
Qed.

Lemma found_native namespace ref : wellFound (getNativeDaemonSet namespace ref).
Proof. intros w wl w' Hrun. apply nativeDaemonSet_run in Hrun. tauto. Qed.

Lemma firstFound_wellFound finders namespace ref :
  (forall finder, finder ∈ finders -> wellFound (finder namespace ref)) ->
  wellFound (firstFound finders namespace ref).
Proof.
  induction finders as [|finder finders IH]; intros Hall w wl w' Hrun; simpl in Hrun; [by inv_run|].
  apply bind_Ok_inv in Hrun as ([found|] & w1 & Hf & Hrun).
  - apply ret_Ok_inv in Hrun as [[= ->] ->]. eapply Hall; [by left|exact Hf].
  - eapply IH; [|exact Hrun]. intros f Hin. apply Hall. by right.
Qed.

(** The summary of a workload.  What the finders return for a Rollout is either the
    empty summary of a workload whose status lags behind its spec, marked as
    inconsistent, or a consistent one that is in progress exactly when the workload
    carries the annotation of a release, in rollback only when in progress, and has one
    of the two revision label keys.  Of a native DaemonSet with at least two revisions a
    rollback is recognised only when the newest two carry the same hash, which a
    rollback, where an older revision becomes the newest again, does not bring about. *)
Theorem finder_summary :
  (forall rollout (w w' : W) wl, finder_GetWorkloadForRef rollout w = (Ok (Some wl), w') ->
     wl = inconsistentWorkload \/ wellFormed wl)
  /\ forall namespace ref (w w' : W) wl,
       getNativeDaemonSet namespace ref w = (Ok (Some wl), w') -> IsInRollback wl = true ->
       exists daemonSet w1 w2 latest older,
         getControllerRevisionsForDaemonSet daemonSet w1 = (Ok (latest :: older), w2)
         /\ match older with
            | [] => True
            | second :: _ => revisionHash second = revisionHash latest
            end.
Proof.
  split.
  - intros rollout w w' wl Hrun. unfold finder_GetWorkloadForRef in Hrun.
    apply bind_Ok_inv in Hrun as (style & w1 & _ & Hrun). revert Hrun. apply firstFound_wellFound.
    intros finder Hin. assert (Hall : finder ∈ canaryStyleFinders ++ partitionStyleFinders)
      by (destruct style; set_solver).
    unfold canaryStyleFinders, partitionStyleFinders in Hall. set_unfold in Hall.
    destruct_or!; subst; auto using found_cloneSet, found_daemonSet, found_advanced, found_deployment,
      found_statefulSet, found_native.
  - intros namespace ref w w' wl Hrun Hroll. apply nativeDaemonSet_run in Hrun as [->|[_ Hrun]]; [done|].
    destruct (Hrun Hroll) as (ds & revisions & w1 & w2 & Hrev & _ & Heq & Hne).
    exists ds, w1, w2. destruct revisions as [|latest older]; [done|]. exists latest, older.
    split; [done|]. destruct older as [|second older]; [done|]. simpl in Heq, Hne.
    destruct (revisionHash second), (revisionHash latest); simpl in *; congruence.
Qed.
End properties.
