(* ===== verification/History.v ===== *)
(** * The history of releases (pkg/controller/rollouthistory)

    One RolloutHistory for each release id of a Rollout: created while the Rollout
    progresses, filled with what was released when it is healthy, and then completed
    with the pods of each step. *)

From S2P Require Export ControllerFinder LabelPatch ApiAlpha IngressProvider.

(** ** The RolloutHistory (api/v1alpha1/rollouthistory_types.go) *)

(** The raw JSON of a spec, with the name of its object. *)
Record NameAndSpecData := mkNamed { nsd_Name : string; nsd_Raw : string }.
Record RolloutInfo := mkRolloutInfo { ri_RolloutID : string; ri_Data : NameAndSpecData }.
Record HistoryWorkloadInfo := mkHistoryWorkload {
  hw_APIVersion : string;
  hw_Kind : string;
  hw_Data : NameAndSpecData
}.
Record TrafficRoutingInfo := mkTRInfo {
  tri_Ingress : option NameAndSpecData;
  tri_HTTPRoute : option NameAndSpecData
}.

Record RolloutHistorySpec := mkHistorySpec {
  hs_Rollout : RolloutInfo;
  hs_Workload : HistoryWorkloadInfo;
  hs_Service : NameAndSpecData;
  hs_TrafficRouting : TrafficRoutingInfo
}.

Record HistoryPod := mkHistoryPod { hp_Name : string; hp_IP : string; hp_NodeName : string }.
Record CanaryStepInfo := mkStepInfo { csi_CanaryStepIndex : Z; csi_Pods : list HistoryPod }.

Record RolloutHistoryStatus := mkHistoryStatus { hst_Phase : string; hst_CanarySteps : list CanaryStepInfo }.
Definition PhaseCompleted : string := "completed".

Record RolloutHistory := mkHistory {
  rh_Meta : ObjectMeta;
  rh_Spec : RolloutHistorySpec;
  rh_Status : RolloutHistoryStatus
}.
#[export] Instance eta_RolloutHistory : Eta RolloutHistory := fun x =>
  mkHistory (rh_Meta x) (rh_Spec x) (rh_Status x).
#[export] Instance RolloutHistory_object : KubeObject RolloutHistory :=
  {| metaOf := rh_Meta; withMeta m r := r <| rh_Meta := m |> |}.

Definition emptyNamed : NameAndSpecData := mkNamed "" "".
Definition emptyHistorySpec : RolloutHistorySpec :=
  mkHistorySpec (mkRolloutInfo "" emptyNamed) (mkHistoryWorkload "" "" emptyNamed) emptyNamed (mkTRInfo None None).

(** ** Parameters *)

(** [json.Marshal] of the spec of an object. *)
Class SpecJson (O : Type) := marshalSpec : O -> res string.
(** Label selectors as text: [LabelSelectorAsSelector] with [String], and [labels.Parse]. *)
Class SelectorText := {
  SelectorString : option LabelSelector -> res string;
  ParseSelector : string -> res (gmap string string -> bool)
}.

(** ** Finding the workload (util.go) *)

Definition rolloutIDLabel : string := "rollouts.kruise.io/rollout-id".
Definition rolloutNameLabel : string := "rollouts.kruise.io/rollout-name".

Definition chars : list string :=
  ["a"; "b"; "c"; "d"; "e"; "f"; "g"; "h"; "i"; "j"; "k"; "l"; "m"; "n"; "o"; "p"; "q"; "r"; "s"; "t"; "u"; "v";
   "w"; "x"; "y"; "z"; "1"; "2"; "3"; "4"; "5"; "6"; "7"; "8"; "9"; "0"]%string.

(** Empty when the source of randomness fails. *)
Fixpoint randAllString_loop {W} `{RandomInt W} (lenNum : nat) (str : string) : M W string :=
  match lenNum with
  | O => ret str
  | S n =>
      r <- catch (rand_Int 36) ;;
      match r with
      | inr _ => ret ""%string
      | inl i => l <- lift (go_index chars i) ;; randAllString_loop n (str +:+ l)%string
      end
  end.
Definition randAllString {W} `{RandomInt W} (lenNum : nat) : M W string := randAllString_loop lenNum "".

Section finders.
Context {W : Type} `{Api W CloneSet} `{Api W Deployment} `{Api W StatefulSet} `{Api W KruiseStatefulSet}
  `{GroupVersionParser} `{ObjectKind} `{UnstructuredLib}
  `{SpecJson CloneSet} `{SpecJson Deployment} `{SpecJson StatefulSet} `{SpecJson KruiseStatefulSet}.

(** The opening of the finders: another kind, and an object that is not there, is left to
    the next one.  A nil reference is dereferenced. *)
Definition lookingFor {O B} (gvk : GroupVersionKind) (found : O -> res B) `{Api W O} (namespace : string)
    (ref : option ObjectRef) : M W (option B) :=
  ref <- lift (deref ref) ;;
  if negb (verifyGroupKind ref gvk) then ret None else
  r <- catch (api_Get (O := O) (namespace, RefName ref)) ;;
  match r with
  | inr err => if IsNotFound err then ret None else fail err
  | inl workload => b <- lift (found workload) ;; ret (Some b)
  end.

Definition infoOf (object : WorkloadObject) (raw : res string) : res HistoryWorkloadInfo :=
  let '(apiVersion, kind) := ObjectTypeMeta object in
  res_map (fun raw => mkHistoryWorkload apiVersion kind (mkNamed (Name (objMeta object)) raw)) raw.

Definition getWorkloadInfoWithAdvancedStatefulSet : string -> option ObjectRef -> M W (option HistoryWorkloadInfo) :=
  lookingFor ControllerKruiseKindSts (fun o : KruiseStatefulSet => infoOf (OKruiseStatefulSet o) (marshalSpec o)).
Definition getWorkloadInfoWithCloneSet : string -> option ObjectRef -> M W (option HistoryWorkloadInfo) :=
  lookingFor ControllerKruiseKindCS (fun o : CloneSet => infoOf (OCloneSet o) (marshalSpec o)).
Definition getWorkloadInfoWithDeployment : string -> option ObjectRef -> M W (option HistoryWorkloadInfo) :=
  lookingFor ControllerKindDep (fun o : Deployment => infoOf (ODeployment o) (marshalSpec o)).
Definition getWorkloadInfoWithNativeStatefulSet : string -> option ObjectRef -> M W (option HistoryWorkloadInfo) :=
  lookingFor ControllerKindSts (fun o : StatefulSet => infoOf (OStatefulSet o) (marshalSpec o)).

(** A selector that is nil counts as not found. *)
Definition getLabelSelectorWithAdvancedStatefulSet (namespace : string) (ref : option ObjectRef)
    : M W (option LabelSelector) :=
  s <- lookingFor ControllerKruiseKindSts (fun o : KruiseStatefulSet => Ok (sts_Selector o)) namespace ref ;;
  ret (default None s).
Definition getLabelSelectorWithCloneSet (namespace : string) (ref : option ObjectRef) : M W (option LabelSelector) :=
  s <- lookingFor ControllerKruiseKindCS (fun o : CloneSet => Ok (clone_Selector o)) namespace ref ;;
  ret (default None s).
Definition getLabelSelectorWithDeployment (namespace : string) (ref : option ObjectRef) : M W (option LabelSelector) :=
  s <- lookingFor ControllerKindDep (fun o : Deployment => Ok (dep_Selector o)) namespace ref ;;
  ret (default None s).
Definition getLabelSelectorWithNativeStatefulSet (namespace : string) (ref : option ObjectRef)
    : M W (option LabelSelector) :=
  s <- lookingFor ControllerKindSts (fun o : StatefulSet => Ok (sts_Selector o)) namespace ref ;;
  ret (default None s).

(** The first finder that finds something. *)
Fixpoint firstFound {B} (finders : list (string -> option ObjectRef -> M W (option B))) (namespace : string)
    (ref : option ObjectRef) : M W (option B) :=
  match finders with
  | [] => ret None
  | finder :: rest =>
      found <- finder namespace ref ;;
      match found with Some _ => ret found | None => firstFound rest namespace ref end
  end.

Definition getWorkloadInfoForRef : string -> option ObjectRef -> M W (option HistoryWorkloadInfo) :=
  firstFound [getWorkloadInfoWithAdvancedStatefulSet; getWorkloadInfoWithCloneSet;
              getWorkloadInfoWithDeployment; getWorkloadInfoWithNativeStatefulSet].
Definition getLabelSelectorForRef : string -> option ObjectRef -> M W (option LabelSelector) :=
  firstFound [getLabelSelectorWithAdvancedStatefulSet; getLabelSelectorWithCloneSet;
              getLabelSelectorWithDeployment; getLabelSelectorWithNativeStatefulSet].
End finders.

(** ** The reconciler (rollouthistory_controller.go) *)

Section history.
Context {W : Type} `{Api W CloneSet} `{Api W Deployment} `{Api W StatefulSet} `{Api W KruiseStatefulSet}
  `{GroupVersionParser} `{ObjectKind} `{UnstructuredLib}
  `{SpecJson CloneSet} `{SpecJson Deployment} `{SpecJson StatefulSet} `{SpecJson KruiseStatefulSet}.
Context `{Api W alpha_Rollout} `{Api W RolloutHistory} `{ListApi W RolloutHistory} `{ListApi W Pod}
  `{Api W CoreService} `{Api W HTTPRoute} `{Api W IngressObject} `{RandomInt W} `{SelectorText}
  `{SpecJson alpha_Rollout} `{SpecJson CoreService} `{SpecJson HTTPRoute} `{SpecJson IngressObject}.

(** [rollout.Status.CanaryStatus.ObservedRolloutID] *)
Definition observedID (rollout : alpha_Rollout) : res string :=
  res_map (fun status => acs_ObservedRolloutID status) (deref (a_CanaryStatus (a_Status rollout))).

(** Of several the first one. *)
Definition getRolloutHistoryForRollout (rollout : alpha_Rollout) : M W (option RolloutHistory) :=
  id <- lift (observedID rollout) ;;
  labelSelector <- lift (ParseSelector
    (rolloutIDLabel +:+ "=" +:+ id +:+ "," +:+ rolloutNameLabel +:+ "=" +:+ Name (a_Meta rollout))%string) ;;
  rollouthistories <- api_List (O := RolloutHistory) (Namespace (a_Meta rollout)) labelSelector ;;
  ret (head rollouthistories).

Definition createRolloutHistoryForProgressingRollout (rollout : alpha_Rollout) : M W unit :=
  suffix <- randAllString 6 ;;
  id <- lift (observedID rollout) ;;
  api_Create (mkHistory
    (emptyMeta <| Name := (Name (a_Meta rollout) +:+ "-" +:+ suffix)%string |>
       <| Namespace := Namespace (a_Meta rollout) |>
       <| Labels := {[rolloutIDLabel := id; rolloutNameLabel := Name (a_Meta rollout)]} |>)
    emptyHistorySpec (mkHistoryStatus "" [])).

Definition getRolloutInfo (rollout : alpha_Rollout) : res RolloutInfo :=
  res_bind (observedID rollout) (fun id =>
  res_map (fun raw => mkRolloutInfo id (mkNamed (Name (a_Meta rollout)) raw)) (marshalSpec rollout)).

(** [rollout.Spec.Strategy.Canary.TrafficRoutings[0]] *)
Definition firstTrafficRouting (rollout : alpha_Rollout) : res alpha_TrafficRoutingRef :=
  res_bind (deref (a_Canary (a_Spec rollout))) (fun canary => deref (head (a_TrafficRoutings canary))).

(** An object that has to be there, and its spec. *)
Definition objectInfo {O} `{Api W O} `{SpecJson O} (key : ObjectKey) (missing : string) : M W (O * string) :=
  r <- catch (api_Get (O := O) key) ;;
  match r with
  | inr _ => fail (ErrOther missing)
  | inl o => raw <- lift (marshalSpec o) ;; ret (o, raw)
  end.

Definition getServiceInfo (rollout : alpha_Rollout) : M W NameAndSpecData :=
  ref <- lift (firstTrafficRouting rollout) ;;
  r <- objectInfo (O := CoreService) (Namespace (a_Meta rollout), a_Service ref) "service not find" ;;
  ret (mkNamed (Name (svc_Meta r.1)) r.2).

Definition getGateWayInfo (rollout : alpha_Rollout) (gatewayName : string) : M W NameAndSpecData :=
  r <- objectInfo (O := HTTPRoute) (Namespace (a_Meta rollout), gatewayName) "initGateway error" ;;
  ret (mkNamed (Name (hr_Meta r.1)) r.2).

Definition getIngressInfo (rollout : alpha_Rollout) (ingressName : string) : M W NameAndSpecData :=
  r <- objectInfo (O := IngressObject) (Namespace (a_Meta rollout), ingressName) "initIngressInfo error" ;;
  ret (mkNamed ingressName r.2).

Definition getTrafficRoutingInfo (rollout : alpha_Rollout) : M W TrafficRoutingInfo :=
  ref <- lift (firstTrafficRouting rollout) ;;
  httpRoute <- match a_Gateway ref with
    | Some gateway =>
        match HTTPRouteName gateway with
        | Some name => info <- getGateWayInfo rollout name ;; ret (Some info)
        | None => ret None
        end
    | None => ret None
    end ;;
  ingress <- match a_Ingress ref with
    | Some ingress =>
        if String.eqb (IngressName ingress) "" then ret None
        else info <- getIngressInfo rollout (IngressName ingress) ;; ret (Some info)
    | None => ret None
    end ;;
  ret (mkTRInfo ingress httpRoute).

(** A workload that is not found is a nil pointer, and dereferenced. *)
Definition getRolloutHistorySpec (rollout : alpha_Rollout) : M W RolloutHistorySpec :=
  info <- lift (getRolloutInfo rollout) ;;
  workload <- getWorkloadInfoForRef (Namespace (a_Meta rollout)) (a_WorkloadRef (a_Spec rollout)) ;;
  workload <- lift (deref workload) ;;
  service <- getServiceInfo rollout ;;
  trafficRouting <- getTrafficRoutingInfo rollout ;;
  ret (mkHistorySpec info workload service trafficRouting).

(** The pods that are not terminating. *)
Definition stepPods (pods : list Pod) : list HistoryPod :=
  map (fun pod => mkHistoryPod (Name (pod_Meta pod)) (pod_IP pod) (pod_NodeName pod))
    (filter (fun pod => deleting (pod_Meta pod) = false) pods).

(** One step: the pods with its batch id, the release id and the labels of the workload.
    An error of the search for the workload is dropped. *)
Definition recordStep (rollout : alpha_Rollout) (history : RolloutHistory) (recorded : list CanaryStepInfo)
    : M W (list CanaryStepInfo) :=
  let index := len recorded + 1 in
  found <- catch (getLabelSelectorForRef (Namespace (a_Meta rollout)) (a_WorkloadRef (a_Spec rollout))) ;;
  let workloadLabelSelector := match found with inl s => s | inr _ => None end in
  selector <- lift (SelectorString workloadLabelSelector) ;;
  extraSelector <- lift (ParseSelector
    (RolloutBatchIDLabel +:+ "=" +:+ itoa index +:+ "," +:+ RolloutIDLabel +:+ "="
       +:+ ri_RolloutID (hs_Rollout (rh_Spec history)) +:+ "," +:+ selector)%string) ;;
  podList <- api_List (O := Pod) (Namespace (a_Meta rollout)) extraSelector ;;
  ret (recorded ++ [mkStepInfo (wrap32 index) (stepPods podList)])%list.

Fixpoint recordSteps (rollout : alpha_Rollout) (history : RolloutHistory) (steps : list alpha_CanaryStep)
    (recorded : list CanaryStepInfo) : M W (list CanaryStepInfo) :=
  match steps with
  | [] => ret recorded
  | _ :: rest =>
      recorded <- recordStep rollout history recorded ;;
      recordSteps rollout history rest recorded
  end.

Definition recordStatusCanarySteps (rollout : alpha_Rollout) (history : RolloutHistory)
    : M W (list CanaryStepInfo) :=
  canary <- lift (deref (a_Canary (a_Spec rollout))) ;;
  recordSteps rollout history (a_Steps canary) [].

(** First the spec; the next call completes the history. *)
Definition updateRolloutHistoryWhenRolloutIsCompeleted (rollout : alpha_Rollout) (history : RolloutHistory)
    : M W unit :=
  if decide (a_Phase (a_Status rollout) <> RolloutPhaseHealthy) then ret tt else
  spec <- getRolloutHistorySpec rollout ;;
  if decide (ri_RolloutID (hs_Rollout (rh_Spec history)) <> ri_RolloutID (hs_Rollout spec)) then
    api_Update (history <| rh_Spec := spec |>)
  else
    steps <- recordStatusCanarySteps rollout history ;;
    api_UpdateStatus (history <| rh_Status := mkHistoryStatus PhaseCompleted steps |>).

Definition rh_Reconcile (key : ObjectKey) : M W unit :=
  r <- catch (api_Get (O := alpha_Rollout) key) ;;
  match r with
  | inr err => if IsNotFound err then ret tt else fail err
  | inl rollout =>
      match a_CanaryStatus (a_Status rollout) with
      | None => ret tt
      | Some status =>
          if String.eqb (acs_ObservedRolloutID status) "" then ret tt else
          history <- getRolloutHistoryForRollout rollout ;;
          match history with
          | None =>
              if decide (a_Phase (a_Status rollout) <> RolloutPhaseProgressing) then ret tt
              else createRolloutHistoryForProgressingRollout rollout
          | Some history =>
              if String.eqb (hst_Phase (rh_Status history)) PhaseCompleted then ret tt
              else updateRolloutHistoryWhenRolloutIsCompeleted rollout history
          end
      end
  end.
End history.
