(* ===== verification/HistoryProofs.v ===== *)
(** * What the history keeps

    One history for a release, written until it is completed and never after; and the
    pods of its steps. *)

From stdpp Require Import pretty.
From S2P Require Export History.

(** ** Label selectors *)

(** The characters of a label value. *)
Definition plainChar (c : Ascii.ascii) : bool :=
  let n := Ascii.nat_of_ascii c in
  ((48 <=? n) && (n <=? 57) || (65 <=? n) && (n <=? 90) || (97 <=? n) && (n <=? 122)
   || (n =? 45) || (n =? 46) || (n =? 95))%nat.
Fixpoint plain (s : string) : bool :=
  match s with EmptyString => true | String c rest => andb (plainChar c) (plain rest) end.

Definition labelKeys : list string := [rolloutIDLabel; rolloutNameLabel; RolloutBatchIDLabel].

(** The syntax of [labels.Parse], as far as it is used. *)
Class SelectorLaws `{SelectorText} `{MetaLib} := {
  parse_one k v p : k ∈ labelKeys -> plain v = true -> ParseSelector (k +:+ "=" +:+ v)%string = Ok p ->
    forall labels, p labels = bool_decide (labels !! k = Some v);
  parse_more k v rest p : k ∈ labelKeys -> plain v = true ->
    ParseSelector (k +:+ "=" +:+ v +:+ "," +:+ rest)%string = Ok p ->
    exists q, ParseSelector rest = Ok q
      /\ forall labels, p labels = andb (bool_decide (labels !! k = Some v)) (q labels);
  parse_string sel text q : SelectorString sel = Ok text -> ParseSelector text = Ok q ->
    exists q', LabelSelectorAsSelector sel = Ok q' /\ forall labels, q labels = q' labels
}.

(** ** The histories on the server *)

(** A call that leaves a part of the world as it is. *)
Definition quietFor {W A X} (part : W -> X) (m : M W A) : Prop :=
  forall w r w', m w = (r, w') -> part w' = part w.

Definition historyKey (h : RolloutHistory) : ObjectKey := keyOf (rh_Meta h).

(** The release a history is of. *)
Definition releaseOf (h : RolloutHistory) : string * option string * option string :=
  (Namespace (rh_Meta h), Labels (rh_Meta h) !! rolloutIDLabel, Labels (rh_Meta h) !! rolloutNameLabel).

Definition completed (h : RolloutHistory) : Prop := hst_Phase (rh_Status h) = PhaseCompleted.

(** One history in place of another. *)
Definition replaces (old new : RolloutHistory) (l l' : list RolloutHistory) : Prop :=
  exists l1 l2, l = l1 ++ old :: l2 /\ l' = l1 ++ new :: l2.

Class HistoryStore (W : Type) := histories : W -> list RolloutHistory.

Section laws.
Context (W : Type) `{Api W CloneSet} `{Api W Deployment} `{Api W StatefulSet} `{Api W KruiseStatefulSet}
  `{Api W alpha_Rollout} `{Api W RolloutHistory} `{ListApi W RolloutHistory} `{ListApi W Pod}
  `{Api W CoreService} `{Api W HTTPRoute} `{Api W IngressObject} `{RandomInt W} `{HistoryStore W}.

(** A key is used once, an update keeps the labels unless it is given others, and each of
    the two kinds of update writes its part of the object. *)
Class HistoryLaws := {
  history_keys w : NoDup (historyKey <$> histories w);
  history_list ns sel w l w' : api_List (O := RolloutHistory) ns sel w = (Ok l, w') ->
    l = filter (fun h => Namespace (rh_Meta h) = ns /\ sel (Labels (rh_Meta h)) = true) (histories w);
  history_create h w r w' : api_Create h w = (r, w') -> histories w' = histories w
    \/ exists h', historyKey h' = historyKey h /\ releaseOf h' = releaseOf h /\ rh_Spec h' = rh_Spec h
         /\ rh_Status h' = rh_Status h /\ histories w' ≡ₚ h' :: histories w;
  history_update h w r w' : api_Update h w = (r, w') -> histories w' = histories w
    \/ exists old new, historyKey old = historyKey h /\ historyKey new = historyKey h
         /\ releaseOf new = releaseOf h /\ rh_Spec new = rh_Spec h /\ rh_Status new = rh_Status old
         /\ replaces old new (histories w) (histories w');
  history_status h w r w' : api_UpdateStatus h w = (r, w') -> histories w' = histories w
    \/ exists old new, historyKey old = historyKey h /\ historyKey new = historyKey h
         /\ releaseOf new = releaseOf old /\ rh_Spec new = rh_Spec old /\ rh_Status new = rh_Status h
         /\ replaces old new (histories w) (histories w');
  quiet_rollout key : quietFor histories (api_Get (O := alpha_Rollout) key);
  quiet_list ns sel : quietFor histories (api_List (O := RolloutHistory) ns sel);
  quiet_pods ns sel : quietFor histories (api_List (O := Pod) ns sel);
  quiet_cloneset key : quietFor histories (api_Get (O := CloneSet) key);
  quiet_deployment key : quietFor histories (api_Get (O := Deployment) key);
  quiet_statefulset key : quietFor histories (api_Get (O := StatefulSet) key);
  quiet_kruise key : quietFor histories (api_Get (O := KruiseStatefulSet) key);
  quiet_service key : quietFor histories (api_Get (O := CoreService) key);
  quiet_route key : quietFor histories (api_Get (O := HTTPRoute) key);
  quiet_ingress key : quietFor histories (api_Get (O := IngressObject) key);
  quiet_random n : quietFor histories (rand_Int n)
}.
End laws.

(** ** Calls that leave the histories *)

Section quiet.
Context {W X : Type} (hs : W -> X).

Lemma quiet_ret {A} (a : A) : quietFor hs (ret a).
Proof. by intros w r w' [= _ <-]. Qed.
Lemma quiet_fail {A} e : quietFor hs (fail (A := A) e).
Proof. by intros w r w' [= _ <-]. Qed.
Lemma quiet_lift {A} (x : res A) : quietFor hs (lift x).
Proof. by intros w r w' [= _ <-]. Qed.

Lemma quiet_bind {A B} (m : M W A) (k : A -> M W B) :
  quietFor hs m -> (forall a, quietFor hs (k a)) -> quietFor hs (bind m k).
Proof.
  intros Hm Hk w r w'. unfold bind. destruct (m w) as [[a|e|] w1] eqn:E; pose proof (Hm _ _ _ E) as E1.
  - intros Hr. by rewrite (Hk _ _ _ _ Hr).
  - by intros [= _ <-].
  - by intros [= _ <-].
Qed.

Lemma quiet_catch {A} (m : M W A) : quietFor hs m -> quietFor hs (catch m).
Proof.
  intros Hm w r w'. unfold catch. destruct (m w) as [[a|e|] w1] eqn:E; intros [= _ <-]; by eapply Hm.
Qed.
End quiet.

Create HintDb quiet.
#[export] Hint Resolve quiet_ret quiet_fail quiet_lift quiet_catch quiet_rollout quiet_list quiet_pods quiet_cloneset
  quiet_deployment quiet_statefulset quiet_kruise quiet_service quiet_route quiet_ingress quiet_random : quiet.

(** A chain of quiet calls, whatever its branches. *)
Ltac quiet :=
  repeat first
    [ apply quiet_bind; [|intros]
    | progress (eauto 4 with quiet typeclass_instances)
    | match goal with |- quietFor _ (if ?b then _ else _) => destruct b end
    | match goal with |- quietFor _ (match ?x with _ => _ end) => destruct x end ].

(** ** One reconcile *)

Section reconcile.
Context {W : Type} `{Api W CloneSet} `{Api W Deployment} `{Api W StatefulSet} `{Api W KruiseStatefulSet}
  `{GroupVersionParser} `{ObjectKind} `{UnstructuredLib}
  `{SpecJson CloneSet} `{SpecJson Deployment} `{SpecJson StatefulSet} `{SpecJson KruiseStatefulSet}.
Context `{Api W alpha_Rollout} `{Api W RolloutHistory} `{ListApi W RolloutHistory} `{ListApi W Pod}
  `{Api W CoreService} `{Api W HTTPRoute} `{Api W IngressObject} `{RandomInt W} `{SelectorText} `{MetaLib}
  `{SpecJson alpha_Rollout} `{SpecJson CoreService} `{SpecJson HTTPRoute} `{SpecJson IngressObject}.
Context `{HistoryStore W} `{!SelectorLaws} `{!HistoryLaws W}.

Lemma quiet_getRolloutHistorySpec rollout : quietFor histories (getRolloutHistorySpec rollout).
Proof.
  unfold getRolloutHistorySpec, getWorkloadInfoForRef, getServiceInfo, getTrafficRoutingInfo, getGateWayInfo,
    getIngressInfo, objectInfo. simpl.
  unfold getWorkloadInfoWithAdvancedStatefulSet, getWorkloadInfoWithCloneSet, getWorkloadInfoWithDeployment,
    getWorkloadInfoWithNativeStatefulSet, lookingFor. quiet.
Qed.

Lemma quiet_getLabelSelectorForRef ns ref : quietFor histories (getLabelSelectorForRef ns ref).
Proof.
  unfold getLabelSelectorForRef. simpl.
  unfold getLabelSelectorWithAdvancedStatefulSet, getLabelSelectorWithCloneSet, getLabelSelectorWithDeployment,
    getLabelSelectorWithNativeStatefulSet, lookingFor. quiet.
Qed.

Lemma quiet_recordStep rollout h recorded : quietFor histories (recordStep rollout h recorded).
Proof.
  unfold recordStep. apply quiet_bind; [apply quiet_catch, quiet_getLabelSelectorForRef|]. intros. quiet.
Qed.

Lemma quiet_recordStatusCanarySteps rollout h : quietFor histories (recordStatusCanarySteps rollout h).
Proof.
  unfold recordStatusCanarySteps. apply quiet_bind; [apply quiet_lift|]. intros canary.
  generalize (@nil CanaryStepInfo). induction (a_Steps canary) as [|step steps IH]; intros recorded; simpl; [quiet|].
  apply quiet_bind; [apply quiet_recordStep|]. apply IH.
Qed.

Lemma quiet_randAllString n : quietFor histories (randAllString n).
Proof.
  unfold randAllString. generalize ""%string. induction n as [|n IH]; intros str; simpl; [quiet|].
  apply quiet_bind; [quiet|]. intros [i|e]; [|quiet]. apply quiet_bind; [quiet|]. intros l. apply IH.
Qed.

(** What a call does to the histories. *)
Inductive historyStep (l l' : list RolloutHistory) : Prop :=
  | history_same : l' = l -> historyStep l l'
  | history_created h : l' ≡ₚ h :: l -> releaseOf h ∉ (releaseOf <$> l) -> ~ completed h ->
      rh_Spec h = emptyHistorySpec -> historyStep l l'
  | history_filled old new : replaces old new l l' -> ~ completed old -> releaseOf new = releaseOf old ->
      rh_Status new = rh_Status old -> historyStep l l'
  | history_completed old new : replaces old new l l' -> ~ completed old -> releaseOf new = releaseOf old ->
      rh_Spec new = rh_Spec old -> completed new -> historyStep l l'.

(** An object with a key that is used is the object. *)
Lemma history_key_unique w l1 old l2 h :
  histories w = l1 ++ old :: l2 -> h ∈ histories w -> historyKey old = historyKey h -> old = h.
Proof.
  intros E Hin Hkey. pose proof (history_keys W w) as Hnd. rewrite E in Hin, Hnd.
  rewrite fmap_app, fmap_cons in Hnd. apply NoDup_app in Hnd as (_ & Hdis & [Hno _]%NoDup_cons).
  apply elem_of_app in Hin as [Hin|[->|Hin]%elem_of_cons]; [|done|].
  - exfalso. apply (Hdis (historyKey h)); [by apply list_elem_of_fmap; exists h|]. rewrite <- Hkey. by left.
  - exfalso. apply Hno. rewrite Hkey. apply list_elem_of_fmap. by exists h.
Qed.

Definition plainRollout (rollout : alpha_Rollout) : Prop :=
  plain (Name (a_Meta rollout)) = true /\ forall id, observedID rollout = Ok id -> plain id = true.

(** The histories that are found are those of the release. *)
Lemma getRolloutHistoryForRollout_spec rollout w r w' : plainRollout rollout ->
  getRolloutHistoryForRollout rollout w = (r, w') -> histories w' = histories w /\
  forall found, r = Ok found -> exists id, observedID rollout = Ok id /\
    match found with
    | Some h => h ∈ histories w
    | None => (Namespace (a_Meta rollout), Some id, Some (Name (a_Meta rollout))) ∉ (releaseOf <$> histories w)
    end.
Proof.
  intros [Hname Hid] Hrun. split.
  { revert Hrun. assert (quietFor histories (getRolloutHistoryForRollout rollout)) as Hq
      by (unfold getRolloutHistoryForRollout; quiet). apply Hq. }
  intros found ->. unfold getRolloutHistoryForRollout in Hrun.
  apply bind_Ok_inv in Hrun as (id & w1 & [Eid ->]%lift_Ok_inv & Hrun). exists id. split; [done|].
  apply bind_Ok_inv in Hrun as (sel & w2 & [Esel ->]%lift_Ok_inv & Hrun).
  apply bind_Ok_inv in Hrun as (l & w3 & Hl & Hrun). unfold ret in Hrun. injection Hrun as <- <-.
  pose proof (history_list W _ _ _ _ _ Hl) as ->. destruct (head _) as [h|] eqn:Eh.
  - apply head_Some_elem_of in Eh. by apply list_elem_of_filter in Eh as [_ Eh].
  - intros (h & Hrel & Hin)%list_elem_of_fmap. unfold releaseOf in Hrel. injection Hrel as Hns Hi Hn.
    assert (h ∈ @nil RolloutHistory) as Hnil; [|by apply not_elem_of_nil in Hnil].
    destruct (filter _ _) eqn:Ef; [|done]. rewrite <- Ef. apply list_elem_of_filter. split; [|done]. split; [done|].
    destruct (parse_more rolloutIDLabel id (rolloutNameLabel +:+ "=" +:+ Name (a_Meta rollout)) sel) as (q & Eq & Hq);
      [by left|by apply Hid|done|].
    rewrite Hq, <- Hi, bool_decide_true by done. simpl.
    rewrite (parse_one rolloutNameLabel (Name (a_Meta rollout)) q); [|by right; left|done|done].
    by rewrite <- Hn, bool_decide_true.
Qed.

Lemma create_step rollout w r w' :
  (forall id, observedID rollout = Ok id ->
     (Namespace (a_Meta rollout), Some id, Some (Name (a_Meta rollout))) ∉ (releaseOf <$> histories w)) ->
  createRolloutHistoryForProgressingRollout rollout w = (r, w') -> historyStep (histories w) (histories w').
Proof.
  intros Hno. unfold createRolloutHistoryForProgressingRollout, bind at 1.
  destruct (randAllString 6 w) as [[suffix|e|] w1] eqn:E1; pose proof (quiet_randAllString _ _ _ _ E1) as Ew1;
    [|by intros [= _ <-]; apply history_same..].
  unfold bind, lift. destruct (observedID rollout) as [id|e|] eqn:Eid; [|by intros [= _ <-]; apply history_same..].
  intros Hcreate. destruct (history_create W _ _ _ _ Hcreate) as [->|(h' & _ & Hrel & Hspec & Hst & Hp)];
    [by apply history_same|]. rewrite Ew1 in Hp.
  apply history_created with h'; [done| | |by rewrite Hspec].
  - rewrite Hrel. unfold releaseOf. simpl. rewrite lookup_insert_eq, lookup_insert_ne, lookup_singleton_eq by done.
    by apply Hno.
  - unfold completed. by rewrite Hst.
Qed.

Lemma update_step rollout h w r w' :
  h ∈ histories w -> ~ completed h ->
  updateRolloutHistoryWhenRolloutIsCompeleted rollout h w = (r, w') -> historyStep (histories w) (histories w').
Proof.
  intros Hin Hopen. unfold updateRolloutHistoryWhenRolloutIsCompeleted.
  destruct (decide _); [by intros [= _ <-]; apply history_same|]. unfold bind at 1.
  destruct (getRolloutHistorySpec rollout w) as [[spec|e|] w1] eqn:E1;
    pose proof (quiet_getRolloutHistorySpec _ _ _ _ E1) as Ew1; [|by intros [= _ <-]; apply history_same..].
  rewrite <- Ew1 in Hin |- *. destruct (decide _).
  - intros Hup. destruct (history_update W _ _ _ _ Hup) as [->|(old & new & Hk & _ & Hrel & _ & Hst & Hrep)];
      [by apply history_same|].
    pose proof Hrep as (l1 & l2 & El & _). assert (old = h) as -> by by eapply history_key_unique.
    by apply history_filled with h new.
  - unfold bind. destruct (recordStatusCanarySteps rollout h w1) as [[steps|e|] w2] eqn:E2;
      pose proof (quiet_recordStatusCanarySteps _ _ _ _ _ E2) as Ew2; [|by intros [= _ <-]; apply history_same..].
    rewrite <- Ew2 in Hin |- *.
    intros Hup. destruct (history_status W _ _ _ _ Hup) as [->|(old & new & Hk & _ & Hrel & Hsp & Hst & Hrep)];
      [by apply history_same|].
    pose proof Hrep as (l1 & l2 & El & _). assert (old = h) as -> by by eapply history_key_unique.
    apply history_completed with h new; try done. unfold completed. by rewrite Hst.
Qed.

Lemma Reconcile_step key w r w' :
  (forall rollout w1, api_Get (O := alpha_Rollout) key w = (Ok rollout, w1) -> plainRollout rollout) ->
  rh_Reconcile key w = (r, w') -> historyStep (histories w) (histories w').
Proof.
  intros Hplain. unfold rh_Reconcile, bind at 1, catch.
  destruct (api_Get key w) as [[rollout|e|] w1] eqn:E1; pose proof (quiet_rollout W _ _ _ _ E1) as <-;
    [|by destruct (IsNotFound e); intros [= _ <-]; apply history_same|by intros [= _ <-]; apply history_same].
  destruct (a_CanaryStatus _); [|by intros [= _ <-]; apply history_same].
  destruct (String.eqb _ _); [by intros [= _ <-]; apply history_same|]. unfold bind at 1.
  destruct (getRolloutHistoryForRollout rollout w1) as [r2 w2] eqn:E2.
  destruct (getRolloutHistoryForRollout_spec _ _ _ _ (Hplain _ _ eq_refl) E2) as [<- Hfound].
  destruct r2 as [[h|]|e|]; [| |by intros [= _ <-]; apply history_same..];
    destruct (Hfound _ eq_refl) as (id & Eid & Hh).
  - destruct (String.eqb_spec (hst_Phase (rh_Status h)) PhaseCompleted); [by intros [= _ <-]; apply history_same|].
    by apply update_step.
  - destruct (decide _); [by intros [= _ <-]; apply history_same|]. apply create_step. intros id' Eid'. congruence.
Qed.

(** C28. One reconcile of the history, however it ends, does at most one of four things: it
    creates the empty history of a release that has none, fills the spec of an open one,
    completes an open one, or nothing.  So a release keeps one history, and a completed
    history is never written again. *)
Theorem history_once (key : ObjectKey) (w w' : W) (r : res unit)
    (Hplain : forall rollout w1, api_Get (O := alpha_Rollout) key w = (Ok rollout, w1) -> plainRollout rollout)
    (Honce : NoDup (releaseOf <$> histories w))
    (Hrun : rh_Reconcile key w = (r, w')) :
  historyStep (histories w) (histories w')
  /\ NoDup (releaseOf <$> histories w')
  /\ forall h, h ∈ histories w -> completed h -> h ∈ histories w'.
Proof.
  pose proof (Reconcile_step _ _ _ _ Hplain Hrun) as Hstep. split; [done|].
  assert (forall old new, replaces old new (histories w) (histories w') -> ~ completed old ->
    releaseOf new = releaseOf old -> NoDup (releaseOf <$> histories w')
    /\ forall h, h ∈ histories w -> completed h -> h ∈ histories w') as Hrep.
  { intros old new (l1 & l2 & El & El') Hopen Hrel. rewrite El in *. rewrite El'. split.
    - rewrite fmap_app, fmap_cons in *. by rewrite Hrel.
    - intros h [Hh|[->|Hh]%elem_of_cons]%elem_of_app Hc; [|done|];
        apply elem_of_app; [by left|by right; right]. }
  destruct Hstep as [->|h Hp Hnew _ _|old new Hr Ho Hrel _|old new Hr Ho Hrel _ _]; [done| |by eapply Hrep..].
  split; [by rewrite Hp, fmap_cons; constructor|]. intros h' Hh' _. rewrite Hp. by right.
Qed.
End reconcile.

(** ** Numbers are label values *)

Lemma plain_app s t : plain (s +:+ t) = andb (plain s) (plain t).
Proof. induction s as [|c s IH]; simpl; [done|]. by rewrite IH, andb_assoc. Qed.

Lemma plain_digits x s : plain s = true -> plain (pretty_N_go x s) = true.
Proof.
  revert s. induction (N.lt_wf_0 x) as [x _ IH]. intros s Hs.
  destruct (decide (0 < x)%N) as [Hx|Hx].
  - rewrite pretty_N_go_step by done. apply IH; [by apply N.div_lt|]. simpl. rewrite Hs, andb_true_r.
    unfold pretty_N_char. by repeat case_match.
  - replace x with 0%N by lia. done.
Qed.

Lemma plain_itoa n : 0 <= n -> plain (itoa n) = true.
Proof.
  intros Hn. unfold itoa, pretty, pretty_Z. destruct n as [|p|p]; [done| |lia].
  change (plain (pretty_N_go (N.pos p) "") = true). by apply plain_digits.
Qed.

(** ** The pods of the steps *)

Class PodStore (W : Type) := podsOn : W -> list Pod.

Section podLaws.
Context (W : Type) `{Api W CloneSet} `{Api W Deployment} `{Api W StatefulSet} `{Api W KruiseStatefulSet}
  `{ListApi W Pod} `{PodStore W}.

(** A list has the pods that match, and reading changes none. *)
Class PodLaws := {
  pods_listed ns sel w l w' : api_List (O := Pod) ns sel w = (Ok l, w') ->
    l = filter (fun pod => Namespace (pod_Meta pod) = ns /\ sel (Labels (pod_Meta pod)) = true) (podsOn w);
  pods_list ns sel : quietFor podsOn (api_List (O := Pod) ns sel);
  pods_cloneset key : quietFor podsOn (api_Get (O := CloneSet) key);
  pods_deployment key : quietFor podsOn (api_Get (O := Deployment) key);
  pods_statefulset key : quietFor podsOn (api_Get (O := StatefulSet) key);
  pods_kruise key : quietFor podsOn (api_Get (O := KruiseStatefulSet) key)
}.
End podLaws.

#[export] Hint Resolve pods_list pods_cloneset pods_deployment pods_statefulset pods_kruise : quiet.

Section steps.
Context {W : Type} `{Api W CloneSet} `{Api W Deployment} `{Api W StatefulSet} `{Api W KruiseStatefulSet}
  `{GroupVersionParser} `{ObjectKind} `{UnstructuredLib} `{ListApi W Pod} `{SelectorText} `{MetaLib}
  `{PodStore W} `{!SelectorLaws} `{!PodLaws W}.

Lemma pods_getLabelSelectorForRef ns ref : quietFor podsOn (getLabelSelectorForRef ns ref).
Proof.
  unfold getLabelSelectorForRef. simpl.
  unfold getLabelSelectorWithAdvancedStatefulSet, getLabelSelectorWithCloneSet, getLabelSelectorWithDeployment,
    getLabelSelectorWithNativeStatefulSet, lookingFor. quiet.
Qed.

(** What is recorded for a step: its pods are in the namespace, carry its batch id and the
    release id, match the selector of the workload and are not terminating. *)
Definition stepRecord (rollout : alpha_Rollout) (id : string) (pods : list Pod) (index : Z) (info : CanaryStepInfo)
    : Prop :=
  csi_CanaryStepIndex info = index /\ exists sel q, LabelSelectorAsSelector sel = Ok q
  /\ csi_Pods info = stepPods (filter (fun pod => Namespace (pod_Meta pod) = Namespace (a_Meta rollout)
       /\ Labels (pod_Meta pod) !! RolloutBatchIDLabel = Some (itoa index)
       /\ Labels (pod_Meta pod) !! RolloutIDLabel = Some id /\ q (Labels (pod_Meta pod)) = true) pods).

Lemma recordStep_spec rollout h recorded w l w' :
  plain (ri_RolloutID (hs_Rollout (rh_Spec h))) = true -> 0 <= len recorded + 1 < 2 ^ 31 ->
  recordStep rollout h recorded w = (Ok l, w') -> podsOn w' = podsOn w /\
  exists info, l = recorded ++ [info]
    /\ stepRecord rollout (ri_RolloutID (hs_Rollout (rh_Spec h))) (podsOn w) (len recorded + 1) info.
Proof.
  set (id := ri_RolloutID (hs_Rollout (rh_Spec h))). set (index := len recorded + 1). intros Hid Hindex Hrun.
  unfold recordStep in Hrun. apply bind_Ok_inv in Hrun as (found & w1 & Hfound & Hrun).
  pose proof (quiet_catch podsOn _ (pods_getLabelSelectorForRef _ _) _ _ _ Hfound) as Ew.
  apply bind_Ok_inv in Hrun as (text & w2 & [Etext ->]%lift_Ok_inv & Hrun).
  apply bind_Ok_inv in Hrun as (sel & w3 & [Esel ->]%lift_Ok_inv & Hrun).
  apply bind_Ok_inv in Hrun as (pods & w4 & Hpods & Hrun). unfold ret in Hrun. injection Hrun as <- <-.
  rewrite (pods_list W _ _ _ _ _ Hpods), Ew. split; [done|]. eexists. split; [done|]. split.
  { unfold csi_CanaryStepIndex. apply wrap32_id. unfold in32. lia. }
  destruct (parse_more RolloutBatchIDLabel (itoa index) (RolloutIDLabel +:+ "=" +:+ id +:+ "," +:+ text) sel)
    as (q1 & Eq1 & Hq1); [by right; right; left|apply plain_itoa; lia|done|].
  destruct (parse_more rolloutIDLabel id text q1) as (q2 & Eq2 & Hq2); [by left|done|done|].
  destruct (parse_string _ _ _ Etext Eq2) as (q & Eq & Hq). eexists _, q. split; [done|].
  simpl. rewrite (pods_listed W _ _ _ _ _ Hpods), Ew. f_equal. apply list_filter_iff.
  intros pod. rewrite Hq1, Hq2, Hq, !andb_true_iff, !bool_decide_eq_true. done.
Qed.

Lemma recordSteps_spec rollout h steps recorded w l w' :
  plain (ri_RolloutID (hs_Rollout (rh_Spec h))) = true -> len recorded + len steps < 2 ^ 31 ->
  recordSteps rollout h steps recorded w = (Ok l, w') ->
  exists infos, l = recorded ++ infos /\ length infos = length steps
  /\ forall i info, infos !! i = Some info ->
       stepRecord rollout (ri_RolloutID (hs_Rollout (rh_Spec h))) (podsOn w) (len recorded + Z.of_nat i + 1) info.
Proof.
  intros Hid. revert recorded w. induction steps as [|step steps IH]; intros recorded w Hlen; simpl.
  { intros [= <- _]. exists []. by rewrite app_nil_r. }
  intros (recorded' & w1 & Hstep & Hrest)%bind_Ok_inv.
  unfold len in Hlen. simpl in Hlen.
  apply recordStep_spec in Hstep as (Ew & info & -> & Hinfo); [|done|unfold len; lia].
  apply IH in Hrest as (infos & -> & Hl & Hinfos); [|unfold len; rewrite length_app; simpl; lia].
  exists (info :: infos). split; [by rewrite <- app_assoc|]. split; [simpl; by f_equal|].
  intros [|i] info' Hi; simpl in Hi.
  - injection Hi as <-. by replace (len recorded + Z.of_nat 0 + 1) with (len recorded + 1) by lia.
  - apply Hinfos in Hi. rewrite Ew in Hi. unfold len in *. rewrite length_app in Hi. simpl in Hi.
    replace (Z.of_nat (length recorded) + Z.of_nat (S i) + 1)
      with (Z.of_nat (length recorded + 1) + Z.of_nat i + 1) by lia. done.
Qed.

(** The steps of a completed history: one entry for each step of the Rollout, numbered
    from one, with the pods that carry the batch id of the step and the id of the release,
    match the workload's selector and are not terminating. *)
Theorem recorded_steps (rollout : alpha_Rollout) (h : RolloutHistory) (canary : alpha_CanaryStrategy)
    (w w' : W) (infos : list CanaryStepInfo)
    (Hcanary : a_Canary (a_Spec rollout) = Some canary) (Hlen : len (a_Steps canary) < 2 ^ 31)
    (Hid : plain (ri_RolloutID (hs_Rollout (rh_Spec h))) = true)
    (Hrun : recordStatusCanarySteps rollout h w = (Ok infos, w')) :
  length infos = length (a_Steps canary)
  /\ forall i info, infos !! i = Some info ->
       stepRecord rollout (ri_RolloutID (hs_Rollout (rh_Spec h))) (podsOn w) (Z.of_nat i + 1) info.
Proof.
  unfold recordStatusCanarySteps in Hrun. rewrite Hcanary in Hrun. simpl in Hrun.
  apply recordSteps_spec in Hrun as (infos' & -> & Hl & Hinfos); done.
Qed.
End steps.
