(* ===== verification/EventHandlers.v ===== *)
(** * Events (the event handlers of pkg/controller)

    What the controllers do when the API server tells of a change: which objects they put
    into their work queues, and what an event settles among the resource expectations. *)

From S2P Require Export ControllerFinder PartitionControls History.

(** ** Events *)

(** The queue of a controller: [workqueue.RateLimitingInterface]. *)
Class WorkQueue (W : Type) := q_Add : ObjectKey -> M W unit.

(** An object as its event carries it, by its dynamic type. *)
Inductive EventObject :=
  | EvPod (pod : Pod)
  | EvWorkload (object : WorkloadObject)
  | EvWebhookConfiguration (m : ObjectMeta)
  | EvOther (m : ObjectMeta).

(** An update, with the resource versions of both objects. *)
Record UpdateEvent (O : Type) := mkUpdateEvent {
  ObjectOld : O;
  ObjectNew : O;
  OldResourceVersion : string;
  NewResourceVersion : string
}.
Arguments mkUpdateEvent {O}.
Arguments ObjectOld {O}.
Arguments ObjectNew {O}.
Arguments OldResourceVersion {O}.
Arguments NewResourceVersion {O}.

(** [json.Unmarshal] into an empty reference: what it filled in, and its error.  It fills
    in what it can even when it fails. *)
Class RefDecoder := decodeRef : string -> OwnerReference * option goerror.
Class RefDecoderLaws `{RefDecoder} `{Json OwnerReference} :=
  decodeRef_ok s ref : Unmarshal s = Some ref -> decodeRef s = (ref, None).

(** [scheme.ObjectKinds] *)
Class SchemeLib := ObjectKinds : WorkloadObject -> res (list GroupVersionKind).

#[export] Instance WorkloadStatus_eq_dec : EqDecision WorkloadStatus.
Proof. solve_decision. Defined.

Definition MutatingWebhookConfigurationName : string := "kruise-rollout-mutating-webhook-configuration".

(** What a workload reference names. *)
Definition targets `{GroupVersionParser} (ref : ObjectRef) (gvk : GroupVersionKind) (name : string) : bool :=
  verifyGroupKind ref gvk && String.eqb (RefName ref) name.

Section handlers.
Context {W : Type} `{WorkQueue W} `{ListApi W BatchRelease} `{ListApi W Rollout} `{ListApi W Deployment}
  `{ObjectReader W} `{HasExpectations W} `{UnstructuredLib} `{MetaLib} `{K8sLib} `{WorkloadFilter} `{StackDepth}
  `{GroupVersionParser} `{RefDecoder} `{SchemeLib} `{TemplateHash} `{Json DaemonSetRevisionInfo}.

(** ** The BatchRelease controller (batchrelease_event_handler.go) *)

(** The last of the releases that refer to the workload; the empty key when none does. *)
Definition lastRelease (gvk : GroupVersionKind) (name : string) (items : list BatchRelease) : ObjectKey :=
  foldl (fun nsn br => if targets (br_WorkloadRef (br_Spec br)) gvk name then keyOf (br_Meta br) else nsn)
    (""%string, ""%string) items.

(** The error of [Unmarshal] is returned when what it filled in names a release all the
    same; otherwise it is forgotten. *)
Definition getBatchRelease (workload : ObjectKey) (gvk : GroupVersionKind) (controlInfo : string) : M W ObjectKey :=
  let fromList :=
    items <- api_List (O := BatchRelease) (fst workload) (fun _ => true) ;;
    ret (lastRelease gvk (snd workload) items) in
  if nonempty controlInfo then
    let '(br, err) := decodeRef controlInfo in
    if String.eqb (or_APIVersion br) rolloutsAPI && String.eqb (or_Kind br) "BatchRelease" then
      match err with
      | Some e => fail e
      | None => ret (fst workload, or_Name br)
      end
    else fromList
  else fromList.

(** An error is only logged. *)
Definition enqueueRelease (workload : ObjectKey) (gvk : GroupVersionKind) (controlInfo : string) : M W unit :=
  r <- catch (getBatchRelease workload gvk controlInfo) ;;
  match r with
  | inr _ => ret tt
  | inl brNsn => if nonempty (snd brNsn) then q_Add brNsn else ret tt
  end.

(** The release is looked up by the direct owner of the pod, and its control info is
    that of the workload at the top. *)
Definition pod_enqueue (pod : Pod) : M W unit :=
  match GetControllerOf (pod_Meta pod) with
  | None => ret tt
  | Some owner =>
      let workloadGVK := FromAPIVersionAndKind (or_APIVersion owner) (or_Kind owner) in
      r <- catch (GetOwnerWorkload (pod_Meta pod)) ;;
      match r with
      | inl (Some workloadObj) =>
          let controlInfo := annotation workloadObj BatchReleaseControlAnnotation in
          if nonempty controlInfo
          then enqueueRelease (Namespace (pod_Meta pod), or_Name owner) workloadGVK controlInfo
          else ret tt
      | _ => ret tt
      end
  end.

Definition podEventHandler_Create (object : EventObject) : M W unit :=
  match object with EvPod pod => pod_enqueue pod | _ => ret tt end.
Definition podEventHandler_Update (evt : UpdateEvent EventObject) : M W unit :=
  match ObjectOld evt, ObjectNew evt with
  | EvPod oldPod, EvPod newPod =>
      if String.eqb (OldResourceVersion evt) (NewResourceVersion evt)
         || (IsEqualRevision oldPod newPod && Bool.eqb (IsPodReady oldPod) (IsPodReady newPod))
      then ret tt else pod_enqueue newPod
  | _, _ => ret tt
  end.

Definition getControllerKey (object : ObjectMeta) : option string :=
  owner ← GetControllerOf object;
  if String.eqb (or_Kind owner) "BatchRelease"
  then Some (Namespace object +:+ "/" +:+ or_Name owner)%string else None.

Definition expectationObserved (object : ObjectMeta) : M W unit :=
  match getControllerKey object with
  | Some key => ObserveResource key Create (UID object)
  | None => ret tt
  end.

(** The kind of an object by its dynamic type: other types are not handled. *)
Definition workloadGVK (object : WorkloadObject) : option GroupVersionKind :=
  match object with
  | OCloneSet _ => Some ControllerKruiseKindCS
  | OKruiseDaemonSet _ => Some ControllerKruiseKindDS
  | ODaemonSet _ => Some ControllerKindDS
  | ODeployment _ => Some ControllerKindDep
  | OStatefulSet _ => Some ControllerKindSts
  | OKruiseStatefulSet _ => Some ControllerKruiseKindSts
  | OUnstructured o => Some (un_GVK o)
  | OReplicaSet _ => None
  end.

Definition handleWorkload (object : WorkloadObject) : M W unit :=
  match workloadGVK object with
  | None => ret tt
  | Some gvk =>
      let m := objMeta object in
      enqueueRelease (keyOf m) gvk (annotation m BatchReleaseControlAnnotation)
  end.

Definition workloadEventHandler_Create (object : WorkloadObject) : M W unit :=
  expectationObserved (objMeta object) ;;
  handleWorkload object.
Definition workloadEventHandler_Delete (object : WorkloadObject) : M W unit := handleWorkload object.

Definition workloadEventHandler_Update (evt : UpdateEvent WorkloadObject) : M W unit :=
  let newObject := ObjectNew evt in
  let oldObject := ObjectOld evt in
  match workloadGVK newObject with
  | None => ret tt
  | Some gvk =>
      expectationObserved (objMeta newObject) ;;
      if String.eqb (NewResourceVersion evt) (OldResourceVersion evt) then ret tt else
      oldStatus <- lift (ParseWorkloadStatus oldObject) ;;
      newStatus <- lift (ParseWorkloadStatus newObject) ;;
      if bool_decide (Generation (objMeta oldObject) <> Generation (objMeta newObject))
         || bool_decide (oldStatus <> newStatus)
      then enqueueRelease (keyOf (objMeta newObject)) gvk
             (annotation (objMeta newObject) BatchReleaseControlAnnotation)
      else ret tt
  end.

(** ** The Rollout controller (rollout_event_handler.go) *)

(** The first of the Rollouts that refer to the workload. *)
Definition getRolloutForWorkload (key : ObjectKey) (gvk : GroupVersionKind) : M W (option Rollout) :=
  items <- api_List (O := Rollout) (fst key) (fun _ => true) ;;
  ret (snd <$> list_find (fun rollout => targets (WorkloadRef (ro_Spec rollout)) gvk (snd key) = true) items).

(** For creations, updates (the new object) and deletions alike. *)
Definition enqueueRequestForWorkload_handleEvent (object : WorkloadObject) : M W unit :=
  match ObjectKinds object with
  | Panic => panic
  | Err _ => ret tt
  | Ok kinds =>
      gvk <- lift (go_index kinds 0) ;;
      r <- catch (getRolloutForWorkload (keyOf (objMeta object)) gvk) ;;
      match r with
      | inl (Some rollout) => q_Add (keyOf (ro_Meta rollout))
      | _ => ret tt
      end
  end.

(** For updates only: the Rollout has the key of its release. *)
Definition enqueueRequestForBatchRelease_handleEvent (release : BatchRelease) : M W unit :=
  q_Add (keyOf (br_Meta release)).

(** ** The history controller (rollouthistory_event_handler.go) *)

Definition enqueueRequestForRolloutHistory_handleEvent (history : RolloutHistory) : M W unit :=
  let labels := Labels (rh_Meta history) in
  match labels !! rolloutNameLabel, labels !! rolloutIDLabel with
  | Some rolloutName, Some _ => q_Add (Namespace (rh_Meta history), rolloutName)
  | _, _ => ret tt
  end.

Definition enqueueRequestForRollout_handleEvent (rollout : alpha_Rollout) : M W unit :=
  match a_CanaryStatus (a_Status rollout) with
  | None => ret tt
  | Some status =>
      if String.eqb (acs_ObservedRolloutID status) "" then ret tt
      else q_Add (keyOf (a_Meta rollout))
  end.

(** ** The Deployment controller (deployment_event_handler.go) *)

Definition isKruiseRolloutMutatingConfiguration (m : ObjectMeta) : bool :=
  String.eqb (Name m) MutatingWebhookConfigurationName.

Fixpoint enqueueDeployments (items : list Deployment) : M W unit :=
  match items with
  | [] => ret tt
  | d :: rest =>
      if String.eqb (dep_StrategyType d) RollingUpdateDeploymentStrategyType then enqueueDeployments rest
      else q_Add (keyOf (dep_Meta d)) ;; enqueueDeployments rest
  end.

(** Every Deployment of the cluster under advanced control.  A listing that fails is
    logged, and empty. *)
Definition webhook_enqueue : M W unit :=
  r <- catch (api_List (O := Deployment) "" (fun labels =>
         bool_decide (labels !! AdvancedDeploymentControlLabel = Some "true"%string))) ;;
  enqueueDeployments (match r with inl items => items | inr _ => [] end).

(** [Create], [Generic], and [Update] for the new object. *)
Definition MutatingWebhookEventHandler_Create (object : EventObject) : M W unit :=
  match object with
  | EvWebhookConfiguration config =>
      if isKruiseRolloutMutatingConfiguration config && deleting config then webhook_enqueue else ret tt
  | _ => ret tt
  end.
Definition MutatingWebhookEventHandler_Delete (object : EventObject) : M W unit :=
  match object with
  | EvWebhookConfiguration config =>
      if isKruiseRolloutMutatingConfiguration config then webhook_enqueue else ret tt
  | _ => ret tt
  end.
End handlers.
