(* ===== verification/EventProofs.v ===== *)
(** * What an event wakes (properties of EventHandlers.v) *)

From S2P Require Export EventHandlers.

Section wakes.
Context {W : Type} `{WorkQueue W} `{ListApi W BatchRelease} `{ObjectReader W} `{HasExpectations W}
  `{UnstructuredLib} `{MetaLib} `{K8sLib} `{WorkloadFilter} `{StackDepth} `{GroupVersionParser} `{RefDecoder}
  `{TemplateHash} `{Json DaemonSetRevisionInfo} `{TypeMeta} `{JsonLaws OwnerReference} `{!RefDecoderLaws}.

(** The workload carries the control info of the release. *)
Definition claimedBy (release : BatchRelease) (m : ObjectMeta) : Prop :=
  annotation m BatchReleaseControlAnnotation = Marshal (releaseControllerRef release)
  /\ annotation m BatchReleaseControlAnnotation <> ""%string.

(** The release is one of this API, and has a name. *)
Definition properRelease (release : BatchRelease) : Prop :=
  ReleaseTypeMeta release = (rolloutsAPI, "BatchRelease"%string) /\ Name (br_Meta release) <> ""%string.

Lemma nonempty_true s : nonempty s = true <-> s <> ""%string.
Proof. unfold nonempty. destruct s; naive_solver. Qed.

Lemma enqueueRelease_claimed release m ns name gvk w :
  properRelease release -> claimedBy release m -> ns = Namespace (br_Meta release) ->
  enqueueRelease (W := W) (ns, name) gvk (annotation m BatchReleaseControlAnnotation) w
  = q_Add (keyOf (br_Meta release)) w.
Proof.
  intros [Htype Hname] [Hinfo Hne] ->. unfold enqueueRelease, getBatchRelease, bind, catch.
  rewrite (proj2 (nonempty_true _) Hne), Hinfo.
  rewrite (decodeRef_ok _ _ (unmarshal_marshal (releaseControllerRef release))).
  unfold releaseControllerRef. rewrite Htype. simpl. by rewrite (proj2 (nonempty_true _) Hname).
Qed.

Lemma lastRelease_only gvk name items br :
  br ∈ items -> targets (br_WorkloadRef (br_Spec br)) gvk name = true ->
  (forall br', br' ∈ items -> targets (br_WorkloadRef (br_Spec br')) gvk name = true -> br' = br) ->
  lastRelease gvk name items = keyOf (br_Meta br).
Proof.
  unfold lastRelease. intros Hin Ht. induction items as [|x items IH] using rev_ind; [by apply not_elem_of_nil in Hin|].
  intros Honly. rewrite foldl_app. simpl. destruct (targets (br_WorkloadRef (br_Spec x)) gvk name) eqn:Ex.
  - f_equal. rewrite (Honly x); [done|set_solver|done].
  - apply IH; [|intros; apply Honly; [set_solver|done]].
    apply elem_of_app in Hin as [|Hx]; [done|]. apply list_elem_of_singleton in Hx. congruence.
Qed.

Lemma lastRelease_none gvk name items :
  (forall br, br ∈ items -> targets (br_WorkloadRef (br_Spec br)) gvk name = false) ->
  lastRelease gvk name items = (""%string, ""%string).
Proof.
  unfold lastRelease. induction items as [|x items IH] using rev_ind; intros Hno; [done|].
  rewrite foldl_app. simpl. rewrite Hno by set_solver. apply IH. set_solver.
Qed.

(** C16. A workload wakes its release.  While it carries the control info that the release
    writes, each creation, deletion and change of its generation or status, and each
    creation of a pod it is at the top of, puts exactly that release into the queue,
    whatever other releases say, and reads no list.  Without control info the releases of
    the namespace are listed: the only one that refers to it is put into the queue, and
    when none refers to it nothing is. *)
Theorem workload_wakes_release (release : BatchRelease) (Hproper : properRelease release) :
  (forall object (w : W), workloadGVK object <> None -> claimedBy release (objMeta object) ->
     Namespace (objMeta object) = Namespace (br_Meta release) ->
     handleWorkload object w = q_Add (keyOf (br_Meta release)) w)
  /\ (forall evt s1 s2 (w : W), workloadGVK (ObjectNew evt) <> None -> claimedBy release (objMeta (ObjectNew evt)) ->
        Namespace (objMeta (ObjectNew evt)) = Namespace (br_Meta release) ->
        NewResourceVersion evt <> OldResourceVersion evt ->
        ParseWorkloadStatus (ObjectOld evt) = Ok s1 -> ParseWorkloadStatus (ObjectNew evt) = Ok s2 ->
        Generation (objMeta (ObjectOld evt)) <> Generation (objMeta (ObjectNew evt)) \/ s1 <> s2 ->
        workloadEventHandler_Update evt w
        = (expectationObserved (objMeta (ObjectNew evt)) ;; q_Add (keyOf (br_Meta release))) w)
  /\ (forall pod owner top (w w' : W), GetControllerOf (pod_Meta pod) = Some owner ->
        Namespace (pod_Meta pod) = Namespace (br_Meta release) ->
        GetOwnerWorkload (pod_Meta pod) w = (Ok (Some top), w') -> claimedBy release top ->
        podEventHandler_Create (EvPod pod) w = q_Add (keyOf (br_Meta release)) w')
  /\ (forall object gvk items (w w' : W), workloadGVK object = Some gvk ->
        annotation (objMeta object) BatchReleaseControlAnnotation = ""%string ->
        api_List (Namespace (objMeta object)) (fun _ => true) w = (Ok items, w') ->
        let refers br := targets (br_WorkloadRef (br_Spec br)) gvk (Name (objMeta object)) = true in
        (release ∈ items -> refers release -> (forall br, br ∈ items -> refers br -> br = release) ->
           handleWorkload object w = q_Add (keyOf (br_Meta release)) w')
        /\ ((forall br, br ∈ items -> ~ refers br) -> handleWorkload object w = (Ok tt, w'))).
Proof.
  split; [|split; [|split]].
  - intros object w Hgvk Hclaim Hns. unfold handleWorkload. destruct (workloadGVK object) as [gvk|]; [|done].
    unfold keyOf at 1. rewrite Hns. by apply enqueueRelease_claimed.
  - intros evt s1 s2 w Hgvk Hclaim Hns Hver H1' H2' Hdiff. unfold workloadEventHandler_Update.
    destruct (workloadGVK (ObjectNew evt)) as [gvk|]; [|done]. unfold bind.
    destruct (expectationObserved _ w) as [[[]|e|] w1]; [|done|done].
    destruct (String.eqb_spec (NewResourceVersion evt) (OldResourceVersion evt)); [done|].
    unfold lift. rewrite H1', H2'.
    assert (bool_decide (Generation (objMeta (ObjectOld evt)) <> Generation (objMeta (ObjectNew evt)))
            || bool_decide (s1 <> s2) = true) as ->.
    { apply orb_true_iff. rewrite !bool_decide_eq_true. tauto. }
    unfold keyOf at 1. rewrite Hns. by apply enqueueRelease_claimed.
  - intros pod owner top w w' Hown Hns Hrun Hclaim. simpl. unfold pod_enqueue. rewrite Hown.
    unfold bind, catch at 1. rewrite Hrun. rewrite (proj2 (nonempty_true _) (proj2 Hclaim)), Hns.
    by apply enqueueRelease_claimed.
  - intros object gvk items w w' Hgvk Hinfo Hlist refers. unfold handleWorkload. rewrite Hgvk, Hinfo.
    unfold enqueueRelease, getBatchRelease, bind, catch. simpl. rewrite Hlist. unfold ret at 1. split.
    + intros Hin Hrefers Honly. rewrite (lastRelease_only gvk _ items release); [|done..].
      simpl. by rewrite (proj2 (nonempty_true _) (proj2 Hproper)).
    + intros Hno. rewrite lastRelease_none; [done|]. intros br Hbr. specialize (Hno br Hbr).
      unfold refers in Hno. by apply not_true_is_false in Hno.
Qed.
End wakes.

(** ** The objects a controller waits for *)

Section observed.
Context `{MetaLib} `{TypeMeta}.

(** What the event of an object settles. *)
Definition observe (st : ResourceStore) (m : ObjectMeta) : ResourceStore :=
  match getControllerKey m with
  | Some key => resource_Observe key Create (UID m) st
  | None => st
  end.

Lemma expectationObserved_run {W} `{HasExpectations W} (m : ObjectMeta) (w : W) :
  (forall w : W, setExpectations (expectationsOf w) w = w) ->
  expectationObserved m w = (Ok tt, setExpectations (observe (expectationsOf w) m) w).
Proof.
  intros Hput. unfold expectationObserved, observe. destruct (getControllerKey m); [done|].
  unfold ret. by rewrite Hput.
Qed.

Lemma outstanding_observing events st key a :
  outstanding (foldl observe st events) key a
  = if decide (a = Create)
    then outstanding st key a ∖ list_to_set (UID <$> filter (fun m => getControllerKey m = Some key) events)
    else outstanding st key a.
Proof.
  induction events as [|m events IH] using rev_ind; simpl; [case_decide; set_solver|].
  rewrite foldl_app, filter_app, fmap_app, list_to_set_app_L. simpl. unfold observe at 1.
  destruct (decide (getControllerKey m = Some key)) as [Em|Em].
  - rewrite (filter_cons_True (fun m => getControllerKey m = Some key)) by done; rewrite filter_nil, Em, outstanding_observe.
    destruct (decide (a = Create)) as [->|Ha].
    + rewrite decide_True by done. rewrite IH. simpl. set_solver.
    + rewrite decide_False by naive_solver. apply IH.
  - rewrite (filter_cons_False (fun m => getControllerKey m = Some key)), filter_nil by done. simpl. rewrite union_empty_r_L.
    destruct (getControllerKey m) as [key'|]; [|apply IH].
    rewrite outstanding_observe, decide_False by naive_solver. apply IH.
Qed.

Lemma satisfied_outstanding now since key st :
  fst (fst (resource_SatisfiedExpectations now since key st)) = true <-> forall a, outstanding st key a = ∅.
Proof.
  unfold resource_SatisfiedExpectations, outstanding. destruct (st !! key) as [e|]; simpl; [|done].
  pose proof (unsatisfied_spec (objsCache e)) as Hu. destruct (unsatisfied (objsCache e)); simpl.
  - destruct (proj1 Hu eq_refl) as [a Ha]. split; [done|]. intros Hall. by destruct Ha.
  - split; [|done]. intros _ a. destruct (decide (default ∅ (objsCache e !! a) = ∅)) as [|Hne]; [done|].
    enough (false = true) by done. apply Hu. by exists a.
Qed.

(** The controller waits for the Deployment it created, and for that alone.  Nothing
    being outstanding for a release, after it records that it expects the Deployment
    [created], and after any sequence of events, its expectations are satisfied exactly
    when one of those events was of an object with the UID of that Deployment that the
    release controls; the event of the Deployment itself is one.  Events that came before
    the record do not count. *)
Theorem awaits_created_deployment (release : BatchRelease) (created : Deployment) (events : list ObjectMeta)
    (st : ResourceStore) (now since : Z) :
  (forall a, outstanding st (controllerKey release) a = ∅) ->
  let expecting := resource_Expect (controllerKey release) Create (UID (dep_Meta created)) st in
  let later := foldl observe expecting events in
  (fst (fst (resource_SatisfiedExpectations now since (controllerKey release) later)) = true
   <-> exists m, m ∈ events /\ UID m = UID (dep_Meta created) /\ getControllerKey m = Some (controllerKey release))
  /\ (ReleaseTypeMeta release = (rolloutsAPI, "BatchRelease"%string) ->
      Namespace (dep_Meta created) = Namespace (br_Meta release) ->
      GetControllerOf (dep_Meta created) = Some (releaseControllerRef release) ->
      getControllerKey (dep_Meta created) = Some (controllerKey release)).
Proof.
  intros Hnone. split.
  - rewrite satisfied_outstanding. set (seen := filter (fun m => getControllerKey m = Some (controllerKey release)) events).
    assert (Hout : forall a, outstanding (foldl observe (resource_Expect (controllerKey release) Create
        (UID (dep_Meta created)) st) events) (controllerKey release) a
      = if decide (a = Create) then {[UID (dep_Meta created)]} ∖ list_to_set (UID <$> seen) else ∅).
    { intros a. rewrite outstanding_observing, outstanding_expect. fold seen. destruct (decide (a = Create)) as [->|Ha].
      - rewrite decide_True by done. rewrite Hnone. set_solver.
      - rewrite decide_False by naive_solver. apply Hnone. }
    split.
    + intros Hall. specialize (Hout Create). rewrite Hall, decide_True in Hout by done.
      assert (Hin : UID (dep_Meta created) ∈ (list_to_set (UID <$> seen) : gset string))
        by (revert Hout; generalize (UID <$> seen); clear; set_solver).
      apply elem_of_list_to_set, list_elem_of_fmap in Hin as (m & Huid & Hm).
      apply list_elem_of_filter in Hm as [Hkey Hm]. by exists m.
    + intros (m & Hm & Huid & Hkey) a. rewrite Hout. case_decide; [|done].
      enough (Hin : UID (dep_Meta created) ∈ (list_to_set (UID <$> seen) : gset string)) by (revert Hin; generalize (UID <$> seen); clear; set_solver).
      apply elem_of_list_to_set, list_elem_of_fmap. exists m. split; [done|]. by apply list_elem_of_filter.
  - intros Htype Hns Howner. unfold getControllerKey. rewrite Howner. unfold releaseControllerRef. rewrite Htype.
    simpl. by rewrite Hns.
Qed.
End observed.
