(* ===== verification/AtomicWriter.v ===== *)
(** * Writing files atomically (pkg/webhook/util/writer/atomic)

    A payload of files is projected into a directory through a link that is replaced by
    one rename.  The file system is a class of the operations of [os] and [filepath] the
    writer uses. *)

From Stdlib Require Import Ascii.
From S2P Require Export LabelPatch.

(** ** Paths *)

(** A path by its components below the root; of a relative path the working directory
    comes first. *)
Abbreviation path := (list string).

(** [strings.Split] by one character. *)
Fixpoint splitOn (sep : ascii) (s : string) : list string :=
  match s with
  | EmptyString => [""%string]
  | String c rest =>
      let l := splitOn sep rest in
      if Ascii.eqb c sep then ""%string :: l
      else match l with
           | [] => [String c ""]
           | item :: l => String c item :: l
           end
  end.
Definition separator : ascii := "/".

(** [path.Clean] and [path.Join]: the components, last first. *)
Definition isDot (item : string) : bool := String.eqb item "" || String.eqb item ".".
Definition cleanStep (stack : path) (item : string) : path :=
  if isDot item then stack
  else if String.eqb item ".." then
    match stack with
    | [] => [".."%string]
    | top :: rest => if String.eqb top ".." then item :: stack else rest
    end
  else item :: stack.
Definition cleanPath (s : string) : path := reverse (foldl cleanStep [] (splitOn separator s)).
Definition joinStep (stack : path) (item : string) : path :=
  if isDot item then stack else if String.eqb item ".." then tail stack else item :: stack.
Definition joinPath (dir : path) (s : string) : path :=
  reverse (foldl joinStep (reverse dir) (splitOn separator s)).

(** ** The file system *)

Inductive Node :=
  | NFile (data : string) (mode : Z)
  | NDir
  | NLink (target : string).

(** [ErrNotFound] is [fs.ErrNotExist]. *)
Class FileSystem (W : Type) := {
  os_Stat : path -> M W unit;
  os_Lstat : path -> M W unit;
  os_Readlink : path -> M W string;
  os_ReadFile : path -> M W string;
  os_WriteFile : path -> string -> Z -> M W unit;
  os_Chmod : path -> Z -> M W unit;
  os_MkdirAll : path -> Z -> M W unit;
  os_TempDir : path -> string -> M W path;
  os_Symlink : string -> path -> M W unit;
  os_Rename : path -> path -> M W unit;
  os_Remove : path -> M W unit;
  os_RemoveAll : path -> M W unit;
  (** the paths a walk hands to a visitor that never fails *)
  filepath_Walk : path -> M W (list path);
  (** [time.Now().UTC().Format("..2006_01_02_15_04_05.")] *)
  time_Stamp : M W string
}.
(** [runtime.GOOS == "windows"] *)
Class Platform := isWindows : bool.

(** ** The writer *)

Record FileProjection := mkProjection { fp_Data : string; fp_Mode : Z }.
Abbreviation Payload := (gmap path FileProjection).

Definition maxFileNameLength : nat := 255.
Definition maxPathLength : nat := 4096.
Definition dataDirName : string := "..data".
Definition newDataDirName : string := "..data_tmp".

Definition invalidPath (msg : string) : res unit := Err (ErrOther ("invalid path: " +:+ msg)).

Fixpoint validateItems (items : list string) : res unit :=
  match items with
  | [] => Ok tt
  | item :: rest =>
      if String.eqb item ".." then invalidPath "must not contain '..'"
      else if Nat.ltb maxFileNameLength (String.length item)
      then invalidPath "filenames must be less than or equal to 255 characters"
      else validateItems rest
  end.

Definition validatePath (targetPath : string) : res unit :=
  if String.eqb targetPath "" then invalidPath "must not be empty"
  else if String.prefix "/" targetPath then invalidPath "must be relative path"
  else if Nat.ltb maxPathLength (String.length targetPath)
  then invalidPath "must be less than or equal to 4096 characters"
  else
    let items := splitOn separator targetPath in
    res_bind (validateItems items) (fun _ =>
    let first := default ""%string (head items) in
    if String.prefix ".." first && Nat.ltb 2 (String.length first)
    then invalidPath "must not start with '..'" else Ok tt).

Fixpoint validateFiles (files : list (string * FileProjection)) (cleanPayload : Payload) : res Payload :=
  match files with
  | [] => Ok cleanPayload
  | (k, content) :: rest =>
      res_bind (validatePath k) (fun _ => validateFiles rest (<[cleanPath k := content]> cleanPayload))
  end.

Section writer.
Context {W : Type} `{FileSystem W} `{MapRange} `{Platform}.

Definition validatePayload (payload : gmap string FileProjection) : res Payload :=
  validateFiles (rangeOrder (map_to_list payload)) ∅.

Definition NewAtomicWriter (targetDir : path) : M W path :=
  r <- catch (os_Stat targetDir) ;;
  match r with
  | inr err => if IsNotFound err then fail err else ret targetDir
  | inl _ => ret targetDir
  end.

Definition shouldWriteFile (p : path) (content : string) : M W bool :=
  r <- catch (os_Lstat p) ;;
  match r with
  | inr ErrNotFound => ret true
  | _ => contentOnFs <- os_ReadFile p ;; ret (negb (String.eqb content contentOnFs))
  end.

Fixpoint shouldWriteFiles (oldTsDir : path) (files : list (path * FileProjection)) : M W bool :=
  match files with
  | [] => ret false
  | (userVisiblePath, projection) :: rest =>
      shouldWrite <- shouldWriteFile (oldTsDir ++ userVisiblePath) (fp_Data projection) ;;
      if shouldWrite : bool then ret true else shouldWriteFiles oldTsDir rest
  end.
Definition shouldWritePayload (payload : Payload) (oldTsDir : path) : M W bool :=
  shouldWriteFiles oldTsDir (rangeOrder (map_to_list payload)).

(** A file and the directories on the way to it. *)
Definition subPaths (file : path) : list path := (fun k => take k file) <$> seq 1 (length file).

(** The parts of the current version that the payload does not have. *)
Definition pathsToRemove (payload : Payload) (oldTsDir : path) : M W (gset path) :=
  r <- catch (filepath_Walk oldTsDir) ;;
  match r with
  | inr err => if IsNotFound err then ret ∅ else fail err
  | inl visited =>
      let paths : gset path := list_to_set (filter (fun p => p <> []) (drop (length oldTsDir) <$> visited)) in
      let newPaths : gset path := list_to_set (mjoin ((fun kv => subPaths kv.1) <$> map_to_list payload)) in
      ret (paths ∖ newPaths)
  end.

Definition newTimestampDir (targetDir : path) : M W path :=
  stamp <- time_Stamp ;;
  tsDir <- os_TempDir targetDir stamp ;;
  os_Chmod tsDir 493 ;;
  ret tsDir.

(** A mode that cannot be set is logged. *)
Fixpoint writeFiles (dir : path) (files : list (path * FileProjection)) : M W unit :=
  match files with
  | [] => ret tt
  | (userVisiblePath, projection) :: rest =>
      let fullPath := (dir ++ userVisiblePath)%list in
      os_MkdirAll (removelast fullPath) 511 ;;
      os_WriteFile fullPath (fp_Data projection) (fp_Mode projection) ;;
      catch (os_Chmod fullPath (fp_Mode projection)) ;;
      writeFiles dir rest
  end.
Definition writePayloadToDir (payload : Payload) (dir : path) : M W unit :=
  writeFiles dir (rangeOrder (map_to_list payload)).

Definition dataLink (linkname : path) : string :=
  match linkname with [] => dataDirName | name :: _ => (dataDirName +:+ "/" +:+ name)%string end.

Fixpoint createLinks (targetDir : path) (files : list (path * FileProjection)) : M W unit :=
  match files with
  | [] => ret tt
  | (userVisiblePath, _) :: rest =>
      let linkname := take 1 userVisiblePath in
      r <- catch (os_Readlink (targetDir ++ linkname)) ;;
      match r with
      | inr ErrNotFound => os_Symlink (dataLink linkname) (targetDir ++ linkname)
      | _ => ret tt
      end ;;
      createLinks targetDir rest
  end.
Definition createUserVisibleFiles (targetDir : path) (payload : Payload) : M W unit :=
  createLinks targetDir (rangeOrder (map_to_list payload)).

(** Only names in the directory itself are removed, and the last error is kept. *)
Fixpoint removePaths (targetDir : path) (paths : list path) (lasterr : option goerror) : M W unit :=
  match paths with
  | [] => match lasterr with Some err => fail err | None => ret tt end
  | p :: rest =>
      if Nat.ltb 1 (length p) then removePaths targetDir rest lasterr else
      r <- catch (os_Remove (targetDir ++ p)) ;;
      removePaths targetDir rest (match r with inl _ => lasterr | inr err => Some err end)
  end.
Definition removeUserVisiblePaths (targetDir : path) (paths : gset path) : M W unit :=
  removePaths targetDir (rangeOrder (elements paths)) None.

(** Steps 2 to 4: the current version, if there is one, what has to go, and whether
    anything has to be done. *)
Definition currentVersion (targetDir : path) : M W string :=
  r <- catch (os_Readlink (targetDir ++ [dataDirName])) ;;
  match r with
  | inl oldTsDir => ret oldTsDir
  | inr err => if IsNotFound err then ret ""%string else fail err
  end.

Definition planUpdate (cleanPayload : Payload) (oldTsDir : string) (oldTsPath : path) : M W (option (gset path)) :=
  if nonempty oldTsDir then
    pathsToRemove <- pathsToRemove cleanPayload oldTsPath ;;
    should <- shouldWritePayload cleanPayload oldTsPath ;;
    ret (if negb should && bool_decide (pathsToRemove = ∅) then None else Some pathsToRemove)
  else ret (Some ∅).

(** Steps 8 and 9: the link to the new version takes the place of the old one. *)
Definition replaceLink (targetDir tsDir : path) (tsDirName : string) : M W unit :=
  let dataDirPath := (targetDir ++ [dataDirName])%list in
  let newDataDirPath := (targetDir ++ [newDataDirName])%list in
  r <- catch (os_Symlink tsDirName newDataDirPath) ;;
  match r with
  | inr err => catch (os_RemoveAll tsDir) ;; fail err
  | inl _ =>
      renamed <- catch (if isWindows then
                          catch (os_Remove dataDirPath) ;;
                          linked <- catch (os_Symlink tsDirName dataDirPath) ;;
                          catch (os_Remove newDataDirPath) ;;
                          match linked with inl _ => ret tt | inr err => fail err end
                        else os_Rename newDataDirPath dataDirPath) ;;
      match renamed with
      | inr err => catch (os_Remove newDataDirPath) ;; catch (os_RemoveAll tsDir) ;; fail err
      | inl _ => ret tt
      end
  end.

Definition Write (targetDir : path) (payload : gmap string FileProjection) : M W unit :=
  cleanPayload <- lift (validatePayload payload) ;;
  oldTsDir <- currentVersion targetDir ;;
  let oldTsPath := joinPath targetDir oldTsDir in
  plan <- planUpdate cleanPayload oldTsDir oldTsPath ;;
  match plan with
  | None => ret tt
  | Some pathsToRemove =>
      tsDir <- newTimestampDir targetDir ;;
      let tsDirName := default ""%string (last tsDir) in
      writePayloadToDir cleanPayload tsDir ;;
      createUserVisibleFiles targetDir cleanPayload ;;
      replaceLink targetDir tsDir tsDirName ;;
      removeUserVisiblePaths targetDir pathsToRemove ;;
      if nonempty oldTsDir then os_RemoveAll oldTsPath else ret tt
  end.
End writer.
