(* ===== verification/AtomicProofs.v ===== *)
(** * Atomic updates (properties of AtomicWriter.v)

    What readers see of a directory that is written to, at every state the file system
    passes through, whichever operation fails. *)

From Stdlib Require Import Ascii.
From S2P Require Export AtomicWriter.

Abbreviation FileTree := (gmap path Node).

(** The file system of a world, and all it has been, the latest state first.  A crash
    leaves one of these states.  [unlistable]: the entries of the directory may be out of
    reach, because it cannot be read, or cannot be entered. *)
Class FileHistory (W : Type) := {
  fsNow : W -> FileTree;
  fsSeen : W -> list FileTree;
  unlistable : path -> Prop
}.

(** A directory on the way from [root] down to the path, before the path itself, that
    cannot be listed. *)
Definition hidden {W} `{FileHistory W} (root q : path) : Prop :=
  exists d, unlistable d /\ root `prefix_of` d /\ d `prefix_of` q /\ d <> q.
(** There is no such directory. *)
Class Listable (W : Type) `{FileHistory W} := all_listable : forall d, ~ unlistable d.

Definition isLink (n : option Node) : bool := match n with Some (NLink _) => true | _ => false end.

(** No directory on the way to the path is a link. *)
Definition direct (fs : FileTree) (p : path) : Prop := forall q, q `prefix_of` p -> q <> p -> isLink (fs !! q) = false.

(** ** What the operations do

    Each relation is between the state before an operation and one it passes through
    ([None]) or ends in ([Some] of its outcome). *)

Section operations.
Context {A : Type}.

Definition reading (p : path) (answer : A -> FileTree -> Prop) (x : option (res A)) (fs fs' : FileTree) : Prop :=
  fs' = fs /\ (direct fs p -> forall a, x = Some (Ok a) -> answer a fs).
End operations.

Definition writing (p : path) (data : string) (mode : Z) (x : option (res unit)) (fs fs' : FileTree) : Prop :=
  direct fs p -> isLink (fs !! p) = false ->
  (forall q, q <> p -> fs' !! q = fs !! q)
  /\ (fs' !! p = fs !! p
      \/ exists d m, fs' !! p = Some (NFile d m)
           /\ (fs !! p = None /\ Z.land m (Z.lnot mode) = 0 \/ exists d0, fs !! p = Some (NFile d0 m)))
  /\ (x = Some (Ok tt) -> exists m, fs' !! p = Some (NFile data m)).

Definition changingMode (p : path) (mode : Z) (x : option (res unit)) (fs fs' : FileTree) : Prop :=
  direct fs p -> isLink (fs !! p) = false ->
  fs' = fs \/ exists d m, fs !! p = Some (NFile d m) /\ fs' = <[p := NFile d mode]> fs.

Definition makingDirs (p : path) (x : option (res unit)) (fs fs' : FileTree) : Prop :=
  direct fs p -> isLink (fs !! p) = false ->
  forall q, fs' !! q = fs !! q \/ (q `prefix_of` p /\ fs !! q = None /\ fs' !! q = Some NDir).

(** The new directory has a name that begins as asked for and that nothing had. *)
Definition makingTemp (dir : path) (stamp : string) (x : option (res path)) (fs fs' : FileTree) : Prop :=
  direct fs dir -> isLink (fs !! dir) = false ->
  (fs' = fs /\ (forall q, x <> Some (Ok q)))
  \/ exists rest, let name := (stamp +:+ rest)%string in
       splitOn separator name = [name]
       /\ (forall s, fs !! (dir ++ name :: s) = None)
       /\ fs' = <[(dir ++ [name])%list := NDir]> fs
       /\ (forall q, x = Some (Ok q) -> q = (dir ++ [name])%list).

Definition linking (target : string) (p : path) (x : option (res unit)) (fs fs' : FileTree) : Prop :=
  direct fs p ->
  (fs' = fs /\ x <> Some (Ok tt))
  \/ (fs !! p = None /\ fs' = <[p := NLink target]> fs /\ forall e, x <> Some (Err e)).

(** A link is renamed at once. *)
Definition renaming (a b : path) (x : option (res unit)) (fs fs' : FileTree) : Prop :=
  direct fs a -> direct fs b ->
  forall target, fs !! a = Some (NLink target) ->
  (fs' = fs /\ x <> Some (Ok tt)) \/ (fs' = <[b := NLink target]> (delete a fs) /\ forall e, x <> Some (Err e)).

Definition removing (p : path) (x : option (res unit)) (fs fs' : FileTree) : Prop :=
  direct fs p -> fs' = fs \/ fs' = delete p fs.

Definition removingAll (p : path) (x : option (res unit)) (fs fs' : FileTree) : Prop :=
  direct fs p -> forall q, fs' !! q = fs !! q \/ (p `prefix_of` q /\ fs' !! q = None).

(** ".." and a digit, without a separator. *)
Definition properStamp (name : string) : Prop :=
  exists n rest, (n < 10)%nat /\ name = String "." (String "." (String (ascii_of_nat (48 + n)) rest)).

Section laws.
Context {W : Type} `{FileSystem W} `{FileHistory W}.

Definition does {A} (m : M W A) (R : option (res A) -> FileTree -> FileTree -> Prop) : Prop :=
  forall w r w', m w = (r, w') ->
    r <> Panic
    /\ (exists l, fsSeen w' = (l ++ fsSeen w)%list /\ Forall (R None (fsNow w)) l)
    /\ R (Some r) (fsNow w) (fsNow w').
End laws.

Class FileLaws (W : Type) `{FileSystem W} `{FileHistory W} := {
  fs_tree (w : W) p name : fsNow w !! (p ++ [name])%list <> None -> fsNow w !! p = Some NDir \/ p = [];
  Stat_law p : does (os_Stat p) (reading p (fun _ _ => True));
  Lstat_law p : does (os_Lstat p) (reading p (fun _ fs => fs !! p <> None));
  Readlink_law p : does (os_Readlink p) (reading p (fun target fs => fs !! p = Some (NLink target)));
  ReadFile_law p : does (os_ReadFile p) (reading p (fun data fs =>
    match fs !! p with Some (NFile d _) => data = d | Some (NLink _) => True | _ => False end));
  (** a walk fails only when its visitor does: what it cannot list or enter it hands to
      the visitor as an error, and does not descend into when the visitor ignores that *)
  Walk_law root : does (filepath_Walk root) (fun x fs fs' =>
    (forall e, x <> Some (Err e))
    /\ reading root (fun visited fs =>
         (forall q, q ∈ visited -> q = root \/ (root `prefix_of` q /\ fs !! q <> None))
         /\ forall q, root `prefix_of` q -> fs !! q <> None -> q ∈ visited \/ hidden root q) x fs fs');
  Stamp_law : does time_Stamp (reading [] (fun stamp _ => properStamp stamp));
  WriteFile_law p data mode : does (os_WriteFile p data mode) (writing p data mode);
  Chmod_law p mode : does (os_Chmod p mode) (changingMode p mode);
  MkdirAll_law p mode : does (os_MkdirAll p mode) (makingDirs p);
  TempDir_law dir stamp : does (os_TempDir dir stamp) (makingTemp dir stamp);
  Symlink_law target p : does (os_Symlink target p) (linking target p);
  Rename_law a b : does (os_Rename a b) (renaming a b);
  Remove_law p : does (os_Remove p) (removing p);
  RemoveAll_law p : does (os_RemoveAll p) (removingAll p)
}.

(** ** Runs and the states they pass through *)

Section runs.
Context {W : Type} `{FileSystem W} `{FileHistory W} `{!FileLaws W}.

(** From a state with [P], [m] does not panic, passes only through states with [I], and
    ends in one with [Q]. *)
Definition passing {A : Type} (P : FileTree -> Prop) (m : M W A) (I : FileTree -> Prop) (Q : res A -> FileTree -> Prop) : Prop :=
  forall w r w', P (fsNow w) -> m w = (r, w') ->
    r <> Panic /\ (exists l, fsSeen w' = (l ++ fsSeen w)%list /\ Forall I l) /\ Q r (fsNow w').

Lemma passing_op {A : Type} (m : M W A) (R : option (res A) -> FileTree -> FileTree -> Prop) (P I : FileTree -> Prop)
    (Q : res A -> FileTree -> Prop) :
  does m R ->
  (forall fs fs', P fs -> R None fs fs' -> I fs') ->
  (forall fs r fs', P fs -> r <> Panic -> R (Some r) fs fs' -> Q r fs') ->
  passing P m I Q.
Proof.
  intros Hdoes HI HQ w r w' HP Hrun. destruct (Hdoes w r w' Hrun) as (Hr & (l & El & Hl) & Hlast).
  split; [done|]. split; [|by eapply HQ]. exists l. split; [done|]. eapply Forall_impl; [exact Hl|].
  intros fs' HR. by eapply HI.
Qed.

Lemma passing_lift {A : Type} (x : res A) (P I : FileTree -> Prop) (Q : res A -> FileTree -> Prop) :
  x <> Panic -> (forall fs, P fs -> Q x fs) -> passing P (lift x) I Q.
Proof.
  intros Hx HQ w r w' HP [= <- <-]. split; [done|]. split; [by exists []|by apply HQ].
Qed.
Lemma passing_ret {A : Type} (a : A) (P I : FileTree -> Prop) (Q : res A -> FileTree -> Prop) :
  (forall fs, P fs -> Q (Ok a) fs) -> passing P (ret a) I Q.
Proof. by apply (passing_lift (Ok a)). Qed.
Lemma passing_fail {A : Type} (e : goerror) (P I : FileTree -> Prop) (Q : res A -> FileTree -> Prop) :
  (forall fs, P fs -> Q (Err e) fs) -> passing P (fail e) I Q.
Proof. by apply (passing_lift (Err e)). Qed.

Lemma passing_bind {A B : Type} (m : M W A) (k : A -> M W B) (P I : FileTree -> Prop)
    (Q1 : res A -> FileTree -> Prop) (Q : res B -> FileTree -> Prop) :
  passing P m I Q1 ->
  (forall a, passing (Q1 (Ok a)) (k a) I Q) ->
  (forall e fs, Q1 (Err e) fs -> Q (Err e) fs) ->
  passing P (bind m k) I Q.
Proof.
  intros Hm Hk He w r w' HP. unfold bind. destruct (m w) as [r1 w1] eqn:Em.
  destruct (Hm w r1 w1 HP Em) as (Hr1 & (l1 & El1 & Hl1) & HQ1). destruct r1 as [a|e|]; [|intros [= <- <-]|done].
  - intros Hrun. destruct (Hk a w1 r w' HQ1 Hrun) as (Hr & (l & El & Hl) & HQ). split; [done|]. split; [|done].
    exists (l ++ l1)%list. split; [by rewrite El, El1, app_assoc|by apply Forall_app].
  - split; [done|]. split; [by exists l1|by apply He].
Qed.

Lemma passing_bind_Ok {A B : Type} (x : res A) (a : A) (k : A -> M W B) (P I : FileTree -> Prop) (Q : res B -> FileTree -> Prop) :
  x = Ok a -> passing P (k a) I Q -> passing P (bind (lift x) k) I Q.
Proof. by intros ->. Qed.

Lemma passing_catch {A : Type} (m : M W A) (P I : FileTree -> Prop) (Q : res (A + goerror) -> FileTree -> Prop) :
  passing P m I (fun r fs => match r with Ok a => Q (Ok (inl a)) fs | Err e => Q (Ok (inr e)) fs | Panic => False end) ->
  passing P (catch m) I Q.
Proof.
  intros Hm w r w' HP. unfold catch. destruct (m w) as [r1 w1] eqn:Em.
  destruct (Hm w r1 w1 HP Em) as (Hr1 & Hl & HQ). by destruct r1; intros [= <- <-].
Qed.

Lemma passing_weaken {A : Type} (m : M W A) (P P' I : FileTree -> Prop) (Q Q' : res A -> FileTree -> Prop) :
  passing P' m I Q' -> (forall fs, P fs -> P' fs) -> (forall r fs, Q' r fs -> Q r fs) -> passing P m I Q.
Proof. intros Hm HP HQ w r w' Hw Hrun. destruct (Hm w r w' (HP _ Hw) Hrun) as (? & ? & ?). auto. Qed.

(** What is known of the state is used before the run. *)
Lemma passing_pure {A : Type} (phi : Prop) (m : M W A) (P I : FileTree -> Prop) (Q : res A -> FileTree -> Prop) :
  (phi -> passing P m I Q) -> passing (fun fs => phi /\ P fs) m I Q.
Proof. intros Hm w r w' [Hphi HP]. by apply Hm. Qed.

(** A read changes nothing. *)
Lemma passing_reading {A : Type} (m : M W A) (p : path) (answer : A -> FileTree -> Prop) (P I : FileTree -> Prop) (Q : res A -> FileTree -> Prop) :
  does m (reading p answer) ->
  (forall fs, P fs -> direct fs p /\ I fs) ->
  (forall fs a, P fs -> answer a fs -> Q (Ok a) fs) ->
  (forall fs e, P fs -> Q (Err e) fs) ->
  passing P m I Q.
Proof.
  intros Hdoes HP Hok Herr w r w' Hw Hrun. destruct (Hdoes w r w' Hrun) as (Hr & (l & El & Hl) & -> & Hans).
  destruct (HP _ Hw) as [Hdir HI]. split; [done|]. split.
  - exists l. split; [done|]. eapply Forall_impl; [exact Hl|]. by intros fs' [-> _].
  - destruct r as [a|e|]; [by apply Hok, Hans|by apply Herr|done].
Qed.
End runs.

(** ** What a reader sees *)

Definition dataDir (dir : path) : path := (dir ++ [dataDirName])%list.

(** A file reached through the data directory: its content and mode. *)
Definition visibleFile (fs : FileTree) (dir p : path) : option (string * Z) :=
  match fs !! dataDir dir with
  | Some (NLink ts) =>
      match fs !! (joinPath dir ts ++ p)%list with
      | Some (NFile data mode) => Some (data, mode)
      | _ => None
      end
  | _ => None
  end.
Definition visible (fs : FileTree) (dir p : path) : option string := fst <$> visibleFile fs dir p.

(** The files are those of the payload, none with more permissions than it says. *)
Definition shows (payload : Payload) (fs : FileTree) (dir : path) : Prop :=
  forall p, match visibleFile fs dir p, payload !! p with
            | Some (data, mode), Some proj => data = fp_Data proj /\ Z.land mode (Z.lnot (fp_Mode proj)) = 0
            | None, None => True
            | _, _ => False
            end.

(** No part of the name of the directory is a link; its data directory, when it is a link,
    leads to a version: a directory beside it without links or reserved names. *)
Definition version (fs : FileTree) (dir : path) (ts : string) : Prop :=
  properStamp ts /\ splitOn separator ts = [ts]
  /\ fs !! (dir ++ [ts])%list = Some NDir
  /\ (forall s, isLink (fs !! (dir ++ ts :: s)%list) = false)
  /\ (forall name s, fs !! (dir ++ ts :: name :: s)%list <> None -> String.prefix ".." name = false).
Definition intact (dir : path) (fs : FileTree) : Prop :=
  (forall q, q `prefix_of` dir -> isLink (fs !! q) = false)
  /\ forall ts, fs !! dataDir dir = Some (NLink ts) -> version fs dir ts.

(** The names of a payload are not reserved. *)
Definition unreserved (payload : Payload) : Prop :=
  forall p, is_Some (payload !! p) -> exists name s, p = name :: s /\ String.prefix ".." name = false.

Lemma properStamp_prefix ts : properStamp ts -> String.prefix ".." ts = true.
Proof. by intros (n & rest & _ & ->). Qed.
Lemma properStamp_data ts : properStamp ts -> ts <> dataDirName /\ ts <> newDataDirName.
Proof.
  intros (n & rest & Hn & ->). unfold dataDirName, newDataDirName.
  split; intros [= E _]; apply (f_equal nat_of_ascii) in E; rewrite nat_ascii_embedding in E by lia;
    vm_compute in E; lia.
Qed.

Lemma joinPath_name dir ts : properStamp ts -> splitOn separator ts = [ts] -> joinPath dir ts = (dir ++ [ts])%list.
Proof.
  intros (n & rest & Hn & ->) E. unfold joinPath. rewrite E. cbn [foldl].
  trans (reverse (String "." (String "." (String (ascii_of_nat (48 + n)) rest)) :: reverse dir)); [done|].
  by rewrite reverse_cons, reverse_involutive.
Qed.

Lemma app_name_inj (dir : path) a b s t : (dir ++ a :: s = dir ++ b :: t)%list -> a = b /\ s = t.
Proof. intros E. apply app_inv_head in E. by injection E. Qed.
Lemma not_prefix_name (dir : path) a s : ~ (dir ++ a :: s)%list `prefix_of` dir.
Proof. intros [l E]. apply (f_equal length) in E. rewrite !length_app in E. simpl in E. lia. Qed.

Section write.
Context {W : Type} `{FileSystem W} `{FileHistory W} `{!FileLaws W} `{MapRangeLaws} `{Platform}.
Variables (dir : path) (fs0 : FileTree) (clean : Payload).
Hypothesis Hintact : intact dir fs0.
Hypothesis Hunreserved : unreserved clean.
Hypothesis Htree : forall p name, fs0 !! (p ++ [name])%list <> None -> fs0 !! p = Some NDir \/ p = [].

Definition tmpLink : path := (dir ++ [newDataDirName])%list.
Definition oldVersion (ts : string) : Prop := fs0 !! dataDir dir = Some (NLink ts).
Definition unlinked (fs : FileTree) : Prop := forall q, q `prefix_of` dir -> isLink (fs !! q) = false.

(** The old version is as it was. *)
Definition Old (fs : FileTree) : Prop :=
  fs !! dataDir dir = fs0 !! dataDir dir
  /\ (forall ts s, oldVersion ts -> fs !! (dir ++ ts :: s)%list = fs0 !! (dir ++ ts :: s)%list)
  /\ unlinked fs.

(** A version has exactly the files [done]. *)
Definition Written (name : string) (done : list (path * FileProjection)) (fs : FileTree) : Prop :=
  fs !! (dir ++ [name])%list = Some NDir
  /\ (forall s, isLink (fs !! (dir ++ name :: s)%list) = false)
  /\ (forall n s, fs !! (dir ++ name :: n :: s)%list <> None -> String.prefix ".." n = false)
  /\ (forall p d m, fs !! (dir ++ name :: p)%list = Some (NFile d m) ->
        exists proj, (p, proj) ∈ done /\ d = fp_Data proj /\ Z.land m (Z.lnot (fp_Mode proj)) = 0)
  /\ (forall p proj, (p, proj) ∈ done -> exists m, fs !! (dir ++ name :: p)%list = Some (NFile (fp_Data proj) m)).

Definition newVersion (name : string) : Prop :=
  properStamp name /\ splitOn separator name = [name] /\ ~ oldVersion name.
Definition Building (name : string) (done : list (path * FileProjection)) (fs : FileTree) : Prop :=
  Old fs /\ fs !! tmpLink = fs0 !! tmpLink /\ Written name done fs.
Definition Current (name : string) (fs : FileTree) : Prop :=
  fs !! dataDir dir = Some (NLink name) /\ Written name (map_to_list clean) fs /\ unlinked fs.
(** What anyone may see. *)
Definition Consistent (fs : FileTree) : Prop := Old fs \/ exists name, newVersion name /\ Current name fs.

(** Only what has this name in the directory changes, and directories on the way to it. *)
Definition touches (name : string) (fs fs' : FileTree) : Prop :=
  forall q, fs' !! q = fs !! q \/ (exists s, q = (dir ++ name :: s)%list)
            \/ (q `prefix_of` dir /\ isLink (fs' !! q) = false).

Lemma Old_start : Old fs0.
Proof. split; [done|]. split; [done|]. exact (proj1 Hintact). Qed.

Lemma oldVersion_stamp ts : oldVersion ts -> properStamp ts /\ splitOn separator ts = [ts].
Proof. intros Ho. destruct (proj2 Hintact ts Ho) as (? & ? & _). done. Qed.

Lemma touches_other name fs fs' n s :
  touches name fs fs' -> n <> name -> fs' !! (dir ++ n :: s)%list = fs !! (dir ++ n :: s)%list.
Proof.
  intros Ht Hn. destruct (Ht (dir ++ n :: s)%list) as [|[(s' & E)|[Hp _]]]; [done| |by apply not_prefix_name in Hp].
  apply app_name_inj in E as [-> _]. done.
Qed.
Lemma touches_unlinked name fs fs' : touches name fs fs' -> unlinked fs -> unlinked fs'.
Proof.
  intros Ht Hu q Hq. destruct (Ht q) as [->|[(s & ->)|[_ ?]]]; [by apply Hu|by apply not_prefix_name in Hq|done].
Qed.
Lemma Old_touches name fs fs' :
  touches name fs fs' -> name <> dataDirName -> ~ oldVersion name -> Old fs -> Old fs'.
Proof.
  intros Ht Hd Hv (H1' & H2' & H3'). split; [|split].
  - rewrite <- H1'. by apply (touches_other name).
  - intros ts s Hts. rewrite <- H2' by done. apply (touches_other name); [done|]. by intros ->.
  - by eapply touches_unlinked.
Qed.
Lemma Written_touches name name' done fs fs' :
  touches name fs fs' -> name' <> name -> Written name' done fs -> Written name' done fs'.
Proof.
  intros Ht Hn (H0' & H1' & H2' & H3' & H4'). split; [by rewrite (touches_other name fs)|]. repeat split.
  - intros s. by rewrite (touches_other name fs).
  - intros n s. rewrite (touches_other name fs) by done. apply H2'.
  - intros p d m. rewrite (touches_other name fs) by done. apply H3'.
  - intros p proj. rewrite (touches_other name fs) by done. apply H4'.
Qed.
Lemma Building_touches name name' done fs fs' :
  touches name fs fs' -> name' <> name -> name <> dataDirName -> name <> newDataDirName -> ~ oldVersion name ->
  Building name' done fs -> Building name' done fs'.
Proof.
  intros Ht Hn Hd Htmp Hv (HO & HT & HW). split; [by eapply Old_touches|]. split; [|by eapply Written_touches].
  rewrite <- HT. by apply (touches_other name).
Qed.
Lemma Current_touches name name' fs fs' :
  touches name fs fs' -> name' <> name -> name <> dataDirName -> Current name' fs -> Current name' fs'.
Proof.
  intros Ht Hn Hd (HD & HW & HU). split; [|split; [by eapply Written_touches|by eapply touches_unlinked]].
  rewrite <- HD. by apply (touches_other name).
Qed.

(** ** Where the operations may work *)

Lemma direct_dir fs : unlinked fs -> direct fs dir.
Proof. intros Hu q Hq _. by apply Hu. Qed.
Lemma prefix_name_cases q name s : q `prefix_of` (dir ++ name :: s)%list ->
  q `prefix_of` dir \/ exists s', q = (dir ++ name :: s')%list /\ s' `prefix_of` s.
Proof.
  intros [l E]. destruct (decide (length q <= length dir)%nat) as [Hle|Hgt].
  - left. exists (drop (length q) dir). rewrite <- (take_drop (length q) dir) at 1. f_equal.
    trans (take (length q) (dir ++ name :: s)); [by rewrite take_app_le|]. by rewrite E, take_app_length.
  - right. exists (drop (S (length dir)) q).
    assert (Hq : q = take (length q) (dir ++ name :: s)) by (by rewrite E, take_app_length).
    rewrite take_app_ge in Hq by lia. destruct (length q - length dir)%nat as [|k] eqn:Ek; [lia|]. simpl in Hq.
    split.
    + rewrite Hq at 1. do 2 f_equal. rewrite Hq, drop_app_ge by lia.
      replace (S (length dir) - length dir)%nat with 1%nat by lia. done.
    + rewrite Hq, drop_app_ge by lia. replace (S (length dir) - length dir)%nat with 1%nat by lia. simpl.
      apply prefix_take.
Qed.
Lemma direct_name fs name : unlinked fs -> direct fs (dir ++ [name])%list.
Proof.
  intros Hu q Hq Hne. apply prefix_name_cases in Hq as [Hq|(s' & -> & Hs)]; [by apply Hu|].
  apply prefix_nil_inv in Hs as ->. done.
Qed.
Lemma direct_within fs name done s : unlinked fs -> Written name done fs -> direct fs (dir ++ name :: s)%list.
Proof.
  intros Hu HW q Hq _. apply prefix_name_cases in Hq as [Hq|(s' & -> & _)]; [by apply Hu|apply HW].
Qed.

(** ** What each operation touches *)

Lemma touches_refl name fs : touches name fs fs.
Proof. intros q. by left. Qed.
Lemma touches_insert name s node fs : touches name fs (<[(dir ++ name :: s)%list := node]> fs).
Proof.
  intros q. destruct (decide (q = (dir ++ name :: s)%list)) as [->|]; [right; left; by exists s|left].
  by rewrite lookup_insert_ne.
Qed.
Lemma touches_delete name fs : touches name fs (delete (dir ++ [name])%list fs).
Proof.
  intros q. destruct (decide (q = (dir ++ [name])%list)) as [->|]; [right; left; by exists []|left].
  by rewrite lookup_delete_ne.
Qed.
Lemma linking_touches target name x fs fs' :
  unlinked fs -> linking target (dir ++ [name]) x fs fs' -> touches name fs fs'.
Proof.
  intros Hu [(-> & _)|(_ & -> & _)]%(fun f => f (direct_name _ _ Hu)); [apply touches_refl|apply touches_insert].
Qed.
Lemma removing_touches name x fs fs' : unlinked fs -> removing (dir ++ [name]) x fs fs' -> touches name fs fs'.
Proof.
  intros Hu [->| ->]%(fun f => f (direct_name _ _ Hu)); [apply touches_refl|apply touches_delete].
Qed.
Lemma removingAll_touches name x fs fs' :
  unlinked fs -> removingAll (dir ++ [name]) x fs fs' -> touches name fs fs'.
Proof.
  intros Hu Hr q. destruct (Hr (direct_name _ _ Hu) q) as [|[[s ->] _]]; [by left|]. right. left. exists s.
  by rewrite <- app_assoc.
Qed.

Lemma passing_touching {A : Type} (m : M W A) (R : option (res A) -> FileTree -> FileTree -> Prop) (name : string) (P : FileTree -> Prop) :
  does m R -> (forall x fs fs', P fs -> R x fs fs' -> touches name fs fs') ->
  (forall fs fs', P fs -> touches name fs fs' -> P fs' /\ Consistent fs') ->
  passing P m Consistent (fun r fs' => r <> Panic /\ exists fs, P fs /\ R (Some r) fs fs' /\ P fs').
Proof.
  intros Hdoes Htouch HP w r w' Hw Hrun. destruct (Hdoes w r w' Hrun) as (Hr & (l & El & Hl) & HR).
  split; [done|]. split; [|split; [done|]; exists (fsNow w); split; [done|]; split; [done|]; eapply HP; eauto].
  exists l. split; [done|]. eapply Forall_impl; [exact Hl|]. intros fs' HR'. eapply HP; eauto.
Qed.

(** ** Steps 2 to 4 *)

Lemma currentVersion_passing :
  passing (fun fs => fs = fs0) (currentVersion dir) Consistent (fun r fs =>
    fs = fs0 /\ forall ts, r = Ok ts -> ts <> ""%string -> oldVersion ts).
Proof.
  unfold currentVersion. apply (passing_bind _ _ _ _ (fun r fs =>
    fs = fs0 /\ match r with Ok (inl ts) => oldVersion ts | Ok _ => True | Err _ => False | Panic => False end)).
  - apply passing_catch. eapply (passing_reading _ _ _ _ _ _); [apply Readlink_law|..].
    + intros fs ->. split; [apply direct_name, Old_start|left; apply Old_start].
    + by intros fs ts -> Hts.
    + by intros fs e ->.
  - intros [ts|err].
    + apply passing_ret. intros fs [-> Hts]. split; [done|]. by intros ? [= <-].
    + case_match; [apply passing_ret|apply passing_fail]; intros fs [-> _]; split; try done. by intros ? [= <-].
  - by intros e fs [_ []].
Qed.

Lemma shouldWriteFile_passing (p : path) (content : string) :
  direct fs0 p ->
  passing (fun fs => fs = fs0) (shouldWriteFile p content) Consistent (fun r fs =>
    fs = fs0 /\ (r = Ok false -> isLink (fs0 !! p) = false -> exists m, fs0 !! p = Some (NFile content m))).
Proof.
  intros Hdir. unfold shouldWriteFile. apply (passing_bind _ _ _ _ (fun r fs => fs = fs0 /\ forall e, r <> Err e)).
  - apply passing_catch. eapply (passing_reading _ _ _ _ _ _); [apply Lstat_law|..].
    + intros fs ->. split; [done|left; apply Old_start].
    + by intros fs [] -> _.
    + by intros fs e ->.
  - assert (Hread : passing (fun fs => fs = fs0 /\ (forall e : goerror, Ok (A := unit + goerror) (inr e) <> Err e))
      (contentOnFs <- os_ReadFile p ;; ret (negb (String.eqb content contentOnFs))) Consistent (fun r fs =>
      fs = fs0 /\ (r = Ok false -> isLink (fs0 !! p) = false -> exists m, fs0 !! p = Some (NFile content m)))).
    { apply (passing_bind _ _ _ _ (fun r fs => fs = fs0 /\ forall data, r = Ok data ->
        match fs0 !! p with Some (NFile d _) => data = d | Some (NLink _) => True | _ => False end)).
      - eapply (passing_reading _ _ _ _ _ _); [apply ReadFile_law|..].
        + intros fs [-> _]. split; [done|left; apply Old_start].
        + intros fs data [-> _] Hdata. split; [done|]. by intros ? [= <-].
        + by intros fs e [-> _].
      - intros data. apply passing_ret. intros fs [-> Hdata]. split; [done|]. intros [= Heq%negb_false_iff] Hlink.
        apply String.eqb_eq in Heq as ->. specialize (Hdata data eq_refl).
        destruct (fs0 !! p) as [[d m| |t]|]; [|done|done|done]. subst d. by exists m.
      - by intros e fs [-> _]. }
    intros [[]|[]]; try (eapply passing_weaken; [exact Hread| |done]; by intros fs [-> _]).
    apply passing_ret. by intros fs [-> _].
  - intros e fs [_ He]. by destruct (He e).
Qed.

Lemma shouldWriteFiles_passing (oldTs : path) (files : list (path * FileProjection)) :
  (forall s, direct fs0 (oldTs ++ s)%list /\ isLink (fs0 !! (oldTs ++ s)%list) = false) ->
  passing (fun fs => fs = fs0) (shouldWriteFiles oldTs files) Consistent (fun r fs =>
    fs = fs0 /\ (r = Ok false -> forall p proj, (p, proj) ∈ files ->
      exists m, fs0 !! (oldTs ++ p)%list = Some (NFile (fp_Data proj) m))).
Proof.
  intros Hold. induction files as [|[p proj] files IH]; simpl.
  - apply passing_ret. intros fs ->. split; [done|]. by intros _ p proj Hp%not_elem_of_nil.
  - eapply passing_bind; [apply shouldWriteFile_passing, Hold|..].
    + intros [|].
      * apply passing_ret. by intros fs [-> _].
      * intros w r w' [Hw Hsame] Hrun. destruct (IH w r w' Hw Hrun) as (Hr & Hl & Hw' & Hrest).
        split; [done|]. split; [done|]. split; [done|]. intros Hok p' proj' Hin.
        apply elem_of_cons in Hin as [[= -> ->]|Hin]; [|by apply Hrest].
        apply Hsame; [done|]. apply Hold.
    + by intros e fs [-> _].
Qed.

Lemma elem_of_subPaths s file : s ∈ subPaths file -> s `prefix_of` file.
Proof. unfold subPaths. intros (k & -> & _)%list_elem_of_fmap. apply prefix_take. Qed.

Lemma pathsToRemove_passing (ts : string) :
  oldVersion ts ->
  passing (fun fs => fs = fs0) (pathsToRemove clean (dir ++ [ts])) Consistent (fun r fs =>
    fs = fs0 /\ forall removed, r = Ok removed ->
      (forall p, p ∈ removed -> exists n s, p = n :: s /\ String.prefix ".." n = false)
      /\ (removed = ∅ -> forall s, s <> [] -> fs0 !! (dir ++ ts :: s)%list <> None ->
            (exists k, is_Some (clean !! k) /\ s `prefix_of` k)
            \/ hidden (dir ++ [ts]) (dir ++ ts :: s))).
Proof.
  intros Hts. unfold pathsToRemove. apply (passing_bind _ _ _ _ (fun r fs => fs = fs0 /\ exists visited, r = Ok (inl visited)
    /\ (forall q, q ∈ visited -> q = (dir ++ [ts])%list \/ ((dir ++ [ts])%list `prefix_of` q /\ fs0 !! q <> None))
    /\ forall q, (dir ++ [ts])%list `prefix_of` q -> fs0 !! q <> None -> q ∈ visited \/ hidden (dir ++ [ts]) q)).
  - apply passing_catch. eapply passing_op; [apply Walk_law|..].
    + intros fs fs' -> (_ & -> & _). left. apply Old_start.
    + intros fs r fs' -> Hr (He & -> & Hok). destruct r as [visited|e|]; [|by destruct (He e)|done].
      split; [done|]. exists visited. split; [done|]. apply Hok; [|done]. apply direct_name, Old_start.
  - intros [visited|err].
    + apply passing_ret. intros fs [-> (? & [= <-] & Hsound & Hcomplete)]. split; [done|]. intros removed [= <-]. split.
      * intros p. rewrite elem_of_difference, elem_of_list_to_set, list_elem_of_filter.
        intros [[Hne (q & -> & Hq)%list_elem_of_fmap] _]. destruct (Hsound q Hq) as [->|[[s ->] Hex]].
        { by rewrite drop_ge in Hne by done. }
        rewrite drop_app_length in Hne |- *. destruct s as [|n s]; [done|]. exists n, s. split; [done|].
        destruct (proj2 Hintact ts Hts) as (_ & _ & _ & _ & Hnames). apply (Hnames n s). by rewrite <- app_assoc in Hex.
      * intros Hempty s Hs Hex.
        destruct (decide (s ∈ (list_to_set (mjoin ((fun kv => subPaths kv.1) <$> map_to_list clean)) : gset path)))
          as [Hin|Hnin].
        -- apply elem_of_list_to_set, list_elem_of_join in Hin as (l & Hl & Hin).
           apply list_elem_of_fmap in Hin as ([k proj] & -> & Hk%elem_of_map_to_list). left. exists k.
           split; [by exists proj|]. by apply elem_of_subPaths.
        -- destruct (Hcomplete (dir ++ ts :: s)%list) as [Hvisited|]; [exists s; by rewrite <- app_assoc|done| |by right].
           exfalso. apply (not_elem_of_empty (C := gset path) s). rewrite <- Hempty. apply elem_of_difference.
           split; [|done]. apply elem_of_list_to_set, list_elem_of_filter. split; [done|].
           apply list_elem_of_fmap. exists ((dir ++ [ts]) ++ s)%list. split; [by rewrite drop_app_length|].
           by rewrite <- app_assoc.
    + case_match; [apply passing_ret|apply passing_fail]; intros fs [-> (? & [=] & _)].
  - intros e fs [-> (? & [=] & _)].
Qed.

Lemma tree_prefix p l : p <> [] -> l <> [] -> fs0 !! (p ++ l)%list <> None -> fs0 !! p = Some NDir.
Proof.
  intros Hp. induction l as [|x l IH] using rev_ind; [done|]. intros _. rewrite app_assoc. intros Hex.
  destruct (Htree _ _ Hex) as [Hd|E]; [|by apply app_nil in E as [-> _]].
  destruct l as [|y l]; [by rewrite app_nil_r in Hd|]. apply IH; [done|]. by rewrite Hd.
Qed.

Lemma old_visible ts p : oldVersion ts ->
  visible fs0 dir p = match fs0 !! (dir ++ ts :: p)%list with Some (NFile data _) => Some data | _ => None end.
Proof.
  intros Hts. unfold visible, visibleFile. rewrite Hts. destruct (oldVersion_stamp ts Hts) as [H1' H2'].
  rewrite (joinPath_name dir ts H1' H2'), <- app_assoc. cbn [app]. by destruct (fs0 !! _) as [[]|].
Qed.

(** The files of the payload are there; what else is, could not be listed. *)
Definition upToDate (fs : FileTree) : Prop :=
  (forall p proj, clean !! p = Some proj -> visible fs dir p = Some (fp_Data proj))
  /\ forall p, clean !! p = None ->
       visible fs dir p = None \/ (fs = fs0 /\ exists ts, oldVersion ts /\ hidden (dir ++ [ts]) (dir ++ ts :: p)).

Lemma planUpdate_passing (ts : string) :
  (ts <> ""%string -> oldVersion ts) ->
  passing (fun fs => fs = fs0) (planUpdate clean ts (joinPath dir ts)) Consistent (fun r fs =>
    fs = fs0 /\ (r = Ok None -> upToDate fs0)
    /\ forall removed, r = Ok (Some removed) ->
         forall p, p ∈ removed -> exists n s, p = n :: s /\ String.prefix ".." n = false).
Proof.
  intros Hold. unfold planUpdate. destruct (String.eqb_spec ts "") as [->|Hne].
  { simpl. apply passing_ret. intros fs ->. split; [done|]. split; [done|]. intros ? [= <-] p. set_solver. }
  assert (nonempty ts = true) as -> by (by destruct ts). specialize (Hold Hne).
  destruct (oldVersion_stamp ts Hold) as [Hstamp Hsplit]. rewrite (joinPath_name dir ts) by done.
  destruct (proj2 Hintact ts Hold) as (_ & _ & Hroot & Hlinks & _).
  eapply passing_bind; [by apply pathsToRemove_passing|..]; [|by intros e fs [-> _]].
  intros removed w r w' [Hw Hremoved]. destruct (Hremoved removed eq_refl) as [Hnames Hall]. clear Hremoved.
  revert Hw. revert w r w'. change (passing (fun fs => fs = fs0)
    (should <- shouldWritePayload clean (dir ++ [ts]) ;;
     ret (if negb should && bool_decide (removed = ∅) then None else Some removed)) Consistent (fun r fs =>
    fs = fs0 /\ (r = Ok None -> upToDate fs0)
    /\ forall removed, r = Ok (Some removed) ->
         forall p, p ∈ removed -> exists n s, p = n :: s /\ String.prefix ".." n = false)).
  eapply passing_bind; [apply shouldWriteFiles_passing|..]; [| |by intros e fs [-> _]].
  - intros s. rewrite <- app_assoc. split; [|apply Hlinks]. intros q Hq _.
    apply prefix_name_cases in Hq as [Hq|(s' & -> & _)]; [by apply (proj1 Hintact)|apply Hlinks].
  - intros should. apply passing_ret. intros fs [-> Hsame]. split; [done|].
    destruct should; simpl; [by split; [done|]; intros ? [= <-]|].
    specialize (Hsame eq_refl). case_bool_decide as Hempty; [|by split; [done|]; intros ? [= <-]].
    split; [|done]. intros _.
    assert (Hfiles : forall k proj, clean !! k = Some proj -> exists m, fs0 !! (dir ++ ts :: k)%list = Some (NFile (fp_Data proj) m)).
    { intros k proj Hk. destruct (Hsame k proj) as [m Hm]; [|exists m; by rewrite <- app_assoc in Hm].
      rewrite rangeOrder_perm. by apply elem_of_map_to_list. }
    split; intros p; [intros proj Ep; rewrite (old_visible ts p Hold); by destruct (Hfiles p proj Ep) as [m ->]|].
    intros Ep. rewrite (old_visible ts p Hold).
    destruct (fs0 !! (dir ++ ts :: p)%list) as [[d m| |t]|] eqn:Enode; [|by left..].
    destruct p as [|n s]; [pose proof (eq_trans (eq_sym Hroot) Enode); done|].
    destruct (Hall Hempty (n :: s)) as [(k & [proj Hk] & [l ->])|Hhidden];
      [done|by rewrite Enode|exfalso|by right; split; [|exists ts]].
    destruct (Hfiles _ _ Hk) as [m' Hm']. destruct l as [|x l]; 
      [rewrite app_nil_r in Hk; pose proof (eq_trans (eq_sym Hk) Ep); done|].
    assert (fs0 !! (dir ++ ts :: n :: s)%list = Some NDir) as Hd; [|pose proof (eq_trans (eq_sym Hd) Enode); done].
    apply (tree_prefix _ (x :: l)); [by destruct dir|done|]. rewrite <- app_assoc. intros E.
    pose proof (eq_trans (eq_sym Hm') E). done.
Qed.

(** ** Step 5 *)

Lemma newTimestampDir_passing :
  passing (fun fs => fs = fs0) (newTimestampDir dir) Consistent (fun r fs =>
    match r with
    | Ok tsDir => exists name, tsDir = (dir ++ [name])%list /\ newVersion name /\ Building name [] fs
    | _ => Old fs
    end).
Proof.
  assert (Hmade : forall name, (forall s, fs0 !! (dir ++ name :: s)%list = None) ->
    properStamp name -> splitOn separator name = [name] ->
    newVersion name /\ Building name [] (<[(dir ++ [name])%list := NDir]> fs0)).
  { intros name Hfresh Hstamp Hsplit. assert (Hnew : ~ oldVersion name).
    { intros Hold. destruct (proj2 Hintact name Hold) as (_ & _ & Hroot & _). rewrite Hfresh in Hroot. done. }
    destruct (properStamp_data name Hstamp) as [Hd Ht]. split; [done|]. split; [|split].
    - apply (Old_touches name fs0); [apply touches_insert|done|done|apply Old_start].
    - apply (touches_other name); [apply touches_insert|done].
    - split; [apply lookup_insert_eq|].
      assert (Hlook : forall s, s <> [] -> <[(dir ++ [name])%list := NDir]> fs0 !! (dir ++ name :: s)%list = None).
      { intros s Hs. rewrite lookup_insert_ne; [done|]. intros E. apply app_name_inj in E as [_ <-]. done. }
      repeat split.
      + intros [|n s]; [by rewrite lookup_insert_eq|by rewrite Hlook].
      + intros n s. by rewrite Hlook.
      + intros [|n s] d m; [by rewrite lookup_insert_eq|by rewrite Hlook].
      + by intros p proj Hp%not_elem_of_nil. }
  unfold newTimestampDir. apply (passing_bind _ _ _ _ (fun r fs => fs = fs0 /\ forall stamp, r = Ok stamp -> properStamp stamp)).
  - eapply (passing_reading _ _ _ _ _ _); [apply Stamp_law|..].
    + intros fs ->. split; [|left; apply Old_start]. intros q Hq%prefix_nil_inv. done.
    + intros fs stamp -> Hs. split; [done|]. by intros ? [= <-].
    + by intros fs e ->.
  - intros stamp. apply (passing_bind _ _ _ _ (fun r fs => match r with
      | Ok tsDir => exists name, tsDir = (dir ++ [name])%list /\ newVersion name /\ Building name [] fs
      | _ => Old fs
      end)); [|..|done].
    + assert (Hcase : forall x fs', properStamp stamp -> makingTemp dir stamp x fs0 fs' ->
        (fs' = fs0 /\ (forall q, x <> Some (Ok q)))
        \/ exists name, newVersion name /\ Building name [] fs' /\ forall q, x = Some (Ok q) -> q = (dir ++ [name])%list).
      { intros x fs' (n & rest & Hn & ->) Hmaking.
        destruct (Hmaking (direct_dir _ (proj1 Hintact)) (proj1 Hintact dir ltac:(done)))
          as [?|(rest' & Hsplit & Hfresh & -> & Hq)]; [by left|]. right. eexists. split; [|split; [|exact Hq]];
          apply Hmade; try done; by exists n, (rest +:+ rest')%string. }
      eapply passing_op; [apply TempDir_law|..].
      * intros fs fs' [-> Hs] Hmaking. left. destruct (Hcase None fs' (Hs stamp eq_refl) Hmaking)
          as [[-> _]|(name & _ & (HO & _) & _)]; [apply Old_start|done].
      * intros fs r fs' [-> Hs] Hr Hmaking. destruct (Hcase (Some r) fs' (Hs stamp eq_refl) Hmaking)
          as [[-> Hno]|(name & Hnew & HB & Hq)].
        -- destruct r as [q|e|]; [by destruct (Hno q)|apply Old_start|done].
        -- destruct r as [q|e|]; [|apply HB|done]. exists name. split; [by apply Hq|done].
    + intros tsDir.
      assert (Hchmod : forall x fs fs' name, Building name [] fs ->
        changingMode (dir ++ [name]) 493 x fs fs' -> fs' = fs).
      { intros x fs fs' name (HO & _ & HW) Hmode.
        destruct (Hmode (direct_name _ _ (proj2 (proj2 HO))) ltac:(apply HW)) as [|(d & m & Hfile & _)]; [done|].
        pose proof (eq_trans (eq_sym (proj1 HW)) Hfile). done. }
      apply (passing_bind _ _ _ _ (fun r fs => match r with
        | Ok _ => exists name, tsDir = (dir ++ [name])%list /\ newVersion name /\ Building name [] fs
        | _ => Old fs
        end)).
      * eapply passing_op; [apply Chmod_law|..].
        -- intros fs fs' (name & -> & Hnew & HB) Hmode. rewrite (Hchmod _ _ _ _ HB Hmode). left. apply HB.
        -- intros fs r fs' (name & -> & Hnew & HB) Hr Hmode. rewrite (Hchmod _ _ _ _ HB Hmode).
           destruct r; [by exists name|apply HB|done].
      * intros []. apply passing_ret. done.
      * done.
  - intros e fs [-> _]. apply Old_start.
Qed.

(** ** Step 6 *)

Lemma removelast_name name n s : removelast ((dir ++ [name]) ++ n :: s)%list = (dir ++ name :: removelast (n :: s))%list.
Proof. rewrite <- app_assoc. rewrite removelast_app by done. done. Qed.

(** Inside a version, away from its files, only directories for a file may appear. *)
Lemma makingDirs_building name done n s x fs fs' :
  newVersion name -> String.prefix ".." n = false -> Building name done fs ->
  makingDirs (removelast ((dir ++ [name]) ++ n :: s)) x fs fs' -> Building name done fs'.
Proof.
  intros (Hstamp & _ & Hold) Hn (HO & HT & HW) Hmaking. rewrite removelast_name in Hmaking.
  destruct (properStamp_data name Hstamp) as [Hd Ht]. pose proof (proj2 (proj2 HO)) as Hu.
  specialize (Hmaking (direct_within _ _ _ _ Hu HW) (proj1 (proj2 HW) _)).
  assert (Htouch : touches name fs fs').
  { intros q. destruct (Hmaking q) as [|(Hq & _ & Hdir)]; [by left|right].
    apply prefix_name_cases in Hq as [Hq|(s' & -> & _)]; [right; by rewrite Hdir|left; by exists s']. }
  split; [by apply (Old_touches name fs)|]. split; [rewrite <- HT; by apply (touches_other name)|].
  destruct HW as (HR & HL & HN & HF & HC).
  assert (Hsame : forall s' node, fs !! (dir ++ name :: s')%list = Some node -> fs' !! (dir ++ name :: s')%list = Some node).
  { intros s' node E. destruct (Hmaking (dir ++ name :: s')%list) as [->|(_ & E' & _)]; [done|]. by rewrite E in E'. }
  split; [by apply Hsame|]. repeat split.
  - intros s'. destruct (Hmaking (dir ++ name :: s')%list) as [->|(_ & _ & ->)]; [apply HL|done].
  - intros n' s' Hex. destruct (Hmaking (dir ++ name :: n' :: s')%list) as [E|(Hq & _ & _)];
      [rewrite E in Hex; by apply (HN n' s')|].
    apply prefix_name_cases in Hq as [Hq|(s'' & E & Hs)]; [by apply not_prefix_name in Hq|].
    apply app_name_inj in E as [_ <-]. destruct Hs as [l E].
    assert (n :: s = (n' :: s') ++ l ++ [List.last (n :: s) ""%string])%list as E'.
    { rewrite app_assoc, <- E. by apply app_removelast_last. }
    by injection E' as <- _.
  - intros p d m E. destruct (Hmaking (dir ++ name :: p)%list) as [E'|(_ & _ & E')]; rewrite E' in E; [by apply HF|done].
  - intros p proj Hp. destruct (HC p proj Hp) as [m E]. exists m. by apply Hsame.
Qed.

Lemma writing_building name done n s proj x fs fs' :
  newVersion name -> String.prefix ".." n = false -> n :: s ∉ done.*1 -> Building name done fs ->
  writing ((dir ++ [name]) ++ n :: s) (fp_Data proj) (fp_Mode proj) x fs fs' ->
  Old fs' /\ (x = Some (Ok tt) -> Building name (done ++ [(n :: s, proj)]) fs').
Proof.
  intros (Hstamp & _ & Hold) Hn Hnew (HO & HT & HW) Hwriting. rewrite <- app_assoc in Hwriting. cbn [app] in Hwriting.
  destruct (properStamp_data name Hstamp) as [Hd Ht]. pose proof (proj2 (proj2 HO)) as Hu.
  destruct (Hwriting (direct_within _ _ _ _ Hu HW) (proj1 (proj2 HW) _)) as (Hoff & Hat & Hok).
  assert (Htouch : touches name fs fs').
  { intros q. destruct (decide (q = (dir ++ name :: n :: s)%list)) as [->|Hq]; [right; left; by eexists|left; by apply Hoff]. }
  split; [by apply (Old_touches name fs)|]. intros ->. destruct (Hok eq_refl) as [m Em]. clear Hok.
  split; [by apply (Old_touches name fs)|]. split; [rewrite <- HT; by apply (touches_other name)|].
  destruct HW as (HR & HL & HN & HF & HC).
  assert (Hno : forall d m, fs !! (dir ++ name :: n :: s)%list <> Some (NFile d m)).
  { intros d m' E. destruct (HF _ _ _ E) as (proj' & Hin & _). apply Hnew. apply list_elem_of_fmap.
    by exists (n :: s, proj'). }
  assert (Hmode : Z.land m (Z.lnot (fp_Mode proj)) = 0).
  { destruct Hat as [E|(d & m' & E & [[_ Hm]|[d0 E0]])]; [rewrite Em in E; by destruct (Hno (fp_Data proj) m)| |by destruct (Hno d0 m')].
    rewrite Em in E. by injection E as _ <-. }
  assert (Hother : forall s', s' <> n :: s -> fs' !! (dir ++ name :: s')%list = fs !! (dir ++ name :: s')%list).
  { intros s' Hs'. apply Hoff. intros E. by apply app_name_inj in E as [_ ->]. }
  split; [by rewrite Hother|]. repeat split.
  - intros s'. destruct (decide (s' = n :: s)) as [->|Hs']; [by rewrite Em|by rewrite Hother].
  - intros n' s' Hex. destruct (decide (n' :: s' = n :: s)) as [[= -> ->]|Hs']; [done|].
    rewrite Hother in Hex by done. by apply (HN n' s').
  - intros p d m' E. destruct (decide (p = n :: s)) as [->|Hp].
    + rewrite Em in E. injection E as <- <-. exists proj. split; [set_solver|done].
    + rewrite Hother in E by done. destruct (HF p d m' E) as (proj' & Hin & Hrest). exists proj'. split; [set_solver|done].
  - intros p proj' [Hin|Hin%list_elem_of_singleton]%elem_of_app.
    + rewrite Hother; [by apply HC|]. intros ->. apply Hnew. apply list_elem_of_fmap. by exists (n :: s, proj').
    + injection Hin as -> ->. by exists m.
Qed.

Lemma changingMode_building name done n s proj x fs fs' :
  newVersion name -> (n :: s, proj) ∈ done -> (forall proj', (n :: s, proj') ∈ done -> proj' = proj) ->
  Building name done fs ->
  changingMode ((dir ++ [name]) ++ n :: s) (fp_Mode proj) x fs fs' -> Building name done fs'.
Proof.
  intros (Hstamp & _ & Hold) Hin Honly (HO & HT & HW) Hmode. rewrite <- app_assoc in Hmode. cbn [app] in Hmode.
  destruct (properStamp_data name Hstamp) as [Hd Ht]. pose proof (proj2 (proj2 HO)) as Hu.
  destruct (Hmode (direct_within _ _ _ _ Hu HW) (proj1 (proj2 HW) _)) as [->|(d & m & Efile & ->)]; [done|].
  pose proof (touches_insert name (n :: s) (NFile d (fp_Mode proj)) fs) as Htouch.
  split; [by apply (Old_touches name fs)|]. split; [rewrite <- HT; by apply (touches_other name)|].
  destruct HW as (HR & HL & HN & HF & HC).
  destruct (HF _ _ _ Efile) as (proj' & Hin' & -> & _). apply Honly in Hin' as ->.
  assert (Hother : forall s', s' <> n :: s ->
    <[(dir ++ name :: n :: s)%list := NFile (fp_Data proj) (fp_Mode proj)]> fs !! (dir ++ name :: s')%list
    = fs !! (dir ++ name :: s')%list).
  { intros s' Hs'. apply lookup_insert_ne. intros E. by apply app_name_inj in E as [_ <-]. }
  split; [by rewrite Hother|]. repeat split.
  - intros s'. destruct (decide (s' = n :: s)) as [->|Hs']; [by rewrite lookup_insert_eq|by rewrite Hother].
  - intros n' s' Hex. destruct (decide (n' :: s' = n :: s)) as [[= -> ->]|Hs'];
      [apply (HN n s); by rewrite Efile|]. rewrite Hother in Hex by done. by apply (HN n' s').
  - intros p d m' E. destruct (decide (p = n :: s)) as [->|Hp]; [|rewrite Hother in E by done; by apply HF].
    rewrite lookup_insert_eq in E. injection E as <- <-. exists proj. split; [done|]. split; [done|]. apply Z.land_lnot_diag.
  - intros p proj' Hp. destruct (decide (p = n :: s)) as [->|Hne]; [|rewrite Hother by done; by apply HC].
    apply Honly in Hp as ->. exists (fp_Mode proj). by rewrite lookup_insert_eq.
Qed.

Lemma Building_consistent name done fs : Building name done fs -> Consistent fs.
Proof. intros HB. left. apply HB. Qed.

Lemma writeFiles_passing name done (files : list (path * FileProjection)) :
  newVersion name -> NoDup (done ++ files).*1 ->
  (forall p proj, (p, proj) ∈ files -> exists n s, p = n :: s /\ String.prefix ".." n = false) ->
  passing (Building name done) (writeFiles (dir ++ [name]) files) Consistent (fun r fs =>
    match r with Ok _ => Building name (done ++ files) fs | _ => Old fs end).
Proof.
  intros Hnew. revert done. induction files as [|[p proj] files IH]; intros done Hdup Hnames; simpl.
  { apply passing_ret. intros fs HB. by rewrite app_nil_r. }
  destruct (Hnames p proj) as (n & s & -> & Hn); [by left|].
  rewrite fmap_app in Hdup. simpl in Hdup.
  assert (Hfresh : n :: s ∉ done.*1).
  { intros Hin. apply NoDup_app in Hdup as (_ & Hdis & _). apply (Hdis _ Hin). by left. }
  apply (passing_bind _ _ _ _ (fun r fs => match r with Ok _ => Building name done fs | _ => Old fs end)); [| |done].
  { eapply passing_op; [apply MkdirAll_law|..].
    - intros fs fs' HB Hmaking. eapply (Building_consistent name done).
      exact (makingDirs_building name done n s _ fs fs' Hnew Hn HB Hmaking).
    - intros fs r fs' HB Hr Hmaking.
      pose proof (makingDirs_building name done n s _ fs fs' Hnew Hn HB Hmaking) as HB'.
      destruct r; [done|apply HB'|done]. }
  intros []. apply (passing_bind _ _ _ _ (fun r fs =>
    match r with Ok _ => Building name (done ++ [(n :: s, proj)]) fs | _ => Old fs end)); [| |done].
  { eapply passing_op; [apply WriteFile_law|..].
    - intros fs fs' HB Hwriting. left.
      exact (proj1 (writing_building name done n s proj _ fs fs' Hnew Hn Hfresh HB Hwriting)).
    - intros fs r fs' HB Hr Hwriting.
      destruct (writing_building name done n s proj _ fs fs' Hnew Hn Hfresh HB Hwriting) as [HO Hok].
      destruct r as [[]|e|]; [by apply Hok|done|done]. }
  assert (Hchmod : forall x fs fs', Building name (done ++ [(n :: s, proj)]) fs ->
    changingMode ((dir ++ [name]) ++ n :: s) (fp_Mode proj) x fs fs' -> Building name (done ++ [(n :: s, proj)]) fs').
  { intros x fs fs' HB Hmode. eapply (changingMode_building name _ n s proj); [done|set_solver| |done|done].
    intros proj' [Hin|Hin%list_elem_of_singleton]%elem_of_app; [|by injection Hin].
    exfalso. apply Hfresh. apply list_elem_of_fmap. by exists (n :: s, proj'). }
  intros []. apply (passing_bind _ _ _ _ (fun r fs => Building name (done ++ [(n :: s, proj)]) fs)).
  - apply passing_catch. eapply passing_op; [apply Chmod_law|..].
    + intros fs fs' HB Hmode. eapply (Building_consistent name _). by eapply Hchmod.
    + intros fs r fs' HB Hr Hmode. eapply Hchmod in Hmode; [|done]. by destruct r.
  - intros _. eapply passing_weaken; [apply (IH (done ++ [(n :: s, proj)]))|done|].
    + rewrite <- app_assoc, fmap_app. done.
    + intros p' proj' Hin. apply (Hnames p' proj'). by right.
    + intros r fs. by rewrite <- app_assoc.
  - intros e fs HB. apply HB.
Qed.

(** ** Step 7 *)

Lemma unreserved_other name n :
  String.prefix ".." n = false -> properStamp name -> n <> dataDirName /\ n <> newDataDirName /\ ~ oldVersion n /\ name <> n.
Proof.
  intros Hn Hname. repeat split.
  - by intros ->.
  - by intros ->.
  - intros Ho%oldVersion_stamp. destruct Ho as [Ho%properStamp_prefix _]. congruence.
  - intros ->. apply properStamp_prefix in Hname. congruence.
Qed.

Lemma createLinks_passing name done (files : list (path * FileProjection)) :
  newVersion name ->
  (forall p proj, (p, proj) ∈ files -> exists n s, p = n :: s /\ String.prefix ".." n = false) ->
  passing (Building name done) (createLinks dir files) Consistent (fun r fs =>
    match r with Ok _ => Building name done fs | _ => Old fs end).
Proof.
  intros Hnew Hnames. induction files as [|[p proj] files IH]; simpl; [by apply passing_ret|].
  destruct (Hnames p proj) as (n & s & -> & Hn); [by left|]. simpl.
  destruct (unreserved_other name n Hn (proj1 Hnew)) as (Hd & Ht & Ho & Hne).
  apply (passing_bind _ _ _ _ (fun _ => Building name done)); [| |by intros e fs (HO & _)].
  { apply passing_catch. eapply (passing_reading _ _ _ _ _ _); [apply Readlink_law|..]; [|done|done].
    intros fs HB. split; [apply direct_name, HB|by eapply Building_consistent]. }
  intros r. apply (passing_bind _ _ _ _ (fun _ => Building name done)); [| |by intros e fs (HO & _)].
  - assert (Hlink : passing (Building name done) (os_Symlink (dataLink [n]) (dir ++ [n])) Consistent
      (fun _ => Building name done)).
    { eapply passing_weaken; [eapply (passing_touching _ _ n); [apply Symlink_law|..]|done|].
      - intros x fs fs' HB Hlinking. eapply linking_touches; [|exact Hlinking]. apply HB.
      - intros fs fs' HB Htouch. split; [by eapply Building_touches|].
        by eapply Building_consistent, Building_touches.
      - intros r' fs' (_ & fs & _ & _ & HB). done. }
    destruct r as [|[]]; [by apply passing_ret|exact Hlink|..]; by apply passing_ret.
  - intros _. apply IH. intros p' proj' Hin. apply (Hnames p' proj'). by right.
Qed.

(** ** Steps 8 and 9 *)

Lemma passing_old {A : Type} (m : M W A) (R : option (res A) -> FileTree -> FileTree -> Prop) (name : string) :
  does m R -> (forall x fs fs', unlinked fs -> R x fs fs' -> touches name fs fs') ->
  name <> dataDirName -> ~ oldVersion name -> passing Old (catch m) Consistent (fun r fs => (exists x, r = Ok x) /\ Old fs).
Proof.
  intros Hdoes Htouch Hd Ho. apply passing_catch. eapply passing_weaken;
    [eapply (passing_touching m R name Old); [exact Hdoes|..]|done|].
  - intros x fs fs' HO. apply Htouch, HO.
  - intros fs fs' HO Ht. split; [by eapply Old_touches|left; by eapply Old_touches].
  - intros r fs (Hr & fs1 & _ & _ & HO). destruct r; [split; [by eexists|done]..|done].
Qed.

Lemma removeVersion_passing name (err : goerror) :
  newVersion name ->
  passing Old (catch (os_RemoveAll (dir ++ [name])) ;; fail err) Consistent (fun r fs => match r with Ok tt => False | _ => Old fs end).
Proof.
  intros (Hstamp & _ & Hold). eapply passing_bind;
    [eapply (passing_old _ _ name); [apply RemoveAll_law|intros x fs fs'; apply removingAll_touches
       |by apply properStamp_data|done]|..].
  - intros r. apply passing_fail. by intros fs [_ HO].
  - by intros e fs [_ HO].
Qed.

Lemma Written_perm name done done' fs : done ≡ₚ done' -> Written name done fs -> Written name done' fs.
Proof.
  intros Hp (HR & HL & HN & HF & HC). repeat split; [done..| |].
  - intros p d m E. destruct (HF p d m E) as (proj & Hin & Hrest). exists proj. by rewrite <- Hp.
  - intros p proj. rewrite <- Hp. apply HC.
Qed.

Lemma replaceLink_passing name :
  isWindows = false -> newVersion name ->
  passing (Building name (map_to_list clean)) (replaceLink dir (dir ++ [name]) name) Consistent (fun r fs =>
    match r with Ok _ => Current name fs /\ fs0 !! tmpLink = None | _ => Old fs end).
Proof.
  intros Hposix Hnew. pose proof Hnew as (Hstamp & _ & Hold). destruct (properStamp_data name Hstamp) as [Hd Ht].
  assert (Htmp : ~ oldVersion newDataDirName).
  { intros Ho%oldVersion_stamp. destruct Ho as [Ho%properStamp_data _]. by destruct Ho. }
  set (Linked := fun fs => Old fs /\ Written name (map_to_list clean) fs /\ fs !! tmpLink = Some (NLink name)
    /\ fs0 !! tmpLink = None).
  assert (Hlinked : forall x fs fs', Building name (map_to_list clean) fs -> linking name tmpLink x fs fs' ->
    Old fs' /\ (x = Some (Ok tt) -> Linked fs')).
  { intros x fs fs' (HO & HT & HW) Hlinking. pose proof (linking_touches _ _ _ _ _ (proj2 (proj2 HO)) Hlinking) as Htouch.
    assert (HO' : Old fs') by (by eapply Old_touches). split; [done|]. intros ->.
    destruct (Hlinking (direct_name _ _ (proj2 (proj2 HO)))) as [[_ ?]|(Enone & -> & _)]; [done|].
    split; [done|]. split; [by eapply Written_touches|]. split; [apply lookup_insert_eq|by rewrite <- HT]. }
  assert (Hrenamed : forall x fs fs', Linked fs -> renaming tmpLink (dataDir dir) x fs fs' ->
    (Linked fs' /\ x <> Some (Ok tt)) \/ (Current name fs' /\ forall e, x <> Some (Err e))).
  { intros x fs fs' HLk Hren. pose proof HLk as (HO & HW & HT & _). pose proof (proj2 (proj2 HO)) as Hu.
    destruct (Hren (direct_name _ _ Hu) (direct_name _ _ Hu) _ HT) as [[-> Hx]|[-> Hx]]; [by left|right].
    split; [|done]. pose proof (touches_delete newDataDirName fs) as T1.
    pose proof (touches_insert dataDirName [] (NLink name) (delete tmpLink fs)) as T2.
    split; [apply lookup_insert_eq|]. split.
    - eapply Written_touches; [exact T2|done|]. eapply Written_touches; [exact T1|done|done].
    - eapply touches_unlinked; [exact T2|]. by eapply touches_unlinked. }
  unfold replaceLink. apply (passing_bind _ _ _ _ (fun r fs =>
    match r with Ok (inl _) => Linked fs | _ => Old fs end)); [| |done].
  { apply passing_catch. eapply passing_op; [apply Symlink_law|..].
    - intros fs fs' HB Hlinking. left. exact (proj1 (Hlinked _ _ _ HB Hlinking)).
    - intros fs r fs' HB Hr Hlinking. destruct (Hlinked _ _ _ HB Hlinking) as [HO HLk].
      destruct r as [[]|e|]; [by apply HLk|done|done]. }
  intros [[]|err]; [|eapply passing_weaken; [by apply removeVersion_passing|done|by intros [[]| |] fs]].
  rewrite Hposix. apply (passing_bind _ _ _ _ (fun r fs =>
    match r with Ok (inl _) => Current name fs /\ fs0 !! tmpLink = None | Ok _ => Old fs | _ => False end)); [| |by intros e fs].
  { apply passing_catch. eapply passing_op; [apply Rename_law|..].
    - intros fs fs' HLk Hren. destruct (Hrenamed _ _ _ HLk Hren) as [[HLk' _]|[HC _]]; [left; apply HLk'|right; by exists name].
    - intros fs r fs' HLk Hr Hren. destruct (Hrenamed _ _ _ HLk Hren) as [[HLk' Hx]|[HC Hx]]; destruct r as [[]|e|]; try done.
      + apply HLk'.
      + split; [done|]. apply HLk.
      + by destruct (Hx e). }
  intros [[]|err]; [by apply passing_ret|].
  eapply passing_bind; [eapply (passing_old _ _ newDataDirName); [apply Remove_law
    |intros x fs fs'; apply removing_touches|done|done]|..]; [|by intros e fs [_ HO]].
  intros r. eapply passing_weaken; [by apply removeVersion_passing|by intros fs [_ HO]|by intros [[]| |] fs].
Qed.

(** ** Steps 10 and 11 *)

Lemma removePaths_passing name (paths : list path) lasterr :
  newVersion name ->
  (forall p, p ∈ paths -> exists n s, p = n :: s /\ String.prefix ".." n = false) ->
  passing (Current name) (removePaths dir paths lasterr) Consistent (fun _ fs => Current name fs).
Proof.
  intros Hnew. revert lasterr. induction paths as [|p paths IH]; intros lasterr Hnames; simpl.
  { destruct lasterr; [by apply passing_fail|by apply passing_ret]. }
  destruct (Hnames p) as (n & s & -> & Hn); [by left|].
  assert (Hrest : forall p, p ∈ paths -> exists n s, p = n :: s /\ String.prefix ".." n = false).
  { intros q Hq. apply Hnames. by right. }
  destruct s as [|n' s]; [|by apply IH].
  destruct (unreserved_other name n Hn (proj1 Hnew)) as (Hd & Ht & Ho & Hne).
  apply (passing_bind _ _ _ _ (fun _ => Current name)); [|intros r; by apply IH|done].
  apply passing_catch. eapply passing_weaken; [eapply (passing_touching _ _ n (Current name)); [apply Remove_law|..]|done|].
  - intros x fs fs' HC. apply removing_touches, HC.
  - intros fs fs' HC Htouch. assert (Current name fs') by (by eapply Current_touches). split; [done|]. right. by exists name.
  - intros r fs (Hr & fs1 & _ & _ & HC). by destruct r.
Qed.

Lemma removeOld_passing name ts :
  newVersion name -> oldVersion ts ->
  passing (Current name) (os_RemoveAll (dir ++ [ts])) Consistent (fun _ fs => Current name fs).
Proof.
  intros Hnew Hts. pose proof Hnew as (Hstamp & _ & Hold). destruct (oldVersion_stamp ts Hts) as [[Hd _]%properStamp_data _].
  assert (Hne : name <> ts) by (by intros ->).
  eapply passing_weaken; [eapply (passing_touching _ _ ts (Current name)); [apply RemoveAll_law|..]|done|].
  - intros x fs fs' HC. apply removingAll_touches, HC.
  - intros fs fs' HC Htouch. assert (Current name fs') by (by eapply Current_touches). split; [done|]. right. by exists name.
  - by intros r fs (Hr & fs1 & _ & _ & HC).
Qed.

(** ** The whole *)

Lemma Old_visible fs p : Old fs -> visibleFile fs dir p = visibleFile fs0 dir p.
Proof.
  intros (HD & HV & _). unfold visibleFile. rewrite HD. destruct (fs0 !! dataDir dir) as [[| |ts]|] eqn:Ets; [done..| |done].
  destruct (oldVersion_stamp ts Ets) as [H1' H2']. rewrite (joinPath_name dir ts H1' H2'), <- app_assoc. cbn [app].
  by rewrite (HV ts p Ets).
Qed.

Lemma Current_shows name fs : newVersion name -> Current name fs -> shows clean fs dir.
Proof.
  intros (Hstamp & Hsplit & _) (HD & (_ & _ & _ & HF & HC) & _) p. unfold visibleFile.
  rewrite HD, (joinPath_name dir name Hstamp Hsplit), <- app_assoc. cbn [app].
  destruct (fs !! (dir ++ name :: p)%list) as [[d m| |t]|] eqn:E.
  1: { destruct (HF p d m E) as (proj & Hin%elem_of_map_to_list & Hd & Hm). by rewrite Hin. }
  all: destruct (clean !! p) as [proj|] eqn:Ep; [|done];
    apply elem_of_map_to_list in Ep; destruct (HC p proj Ep) as [m' E']; pose proof (eq_trans (eq_sym E') E); done.
Qed.

Lemma shows_visible fs p : shows clean fs dir -> visible fs dir p = fp_Data <$> clean !! p.
Proof.
  intros Hs. specialize (Hs p). unfold visible. destruct (visibleFile fs dir p) as [[d m]|], (clean !! p); simpl; try done.
  by destruct Hs as [-> _].
Qed.

Lemma shows_upToDate fs : shows clean fs dir -> upToDate fs.
Proof.
  intros Hs. split; [intros p proj Ep|intros p Ep; left]; by rewrite (shows_visible fs p Hs), Ep.
Qed.

Lemma upToDate_listable `{!Listable W} fs p : upToDate fs -> visible fs dir p = fp_Data <$> clean !! p.
Proof.
  intros [Hfiles Hrest]. destruct (clean !! p) as [proj|] eqn:Ep; [by apply Hfiles|].
  destruct (Hrest p Ep) as [|(_ & ts & _ & d & Hd & _)]; [done|by destruct (all_listable d)].
Qed.

Lemma Old_intact fs : Old fs -> intact dir fs.
Proof.
  intros (HD & HV & HU). split; [done|]. intros ts Hts. rewrite HD in Hts.
  destruct (proj2 Hintact ts Hts) as (H1' & H2' & H3' & H4' & H5'). split; [done|]. split; [done|].
  split; [by rewrite HV|]. split; [intros s; by rewrite HV|]. intros n s. rewrite HV by done. apply H5'.
Qed.

Lemma Current_intact name fs : newVersion name -> Current name fs -> intact dir fs.
Proof.
  intros (Hstamp & Hsplit & _) (HD & (HR & HL & HN & _) & HU). split; [done|]. intros ts Hts.
  pose proof (eq_trans (eq_sym HD) Hts) as [= <-]. done.
Qed.

Lemma update_passing (ts : string) (removed : gset path) :
  isWindows = false -> (ts <> ""%string -> oldVersion ts) ->
  (forall p, p ∈ removed -> exists n s, p = n :: s /\ String.prefix ".." n = false) ->
  passing (fun fs => fs = fs0)
    (tsDir <- newTimestampDir dir ;;
     writePayloadToDir clean tsDir ;;
     createUserVisibleFiles dir clean ;;
     replaceLink dir tsDir (default ""%string (last tsDir)) ;;
     removeUserVisiblePaths dir removed ;;
     if nonempty ts then os_RemoveAll (joinPath dir ts) else ret tt) Consistent (fun r fs =>
    Consistent fs /\ (r = Ok tt -> (exists name, newVersion name /\ Current name fs) /\ fs0 !! tmpLink = None)).
Proof.
  intros Hposix Hts Hremoved.
  assert (Hnames : forall p proj, (p, proj) ∈ rangeOrder (map_to_list clean) ->
    exists n s, p = n :: s /\ String.prefix ".." n = false).
  { intros p proj. rewrite rangeOrder_perm. intros Hp%elem_of_map_to_list. apply Hunreserved. by exists proj. }
  eapply passing_bind; [apply newTimestampDir_passing|intros tsDir|intros e fs HO; split; [by left|done]].
  intros w r w' (name & -> & Hnew & HB). revert w r w' HB. rewrite last_snoc. cbn [default id].
  change (passing (Building name []) (writePayloadToDir clean (dir ++ [name]) ;;
     createUserVisibleFiles dir clean ;;
     replaceLink dir (dir ++ [name]) name ;;
     removeUserVisiblePaths dir removed ;;
     if nonempty ts then os_RemoveAll (joinPath dir ts) else ret tt) Consistent (fun r fs =>
    Consistent fs /\ (r = Ok tt -> (exists name, newVersion name /\ Current name fs) /\ fs0 !! tmpLink = None))).
  eapply passing_bind; [apply writeFiles_passing; [done| |exact Hnames]| |intros e fs HO; split; [by left|done]].
  { simpl. rewrite rangeOrder_perm. apply NoDup_fst_map_to_list. }
  intros []. eapply passing_bind; [apply createLinks_passing; [done|exact Hnames]| |intros e fs HO; split; [by left|done]].
  intros []. eapply passing_bind; [eapply passing_weaken; [by apply (replaceLink_passing name)| |done]|
    |intros e fs HO; split; [by left|done]].
  { intros fs (HO & HT & HW). split; [done|]. split; [done|]. eapply Written_perm; [|exact HW]. apply rangeOrder_perm. }
  intros []. eapply passing_weaken; [apply (passing_pure (fs0 !! tmpLink = None) _ (Current name))
    |by intros fs [HC Htmp]; split|intros r fs HQ; exact HQ].
  intros Htmp.
  assert (Hend : forall (r : res unit) fs, Current name fs ->
    Consistent fs /\ (r = Ok tt -> (exists name, newVersion name /\ Current name fs) /\ fs0 !! tmpLink = None)).
  { intros r fs HC. split; [right; by exists name|]. intros _. split; [by exists name|done]. }
  eapply passing_bind; [apply (removePaths_passing name); [done|]| |intros e fs HC; by apply Hend].
  { intros p. rewrite rangeOrder_perm, elem_of_elements. apply Hremoved. }
  intros []. destruct (String.eqb_spec ts "") as [->|Hne]; simpl; [apply passing_ret; intros fs; apply Hend|].
  assert (nonempty ts = true) as -> by (by destruct ts). specialize (Hts Hne).
  destruct (oldVersion_stamp ts Hts) as [Hstamp Hsplit]. rewrite (joinPath_name dir ts Hstamp Hsplit).
  eapply passing_weaken; [by apply (removeOld_passing name)|done|]. intros r fs. apply Hend.
Qed.

Lemma Write_passing (payload : gmap string FileProjection) :
  isWindows = false -> validatePayload payload = Ok clean ->
  passing (fun fs => fs = fs0) (Write dir payload) Consistent (fun r fs =>
    Consistent fs
    /\ (r = Ok tt -> upToDate fs /\ (fs0 !! tmpLink = None \/ fs = fs0))).
Proof.
  intros Hposix Hvalid. unfold Write. eapply passing_bind_Ok; [exact Hvalid|].
  eapply passing_bind; [apply currentVersion_passing|intros ts|intros e fs [-> _]; split; [left; apply Old_start|done]].
  eapply passing_weaken; [apply (passing_pure (ts <> ""%string -> oldVersion ts) _ (fun fs => fs = fs0))
    |intros fs [-> Hts]; split; [by apply Hts|done]|intros r fs HQ; exact HQ].
  intros Hts.
  eapply passing_bind; [by apply planUpdate_passing|intros plan|intros e fs [-> _]; split; [left; apply Old_start|done]].
  destruct plan as [removed|].
  - eapply passing_weaken; [apply (passing_pure (forall p, p ∈ removed -> exists n s, p = n :: s /\ String.prefix ".." n = false)
      _ (fun fs => fs = fs0))|intros fs (-> & _ & Hremoved); split; [by apply Hremoved|done]|intros r fs HQ; exact HQ].
    intros Hremoved. eapply passing_weaken; [by apply (update_passing ts removed)|done|].
    intros r fs [HC Hok]. split; [done|]. intros Hr. destruct (Hok Hr) as [(name & Hnew & Hcur) Htmp].
    split; [|by left]. eapply Current_shows, shows_upToDate in Hcur; done.
  - apply passing_ret. intros fs (-> & Hsame & _). split; [left; apply Old_start|]. intros _. split; [|by right].
    by apply Hsame.
Qed.
End write.

(** C13. A write is atomic.  On a system where a link can be renamed, writing a payload into
    a directory does not panic, and in every state the file system passes through,
    whichever of the operations fails and wherever it stops, the files reached through
    the data directory are all those from before, with their modes, or all those of the
    payload, none with more permissions than it says; and the directory stays intact: no
    part of its name is a link, and a data link leads to a version.  A write without error
    leaves all files of the payload; a file that is not of the payload is left only when
    nothing was written, because the contents of the payload were there already, and the
    file lies below a directory of the version that could not be listed.  With the
    temporary link of a write that was cut off, a write succeeds only where there was
    nothing to write. *)
Theorem write_atomic {W} `{FileSystem W} `{FileHistory W} `{!FileLaws W} `{MapRangeLaws} `{Platform}
    (dir : path) (payload : gmap string FileProjection) (clean : Payload) (w w' : W) (r : res unit) :
  isWindows = false -> intact dir (fsNow w) ->
  validatePayload payload = Ok clean -> unreserved clean ->
  Write dir payload w = (r, w') ->
  r <> Panic
  /\ (exists passed, fsSeen w' = (passed ++ fsSeen w)%list /\ forall fs, fs ∈ fsNow w' :: passed ->
        intact dir fs
        /\ ((forall p, visibleFile fs dir p = visibleFile (fsNow w) dir p) \/ shows clean fs dir))
  /\ (r = Ok tt ->
        (forall p proj, clean !! p = Some proj -> visible (fsNow w') dir p = Some (fp_Data proj))
        /\ (forall p, clean !! p = None -> visible (fsNow w') dir p = None
              \/ (fsNow w' = fsNow w /\ exists ts, fsNow w !! dataDir dir = Some (NLink ts)
                                      /\ hidden (dir ++ [ts]) (dir ++ ts :: p)))
        /\ (fsNow w !! tmpLink dir = None \/ fsNow w' = fsNow w)).
Proof.
  intros Hposix Hintact Hvalid Hunreserved Hrun.
  destruct (Write_passing dir (fsNow w) clean Hintact Hunreserved (fs_tree w) payload Hposix Hvalid w r w' eq_refl Hrun)
    as (Hr & (l & El & Hl) & HC & Hok).
  split; [done|]. split; [|intros E; by destruct (Hok E) as [[]]]. exists l. split; [done|]. intros fs Hfs.
  assert (Consistent dir (fsNow w) clean fs) as [HO|(name & Hnew & Hcur)].
  { apply elem_of_cons in Hfs as [->|Hfs]; [done|]. by eapply Forall_forall in Hfs. }
  - split; [by eapply Old_intact|]. left. intros p. by apply Old_visible.
  - split; [by eapply Current_intact|]. right. by eapply Current_shows.
Qed.
