(* ===== verification/CertWriter.v ===== *)
(** * Certificates of the webhooks (pkg/webhook/util/writer and generator)

    A certificate is read from where it is kept, made when there is none or when it is
    not valid any more, and written back: to a Secret or to a directory.  Cryptography is
    a class of the functions of [crypto] that are called. *)

From Stdlib Require Import Ascii.
From S2P Require Export AtomicWriter.

(** ** Cryptography *)

Record CertConfig := mkCertConfig {
  CommonName : string;
  ServerAuth : bool;
  AltIPs : list string;
  DNSNames : list string
}.

(** The template of a certificate. *)
Record CertTemplate := mkCertTemplate {
  ct_CommonName : string;
  ct_DNSNames : list string;
  ct_IPAddresses : list string;
  ct_SerialNumber : Z;
  ct_NotBefore : Z;
  ct_NotAfter : Z;
  ct_ServerAuth : bool
}.

(** Keys and certificates, their PEM text, and the tests of [tls] and [x509]. *)
Class Crypto := {
  PrivateKey : Type;
  Certificate : Type;
  NotBefore : Certificate -> Z;
  CertPool : Type;
  (** certificate and key belong together *)
  X509KeyPair : string -> string -> bool;
  CertPoolFromPEM : string -> option CertPool;
  pem_Decode : string -> option string;
  ParseCertificate : string -> option Certificate;
  (** for a name, with the roots, at a time *)
  Verify : Certificate -> string -> CertPool -> Z -> bool;
  (** nothing when it is no RSA key *)
  ParseRSAKeyPEM : string -> option PrivateKey;
  ParseCertsPEM : string -> option (list Certificate);
  EncodePrivateKeyPEM : PrivateKey -> string;
  EncodeCertPEM : Certificate -> string;
  (** [net.ParseIP] with [To4] *)
  ParseIPv4 : string -> option string;
  (** [time.AddDate] with years and months *)
  AddDate : Z -> Z -> Z -> Z
}.
Class CryptoOperations (W : Type) `{Crypto} := {
  rsa_GenerateKey : Z -> M W PrivateKey;
  NewSelfSignedCACert : string -> PrivateKey -> M W Certificate;
  (** the template, the parent, the key that is certified and the key that signs *)
  CreateCertificate : CertTemplate -> Certificate -> PrivateKey -> PrivateKey -> M W Certificate
}.

(** ** The generator (selfsigned.go, util.go) *)

(** A nil slice is [None]. *)
Record Artifacts := mkArtifacts {
  art_Key : option string;
  art_Cert : option string;
  art_CAKey : option string;
  art_CACert : option string;
  art_ResourceVersion : string
}.

(** The CA the generator was given. *)
Record SelfSignedCertGenerator := mkGenerator { gen_caKey : option string; gen_caCert : option string }.
Definition newGenerator : SelfSignedCertGenerator := mkGenerator None None.

Definition rsaKeySize : Z := 2048.
Definition ServiceToCommonName (serviceNamespace serviceName : string) : string :=
  (serviceName +:+ "." +:+ serviceNamespace +:+ ".svc")%string.

(** What both checks share: the certificate is signed by the CA, for the name, at the time. *)
Definition verifyPEM `{Crypto} (cert caCert dnsName : string) (time : Z) : bool :=
  match CertPoolFromPEM caCert, pem_Decode cert with
  | Some pool, Some block =>
      match ParseCertificate block with
      | Some c => Verify c dnsName pool time
      | None => false
      end
  | _, _ => false
  end.

Definition ValidCACert `{Crypto} (key cert caCert : option string) (dnsName : string) (time : Z) : bool :=
  let key := default ""%string key in
  let cert := default ""%string cert in
  let caCert := default ""%string caCert in
  nonempty key && nonempty cert && nonempty caCert && X509KeyPair cert key && verifyPEM cert caCert dnsName time.

Section generator.
Context {W : Type} `{Clock W} `{RandomInt W} `{CryptoOperations W}.

Definition wrapError {A} (what : string) (m : M W A) : M W A :=
  r <- catch m ;;
  match r with
  | inl a => ret a
  | inr _ => fail (ErrOther ("failed to create the " +:+ what))
  end.

Definition NewPrivateKey : M W PrivateKey := rsa_GenerateKey rsaKeySize.

Definition NewSignedCert (cfg : CertConfig) (key : PrivateKey) (caCert : Certificate) (caKey : PrivateKey)
    : M W Certificate :=
  serial <- rand_Int (2 ^ 63 - 1) ;;
  if String.eqb (CommonName cfg) "" then fail (ErrOther "must specify a CommonName") else
  if negb (ServerAuth cfg) then fail (ErrOther "must specify at least one ExtKeyUsage") else
  now <- time_Now ;;
  CreateCertificate
    (mkCertTemplate (CommonName cfg) (DNSNames cfg) (AltIPs cfg) serial (NotBefore caCert)
       (now + 3600 * 24 * 365 * 10 * Second) (ServerAuth cfg))
    caCert key caKey.

(** The CA, when it is valid for another year. *)
Definition validCACert (cp : SelfSignedCertGenerator) (now : Z) : option (PrivateKey * Certificate) :=
  if ValidCACert (gen_caKey cp) (gen_caCert cp) (gen_caCert cp) "" (AddDate now 1 0) then
    match ParseRSAKeyPEM (default ""%string (gen_caKey cp)), ParseCertsPEM (default ""%string (gen_caCert cp)) with
    | Some key, Some [cert] => Some (key, cert)
    | _, _ => None
    end
  else None.

Definition signingPair (cp : SelfSignedCertGenerator) : M W (PrivateKey * Certificate) :=
  now <- time_Now ;;
  match validCACert cp now with
  | Some signing => ret signing
  | None =>
      signingKey <- wrapError "CA private key" NewPrivateKey ;;
      signingCert <- wrapError "CA cert" (NewSelfSignedCACert "webhook-cert-ca" signingKey) ;;
      ret (signingKey, signingCert)
  end.

Definition Generate (cp : SelfSignedCertGenerator) (commonName : string) : M W Artifacts :=
  signing <- signingPair cp ;;
  let '(signingKey, signingCert) := signing in
  let '(altIPs, names) := match ParseIPv4 commonName with
                          | Some ip => ([ip], ["localhost"%string])
                          | None => ([], ["localhost"%string; commonName])
                          end in
  key <- wrapError "private key" NewPrivateKey ;;
  signedCert <- wrapError "cert"
    (NewSignedCert (mkCertConfig commonName true altIPs names) key signingCert signingKey) ;;
  ret (mkArtifacts (Some (EncodePrivateKeyPEM key)) (Some (EncodeCertPEM signedCert))
         (Some (EncodePrivateKeyPEM signingKey)) (Some (EncodeCertPEM signingCert)) "").
End generator.

(** ** Ensuring a certificate (certwriter.go, error.go) *)

Definition CAKeyName : string := "ca-key.pem".
Definition CACertName : string := "ca-cert.pem".
Definition ServerKeyName : string := "key.pem".
Definition ServerKeyName2 : string := "tls.key".
Definition ServerCertName : string := "cert.pem".
Definition ServerCertName2 : string := "tls.crt".

Definition notFoundError (err : string) : goerror := ErrMarked "not found" err.
Definition alreadyExistError (err : string) : goerror := ErrMarked "already exists" err.
Definition isNotFound (e : goerror) : bool :=
  match e with ErrMarked mark _ => String.eqb mark "not found" | _ => false end.
Definition isAlreadyExists (e : goerror) : bool :=
  match e with ErrMarked mark _ => String.eqb mark "already exists" | _ => false end.

(** The operations run with the generator of the writer, which they may give a CA. *)
Record certReadWriter (W : Type) := mkReadWriter {
  ch_read : M (SelfSignedCertGenerator * W) Artifacts;
  ch_write : M (SelfSignedCertGenerator * W) Artifacts;
  ch_overwrite : string -> M (SelfSignedCertGenerator * W) Artifacts
}.
Arguments ch_read {W}.
Arguments ch_write {W}.
Arguments ch_overwrite {W}.

Definition validCert `{Crypto} (certs : Artifacts) (dnsName : string) (now : Z) : bool :=
  match art_Cert certs, art_Key certs, art_CACert certs with
  | Some cert, Some key, Some caCert =>
      X509KeyPair cert key && verifyPEM cert caCert dnsName (AddDate now 0 6)
  | _, _, _ => false
  end.

Section writers.
Context {W : Type} `{Clock W} `{Crypto}.

Abbreviation MG := (M (SelfSignedCertGenerator * W)).

(** Another one may have made it meanwhile. *)
Definition createIfNotExists (ch : certReadWriter W) : MG (Artifacts * bool) :=
  r <- catch (ch_read ch) ;;
  match r with
  | inl certs => ret (certs, false)
  | inr err =>
      if isNotFound err then
        w <- catch (ch_write ch) ;;
        match w with
        | inl certs => ret (certs, true)
        | inr err => if isAlreadyExists err then certs <- ch_read ch ;; ret (certs, true) else fail err
        end
      else fail err
  end.

(** The certificates, and whether they changed. *)
Definition handleCommon (dnsName : string) (ch : certReadWriter W) : MG (Artifacts * bool) :=
  if String.eqb dnsName "" then fail (ErrOther "dnsName should not be empty") else
  r <- createIfNotExists ch ;;
  let '(certs, changed) := r in
  now <- inWorld time_Now ;;
  if validCert certs dnsName now then ret (certs, changed) else
  certs <- ch_overwrite ch (art_ResourceVersion certs) ;;
  ret (certs, true).
End writers.

(** ** Certificates in a Secret (secret.go) *)

Record Secret := mkSecret {
  sec_Meta : ObjectMeta;
  sec_ResourceVersion : string;
  sec_Data : option (gmap string string)
}.
#[export] Instance eta_Secret : Eta Secret := fun x => mkSecret (sec_Meta x) (sec_ResourceVersion x) (sec_Data x).
#[export] Instance Secret_object : KubeObject Secret :=
  {| metaOf := sec_Meta; withMeta m r := r <| sec_Meta := m |> |}.

Definition secretToCerts (secret : Secret) : Artifacts :=
  match sec_Data secret with
  | None => mkArtifacts None None None None (sec_ResourceVersion secret)
  | Some data =>
      mkArtifacts (data !! ServerKeyName) (data !! ServerCertName) (data !! CAKeyName) (data !! CACertName)
        (sec_ResourceVersion secret)
  end.

(** A value that is nil reads like one that is not there. *)
Definition certsToSecret (certs : Artifacts) (sec : ObjectKey) : Secret :=
  let set name value (m : gmap string string) := partial_alter (fun _ => value) name m in
  mkSecret (emptyMeta <| Namespace := fst sec |> <| Name := snd sec |>) ""
    (Some (set CAKeyName (art_CAKey certs) (set CACertName (art_CACert certs)
      (set ServerKeyName (art_Key certs) (set ServerKeyName2 (art_Key certs)
      (set ServerCertName (art_Cert certs) (set ServerCertName2 (art_Cert certs) ∅))))))).

Section secret.
Context {W : Type} `{Clock W} `{RandomInt W} `{CryptoOperations W} `{Api W Secret}.
Variables (secretKey : ObjectKey) (dnsName : string).

Abbreviation MG := (M (SelfSignedCertGenerator * W)).

Definition buildSecret : MG (Secret * Artifacts) :=
  cp <- getC ;;
  certs <- inWorld (Generate cp dnsName) ;;
  ret (certsToSecret certs secretKey, certs).

Definition secret_write : MG Artifacts :=
  built <- buildSecret ;;
  r <- catch (inWorld (api_Create (fst built))) ;;
  match r with
  | inl _ => ret (snd built)
  | inr err => if IsAlreadyExists err then fail (alreadyExistError "secret") else fail err
  end.

Definition secret_overwrite (resourceVersion : string) : MG Artifacts :=
  built <- buildSecret ;;
  inWorld (api_Update ((fst built) <| sec_ResourceVersion := resourceVersion |>)) ;;
  ret (snd built).

(** A CA that is found is used for the next certificate. *)
Definition secret_read : MG Artifacts :=
  r <- catch (inWorld (api_Get (O := Secret) secretKey)) ;;
  match r with
  | inr err => if IsNotFound err then fail (notFoundError "secret") else fail err
  | inl secret =>
      let certs := secretToCerts secret in
      match art_CACert certs, art_CAKey certs with
      | Some caCert, Some caKey => modC (fun _ => mkGenerator (Some caKey) (Some caCert)) ;; ret certs
      | _, _ => ret certs
      end
  end.

Definition secretCertWriter : certReadWriter W := mkReadWriter W secret_read secret_write secret_overwrite.
Definition secret_EnsureCert : MG (Artifacts * bool) := handleCommon dnsName secretCertWriter.
End secret.

(** ** Certificates in a directory (fs.go) *)

Definition certFiles : list string :=
  [CAKeyName; CACertName; ServerCertName; ServerCertName2; ServerKeyName; ServerKeyName2].

(** Private keys are for the owner alone: 384 is 0600 and 420 is 0644. *)
Definition certToProjectionMap (cert : Artifacts) : gmap string FileProjection :=
  let file data mode := mkProjection (default ""%string data) mode in
  <[CAKeyName := file (art_CAKey cert) 384]> (<[CACertName := file (art_CACert cert) 420]>
  (<[ServerCertName := file (art_Cert cert) 420]> (<[ServerCertName2 := file (art_Cert cert) 420]>
  (<[ServerKeyName := file (art_Key cert) 384]> {[ServerKeyName2 := file (art_Key cert) 384]})))).

Section files.
Context {W : Type} `{FileSystem W} `{MapRange} `{Platform}.

(** Files that are no links are removed: the writer would leave them.  Other errors are
    logged. *)
Fixpoint removeRegular (dir : path) (names : list string) : M W unit :=
  match names with
  | [] => ret tt
  | f :: rest =>
      let abspath := (dir ++ [f])%list in
      r <- catch (os_Stat abspath) ;;
      match r with
      | inr ErrNotFound => ret tt
      | _ =>
          l <- catch (os_Readlink abspath) ;;
          match l with
          | inl _ => ret tt
          | inr _ => catch (os_Remove abspath) ;; ret tt
          end
      end ;;
      removeRegular dir rest
  end.

Definition prepareToWrite (dir : path) : M W unit :=
  r <- catch (os_Stat dir) ;;
  match r with
  | inl _ => ret tt
  | inr err =>
      if IsNotFound err then
        m <- catch (os_MkdirAll dir 448) ;;
        match m with inl _ => ret tt | inr _ => fail (ErrOther "can't create dir") end
      else fail err
  end ;;
  removeRegular dir certFiles.

Definition WriteCertsToDir (dir : path) (certs : Artifacts) : M W unit :=
  prepareToWrite dir ;;
  aw <- NewAtomicWriter dir ;;
  Write aw (certToProjectionMap certs).

Fixpoint ensureFiles (dir : path) (names : list string) : M W unit :=
  match names with
  | [] => ret tt
  | f :: rest =>
      r <- catch (os_Stat (dir ++ [f])%list) ;;
      match r with
      | inl _ => ensureFiles dir rest
      | inr err => if IsNotFound err then fail (notFoundError f) else fail err
      end
  end.
Definition ensureExist (dir : path) : M W unit := ensureFiles dir certFiles.

Context `{Clock W} `{RandomInt W} `{CryptoOperations W}.
Variables (certDir : path) (dnsName : string).

Abbreviation MG := (M (SelfSignedCertGenerator * W)).

(** The CA that is read is not given to the generator. *)
Definition fs_read : MG Artifacts := inWorld (
  ensureExist certDir ;;
  caKey <- os_ReadFile (certDir ++ [CAKeyName])%list ;;
  caCert <- os_ReadFile (certDir ++ [CACertName])%list ;;
  cert <- os_ReadFile (certDir ++ [ServerCertName])%list ;;
  key <- os_ReadFile (certDir ++ [ServerKeyName])%list ;;
  ret (mkArtifacts (Some key) (Some cert) (Some caKey) (Some caCert) "")).

Definition doWrite : MG Artifacts :=
  cp <- getC ;;
  certs <- inWorld (Generate cp dnsName) ;;
  inWorld (WriteCertsToDir certDir certs) ;;
  ret certs.

Definition fsCertWriter : certReadWriter W := mkReadWriter W fs_read doWrite (fun _ => doWrite).
Definition fs_EnsureCert : MG (Artifacts * bool) := handleCommon dnsName fsCertWriter.
End files.
