(* ===== verification/CertProofs.v ===== *)
(** * Certificates in a Secret (properties of CertWriter.v) *)

From S2P Require Export CertWriter.

Class SecretStore (W : Type) := secretOf : W -> ObjectKey -> option Secret.

Section keeps.
Context {W : Type} `{SecretStore W}.

(** A run that leaves the Secrets alone. *)
Definition keepsSecrets {A} (m : M W A) : Prop :=
  forall w r w', m w = (r, w') -> forall key, secretOf w' key = secretOf w key.

Lemma keepsSecrets_ret {A} (a : A) : keepsSecrets (ret a).
Proof. by intros w r w' [= _ <-]. Qed.
Lemma keepsSecrets_fail {A} e : keepsSecrets (A := A) (fail e).
Proof. by intros w r w' [= _ <-]. Qed.
Lemma keepsSecrets_bind {A B} (m : M W A) (k : A -> M W B) :
  keepsSecrets m -> (forall a, keepsSecrets (k a)) -> keepsSecrets (bind m k).
Proof.
  intros Hm Hk w r w'. unfold bind. destruct (m w) as [[a|e|] w1] eqn:E.
  - intros Hrun key. rewrite (Hk a _ _ _ Hrun). by apply (Hm _ _ _ E).
  - intros [= _ <-]. by apply (Hm _ _ _ E).
  - intros [= _ <-]. by apply (Hm _ _ _ E).
Qed.
Lemma keepsSecrets_catch {A} (m : M W A) : keepsSecrets m -> keepsSecrets (catch m).
Proof.
  intros Hm w r w'. unfold catch. destruct (m w) as [[a|e|] w1] eqn:E; intros [= _ <-]; by apply (Hm _ _ _ E).
Qed.
End keeps.

Create HintDb secrets.
#[export] Hint Resolve keepsSecrets_ret keepsSecrets_fail keepsSecrets_bind keepsSecrets_catch : secrets.

Class SecretLaws (W : Type) `{SecretStore W} `{Api W Secret} `{Clock W} `{RandomInt W} `{CryptoOperations W} := {
  secret_get key w r w' : api_Get (O := Secret) key w = (r, w') ->
    (forall other, secretOf w' other = secretOf w other)
    /\ (forall s, r = Ok s -> secretOf w key = Some s)
    /\ (forall e, r = Err e -> isNotFound e = false /\ (IsNotFound e = true -> secretOf w key = None));
  secret_create s w r w' : api_Create s w = (r, w') ->
    forall u, r = Ok u -> exists s', secretOf w' (keyOf (sec_Meta s)) = Some s' /\ sec_Data s' = sec_Data s;
  secret_update s w r w' : api_Update s w = (r, w') ->
    forall u, r = Ok u -> exists s', secretOf w' (keyOf (sec_Meta s)) = Some s' /\ sec_Data s' = sec_Data s;
  (** time, randomness and cryptography are elsewhere *)
  time_keeps : keepsSecrets time_Now;
  rand_keeps n : keepsSecrets (rand_Int n);
  rsa_keeps n : keepsSecrets (rsa_GenerateKey n);
  ca_keeps name key : keepsSecrets (NewSelfSignedCACert name key);
  certificate_keeps t parent key signing : keepsSecrets (CreateCertificate t parent key signing)
}.
#[export] Hint Resolve time_keeps rand_keeps rsa_keeps ca_keeps certificate_keeps : secrets.

Definition certData (certs : Artifacts) : option string * option string * option string * option string :=
  (art_Key certs, art_Cert certs, art_CAKey certs, art_CACert certs).

(** Reading back what was stored. *)
Lemma secret_roundtrip certs key s :
  sec_Data s = sec_Data (certsToSecret certs key) -> certData (secretToCerts s) = certData certs.
Proof.
  intros Hdata. unfold secretToCerts. rewrite Hdata. unfold certsToSecret, certData. cbn [sec_Data].
  repeat (rewrite lookup_partial_alter_eq || rewrite lookup_partial_alter_ne by done).
  destruct certs as [k c ck cc rv]; simpl. done.
Qed.

Section secret_properties.
Context {W : Type} `{SecretLaws W}.
Variables (secretKey : ObjectKey) (dnsName : string).

Lemma wrapError_keeps {A} what (m : M W A) : keepsSecrets m -> keepsSecrets (wrapError what m).
Proof. intros Hm. unfold wrapError. apply keepsSecrets_bind; [by apply keepsSecrets_catch|]. intros []; eauto with secrets. Qed.

Lemma signingPair_keeps cp : keepsSecrets (signingPair cp).
Proof.
  unfold signingPair. apply keepsSecrets_bind; [apply time_keeps|]. intros now. destruct (validCACert cp now); [eauto with secrets|].
  apply keepsSecrets_bind; [apply wrapError_keeps, rsa_keeps|]. intros key.
  apply keepsSecrets_bind; [apply wrapError_keeps, ca_keeps|]. eauto with secrets.
Qed.

Lemma Generate_keeps cp : keepsSecrets (Generate cp dnsName).
Proof.
  unfold Generate. apply keepsSecrets_bind; [apply signingPair_keeps|]. intros [signingKey signingCert].
  destruct (match ParseIPv4 dnsName with Some _ => _ | None => _ end) as [altIPs names].
  apply keepsSecrets_bind; [apply wrapError_keeps, rsa_keeps|]. intros key.
  apply keepsSecrets_bind; [|eauto with secrets]. apply wrapError_keeps. unfold NewSignedCert.
  apply keepsSecrets_bind; [apply rand_keeps|]. intros serial. case_match; [eauto with secrets|].
  case_match; [eauto with secrets|]. apply keepsSecrets_bind; [apply time_keeps|]. intros now. apply certificate_keeps.
Qed.

(** A CA that is valid whenever the clock is read signs again. *)
Definition validMeanwhile (cp : SelfSignedCertGenerator) (signingKey : PrivateKey) (signingCert : Certificate) : Prop :=
  forall (w w' : W) now, time_Now w = (Ok now, w') -> validCACert cp now = Some (signingKey, signingCert).

Lemma Generate_keeps_CA cp signingKey signingCert certs w w' :
  validMeanwhile cp signingKey signingCert ->
  Generate cp dnsName w = (Ok certs, w') -> art_CACert certs = Some (EncodeCertPEM signingCert).
Proof.
  intros Hvalid Hrun. unfold Generate in Hrun. apply bind_Ok_inv in Hrun as ([k c] & w1 & Hsigning & Hrun).
  assert (c = signingCert) as ->.
  { unfold signingPair in Hsigning. apply bind_Ok_inv in Hsigning as (now & w2 & Htime & Hsigning).
    rewrite (Hvalid _ _ _ Htime) in Hsigning. by apply ret_Ok_inv in Hsigning as [[= -> ->] _]. }
  destruct (match ParseIPv4 dnsName with Some _ => _ | None => _ end) as [altIPs names].
  apply bind_Ok_inv in Hrun as (key & w2 & _ & Hrun). apply bind_Ok_inv in Hrun as (cert & w3 & _ & Hrun).
  by apply ret_Ok_inv in Hrun as [-> _].
Qed.

Abbreviation stored := (fun w => secretOf w secretKey).

Lemma secret_read_run cp w r cp' w' :
  secret_read secretKey (cp, w) = (r, (cp', w')) ->
  stored w' = stored w
  /\ (forall certs, r = Ok certs -> exists s, stored w = Some s /\ certs = secretToCerts s
       /\ forall ca k, art_CACert certs = Some ca -> art_CAKey certs = Some k -> cp' = mkGenerator (Some k) (Some ca))
  /\ (forall e, r = Err e -> isNotFound e = true -> stored w = None).
Proof.
  unfold secret_read, bind, catch, inWorld. simpl. destruct (api_Get secretKey w) as [r1 w1] eqn:E.
  apply secret_get in E as (Hsame & Hok & Herr). destruct r1 as [s|e|].
  - specialize (Hok s eq_refl). destruct (art_CACert (secretToCerts s)) as [ca|] eqn:Eca;
      destruct (art_CAKey (secretToCerts s)) as [k|] eqn:Ek; simpl; intros [= <- <- <-];
      (split; [apply Hsame|]; split; [|done]; intros certs [= <-]; exists s; split; [done|]; split; [done|];
       rewrite Eca, Ek; by intros ca' k' [= <-] [= <-]).
  - destruct (Herr e eq_refl) as [Hmark Hnone]. destruct (IsNotFound e) eqn:En; simpl; intros [= <- <- <-];
      (split; [apply Hsame|]; split; [done|]); intros e' [= <-] Hm; [by apply Hnone|congruence].
  - simpl. intros [= <- <- <-]. split; [apply Hsame|done].
Qed.

Lemma buildSecret_run cp w r cp' w' :
  buildSecret secretKey dnsName (cp, w) = (r, (cp', w')) ->
  cp' = cp /\ forall secret certs, r = Ok (secret, certs) ->
    secret = certsToSecret certs secretKey /\ Generate cp dnsName w = (Ok certs, w').
Proof.
  unfold buildSecret, bind, inWorld, getC. simpl. destruct (Generate cp dnsName w) as [r1 w1] eqn:E.
  destruct r1 as [certs|e|]; intros [= <- <- <-]; (split; [done|]); intros secret certs' Hr; [|done..].
  by injection Hr as <- <-.
Qed.

(** What was generated, and is stored now. *)
Definition madeAnew (cp : SelfSignedCertGenerator) (certs : Artifacts) (w' : W) : Prop :=
  (exists w1 w2, Generate cp dnsName w1 = (Ok certs, w2))
  /\ exists s, stored w' = Some s /\ certData (secretToCerts s) = certData certs.

Lemma secret_write_run cp w certs cp' w' :
  secret_write secretKey dnsName (cp, w) = (Ok certs, (cp', w')) -> madeAnew cp certs w'.
Proof.
  unfold secret_write. intros Hrun. apply bind_Ok_inv in Hrun as ([secret certs1] & [cp1 w1] & Hbuild & Hrun).
  apply buildSecret_run in Hbuild as [-> Hbuild]. destruct (Hbuild secret certs1 eq_refl) as [-> Hgen].
  inv_run. split; [by eexists _, _|].
  match goal with Hc : api_Create _ _ = _ |- _ => destruct (secret_create _ _ _ _ Hc _ eq_refl) as (s & Hs & Hdata) end.
  exists s. split; [by destruct secretKey|by apply (secret_roundtrip _ secretKey)].
Qed.

Lemma secret_overwrite_run rv cp w certs cp' w' :
  secret_overwrite secretKey dnsName rv (cp, w) = (Ok certs, (cp', w')) -> madeAnew cp certs w'.
Proof.
  unfold secret_overwrite. intros Hrun. apply bind_Ok_inv in Hrun as ([secret certs1] & [cp1 w1] & Hbuild & Hrun).
  apply buildSecret_run in Hbuild as [-> Hbuild]. destruct (Hbuild secret certs1 eq_refl) as [-> Hgen].
  inv_run. split; [by eexists _, _|].
  match goal with Hc : api_Update _ _ = _ |- _ => destruct (secret_update _ _ _ _ Hc _ eq_refl) as (s & Hs & Hdata) end.
  exists s. split; [by destruct secretKey|by apply (secret_roundtrip _ secretKey)].
Qed.

(** C14. The certificates in use are those that are stored.  When ensuring the certificates
    of the Secret succeeds, the Secret has exactly the certificates that are returned; if
    they are reported as unchanged it is the Secret from before, and they are valid for
    the name, for half a year to come; and otherwise too a CA that is stored and valid
    remains the CA, so that whoever trusts it goes on to. *)
Theorem secret_agrees (cp cp' : SelfSignedCertGenerator) (w w' : W) (certs : Artifacts) (changed : bool) :
  secret_EnsureCert secretKey dnsName (cp, w) = (Ok (certs, changed), (cp', w')) ->
  (exists s, secretOf w' secretKey = Some s /\ certData (secretToCerts s) = certData certs)
  /\ (changed = false -> secretOf w' secretKey = secretOf w secretKey /\ exists now, validCert certs dnsName now = true)
  /\ (forall s ca caKey signingKey signingCert,
        secretOf w secretKey = Some s ->
        art_CACert (secretToCerts s) = Some ca -> art_CAKey (secretToCerts s) = Some caKey ->
        validMeanwhile (mkGenerator (Some caKey) (Some ca)) signingKey signingCert ->
        EncodeCertPEM signingCert = ca ->
        art_CACert certs = Some ca).
Proof.
  unfold secret_EnsureCert, handleCommon. case_match; [done|]. intros Hrun.
  apply bind_Ok_inv in Hrun as ([certs1 changed1] & [cp1 w1] & Hcreate & Hrun).
  apply bind_Ok_inv in Hrun as (now & [cp2 w2] & Htime & Hrun). apply inWorld_inv in Htime as [Htime ->].
  pose proof (fun key => time_keeps _ _ _ Htime key) as Hkeep.
  assert (Hfirst : (exists s, stored w1 = Some s /\ certData (secretToCerts s) = certData certs1)
    /\ (changed1 = false -> stored w1 = stored w)
    /\ (forall s, stored w = Some s -> stored w1 = Some s /\ certs1 = secretToCerts s /\
          forall ca k, art_CACert certs1 = Some ca -> art_CAKey certs1 = Some k -> cp1 = mkGenerator (Some k) (Some ca))).
  { unfold createIfNotExists in Hcreate. simpl in Hcreate.
    apply bind_Ok_inv in Hcreate as (x & [cp3 w3] & Hread & Hcreate). apply catch_Ok_inv in Hread.
    destruct x as [c|err].
    - apply ret_Ok_inv in Hcreate as [[= -> ->] [= -> ->]].
      destruct (secret_read_run _ _ _ _ _ Hread) as (Hsame & Hok & _).
      destruct (Hok c eq_refl) as (s & Hs & -> & Hcp). split; [exists s; by rewrite Hsame|]. split; [done|].
      intros s' Hs'. rewrite Hs in Hs'. injection Hs' as <-. by rewrite Hsame.
    - destruct (secret_read_run _ _ _ _ _ Hread) as (Hsame & _ & Hnone). destruct (isNotFound err) eqn:Enf; [|done].
      specialize (Hnone err eq_refl Enf).
      apply bind_Ok_inv in Hcreate as (y & [cp4 w4] & Hwrite & Hcreate). apply catch_Ok_inv in Hwrite.
      assert (Hno : forall s, stored w <> Some s) by (intros s; by rewrite Hnone).
      destruct y as [c|err'].
      + apply ret_Ok_inv in Hcreate as [[= -> ->] [= -> ->]]. apply secret_write_run in Hwrite as [_ Hs].
        split; [done|]. split; [done|]. intros s Hs'. by destruct (Hno s).
      + destruct (isAlreadyExists err'); [|done].
        apply bind_Ok_inv in Hcreate as (c & [cp5 w5] & Hread' & Hcreate).
        apply ret_Ok_inv in Hcreate as [[= -> ->] [= -> ->]].
        destruct (secret_read_run _ _ _ _ _ Hread') as (Hsame' & Hok & _).
        destruct (Hok c eq_refl) as (s & Hs & -> & Hcp). split; [exists s; by rewrite Hsame'|]. split; [done|].
        intros s' Hs'. by destruct (Hno s'). }
  destruct Hfirst as (Hsame & Hunchanged & Hstart). destruct (validCert certs1 dnsName now) eqn:Evalid.
  - apply ret_Ok_inv in Hrun as [[= -> ->] [= -> ->]]. split; [by rewrite Hkeep|]. split.
    + intros Hch. rewrite Hkeep. split; [by apply Hunchanged|by exists now].
    + intros s ca k sk sc Hs Hca _ _ _. by destruct (Hstart s Hs) as (_ & -> & _).
  - apply bind_Ok_inv in Hrun as (c & [cp3 w3] & Hover & Hrun). apply ret_Ok_inv in Hrun as [[= -> ->] [= -> ->]].
    apply secret_overwrite_run in Hover as [(w4 & w5 & Hgen) Hs]. split; [done|]. split; [done|].
    intros s ca k sk sc Hstored Hca Hk Hvalid <-. destruct (Hstart s Hstored) as (_ & -> & Hcp).
    rewrite (Hcp _ _ Hca Hk) in Hgen. eapply Generate_keeps_CA; [|exact Hgen]. exact Hvalid.
Qed.
End secret_properties.
