(* ===== verification/WebhookController.v ===== *)
(** * The webhook controller (pkg/webhook/util: controller, configuration, crd)

    Keeps the certificates of the webhooks, and tells the API server of their CA: in the
    webhook configurations and in the conversion webhooks of the CRDs. *)

From S2P Require Export EventHandlers CertWriter.

(** ** The environment (util.go) *)

Class Environment := {
  Getenv : string -> string;
  (** [strconv.ParseInt] in base 10 with 32 bits *)
  ParseInt32 : string -> option Z
}.

Section environment.
Context `{Environment}.

Definition envOr (name fallback : string) : string :=
  if nonempty (Getenv name) then Getenv name else fallback.
Definition GetHost : string := Getenv "WEBHOOK_HOST".
Definition GetNamespace : string := envOr "POD_NAMESPACE" "kruise-rollout".
Definition GetSecretName : string := envOr "SECRET_NAME" "kruise-rollout-webhook-certs".
Definition GetServiceName : string := envOr "SERVICE_NAME" "kruise-rollout-webhook-service".
Definition GetCertDir : string := envOr "WEBHOOK_CERT_DIR" "/tmp/kruise-rollout-webhook-certs".
Definition GetCertWriter : string := Getenv "WEBHOOK_CERT_WRITER".

(** A port that is no number ends the process. *)
Definition GetPort : res Z :=
  let p := Getenv "WEBHOOK_PORT" in
  if nonempty p then match ParseInt32 p with Some port => Ok port | None => Panic end else Ok 9876.
End environment.

(** ** Webhook configurations (configuration.go) *)

Record ServiceReference := mkServiceRef {
  svr_Namespace : string;
  svr_Name : string;
  svr_Path : option string;
  svr_Port : option Z
}.
#[export] Instance ServiceReference_eq_dec : EqDecision ServiceReference.
Proof. solve_decision. Defined.

Record WebhookClientConfig := mkClientConfig {
  wcc_URL : option string;
  wcc_Service : option ServiceReference;
  wcc_CABundle : option string
}.
#[export] Instance eta_ClientConfig : Eta WebhookClientConfig := fun x =>
  mkClientConfig (wcc_URL x) (wcc_Service x) (wcc_CABundle x).
#[export] Instance ClientConfig_eq_dec : EqDecision WebhookClientConfig.
Proof. solve_decision. Defined.

(** A webhook of either kind; all but its client config in serialised form. *)
Record Webhook := mkWebhook { wh_Rest : string; wh_ClientConfig : WebhookClientConfig }.
#[export] Instance eta_Webhook : Eta Webhook := fun x => mkWebhook (wh_Rest x) (wh_ClientConfig x).
#[export] Instance Webhook_eq_dec : EqDecision Webhook.
Proof. solve_decision. Defined.

Inductive HookKind := Mutating | Validating.
(** [MutatingWebhookConfiguration] and [ValidatingWebhookConfiguration]; the API leaves an
    empty list of webhooks out. *)
Record HookConfiguration (kind : HookKind) := mkHookConfiguration {
  hc_Meta : ObjectMeta;
  hc_Webhooks : list Webhook
}.
Arguments mkHookConfiguration {kind}.
Arguments hc_Meta {kind}.
Arguments hc_Webhooks {kind}.
#[export] Instance eta_HookConfiguration kind : Eta (HookConfiguration kind) := fun x =>
  mkHookConfiguration (hc_Meta x) (hc_Webhooks x).

Definition ValidatingWebhookConfigurationName : string := "kruise-rollout-validating-webhook-configuration".
Definition templateAnnotation : string := "template".

(** [url.Parse], the path of the URL. *)
Class UrlParser := url_Path : string -> option string.

Section configuration.
Context `{Environment} `{UrlParser} `{Json (list Webhook)}.

Definition getPath (clientConfig : WebhookClientConfig) : res string :=
  match wcc_Service clientConfig, wcc_URL clientConfig with
  | Some service, _ => deref (svr_Path service)
  | None, Some url =>
      match url_Path url with Some p => Ok p | None => Err (ErrOther "url.Parse") end
  | None, None => Err (ErrOther "invalid clientConfig")
  end.

Definition webhookURL (host path : string) : res string :=
  res_map (fun port => ("https://" +:+ host +:+ ":" +:+ itoa port +:+ path)%string) GetPort.

Definition convertClientConfig (clientConfig : WebhookClientConfig) (service : ServiceReference) (host : string)
    : res WebhookClientConfig :=
  res_bind (deref (svr_Path service)) (fun path =>
  res_map (fun url => clientConfig <| wcc_URL := Some url |> <| wcc_Service := None |>) (webhookURL host path)).

(** The client config of a webhook that is kept. *)
Definition directed (clientConfig : WebhookClientConfig) : res WebhookClientConfig :=
  match wcc_Service clientConfig with
  | None => Ok clientConfig
  | Some service =>
      let service := mkServiceRef GetNamespace GetServiceName (svr_Path service) (svr_Port service) in
      let clientConfig := clientConfig <| wcc_Service := Some service |> in
      if nonempty GetHost then convertClientConfig clientConfig service GetHost else Ok clientConfig
  end.

(** Webhooks without a handler are left out. *)
Fixpoint buildWebhooks (handlers : gset string) (caBundle : option string) (template : list Webhook)
    : res (list Webhook) :=
  match template with
  | [] => Ok []
  | wh :: rest =>
      let cc := (wh_ClientConfig wh) <| wcc_CABundle := caBundle |> in
      res_bind (getPath cc) (fun path =>
      if bool_decide (path ∈ handlers) then
        res_bind (directed cc) (fun cc =>
        res_map (cons (wh <| wh_ClientConfig := cc |>)) (buildWebhooks handlers caBundle rest))
      else buildWebhooks handlers caBundle rest)
  end.

(** The webhooks as they were first are kept in an annotation. *)
Definition parseTemplate {kind} (config : HookConfiguration kind) : res (HookConfiguration kind * list Webhook) :=
  let templateStr := annotation (hc_Meta config) templateAnnotation in
  if nonempty templateStr then
    match Unmarshal templateStr with
    | Some webhooks => Ok (config, webhooks)
    | None => Err (ErrOther "json")
    end
  else
    let annotations := <[templateAnnotation := Marshal (hc_Webhooks config)]>
                         (default ∅ (Annotations (hc_Meta config))) in
    Ok (config <| hc_Meta := (hc_Meta config) <| Annotations := Some annotations |> |>, hc_Webhooks config).

(** What [Ensure] makes of a configuration whose template is parsed. *)
Definition withWebhooks {kind} (handlers : gset string) (caBundle : option string)
    (parsed : HookConfiguration kind * list Webhook) : res (HookConfiguration kind) :=
  res_map (fun webhooks => (fst parsed) <| hc_Webhooks := webhooks |>)
    (buildWebhooks handlers caBundle (snd parsed)).

(** Only annotations and webhooks can differ. *)
Definition changed {kind} (old new : HookConfiguration kind) : bool :=
  bool_decide (Annotations (hc_Meta old) <> Annotations (hc_Meta new) \/ hc_Webhooks old <> hc_Webhooks new).

Context {W : Type} `{Api W (HookConfiguration Mutating)} `{Api W (HookConfiguration Validating)}.

Definition readConfiguration {kind} `{Api W (HookConfiguration kind)} (name : string) : M W (HookConfiguration kind) :=
  r <- catch (api_Get (O := HookConfiguration kind) (""%string, name)) ;;
  match r with inl config => ret config | inr _ => fail (ErrOther ("not found " +:+ name)) end.

Definition writeConfiguration {kind} `{Api W (HookConfiguration kind)} (old new : HookConfiguration kind) : M W unit :=
  if changed old new then
    r <- catch (api_Update new) ;;
    match r with inl _ => ret tt | inr _ => fail (ErrOther ("failed to update " +:+ Name (hc_Meta new))) end
  else ret tt.

Definition configuration_Ensure (handlers : gset string) (caBundle : option string) : M W unit :=
  mutatingConfig <- readConfiguration (kind := Mutating) MutatingWebhookConfigurationName ;;
  validatingConfig <- readConfiguration (kind := Validating) ValidatingWebhookConfigurationName ;;
  mutatingTemplate <- lift (parseTemplate mutatingConfig) ;;
  validatingTemplate <- lift (parseTemplate validatingConfig) ;;
  newMutating <- lift (withWebhooks handlers caBundle mutatingTemplate) ;;
  newValidating <- lift (withWebhooks handlers caBundle validatingTemplate) ;;
  writeConfiguration mutatingConfig newMutating ;;
  writeConfiguration validatingConfig newValidating.
End configuration.

(** ** Conversion webhooks (crd.go) *)

Record WebhookConversion := mkConversion {
  cv_ClientConfig : option WebhookClientConfig;
  cv_ConversionReviewVersions : list string
}.
Record CustomResourceDefinition := mkCRD {
  crd_Meta : ObjectMeta;
  crd_Group : string;
  crd_Kind : string;
  crd_Versions : list string;
  (** the strategy of the conversion, and its webhook *)
  crd_Conversion : option (string * option WebhookConversion)
}.
#[export] Instance eta_CRD : Eta CustomResourceDefinition := fun x =>
  mkCRD (crd_Meta x) (crd_Group x) (crd_Kind x) (crd_Versions x) (crd_Conversion x).
#[export] Instance CRD_object : KubeObject CustomResourceDefinition :=
  {| metaOf := crd_Meta; withMeta m r := r <| crd_Meta := m |> |}.

(** [scheme.Recognizes] *)
Class KnownKinds := Recognizes : GroupVersionKind -> bool.

Section crd.
Context `{Environment} `{KnownKinds} {W : Type} `{ListApi W CustomResourceDefinition}
  `{Api W CustomResourceDefinition}.

Definition conversionConfig (caBundle : option string) : res WebhookClientConfig :=
  let path := "/convert"%string in
  if nonempty GetHost
  then res_map (fun url => mkClientConfig (Some url) None caBundle) (webhookURL GetHost path)
  else Ok (mkClientConfig None (Some (mkServiceRef GetNamespace GetServiceName (Some path) (Some 443))) caBundle).

(** Its conversion is by a webhook, and its kind is one of ours. *)
Definition convertible (crd : CustomResourceDefinition) : bool :=
  match crd_Versions crd, crd_Conversion crd with
  | version :: _, Some (strategy, _) =>
      String.eqb strategy "Webhook" && Recognizes (mkGVK (crd_Group crd) version (crd_Kind crd))
  | _, _ => false
  end.

(** The test that would leave a CRD alone compares a pointer with a struct, which are
    never equal. *)
Fixpoint updateCRDs (webhookConfig : WebhookClientConfig) (crds : list CustomResourceDefinition) : M W unit :=
  match crds with
  | [] => ret tt
  | crd :: rest =>
      if convertible crd then
        let conversion := mkConversion (Some webhookConfig) ["v1"; "v1beta1"]%string in
        let strategy := match crd_Conversion crd with Some (strategy, _) => strategy | None => ""%string end in
        r <- catch (api_Update (crd <| crd_Conversion := Some (strategy, Some conversion) |>)) ;;
        match r with
        | inl _ => updateCRDs webhookConfig rest
        | inr _ => fail (ErrOther ("failed to update CRD " +:+ Name (crd_Meta crd)))
        end
      else updateCRDs webhookConfig rest
  end.

Definition crd_Ensure (caBundle : option string) : M W unit :=
  r <- catch (api_List (O := CustomResourceDefinition) "" (fun _ => true)) ;;
  match r with
  | inr _ => fail (ErrOther "failed to list crds")
  | inl crdList =>
      webhookConfig <- lift (conversionConfig caBundle) ;;
      updateCRDs webhookConfig crdList
  end.
End crd.

(** ** The controller (webhook_controller.go) *)

(** Its queue, and the channel that is closed when all is set up for the first time. *)
Class WebhookQueue (W : Type) := {
  wq_Add : string -> M W unit;
  wq_Get : M W (string * bool);
  wq_AddAfter : string -> Z -> M W unit;
  wq_AddRateLimited : string -> M W unit;
  wq_Forget : string -> M W unit;
  wq_Done : string -> M W unit;
  closeInited : M W unit
}.

Section controller.
Context {W : Type} `{Environment} `{UrlParser} `{KnownKinds} `{Json (list Webhook)}
  `{Api W (HookConfiguration Mutating)} `{Api W (HookConfiguration Validating)}
  `{ListApi W CustomResourceDefinition} `{Api W CustomResourceDefinition} `{Api W Secret}
  `{FileSystem W} `{MapRange} `{Platform} `{Clock W} `{RandomInt W} `{CryptoOperations W} `{WebhookQueue W}.

Definition FsCertWriter : string := "fs".
Definition defaultResyncPeriod : Z := 60 * Second.

Definition wrapping {A} (msg : string) (m : M W A) : M W A :=
  r <- catch m ;;
  match r with inl a => ret a | inr _ => fail (ErrOther msg) end.

(** A writer with a new generator. *)
Definition withGenerator {A} (m : M (SelfSignedCertGenerator * W) A) : M W A :=
  fun w => let '(r, (_, w)) := m (newGenerator, w) in (r, w).

Definition certDirPath : path := joinPath [] GetCertDir.
Definition webhookDNSName : string :=
  if nonempty GetHost then GetHost else ServiceToCommonName GetNamespace GetServiceName.
Definition usesFiles : bool :=
  String.eqb GetCertWriter FsCertWriter || (negb (nonempty GetCertWriter) && nonempty GetHost).

Definition ensureCerts : M W (Artifacts * bool) :=
  wrapping "failed to ensure certs" (withGenerator
    (if usesFiles then fs_EnsureCert certDirPath webhookDNSName
     else secret_EnsureCert (GetNamespace, GetSecretName) webhookDNSName)).

Definition webhook_sync (handlers : gset string) : M W unit :=
  ensured <- ensureCerts ;;
  let certs := fst ensured in
  wrapping "failed to write certs to dir" (WriteCertsToDir certDirPath certs) ;;
  wrapping "failed to ensure configuration" (configuration_Ensure handlers (art_CACert certs)) ;;
  wrapping "failed to ensure crd" (crd_Ensure (art_CACert certs)) ;;
  closeInited.

(** Whether to go on. *)
Definition processNextWorkItem (handlers : gset string) : M W bool :=
  item <- wq_Get ;;
  let '(key, quit) := item in
  if quit : bool then ret false else
  r <- catch (webhook_sync handlers) ;;
  match r with
  | inl _ => wq_AddAfter key defaultResyncPeriod ;; wq_Forget key
  | inr _ => wq_AddRateLimited key
  end ;;
  wq_Done key ;;
  ret true.

(** Additions and updates of the objects the controller keeps. *)
Definition secretEvent (m : ObjectMeta) : M W unit :=
  if String.eqb (Name m) GetSecretName then wq_Add "" else ret tt.
Definition mutatingEvent (m : ObjectMeta) : M W unit :=
  if String.eqb (Name m) MutatingWebhookConfigurationName then wq_Add "" else ret tt.
Definition validatingEvent (m : ObjectMeta) : M W unit :=
  if String.eqb (Name m) ValidatingWebhookConfigurationName then wq_Add "" else ret tt.
Definition crdEvent (crd : CustomResourceDefinition) : M W unit :=
  if String.eqb (crd_Group crd) "rollouts.kruise.io" then wq_Add "" else ret tt.
End controller.

(** ** The handlers of the server (pkg/webhook/server.go) *)

Section server.
Context {Handler : Type}.

(** The handlers by path, and the gates of some. *)
Record HandlerTable := mkHandlers { HandlerMap : gmap string Handler; handlerGates : gmap string bool }.

Definition addHandler (gate : option bool) (table : HandlerTable) (entry : string * Handler) : HandlerTable :=
  let '(path, handler) := entry in
  if String.eqb path "" then table else
  let path := if String.prefix "/" path then path else ("/" +:+ path)%string in
  mkHandlers (<[path := handler]> (HandlerMap table))
    (match gate with Some enabled => <[path := enabled]> (handlerGates table) | None => handlerGates table end).

(** In the order in which the map is walked. *)
Definition addHandlersWithGate `{MapRange} (m : gmap string Handler) (gate : option bool) (table : HandlerTable)
    : HandlerTable := foldl (addHandler gate) table (rangeOrder (map_to_list m)).

Definition filterActiveHandlers (table : HandlerTable) : HandlerTable :=
  mkHandlers (filter (fun kv => handlerGates table !! kv.1 <> Some false) (HandlerMap table)) (handlerGates table).
End server.
