(* ===== verification/WebhookProofs.v ===== *)
(** * Certificates and configurations that agree (properties of WebhookController.v) *)

From Stdlib Require Import Ascii.
From S2P Require Export AtomicProofs WebhookController.

(** ** Webhook configurations *)

Section desired.
Context `{Environment} `{UrlParser} `{Json (list Webhook)}.

(** What [Ensure] writes for a configuration. *)
Definition desired {kind} (handlers : gset string) (caBundle : option string) (config : HookConfiguration kind)
    : res (HookConfiguration kind) := res_bind (parseTemplate config) (withWebhooks handlers caBundle).

(** The webhooks a configuration was first given. *)
Definition templateOf {kind} (config : HookConfiguration kind) : list Webhook :=
  match parseTemplate config with Ok (_, template) => template | _ => [] end.

(** A handler is registered for the webhook. *)
Definition handled (handlers : gset string) (wh : Webhook) : bool :=
  match getPath (wh_ClientConfig wh) with Ok p => bool_decide (p ∈ handlers) | _ => false end.

Lemma directed_bundle cc cc' : directed cc = Ok cc' -> wcc_CABundle cc' = wcc_CABundle cc.
Proof.
  unfold directed, convertClientConfig. destruct (wcc_Service cc) as [service|]; [|by intros [= <-]].
  case_match; [|by intros [= <-]]. intros Hok. apply res_bind_Ok in Hok as (p & _ & Hok).
  unfold res_map in Hok. apply res_bind_Ok in Hok as (url & _ & Hok). by injection Hok as <-.
Qed.

Lemma buildWebhooks_spec handlers caBundle template webhooks :
  buildWebhooks handlers caBundle template = Ok webhooks ->
  Forall (fun wh => wcc_CABundle (wh_ClientConfig wh) = caBundle) webhooks
  /\ wh_Rest <$> webhooks = wh_Rest <$> filter (fun wh => handled handlers wh = true) template.
Proof.
  revert webhooks. induction template as [|wh template IH]; intros webhooks; simpl; [by intros [= <-]|].
  intros Hok. apply res_bind_Ok in Hok as (p & Hpath & Hok).
  assert (Hhandled : handled handlers wh = bool_decide (p ∈ handlers)).
  { unfold handled. unfold getPath in *. simpl in Hpath. by rewrite Hpath. }
  rewrite filter_cons. destruct (bool_decide (p ∈ handlers)) eqn:E.
  - rewrite decide_True by (by rewrite Hhandled).
    apply res_bind_Ok in Hok as (cc & Hcc & Hok). unfold res_map in Hok.
    apply res_bind_Ok in Hok as (rest & Hrest & [= <-]). destruct (IH rest Hrest) as [Hca Heq]. split.
    + constructor; [simpl; by rewrite (directed_bundle _ _ Hcc)|done].
    + by rewrite !fmap_cons, Heq.
  - rewrite decide_False by (by rewrite Hhandled). by apply IH.
Qed.

Lemma parseTemplate_again {kind} (config config' : HookConfiguration kind) template webhooks :
  nonempty (Marshal (hc_Webhooks config)) = true ->
  Unmarshal (Marshal (hc_Webhooks config)) = Some (hc_Webhooks config) ->
  parseTemplate config = Ok (config', template) ->
  parseTemplate (config' <| hc_Webhooks := webhooks |>) = Ok (config' <| hc_Webhooks := webhooks |>, template).
Proof.
  intros Hjson Hround. unfold parseTemplate. destruct (nonempty (annotation (hc_Meta config) templateAnnotation)) eqn:E.
  - destruct (Unmarshal (annotation _ _)) as [l|] eqn:El; [|done]. intros [= <- <-]. simpl. by rewrite E, El.
  - intros [= <- <-]. simpl. unfold annotation. simpl. unfold mapget. rewrite lookup_insert_eq. simpl.
    by rewrite Hjson, Hround.
Qed.

(** C17. The configurations do not depend on what was written before.  The JSON of the
    webhooks being read back as it was written, what is written for
    a configuration has, in order, the webhooks of its template that have a handler, all
    with the CA bundle; and with other handlers or another bundle the same is written
    over it as over the configuration it was made from, so that writing it twice changes
    nothing the second time. *)
Theorem configuration_stable {kind} (config config1 : HookConfiguration kind)
    (handlers handlers' : gset string) (caBundle caBundle' : option string) :
  nonempty (Marshal (hc_Webhooks config)) = true ->
  Unmarshal (Marshal (hc_Webhooks config)) = Some (hc_Webhooks config) ->
  desired handlers caBundle config = Ok config1 ->
  Forall (fun wh => wcc_CABundle (wh_ClientConfig wh) = caBundle) (hc_Webhooks config1)
  /\ wh_Rest <$> hc_Webhooks config1 = wh_Rest <$> filter (fun wh => handled handlers wh = true) (templateOf config)
  /\ desired handlers' caBundle' config1 = desired handlers' caBundle' config
  /\ desired handlers caBundle config1 = Ok config1 /\ changed config1 config1 = false.
Proof.
  intros Hjson Hround Hok. unfold desired in Hok. apply res_bind_Ok in Hok as ([config0 template] & Hparse & Hok).
  unfold withWebhooks, res_map in Hok. apply res_bind_Ok in Hok as (webhooks & Hbuild & [= <-]).
  destruct (buildWebhooks_spec _ _ _ _ Hbuild) as [Hca Hrest].
  assert (Hsame : forall h ca, desired h ca (config0 <| hc_Webhooks := webhooks |>) = desired h ca config).
  { intros h ca. unfold desired. rewrite (parseTemplate_again config config0 template webhooks Hjson Hround Hparse), Hparse.
    reflexivity. }
  split; [done|]. split; [unfold templateOf; by rewrite Hparse|]. split; [apply Hsame|]. split.
  - rewrite Hsame. unfold desired. rewrite Hparse. cbn [res_bind]. unfold withWebhooks, res_map. by rewrite Hbuild.
  - unfold changed. apply bool_decide_eq_false. by intros [[]|[]].
Qed.
End desired.

(** ** The directory of the certificates *)

Lemma validateFiles_plain (l : list (string * FileProjection)) (acc : Payload) :
  NoDup l.*1 -> (forall k, k ∈ l.*1 -> validatePath k = Ok tt /\ cleanPath k = [k]) ->
  exists clean, validateFiles l acc = Ok clean
  /\ forall p, clean !! p = match p with
                            | [k] => match (list_to_map l : gmap string FileProjection) !! k with
                                     | Some v => Some v | None => acc !! p end
                            | _ => acc !! p
                            end.
Proof.
  revert acc. induction l as [|[k v] l IH]; intros acc Hdup Hplain; simpl.
  { exists acc. split; [done|]. by intros [|k [|]]. }
  apply NoDup_cons in Hdup as [Hk Hdup]. destruct (Hplain k) as [Hv Hc]; [by left|].
  destruct (IH (<[[k] := v]> acc) Hdup) as (clean & Hok & Hclean); [intros; apply Hplain; by right|].
  exists clean. rewrite Hv, Hc. split; [done|]. intros p. rewrite Hclean.
  assert (Hno : (list_to_map l : gmap string FileProjection) !! k = None) by (by apply not_elem_of_list_to_map_1).
  destruct p as [|k' [|]].
  - by rewrite lookup_insert_ne.
  - destruct (decide (k' = k)) as [->|Hne].
    + rewrite Hno, !lookup_insert_eq. done.
    + rewrite (lookup_insert_ne _ k k') by done. destruct (list_to_map l !! k'); [done|].
      rewrite lookup_insert_ne; [done|]. by intros [= ->].
  - by rewrite lookup_insert_ne.
Qed.

Lemma validatePayload_plain `{MapRangeLaws} (payload : gmap string FileProjection) :
  (forall k, is_Some (payload !! k) -> validatePath k = Ok tt /\ cleanPath k = [k]) ->
  exists clean, validatePayload payload = Ok clean
  /\ forall p, clean !! p = match p with [k] => payload !! k | _ => None end.
Proof.
  intros Hplain. unfold validatePayload.
  destruct (validateFiles_plain (rangeOrder (map_to_list payload)) ∅) as (clean & Hok & Hclean).
  - rewrite rangeOrder_perm. apply NoDup_fst_map_to_list.
  - intros k (kv & -> & Hin)%list_elem_of_fmap. apply Hplain. rewrite rangeOrder_perm in Hin. destruct kv as [k v].
    apply elem_of_map_to_list in Hin. by exists v.
  - exists clean. split; [done|]. intros p. rewrite Hclean.
    assert (Hmap : (list_to_map (rangeOrder (map_to_list payload)) : gmap string FileProjection) = payload).
    { rewrite <- (list_to_map_to_list payload) at 2. apply list_to_map_proper; [|apply rangeOrder_perm].
      rewrite rangeOrder_perm. apply NoDup_fst_map_to_list. }
    rewrite Hmap. destruct p as [|k [|]]; [by rewrite lookup_empty| |by rewrite lookup_empty].
    by destruct (payload !! k); [|rewrite lookup_empty].
Qed.

Lemma certFiles_plain k : k ∈ certFiles ->
  validatePath k = Ok tt /\ cleanPath k = [k] /\ String.prefix ".." k = false.
Proof.
  intros Hk. repeat (apply elem_of_cons in Hk as [->|Hk]; [by vm_compute|]). by apply not_elem_of_nil in Hk.
Qed.

Lemma certToProjectionMap_keys certs k : is_Some (certToProjectionMap certs !! k) -> k ∈ certFiles.
Proof.
  unfold certToProjectionMap, certFiles. intros [v Hv]. repeat (apply lookup_insert_Some in Hv as [[<- _]|[_ Hv]]; [set_solver|]).
  apply lookup_singleton_Some in Hv as [<- _]. set_solver.
Qed.

Section directory.
Context {W : Type} `{FileSystem W} `{FileHistory W} `{!FileLaws W} `{!Listable W} `{MapRangeLaws} `{Platform}.
Variable dir : path.

Lemma intact_touches name fs fs' :
  String.prefix ".." name = false -> touches dir name fs fs' -> intact dir fs -> intact dir fs'.
Proof.
  intros Hname Htouch Hintact. apply (Old_intact dir fs Hintact).
  eapply (Old_touches dir fs name fs); [exact Htouch|by intros ->| |by apply Old_start].
  intros Hold. destruct (oldVersion_stamp dir fs Hintact name Hold) as [Hs%properStamp_prefix _]. congruence.
Qed.

Lemma intact_direct fs f : intact dir fs -> direct fs (dir ++ [f])%list.
Proof. intros [Hu _]. by apply direct_name. Qed.

Lemma removeRegular_passing (names : list string) :
  (forall f, f ∈ names -> String.prefix ".." f = false) ->
  passing (intact dir) (removeRegular dir names) (intact dir) (fun _ => intact dir).
Proof.
  induction names as [|f names IH]; intros Hnames; simpl; [by apply passing_ret|].
  apply (passing_bind _ _ _ _ (fun _ => intact dir)); [| |done].
  { apply passing_catch. eapply (passing_reading _ _ _ _ _ _); [apply Stat_law|..]; [|done|done].
    intros fs Hfs. split; [by apply intact_direct|done]. }
  intros r. apply (passing_bind _ _ _ _ (fun _ => intact dir)); [|intros _; apply IH; intros; apply Hnames; by right|done].
  assert (Hlink : passing (intact dir) (l <- catch (os_Readlink (dir ++ [f])) ;;
     match l with inl _ => ret tt | inr _ => catch (os_Remove (dir ++ [f])) ;; ret tt end) (intact dir) (fun _ => intact dir)).
  { apply (passing_bind _ _ _ _ (fun _ => intact dir)); [| |done].
    - apply passing_catch. eapply (passing_reading _ _ _ _ _ _); [apply Readlink_law|..]; [|done|done].
      intros fs Hfs. split; [by apply intact_direct|done].
    - intros [t|err]; [by apply passing_ret|].
      apply (passing_bind _ _ _ _ (fun _ => intact dir)); [|intros _; by apply passing_ret|done].
      assert (Hremove : forall x fs fs', intact dir fs -> removing (dir ++ [f]) x fs fs' -> intact dir fs').
      { intros x fs fs' Hfs Hrem. apply (intact_touches f fs); [apply Hnames; by left| |done].
        eapply removing_touches; [exact (proj1 Hfs)|exact Hrem]. }
      apply passing_catch. eapply passing_op; [apply Remove_law|by intros fs fs'; apply Hremove|].
      intros fs r' fs' Hfs Hr' Hrem. specialize (Hremove _ _ _ Hfs Hrem). by destruct r'. }
  destruct r as [|[]]; [exact Hlink|by apply passing_ret|exact Hlink..].
Qed.

Lemma makingDirs_intact x fs fs' : intact dir fs -> makingDirs dir x fs fs' -> intact dir fs'.
Proof.
  intros Hintact Hmaking. apply (Old_intact dir fs Hintact).
  specialize (Hmaking (direct_dir dir fs (proj1 Hintact)) (proj1 Hintact dir ltac:(done))).
  assert (Hbelow : forall name s, fs' !! (dir ++ name :: s)%list = fs !! (dir ++ name :: s)%list).
  { intros name s. destruct (Hmaking (dir ++ name :: s)%list) as [|[Hp _]]; [done|]. by apply not_prefix_name in Hp. }
  split; [apply Hbelow|]. split; [intros ts s _; apply Hbelow|].
  intros q Hq. destruct (Hmaking q) as [->|(_ & _ & ->)]; [by apply (proj1 Hintact)|done].
Qed.

Lemma prepareToWrite_passing : passing (intact dir) (prepareToWrite dir) (intact dir) (fun _ => intact dir).
Proof.
  unfold prepareToWrite. apply (passing_bind _ _ _ _ (fun _ => intact dir)); [| |done].
  { apply passing_catch. eapply (passing_reading _ _ _ _ _ _); [apply Stat_law|..]; [|done|done].
    intros fs Hfs. split; [exact (direct_dir dir fs (proj1 Hfs))|done]. }
  intros r. apply (passing_bind _ _ _ _ (fun _ => intact dir)); [|intros _|done].
  - destruct r as [|err]; [by apply passing_ret|]. destruct (IsNotFound err); [|by apply passing_fail].
    apply (passing_bind _ _ _ _ (fun _ => intact dir)); [|intros []; [by apply passing_ret|by apply passing_fail]|done].
    apply passing_catch. eapply passing_op; [apply MkdirAll_law|by intros fs fs'; apply makingDirs_intact|].
    intros fs r' fs' Hfs Hr' Hmaking. eapply makingDirs_intact in Hmaking; [|done]. by destruct r'.
  - apply removeRegular_passing. intros f Hf. by apply certFiles_plain.
Qed.

(** The files of the directory are the certificates. *)
Definition holds (fs : FileTree) (certs : Artifacts) : Prop :=
  forall name, visible fs dir [name] = fp_Data <$> certToProjectionMap certs !! name.

Lemma WriteCertsToDir_holds certs (w w' : W) :
  isWindows = false -> intact dir (fsNow w) -> WriteCertsToDir dir certs w = (Ok tt, w') ->
  intact dir (fsNow w') /\ holds (fsNow w') certs.
Proof.
  intros Hposix Hintact Hrun. unfold WriteCertsToDir in Hrun.
  apply bind_Ok_inv in Hrun as ([] & w1 & Hprepare & Hrun).
  destruct (prepareToWrite_passing w _ w1 Hintact Hprepare) as (_ & _ & Hintact1).
  apply bind_Ok_inv in Hrun as (aw & w2 & Hnew & Hrun).
  assert (aw = dir /\ fsNow w2 = fsNow w1) as [-> Hsame].
  { unfold NewAtomicWriter, bind, catch in Hnew. destruct (os_Stat dir w1) as [r w3] eqn:Es.
    destruct (Stat_law dir w1 r w3 Es) as (_ & _ & Hfs & _). destruct r as [[]|err|]; [|case_match|]; unfold ret, fail in Hnew; simplify_eq; by split. }
  destruct (validatePayload_plain (certToProjectionMap certs)) as (clean & Hvalid & Hclean).
  { intros k Hk%certToProjectionMap_keys%certFiles_plain. by destruct Hk as (? & ? & _). }
  assert (Hunres : unreserved clean).
  { intros p Hp. rewrite Hclean in Hp. destruct p as [|k [|]]; try by destruct Hp.
    exists k, []. split; [done|]. apply certToProjectionMap_keys, certFiles_plain in Hp. by destruct Hp as (_ & _ & ?). }
  rewrite <- Hsame in Hintact1.
  destruct (Write_passing dir (fsNow w2) clean Hintact1 Hunres (fs_tree w2) (certToProjectionMap certs) Hposix Hvalid
    w2 (Ok tt) w' eq_refl Hrun) as (_ & _ & HC & Hok). split.
  - destruct HC as [HO|(name & Hname & Hcur)]; [by apply (Old_intact dir (fsNow w2))|by eapply Current_intact].
  - intros name. rewrite (upToDate_listable dir (fsNow w2) clean _ _ (proj1 (Hok eq_refl))). by rewrite Hclean.
Qed.
End directory.

(** ** One synchronisation *)

Class HookStore (W : Type) := configOf : forall kind, W -> option (HookConfiguration kind).

Definition hookName (kind : HookKind) : string :=
  match kind with
  | Mutating => MutatingWebhookConfigurationName
  | Validating => ValidatingWebhookConfigurationName
  end.

Section sync.
Context {W : Type} `{FileHistory W} `{HookStore W}.

(** Files and configurations are as they were. *)
Definition keeps (w w' : W) : Prop :=
  fsNow w' = fsNow w /\ forall kind, configOf kind w' = configOf kind w.

Lemma keeps_trans w1 w2 w3 : keeps w1 w2 -> keeps w2 w3 -> keeps w1 w3.
Proof. intros [F1 C1] [F2 C2]. split; [congruence|]. intros kind. by rewrite C2. Qed.
End sync.

Class ConfigurationLaws (W : Type) (kind : HookKind) `{FileHistory W} `{HookStore W}
    `{Api W (HookConfiguration kind)} := {
  configuration_get w r w' : api_Get (O := HookConfiguration kind) (""%string, hookName kind) w = (r, w') ->
    keeps w w' /\ forall config, r = Ok config -> configOf kind w = Some config;
  configuration_update config w r w' : api_Update config w = (r, w') ->
    fsNow w' = fsNow w /\ (forall other, other <> kind -> configOf other w' = configOf other w)
    /\ (forall u, r = Ok u -> configOf kind w' = Some config)
}.
(** Neither CRDs nor the channel are files or configurations. *)
Class ApartLaws (W : Type) `{FileHistory W} `{HookStore W} `{ListApi W CustomResourceDefinition}
    `{Api W CustomResourceDefinition} `{WebhookQueue W} := {
  crd_list_keeps ns sel w r w' : api_List (O := CustomResourceDefinition) ns sel w = (r, w') -> keeps w w';
  crd_update_keeps (crd : CustomResourceDefinition) w r w' : api_Update crd w = (r, w') -> keeps w w';
  close_keeps w r w' : closeInited w = (r, w') -> keeps w w'
}.

Section sync_properties.
Context {W : Type} `{Environment} `{UrlParser} `{KnownKinds} `{Json (list Webhook)}
  `{Api W (HookConfiguration Mutating)} `{Api W (HookConfiguration Validating)}
  `{ListApi W CustomResourceDefinition} `{Api W CustomResourceDefinition} `{Api W Secret}
  `{FileSystem W} `{MapRangeLaws} `{Platform} `{Clock W} `{RandomInt W} `{CryptoOperations W} `{WebhookQueue W}
  `{FileHistory W} `{!FileLaws W} `{!Listable W} `{HookStore W} `{!ConfigurationLaws W Mutating} `{!ConfigurationLaws W Validating}
  `{!ApartLaws W}.

(** All webhooks of a configuration trust the CA. *)
Definition trusts (caBundle : option string) {kind} (config : HookConfiguration kind) : Prop :=
  Forall (fun wh => wcc_CABundle (wh_ClientConfig wh) = caBundle) (hc_Webhooks config).

Lemma withWebhooks_trusts {kind} handlers caBundle (parsed : HookConfiguration kind * list Webhook) config :
  withWebhooks handlers caBundle parsed = Ok config -> trusts caBundle config.
Proof.
  unfold withWebhooks, res_map. intros Hok. apply res_bind_Ok in Hok as (webhooks & Hbuild & [= <-]).
  apply (buildWebhooks_spec _ _ _ _ Hbuild).
Qed.

Lemma wrapping_Ok {A} msg (m : M W A) w a w' : wrapping msg m w = (Ok a, w') -> m w = (Ok a, w').
Proof. unfold wrapping. intros Hrun. by inv_run. Qed.

Lemma readConfiguration_Ok {kind} `{Api W (HookConfiguration kind)} `{!ConfigurationLaws W kind} w config w' :
  readConfiguration (hookName kind) w = (Ok config, w') -> keeps w w' /\ configOf kind w = Some config.
Proof.
  unfold readConfiguration. intros Hrun. inv_run. split.
  - by eapply configuration_get.
  - eapply configuration_get; [eassumption|done].
Qed.

Lemma writeConfiguration_Ok {kind} `{Api W (HookConfiguration kind)} `{!ConfigurationLaws W kind}
    (old new : HookConfiguration kind) caBundle w w' :
  writeConfiguration old new w = (Ok tt, w') -> configOf kind w = Some old -> trusts caBundle new ->
  fsNow w' = fsNow w /\ (forall other, other <> kind -> configOf other w' = configOf other w)
  /\ exists config, configOf kind w' = Some config /\ trusts caBundle config.
Proof.
  unfold writeConfiguration. destruct (changed old new) eqn:E; intros Hrun Hold Hnew.
  - inv_run. apply configuration_update in Hm as (Hfs & Hother & Hstored).
    split; [done|]. split; [done|]. exists new. split; [by eapply Hstored|done].
  - inv_run. split; [done|]. split; [done|]. exists old. split; [done|].
    unfold changed in E. apply bool_decide_eq_false in E. unfold trusts in *.
    destruct (decide (hc_Webhooks old = hc_Webhooks new)) as [->|]; [done|tauto].
Qed.

Lemma configuration_Ensure_Ok handlers caBundle w w' :
  configuration_Ensure handlers caBundle w = (Ok tt, w') ->
  fsNow w' = fsNow w /\ forall kind, exists config, configOf kind w' = Some config /\ trusts caBundle config.
Proof.
  unfold configuration_Ensure. intros Hrun.
  apply bind_Ok_inv in Hrun as (mutating & w1 & Hmutating & Hrun).
  apply bind_Ok_inv in Hrun as (validating & w2 & Hvalidating & Hrun).
  apply (readConfiguration_Ok (kind := Mutating)) in Hmutating as [[F1 K1] S1].
  apply (readConfiguration_Ok (kind := Validating)) in Hvalidating as [[F2 K2] S2].
  apply bind_Ok_inv in Hrun as (pm & w3 & Hpm & Hrun). apply lift_Ok_inv in Hpm as [_ ->].
  apply bind_Ok_inv in Hrun as (pv & w3 & Hpv & Hrun). apply lift_Ok_inv in Hpv as [_ ->].
  apply bind_Ok_inv in Hrun as (newM & w3 & HnewM & Hrun). apply lift_Ok_inv in HnewM as [HnewM ->].
  apply bind_Ok_inv in Hrun as (newV & w3 & HnewV & Hrun). apply lift_Ok_inv in HnewV as [HnewV ->].
  apply bind_Ok_inv in Hrun as ([] & w3 & HwriteM & HwriteV).
  apply withWebhooks_trusts in HnewM, HnewV.
  eapply writeConfiguration_Ok in HwriteM as (F3 & K3 & config & S3 & T3); [|by rewrite K2, K1|done].
  eapply writeConfiguration_Ok in HwriteV as (F4 & K4 & config' & S4 & T4); [|by rewrite K3, K2|done].
  split; [congruence|]. intros []; [|by exists config'].
  exists config. split; [by rewrite K4|done].
Qed.

Lemma updateCRDs_keeps webhookConfig crds w r w' : updateCRDs webhookConfig crds w = (r, w') -> keeps w w'.
Proof.
  revert w. induction crds as [|crd crds IH]; intros w; simpl; [by intros [= _ <-]|].
  destruct (convertible crd); [|apply IH]. unfold bind, catch.
  destruct (api_Update _ w) as [r1 w1] eqn:E. apply crd_update_keeps in E.
  destruct r1 as [[]|err|]; [|by intros [= _ <-]..]. intros Hrun. eapply keeps_trans; [exact E|by apply IH].
Qed.

Lemma crd_Ensure_keeps caBundle w r w' : crd_Ensure caBundle w = (r, w') -> keeps w w'.
Proof.
  unfold crd_Ensure, bind, catch. destruct (api_List _ _ w) as [r1 w1] eqn:E. apply crd_list_keeps in E.
  destruct r1 as [crds|err|]; [|by intros [= _ <-]..]. unfold lift. destruct (conversionConfig caBundle) as [cfg|err|];
    [|by intros [= _ <-]..]. intros Hrun. eapply keeps_trans; [exact E|by eapply updateCRDs_keeps].
Qed.

(** C15. After a synchronisation without error server and API server agree.  It ensured
    certificates, and, the directory having been intact then and directories readable, the
    files of the directory are exactly these certificates, and every webhook of both configurations trusts their
    CA. *)
Theorem sync_agrees (handlers : gset string) (w w' : W) :
  isWindows = false ->
  webhook_sync handlers w = (Ok tt, w') ->
  exists certs changed w1, ensureCerts w = (Ok (certs, changed), w1)
  /\ (intact certDirPath (fsNow w1) ->
        intact certDirPath (fsNow w') /\ holds certDirPath (fsNow w') certs
        /\ forall kind, exists config, configOf kind w' = Some config /\ trusts (art_CACert certs) config).
Proof.
  intros Hposix Hrun. unfold webhook_sync in Hrun.
  apply bind_Ok_inv in Hrun as ([certs changed] & w1 & Hensured & Hrun). exists certs, changed, w1.
  split; [done|]. intros Hintact. cbn [fst] in Hrun.
  apply bind_Ok_inv in Hrun as ([] & w2 & Hwrite & Hrun). apply wrapping_Ok in Hwrite.
  apply bind_Ok_inv in Hrun as ([] & w3 & Hconfig & Hrun). apply wrapping_Ok in Hconfig.
  apply bind_Ok_inv in Hrun as ([] & w4 & Hcrd & Hclose). apply wrapping_Ok in Hcrd.
  destruct (WriteCertsToDir_holds certDirPath certs w1 w2 Hposix Hintact Hwrite) as [Hintact2 Hholds].
  apply configuration_Ensure_Ok in Hconfig as [F3 T3].
  apply crd_Ensure_keeps in Hcrd as [F4 K4]. apply close_keeps in Hclose as [F5 K5].
  assert (fsNow w' = fsNow w2) as -> by congruence. split; [done|]. split; [done|].
  intros kind. destruct (T3 kind) as (config & Hstored & Htrusts). exists config. split; [by rewrite K5, K4|done].
Qed.
End sync_properties.
