(* ===== verification/WorkloadAdmission.v ===== *)
(** * Admission of workloads (pkg/webhook/workload/mutating, pkg/webhook/util/matcher.go)

    The webhook that notices a new revision of a workload and takes the workload over
    before its own controller acts: workload_update_handler.go for Deployments, CloneSets
    and DaemonSets, unified_update_handler.go for StatefulSets and what looks like them,
    minready_deployment.go for Deployments released by MinReadySeconds. *)

From S2P Require Export ControllerFinder MinReady Validation.

(** ** Which requests a webhook is registered for (matcher.go) *)

Record GroupVersionResource := mkGVR { gvr_Group : string; gvr_Version : string; gvr_Resource : string }.
#[export] Instance GroupVersionResource_eq_dec : EqDecision GroupVersionResource.
Proof. solve_decision. Defined.

Record RuleWithOperations := mkRule {
  Operations : list string;
  APIGroups : list string;
  APIVersions : list string;
  Resources : list string;
  Scope : option string
}.

(** What [constructAttr] gives of a request. *)
Record Attributes := mkAttributes {
  at_Namespace : string;
  at_Resource : GroupVersionResource;
  at_Subresource : string;
  at_Operation : string
}.

Definition exactOrWildcard (items : list string) (requested : string) : bool :=
  existsb (fun item => String.eqb item "*" || String.eqb item requested) items.

Definition namespaceResource : GroupVersionResource := mkGVR "" "v1" "namespaces".

Definition matcher_scope (rule : RuleWithOperations) (attr : Attributes) : bool :=
  match Scope rule with
  | None => true
  | Some s =>
      if String.eqb s "*" then true else
      if String.eqb s "Namespaced" then
        negb (bool_decide (at_Resource attr = namespaceResource)) && nonempty (at_Namespace attr)
      else if String.eqb s "Cluster" then
        bool_decide (at_Resource attr = namespaceResource) || negb (nonempty (at_Namespace attr))
      else false
  end.

Definition matcher_group (rule : RuleWithOperations) (attr : Attributes) : bool :=
  exactOrWildcard (APIGroups rule) (gvr_Group (at_Resource attr)).
Definition matcher_version (rule : RuleWithOperations) (attr : Attributes) : bool :=
  exactOrWildcard (APIVersions rule) (gvr_Version (at_Resource attr)).
Definition matcher_operation (rule : RuleWithOperations) (attr : Attributes) : bool :=
  exactOrWildcard (Operations rule) (at_Operation attr).

(** [strings.SplitN(resSub, "/", 2)] *)
Definition splitResource (resSub : string) : string * string :=
  match String.index 0 "/" resSub with
  | Some n => (String.substring 0 n resSub, String.substring (S n) (String.length resSub - S n) resSub)
  | None => (resSub, ""%string)
  end.

Definition matcher_resource (rule : RuleWithOperations) (attr : Attributes) : bool :=
  existsb (fun resSub =>
    let '(res, sub) := splitResource resSub in
    (String.eqb res "*" || String.eqb res (gvr_Resource (at_Resource attr)))
    && (String.eqb sub "*" || String.eqb sub (at_Subresource attr))) (Resources rule).

Definition Matches (rule : RuleWithOperations) (attr : Attributes) : bool :=
  matcher_scope rule attr && matcher_operation rule attr && matcher_group rule attr
  && matcher_version rule attr && matcher_resource rule attr.

(** ** Requests and answers *)

Record WorkloadRequest := mkWorkloadRequest {
  wr_Operation : string;
  wr_SubResource : string;
  wr_Kind : GroupVersionKind;
  wr_Resource : GroupVersionResource;
  wr_DryRun : option bool;
  wr_Object : string;
  wr_OldObject : string
}.

(** [MPatched]: [PatchResponseFromRaw] of the two objects. *)
Inductive MutationResponse :=
  | MAllowed
  | MErrored (code : Z) (err : goerror)
  | MPatched (original modified : string).

Record MutatingWebhook := mkMutatingWebhook {
  mw_Rules : list RuleWithOperations;
  mw_ObjectSelector : option LabelSelector
}.
(** Reading the MutatingWebhookConfiguration of the webhooks. *)
Class WebhookConfiguration (W : Type) := getMutatingWebhooks : M W (list MutatingWebhook).

(** The feature gate [SkipDeploymentRestart]. *)
Class SkipRestartGate := SkipDeploymentRestart : bool.

Record RolloutState := mkRolloutState { rst_RolloutName : string }.

(** Writing into the tree of an unstructured object, and whether a path holds a map. *)
Inductive Tree := TString (s : string) | TInt (n : Z) | TMap (fields : list (string * Tree)).
Class TreeLib := {
  HoldsMap : Unstructured -> list string -> bool;
  SetTree : Unstructured -> list string -> Tree -> Unstructured
}.
(** A number that was written is read back, also inside of a map. *)
Class TreeLaws `{UnstructuredLib} `{TreeLib} := {
  set_number o path n :
    NestedInt64 (SetTree o path (TInt n)) path = Ok (Some n);
  set_number_map o path field n :
    NestedInt64 (SetTree o path (TMap [(field, TInt n)])) (path ++ [field])%list = Ok (Some n);
  set_number_maps o path outer inner n (fields : list (string * Tree)) :
    outer ∉ fields.*1 ->
    NestedInt64 (SetTree o path (TMap (fields ++ [(outer, TMap [(inner, TInt n)])])))
      (path ++ [outer; inner])%list = Ok (Some n)
}.

(** ** Deployments released by MinReadySeconds (minready_deployment.go) *)

Section enrollment.
Context `{K8sLib} `{ParseLib}.

Definition hasMinReadyOriginalMaxUnavailableChange (deployment : Deployment) (previous : option Deployment)
    : bool :=
  match previous with
  | None => false
  | Some previous =>
      let serialized d := SerializeOriginalIntOrString (OriginalMaxUnavailable d) DefaultMaxUnavailable in
      negb (String.eqb (serialized deployment) (serialized previous))
  end.

Definition ensureMinReadyOriginalAnnotations (d : Deployment) : option goerror :=
  match ParseOriginalDeploymentStrategy (Annotations (dep_Meta d)) with Err err => Some err | _ => None end.

(** The target after what was written into it, and the error that ended the work.  The
    snapshot is a copy of the target. *)
Definition enrollMinReadyOriginalAnnotations (snapshot target : Deployment) (previous : option Deployment)
    : Deployment * option goerror :=
  if negb (HasMinReadyOriginalAnnotations (dep_Meta snapshot))
  then (WriteOriginalAnnotations snapshot target, None) else
  match ensureMinReadyOriginalAnnotations snapshot with
  | Some err => (target, Some err)
  | None =>
      let '(target, err) :=
        match ValidateInflatedDeploymentStrategy snapshot with
        | None => (target, None)
        | Some msg =>
            if negb (HasOriginalAvailabilityChange snapshot) then (target, Some (ErrOther msg)) else
            match ValidateRefreshableDeployment snapshot with
            | Some msg => (target, Some (ErrOther msg))
            | None => (WriteOriginalAvailabilityAnnotations snapshot target, None)
            end
        end in
      match err with
      | Some err => (target, Some err)
      | None =>
          if hasMinReadyOriginalMaxUnavailableChange snapshot previous then
            match ValidateRefreshableDeployment snapshot with
            | Some msg => (target, Some (ErrOther msg))
            | None => (WriteOriginalMaxUnavailableAnnotation snapshot target, None)
            end
          else (target, None)
      end
  end.

Definition enrollMinReadyDeploymentWithPrevious (deployment : Deployment) (previous : option Deployment)
    : Deployment * option goerror :=
  match ValidateDeploymentStrategyType deployment with
  | Some msg => (deployment, Some (ErrOther msg))
  | None =>
      let '(deployment, err) := enrollMinReadyOriginalAnnotations deployment deployment previous in
      match err with
      | Some err => (deployment, Some err)
      | None => (InflateDeploymentStrategy deployment, None)
      end
  end.
Definition enrollMinReadyDeployment (deployment : Deployment) : Deployment * option goerror :=
  enrollMinReadyDeploymentWithPrevious deployment None.
End enrollment.

(** ** The revision of a Deployment (workload_update_handler.go) *)

(** The test all kinds make: with a rollout ID its change counts, without one that of
    the template. *)
Definition revisionChanged (oldMeta newMeta : ObjectMeta) (oldTemplate newTemplate : PodTemplateSpec) : bool :=
  if nonempty (annotation newMeta RolloutIDLabel)
     && String.eqb (annotation oldMeta RolloutIDLabel) (annotation newMeta RolloutIDLabel) then false
  else if String.eqb (annotation newMeta RolloutIDLabel) "" && EqualIgnoreHash oldTemplate newTemplate then false
  else true.

Definition isEffectiveDeploymentRevisionChange (oldObj newObj : Deployment) : bool :=
  revisionChanged (dep_Meta oldObj) (dep_Meta newObj) (dep_Template oldObj) (dep_Template newObj).

Definition restartAnnotationKeys : list string :=
  ["kubectl.kubernetes.io/restartedAt"; "redeploy-timestamp"]%string.

Definition isDeploymentRestartOnly (oldObj newObj : Deployment) : bool :=
  if negb (String.eqb (annotation (dep_Meta oldObj) RolloutIDLabel)
             (annotation (dep_Meta newObj) RolloutIDLabel)) then false else
  let value d key := default ∅ (tmpl_Annotations (dep_Template d)) !! key : option string in
  if negb (existsb (fun key => negb (bool_decide (value oldObj key = value newObj key))) restartAnnotationKeys)
  then false
  else EqualIgnoreSpecifyMetadata (dep_Template oldObj) (dep_Template newObj) [] restartAnnotationKeys.

Definition shouldSkipDeploymentRestart `{SkipRestartGate} (oldObj newObj : Deployment) : bool :=
  SkipDeploymentRestart && String.eqb (annotation (dep_Meta newObj) InRolloutProgressingAnnotation) ""
  && isDeploymentRestartOnly oldObj newObj.

Definition isMinReadySecondsStrategy `{MinReadyGate} (rollout : Rollout) (deployment : Deployment) : bool :=
  match Canary (ro_Strategy rollout) with
  | None => false
  | Some canary =>
      if cn_EnableExtraWorkloadForCanary canary then false
      else if MinReadySecondsStrategy then true
      else HasMinReadyOriginalAnnotations (dep_Meta deployment)
  end.

Definition previousMinReadyRollingUpdate (previous : Deployment) : RollingUpdateDeployment :=
  match dep_RollingUpdate previous with
  | None => mkRollingUpdate (Some (FromInt 0)) None
  | Some ru => mkRollingUpdate (Some (default (FromInt 0) (ru_MaxUnavailable ru))) (ru_MaxSurge ru)
  end.

(** Whether anything had to be modified, and the Deployment. *)
Definition enforceMinReadyInflation (deployment previous : Deployment) : bool * Deployment :=
  if negb (HasMinReadyOriginalAnnotations (dep_Meta deployment)) then (false, deployment) else
  let isRolling := String.eqb (dep_StrategyType deployment) RollingUpdateDeploymentStrategyType in
  let lacksRolling := bool_decide (dep_RollingUpdate deployment = None) in
  let ready := bool_decide (dep_MinReadySeconds deployment = InflatedMinReadySeconds) in
  let deadline := bool_decide (dep_ProgressDeadlineSeconds deployment = Some InflatedProgressDeadlineSeconds) in
  (negb isRolling || dep_Paused deployment || lacksRolling || negb ready || negb deadline,
   deployment <| dep_StrategyType := RollingUpdateDeploymentStrategyType |> <| dep_Paused := false |>
     <| dep_RollingUpdate := Some (default (previousMinReadyRollingUpdate previous) (dep_RollingUpdate deployment)) |>
     <| dep_MinReadySeconds := InflatedMinReadySeconds |>
     <| dep_ProgressDeadlineSeconds := Some InflatedProgressDeadlineSeconds |>).

(** The object to answer with, if it was modified. *)
Definition changed {O} (p : bool * O) : option O := if fst p then Some (snd p) else None.

(** ** The handlers *)

Section handlers.
Context {W : Type} `{ListApi W Rollout} `{ListApi W ReplicaSet} `{WebhookConfiguration W}.
Context `{K8sLib} `{ParseLib} `{MetaLib} `{SortLib} `{Strconv} `{ObjectKind} `{GroupVersionParser}
  `{UnstructuredLib} `{TreeLib} `{MinReadyGate} `{SkipRestartGate}.
Context `{Json DeploymentStrategy} `{Json RolloutState} `{Json ObjectMeta} `{Json DaemonSetRevisionInfo}
  `{Json PodTemplateSpec}.

Definition refersTo (rollout : Rollout) (gvk : GroupVersionKind) (name : string) : bool :=
  let ref := WorkloadRef (ro_Spec rollout) in
  match ParseGroupVersion (APIVersion ref) with
  | None => false
  | Some group => String.eqb (Group gvk) group && String.eqb (GVKKind gvk) (Kind ref)
                  && String.eqb name (RefName ref)
  end.

Definition matchesRollout (gvk : GroupVersionKind) (name : string) (rollout : Rollout) : bool :=
  negb (deleting (ro_Meta rollout))
  && negb (bool_decide (Phase (ro_Status rollout) = RolloutPhaseDisabled))
  && refersTo rollout gvk name.

Definition fetchMatchedRollout (object : WorkloadObject) (m : ObjectMeta) : M W (option Rollout) :=
  let '(apiVersion, kind) := ObjectTypeMeta object in
  rollouts <- api_List (O := Rollout) (Namespace m) (fun _ => true) ;;
  ret (snd <$> list_find (fun r => matchesRollout (FromAPIVersionAndKind apiVersion kind) (Name m) r = true)
                 rollouts).

(** An object updated by CD tools comes without the uid. *)
Definition withUID {O} `{KubeObject O} (newObj oldObj : O) : O :=
  if nonempty (UID (metaOf newObj)) then newObj
  else withMeta ((metaOf newObj) <| UID := UID (metaOf oldObj) |>) newObj.

Definition stateOf (rollout : Rollout) : string := Marshal (mkRolloutState (Name (ro_Meta rollout))).
Definition putAnnotation (k v : string) (m : ObjectMeta) : ObjectMeta :=
  m <| Annotations := Some (<[k := v]> (default ∅ (Annotations m))) |>.
Definition markProgressing {O} `{KubeObject O} (rollout : Rollout) (o : O) : O :=
  withMeta (putAnnotation InRolloutProgressingAnnotation (stateOf rollout) (metaOf o)) o.

(** The Rollout that takes the object over, if there is one. *)
Definition rolloutOf (object : WorkloadObject) (m : ObjectMeta) : M W (option Rollout) :=
  found <- fetchMatchedRollout object m ;;
  ret (match found with
       | Some rollout => if IsEmptyRelease (ro_Strategy rollout) then None else Some rollout
       | None => None
       end).

(** *** Deployments *)

Definition holdPartition (newObj oldObj : Deployment) : bool * Deployment :=
  let strategy := GetDeploymentStrategy newObj in
  let rolling := String.eqb (dep_StrategyType newObj) RollingUpdateDeploymentStrategyType in
  let revised := isEffectiveDeploymentRevisionChange oldObj newObj
                 && negb (isDeploymentRestartOnly oldObj newObj) in
  let strategy := match dep_RollingUpdate newObj with
                  | Some ru => strategy <| dstr_RollingUpdate := Some ru |>
                  | None => strategy
                  end in
  let strategy := if revised then strategy <| dstr_Paused := true |> else strategy in
  (negb (dep_Paused newObj) || rolling || negb (bool_decide (dep_RollingUpdate newObj = None)) || revised,
   setDepAnnotation DeploymentStrategyAnnotation (Marshal (SetDefaultDeploymentStrategy strategy))
     (newObj <| dep_Paused := true |>
        <| dep_StrategyType := if rolling then RecreateDeploymentStrategyType else dep_StrategyType newObj |>
        <| dep_RollingUpdate := None |>)).

Definition holdBlueGreen (newObj oldObj : Deployment) : bool * Deployment :=
  let revised := isEffectiveDeploymentRevisionChange oldObj newObj in
  let restyled := negb (String.eqb (dep_StrategyType newObj) RollingUpdateDeploymentStrategyType) in
  (revised || restyled,
   newObj <| dep_Paused := if revised then true else dep_Paused newObj |>
     <| dep_StrategyType := if restyled then dep_StrategyType oldObj else dep_StrategyType newObj |>).

Definition holdCanary (newObj oldObj : Deployment) : bool * Deployment :=
  let recreate := String.eqb (dep_StrategyType newObj) RecreateDeploymentStrategyType in
  (negb (dep_Paused newObj) || recreate,
   newObj <| dep_Paused := true |>
     <| dep_StrategyType := if recreate then dep_StrategyType oldObj else dep_StrategyType newObj |>
     <| dep_RollingUpdate := if recreate then dep_RollingUpdate oldObj else dep_RollingUpdate newObj |>).

Definition isPartitionDeployment (d : Deployment) : bool :=
  EqualFold (dstr_RollingStyle (GetDeploymentStrategy d)) PartitionStyle.
Definition isBlueGreenDeployment (d : Deployment) : bool :=
  nonempty (annotation (dep_Meta d) OriginalDeploymentStrategyAnnotation).

(** In progress: keep the Deployment as the release needs it. *)
Definition holdDeployment (rollout : Rollout) (newObj oldObj : Deployment) : option Deployment :=
  if isMinReadySecondsStrategy rollout newObj then
    if isEffectiveDeploymentRevisionChange oldObj newObj then
      match enrollMinReadyDeploymentWithPrevious newObj (Some oldObj) with
      | (d, None) => Some d
      | (d, Some _) => changed (enforceMinReadyInflation d oldObj)
      end
    else changed (enforceMinReadyInflation newObj oldObj)
  else if isPartitionDeployment newObj then changed (holdPartition newObj oldObj)
  else if isBlueGreenDeployment newObj then changed (holdBlueGreen newObj oldObj)
  else changed (holdCanary newObj oldObj).

Definition labelStable (stableRS : option ReplicaSet) (d : Deployment) : Deployment :=
  match stableRS with
  | None => d
  | Some rs =>
      d <| dep_Meta := (dep_Meta d) <| Labels :=
        <[DeploymentStableRevisionLabel := mapget (Labels (rs_Meta rs)) DefaultDeploymentUniqueLabelKey]>
          (Labels (dep_Meta d)) |> |>
  end.

(** The Deployment as it enters a release.  A refused enrollment does not refuse it. *)
Definition seizeDeployment (rollout : Rollout) (d : Deployment) : Deployment :=
  markProgressing rollout
    (if isMinReadySecondsStrategy rollout d then fst (enrollMinReadyDeployment d) else d <| dep_Paused := true |>).

Definition enterDeployment (rollout : Rollout) (newObj oldObj : Deployment) : M W (option Deployment) :=
  if decide (dep_Replicas newObj = Some 0) then ret None else
  if negb (isEffectiveDeploymentRevisionChange oldObj newObj) then ret None else
  r <- catch (GetReplicaSetsForDeployment newObj) ;;
  match r with
  | inr _ | inl [] => ret None
  | inl rss =>
      routed <- lift (HasTrafficRoutings (ro_Strategy rollout)) ;;
      if routed && negb (bool_decide (len rss = 1)) then ret None else
      pair <- lift (FindCanaryAndStableReplicaSet rss newObj) ;;
      ret (Some (seizeDeployment rollout (labelStable (snd pair) newObj)))
  end.

Definition handleDeployment (newObj oldObj : Deployment) : M W (option Deployment) :=
  let newObj := withUID newObj oldObj in
  rollout <- rolloutOf (ODeployment newObj) (dep_Meta newObj) ;;
  match rollout with
  | None => ret None
  | Some rollout =>
      if shouldSkipDeploymentRestart oldObj newObj then ret None
      else if nonempty (annotation (dep_Meta newObj) InRolloutProgressingAnnotation)
      then ret (holdDeployment rollout newObj oldObj)
      else enterDeployment rollout newObj oldObj
  end.

(** *** CloneSets and DaemonSets *)

Definition handleCloneSet (newObj oldObj : CloneSet) : M W (option CloneSet) :=
  if decide (clone_Replicas newObj = Some 0) then ret None else
  if negb (revisionChanged (clone_Meta oldObj) (clone_Meta newObj) (clone_Template oldObj)
             (clone_Template newObj)) then ret None else
  let newObj := withUID newObj oldObj in
  rollout <- rolloutOf (OCloneSet newObj) (clone_Meta newObj) ;;
  match rollout with
  | None => ret None
  | Some rollout =>
      routed <- lift (HasTrafficRoutings (ro_Strategy rollout)) ;;
      if routed && negb (bool_decide (cls_Replicas (clone_Status newObj) = cls_UpdatedReplicas (clone_Status newObj)))
      then ret None
      else ret (Some (markProgressing rollout (newObj <| clone_Partition := Some (FromString "100%") |>)))
  end.

Definition handleDaemonSet (newObj oldObj : KruiseDaemonSet) : M W (option KruiseDaemonSet) :=
  if negb (revisionChanged (kds_Meta oldObj) (kds_Meta newObj) (kds_Template oldObj) (kds_Template newObj))
  then ret None else
  let newObj := withUID newObj oldObj in
  rollout <- rolloutOf (OKruiseDaemonSet newObj) (kds_Meta newObj) ;;
  match rollout with
  | None => ret None
  | Some rollout =>
      ru <- lift (deref (kds_RollingUpdate newObj)) ;;
      ret (Some (markProgressing rollout
        (newObj <| kds_RollingUpdate := Some (mkDsetRolling (Some MaxInt16) (dsru_Paused ru)) |>)))
  end.

Definition handleNativeDaemonSet (newObj oldObj : DaemonSet) : M W (option DaemonSet) :=
  if negb (revisionChanged (dst_Meta oldObj) (dst_Meta newObj) (dst_Template oldObj) (dst_Template newObj))
  then ret None else
  let newObj := withUID newObj oldObj in
  rollout <- rolloutOf (ODaemonSet newObj) (dst_Meta newObj) ;;
  match rollout with
  | None => ret None
  | Some rollout =>
      ret (Some (markProgressing rollout
        (newObj <| dst_Meta := putAnnotation DaemonSetOriginalUpdateStrategy (dst_UpdateStrategyType newObj)
                                 (dst_Meta newObj) |>
           <| dst_UpdateStrategyType := "OnDelete" |>)))
  end.

(** *** StatefulSets and objects like them (unified_update_handler.go, parse_utils.go) *)

Definition SetStatefulSetPartition (o : Unstructured) (partition : Z) : Unstructured :=
  if negb (HoldsMap o ["spec"]%string) then o else
  if negb (HoldsMap o ["spec"; "updateStrategy"]%string) then
    SetTree o ["spec"; "updateStrategy"]%string
      (TMap [("type", TString "RollingUpdate"); ("rollingUpdate", TMap [("partition", TInt partition)])]%string)
  else if negb (HoldsMap o ["spec"; "updateStrategy"; "rollingUpdate"]%string) then
    SetTree o ["spec"; "updateStrategy"; "rollingUpdate"]%string (TMap [("partition", TInt partition)]%string)
  else SetTree o ["spec"; "updateStrategy"; "rollingUpdate"; "partition"]%string (TInt partition).

Definition handleStatefulSetLikeWorkload (newObj oldObj : Unstructured) : M W (option Unstructured) :=
  replicas <- lift (GetReplicas (OUnstructured newObj)) ;;
  if decide (replicas = 0) then ret None else
  rolling <- lift (IsStatefulSetRollingUpdate (OUnstructured newObj)) ;;
  if negb rolling then ret None else
  oldTemplate <- lift (GetTemplate (OUnstructured oldObj)) ;;
  newTemplate <- lift (GetTemplate (OUnstructured newObj)) ;;
  match oldTemplate, newTemplate with
  | Some oldTemplate, Some newTemplate =>
      oldMeta <- lift (GetMetadata (OUnstructured oldObj)) ;;
      newMeta <- lift (res_bind (GetMetadata (OUnstructured newObj)) deref) ;;
      oldMeta <- lift (if nonempty (annotation newMeta RolloutIDLabel) then deref oldMeta
                       else Ok (default emptyMeta oldMeta)) ;;
      if negb (revisionChanged oldMeta newMeta oldTemplate newTemplate) then ret None else
      rollout <- rolloutOf (OUnstructured newObj) (metaOf newObj) ;;
      match rollout with
      | None => ret None
      | Some rollout => ret (Some (markProgressing rollout (SetStatefulSetPartition newObj MaxInt16)))
      end
  | _, _ => ret None
  end.

(** *** The rules of the webhooks, and the requests *)

Context `{Decoder Unstructured} `{Json Unstructured}.

(** A missing [dryRun] panics. *)
Definition constructAttr (req : WorkloadRequest) : res Attributes :=
  match Unmarshal (A := Unstructured) (wr_Object req) with
  | None => Err (ErrOther "unmarshal")
  | Some obj =>
      res_map (fun _ => mkAttributes (Namespace (metaOf obj)) (wr_Resource req) (wr_SubResource req)
                          (wr_Operation req)) (deref (wr_DryRun req))
  end.

(** The first rule that matches decides, unless its selector does not match. *)
Fixpoint anyRule (rules : list (RuleWithOperations * option LabelSelector))
    (attr : Attributes) (labels : gmap string string) : res bool :=
  match rules with
  | [] => Ok false
  | (rule, selector) :: rest =>
      if Matches rule attr then
        match LabelSelectorAsSelector selector with
        | Panic => Panic
        | Err _ => Ok false
        | Ok selector => if selector labels then Ok true else anyRule rest attr labels
        end
      else anyRule rest attr labels
  end.

Definition checkWorkloadRules (req : WorkloadRequest) : M W bool :=
  webhooks <- getMutatingWebhooks ;;
  match Decode (O := Unstructured) (wr_Object req) with
  | inr err => fail err
  | inl newObject =>
      attr <- lift (constructAttr req) ;;
      lift (anyRule (flat_map (fun webhook => map (fun rule => (rule, mw_ObjectSelector webhook)) (mw_Rules webhook))
                       webhooks) attr (Labels (metaOf newObject)))
  end.

(** Decode both objects, handle a copy of the new one, answer with the difference. *)
Definition mutateWith {O} `{Decoder O} `{Json O} (handle : O -> O -> M W (option O)) (req : WorkloadRequest)
    : M W MutationResponse :=
  match Decode (O := O) (wr_Object req) with
  | inr err => ret (MErrored StatusBadRequest err)
  | inl newObj =>
      match Decode (O := O) (wr_OldObject req) with
      | inr err => ret (MErrored StatusBadRequest err)
      | inl oldObj =>
          r <- catch (handle newObj oldObj) ;;
          ret (match r with
               | inr err => MErrored StatusBadRequest err
               | inl None => MAllowed
               | inl (Some modified) => MPatched (Marshal newObj) (Marshal modified)
               end)
      end
  end.

(** What both webhooks do before they look at the kind. *)
Definition guarded (handle : WorkloadRequest -> M W MutationResponse) (req : WorkloadRequest)
    : M W MutationResponse :=
  if negb (String.eqb (wr_Operation req) "UPDATE") || nonempty (wr_SubResource req) then ret MAllowed else
  r <- catch (checkWorkloadRules req) ;;
  match r with
  | inr err => ret (MErrored StatusBadRequest err)
  | inl false => ret MAllowed
  | inl true => handle req
  end.

Context `{Decoder Deployment} `{Json Deployment} `{Decoder CloneSet} `{Json CloneSet}
  `{Decoder KruiseDaemonSet} `{Json KruiseDaemonSet} `{Decoder DaemonSet} `{Json DaemonSet}.

Definition isKind (req : WorkloadRequest) (gvk : GroupVersionKind) : bool :=
  String.eqb (Group (wr_Kind req)) (Group gvk) && String.eqb (GVKKind (wr_Kind req)) (GVKKind gvk).

Definition workload_Handle : WorkloadRequest -> M W MutationResponse := guarded (fun req =>
  if isKind req ControllerKruiseKindCS then mutateWith handleCloneSet req
  else if isKind req ControllerKruiseKindDS then mutateWith handleDaemonSet req
  else if isKind req ControllerKindDep then mutateWith handleDeployment req
  else if isKind req ControllerKindDS then mutateWith handleNativeDaemonSet req
  else ret MAllowed).

Definition WorkloadTypeLabel : string := "rollouts.kruise.io/workload-type".
Definition IsWorkloadType {O} `{KubeObject O} (object : O) (t : string) : bool :=
  String.eqb (toLower (mapget (Labels (metaOf object)) WorkloadTypeLabel)) t.

(** The new object is patched against the text of the request. *)
Definition unified_Handle : WorkloadRequest -> M W MutationResponse := guarded (fun req =>
  if isKind req ControllerKruiseKindCS || isKind req ControllerKruiseKindDS || isKind req ControllerKindDep
  then ret MAllowed else
  match Decode (O := Unstructured) (wr_Object req) with
  | inr err => ret (MErrored StatusBadRequest err)
  | inl newObj =>
      if negb (IsWorkloadType newObj "statefulset") && negb (String.eqb (GVKKind (wr_Kind req)) (GVKKind ControllerKindSts))
      then ret MAllowed else
      r <- mutateWith handleStatefulSetLikeWorkload req ;;
      ret (match r with MPatched _ modified => MPatched (wr_Object req) modified | r => r end)
  end).
End handlers.
