(* ===== verification/WorkloadAdmissionProofs.v ===== *)
(** * Properties of the admission of workloads

    A new revision of a workload that a Rollout refers to is taken over before it can
    roll out, and stays taken over while the release is in progress. *)

From S2P Require Export WorkloadAdmission.

Section properties.
Context {W : Type} `{ListApi W Rollout} `{ListApi W ReplicaSet} `{WebhookConfiguration W}.
Context `{K8sLib} `{ParseLib} `{MetaLib} `{SortLib} `{Strconv} `{ObjectKind} `{GroupVersionParser}
  `{UnstructuredLib} `{TreeLib} `{MinReadyGate} `{SkipRestartGate}.
Context `{Json DeploymentStrategy} `{Json RolloutState} `{Json ObjectMeta} `{Json DaemonSetRevisionInfo}
  `{Json PodTemplateSpec}.

(** ** The parts of an object that the webhook never changes *)

(** Template and number of replicas of a Deployment. *)
Definition sameWork (d d' : Deployment) : Prop :=
  dep_Template d' = dep_Template d /\ dep_Replicas d' = dep_Replicas d.

Lemma sameWork_refl d : sameWork d d.
Proof. done. Qed.
Lemma sameWork_trans d1 d2 d3 : sameWork d1 d2 -> sameWork d2 d3 -> sameWork d1 d3.
Proof. unfold sameWork. intros [-> ->] [-> ->]. done. Qed.

Lemma withUID_sameWork d old : sameWork d (withUID d old).
Proof. unfold withUID. by destruct (nonempty _). Qed.
Lemma withUID_annotation (d old : Deployment) k :
  annotation (dep_Meta (withUID d old)) k = annotation (dep_Meta d) k.
Proof. unfold withUID. by destruct (nonempty _). Qed.

Lemma annotation_put k v m : annotation (putAnnotation k v m) k = v.
Proof. unfold annotation, putAnnotation, mapget. simpl. by rewrite lookup_insert_eq. Qed.
Lemma annotation_put_ne k k' v m : k <> k' -> annotation (putAnnotation k v m) k' = annotation m k'.
Proof. intros Hne. unfold annotation, putAnnotation, mapget. simpl. by rewrite lookup_insert_ne. Qed.

(** ** Enrollment by MinReadySeconds *)

(** Enrollment either fails and leaves the Deployment as it was, or inflates it. *)
Lemma enroll_spec d previous d' err :
  enrollMinReadyDeploymentWithPrevious d previous = (d', err) ->
  match err with
  | None => sameWork d d' /\ ValidateInflatedDeploymentStrategy d' = None
  | Some _ => d' = d
  end.
Proof.
  unfold enrollMinReadyDeploymentWithPrevious.
  destruct (ValidateDeploymentStrategyType d) as [msg|] eqn:Et; [by intros [= <- <-]|].
  assert (Htype : dep_StrategyType d = RollingUpdateDeploymentStrategyType).
  { unfold ValidateDeploymentStrategyType in Et. destruct (String.eqb_spec (dep_StrategyType d)
      RollingUpdateDeploymentStrategyType); [done|discriminate]. }
  destruct (enrollMinReadyOriginalAnnotations d d previous) as [d1 err1] eqn:E1.
  assert (Hd1 : match err1 with
                | None => sameWork d d1 /\ dep_StrategyType d1 = dep_StrategyType d
                | Some _ => d1 = d
                end).
  { unfold enrollMinReadyOriginalAnnotations in E1. by repeat (case_match; simplify_eq/=). }
  destruct err1; intros [= <- <-]; [done|]. destruct Hd1 as [Hwork Htype1]. split; [done|].
  unfold ValidateInflatedDeploymentStrategy, ValidateDeploymentStrategyType, InflateDeploymentStrategy,
    setMaxUnavailable. simpl. by rewrite Htype1, Htype.
Qed.

Lemma enforce_spec d previous :
  HasMinReadyOriginalAnnotations (dep_Meta d) = true ->
  ValidateInflatedDeploymentStrategy (default d (changed (enforceMinReadyInflation d previous))) = None.
Proof.
  intros Hhas. unfold enforceMinReadyInflation, changed. rewrite Hhas. simpl.
  destruct (String.eqb (dep_StrategyType d) RollingUpdateDeploymentStrategyType) eqn:Et,
    (dep_Paused d) eqn:Ep, (dep_RollingUpdate d) eqn:Er; simpl; try done.
  destruct (bool_decide (dep_MinReadySeconds d = InflatedMinReadySeconds)) eqn:Em; simpl; [|done].
  destruct (bool_decide (dep_ProgressDeadlineSeconds d = Some InflatedProgressDeadlineSeconds)) eqn:Ed; simpl; [|done].
  unfold ValidateInflatedDeploymentStrategy, ValidateDeploymentStrategyType.
  apply bool_decide_eq_true in Em, Ed.
  by rewrite Et, Ep, Er, decide_False, decide_False by tauto.
Qed.
Lemma enforce_sameWork d previous : sameWork d (default d (changed (enforceMinReadyInflation d previous))).
Proof. unfold changed, enforceMinReadyInflation. by destruct (negb _); simpl; [|destruct (_ || _)]. Qed.

(** ** A Deployment in progress *)

(** How a Deployment stays under the control of the release that [rollout] makes. *)
Definition underRelease (rollout : Rollout) (newObj oldObj d : Deployment) : Prop :=
  if isMinReadySecondsStrategy rollout newObj then
    HasMinReadyOriginalAnnotations (dep_Meta newObj) = true -> ValidateInflatedDeploymentStrategy d = None
  else if isPartitionDeployment newObj then
    dep_Paused d = true /\ dep_StrategyType d <> RollingUpdateDeploymentStrategyType /\ dep_RollingUpdate d = None
  else if isBlueGreenDeployment newObj then
    (isEffectiveDeploymentRevisionChange oldObj newObj = true -> dep_Paused d = true)
    /\ (dep_StrategyType d = RollingUpdateDeploymentStrategyType \/ dep_StrategyType d = dep_StrategyType oldObj)
  else
    dep_Paused d = true
    /\ (dep_StrategyType d <> RecreateDeploymentStrategyType \/ dep_StrategyType d = dep_StrategyType oldObj).

Lemma holdDeployment_spec rollout newObj oldObj :
  let d := default newObj (holdDeployment rollout newObj oldObj) in
  sameWork newObj d /\ underRelease rollout newObj oldObj d.
Proof.
  simpl. unfold holdDeployment, underRelease. destruct (isMinReadySecondsStrategy rollout newObj).
  { destruct (isEffectiveDeploymentRevisionChange oldObj newObj);
      [|split; [apply enforce_sameWork|apply enforce_spec]].
    destruct (enrollMinReadyDeploymentWithPrevious newObj (Some oldObj)) as [d [err|]] eqn:E;
      apply enroll_spec in E as Hd; [subst d|by destruct Hd].
    split; [apply enforce_sameWork|apply enforce_spec]. }
  unfold changed.
  destruct (isPartitionDeployment newObj) eqn:Epart; [|destruct (isBlueGreenDeployment newObj) eqn:Ebg].
  - destruct (fst (holdPartition newObj oldObj)) eqn:Ef; simpl.
    + split; [done|]. split; [done|]. split; [|done].
      destruct (String.eqb_spec (dep_StrategyType newObj) RollingUpdateDeploymentStrategyType); [discriminate|done].
    + unfold holdPartition in Ef. simpl in Ef.
      apply orb_false_iff in Ef as [[[Hp Ht]%orb_false_iff Hr]%orb_false_iff _].
      apply negb_false_iff in Hp, Hr. apply bool_decide_eq_true in Hr. apply String.eqb_neq in Ht. done.
  - unfold holdBlueGreen. simpl. destruct (isEffectiveDeploymentRevisionChange oldObj newObj) eqn:Ec; simpl.
    all: destruct (String.eqb_spec (dep_StrategyType newObj) RollingUpdateDeploymentStrategyType) as [?|Hne]; simpl.
    all: split_and!; auto; try done.
  - unfold holdCanary. simpl. destruct (dep_Paused newObj) eqn:Ep; simpl.
    all: destruct (String.eqb_spec (dep_StrategyType newObj) RecreateDeploymentStrategyType) as [?|Hne]; simpl.
    all: split_and!; auto; try done.
Qed.

(** A Deployment in progress stays under control.  While a Deployment carries the mark
    of a release, an update of it that the webhook answers leaves, after the answer,
    template and replicas as the user wrote them, and the rest as the Rollout that refers
    to it needs it: with MinReadySeconds the inflated strategy, in partition style paused
    and without the rolling strategy of the native controller, in blue-green style rolling
    (or as it was) and paused at every new revision, otherwise paused and not recreated
    (or as it was).  The update is left alone when no Rollout refers to the Deployment. *)
Theorem deployment_held (newObj oldObj : Deployment) (w w' : W) (r : option Deployment)
    (Hbusy : annotation (dep_Meta newObj) InRolloutProgressingAnnotation <> ""%string)
    (Hrun : handleDeployment newObj oldObj w = (Ok r, w')) :
  let obj := withUID newObj oldObj in
  exists found, rolloutOf (ODeployment obj) (dep_Meta obj) w = (Ok found, w')
  /\ match found with
     | None => r = None
     | Some rollout =>
         sameWork newObj (default newObj r) /\ underRelease rollout obj oldObj (default obj r)
     end.
Proof.
  simpl. unfold handleDeployment in Hrun. apply bind_Ok_inv in Hrun as (found & w1 & Hfound & Hrun).
  exists found. destruct found as [rollout|]; [|by inv_run].
  unfold shouldSkipDeploymentRestart in Hrun. rewrite withUID_annotation in Hrun.
  rewrite (proj2 (String.eqb_neq _ _) Hbusy), andb_false_r in Hrun. simpl in Hrun.
  unfold nonempty in Hrun. rewrite (proj2 (String.eqb_neq _ _) Hbusy) in Hrun. simpl in Hrun.
  apply ret_Ok_inv in Hrun as [[= ->] ->]. split; [done|].
  destruct (holdDeployment_spec rollout (withUID newObj oldObj) oldObj) as [Hwork Hunder].
  split; [|exact Hunder]. pose proof (withUID_sameWork newObj oldObj) as Huid.
  destruct (holdDeployment rollout (withUID newObj oldObj) oldObj); simpl in *; [|apply sameWork_refl].
  by eapply sameWork_trans.
Qed.

(** ** A Deployment that enters a release *)

(** The new revision is one to release: it has replicas, an effective change that is not a
    mere restart, ReplicaSets, and only one of them if traffic is routed. *)
Definition entersRelease (rollout : Rollout) (rss : list ReplicaSet) (newObj oldObj : Deployment) : Prop :=
  shouldSkipDeploymentRestart oldObj newObj = false
  /\ dep_Replicas newObj <> Some 0
  /\ isEffectiveDeploymentRevisionChange oldObj newObj = true
  /\ rss <> []
  /\ (HasTrafficRoutings (ro_Strategy rollout) = Ok true -> len rss = 1).

(** How it is taken over. *)
Definition seized (rollout : Rollout) (newObj d : Deployment) : Prop :=
  sameWork newObj d
  /\ annotation (dep_Meta d) InRolloutProgressingAnnotation = stateOf rollout
  /\ if isMinReadySecondsStrategy rollout newObj
     then ValidateInflatedDeploymentStrategy d = None
          \/ exists labelled err, enrollMinReadyDeployment labelled = (labelled, Some err)
             /\ d = markProgressing rollout labelled
             /\ dep_Paused labelled = dep_Paused newObj
             /\ dep_StrategyType labelled = dep_StrategyType newObj
     else dep_Paused d = true.

Lemma markProgressing_spec rollout d :
  sameWork d (markProgressing rollout d)
  /\ annotation (dep_Meta (markProgressing rollout d)) InRolloutProgressingAnnotation = stateOf rollout
  /\ ValidateInflatedDeploymentStrategy (markProgressing rollout d) = ValidateInflatedDeploymentStrategy d
  /\ dep_Paused (markProgressing rollout d) = dep_Paused d.
Proof. split_and!; try done. unfold markProgressing. apply annotation_put. Qed.

Lemma seizeDeployment_spec rollout newObj stable :
  seized rollout newObj (seizeDeployment rollout (labelStable stable newObj)).
Proof.
  assert (Hl : sameWork newObj (labelStable stable newObj)
               /\ isMinReadySecondsStrategy rollout (labelStable stable newObj)
                  = isMinReadySecondsStrategy rollout newObj
               /\ dep_Paused (labelStable stable newObj) = dep_Paused newObj
               /\ dep_StrategyType (labelStable stable newObj) = dep_StrategyType newObj)
    by by destruct stable.
  destruct Hl as (Hwork & Hmode & Hpaused & Htype). revert Hwork Hmode Hpaused Htype.
  generalize (labelStable stable newObj) as d. intros d Hwork Hmode Hpaused Htype.
  unfold seized, seizeDeployment. rewrite Hmode.
  destruct (isMinReadySecondsStrategy rollout newObj) eqn:Em.
  - unfold enrollMinReadyDeployment.
    destruct (enrollMinReadyDeploymentWithPrevious d None) as [d' [err|]] eqn:Ee; simpl;
      pose proof (enroll_spec _ _ _ _ Ee) as Hd; simpl in Hd.
    + subst d'. destruct (markProgressing_spec rollout d) as (Hm & Ha & _).
      split; [by eapply sameWork_trans|]. split; [done|]. right. by exists d, err.
    + destruct Hd as [Hw Hi]. destruct (markProgressing_spec rollout d') as (Hm & Ha & Hv & _).
      split; [eauto using sameWork_trans|]. split; [done|]. left. exact (eq_trans Hv Hi).
  - destruct (markProgressing_spec rollout (d <| dep_Paused := true |>)) as (Hm & Ha & _ & Hp).
    split; [by eapply sameWork_trans; [exact Hwork|eapply sameWork_trans; [|exact Hm]]|]. done.
Qed.

Lemma enterDeployment_spec rollout newObj oldObj (w w' : W) r :
  shouldSkipDeploymentRestart oldObj newObj = false ->
  enterDeployment rollout newObj oldObj w = (Ok r, w') ->
  match r with
  | Some d => exists rss, GetReplicaSetsForDeployment newObj w = (Ok rss, w')
                /\ entersRelease rollout rss newObj oldObj /\ seized rollout newObj d
  | None => forall rss w1, GetReplicaSetsForDeployment newObj w = (Ok rss, w1) ->
              ~ entersRelease rollout rss newObj oldObj
  end.
Proof.
  intros Hskip Hrun. unfold enterDeployment in Hrun.
  case_decide as Hzero; [inv_run; unfold entersRelease; tauto|].
  destruct (isEffectiveDeploymentRevisionChange oldObj newObj) eqn:Ec; simpl in Hrun;
    [|inv_run; unfold entersRelease; intuition congruence].
  apply bind_Ok_inv in Hrun as (read & w1 & Hread & Hrun). apply catch_Ok_inv in Hread.
  destruct read as [[|rs rss]|err].
  1: { inv_run. intros rss w2 Hr (_ & _ & _ & Hne & _). rewrite Hread in Hr. congruence. }
  2: { inv_run. intros rss w2 Hr. by rewrite Hread in Hr. }
  apply bind_Ok_inv in Hrun as (routed & w2 & Hrouted & Hrun). apply lift_Ok_inv in Hrouted as [Hrouted ->].
  destruct (routed && negb (bool_decide (len (rs :: rss) = 1))) eqn:Ebad.
  { apply ret_Ok_inv in Hrun as [[= ->] ->]. intros rss' w2 Hr (_ & _ & _ & _ & Hone).
    apply andb_true_iff in Ebad as [-> Hmany]. apply negb_true_iff, bool_decide_eq_false in Hmany.
    rewrite Hread in Hr. injection Hr as <- <-. by apply Hmany, Hone. }
  apply bind_Ok_inv in Hrun as (pair & w2 & Hpair & Hrun). apply lift_Ok_inv in Hpair as [Hpair ->].
  apply ret_Ok_inv in Hrun as [[= ->] ->].
  exists (rs :: rss). split; [done|]. split; [|apply seizeDeployment_spec].
  unfold entersRelease. split_and!; try done. intros Hr. rewrite Hr in Hrouted. injection Hrouted as <-.
  simpl in Ebad. by apply negb_false_iff, bool_decide_eq_true in Ebad.
Qed.

(** C39. A Deployment enters a release.  An update of a Deployment without the mark of a
    release is answered with a modified one exactly when a Rollout refers to it and its
    new revision is one to release; the modified one has the template and the replicas
    the user wrote, is marked with that Rollout, and is paused, or, with MinReadySeconds,
    rolls with the inflated strategy under which no pod becomes available.  Only when
    that strategy is refused (the Deployment is not rolling, or what was saved cannot be
    read) is it marked and left to its own controller. *)
Theorem deployment_enters (newObj oldObj : Deployment) (w w' : W) (r : option Deployment)
    (Hidle : annotation (dep_Meta newObj) InRolloutProgressingAnnotation = ""%string)
    (Hrun : handleDeployment newObj oldObj w = (Ok r, w')) :
  let obj := withUID newObj oldObj in
  exists found w1, rolloutOf (ODeployment obj) (dep_Meta obj) w = (Ok found, w1)
  /\ match found, r with
     | Some rollout, Some d =>
         exists rss, GetReplicaSetsForDeployment obj w1 = (Ok rss, w')
           /\ entersRelease rollout rss obj oldObj /\ seized rollout obj d
     | Some rollout, None =>
         forall rss w2, GetReplicaSetsForDeployment obj w1 = (Ok rss, w2) -> ~ entersRelease rollout rss obj oldObj
     | None, _ => r = None
     end.
Proof.
  simpl. unfold handleDeployment in Hrun. apply bind_Ok_inv in Hrun as (found & w1 & Hfound & Hrun).
  exists found, w1. split; [done|]. destruct found as [rollout|]; [|by inv_run].
  rewrite withUID_annotation, Hidle in Hrun. simpl in Hrun.
  destruct (shouldSkipDeploymentRestart oldObj (withUID newObj oldObj)) eqn:Es.
  - inv_run. intros rss w2 _ [Hs _]. congruence.
  - apply enterDeployment_spec in Hrun; [|done]. by destruct r.
Qed.

(** ** The other kinds *)

Context `{!K8sLaws} `{!TreeLaws}.

Lemma SetStatefulSetPartition_spec o n :
  HoldsMap o ["spec"]%string = true ->
  NestedInt64 (SetStatefulSetPartition o n) ["spec"; "updateStrategy"; "rollingUpdate"; "partition"]%string
  = Ok (Some n).
Proof.
  intros Hspec. unfold SetStatefulSetPartition. rewrite Hspec. simpl.
  destruct (HoldsMap o ["spec"; "updateStrategy"]%string); simpl.
  - destruct (HoldsMap o ["spec"; "updateStrategy"; "rollingUpdate"]%string); simpl; [apply set_number|].
    apply (set_number_map o ["spec"; "updateStrategy"; "rollingUpdate"]%string).
  - apply (set_number_maps o ["spec"; "updateStrategy"]%string "rollingUpdate" "partition" n
             [("type", TString "RollingUpdate")]%string). set_solver.
Qed.

(** C40. The other workloads are frozen as they enter.  When the webhook answers an update
    of a CloneSet, a DaemonSet of either kind or a StatefulSet with a modified object, a
    Rollout refers to the workload, the object is marked with it, its template is the one
    the user wrote, and no pod may be updated: the partition of a CloneSet keeps all of
    its pods, whatever their number, that of a Kruise DaemonSet or a StatefulSet is the
    largest int16, and a native DaemonSet updates only pods that are deleted.  A Kruise
    DaemonSet without rolling update panics once a Rollout refers to it.  A native
    DaemonSet keeps the strategy it has at that moment as its original one, so that a
    second revision during a release records the strategy of the release. *)
Theorem workloads_frozen (w w' : W) :
  (forall newObj oldObj d, handleCloneSet newObj oldObj w = (Ok (Some d), w') ->
     exists rollout w1, rolloutOf (OCloneSet (withUID newObj oldObj)) (clone_Meta (withUID newObj oldObj)) w
                        = (Ok (Some rollout), w1)
     /\ annotation (clone_Meta d) InRolloutProgressingAnnotation = stateOf rollout
     /\ clone_Template d = clone_Template newObj
     /\ forall replicas, GetScaledValueFromIntOrPercent (clone_Partition d) replicas true = (replicas, None))
  /\ (forall newObj oldObj d, handleDaemonSet newObj oldObj w = (Ok (Some d), w') ->
     exists rollout, rolloutOf (OKruiseDaemonSet (withUID newObj oldObj)) (kds_Meta (withUID newObj oldObj)) w
                     = (Ok (Some rollout), w')
     /\ annotation (kds_Meta d) InRolloutProgressingAnnotation = stateOf rollout
     /\ kds_Template d = kds_Template newObj
     /\ (r ← kds_RollingUpdate d; dsru_Partition r) = Some MaxInt16)
  /\ (forall newObj oldObj rollout w1,
     revisionChanged (kds_Meta oldObj) (kds_Meta newObj) (kds_Template oldObj) (kds_Template newObj) = true ->
     rolloutOf (OKruiseDaemonSet (withUID newObj oldObj)) (kds_Meta (withUID newObj oldObj)) w
       = (Ok (Some rollout), w1) ->
     kds_RollingUpdate newObj = None -> handleDaemonSet newObj oldObj w = (Panic, w1))
  /\ (forall newObj oldObj d, handleNativeDaemonSet newObj oldObj w = (Ok (Some d), w') ->
     exists rollout, rolloutOf (ODaemonSet (withUID newObj oldObj)) (dst_Meta (withUID newObj oldObj)) w
                     = (Ok (Some rollout), w')
     /\ annotation (dst_Meta d) InRolloutProgressingAnnotation = stateOf rollout
     /\ dst_Template d = dst_Template newObj
     /\ dst_UpdateStrategyType d = "OnDelete"%string
     /\ annotation (dst_Meta d) DaemonSetOriginalUpdateStrategy = dst_UpdateStrategyType newObj)
  /\ (forall newObj oldObj d, handleStatefulSetLikeWorkload newObj oldObj w = (Ok (Some d), w') ->
     exists rollout, rolloutOf (OUnstructured newObj) (metaOf newObj) w = (Ok (Some rollout), w')
     /\ d = markProgressing rollout (SetStatefulSetPartition newObj MaxInt16)
     /\ (HoldsMap newObj ["spec"]%string = true ->
         NestedInt64 (SetStatefulSetPartition newObj MaxInt16)
           ["spec"; "updateStrategy"; "rollingUpdate"; "partition"]%string = Ok (Some MaxInt16))).
Proof.
  assert (Hclone : forall (o old : CloneSet), clone_Template (withUID o old) = clone_Template o)
    by (intros; unfold withUID; by destruct (nonempty _)).
  assert (Hkds : forall (o old : KruiseDaemonSet), kds_Template (withUID o old) = kds_Template o
            /\ kds_RollingUpdate (withUID o old) = kds_RollingUpdate o)
    by (intros; unfold withUID; by destruct (nonempty _)).
  assert (Hdst : forall (o old : DaemonSet), dst_Template (withUID o old) = dst_Template o
            /\ dst_UpdateStrategyType (withUID o old) = dst_UpdateStrategyType o)
    by (intros; unfold withUID; by destruct (nonempty _)).
  split; [|split; [|split; [|split]]].
  - intros newObj oldObj d Hrun. unfold handleCloneSet in Hrun. inv_run.
    eexists _, _. split; [done|]. split; [apply annotation_put|]. split; [apply Hclone|].
    intros replicas. exact (scaled_full replicas true).
  - intros newObj oldObj d Hrun. unfold handleDaemonSet in Hrun. inv_run.
    eexists. split; [done|]. split; [apply annotation_put|]. split; [apply Hkds|done].
  - intros newObj oldObj rollout w1 Hch Hfound Hnone. unfold handleDaemonSet. rewrite Hch. simpl.
    unfold bind at 1. rewrite Hfound. destruct (Hkds newObj oldObj) as [_ ->]. by rewrite Hnone.
  - intros newObj oldObj d Hrun. unfold handleNativeDaemonSet in Hrun. inv_run.
    eexists. split; [done|]. split; [apply annotation_put|]. split; [apply Hdst|]. split; [done|].
    simpl. unfold markProgressing. simpl. rewrite annotation_put_ne by done. rewrite annotation_put. apply Hdst.
  - intros newObj oldObj d Hrun. unfold handleStatefulSetLikeWorkload in Hrun. inv_run.
    eexists. split; [done|]. split; [done|]. apply SetStatefulSetPartition_spec.
Qed.
End properties.
