(* ===== verification/AdvancedDeployment.v ===== *)
(** * Arithmetic of advanced Deployments (pkg/controller/deployment/util/deployment_util.go)

    What the controller of advanced Deployments computes: which ReplicaSet is new and
    which are old, how many pods each may have, annotations and conditions.  The API
    server sets the replicas of Deployments and ReplicaSets, which are read here without
    a check, as in the code; a nil pointer, which panics there, is left out. *)

From S2P Require Export ControllerFinder MinReady.

Definition RevisionAnnotation : string := "deployment.kubernetes.io/revision".
Definition RevisionHistoryAnnotation : string := "deployment.kubernetes.io/revision-history".
Definition ReplicasAnnotation : string := "deployment.kubernetes.io/desired-replicas".
Definition MaxReplicasAnnotation : string := "deployment.kubernetes.io/max-replicas".
Definition MaxInt32 : Z := 2147483647.

Definition size (rs : ReplicaSet) : Z := default 0 (rs_Replicas rs).
Definition wanted (d : Deployment) : Z := default 0 (dep_Replicas d).
Definition rsName (rs : ReplicaSet) : string := Name (rs_Meta rs).

(** [append(oldRSs, newRS)]: all functions skip a new ReplicaSet that is nil. *)
Definition withNew (oldRSs : list ReplicaSet) (newRS : option ReplicaSet) : list ReplicaSet :=
  (oldRSs ++ option_list newRS)%list.

(** ** Counting *)

Definition sum32 (f : ReplicaSet -> Z) (rss : list ReplicaSet) : Z :=
  foldl (fun total rs => wrap32 (total + f rs)) 0 rss.
Definition GetReplicaCountForReplicaSets : list ReplicaSet -> Z := sum32 size.
Definition GetActualReplicaCountForReplicaSets : list ReplicaSet -> Z := sum32 rs_StatusReplicas.
Definition GetReadyReplicaCountForReplicaSets : list ReplicaSet -> Z := sum32 rs_ReadyReplicas.
Definition GetAvailableReplicaCountForReplicaSets : list ReplicaSet -> Z := sum32 rs_AvailableReplicas.

Definition FilterReplicaSets (rss : list ReplicaSet) (filterFn : ReplicaSet -> bool) : list ReplicaSet :=
  List.filter filterFn rss.
Definition FilterActiveReplicaSets (rss : list ReplicaSet) : list ReplicaSet :=
  filter (fun rs => 0 < size rs) rss.

(** ** Orders and revisions *)

Section order.
Context `{Strconv} `{SortLib}.

Definition byCreationTimestamp (a b : ReplicaSet) : bool :=
  if decide (CreationTimestamp (rs_Meta a) = CreationTimestamp (rs_Meta b))
  then stringLess (rsName a) (rsName b)
  else bool_decide (CreationTimestamp (rs_Meta a) < CreationTimestamp (rs_Meta b)).

(** Nothing when the annotation is no number; without one the revision is zero. *)
Definition Revision (rs : ReplicaSet) : option Z :=
  match default ∅ (Annotations (rs_Meta rs)) !! RevisionAnnotation with
  | None => Some 0
  | Some v => Atoi v
  end.

Definition bySmallerRevision (a b : ReplicaSet) : bool :=
  match Revision a, Revision b with
  | Some r1, Some r2 => if decide (r1 = r2) then byCreationTimestamp a b else bool_decide (r1 > r2)
  | _, _ => byCreationTimestamp a b
  end.
Definition byRevision (a b : ReplicaSet) : bool :=
  match Revision a, Revision b with
  | Some r1, Some r2 => if decide (r1 = r2) then byCreationTimestamp a b else bool_decide (r1 < r2)
  | _, _ => byCreationTimestamp a b
  end.
Definition bySizeOlder (a b : ReplicaSet) : bool :=
  if decide (size a = size b) then byCreationTimestamp a b else bool_decide (size a > size b).
Definition bySizeNewer (a b : ReplicaSet) : bool :=
  if decide (size a = size b) then byCreationTimestamp b a else bool_decide (size a > size b).

Definition MaxRevision (rss : list ReplicaSet) : Z :=
  foldl (fun m rs => match Revision rs with Some v => if decide (v > m) then v else m | None => m end) 0 rss.

Definition FindNewReplicaSet (d : Deployment) (rss : list ReplicaSet) : option ReplicaSet :=
  snd <$> list_find (fun rs => EqualIgnoreHash (rs_Template rs) (dep_Template d) = true)
    (sortSlice byCreationTimestamp rss).

(** The second list of [FindOldReplicaSets], the one that is used: all old ones.  The
    search has sorted the list it is given. *)
Definition FindOldReplicaSets (d : Deployment) (rss : list ReplicaSet) : list ReplicaSet :=
  filter (fun rs => (fun newRS => UID (rs_Meta newRS)) <$> FindNewReplicaSet d rss <> Some (UID (rs_Meta rs)))
    (sortSlice byCreationTimestamp rss).

(** The ReplicaSet to scale alone, and the old ones, which it leaves sorted. *)
Definition FindActiveOrLatest (newRS : option ReplicaSet) (oldRSs : list ReplicaSet)
    : option ReplicaSet * list ReplicaSet :=
  if bool_decide (newRS = None) && bool_decide (oldRSs = []) then (None, oldRSs) else
  let oldRSs := sortSlice (fun a b => byCreationTimestamp b a) oldRSs in
  (match FilterActiveReplicaSets (withNew oldRSs newRS) with
   | [] => match newRS with Some rs => Some rs | None => head oldRSs end
   | [rs] => Some rs
   | _ => None
   end, oldRSs).
End order.

(** ** Annotations of ReplicaSets *)

Definition getIntFromAnnotation `{Strconv} (rs : ReplicaSet) (key : string) : option Z :=
  v ← default ∅ (Annotations (rs_Meta rs)) !! key; wrap32 <$> Atoi v.
Definition GetReplicasAnnotation `{Strconv} (rs : ReplicaSet) : option Z :=
  getIntFromAnnotation rs ReplicasAnnotation.
Definition getMaxReplicasAnnotation `{Strconv} (rs : ReplicaSet) : option Z :=
  getIntFromAnnotation rs MaxReplicasAnnotation.

Definition rsAnnotate (annotations : gmap string string) (rs : ReplicaSet) : ReplicaSet :=
  rs <| rs_Meta := (rs_Meta rs) <| Annotations := Some annotations |> |>.

(** The annotated ReplicaSet, and whether that changed it. *)
Definition SetReplicasAnnotations (rs : ReplicaSet) (desiredReplicas maxReplicas : Z) : ReplicaSet * bool :=
  let annotations := default ∅ (Annotations (rs_Meta rs)) in
  (rsAnnotate (<[MaxReplicasAnnotation := itoa maxReplicas]>
                 (<[ReplicasAnnotation := itoa desiredReplicas]> annotations)) rs,
   negb (String.eqb (mapget annotations ReplicasAnnotation) (itoa desiredReplicas))
   || negb (String.eqb (mapget annotations MaxReplicasAnnotation) (itoa maxReplicas))).

Definition ReplicasAnnotationsNeedUpdate (rs : ReplicaSet) (desiredReplicas maxReplicas : Z) : bool :=
  match Annotations (rs_Meta rs) with
  | None => true
  | Some annotations =>
      negb (String.eqb (mapget annotations ReplicasAnnotation) (itoa desiredReplicas))
      || negb (String.eqb (mapget annotations MaxReplicasAnnotation) (itoa maxReplicas))
  end.

Definition annotationsToSkip : list string :=
  ["kubectl.kubernetes.io/last-applied-configuration"; RevisionAnnotation; RevisionHistoryAnnotation;
   ReplicasAnnotation; MaxReplicasAnnotation; "deprecated.deployment.rollback.to"]%string.

Definition copyDeploymentAnnotationsToReplicaSet (d : Deployment) (rs : ReplicaSet) : ReplicaSet * bool :=
  let annotations := default ∅ (Annotations (rs_Meta rs)) in
  let copied := filter (fun kv => kv.1 ∉ annotationsToSkip) (default ∅ (Annotations (dep_Meta d))) in
  (rsAnnotate (copied ∪ annotations) rs, negb (bool_decide (copied ⊆ annotations))).

(** [strings.Split(s, ",")] and [strings.Join(l, ",")] *)
Fixpoint splitComma (s : string) : list string :=
  match s with
  | EmptyString => [""%string]
  | String c rest =>
      if Nat.eqb (Ascii.nat_of_ascii c) 44 then ""%string :: splitComma rest
      else match splitComma rest with
           | [] => [String c EmptyString]
           | first :: more => String c first :: more
           end
  end.
Fixpoint joinComma (l : list string) : string :=
  match l with
  | [] => ""
  | [s] => s
  | s :: rest => s +:+ "," +:+ joinComma rest
  end%string.

Definition strlen (s : string) : Z := Z.of_nat (String.length s).

(** Drop the oldest revisions until the rest and a new one fit; the length they have. *)
Fixpoint dropRevisions (limit totalLen : Z) (revisions : list string) : list string * Z :=
  match revisions with
  | [] => ([], totalLen)
  | first :: rest =>
      if decide (totalLen > limit) then dropRevisions limit (totalLen - strlen first - 1) rest
      else (revisions, totalLen)
  end.

Definition appendRevision (limit : Z) (history oldRevision : string) : option string :=
  let oldRevisions := splitComma history in
  if decide (strlen (default ""%string (head oldRevisions)) = 0) then Some oldRevision else
  let '(kept, totalLen) := dropRevisions limit (strlen history + strlen oldRevision + 1) oldRevisions in
  if decide (totalLen <= limit) then Some (joinComma (kept ++ [oldRevision])) else None.

Definition maxRevHistoryLengthInChars : Z := 2000.

(** ** Conditions *)

#[export] Instance DeploymentCondition_eq_dec : EqDecision DeploymentCondition.
Proof. solve_decision. Defined.
#[export] Instance DeploymentStatus_eq_dec : EqDecision DeploymentStatus.
Proof. solve_decision. Defined.

Definition DeploymentAvailable : string := "Available".
Definition DeploymentProgressingType : string := "Progressing".
Definition DeploymentReplicaFailure : string := "ReplicaFailure".
Definition ReplicaSetUpdatedReason : string := "ReplicaSetUpdated".
Definition FailedRSCreateReason : string := "ReplicaSetCreateError".
Definition NewReplicaSetReason : string := "NewReplicaSetCreated".
Definition FoundNewRSReason : string := "FoundNewReplicaSet".
Definition NewRSAvailableReason : string := "NewReplicaSetAvailable".
Definition TimedOutReason : string := "ProgressDeadlineExceeded".
Definition MinimumReplicasAvailable : string := "MinimumReplicasAvailable".
Definition MinimumReplicasUnavailable : string := "MinimumReplicasUnavailable".

Definition NewDeploymentCondition {W} `{Clock W} (condType : string) (status : ConditionStatus)
    (reason message : string) : M W DeploymentCondition :=
  t1 <- time_Now ;;
  t2 <- time_Now ;;
  ret (mkDeploymentCondition condType status t1 t2 reason message).

Definition GetDeploymentCondition (status : DeploymentStatus) (condType : string) : option DeploymentCondition :=
  snd <$> list_find (fun c => dc_Type c = condType) (ds_Conditions status).

Definition filterOutCondition (conditions : list DeploymentCondition) (condType : string)
    : list DeploymentCondition := filter (fun c => dc_Type c <> condType) conditions.

Definition SetDeploymentCondition (status : DeploymentStatus) (condition : DeploymentCondition)
    : DeploymentStatus :=
  let add condition := status <| ds_Conditions :=
    (filterOutCondition (ds_Conditions status) (dc_Type condition) ++ [condition])%list |> in
  match GetDeploymentCondition status (dc_Type condition) with
  | None => add condition
  | Some current =>
      if decide (dc_Status current = dc_Status condition) then
        if String.eqb (dc_Reason current) (dc_Reason condition) then status
        else add (condition <| dc_LastTransitionTime := dc_LastTransitionTime current |>)
      else add condition
  end.
Definition RemoveDeploymentCondition (status : DeploymentStatus) (condType : string) : DeploymentStatus :=
  status <| ds_Conditions := filterOutCondition (ds_Conditions status) condType |>.

Definition SetDeploymentRevision (d : Deployment) (revision : string) : Deployment * bool :=
  (setDepAnnotation RevisionAnnotation revision d,
   negb (String.eqb (annotation (dep_Meta d) RevisionAnnotation) revision)).

Definition HasRevisionHistoryLimit (d : Deployment) : bool :=
  match dep_RevisionHistoryLimit d with Some n => negb (bool_decide (n = MaxInt32)) | None => false end.
Definition HasProgressDeadline (d : Deployment) : bool :=
  match dep_ProgressDeadlineSeconds d with
  | None => false
  | Some seconds => negb (bool_decide (seconds = MaxInt32))
  end.

Definition DeploymentComplete (d : Deployment) (newStatus : DeploymentStatus) : bool :=
  bool_decide (ds_UpdatedReplicas newStatus = wanted d) && bool_decide (ds_Replicas newStatus = wanted d)
  && bool_decide (ds_AvailableReplicas newStatus = wanted d)
  && bool_decide (Generation (dep_Meta d) <= ds_ObservedGeneration newStatus).

Definition DeploymentProgressing (d : Deployment) (newStatus : DeploymentStatus) : bool :=
  let oldStatus := dep_Status d in
  bool_decide (ds_UpdatedReplicas newStatus > ds_UpdatedReplicas oldStatus)
  || bool_decide (wrap32 (ds_Replicas newStatus - ds_UpdatedReplicas newStatus)
                  < wrap32 (ds_Replicas oldStatus - ds_UpdatedReplicas oldStatus))
  || bool_decide (ds_ReadyReplicas newStatus > ds_ReadyReplicas oldStatus)
  || bool_decide (ds_AvailableReplicas newStatus > ds_AvailableReplicas oldStatus).

(** The clock is read only when the deadline matters. *)
Definition DeploymentTimedOut {W} `{Clock W} (d : Deployment) (newStatus : DeploymentStatus) : M W bool :=
  match dep_ProgressDeadlineSeconds d, GetDeploymentCondition newStatus DeploymentProgressingType with
  | Some seconds, Some condition =>
      if negb (HasProgressDeadline d) then ret false
      else if String.eqb (dc_Reason condition) NewRSAvailableReason then ret false
      else if String.eqb (dc_Reason condition) TimedOutReason then ret true
      else
        now <- time_Now ;;
        ret (bool_decide (dc_LastUpdateTime condition + seconds * Second < now))
  | _, _ => ret false
  end.

(** ** How many pods *)

(** What [int32] of a float is that does not fit: Go leaves it to the machine. *)
Class FloatOverflow := overflowInt32 : Z -> Z.

(** [RoundToInt32(float64(a) / float64(b))]: the numbers are small enough for the floats
    to round as the exact quotient does, halves away from zero. *)
Definition roundQuotient `{FloatOverflow} (a b : Z) : Z :=
  if decide (b = 0) then overflowInt32 a
  else
    let q := Z.sgn a * Z.sgn b * ((2 * Z.abs a + Z.abs b) / (2 * Z.abs b)) in
    if decide (in32 q) then q else overflowInt32 a.

Section numbers.
Context `{K8sLib} `{Strconv}.
Variable strategy : DeploymentStrategy.

(** The code has a second copy of the function of pkg/util. *)
Definition ResolveFenceposts : option IntOrString -> option IntOrString -> Z -> res (Z * Z) := resolveFenceposts.

(** Both fenceposts; an error reads as zeros. *)
Definition fenceposts (d : Deployment) : option (Z * Z) :=
  ru ← dstr_RollingUpdate strategy;
  Some (match ResolveFenceposts (ru_MaxSurge ru) (ru_MaxUnavailable ru) (wanted d) with
        | Ok posts => posts
        | _ => (0, 0)
        end).

Definition MaxUnavailable (d : Deployment) : Z :=
  if decide (wanted d = 0) then 0 else
  match fenceposts d with
  | None => 0
  | Some (_, maxUnavailable) => if decide (maxUnavailable > wanted d) then wanted d else maxUnavailable
  end.
Definition MinAvailable (d : Deployment) : Z :=
  match dstr_RollingUpdate strategy with
  | None => 0
  | Some _ => wrap32 (wanted d - MaxUnavailable d)
  end.
Definition MaxSurge (d : Deployment) : Z :=
  match fenceposts d with None => 0 | Some (maxSurge, _) => maxSurge end.

Definition limitOf (d : Deployment) : Z := replicasLimit (dstr_Partition strategy) (wanted d).

Definition getReplicaSetFraction `{FloatOverflow} (rs : ReplicaSet) (d : Deployment) : Z :=
  if decide (wanted d = 0) then wrap32 (- size rs) else
  let deploymentReplicas := wrap32 (wanted d + MaxSurge d) in
  let annotatedReplicas := default (ds_Replicas (dep_Status d)) (getMaxReplicasAnnotation rs) in
  wrap32 (roundQuotient (wrap32 (size rs * deploymentReplicas)) annotatedReplicas - size rs).

Definition GetProportion `{FloatOverflow} (rs : ReplicaSet) (d : Deployment)
    (deploymentReplicasToAdd deploymentReplicasAdded : Z) : Z :=
  if bool_decide (size rs = 0) || bool_decide (deploymentReplicasToAdd = 0)
     || bool_decide (deploymentReplicasToAdd = deploymentReplicasAdded) then 0 else
  let rsFraction := getReplicaSetFraction rs d in
  let allowed := wrap32 (deploymentReplicasToAdd - deploymentReplicasAdded) in
  if decide (deploymentReplicasToAdd > 0) then Z.min rsFraction allowed else Z.max rsFraction allowed.

Definition NewRSNewReplicas (d : Deployment) (allRSs : list ReplicaSet) (newRS : ReplicaSet) : Z :=
  let currentPodCount := GetReplicaCountForReplicaSets allRSs in
  if decide (currentPodCount > size newRS) then
    let scaleUpLimit := limitOf d in
    if decide (size newRS >= scaleUpLimit) then size newRS else
    let maxTotalPods := wrap32 (wanted d + MaxSurge d) in
    if decide (currentPodCount >= maxTotalPods) then size newRS else
    let scaleUpCount := wrap32 (Z.min (wrap32 (maxTotalPods - currentPodCount)) (wrap32 (wanted d - size newRS))) in
    Z.min (wrap32 (size newRS + scaleUpCount)) scaleUpLimit
  else wanted d.

Definition NewRSReplicasLowerBound (d : Deployment) : Z :=
  if decide (MaxSurge d > 0) then 0 else Z.min 1 (wanted d).

Definition IsSaturated (d : Deployment) (rs : option ReplicaSet) : bool :=
  match rs with
  | None => false
  | Some rs =>
      match Atoi (annotation (rs_Meta rs) ReplicasAnnotation) with
      | None => false
      | Some desired => bool_decide (size rs = wanted d) && bool_decide (wrap32 desired = wanted d)
                        && bool_decide (rs_AvailableReplicas rs = wanted d)
      end
  end.

Definition ScaleDownLimitForOld (oldRSs : list ReplicaSet) (newRS : ReplicaSet) (d : Deployment) : Z :=
  let newRSDesiredCount := Z.max (limitOf d) (size newRS) in
  let oldRSDesiredCount := wrap32 (wanted d - newRSDesiredCount) in
  wrap32 (GetReplicaCountForReplicaSets oldRSs - oldRSDesiredCount).

(** The new ReplicaSet with the annotations of the Deployment and its revision, and
    whether they changed.  A revision that is no number stops the work. *)
Definition SetNewReplicaSetAnnotations (d : Deployment) (newRS : ReplicaSet) (newRevision : string)
    (isExisting : bool) : ReplicaSet * bool :=
  let '(newRS, copied) := copyDeploymentAnnotationsToReplicaSet d newRS in
  let annotations := default ∅ (Annotations (rs_Meta newRS)) in
  let old := annotations !! RevisionAnnotation in
  let oldRevision := default ""%string old in
  match (if String.eqb oldRevision "" then Some 0 else Atoi oldRevision), Atoi newRevision with
  | None, _ | _, None => (newRS, false)
  | Some oldRevisionInt, Some newRevisionInt =>
      let newer := bool_decide (oldRevisionInt < newRevisionInt) in
      let annotations := if newer then <[RevisionAnnotation := newRevision]> annotations else annotations in
      let annotations :=
        if bool_decide (is_Some old) && newer then
          match appendRevision maxRevHistoryLengthInChars (mapget annotations RevisionHistoryAnnotation)
                  oldRevision with
          | Some history => <[RevisionHistoryAnnotation := history]> annotations
          | None => annotations
          end
        else annotations in
      let newRS := rsAnnotate annotations newRS in
      if isExisting then (newRS, copied || newer) else
      let '(newRS, sized) := SetReplicasAnnotations newRS (wanted d) (wrap32 (wanted d + MaxSurge d)) in
      (newRS, copied || newer || sized)
  end.

(** What is missing for the partition to be satisfied, if anything. *)
Definition DeploymentRolloutSatisfied (d : Deployment) : option string :=
  let status := dep_Status d in
  if decide (ds_ObservedGeneration status < Generation (dep_Meta d)) then Some "observed generation"%string
  else if decide (ds_Replicas status <> wanted d) then Some "status replicas"%string
  else if decide (ds_UpdatedReplicas status < limitOf d) then Some "updated replicas"%string
  else None.
End numbers.

(** ** What belongs to a Deployment *)

Section owned.
Context {W : Type} `{MetaLib}.

(** [metav1.IsControlledBy] *)
Definition IsControlledBy (object : ObjectMeta) (owner : ObjectMeta) : bool :=
  match GetControllerOf object with Some ref => String.eqb (or_UID ref) (UID owner) | None => false end.

Definition ListReplicaSets (d : Deployment)
    (getRSList : string -> (gmap string string -> bool) -> M W (list ReplicaSet)) : M W (list ReplicaSet) :=
  selector <- lift (LabelSelectorAsSelector (dep_Selector d)) ;;
  all <- getRSList (Namespace (dep_Meta d)) selector ;;
  ret (List.filter (fun rs => IsControlledBy (rs_Meta rs) (dep_Meta d)) all).

Definition ListPods (d : Deployment) (rsList : list ReplicaSet)
    (getPodList : string -> (gmap string string -> bool) -> M W (list Pod)) : M W (list Pod) :=
  selector <- lift (LabelSelectorAsSelector (dep_Selector d)) ;;
  all <- getPodList (Namespace (dep_Meta d)) selector ;;
  let rsMap := list_to_set (C := gset string) (map (fun rs => UID (rs_Meta rs)) rsList) in
  ret (List.filter (fun pod => match GetControllerOf (pod_Meta pod) with
                               | Some controllerRef => bool_decide (or_UID controllerRef ∈ rsMap)
                               | None => false
                               end) all).
Definition PodKey (pod : Pod) : string := (Namespace (pod_Meta pod) +:+ "/" +:+ Name (pod_Meta pod))%string.

(** A pod of the Deployment has a ReplicaSet of it above, which the Deployment controls. *)
Lemma ListPods_owned d getRSList getPodList rsList pods (w0 w1 w2 w3 : W) pod :
  ListReplicaSets d getRSList w0 = (Ok rsList, w1) -> ListPods d rsList getPodList w2 = (Ok pods, w3) -> pod ∈ pods ->
  exists ref rs owner, GetControllerOf (pod_Meta pod) = Some ref /\ rs ∈ rsList /\ UID (rs_Meta rs) = or_UID ref
    /\ GetControllerOf (rs_Meta rs) = Some owner /\ or_UID owner = UID (dep_Meta d).
Proof.
  unfold ListReplicaSets, ListPods. intros Hrs Hpods Hin.
  apply bind_Ok_inv in Hrs as (sel1 & ? & _ & Hrs). apply bind_Ok_inv in Hrs as (all1 & ? & _ & Hrs).
  apply ret_Ok_inv in Hrs as [-> _]. apply bind_Ok_inv in Hpods as (sel2 & ? & _ & Hpods).
  apply bind_Ok_inv in Hpods as (all2 & ? & _ & Hpods). apply ret_Ok_inv in Hpods as [-> _].
  apply list_elem_of_In, filter_In in Hin as [_ Hin]. destruct (GetControllerOf (pod_Meta pod)) as [ref|]; [|done].
  apply bool_decide_eq_true, elem_of_list_to_set, list_elem_of_In, in_map_iff in Hin as (rs & Huid & Hrs).
  apply filter_In in Hrs as [Hrs Hc]. unfold IsControlledBy in Hc.
  destruct (GetControllerOf (rs_Meta rs)) as [owner|] eqn:Ho; [|done]. apply String.eqb_eq in Hc.
  exists ref, rs, owner. split_and!; try done. apply list_elem_of_In, filter_In. split; [done|].
  unfold IsControlledBy. rewrite Ho. by apply String.eqb_eq.
Qed.
End owned.
