(* ===== verification/LabelUtil.v ===== *)
(** * Labels (pkg/util/labels)

    Adding labels to maps and to selectors.  A function that clones returns a new object;
    [AddLabel] and [AddLabelToSelector] assign into the one they are given. *)

From S2P Require Export Workloads.

(** A nil map is [None]; without a key to add the argument itself is returned. *)
Definition CloneAndAddLabel (labels : option (gmap string string)) (labelKey labelValue : string)
    : option (gmap string string) :=
  if String.eqb labelKey "" then labels else Some (<[labelKey := labelValue]> (default ∅ labels)).

Definition CloneAndRemoveLabel (labels : option (gmap string string)) (labelKey : string)
    : option (gmap string string) :=
  if String.eqb labelKey "" then labels else Some (delete labelKey (default ∅ labels)).

Definition AddLabel (labels : option (gmap string string)) (labelKey labelValue : string)
    : option (gmap string string) :=
  if String.eqb labelKey "" then labels else
  let labels := match labels with Some labels => labels | None => ∅ end in
  Some (<[labelKey := labelValue]> labels).

(** A nil selector is dereferenced. *)
Definition CloneSelectorAndAddLabel (selector : option LabelSelector) (labelKey labelValue : string)
    : res (option LabelSelector) :=
  if String.eqb labelKey "" then Ok selector else
  res_map (fun s => Some (mkLabelSelector (<[labelKey := labelValue]> (MatchLabels s)) (MatchExpressions s)))
    (deref selector).

Definition AddLabelToSelector (selector : option LabelSelector) (labelKey labelValue : string)
    : res (option LabelSelector) :=
  if String.eqb labelKey "" then Ok selector else
  res_map (fun s => Some (mkLabelSelector (<[labelKey := labelValue]> (MatchLabels s)) (MatchExpressions s)))
    (deref selector).

Definition SelectorHasLabel (selector : option LabelSelector) (labelKey : string) : res bool :=
  res_map (fun s => nonempty (mapget (MatchLabels s) labelKey)) (deref selector).
