(* ===== verification/AdvancedController.v ===== *)
(** * The controller of advanced Deployments (pkg/controller/deployment)

    deployment_controller.go, rolling.go, sync.go, progress.go and [Reconcile] of
    controller.go: a Deployment whose native controller is kept away by the strategy
    [Recreate] and a pause is rolled by this one, within a partition.  The Deployment is
    a copy that the operations change in place, the state beside the world.  Start-up,
    watches and events are not modelled. *)

From S2P Require Export LabelUtil AdvancedDeployment.

(** The metadata of the MutatingWebhookConfiguration. *)
Class WebhookMeta (W : Type) := getWebhookMeta : M W ObjectMeta.
(** [errors.HasStatusCause(err, v1.NamespaceTerminatingCause)] *)
Class NamespaceTerminating := isNamespaceTerminating : goerror -> bool.
(** Whether a slice that was built by appending so many elements, one at a time, has room
    for one more, so that appending to it writes into the same array. *)
Class SliceRoom := hasRoom : nat -> bool.

Section controller.
Context {W : Type} `{Clock W} `{Api W Deployment} `{Api W ReplicaSet} `{MergeFromApi W ReplicaSet}
  `{PatchDiff W Deployment} `{ListApi W ReplicaSet} `{WebhookMeta W}.
Context `{K8sLib} `{MetaLib} `{SortLib} `{Strconv} `{TemplateHash} `{FloatOverflow} `{NamespaceTerminating}
  `{SliceRoom} `{Json DeploymentStrategy} `{Json DeploymentExtraStatus}.
Abbreviation MD := (M (Deployment * W)).

(** [dc.strategy] *)
Section strategy.
Variable strategy : DeploymentStrategy.

(** ** Scaling one ReplicaSet (sync.go) *)

(** Whether its size changed, and the ReplicaSet as it is now. *)
Definition scaleReplicaSet (rs : ReplicaSet) (newScale : Z) : MD (bool * ReplicaSet) :=
  d <- getC ;;
  let sizeNeedsUpdate := negb (bool_decide (size rs = newScale)) in
  let maxReplicas := wrap32 (wanted d + MaxSurge strategy d) in
  if sizeNeedsUpdate || ReplicasAnnotationsNeedUpdate rs (wanted d) maxReplicas then
    rs' <- inWorld (api_MergeFrom rs (fst (SetReplicasAnnotations (rs <| rs_Replicas := Some newScale |>)
                                             (wanted d) maxReplicas))) ;;
    ret (sizeNeedsUpdate, rs')
  else ret (false, rs).

Definition scaleReplicaSetAndRecordEvent (rs : ReplicaSet) (newScale : Z) : MD (bool * ReplicaSet) :=
  if decide (size rs = newScale) then ret (false, rs) else scaleReplicaSet rs newScale.

(** ** The new ReplicaSet (sync.go) *)

(** [d.Status = ...] and [d.Annotations[...] = ...], then the update of the status. *)
Definition setStatus (f : DeploymentStatus -> DeploymentStatus) : MD unit :=
  modC (fun d => d <| dep_Status := f (dep_Status d) |>).
Definition setRevision (revision : string) : MD bool :=
  d <- getC ;;
  let '(d', updated) := SetDeploymentRevision d revision in
  modC (fun _ => d') ;; ret updated.
Definition updateStatus : MD unit := d <- getC ;; inWorld (api_UpdateStatus d).
(** The error is logged only. *)
Definition tryUpdateStatus : MD unit := catch updateStatus ;; ret tt.
Definition setProgressing (status : ConditionStatus) (reason message : string) : MD unit :=
  condition <- inWorld (NewDeploymentCondition DeploymentProgressingType status reason message) ;;
  setStatus (fun s => SetDeploymentCondition s condition).

Definition adoptReplicaSet (existing : ReplicaSet) (newRevision : string) : MD ReplicaSet :=
  d <- getC ;;
  let '(rsCopy, annotationsUpdated) := SetNewReplicaSetAnnotations strategy d existing newRevision true in
  let readyNeedsUpdate := negb (bool_decide (rs_MinReadySeconds rsCopy = dep_MinReadySeconds d)) in
  if annotationsUpdated || readyNeedsUpdate then
    inWorld (api_MergeFrom existing (rsCopy <| rs_MinReadySeconds := dep_MinReadySeconds d |>))
  else
    needsUpdate <- setRevision (annotation (rs_Meta rsCopy) RevisionAnnotation) ;;
    d <- getC ;;
    let unseen := HasProgressDeadline d
                  && bool_decide (GetDeploymentCondition (dep_Status d) DeploymentProgressingType = None) in
    (if unseen then setProgressing ConditionTrue FoundNewRSReason
                      ("Found new replica set " +:+ rsName rsCopy)
     else ret tt) ;;
    (if needsUpdate || unseen then updateStatus else ret tt) ;;
    ret rsCopy.

(** The ReplicaSet to create, without pods and annotations. *)
Definition emptyReplicaSetOf (d : Deployment) : res ReplicaSet :=
  let hash := ComputeHash (dep_Template d) (ds_CollisionCount (dep_Status d)) in
  let labels := CloneAndAddLabel (tmpl_Labels (dep_Template d)) DefaultDeploymentUniqueLabelKey hash in
  res_map (fun newRSSelector =>
    mkReplicaSet
      (emptyMeta <| Name := (Name (dep_Meta d) +:+ "-" +:+ hash)%string |> <| Namespace := Namespace (dep_Meta d) |>
         <| OwnerReferences := [NewControllerRef (dep_Meta d) "apps/v1" "Deployment"] |>
         <| Labels := default ∅ labels |>)
      (Some 0) (dep_MinReadySeconds d) newRSSelector ((dep_Template d) <| tmpl_Labels := labels |>) 0 0 0 [])
    (CloneSelectorAndAddLabel (dep_Selector d) DefaultDeploymentUniqueLabelKey hash).

Definition newReplicaSetOf (d : Deployment) (oldRSs : list ReplicaSet) (newRevision : string) : res ReplicaSet :=
  res_map (fun newRS =>
    let newReplicasCount := NewRSNewReplicas strategy d (withNew oldRSs (Some newRS)) newRS in
    fst (SetNewReplicaSetAnnotations strategy d
           (newRS <| rs_Replicas := Some (Z.max newReplicasCount (NewRSReplicasLowerBound strategy d)) |>)
           newRevision false))
    (emptyReplicaSetOf d).

Definition isNewReplicaSetOf (d : Deployment) (rs : ReplicaSet) : bool :=
  bool_decide (or_UID <$> GetControllerOf (rs_Meta rs) = Some (UID (dep_Meta d)))
  && EqualIgnoreHash (dep_Template d) (rs_Template rs).

(** After the ReplicaSet exists: revision and condition of the Deployment.  A failed
    update of the status is the error of the whole. *)
Definition recordCreated (createdRS : ReplicaSet) (newRevision : string) (alreadyExists : bool) : MD ReplicaSet :=
  needsUpdate <- setRevision newRevision ;;
  d <- getC ;;
  let created := negb alreadyExists && HasProgressDeadline d in
  (if created then setProgressing ConditionTrue NewReplicaSetReason
                     ("Created new replica set " +:+ rsName createdRS)
   else ret tt) ;;
  (if needsUpdate || created then updateStatus else ret tt) ;;
  ret createdRS.

Definition createReplicaSet (oldRSs : list ReplicaSet) (newRevision : string) : MD ReplicaSet :=
  d <- getC ;;
  newRS <- lift (newReplicaSetOf d oldRSs newRevision) ;;
  r <- catch (inWorld (api_Create newRS)) ;;
  match r with
  | inl _ => recordCreated newRS newRevision false
  | inr err =>
      if IsAlreadyExists err then
        rs <- inWorld (api_Get (O := ReplicaSet) (keyOf (rs_Meta newRS))) ;;
        if isNewReplicaSetOf d rs then recordCreated rs newRevision true else
        setStatus (fun s => s <| ds_CollisionCount := Some (wrap32 (default 0 (ds_CollisionCount s) + 1)) |>) ;;
        tryUpdateStatus ;;
        fail err
      else if isNamespaceTerminating err then fail err
      else
        (if HasProgressDeadline d then
           setProgressing ConditionFalse FailedRSCreateReason
             ("Failed to create new replica set " +:+ rsName newRS) ;;
           tryUpdateStatus
         else ret tt) ;;
        fail err
  end.

Definition getNewReplicaSet (rsList oldRSs : list ReplicaSet) (createIfNotExisted : bool)
    : MD (option ReplicaSet) :=
  d <- getC ;;
  let newRevision := itoa (MaxRevision oldRSs + 1) in
  match FindNewReplicaSet d rsList with
  | Some existing => rs <- adoptReplicaSet existing newRevision ;; ret (Some rs)
  | None =>
      if createIfNotExisted then rs <- createReplicaSet oldRSs newRevision ;; ret (Some rs) else ret None
  end.

Definition getAllReplicaSetsAndSyncRevision (rsList : list ReplicaSet) (createIfNotExisted : bool)
    : MD (option ReplicaSet * list ReplicaSet) :=
  d <- getC ;;
  let oldRSs := FindOldReplicaSets d rsList in
  newRS <- getNewReplicaSet rsList oldRSs createIfNotExisted ;;
  ret (newRS, oldRSs).

(** ** Rolling (rolling.go) *)

Definition reconcileNewReplicaSet (allRSs : list ReplicaSet) (newRS : ReplicaSet) : MD bool :=
  d <- getC ;;
  if decide (size newRS = wanted d) then ret false else
  scaled <- scaleReplicaSetAndRecordEvent newRS
              (if decide (size newRS > wanted d) then wanted d else NewRSNewReplicas strategy d allRSs newRS) ;;
  ret (fst scaled).

Definition invalidScale (what : string) (rs : ReplicaSet) : goerror :=
  ErrOther ("when " +:+ what +:+ ", got invalid request to scale down " +:+ rsName rs)%string.

(** The loop over the sorted old ReplicaSets. *)
Fixpoint cleanupLoop (maxCleanupCount totalScaledDown : Z) (oldRSs : list ReplicaSet)
    : MD (list ReplicaSet * Z) :=
  match oldRSs with
  | [] => ret ([], totalScaledDown)
  | targetRS :: rest =>
      if decide (totalScaledDown >= maxCleanupCount) then ret (oldRSs, totalScaledDown) else
      if bool_decide (size targetRS = 0) || bool_decide (size targetRS = rs_AvailableReplicas targetRS) then
        r <- cleanupLoop maxCleanupCount totalScaledDown rest ;; ret (targetRS :: fst r, snd r)
      else
        let scaledDownCount := Z.min (wrap32 (maxCleanupCount - totalScaledDown))
                                 (wrap32 (size targetRS - rs_AvailableReplicas targetRS)) in
        let newReplicasCount := wrap32 (size targetRS - scaledDownCount) in
        if decide (newReplicasCount > size targetRS) then
          fail (invalidScale "cleaning up unhealthy replicas" targetRS) else
        updated <- scaleReplicaSetAndRecordEvent targetRS newReplicasCount ;;
        r <- cleanupLoop maxCleanupCount (wrap32 (totalScaledDown + scaledDownCount)) rest ;;
        ret (snd updated :: fst r, snd r)
  end.
Definition cleanupUnhealthyReplicas (oldRSs : list ReplicaSet) (maxCleanupCount : Z)
    : MD (list ReplicaSet * Z) :=
  cleanupLoop maxCleanupCount 0 (sortSlice byCreationTimestamp oldRSs).

Fixpoint scaleDownLoop (totalScaleDownCount totalScaledDown : Z) (oldRSs : list ReplicaSet) : MD Z :=
  match oldRSs with
  | [] => ret totalScaledDown
  | targetRS :: rest =>
      if decide (totalScaledDown >= totalScaleDownCount) then ret totalScaledDown else
      if decide (size targetRS = 0) then scaleDownLoop totalScaleDownCount totalScaledDown rest else
      let scaleDownCount := wrap32 (Z.min (size targetRS) (wrap32 (totalScaleDownCount - totalScaledDown))) in
      let newReplicasCount := wrap32 (size targetRS - scaleDownCount) in
      if decide (newReplicasCount > size targetRS) then fail (invalidScale "scaling down old RS" targetRS) else
      scaleReplicaSetAndRecordEvent targetRS newReplicasCount ;;
      scaleDownLoop totalScaleDownCount (wrap32 (totalScaledDown + scaleDownCount)) rest
  end.

(** The slice of the old ReplicaSets, after the search for the new one has sorted the
    slice of all.  When the two share an array, the old ones are now the first of all. *)
Definition viewAfterSearch (oldRSs : list ReplicaSet) (newRS : ReplicaSet) : list ReplicaSet :=
  let oldRSs := sortSlice bySmallerRevision oldRSs in
  if hasRoom (length oldRSs)
  then take (length oldRSs) (sortSlice byCreationTimestamp (withNew oldRSs (Some newRS)))
  else oldRSs.

(** [allRSs] is [append(oldRSs, newRS)]. *)
Definition scaleDownOldReplicaSetsForRollingUpdate (oldRSs : list ReplicaSet) (newRS : ReplicaSet) : MD Z :=
  d <- getC ;;
  let minAvailable := wrap32 (wanted d - MaxUnavailable strategy d) in
  let availablePodCount := GetAvailableReplicaCountForReplicaSets (withNew oldRSs (Some newRS)) in
  if decide (availablePodCount <= minAvailable) then ret 0 else
  found <- lift (deref (FindNewReplicaSet d (withNew oldRSs (Some newRS)))) ;;
  let oldRSs := viewAfterSearch oldRSs newRS in
  scaleDownLoop (Z.min (wrap32 (availablePodCount - minAvailable))
                   (ScaleDownLimitForOld strategy oldRSs found d)) 0 oldRSs.

Definition scaleUpOldReplicaSets (oldRSs : list ReplicaSet) (scaledUpCount : Z) : MD bool :=
  if decide (scaledUpCount <= 0) then ret false else
  match sortSlice bySizeOlder oldRSs with
  | [] => ret false
  | rs :: _ =>
      scaled <- scaleReplicaSetAndRecordEvent rs (wrap32 (size rs + scaledUpCount)) ;; ret (fst scaled)
  end.

(** An error while scaling down is dropped. *)
Definition reconcileOldReplicaSets (allRSs oldRSs : list ReplicaSet) (newRS : ReplicaSet) : MD bool :=
  if decide (GetReplicaCountForReplicaSets oldRSs = 0) then ret false else
  d <- getC ;;
  let allPodsCount := GetReplicaCountForReplicaSets allRSs in
  let scaleDownOldLimit := ScaleDownLimitForOld strategy oldRSs newRS d in
  if decide (scaleDownOldLimit <= 0) then scaleUpOldReplicaSets oldRSs (wrap32 (- scaleDownOldLimit)) else
  let minAvailable := wrap32 (wanted d - MaxUnavailable strategy d) in
  let newRSUnavailablePodCount := wrap32 (size newRS - rs_AvailableReplicas newRS) in
  let maxScaledDown := Z.min (wrap32 (wrap32 (allPodsCount - minAvailable) - newRSUnavailablePodCount))
                         scaleDownOldLimit in
  if decide (maxScaledDown <= 0) then ret false else
  r <- catch (cleanupUnhealthyReplicas oldRSs maxScaledDown) ;;
  match r with
  | inr _ => ret false
  | inl (oldRSs, cleanupCount) =>
      r <- catch (scaleDownOldReplicaSetsForRollingUpdate oldRSs newRS) ;;
      match r with
      | inr _ => ret false
      | inl scaledDownCount => ret (bool_decide (wrap32 (cleanupCount + scaledDownCount) > 0))
      end
  end.

(** ** Scaling events and pauses (sync.go) *)

(** The sizes by name, and how much they add up to. *)
Fixpoint proportions (d : Deployment) (toAdd added : Z) (rss : list ReplicaSet) (nameToSize : gmap string Z)
    : gmap string Z * Z :=
  match rss with
  | [] => (nameToSize, added)
  | rs :: rest =>
      if decide (toAdd = 0) then proportions d toAdd added rest (<[rsName rs := size rs]> nameToSize) else
      let proportion := GetProportion strategy rs d toAdd added in
      proportions d toAdd (wrap32 (added + proportion)) rest
        (<[rsName rs := wrap32 (size rs + proportion)]> nameToSize)
  end.

(** The largest ReplicaSet, the first one, takes what is left. *)
Definition withLeftover (toAdd added : Z) (rss : list ReplicaSet) (nameToSize : gmap string Z) : gmap string Z :=
  match rss with
  | rs :: _ =>
      if decide (toAdd = 0) then nameToSize else
      let n := wrap32 (default 0 (nameToSize !! rsName rs) + wrap32 (toAdd - added)) in
      <[rsName rs := if decide (n < 0) then 0 else n]> nameToSize
  | [] => nameToSize
  end.

Definition scaledSizes (d : Deployment) (toAdd : Z) (rss : list ReplicaSet) : gmap string Z :=
  let '(nameToSize, added) := proportions d toAdd 0 rss ∅ in withLeftover toAdd added rss nameToSize.

Definition scaleEach (rss : list ReplicaSet) (f : ReplicaSet -> MD (bool * ReplicaSet)) : MD unit :=
  foldr (fun rs rest => f rs ;; rest) (ret tt) rss.

(** The old ReplicaSets as they are afterwards: their slice is sorted, and the ones that
    were cleaned up are replaced. *)
Definition scale (newRS : option ReplicaSet) (oldRSs : list ReplicaSet) : MD (list ReplicaSet) :=
  d <- getC ;;
  let '(activeOrLatest, oldRSs) := FindActiveOrLatest newRS oldRSs in
  match activeOrLatest with
  | Some rs =>
      if decide (size rs = wanted d) then ret oldRSs else
      scaleReplicaSetAndRecordEvent rs (wanted d) ;; ret oldRSs
  | None =>
      if IsSaturated d newRS then
        scaleEach (FilterActiveReplicaSets oldRSs) (fun old => scaleReplicaSetAndRecordEvent old 0) ;;
        ret oldRSs
      else
        let allowedSize := if decide (wanted d > 0) then wanted d else 0 in
        let toAdd := wrap32 (allowedSize - GetReplicaCountForReplicaSets
                                             (FilterActiveReplicaSets (withNew oldRSs newRS))) in
        r <- (if decide (toAdd < 0) then
                r <- cleanupUnhealthyReplicas oldRSs (wrap32 (- toAdd)) ;;
                ret (fst r, wrap32 (toAdd + snd r))
              else ret (oldRSs, toAdd)) ;;
        let '(oldRSs, toAdd) := r in
        let allRSs := FilterActiveReplicaSets (withNew oldRSs newRS) in
        let allRSs := if decide (toAdd > 0) then sortSlice bySizeNewer allRSs
                      else if decide (toAdd < 0) then sortSlice bySizeOlder allRSs else allRSs in
        let nameToSize := scaledSizes d toAdd allRSs in
        scaleEach allRSs (fun rs => scaleReplicaSet rs (default 0 (nameToSize !! rsName rs))) ;;
        ret oldRSs
  end.

(** ** Status (sync.go, progress.go) *)

Definition calculateStatus (allRSs : list ReplicaSet) (newRS : option ReplicaSet) : MD DeploymentStatus :=
  d <- getC ;;
  let availableReplicas := GetAvailableReplicaCountForReplicaSets allRSs in
  let unavailableReplicas := wrap32 (GetReplicaCountForReplicaSets allRSs - availableReplicas) in
  let status := mkDeploymentStatus (Generation (dep_Meta d)) (GetActualReplicaCountForReplicaSets allRSs)
    (GetActualReplicaCountForReplicaSets (option_list newRS)) (GetReadyReplicaCountForReplicaSets allRSs)
    availableReplicas (if decide (unavailableReplicas < 0) then 0 else unavailableReplicas)
    (ds_Conditions (dep_Status d)) (ds_CollisionCount (dep_Status d)) in
  condition <- inWorld
    (if decide (availableReplicas >= wrap32 (wanted d - MaxUnavailable strategy d))
     then NewDeploymentCondition DeploymentAvailable ConditionTrue MinimumReplicasAvailable
            "Deployment has minimum availability."
     else NewDeploymentCondition DeploymentAvailable ConditionFalse MinimumReplicasUnavailable
            "Deployment does not have minimum availability.") ;;
  ret (SetDeploymentCondition status condition).

Definition extraStatus (d : Deployment) (newRS : option ReplicaSet) : string :=
  Marshal (mkExtraStatus (match newRS with Some rs => rs_ReadyReplicas rs | None => 0 end) (limitOf strategy d)).

(** Status and annotation go out as one patch of the object. *)
Definition patchDeploymentStatusAndAnnotation (newStatus : DeploymentStatus) (extraStatusAnno : string) : MD unit :=
  d <- getC ;;
  let statusNeedsUpdate := negb (bool_decide (dep_Status d = newStatus)) in
  let annotationNeedsUpdate :=
    negb (String.eqb (annotation (dep_Meta d) DeploymentExtraStatusAnnotation) extraStatusAnno) in
  if negb statusNeedsUpdate && negb annotationNeedsUpdate then ret tt else
  let copy := if statusNeedsUpdate then d <| dep_Status := newStatus |> else d in
  let copy := if annotationNeedsUpdate
              then setDepAnnotation DeploymentExtraStatusAnnotation extraStatusAnno copy else copy in
  inWorld (api_PatchDiff d copy).

Definition syncDeploymentStatus (allRSs : list ReplicaSet) (newRS : option ReplicaSet) : MD unit :=
  newStatus <- calculateStatus allRSs newRS ;;
  d <- getC ;;
  patchDeploymentStatusAndAnnotation newStatus (extraStatus d newRS).

Definition failuresOf (rs : ReplicaSet) : list DeploymentCondition :=
  filter (fun c => dc_Type c = DeploymentReplicaFailure) (rs_Conditions rs).
Definition getReplicaFailures (allRSs : list ReplicaSet) (newRS : option ReplicaSet) : list DeploymentCondition :=
  match mjoin (failuresOf <$> option_list newRS) with
  | [] => mjoin (failuresOf <$> allRSs)
  | conditions => conditions
  end.

Definition progressMessage (d : Deployment) (newRS : option ReplicaSet) (what : string) : string :=
  (match newRS with
   | Some rs => "ReplicaSet " +:+ rsName rs
   | None => "Deployment " +:+ Name (dep_Meta d)
   end +:+ what)%string.

(** The Progressing condition of the new status. *)
Definition estimateProgress (d : Deployment) (newRS : option ReplicaSet) (newStatus : DeploymentStatus)
    : M W DeploymentStatus :=
  let currentCond := GetDeploymentCondition (dep_Status d) DeploymentProgressingType in
  let isCompleteDeployment :=
    bool_decide (ds_Replicas newStatus = ds_UpdatedReplicas newStatus)
    && match currentCond with Some c => String.eqb (dc_Reason c) NewRSAvailableReason | None => false end in
  if negb (HasProgressDeadline d) || isCompleteDeployment then ret newStatus else
  if DeploymentComplete d newStatus then
    condition <- NewDeploymentCondition DeploymentProgressingType ConditionTrue NewRSAvailableReason
                   (progressMessage d newRS " has successfully progressed.") ;;
    ret (SetDeploymentCondition newStatus condition)
  else if DeploymentProgressing d newStatus then
    condition <- NewDeploymentCondition DeploymentProgressingType ConditionTrue ReplicaSetUpdatedReason
                   (progressMessage d newRS " is progressing.") ;;
    ret (match currentCond with
         | None => SetDeploymentCondition newStatus condition
         | Some current =>
             SetDeploymentCondition (RemoveDeploymentCondition newStatus DeploymentProgressingType)
               (if decide (dc_Status current = ConditionTrue)
                then condition <| dc_LastTransitionTime := dc_LastTransitionTime current |> else condition)
         end)
  else
    timedOut <- DeploymentTimedOut d newStatus ;;
    if timedOut : bool then
      condition <- NewDeploymentCondition DeploymentProgressingType ConditionFalse TimedOutReason
                     (progressMessage d newRS " has timed out progressing.") ;;
      ret (SetDeploymentCondition newStatus condition)
    else ret newStatus.

(** When the Deployment has to be looked at again: [requeueStuckDeployment] computes a
    time nobody uses, so that only its reading of the clock is left. *)
Definition requeueStuckDeployment (d : Deployment) (newStatus : DeploymentStatus) : M W Z :=
  match GetDeploymentCondition (dep_Status d) DeploymentProgressingType, dep_ProgressDeadlineSeconds d with
  | Some currentCond, Some seconds =>
      if negb (HasProgressDeadline d) then ret (-1) else
      if DeploymentComplete d newStatus || String.eqb (dc_Reason currentCond) TimedOutReason then ret (-1) else
      now <- time_Now ;;
      let after := dc_LastUpdateTime currentCond + seconds * Second - now in
      ret (if decide (after < Second) then 0 else after)
  | _, _ => ret (-1)
  end.

Definition syncRolloutStatus (allRSs : list ReplicaSet) (newRS : option ReplicaSet) : MD unit :=
  newStatus <- calculateStatus allRSs newRS ;;
  d <- getC ;;
  let newStatus := if HasProgressDeadline d then newStatus
                   else RemoveDeploymentCondition newStatus DeploymentProgressingType in
  newStatus <- inWorld (estimateProgress d newRS newStatus) ;;
  let newStatus := match getReplicaFailures allRSs newRS with
                   | failure :: _ => SetDeploymentCondition newStatus failure
                   | [] => RemoveDeploymentCondition newStatus DeploymentReplicaFailure
                   end in
  patchDeploymentStatusAndAnnotation newStatus (extraStatus d newRS) ;;
  inWorld (requeueStuckDeployment d newStatus) ;;
  ret tt.

(** ** One synchronisation (deployment_controller.go, rolling.go, sync.go) *)

Definition syncStatusOnly (rsList : list ReplicaSet) : MD unit :=
  r <- getAllReplicaSetsAndSyncRevision rsList false ;;
  syncDeploymentStatus (withNew (snd r) (fst r)) (fst r).

Definition sync (rsList : list ReplicaSet) : MD unit :=
  r <- getAllReplicaSetsAndSyncRevision rsList false ;;
  oldRSs <- scale (fst r) (snd r) ;;
  syncDeploymentStatus (withNew oldRSs (fst r)) (fst r).

Definition isScalingEvent (rsList : list ReplicaSet) : MD bool :=
  r <- getAllReplicaSetsAndSyncRevision rsList false ;;
  d <- getC ;;
  ret (existsb (fun rs => match GetReplicasAnnotation rs with
                          | Some desired => negb (bool_decide (desired = wanted d))
                          | None => false
                          end) (FilterActiveReplicaSets (withNew (snd r) (fst r)))).

Definition rolloutRolling (rsList : list ReplicaSet) : MD unit :=
  r <- getAllReplicaSetsAndSyncRevision rsList true ;;
  let '(newRS, oldRSs) := r in
  newRS' <- lift (deref newRS) ;;
  let allRSs := withNew oldRSs newRS in
  scaledUp <- reconcileNewReplicaSet allRSs newRS' ;;
  (if scaledUp : bool then ret tt
   else reconcileOldReplicaSets allRSs (FilterActiveReplicaSets oldRSs) newRS' ;; ret tt) ;;
  syncRolloutStatus allRSs newRS.

Definition getReplicaSetsForDeployment (d : Deployment) : M W (list ReplicaSet) :=
  match LabelSelectorAsSelector (dep_Selector d) with
  | Panic => panic
  | Err _ => fail (ErrOther "invalid label selector")
  | Ok selector =>
      rss <- api_List (O := ReplicaSet) (Namespace (dep_Meta d)) selector ;;
      ret (filter (fun rs => deleting (rs_Meta rs) = false
             /\ or_UID <$> GetControllerOf (rs_Meta rs) = Some (UID (dep_Meta d))) rss)
  end.

Definition selectsEverything (d : Deployment) : bool :=
  match dep_Selector d with
  | Some s => bool_decide (MatchLabels s = ∅) && bool_decide (MatchExpressions s = [])
  | None => false
  end.

Definition syncDeployment : MD unit :=
  d <- getC ;;
  if selectsEverything d then
    if decide (ds_ObservedGeneration (dep_Status d) < Generation (dep_Meta d)) then
      setStatus (fun s => s <| ds_ObservedGeneration := Generation (dep_Meta d) |>) ;; tryUpdateStatus
    else ret tt
  else
    rsList <- inWorld (getReplicaSetsForDeployment d) ;;
    if deleting (dep_Meta d) then syncStatusOnly rsList else
    if dstr_Paused strategy then sync rsList else
    scalingEvent <- isScalingEvent rsList ;;
    if scalingEvent : bool then sync rsList else rolloutRolling rsList.
End strategy.

(** ** Reconciliation (controller.go) *)

(** The strategy of the controller made for a Deployment, if one is made. *)
Definition NewController (deployment : Deployment) : option DeploymentStrategy :=
  if negb (IsUnderRolloutControl deployment) then None else
  strategy ← Unmarshal (annotation (dep_Meta deployment) DeploymentStrategyAnnotation);
  if String.eqb (dstr_RollingStyle strategy) "Canary" then None else Some strategy.

(** Without its webhook a Deployment is given back to the native controller. *)
Definition giveBack (deployment : Deployment) : M W bool :=
  (if String.eqb (dep_StrategyType deployment) RollingUpdateDeploymentStrategyType then ret tt
   else deployment_Patch deployment
          (DeploymentPatch_UpdateStrategy RollingUpdateDeploymentStrategyType
             (dstr_RollingUpdate (GetDeploymentStrategy deployment)))) ;;
  ret true.

Definition mutatingProtectionInvalid (deployment : Deployment) : M W bool :=
  r <- catch getWebhookMeta ;;
  match r with
  | inr err => if IsNotFound err then giveBack deployment else fail err
  | inl m => if deleting m then giveBack deployment else ret false
  end.

(** The time after which to look again.  [syncDeployment] works on a copy, so that whether
    the partition is satisfied is asked of the Deployment as it was read. *)
Definition adv_Reconcile (key : ObjectKey) : M W (option Z) :=
  r <- catch (api_Get (O := Deployment) key) ;;
  match r with
  | inr err => if IsNotFound err then ret None else fail err
  | inl deployment =>
      match NewController deployment with
      | None => ret None
      | Some strategy =>
          invalid <- mutatingProtectionInvalid deployment ;;
          if invalid : bool then ret None else
          (fun w => let '(r, (_, w)) := syncDeployment strategy (deployment, w) in (r, w)) ;;
          match DeploymentRolloutSatisfied strategy deployment with
          | Some _ => ret (Some (2 * Second))
          | None => ret None
          end
      end
  end.
End controller.
