(* ===== verification/AdvancedProofs.v ===== *)
(** * How advanced Deployments roll

    What one pass of rolling.go and the proportional scaling of sync.go write: the new
    ReplicaSet grows within the partition and the surge, the old ones keep the pods the
    partition leaves them and the availability the strategy asks for. *)

From S2P Require Export AdvancedController.

(** ** Sums *)

Definition total (f : ReplicaSet -> Z) (rss : list ReplicaSet) : Z := sumZ (map f rss).

Lemma total_nonneg f rss : Forall (fun rs => 0 <= f rs) rss -> 0 <= total f rss.
Proof. unfold total, sumZ. induction 1; simpl; lia. Qed.

Lemma total_app f l l' : total f (l ++ l') = total f l + total f l'.
Proof. unfold total. by rewrite map_app, sumZ_app. Qed.

Lemma total_perm f l l' : l ≡ₚ l' -> total f l = total f l'.
Proof. unfold total, sumZ. induction 1; simpl; lia. Qed.

Lemma total_le f g rss : Forall (fun rs => f rs <= g rs) rss -> total f rss <= total g rss.
Proof. unfold total, sumZ. induction 1; simpl; lia. Qed.

Lemma total_minus f g rss : total (fun rs => f rs - g rs) rss = total f rss - total g rss.
Proof. unfold total, sumZ. induction rss; simpl; lia. Qed.

Lemma total_elem f rss rs : rs ∈ rss -> Forall (fun rs => 0 <= f rs) rss -> f rs <= total f rss.
Proof.
  intros Hin Hpos. apply elem_of_Permutation in Hin as [rest Hrest].
  rewrite (total_perm _ _ _ Hrest). rewrite Hrest in Hpos. apply Forall_cons in Hpos as [_ Hpos].
  apply total_nonneg in Hpos. unfold total in *. simpl. lia.
Qed.

(** The counts of the code are the sums, as long as these fit. *)
Lemma sum32_total f rss :
  Forall (fun rs => 0 <= f rs) rss -> total f rss < 2 ^ 31 -> sum32 f rss = total f rss.
Proof.
  intros Hpos Hsmall. unfold sum32.
  enough (forall acc, 0 <= acc -> acc + total f rss < 2 ^ 31 ->
    foldl (fun t rs => wrap32 (t + f rs)) acc rss = acc + total f rss) as Hacc
    by (rewrite Hacc by lia; lia).
  clear Hsmall. induction Hpos as [|rs rss Hrs Hpos IH]; intros acc Hacc Hsmall;
    unfold total in *; simpl in *; [lia|].
  pose proof (total_nonneg f rss Hpos) as Hrest. unfold total in Hrest.
  rewrite wrap32_id by (unfold in32; lia). rewrite IH by lia. lia.
Qed.

(** ** The partition *)

Lemma replicasLimit_bounds `{K8sLib} partition replicas :
  0 <= replicas < 2 ^ 31 -> 0 <= replicasLimit partition replicas <= replicas.
Proof.
  intros Hreplicas. unfold replicasLimit. cbv zeta.
  generalize (fst (GetScaledValueFromIntOrPercent (Some partition) replicas true)). intros n.
  case_match eqn:E; rewrite wrap32_id by (unfold in32; lia); [|lia].
  apply andb_true_iff in E as [E _]. apply bool_decide_eq_true in E. lia.
Qed.

(** ** What the server holds *)

(** The size of the ReplicaSet of a name. *)
Class Sizes (W : Type) := sizeIn : W -> string -> Z.

(** A patch writes the ReplicaSet it names, and its answer is what was asked for, when
    nobody else writes meanwhile; one that fails may or may not have been made. *)
Class SizesLaws (W : Type) `{MergeFromApi W ReplicaSet} `{Sizes W} := {
  merge_other original modified w name :
    name <> rsName modified -> sizeIn (snd (api_MergeFrom original modified w)) name = sizeIn w name;
  merge_written original modified w :
    sizeIn (snd (api_MergeFrom original modified w)) (rsName modified) = sizeIn w (rsName modified)
    \/ sizeIn (snd (api_MergeFrom original modified w)) (rsName modified) = size modified;
  merge_ok original modified w rs w' :
    api_MergeFrom original modified w = (Ok rs, w') ->
    sizeIn w' (rsName modified) = size modified /\ rsName rs = rsName modified /\ size rs = size modified
    /\ rs_AvailableReplicas rs = rs_AvailableReplicas modified /\ rs_Template rs = rs_Template modified
}.

Section rolling.
Context {W : Type} `{MergeFromApi W ReplicaSet} `{Sizes W} `{!SizesLaws W}.
Context `{K8sLib} `{MetaLib} `{SortLib} `{!SortLaws} `{Strconv} `{TemplateHash} `{SliceRoom}.
Variable strategy : DeploymentStrategy.

Definition serverSize (w : W) (rs : ReplicaSet) : Z := sizeIn w (rsName rs).
(** Pods of a ReplicaSet that stay available: it deletes the others first. *)
Definition serverAvailable (w : W) (rs : ReplicaSet) : Z := Z.min (serverSize w rs) (rs_AvailableReplicas rs).
Definition agrees (w : W) (rs : ReplicaSet) : Prop := serverSize w rs = size rs.
Definition elsewhere (names : list string) (w w' : W) : Prop :=
  forall name, name ∉ names -> sizeIn w' name = sizeIn w name.

Lemma bind_getC {C A} (k : C -> M (C * W) A) c w : bind getC k (c, w) = k c (c, w).
Proof. done. Qed.

(** *** One ReplicaSet *)

Definition sameBut (rs rs' : ReplicaSet) (n : Z) : Prop :=
  rsName rs' = rsName rs /\ size rs' = n /\ rs_AvailableReplicas rs' = rs_AvailableReplicas rs
  /\ rs_Template rs' = rs_Template rs.

Lemma scaleReplicaSet_run rs n d w r d' w' :
  scaleReplicaSet strategy rs n (d, w) = (r, (d', w')) ->
  d' = d /\ elsewhere [rsName rs] w w'
  /\ (agrees w rs -> serverSize w' rs = size rs \/ serverSize w' rs = n)
  /\ (forall b rs', r = Ok (b, rs') -> (agrees w rs -> serverSize w' rs = n) /\ sameBut rs rs' n).
Proof.
  unfold scaleReplicaSet, agrees, serverSize. intros Hrun.
  cbv [bind getC inWorld ret fst snd] in Hrun. case_match eqn:Eneeds.
  - match type of Hrun with context [api_MergeFrom rs ?m _] =>
      assert (sameBut rs m n) as (Hname & Hsize & Havail & Htmpl) by done; revert Hrun Hname Hsize Havail Htmpl;
      generalize m end.
    intros modified Hrun Hname Hsize Havail Htmpl.
    pose proof (merge_other rs modified w) as Hother. pose proof (merge_written rs modified w) as Hwritten.
    destruct (api_MergeFrom rs modified w) as [[rs'|err|] w1] eqn:Em; simplify_eq/=;
      rewrite Hname in *; (split; [done|]);
      (split; [intros name Hn; apply Hother; set_solver|]); (split; [intros <-; tauto|]); intros b rs'' Hr;
      simplify_eq/=.
    apply merge_ok in Em as (? & ? & ? & ? & ?). rewrite Hname in *. unfold sameBut. split_and!; intros; congruence.
  - apply orb_false_iff in Eneeds as [Eneeds _]. apply negb_false_iff, bool_decide_eq_true in Eneeds.
    simplify_eq/=. split_and!; [done|by intros|tauto|]. intros. simplify_eq/=. done.
Qed.

Lemma scaleAndRecord_run rs n d w r d' w' :
  scaleReplicaSetAndRecordEvent strategy rs n (d, w) = (r, (d', w')) ->
  d' = d /\ elsewhere [rsName rs] w w'
  /\ (agrees w rs -> serverSize w' rs = size rs \/ serverSize w' rs = n)
  /\ (forall b rs', r = Ok (b, rs') -> (agrees w rs -> serverSize w' rs = n) /\ sameBut rs rs' n).
Proof.
  unfold scaleReplicaSetAndRecordEvent. case_decide as Hn; [|apply scaleReplicaSet_run].
  cbv [ret]. intros. simplify_eq. unfold agrees, elsewhere, sameBut.
  split_and!; [done|by intros|tauto|]. intros. by simplify_eq.
Qed.

(** *** The new ReplicaSet *)

Lemma NewRSNewReplicas_run d allRSs newRS :
  0 <= wanted d -> 0 <= MaxSurge strategy d -> wanted d + MaxSurge strategy d < 2 ^ 31 ->
  newRS ∈ allRSs -> Forall (fun rs => 0 <= size rs) allRSs -> total size allRSs < 2 ^ 31 ->
  size newRS < wanted d ->
  let n := NewRSNewReplicas strategy d allRSs newRS in
  n = size newRS
  \/ (n = wanted d /\ total size allRSs = size newRS)
  \/ (size newRS < n <= limitOf strategy d
      /\ total size allRSs - size newRS + n <= wanted d + MaxSurge strategy d).
Proof.
  intros Hw Hs Hws Hin Hpos Hsmall Hlt n. subst n. unfold NewRSNewReplicas.
  pose proof (total_elem size _ _ Hin Hpos) as Hle.
  assert (0 <= size newRS) by (by eapply Forall_forall in Hpos).
  unfold GetReplicaCountForReplicaSets. rewrite sum32_total by done.
  case_decide; [|right; left; lia]. case_decide; [by left|].
  rewrite (wrap32_id (wanted d + _)) by (unfold in32; lia). case_decide; [by left|].
  rewrite (wrap32_id (_ - total _ _)), (wrap32_id (wanted d - _)) by (unfold in32; lia).
  rewrite !wrap32_id by (rewrite ?wrap32_id; unfold in32; lia).
  lia.
Qed.

(** C24. One pass over the new ReplicaSet, however it ends, writes no other ReplicaSet, and
    the size it leaves is the one before; or the whole Deployment's, when this is smaller
    or there are no other pods; or it has grown to at most what the partition allows, and
    all the pods together are no more than the Deployment's replicas and the surge. *)
Theorem new_pods_bounded (allRSs : list ReplicaSet) (newRS : ReplicaSet) d w r d' w'
    (Hwanted : 0 <= wanted d) (Hsurge : 0 <= MaxSurge strategy d)
    (Hfits : wanted d + MaxSurge strategy d < 2 ^ 31)
    (Hin : newRS ∈ allRSs) (Hsizes : Forall (fun rs => 0 <= size rs) allRSs)
    (Hsmall : total size allRSs < 2 ^ 31) (Hagrees : agrees w newRS)
    (Hrun : reconcileNewReplicaSet strategy allRSs newRS (d, w) = (r, (d', w'))) :
  let n := serverSize w' newRS in
  elsewhere [rsName newRS] w w'
  /\ (n = size newRS
      \/ (n = wanted d /\ (wanted d < size newRS \/ total size allRSs = size newRS))
      \/ (size newRS < n <= limitOf strategy d
          /\ total size allRSs - size newRS + n <= wanted d + MaxSurge strategy d)).
Proof.
  intros n. unfold reconcileNewReplicaSet in Hrun. cbv [bind getC ret fst snd] in Hrun.
  case_decide as Heq; [simplify_eq; split; [by intros|by left]|].
  match type of Hrun with context [scaleReplicaSetAndRecordEvent _ _ ?m _] => set (target := m) in Hrun end.
  destruct (scaleReplicaSetAndRecordEvent strategy newRS target (d, w)) as [r1 [d1 w1]] eqn:Hscale.
  apply scaleAndRecord_run in Hscale as (-> & Helse & Hsize & _).
  assert (w1 = w') as -> by (by destruct r1 as [[]| |]; simplify_eq).
  split; [done|]. destruct (Hsize Hagrees) as [Hn|Hn]; [by left|].
  subst n. rewrite Hn. subst target. case_decide as Hgt; [right; left; lia|].
  destruct (NewRSNewReplicas_run d allRSs newRS) as [E|[E|E]]; try done; [lia|by left|tauto..].
Qed.

(** *** The old ReplicaSets *)

Definition healthy (rs : ReplicaSet) : Prop := 0 <= rs_AvailableReplicas rs <= size rs.

(** What a loop over the old ReplicaSets leaves when it may take so many pods away. *)
Definition shrunk (takes : Z) (rss : list ReplicaSet) (w w' : W) : Prop :=
  elsewhere (map rsName rss) w w'
  /\ Forall (fun rs => 0 <= serverSize w' rs <= size rs) rss
  /\ total size rss - total (serverSize w') rss <= Z.max 0 takes.

Lemma elsewhere_trans names names' w w1 w2 :
  elsewhere names w w1 -> elsewhere names' w1 w2 -> elsewhere (names ++ names') w w2.
Proof. intros He1 He2 name [? ?]%not_elem_of_app. rewrite He2, He1; done. Qed.

Lemma agrees_elsewhere names w w' rss :
  elsewhere names w w' -> (forall n, n ∈ names -> n ∉ map rsName rss) -> Forall (agrees w) rss ->
  Forall (agrees w') rss.
Proof.
  intros He Hn Ha. apply Forall_forall. intros rs Hrs. rewrite Forall_forall in Ha.
  unfold agrees, serverSize. rewrite He; [by apply Ha|]. intros Hin. apply (Hn _ Hin).
  by apply list_elem_of_fmap_2.
Qed.

Lemma shrunk_refl takes rss w :
  Forall (agrees w) rss -> Forall (fun rs => 0 <= size rs) rss -> shrunk takes rss w w.
Proof.
  intros Ha Hpos. assert (total (serverSize w) rss = total size rss) as E.
  { clear Hpos. unfold total, sumZ, agrees in *. induction Ha as [|? ? E ? IH]; simpl; lia. }
  split; [by intros|]. split; [|lia].
  eapply Forall_impl; [apply Forall_and; split; [apply Ha|apply Hpos]|]. unfold agrees. simpl. lia.
Qed.

(** The first one shrinks, then the rest. *)
Lemma shrunk_cons takes takes' rs rss w w1 w2 :
  rsName rs ∉ map rsName rss -> elsewhere [rsName rs] w w1 ->
  0 <= serverSize w1 rs <= size rs -> size rs - serverSize w1 rs <= takes - Z.max 0 takes' ->
  shrunk takes' rss w1 w2 -> shrunk takes (rs :: rss) w w2.
Proof.
  intros Hname Hone Hsize Htakes (Hrest & Hsizes & Htotal).
  assert (serverSize w2 rs = serverSize w1 rs) as E by (by apply Hrest).
  split_and!.
  - by apply (elsewhere_trans [rsName rs] (map rsName rss) w w1 w2).
  - constructor; [lia|done].
  - unfold total, sumZ in *. simpl. lia.
Qed.

Lemma sameBut_refl w rs : agrees w rs -> sameBut rs rs (serverSize w rs).
Proof. done. Qed.

Lemma sameBut_agrees w rs rs' : sameBut rs rs' (serverSize w rs) -> agrees w rs'.
Proof. unfold sameBut, agrees, serverSize. intros (Hname & -> & _). by rewrite Hname. Qed.

Lemma sameBut_elsewhere w w' names rs rs' n :
  elsewhere names w w' -> rsName rs ∉ names -> n = serverSize w rs ->
  sameBut rs rs' n -> sameBut rs rs' (serverSize w' rs).
Proof. intros He Hn ->. unfold serverSize. by rewrite He. Qed.

(** Shrinking the first one by at most [dec], whatever comes of it. *)
Lemma shrink_first rs rss n dec takes d w r d' w' :
  NoDup (map rsName (rs :: rss)) -> Forall (agrees w) (rs :: rss) ->
  n = size rs - dec -> 0 <= dec <= size rs -> dec <= takes ->
  scaleReplicaSetAndRecordEvent strategy rs n (d, w) = (r, (d', w')) ->
  d' = d /\ elsewhere [rsName rs] w w' /\ n <= serverSize w' rs <= size rs
  /\ Forall (agrees w') rss /\ (forall takes' w2,
    takes' <= takes - dec -> shrunk takes' rss w' w2 -> shrunk takes (rs :: rss) w w2)
  /\ (forall b rs', r = Ok (b, rs') -> sameBut rs rs' (serverSize w' rs)).
Proof.
  rewrite fmap_cons, NoDup_cons, Forall_cons. intros [Hname Hdup] [Ha Has] Hn Hdec Htakes Hscale.
  apply scaleAndRecord_run in Hscale as (-> & Helse & Hsize & Hok). specialize (Hsize Ha).
  split; [done|]. split; [done|]. split; [lia|]. split.
  - eapply agrees_elsewhere; [done| |done]. set_solver.
  - split.
    + intros takes' w2 Ht Hrest. eapply shrunk_cons; [done|done| | |done]; lia.
    + intros b rs' ->. destruct (Hok b rs') as [Hwritten Hsame]; [done|]. by rewrite (Hwritten Ha).
Qed.

Lemma healthy_sizes rss : Forall healthy rss -> Forall (fun rs => 0 <= size rs) rss.
Proof. intros Hh. eapply Forall_impl; [apply Hh|]. unfold healthy. simpl. lia. Qed.

Lemma healthy_available w rss :
  Forall (agrees w) rss -> Forall healthy rss ->
  Forall (fun rs => rs_AvailableReplicas rs <= serverSize w rs) rss.
Proof.
  intros Ha Hh. eapply Forall_impl; [apply Forall_and; split; [apply Ha|apply Hh]|].
  unfold agrees, healthy. simpl. lia.
Qed.

(** What the clean-up leaves: no available pod is taken. *)
Definition cleaned (takes : Z) (rss : list ReplicaSet) (w w' : W) (r : res (list ReplicaSet * Z)) : Prop :=
  shrunk takes rss w w' /\ Forall (fun rs => rs_AvailableReplicas rs <= serverSize w' rs) rss
  /\ (forall rss' t', r = Ok (rss', t') -> Forall2 (fun rs rs' => sameBut rs rs' (serverSize w' rs)) rss rss').

Lemma cleaned_refl takes rss w t :
  Forall (agrees w) rss -> Forall healthy rss -> cleaned takes rss w w (Ok (rss, t)).
Proof.
  intros Ha Hh. split; [by apply shrunk_refl, healthy_sizes|]. split; [by apply healthy_available|].
  intros. simplify_eq. apply Forall_Forall2_diag. eapply Forall_impl; [apply Ha|]. apply sameBut_refl.
Qed.

Lemma cleaned_fails takes rss w w' (r : res (list ReplicaSet * Z)) :
  shrunk takes rss w w' -> Forall (fun rs => rs_AvailableReplicas rs <= serverSize w' rs) rss ->
  (forall x, r <> Ok x) -> cleaned takes rss w w' r.
Proof. intros Hs Ha Hr. split; [done|]. split; [done|]. intros ? ? ->. by destruct (Hr (rss', t')). Qed.

Lemma cleaned_cons takes takes' rs rs' rss w w1 w2 r :
  rsName rs ∉ map rsName rss ->
  (forall w2, shrunk takes' rss w1 w2 -> shrunk takes (rs :: rss) w w2) ->
  rs_AvailableReplicas rs <= serverSize w1 rs -> sameBut rs rs' (serverSize w1 rs) ->
  cleaned takes' rss w1 w2 r ->
  cleaned takes (rs :: rss) w w2 (res_map (fun p => (rs' :: fst p, snd p)) r).
Proof.
  intros Hname Hshrunk Havail Hsame (Hs & Ha & Hok). pose proof Hs as (Helse & _).
  assert (serverSize w2 rs = serverSize w1 rs) as E by (by apply Helse).
  split; [by apply Hshrunk|]. split; [constructor; [lia|done]|].
  intros rss' t' Hr. destruct r as [[rss1 t1]| |]; simplify_eq/=. constructor; [by rewrite E|by eapply Hok].
Qed.

Lemma cleanupLoop_run maxCount t rss d w r d' w' :
  NoDup (map rsName rss) -> Forall (agrees w) rss -> Forall healthy rss -> total size rss < 2 ^ 31 ->
  0 <= t -> maxCount < 2 ^ 31 ->
  cleanupLoop strategy maxCount t rss (d, w) = (r, (d', w')) ->
  d' = d /\ cleaned (maxCount - t) rss w w' r.
Proof.
  revert t w r d' w'. induction rss as [|rs rss IH]; intros t w r d' w' Hdup Ha Hh Hsmall Ht Hmax Hrun.
  { cbv [cleanupLoop ret] in Hrun. simplify_eq. split; [done|]. by apply cleaned_refl. }
  simpl in Hrun. case_decide as Hdone; [cbv [ret] in Hrun; simplify_eq; split; [done|]; by apply cleaned_refl|].
  pose proof (healthy_available w (rs :: rss) Ha Hh) as Havail. apply Forall_cons in Havail as [Havail _].
  pose proof (healthy_sizes (rs :: rss) Hh) as Hpos. apply Forall_cons in Hpos as [_ Hpos].
  apply total_nonneg in Hpos. assert (Hsize := Hsmall). unfold total, sumZ in Hsize, Hpos. simpl in Hsize.
  assert (total size rss < 2 ^ 31 /\ healthy rs) as [Hrest Hrs].
  { apply Forall_cons in Hh as [? _]. unfold total, sumZ, healthy in *. split; [lia|done]. }
  assert (Hhs := Hh). apply Forall_cons in Hhs as [_ Hhs]. unfold healthy in Hrs.
  assert (Hdup' := Hdup). rewrite fmap_cons, NoDup_cons in Hdup'. destruct Hdup' as [Hname Hdups].
  assert (Has := Ha). apply Forall_cons in Has as [Ha1 Has]. unfold agrees in Ha1.
  case_match eqn:Eskip.
  - apply bind_ret_inv in Hrun as (r1 & Hrun & ->).
    apply IH in Hrun as [-> Hclean]; [|done..]. split; [done|].
    eapply (cleaned_cons _ (maxCount - t)); [done| |done|by apply sameBut_refl|done].
    intros w2. eapply shrunk_cons; [done|by intros| |]; lia.
  - apply orb_false_iff in Eskip as [Hzero Hfull]. apply bool_decide_eq_false in Hzero, Hfull.
    set (dec := Z.min (maxCount - t) (size rs - rs_AvailableReplicas rs)).
    assert (Hdec : 0 < dec <= size rs - rs_AvailableReplicas rs /\ dec <= maxCount - t) by lia.
    rewrite (wrap32_id (maxCount - t)), (wrap32_id (size rs - rs_AvailableReplicas rs)) in Hrun
      by (unfold in32; lia). fold dec in Hrun.
    rewrite (wrap32_id (size rs - dec)), decide_False in Hrun by (unfold in32; lia). clearbody dec.
    apply bind_run_inv in Hrun as [([b rs'] & [d1 w1] & Hscale & Hrun)|(r1 & Hscale & Hfail & Hnot)].
    + eapply (shrink_first rs rss _ dec (maxCount - t)) in Hscale as (-> & Helse & Hs1 & Ha2 & Hcons & Hok);
        [|done|done|done|lia|lia].
      apply bind_ret_inv in Hrun as (r2 & Hrun & ->). rewrite (wrap32_id (t + dec)) in Hrun by (unfold in32; lia).
      apply IH in Hrun as [-> Hclean]; [|done..|lia|lia]. split; [done|].
      eapply (cleaned_cons _ (maxCount - (t + dec)) rs rs' rss w w1); [done| |lia|by eapply Hok|done].
      intros w2. apply Hcons. lia.
    + eapply (shrink_first rs rss _ dec (maxCount - t)) in Hscale as (-> & Helse & Hs1 & Ha2 & Hcons & _);
        [|done|done|done|lia|lia].
      split; [done|]. apply cleaned_fails; [|constructor; [lia|by apply healthy_available]|done].
      apply (Hcons 0); [lia|]. by apply shrunk_refl, healthy_sizes.
Qed.

Lemma scaleDownLoop_run takes t rss d w r d' w' :
  NoDup (map rsName rss) -> Forall (agrees w) rss -> Forall (fun rs => 0 <= size rs) rss ->
  total size rss < 2 ^ 31 -> 0 <= t -> takes < 2 ^ 31 ->
  scaleDownLoop strategy takes t rss (d, w) = (r, (d', w')) -> d' = d /\ shrunk (takes - t) rss w w'.
Proof.
  revert t w r d' w'. induction rss as [|rs rss IH]; intros t w r d' w' Hdup Ha Hpos Hsmall Ht Hmax Hrun.
  { cbv [scaleDownLoop ret] in Hrun. simplify_eq. split; [done|]. by apply shrunk_refl. }
  simpl in Hrun. case_decide as Hdone; [cbv [ret] in Hrun; simplify_eq; split; [done|]; by apply shrunk_refl|].
  assert (Hall := Hpos). apply Forall_cons in Hall as [Hrs Hposs].
  pose proof (total_nonneg _ _ Hposs) as Hrest. unfold total, sumZ in Hsmall, Hrest. simpl in Hsmall.
  assert (total size rss < 2 ^ 31) as Hsmalls by (unfold total, sumZ; lia).
  assert (Hdup' := Hdup). rewrite fmap_cons, NoDup_cons in Hdup'. destruct Hdup' as [Hname Hdups].
  assert (Has := Ha). apply Forall_cons in Has as [Ha1 Has]. unfold agrees in Ha1.
  case_decide as Hzero.
  - apply IH in Hrun as [-> Hs]; [|done..]. split; [done|].
    eapply shrunk_cons; [done|by intros| | |done]; lia.
  - set (dec := Z.min (size rs) (takes - t)).
    assert (Hdec : 0 < dec <= size rs /\ dec <= takes - t) by lia.
    rewrite (wrap32_id (takes - t)), (wrap32_id (Z.min _ _)) in Hrun by (unfold in32; lia). fold dec in Hrun.
    rewrite (wrap32_id (size rs - dec)), decide_False in Hrun by (unfold in32; lia). clearbody dec.
    apply bind_run_inv in Hrun as [([b rs'] & [d1 w1] & Hscale & Hrun)|(r1 & Hscale & _ & _)];
      eapply (shrink_first rs rss _ dec (takes - t)) in Hscale as (-> & _ & Hs1 & Ha2 & Hcons & _);
      try done; try lia.
    + rewrite (wrap32_id (t + dec)) in Hrun by (unfold in32; lia).
      apply IH in Hrun as [-> Hs]; [|done..|lia|lia]. split; [done|]. eapply Hcons; [|done]. lia.
    + split; [done|]. apply (Hcons 0); [lia|]. by apply shrunk_refl.
Qed.

Lemma shrunk_perm takes rss rss' w w' : rss ≡ₚ rss' -> shrunk takes rss w w' -> shrunk takes rss' w w'.
Proof.
  intros Hp (He & Hs & Ht). split_and!.
  - intros name Hn. apply He. by rewrite Hp.
  - by rewrite <- Hp.
  - by rewrite <- !(total_perm _ _ _ Hp).
Qed.

(** The numbers of a pass are small and sensible. *)
Record sensible (d : Deployment) (rss : list ReplicaSet) (newRS : ReplicaSet) : Prop := {
  sensible_wanted : 0 <= wanted d;
  sensible_unavailable : 0 <= MaxUnavailable strategy d;
  sensible_small : total size rss + size newRS + wanted d < 2 ^ 31;
  sensible_new : healthy newRS;
  sensible_old : Forall healthy rss
}.

Lemma sensible_bounds d rss newRS :
  sensible d rss newRS ->
  (0 <= limitOf strategy d <= wanted d /\ 0 <= MaxUnavailable strategy d <= wanted d)
  /\ 0 <= rs_AvailableReplicas newRS <= size newRS
  /\ 0 <= total rs_AvailableReplicas rss <= total size rss
  /\ total size rss + size newRS + wanted d < 2 ^ 31.
Proof.
  intros [Hw Hu Hsmall Hn Ho]. pose proof (total_nonneg _ _ (healthy_sizes _ Ho)). unfold healthy in Hn.
  split; [split; [apply replicasLimit_bounds; lia|]|split; [done|split; [split|done]]].
  - unfold MaxUnavailable in *. case_decide; [lia|]. destruct (fenceposts strategy d) as [[]|]; [case_decide|]; lia.
  - apply total_nonneg. eapply Forall_impl; [apply Ho|]. unfold healthy. simpl. lia.
  - apply total_le. eapply Forall_impl; [apply Ho|]. unfold healthy. simpl. lia.
Qed.

Lemma ScaleDownLimitForOld_val d rss newRS :
  sensible d rss newRS ->
  ScaleDownLimitForOld strategy rss newRS d
  = total size rss - (wanted d - Z.max (limitOf strategy d) (size newRS)).
Proof.
  intros Hs. pose proof (sensible_bounds _ _ _ Hs) as Hb.
  unfold ScaleDownLimitForOld, GetReplicaCountForReplicaSets. cbv zeta.
  rewrite sum32_total by (lia || by apply healthy_sizes, Hs).
  rewrite !wrap32_id by (rewrite ?wrap32_id; unfold in32; lia). done.
Qed.

Lemma sensible_perm d rss rss' newRS : rss ≡ₚ rss' -> sensible d rss newRS -> sensible d rss' newRS.
Proof.
  intros Hp [Hw Hu Hsmall Hn Ho]. split; [done..| |done|by rewrite <- Hp].
  by rewrite <- (total_perm _ _ _ Hp).
Qed.

(** Pods of the Deployment may be missing only as far as both numbers allow. *)
Definition mayTake (d : Deployment) (rss : list ReplicaSet) (newRS : ReplicaSet) (takes : Z) : Prop :=
  takes <= Z.max 0 (total size rss - (wanted d - Z.max (limitOf strategy d) (size newRS)))
  /\ takes <= Z.max 0 (total rs_AvailableReplicas rss + rs_AvailableReplicas newRS
                       - (wanted d - MaxUnavailable strategy d)).

Definition outdated (d : Deployment) (rs : ReplicaSet) : Prop :=
  EqualIgnoreHash (rs_Template rs) (dep_Template d) = false.

Lemma FindNewReplicaSet_only d rss newRS x :
  Forall (outdated d) rss -> FindNewReplicaSet d (withNew rss (Some newRS)) = Some x -> x = newRS.
Proof.
  intros Hold Hfind. unfold FindNewReplicaSet in Hfind.
  apply fmap_Some in Hfind as ([i y] & (Hi & Heq & _)%list_find_Some & ->). simpl.
  apply list_elem_of_lookup_2 in Hi. rewrite sortSlice_perm in Hi. unfold withNew in Hi.
  apply elem_of_app in Hi as [Hi|Hi]; [|by apply list_elem_of_singleton in Hi].
  rewrite Forall_forall in Hold. specialize (Hold _ Hi). unfold outdated in Hold. simpl in Heq. congruence.
Qed.

Lemma scaleDownOld_run rss newRS d w r d' w' :
  NoDup (map rsName rss) -> Forall (agrees w) rss -> sensible d rss newRS -> Forall (outdated d) rss ->
  hasRoom (length rss) = false ->
  scaleDownOldReplicaSetsForRollingUpdate strategy rss newRS (d, w) = (r, (d', w')) ->
  d' = d /\ exists takes, mayTake d rss newRS takes /\ shrunk takes rss w w'.
Proof.
  intros Hdup Ha Hs Hold Hroom Hrun. pose proof (sensible_bounds _ _ _ Hs) as Hb.
  assert (shrunk 0 rss w w) as Hnone by (apply shrunk_refl; [done|by apply healthy_sizes, Hs]).
  assert (mayTake d rss newRS 0) as Hzero by (unfold mayTake; lia).
  unfold scaleDownOldReplicaSetsForRollingUpdate in Hrun. cbv [bind getC ret lift fst snd] in Hrun.
  assert (GetAvailableReplicaCountForReplicaSets (withNew rss (Some newRS))
          = total rs_AvailableReplicas rss + rs_AvailableReplicas newRS) as E.
  { unfold GetAvailableReplicaCountForReplicaSets, withNew.
    assert (total rs_AvailableReplicas (rss ++ [newRS]) = total rs_AvailableReplicas rss + rs_AvailableReplicas newRS) as <-
      by (rewrite total_app; unfold total, sumZ; simpl; lia).
    apply sum32_total; [|rewrite total_app; unfold total, sumZ in *; simpl; lia].
    apply Forall_app. split; [|repeat constructor; lia].
    eapply Forall_impl; [apply (sensible_old _ _ _ Hs)|]. unfold healthy. simpl. lia. }
  rewrite E, wrap32_id in Hrun by (unfold in32; lia).
  case_decide as Hfew; [simplify_eq; split; [done|]; by exists 0|].
  destruct (FindNewReplicaSet d (withNew rss (Some newRS))) as [found|] eqn:Hfound;
    simpl in Hrun; [|simplify_eq; split; [done|]; by exists 0].
  apply FindNewReplicaSet_only in Hfound as ->; [|done].
  assert (viewAfterSearch rss newRS ≡ₚ rss) as Hview.
  { unfold viewAfterSearch. cbv zeta. rewrite sortSlice_perm, Hroom. apply sortSlice_perm. }
  assert (sensible d (viewAfterSearch rss newRS) newRS) as Hs' by (by eapply sensible_perm).
  rewrite (ScaleDownLimitForOld_val _ _ _ Hs'), (total_perm _ _ _ Hview) in Hrun.
  rewrite wrap32_id in Hrun by (unfold in32; lia).
  apply scaleDownLoop_run in Hrun as [-> Hshrunk].
  - split; [done|]. eexists. split; [|by eapply shrunk_perm]. unfold mayTake. lia.
  - by rewrite Hview.
  - by rewrite Hview.
  - rewrite Hview. by apply healthy_sizes, Hs.
  - rewrite (total_perm _ _ _ Hview). lia.
  - lia.
  - lia.
Qed.

(** What a pass keeps: the old ReplicaSets have the pods the partition leaves them, no
    more than they had or should have, and together with the new one the pods that must be
    available. *)
Definition protected (d : Deployment) (rss : list ReplicaSet) (newRS : ReplicaSet) (w w' : W) : Prop :=
  let left := wanted d - Z.max (limitOf strategy d) (size newRS) in
  elsewhere (map rsName rss) w w'
  /\ Z.min (total size rss) left <= total (serverSize w') rss <= Z.max (total size rss) left
  /\ Z.min (total rs_AvailableReplicas rss + rs_AvailableReplicas newRS)
           (wanted d - MaxUnavailable strategy d)
     <= total (serverAvailable w') rss + rs_AvailableReplicas newRS.

Lemma protected_perm d rss rss' newRS w w' :
  rss ≡ₚ rss' -> protected d rss newRS w w' -> protected d rss' newRS w w'.
Proof.
  intros Hp (He & Hs & Ha). unfold protected. rewrite <- !(total_perm _ _ _ Hp). split; [|done].
  intros name Hn. apply He. by rewrite Hp.
Qed.

Lemma shrunk_available takes rss w w' :
  Forall healthy rss -> shrunk takes rss w w' ->
  total rs_AvailableReplicas rss - Z.max 0 takes <= total (serverAvailable w') rss.
Proof.
  intros Hh (_ & Hs & Ht). rewrite <- total_minus in Ht.
  enough (total (fun rs => rs_AvailableReplicas rs - (size rs - serverSize w' rs)) rss
          <= total (serverAvailable w') rss) as Hle by (rewrite total_minus in Hle; lia).
  apply total_le. eapply Forall_impl; [apply Forall_and; split; [apply Hh|apply Hs]|].
  unfold healthy, serverAvailable. simpl. lia.
Qed.

Lemma shrunk_protected takes d rss newRS w w' :
  Forall healthy rss -> mayTake d rss newRS takes -> shrunk takes rss w w' -> protected d rss newRS w w'.
Proof.
  intros Hh [Ht1 Ht2] Hs. pose proof (shrunk_available _ _ _ _ Hh Hs) as Ha.
  destruct Hs as (He & Hs & Ht). assert (total (serverSize w') rss <= total size rss) as Hle.
  { apply total_le. eapply Forall_impl; [apply Hs|]. simpl. lia. }
  unfold protected. split; [done|]. lia.
Qed.

(** The clean-up takes no available pod. *)
Lemma cleaned_protected takes d rss newRS w w' r :
  takes <= Z.max 0 (total size rss - (wanted d - Z.max (limitOf strategy d) (size newRS))) ->
  cleaned takes rss w w' r -> protected d rss newRS w w'.
Proof.
  intros Ht (( He & Hs & Htotal) & Ha & _).
  assert (total (serverSize w') rss <= total size rss) as Hle.
  { apply total_le. eapply Forall_impl; [apply Hs|]. simpl. lia. }
  assert (total rs_AvailableReplicas rss <= total (serverAvailable w') rss).
  { apply total_le. eapply Forall_impl; [apply Ha|]. unfold serverAvailable. simpl. lia. }
  unfold protected. split; [done|]. lia.
Qed.

Lemma total_same f g rss rss' :
  Forall2 (fun rs rs' => f rs = g rs') rss rss' -> total f rss = total g rss'.
Proof. unfold total, sumZ. induction 1; simpl; lia. Qed.

(** The ReplicaSets the clean-up answers stand for the ones it was given. *)
Lemma cleaned_stands takes d rss rss' newRS w w' t :
  sensible d rss newRS -> Forall (outdated d) rss -> NoDup (map rsName rss) ->
  cleaned takes rss w w' (Ok (rss', t)) ->
  map rsName rss' = map rsName rss /\ Forall (agrees w') rss' /\ Forall (outdated d) rss'
  /\ sensible d rss' newRS /\ total rs_AvailableReplicas rss' = total rs_AvailableReplicas rss
  /\ total size rss' <= total size rss /\ total size rss - Z.max 0 takes <= total size rss'.
Proof.
  intros Hs Hold Hdup ((He & Hsizes & Htotal) & Ha & Hok). specialize (Hok _ _ eq_refl).
  assert (total rs_AvailableReplicas rss' = total rs_AvailableReplicas rss) as Eav.
  { symmetry. apply total_same. eapply Forall2_impl; [apply Hok|]. by intros ? ? (? & ? & ? & ?). }
  assert (total size rss' = total (serverSize w') rss) as Esz.
  { symmetry. apply total_same. eapply Forall2_impl; [apply Hok|]. by intros ? ? (? & ? & ? & ?). }
  assert (total (serverSize w') rss <= total size rss) as Hle.
  { apply total_le. eapply Forall_impl; [apply Hsizes|]. simpl. lia. }
  split_and!; try lia.
  - clear -Hok. induction Hok as [|? ? ? ? (Hn & _)]; simpl; congruence.
  - eapply Forall2_Forall_r; [apply Hok|]. apply Forall_true. intros. by eapply sameBut_agrees.
  - eapply Forall2_Forall_r; [apply Hok|]. eapply Forall_impl; [apply Hold|].
    unfold outdated. by intros rs Ho y (_ & _ & _ & ->).
  - destruct Hs as [? ? ? ? Hh]. split; [done..|lia|done|]. eapply Forall2_Forall_r; [apply Hok|].
    eapply Forall_impl; [apply Forall_and; split; [apply Hh|apply Ha]|].
    unfold healthy. intros rs [Hrs Hav] y (_ & -> & -> & _). simpl in *. lia.
Qed.

Lemma cleaned_shrunk_protected takes takes' d rss rss' newRS w w1 w2 t :
  sensible d rss newRS -> Forall (outdated d) rss -> NoDup (map rsName rss) ->
  takes <= Z.max 0 (total size rss - (wanted d - Z.max (limitOf strategy d) (size newRS))) ->
  cleaned takes rss w w1 (Ok (rss', t)) -> mayTake d rss' newRS takes' -> shrunk takes' rss' w1 w2 ->
  protected d rss newRS w w2.
Proof.
  intros Hs Hold Hdup Htakes Hc Hmay Hshrunk.
  destruct (cleaned_stands _ _ _ _ _ _ _ _ Hs Hold Hdup Hc) as (Hn & _ & _ & Hs' & Eav & Hle & Hge).
  destruct Hc as ((He & _) & _ & Hok). specialize (Hok _ _ eq_refl).
  destruct (shrunk_protected _ _ _ _ _ _ (sensible_old _ _ _ Hs') Hmay Hshrunk) as (He2 & Hsz & Hav).
  assert (total (serverSize w2) rss = total (serverSize w2) rss') as E1.
  { apply total_same. eapply Forall2_impl; [apply Hok|]. unfold serverSize. by intros ? ? (-> & _). }
  assert (total (serverAvailable w2) rss = total (serverAvailable w2) rss') as E2.
  { apply total_same. eapply Forall2_impl; [apply Hok|].
    unfold serverAvailable, serverSize. by intros ? ? (-> & _ & -> & _). }
  unfold protected. rewrite E1, E2. split; [|lia].
  intros name Hname. rewrite He2 by (by rewrite Hn). by apply He.
Qed.

(** One ReplicaSet grows by what is missing. *)
Lemma grown_protected d rs rest newRS w w' :
  Forall (agrees w) rest -> Forall healthy (rs :: rest) -> rsName rs ∉ map rsName rest ->
  elsewhere [rsName rs] w w' -> size rs <= serverSize w' rs ->
  serverSize w' rs - size rs
  <= Z.max 0 (wanted d - Z.max (limitOf strategy d) (size newRS) - total size (rs :: rest)) ->
  protected d (rs :: rest) newRS w w'.
Proof.
  intros Ha Hh Hname He Hge Hle.
  assert (Forall (agrees w') rest) as Ha' by (eapply agrees_elsewhere; [done|set_solver|done]).
  assert (total (serverSize w') rest = total size rest) as E.
  { apply total_same, Forall_Forall2_diag. eapply Forall_impl; [apply Ha'|]. done. }
  assert (total rs_AvailableReplicas (rs :: rest) <= total (serverAvailable w') (rs :: rest)) as Hav.
  { apply Forall_cons in Hh as [Hrs Hh]. apply total_le. constructor.
    - unfold healthy in Hrs. unfold serverAvailable. lia.
    - eapply Forall_impl; [apply Forall_and; split; [apply Hh|apply Ha']|].
      unfold healthy, serverAvailable, agrees. simpl. lia. }
  unfold protected. split; [|unfold total, sumZ in *; simpl in *; lia].
  intros name Hn. apply He. rewrite fmap_cons in Hn. set_solver.
Qed.

Lemma scaleUpOld_run rss newRS n d w r d' w' :
  Forall (agrees w) rss -> NoDup (map rsName rss) -> sensible d rss newRS ->
  n = wanted d - Z.max (limitOf strategy d) (size newRS) - total size rss ->
  scaleUpOldReplicaSets strategy rss n (d, w) = (r, (d', w')) -> d' = d /\ protected d rss newRS w w'.
Proof.
  intros Ha Hdup Hs Hn Hrun. pose proof (sensible_bounds _ _ _ Hs) as Hb.
  assert (protected d rss newRS w w) as Hsame.
  { apply (shrunk_protected 0); [apply Hs|unfold mayTake; lia|]. by apply shrunk_refl, healthy_sizes, Hs. }
  unfold scaleUpOldReplicaSets in Hrun. case_decide as Hneg; [by cbv [ret] in Hrun; simplify_eq|].
  destruct (sortSlice bySizeOlder rss) as [|rs rest] eqn:Esort; [by cbv [ret] in Hrun; simplify_eq|].
  assert (rss ≡ₚ rs :: rest) as Hp by (by rewrite <- Esort, sortSlice_perm).
  pose proof (sensible_perm _ _ _ _ Hp Hs) as Hh%sensible_old.
  rewrite Hp in Ha, Hdup. rewrite fmap_cons, NoDup_cons in Hdup. apply Forall_cons in Ha as [Ha Has].
  apply bind_ret_inv in Hrun as (r1 & Hrun & _). apply scaleAndRecord_run in Hrun as (-> & Helse & Hsize & _).
  split; [done|]. specialize (Hsize Ha). eapply protected_perm; [symmetry; apply Hp|].
  rewrite (total_perm _ _ _ Hp) in Hn, Hb.
  pose proof (total_elem size (rs :: rest) rs ltac:(set_solver) (healthy_sizes _ Hh)).
  assert (0 <= size rs) by (apply healthy_sizes in Hh; by apply Forall_cons in Hh as []).
  rewrite wrap32_id in Hsize by (unfold in32; lia).
  apply (grown_protected _ _ _ _ w); [done|done|apply Hdup|done|lia..].
Qed.

(** C25. One pass over the old ReplicaSets, however it ends, with the numbers of the cache
    true and the array of the old ones not shared with the list of all: it writes no other
    ReplicaSet; the old ones together keep the pods the partition leaves them, unless they
    had fewer, and grow no further than that; and with the new one they keep as many
    available pods as the strategy asks for, unless there were fewer. *)
Theorem old_pods_protected (allRSs oldRSs : list ReplicaSet) (newRS : ReplicaSet) d w r d' w'
    (Hnames : NoDup (map rsName oldRSs)) (Hagrees : Forall (agrees w) oldRSs)
    (Hold : Forall (outdated d) oldRSs) (Hsensible : sensible d oldRSs newRS)
    (Hroom : hasRoom (length oldRSs) = false)
    (Hrun : reconcileOldReplicaSets strategy allRSs oldRSs newRS (d, w) = (r, (d', w'))) :
  d' = d /\ protected d oldRSs newRS w w'.
Proof.
  pose proof (sensible_bounds _ _ _ Hsensible) as Hb.
  assert (protected d oldRSs newRS w w) as Hsame.
  { apply (shrunk_protected 0); [apply Hsensible|unfold mayTake; lia|].
    by apply shrunk_refl, healthy_sizes, Hsensible. }
  unfold reconcileOldReplicaSets in Hrun. case_decide; [by cbv [ret] in Hrun; simplify_eq|].
  rewrite bind_getC in Hrun. cbv zeta in Hrun. rewrite (ScaleDownLimitForOld_val _ _ _ Hsensible) in Hrun.
  set (limit := total size oldRSs - _) in Hrun.
  case_decide as Hlimit.
  { rewrite wrap32_id in Hrun by (unfold in32; lia).
    eapply scaleUpOld_run; [done..| |apply Hrun]. lia. }
  set (maxDown := Z.min _ limit) in Hrun. case_decide; [by cbv [ret] in Hrun; simplify_eq|].
  assert (sortSlice byCreationTimestamp oldRSs ≡ₚ oldRSs) as Hp by apply sortSlice_perm.
  unfold cleanupUnhealthyReplicas in Hrun. revert Hp Hrun.
  generalize (sortSlice byCreationTimestamp oldRSs). intros sorted Hp Hrun. symmetry in Hp.
  rewrite Hp in Hnames, Hagrees, Hold. pose proof (sensible_perm _ _ _ _ Hp Hsensible) as Hs.
  assert (Htotal := total_perm size _ _ Hp).
  enough (d' = d /\ protected d sorted newRS w w') as [? ?] by (split; [done|]; by eapply protected_perm).
  clear Hsame Hsensible.
  apply bind_run_inv in Hrun as [(c & [d1 w1] & Hcatch & Hrun)|(r1 & Hcatch & Hfail & _)];
    unfold catch in Hcatch; destruct (cleanupLoop strategy maxDown 0 sorted (d, w)) as [r2 [d2 w2]] eqn:Hclean;
    apply cleanupLoop_run in Hclean as [-> Hclean]; try done; try lia; try (apply Hs).
  all: assert (protected d sorted newRS w w2) as Hpart by (eapply cleaned_protected; [|done]; lia).
  2: { by destruct r2; simplify_eq; try (by edestruct Hfail). }
  destruct r2 as [[olds count]|err|]; [| |done]; injection Hcatch as <- <- <-;
    [|by cbv [ret] in Hrun; simplify_eq].
  destruct (cleaned_stands _ _ _ _ _ _ _ _ Hs Hold Hnames Hclean) as (En & Ha & Ho & Hs' & _).
  assert (length olds = length oldRSs) as El.
  { by rewrite <- (length_map rsName olds), En, length_map, Hp. }
  apply bind_run_inv in Hrun as [(c & [d1 w1] & Hcatch & Hrun)|(r1 & Hcatch & Hfail & _)];
    unfold catch in Hcatch; destruct (scaleDownOldReplicaSetsForRollingUpdate strategy olds newRS (d, w2))
      as [r3 [d3 w3]] eqn:Hdown;
    apply (scaleDownOld_run olds newRS) in Hdown as (-> & takes & Hmay & Hshrunk); try done; try congruence.
  all: assert (protected d sorted newRS w w3) as Hall
    by (eapply cleaned_shrunk_protected; [done..| |done|done|done]; lia).
  - by destruct r3, c as [|]; cbv [ret] in Hrun; simplify_eq.
  - by destruct r3; simplify_eq.
Qed.
End rolling.
