(* ===== verification/AdvancedScaling.v ===== *)
(** * Proportional scaling of advanced Deployments

    The sizes [scale] of sync.go computes: they add up to what the Deployment asks for. *)

From S2P Require Export AdvancedProofs.

Section scaling.
Context `{K8sLib} `{Strconv} `{FloatOverflow}.
Variable strategy : DeploymentStrategy.

(** What a ReplicaSet was annotated with, or else the size of the Deployment. *)
Definition annotatedSize (d : Deployment) (rs : ReplicaSet) : Z :=
  default (ds_Replicas (dep_Status d)) (getMaxReplicasAnnotation rs).

(** The product of the fraction fits, and its divisor is positive. *)
Definition divisible (d : Deployment) (rs : ReplicaSet) : Prop :=
  0 <= size rs < 2 ^ 31 /\ size rs * (wanted d + MaxSurge strategy d) < 2 ^ 31 /\ 0 < annotatedSize d rs.

Lemma roundQuotient_bounds a b : 0 <= a < 2 ^ 31 -> 0 < b -> 0 <= roundQuotient a b <= a.
Proof.
  intros Ha Hb. unfold roundQuotient. rewrite decide_False by lia. cbv zeta.
  assert (0 <= (2 * Z.abs a + Z.abs b) / (2 * Z.abs b) <= a \/ a = 0 /\ (2 * Z.abs a + Z.abs b) / (2 * Z.abs b) = 0)
    as Hq.
  { rewrite !Z.abs_eq by lia. destruct (decide (a = 0)) as [->|].
    - right. split; [done|]. apply Z.div_small. lia.
    - left. split; [apply Z.div_pos; lia|]. enough ((2 * a + b) / (2 * b) < a + 1) by lia.
      apply Z.div_lt_upper_bound; [lia|nia]. }
  assert (Z.sgn b = 1) as -> by lia.
  assert ((Z.sgn a = 0 /\ a = 0) \/ Z.sgn a = 1) as [[-> Ha0]| ->] by lia.
  - rewrite !Z.mul_0_l. cbv zeta. case_decide as Hn; [lia|]. exfalso. apply Hn. unfold in32. lia.
  - rewrite !Z.mul_1_l. cbv zeta. case_decide as Hn; [lia|]. exfalso. apply Hn. unfold in32. lia.
Qed.

Lemma getReplicaSetFraction_bounds rs d :
  0 <= wanted d -> 0 <= MaxSurge strategy d -> wanted d + MaxSurge strategy d < 2 ^ 31 -> divisible d rs ->
  - size rs <= getReplicaSetFraction strategy rs d
  <= Z.max 0 (size rs * (wanted d + MaxSurge strategy d) - size rs).
Proof.
  intros Hw Hs Hfits (Hpos & Hprod & Hann). unfold getReplicaSetFraction. case_decide.
  { rewrite wrap32_id by (unfold in32; lia). lia. }
  rewrite (wrap32_id (wanted d + _)), (wrap32_id (size rs * _)) by (unfold in32; nia). cbv zeta.
  fold (annotatedSize d rs).
  pose proof (roundQuotient_bounds (size rs * (wanted d + MaxSurge strategy d)) (annotatedSize d rs)).
  rewrite wrap32_id by (unfold in32; nia). nia.
Qed.

(** A share never overshoots, and never takes more pods than there are. *)
Lemma GetProportion_bounds rs d toAdd added :
  0 <= wanted d -> 0 <= MaxSurge strategy d -> wanted d + MaxSurge strategy d < 2 ^ 31 -> divisible d rs ->
  in32 (toAdd - added) ->
  let p := GetProportion strategy rs d toAdd added in
  (0 < toAdd -> added <= toAdd -> - size rs <= p <= toAdd - added)
  /\ (toAdd < 0 -> toAdd <= added ->
      toAdd - added <= p /\ - size rs <= p <= Z.max 0 (size rs * (wanted d + MaxSurge strategy d) - size rs)).
Proof.
  intros Hw Hs Hfits Hdiv Hin p. subst p. unfold GetProportion.
  pose proof (getReplicaSetFraction_bounds rs d Hw Hs Hfits Hdiv) as Hf.
  assert (0 <= size rs) by apply Hdiv.
  case_match eqn:E.
  - apply orb_true_iff in E as [[E|E]%orb_true_iff|E]; apply bool_decide_eq_true in E; lia.
  - rewrite wrap32_id by done. destruct (decide (toAdd > 0)); lia.
Qed.

(** The sizes of the map, over a list of ReplicaSets. *)
Definition sizeOf (m : gmap string Z) (rs : ReplicaSet) : Z := default 0 (m !! rsName rs).

Lemma proportions_other d toAdd added rss m name :
  name ∉ map rsName rss -> fst (proportions strategy d toAdd added rss m) !! name = m !! name.
Proof.
  revert added m. induction rss as [|rs rss IH]; intros added m Hname; [done|].
  rewrite fmap_cons, not_elem_of_cons in Hname. simpl.
  case_decide; rewrite IH by tauto; rewrite lookup_insert_ne by naive_solver; done.
Qed.

Lemma proportions_none d added rss m : snd (proportions strategy d 0 added rss m) = added.
Proof. revert m. induction rss as [|rs rss IH]; intros m; [done|]. simpl. apply IH. Qed.

Lemma sizeOf_ext m m' rss :
  (forall rs, rs ∈ rss -> m !! rsName rs = m' !! rsName rs) -> total (sizeOf m) rss = total (sizeOf m') rss.
Proof.
  intros Hm. apply total_same, Forall_Forall2_diag, Forall_forall. intros rs Hrs.
  unfold sizeOf. by rewrite Hm.
Qed.

(** What has been added so far, with so many pods to go: it stays within what is asked
    for, and no number of the rest overflows. *)
Definition onTheWay (d : Deployment) (toAdd added rest : Z) : Prop :=
  (0 <= toAdd -> added <= toAdd /\ - 2 ^ 31 <= added - rest /\ toAdd - added + rest < 2 ^ 31)
  /\ (toAdd < 0 -> toAdd <= added
      /\ added - toAdd + rest + rest * (wanted d + MaxSurge strategy d) < 2 ^ 31).

Lemma share_step d toAdd added rs rest :
  0 <= wanted d -> 0 <= MaxSurge strategy d -> wanted d + MaxSurge strategy d < 2 ^ 31 -> divisible d rs ->
  toAdd <> 0 -> in32 toAdd -> 0 <= rest -> onTheWay d toAdd added (size rs + rest) ->
  let p := GetProportion strategy rs d toAdd added in
  in32 (added + p) /\ in32 (size rs + p) /\ 0 <= size rs + p /\ onTheWay d toAdd (added + p) rest.
Proof.
  intros Hw Hs Hfits Hdiv Hne Hin Hrest [Hup Hdown] p. assert (0 <= size rs) by apply Hdiv.
  assert (0 <= size rs * (wanted d + MaxSurge strategy d)) by nia.
  assert (0 <= rest * (wanted d + MaxSurge strategy d)) by nia. rewrite Z.mul_add_distr_r in Hdown.
  unfold in32 in *. destruct (GetProportion_bounds rs d toAdd added) as [Hpup Hpdown]; try done.
  { unfold in32. lia. }
  fold p in Hpup, Hpdown. unfold onTheWay. lia.
Qed.

Lemma proportions_run d toAdd rss :
  0 <= wanted d -> 0 <= MaxSurge strategy d -> wanted d + MaxSurge strategy d < 2 ^ 31 -> in32 toAdd ->
  Forall (divisible d) rss -> NoDup (map rsName rss) -> forall added m,
  onTheWay d toAdd added (total size rss) ->
  let '(m', added') := proportions strategy d toAdd added rss m in
  onTheWay d toAdd added' 0 /\ total (sizeOf m') rss = total size rss + (added' - added)
  /\ Forall (fun rs => 0 <= sizeOf m' rs) rss.
Proof.
  intros Hw Hs Hfits Hin Hdiv. induction Hdiv as [|rs rss Hrs Hdiv IH]; intros Hdup added m Hway; simpl.
  { unfold total, sumZ in *. simpl in *. split; [done|]. split; [lia|done]. }
  rewrite fmap_cons, NoDup_cons in Hdup. destruct Hdup as [Hname Hdup].
  assert (0 <= total size rss) as Hrest.
  { apply total_nonneg. eapply Forall_impl; [apply Hdiv|]. intros ? (Hp & _); apply Hp. }
  assert (0 <= size rs) by apply Hrs.
  change (total size (rs :: rss)) with (size rs + total size rss) in *.
  set (p := if decide (toAdd = 0) then 0 else GetProportion strategy rs d toAdd added).
  assert (in32 (added + p) /\ in32 (size rs + p) /\ 0 <= size rs + p
          /\ onTheWay d toAdd (added + p) (total size rss)) as (Ha & Hsp & Hp0 & Hway').
  { subst p. case_decide; [|by apply share_step]. unfold onTheWay, in32 in *. nia. }
  assert (forall m0, m0 = <[rsName rs := size rs + p]> m ->
    let '(m', added') := proportions strategy d toAdd (added + p) rss m0 in
    onTheWay d toAdd added' 0 /\ sizeOf m' rs + total (sizeOf m') rss
      = size rs + total size rss + (added' - added)
    /\ Forall (fun rs => 0 <= sizeOf m' rs) (rs :: rss)) as Hgoal.
  { intros m0 ->. specialize (IH Hdup (added + p) (<[rsName rs := size rs + p]> m) Hway').
    pose proof (proportions_other d toAdd (added + p) rss (<[rsName rs := size rs + p]> m) (rsName rs) Hname) as Ho.
    destruct (proportions _ _ _ _ _ _) as [m' added']. simpl in Ho. rewrite lookup_insert_eq in Ho.
    assert (sizeOf m' rs = size rs + p) as E by (unfold sizeOf; by rewrite Ho).
    rewrite E. destruct IH as (? & ? & ?). split; [done|]. split; [lia|]. constructor; [lia|done]. }
  subst p. case_decide.
  - rewrite Z.add_0_r in *. rewrite !Z.add_0_r in Hgoal. by apply Hgoal.
  - rewrite !wrap32_id by done. by apply Hgoal.
Qed.

Lemma sizeOf_insert m rs rest n :
  rsName rs ∉ map rsName rest -> total (sizeOf (<[rsName rs := n]> m)) (rs :: rest) = n + total (sizeOf m) rest.
Proof.
  intros Hname. change (total (sizeOf (<[rsName rs := n]> m)) (rs :: rest))
    with (sizeOf (<[rsName rs := n]> m) rs + total (sizeOf (<[rsName rs := n]> m)) rest).
  f_equal; [unfold sizeOf; by rewrite lookup_insert_eq|].
  apply sizeOf_ext. intros rs' Hrs'. apply lookup_insert_ne. intros E. apply Hname. rewrite E.
  by apply list_elem_of_fmap_2.
Qed.

(** C30. Proportional scaling: the sizes computed for the active ReplicaSets are never
    negative and add up to the pods there were and the ones to add, exactly, unless pods
    are taken away and the largest ReplicaSet, the first one, ends without any, in which
    case fewer are taken. *)
Theorem proportional_scaling d toAdd first rest
    (Hwanted : 0 <= wanted d) (Hsurge : 0 <= MaxSurge strategy d)
    (Hfits : wanted d + MaxSurge strategy d < 2 ^ 31) (Hdiv : Forall (divisible d) (first :: rest))
    (Hnames : NoDup (map rsName (first :: rest)))
    (Hsmall : Z.abs toAdd + total size (first :: rest)
              + total size (first :: rest) * (wanted d + MaxSurge strategy d) < 2 ^ 31) :
  let sizes := sizeOf (scaledSizes strategy d toAdd (first :: rest)) in
  Forall (fun rs => 0 <= sizes rs) (first :: rest)
  /\ (total sizes (first :: rest) = total size (first :: rest) + toAdd
      \/ (toAdd < 0 /\ sizes first = 0 /\ total size (first :: rest) + toAdd <= total sizes (first :: rest))).
Proof.
  assert (0 <= total size (first :: rest)) as Hpos.
  { apply total_nonneg. eapply Forall_impl; [apply Hdiv|]. intros ? (Hp & _). apply Hp. }
  assert (0 <= total size (first :: rest) * (wanted d + MaxSurge strategy d)) as Hprod by nia.
  assert (in32 toAdd) as Hin by (unfold in32; lia).
  pose proof (proportions_run d toAdd (first :: rest) Hwanted Hsurge Hfits Hin Hdiv Hnames 0 ∅) as Hrun.
  cbv zeta. unfold scaledSizes. destruct (proportions _ _ _ _ _ _) as [m added] eqn:Hprop.
  destruct Hrun as (Hway & Htotal & Hsizes); [unfold onTheWay; lia|].
  rewrite fmap_cons, NoDup_cons in Hnames. destruct Hnames as [Hname _].
  unfold withLeftover. case_decide as Hzero.
  { subst toAdd. pose proof (proportions_none d 0 (first :: rest) ∅) as Hnone. rewrite Hprop in Hnone.
    simpl in Hnone. subst added. split; [done|]. left. lia. }
  assert (Hsizes' := Hsizes). apply Forall_cons in Hsizes' as [Hfirst Hrest].
  pose proof (total_nonneg _ _ Hrest) as Hothers.
  change (total (sizeOf m) (first :: rest)) with (sizeOf m first + total (sizeOf m) rest) in Htotal.
  unfold onTheWay in Hway. fold (sizeOf m first). rewrite (wrap32_id (toAdd - added)) by (unfold in32; lia).
  rewrite wrap32_id by (unfold in32; lia). rewrite sizeOf_insert by done.
  assert (forall n, 0 <= n -> Forall (fun rs => 0 <= sizeOf (<[rsName first := n]> m) rs) (first :: rest)) as Hall.
  { intros n Hn. eapply Forall_impl; [apply Hsizes|]. intros rs Hrs. unfold sizeOf.
    destruct (decide (rsName first = rsName rs)) as [->|Hne]; [by rewrite lookup_insert_eq|].
    by rewrite lookup_insert_ne. }
  assert (forall n, sizeOf (<[rsName first := n]> m) first = n) as Hat
    by (intros n; unfold sizeOf; by rewrite lookup_insert_eq).
  rewrite Hat. case_decide; (split; [apply Hall; lia|]); lia.
Qed.
End scaling.
