(* ===== verification/NativeDaemonSet.v ===== *)
(** * The controller of native DaemonSets (pkg/controller/nativedaemonset)

    nativedaemoset_util.go and [Reconcile] of nativedaemonset_controller.go: a DaemonSet
    with the update strategy [OnDelete] is updated by deleting pods, down to the partition
    in an annotation and within [maxUnavailable].  The handlers of pod events, which only
    observe deletions, are here; start-up and the watch of DaemonSets are not. *)

From S2P Require Export CanaryControls PartitionControls.

(** ** Arithmetic and order (nativedaemoset_util.go) *)

Definition PodDeletionCostAnnotation : string := "controller.kubernetes.io/pod-deletion-cost".

(** [fmt.Sscanf(s, "%d", &v)] with an int32: spaces and a sign before the digits, and
    anything after them; a newline before them does not match. *)
Fixpoint skipSpaces (s : string) : string :=
  match s with
  | String c rest =>
      if bool_decide (Ascii.nat_of_ascii c ∈ [9; 11; 12; 13; 32]%nat) then skipSpaces rest else s
  | EmptyString => s
  end.
Definition digitOf (c : Ascii.ascii) : option Z :=
  let n := Ascii.nat_of_ascii c in
  if bool_decide (48 <= n <= 57)%nat then Some (Z.of_nat (n - 48)) else None.
Fixpoint scanDigits (acc : Z) (s : string) : Z :=
  match s with
  | String c rest => match digitOf c with Some k => scanDigits (10 * acc + k) rest | None => acc end
  | EmptyString => acc
  end.
Definition scanNumber (s : string) : option Z :=
  match s with
  | String c rest => match digitOf c with Some _ => Some (scanDigits 0 s) | None => None end
  | EmptyString => None
  end.
Definition Sscanf_d (s : string) : option Z :=
  n ← match skipSpaces s with
      | String c rest =>
          if Nat.eqb (Ascii.nat_of_ascii c) 45 then Z.opp <$> scanNumber rest
          else if Nat.eqb (Ascii.nat_of_ascii c) 43 then scanNumber rest
          else scanNumber (String c rest)
      | EmptyString => None
      end;
  if decide (in32 n) then Some n else None.

Definition CalculateDesiredUpdatedReplicas (partitionStr : string) (totalPods : Z) : res Z :=
  match Sscanf_d partitionStr with
  | None => Err (ErrOther ("invalid partition value " +:+ partitionStr)%string)
  | Some partition =>
      let desiredUpdatedReplicas := wrap32 (wrap32 totalPods - partition) in
      Ok (if decide (desiredUpdatedReplicas < 0) then 0 else desiredUpdatedReplicas)
  end.

Definition nds_GetMaxUnavailable `{K8sLib} (daemon : DaemonSet) : Z :=
  match dst_MaxUnavailable daemon with
  | None => 1
  | Some v =>
      match GetScaledValueFromIntOrPercent (Some v) (dss_DesiredNumberScheduled (dst_Status daemon)) false with
      | (n, None) => if decide (n > 0) then wrap32 n else 1
      | (_, Some _) => 1
      end
  end.

(** The first condition of the type decides. *)
Definition GetPodReadiness (pod : Pod) : bool :=
  match filter (fun c => podc_Type c = PodReady) (pod_Conditions pod) with
  | c :: _ => bool_decide (podc_Status c = ConditionTrue)
  | [] => false
  end.

Definition GetPodDeletionCost `{Strconv} (pod : Pod) : Z :=
  match default ∅ (Annotations (pod_Meta pod)) !! PodDeletionCostAnnotation with
  | None => 0
  | Some costStr =>
      match Atoi costStr with
      | Some cost => if decide (in32 cost) then cost else 0
      | None => 0
      end
  end.

Definition PodPending : string := "Pending".

(** The order of deletion: pending, not ready, cheap, and new pods first. *)
Definition deletedBefore `{Strconv} (podI podJ : Pod) : bool :=
  let pendingI := String.eqb (pod_Phase podI) PodPending in
  let pendingJ := String.eqb (pod_Phase podJ) PodPending in
  if pendingI && negb pendingJ then true
  else if negb pendingI && pendingJ then false
  else if negb (GetPodReadiness podI) && GetPodReadiness podJ then true
  else if GetPodReadiness podI && negb (GetPodReadiness podJ) then false
  else if negb (bool_decide (GetPodDeletionCost podI = GetPodDeletionCost podJ))
  then bool_decide (GetPodDeletionCost podI < GetPodDeletionCost podJ)
  else bool_decide (CreationTimestamp (pod_Meta podI) > CreationTimestamp (pod_Meta podJ)).
Definition SortPodsForDeletion `{Strconv} `{SortLib} (pods : list Pod) : list Pod :=
  sortSlice deletedBefore pods.

(** Updated pods, the ones of them that are not ready, and the other pods. *)
Fixpoint ClassifyPods (pods : list Pod) (updateRevision : string) : Z * Z * list Pod :=
  match pods with
  | [] => (0, 0, [])
  | pod :: rest =>
      let '(updatedPods, notReady, podsToDelete) := ClassifyPods rest updateRevision in
      if IsConsistentWithRevision (Labels (pod_Meta pod)) updateRevision
      then (wrap32 (updatedPods + 1), if IsPodReady pod then notReady else wrap32 (notReady + 1), podsToDelete)
      else (updatedPods, notReady, pod :: podsToDelete)
  end.

Fixpoint quotaLoop (pods : list Pod) (needToDelete maxUnavailable actualNeedToDelete unavailableCount : Z) : Z :=
  match pods with
  | [] => actualNeedToDelete
  | pod :: rest =>
      if decide (actualNeedToDelete >= needToDelete) then actualNeedToDelete
      else if deleting (pod_Meta pod)
      then quotaLoop rest needToDelete maxUnavailable actualNeedToDelete (wrap32 (unavailableCount + 1))
      else if negb (IsPodReady pod)
      then quotaLoop rest needToDelete maxUnavailable (wrap32 (actualNeedToDelete + 1)) unavailableCount
      else if decide (unavailableCount >= maxUnavailable) then actualNeedToDelete
      else quotaLoop rest needToDelete maxUnavailable (wrap32 (actualNeedToDelete + 1))
             (wrap32 (unavailableCount + 1))
  end.
Definition CalculateDeletionQuota (sortedPodsToDelete : list Pod)
    (needToDelete updatedAndNotReadyCount maxUnavailable : Z) : Z :=
  quotaLoop sortedPodsToDelete needToDelete maxUnavailable 0 updatedAndNotReadyCount.

(** ** Batches of goroutines *)

(** The order in which the goroutines of a batch run; each is taken as one step. *)
Class Goroutines := goOrder : forall {A}, list A -> list A.
Class GoroutinesLaws `{Goroutines} := goOrder_perm : forall {A} (l : list A), goOrder l ≡ₚ l.

Section slow_start.
Context {W : Type} `{Goroutines}.

(** All of them run, whatever fails; the errors in the order of the channel. *)
Fixpoint runBatch (batch : list nat) (fn : nat -> M W unit) : M W (list goerror) :=
  match batch with
  | [] => ret []
  | idx :: rest =>
      r <- catch (fn idx) ;;
      errs <- runBatch rest fn ;;
      ret (match r with inl _ => errs | inr err => err :: errs end)
  end.

(** The indices left, in batches that double; the fuel is their number. *)
Fixpoint slowStartLoop (fuel batchSize : nat) (indices : list nat) (successes : Z) (fn : nat -> M W unit)
    : M W (Z * option goerror) :=
  match fuel, batchSize with
  | S fuel, S _ =>
      errs <- runBatch (goOrder (take batchSize indices)) fn ;;
      let successes := successes + (Z.of_nat batchSize - len errs) in
      match errs with
      | err :: _ => ret (successes, Some err)
      | [] =>
          let remaining := drop batchSize indices in
          slowStartLoop fuel (Nat.min (2 * batchSize) (length remaining)) remaining successes fn
      end
  | _, _ => ret (successes, None)
  end.
Definition SlowStartBatch (count initialBatchSize : nat) (fn : nat -> M W unit) : M W (Z * option goerror) :=
  slowStartLoop count (Nat.min count initialBatchSize) (seq 0 count) 0 fn.
End slow_start.

(** ** The controller (nativedaemonset_controller.go) *)

(** [fmt.Sprintf("%s/%s", namespace, name)] *)
Definition dsKeyOf (namespace name : string) : string := (namespace +:+ "/" +:+ name)%string.

Section daemonset_controller.
Context {W : Type} `{Clock W} `{HasExpectations W} `{Api W DaemonSet} `{Api W Pod} `{ObjectReader W}
  `{ListApi W Pod} `{ExpectationFlags} `{Goroutines}.
Context `{K8sLib} `{WorkloadFilter} `{StackDepth} `{SortLib} `{MetaLib} `{UnstructuredLib} `{Strconv}
  `{Json LabelSelector} `{Json DaemonSetAdvancedControlInfo} `{Json DaemonSetRevisionInfo} `{Json ObjectMeta}.

(** The pods to delete, and how many they are. *)
Definition analyzePods (pods : list Pod) (updateRevision : string) (desiredUpdatedReplicas : Z)
    (daemon : DaemonSet) : list Pod * Z :=
  let '(updatedPods, updatedAndNotReadyCount, podsToDelete) := ClassifyPods pods updateRevision in
  if decide (updatedPods >= desiredUpdatedReplicas) then (podsToDelete, 0) else
  let needToDelete := wrap32 (desiredUpdatedReplicas - updatedPods) in
  let podsToDelete := SortPodsForDeletion podsToDelete in
  let actualNeedToDelete := CalculateDeletionQuota podsToDelete needToDelete updatedAndNotReadyCount
                              (nds_GetMaxUnavailable daemon) in
  (if decide (wrap32 (len podsToDelete) > actualNeedToDelete)
   then take (Z.to_nat actualNeedToDelete) podsToDelete else podsToDelete, actualNeedToDelete).

(** One goroutine: the deletion is expected before it is asked for; one that failed is
    taken for observed, and only a pod that is gone already is no failure. *)
Definition deletePod (dsKey : string) (pod : Pod) : M W unit :=
  ExpectResource dsKey Expectation.Delete (UID (pod_Meta pod)) ;;
  r <- catch (api_Delete (O := Pod) (keyOf (pod_Meta pod))) ;;
  match r with
  | inl _ => ret tt
  | inr deleteErr =>
      ObserveResource dsKey Expectation.Delete (UID (pod_Meta pod)) ;;
      if IsNotFound deleteErr then ret tt else fail deleteErr
  end.

Definition executePodDeletion (actualPodsToDelete : list Pod) (daemon : DaemonSet) : M W unit :=
  let dsKey := dsKeyOf (Namespace (dst_Meta daemon)) (Name (dst_Meta daemon)) in
  r <- SlowStartBatch (length actualPodsToDelete) 1 (fun index =>
         pod <- lift (deref (actualPodsToDelete !! index)) ;; deletePod dsKey pod) ;;
  match snd r with
  | Some err => fail err
  | None => ret tt
  end.

Definition nds_processBatch (daemon : DaemonSet) (pods : list Pod) (desiredReplicas : Z) : M W unit :=
  let '(_, batchRevision) := ParseDaemonSetAdvancedControl (Annotations (dst_Meta daemon)) in
  let '(actualPodsToDelete, needToDelete) := analyzePods pods batchRevision desiredReplicas daemon in
  if decide (needToDelete = 0) then ret tt else executePodDeletion actualPodsToDelete daemon.

(** The time after which to look again. *)
Definition nds_Reconcile (key : ObjectKey) : M W (option Z) :=
  let dsKey := dsKeyOf (fst key) (snd key) in
  r <- catch (api_Get (O := DaemonSet) key) ;;
  match r with
  | inr err => if IsNotFound err then DeleteResourceExpectations dsKey ;; ret None else fail err
  | inl daemon =>
      let '(partitionStr, _) := ParseDaemonSetAdvancedControl (Annotations (dst_Meta daemon)) in
      if String.eqb partitionStr "" then ret None else
      s <- SatisfiedResourceExpectations dsKey ;;
      let '(satisfied, timeoutDuration) := s in
      if negb satisfied && bool_decide (timeoutDuration < ExpectationTimeout) then ret (Some (2 * Second)) else
      (if satisfied : bool then ret tt else DeleteResourceExpectations dsKey) ;;
      pods <- ListOwnedPods (ODaemonSet daemon) ;;
      desiredUpdatedReplicas <- lift (CalculateDesiredUpdatedReplicas partitionStr (len pods)) ;;
      nds_processBatch daemon pods desiredUpdatedReplicas ;;
      ret None
  end.

(** ** The events of pods *)

(** The key of the DaemonSet that controls a pod. *)
Definition controllingDaemonSet (pod : Pod) : option string :=
  (fun ref => dsKeyOf (Namespace (pod_Meta pod)) (or_Name ref)) <$>
    head (filter (fun ref => or_Kind ref = "DaemonSet"%string /\ or_APIVersion ref = "apps/v1"%string
                             /\ or_Controller ref = true) (OwnerReferences (pod_Meta pod))).

(** A pod that begins to terminate is observed, when something is expected for its key. *)
Definition podUpdated (oldPod newPod : Pod) : M W unit :=
  if negb (deleting (pod_Meta oldPod)) && deleting (pod_Meta newPod) then
    match controllingDaemonSet newPod with
    | Some dsKey =>
        w <- get ;;
        match resource_GetExpectations (expectationsOf w) dsKey with
        | Some cache => if bool_decide (cache = ∅) then ret tt
                        else ObserveResource dsKey Expectation.Delete (UID (pod_Meta newPod))
        | None => ret tt
        end
    | None => ret tt
    end
  else ret tt.

Definition podDeleted (pod : Pod) : M W unit :=
  match controllingDaemonSet pod with
  | Some dsKey => ObserveResource dsKey Expectation.Delete (UID (pod_Meta pod))
  | None => ret tt
  end.
End daemonset_controller.
