(* ===== verification/NativeDaemonSetProofs.v ===== *)
(** * What the native DaemonSet controller deletes

    The pods one pass chooses, and which of them the batches of goroutines reach. *)

From S2P Require Export NativeDaemonSet.

(** ** The choice of the pods *)

Definition updatedTo (revision : string) (pod : Pod) : Prop :=
  IsConsistentWithRevision (Labels (pod_Meta pod)) revision = true.
(** A pod whose deletion makes one more pod unavailable. *)
Definition serving (pod : Pod) : Prop := deleting (pod_Meta pod) = false /\ IsPodReady pod = true.
#[export] Instance updatedTo_dec revision pod : Decision (updatedTo revision pod).
Proof. unfold updatedTo. apply _. Defined.
#[export] Instance serving_dec pod : Decision (serving pod).
Proof. unfold serving. apply _. Defined.
Definition updatedPods (revision : string) (pods : list Pod) : list Pod := filter (updatedTo revision) pods.
Definition oldPods (revision : string) (pods : list Pod) : list Pod := filter (fun p => ~ updatedTo revision p) pods.
Definition updatedNotReady (revision : string) (pods : list Pod) : list Pod :=
  filter (fun p => IsPodReady p = false) (updatedPods revision pods).

Lemma ClassifyPods_run pods revision :
  len pods < 2 ^ 31 ->
  ClassifyPods pods revision
  = (len (updatedPods revision pods), len (updatedNotReady revision pods), oldPods revision pods).
Proof.
  unfold len. induction pods as [|pod pods IH]; intros Hlen; [done|]. simpl in Hlen.
  simpl ClassifyPods. rewrite IH by lia.
  pose proof (length_filter (updatedTo revision) pods) as Hu.
  pose proof (length_filter (fun p => IsPodReady p = false) (updatedPods revision pods)) as Hn.
  unfold updatedNotReady, oldPods, updatedPods in *. rewrite !filter_cons.
  destruct (decide (updatedTo revision pod)) as [E|E].
  - rewrite (decide_False (P := ~ _)) by tauto. unfold updatedTo in E. rewrite E, filter_cons.
    rewrite wrap32_id by (unfold in32; lia). destruct (IsPodReady pod) eqn:Er.
    + rewrite decide_False by done. simpl. do 2 f_equal. lia.
    + rewrite decide_True by done. simpl. rewrite wrap32_id by (unfold in32; lia). repeat f_equal; lia.
  - rewrite decide_True by done. unfold updatedTo in E. by destruct (IsConsistentWithRevision _ _).
Qed.

Definition servingAmong (pods : list Pod) : Z := len (filter serving pods).

Lemma servingAmong_take k pods : servingAmong (take k pods) <= servingAmong (take (S k) pods).
Proof.
  unfold servingAmong, len. revert k. induction pods as [|p pods IH]; intros k; [by destruct k|].
  destruct k as [|k]; [simpl; lia|]. change (take (S (S k)) (p :: pods)) with (p :: take (S k) pods).
  change (take (S k) (p :: pods)) with (p :: take k pods). rewrite !filter_cons. specialize (IH k).
  case_decide; simpl; lia.
Qed.

Lemma servingAmong_cons p pods :
  servingAmong (p :: pods) = (if decide (serving p) then 1 else 0) + servingAmong pods.
Proof. unfold servingAmong, len. rewrite filter_cons. case_decide; simpl; lia. Qed.

(** So many pods of a prefix of the list, few of which serve. *)
Definition withinQuota (pods : list Pod) (need maxU a u r : Z) : Prop :=
  a <= r <= Z.max a need /\ r - a <= len pods
  /\ servingAmong (take (Z.to_nat (r - a)) pods) <= Z.max 0 (maxU - u).

Lemma withinQuota_stop pods need maxU a u : withinQuota pods need maxU a u a.
Proof. unfold withinQuota. replace (a - a) with 0 by lia. unfold servingAmong, len. simpl. lia. Qed.

Lemma withinQuota_pick pod pods need maxU a u u' r :
  a < need -> (if decide (serving pod) then 1 else 0) + Z.max 0 (maxU - u') <= Z.max 0 (maxU - u) ->
  withinQuota pods need maxU (a + 1) u' r -> withinQuota (pod :: pods) need maxU a u r.
Proof.
  intros Hneed Hserve (Hr & Hlen & Hs). unfold withinQuota, len in *. simpl length.
  split; [lia|]. split; [lia|]. replace (Z.to_nat (r - a)) with (S (Z.to_nat (r - (a + 1)))) by lia.
  simpl. rewrite servingAmong_cons. lia.
Qed.

Lemma withinQuota_skip pod pods need maxU a u u' r :
  ~ serving pod -> u <= u' -> withinQuota pods need maxU a u' r -> withinQuota (pod :: pods) need maxU a u r.
Proof.
  intros Hserve Hu (Hr & Hlen & Hs). unfold withinQuota, len in *. simpl length.
  split; [lia|]. split; [lia|]. destruct (Z.to_nat (r - a)) as [|k]; [unfold servingAmong, len; simpl; lia|].
  simpl. rewrite servingAmong_cons, decide_False by done. pose proof (servingAmong_take k pods). lia.
Qed.

Lemma quotaLoop_run pods need maxU a u :
  0 <= a -> 0 <= u -> a + len pods < 2 ^ 31 -> u + len pods < 2 ^ 31 ->
  withinQuota pods need maxU a u (quotaLoop pods need maxU a u).
Proof.
  unfold len. revert a u. induction pods as [|pod pods IH]; intros a u Ha Hu Hla Hlu; simpl in *.
  { apply withinQuota_stop. }
  case_decide as Hneed; [apply withinQuota_stop|]. destruct (deleting (pod_Meta pod)) eqn:Edel.
  { rewrite wrap32_id by (unfold in32; lia). eapply withinQuota_skip; [| |apply IH; lia]; [|lia].
    intros [? _]. congruence. }
  destruct (IsPodReady pod) eqn:Eready; simpl.
  - case_decide; [apply withinQuota_stop|]. rewrite !wrap32_id by (unfold in32; lia).
    apply (withinQuota_pick _ _ _ _ _ _ (u + 1)); [lia|case_decide; lia|apply IH; lia].
  - rewrite wrap32_id by (unfold in32; lia).
    apply (withinQuota_pick _ _ _ _ _ _ u); [lia| |apply IH; lia].
    rewrite decide_False by (intros [_ ?]; congruence). lia.
Qed.

(** With room for one more, and nothing in the way, the first pod is taken. *)
Lemma quotaLoop_progress pod pods need maxU u :
  0 <= u -> len (pod :: pods) + u < 2 ^ 31 -> 0 < need -> u < maxU -> deleting (pod_Meta pod) = false ->
  1 <= quotaLoop (pod :: pods) need maxU 0 u.
Proof.
  unfold len. simpl length. intros Hu Hlen Hneed Hmax Hdel. simpl. rewrite decide_False by lia. rewrite Hdel.
  destruct (IsPodReady pod); simpl; [rewrite decide_False by lia|];
    rewrite !wrap32_id by (unfold in32; lia); change (0 + 1) with 1.
  - destruct (quotaLoop_run pods need maxU 1 (u + 1)) as (? & _); unfold len; lia.
  - destruct (quotaLoop_run pods need maxU 1 u) as (? & _); unfold len; lia.
Qed.

Section choice.
Context `{K8sLib} `{SortLib} `{!SortLaws} `{Strconv}.

(** C29. The pods that one pass chooses to delete: some of those that are not updated, each
    once, and as many as reported; with the updated ones they are no more than desired;
    the serving ones among them keep within what the updated pods that are not ready
    leave of [maxUnavailable]; and when pods are missing, none terminates and that is
    something, at least one is chosen. *)
Theorem deletion_choice_bounded (pods : list Pod) revision desired daemon victims n
    (Hpods : 2 * len pods < 2 ^ 31) (Hdesired : desired < 2 ^ 31)
    (Hchoice : analyzePods pods revision desired daemon = (victims, n)) :
  let quota := Z.max 0 (nds_GetMaxUnavailable daemon - len (updatedNotReady revision pods)) in
  let missing := Z.max 0 (desired - len (updatedPods revision pods)) in
  0 <= n <= missing
  /\ (0 < n -> len victims = n
      /\ (exists others, victims ++ others ≡ₚ oldPods revision pods)
      /\ servingAmong victims <= quota)
  /\ (0 < missing -> 0 < quota -> oldPods revision pods <> [] ->
      Forall (fun p => deleting (pod_Meta p) = false) (oldPods revision pods) -> 0 < n).
Proof.
  intros quota missing. unfold analyzePods in Hchoice. rewrite ClassifyPods_run in Hchoice by lia.
  pose proof (length_filter (updatedTo revision) pods) as Hu.
  pose proof (length_filter (fun p => IsPodReady p = false) (updatedPods revision pods)) as Hn.
  pose proof (length_filter (fun p => ~ updatedTo revision p) pods) as Ho.
  fold (updatedPods revision pods) in Hu. fold (updatedNotReady revision pods) in Hn.
  fold (oldPods revision pods) in Ho. unfold len in *.
  case_decide as Hdone; [simplify_eq; split; [lia|]; split; lia|].
  rewrite (wrap32_id (desired - _)) in Hchoice by (unfold in32; lia).
  unfold SortPodsForDeletion, CalculateDeletionQuota in Hchoice.
  pose proof (sortSlice_perm deletedBefore (oldPods revision pods)) as Hp.
  assert (Hl := Permutation_length Hp).
  revert Hp Hl Hchoice. generalize (sortSlice deletedBefore (oldPods revision pods)). intros sorted Hp Hl Hchoice.
  destruct (quotaLoop_run sorted (desired - Z.of_nat (length (updatedPods revision pods)))
    (nds_GetMaxUnavailable daemon) 0 (Z.of_nat (length (updatedNotReady revision pods)))) as (Hr & Hlen & Hs);
    unfold len in *; [lia..|].
  set (count := quotaLoop _ _ _ _ _) in *. rewrite Z.sub_0_r in *.
  rewrite (wrap32_id (Z.of_nat (length sorted))) in Hchoice by (unfold in32; lia).
  assert (victims = take (Z.to_nat count) sorted /\ n = count) as [-> ->].
  { case_decide; simplify_eq; [done|]. split; [|done]. symmetry. apply take_ge. lia. }
  split; [lia|]. split.
  - intros Hpos. split; [rewrite length_take; lia|]. split; [|unfold quota; lia].
    exists (drop (Z.to_nat count) sorted). by rewrite take_drop.
  - intros Hmiss Hquota Hne Hlive. subst count. destruct sorted as [|pod sorted].
    { apply Permutation_nil_l in Hp. by rewrite Hp in Hne. }
    rewrite <- Hp in Hlive. apply Forall_cons in Hlive as [Hlive _].
    enough (1 <= quotaLoop (pod :: sorted) (desired - Z.of_nat (length (updatedPods revision pods)))
      (nds_GetMaxUnavailable daemon) 0 (Z.of_nat (length (updatedNotReady revision pods)))) by lia.
    apply quotaLoop_progress; unfold len; try lia. done.
Qed.
End choice.

(** ** The batches of goroutines *)

Section batches.
Context {W : Type} `{Goroutines} `{!GoroutinesLaws}.
Variable fn : nat -> M W unit.

(** The calls of [fn] on these indices, one after the other, and the ones that failed. *)
Inductive runs : list nat -> list nat -> W -> W -> Prop :=
  | runs_nil w : runs [] [] w w
  | runs_ok idx indices failed w w1 w2 :
      fn idx w = (Ok tt, w1) -> runs indices failed w1 w2 -> runs (idx :: indices) failed w w2
  | runs_err idx e indices failed w w1 w2 :
      fn idx w = (Err e, w1) -> runs indices failed w1 w2 -> runs (idx :: indices) (idx :: failed) w w2.

Lemma runs_app l l' f f' w w1 w2 : runs l f w w1 -> runs l' f' w1 w2 -> runs (l ++ l') (f ++ f') w w2.
Proof. induction 1; intros; simpl; [done|eapply runs_ok; eauto|eapply runs_err; eauto]. Qed.

(** [fn] never panics. *)
Definition safe : Prop := forall idx w, fst (fn idx w) <> Panic.

Lemma runBatch_run batch w :
  safe -> exists errs failed w', runBatch batch fn w = (Ok errs, w') /\ runs batch failed w w'
    /\ length errs = length failed.
Proof.
  intros Hsafe. revert w. induction batch as [|idx batch IH]; intros w; simpl.
  { exists [], [], w. split; [done|]. split; [constructor|done]. }
  pose proof (Hsafe idx w) as Hidx. unfold bind, catch.
  destruct (fn idx w) as [[[]|e|] w1] eqn:Efn; [| |done];
    destruct (IH w1) as (errs & failed & w2 & -> & Hruns & Hlen); unfold ret.
  - exists errs, failed, w2. split; [done|]. split; [by eapply runs_ok|done].
  - exists (e :: errs), (idx :: failed), w2. split; [done|]. split; [by eapply runs_err|simpl; lia].
Qed.

Lemma slowStartLoop_run fuel batchSize indices successes w :
  safe -> (length indices <= fuel)%nat -> (batchSize <= length indices)%nat ->
  (batchSize = 0 -> indices = [])%nat ->
  exists order rest failed s r w',
    slowStartLoop fuel batchSize indices successes fn w = (Ok (s, r), w')
    /\ order ++ rest ≡ₚ indices /\ runs order failed w w'
    /\ s = successes + (len order - len failed)
    /\ (r = None <-> failed = []) /\ (r = None -> rest = []).
Proof.
  intros Hsafe. revert batchSize indices successes w.
  induction fuel as [|fuel IH]; intros batchSize indices successes w Hfuel Hsize Hzero.
  { destruct indices; [|simpl in Hfuel; lia]. exists [], [], [], successes, None, w. unfold len. simpl.
    split; [done|]. split; [done|]. split; [constructor|]. split; [lia|done]. }
  destruct batchSize as [|batchSize].
  { rewrite (Hzero eq_refl). exists [], [], [], successes, None, w. unfold len. simpl.
    split; [done|]. split; [done|]. split; [constructor|]. split; [lia|done]. }
  cbn [slowStartLoop]. set (n := S batchSize) in *.
  destruct (runBatch_run (goOrder (take n indices)) w Hsafe) as (errs & failed & w1 & Hbatch & Hruns & Hlen).
  pose proof (goOrder_perm (take n indices)) as Hp.
  assert (length (goOrder (take n indices)) = n) as Hn by (rewrite Hp, length_take; lia).
  unfold bind. rewrite Hbatch. destruct errs as [|err errs].
  - destruct failed; [|done].
    destruct (IH (Nat.min (2 * n) (length (drop n indices))) (drop n indices)
      (successes + (Z.of_nat n - len (@nil goerror))) w1) as (order & rest & failed & s & r & w' & -> & Hord & Hr & Hs & Hrest).
    { rewrite length_drop. lia. }
    { lia. }
    { intros Hmin. apply length_zero_iff_nil. lia. }
    exists (goOrder (take n indices) ++ order), rest, failed, s, r, w'. split; [done|].
    split; [rewrite <- app_assoc, Hord, Hp; by rewrite take_drop|].
    split; [by apply (runs_app _ _ [] failed _ w1)|]. split; [|done].
    unfold len in *. rewrite length_app. simpl in Hs. lia.
  - exists (goOrder (take n indices)), (drop n indices), failed, (successes + (Z.of_nat n - len (err :: errs))),
      (Some err), w1. split; [done|]. split; [rewrite Hp; by rewrite take_drop|]. split; [done|].
    split; [unfold len in *; lia|]. split; [|done]. split; [done|]. intros ->. by simpl in Hlen.
Qed.

(** [SlowStartBatch] ends, however large the count: when no call panics it calls the
    function at most once on each index, in some order of batches, reports the calls that
    succeeded, and reports no error exactly when none failed, in which case it has called
    the function on every index. *)
Theorem slow_start_complete (count initial : nat) (w : W) (Hinitial : (1 <= initial)%nat) (Hsafe : safe) :
  exists order rest failed s r w',
    SlowStartBatch count initial fn w = (Ok (s, r), w')
    /\ order ++ rest ≡ₚ seq 0 count /\ runs order failed w w'
    /\ s = len order - len failed
    /\ (r = None <-> failed = []) /\ (r = None -> rest = []).
Proof.
  unfold SlowStartBatch.
  destruct (slowStartLoop_run count (Nat.min count initial) (seq 0 count) 0 w) as
    (order & rest & failed & s & r & w' & Hrun & Hrest); rewrite ?length_seq; [done|lia|lia| |].
  { intros Hmin. assert (count = 0%nat) as -> by lia. done. }
  exists order, rest, failed, s, r, w'. split; [done|]. naive_solver.
Qed.
End batches.
