(* ===== verification/Watching.v ===== *)
(** * What the controllers see of the API server

    Start-up: which watches every controller sets up, with their handlers and predicates,
    and the watches that are added later for other kinds of workloads; and the listing
    from the informer cache that copies nothing (pkg/util/client). *)

From S2P Require Export EventHandlers BatchExecutor NativeDaemonSet.

(** ** Watches *)

(** What is watched: the typed objects, and an unstructured object of any kind. *)
Inductive Source :=
  | SourceRollout
  | SourceBatchRelease
  | SourceAlphaRollout
  | SourceRolloutHistory
  | SourceTrafficRouting
  | SourcePod
  | SourceReplicaSet
  | SourceWebhookConfiguration
  | SourceKind (gvk : GroupVersionKind)
  | SourceUnstructured (gvk : GroupVersionKind).
#[export] Instance Source_eq_dec : EqDecision Source.
Proof. solve_decision. Defined.

(** The handlers of the events, and the predicates before them. *)
Inductive Handler :=
  | EnqueueRequestForObject
  | EnqueueRequestForOwner
  | HandleBatchRelease
  | HandleWorkloadOfRollout
  | HandleWorkloadOfRelease
  | HandlePod
  | HandleRolloutForHistory
  | HandleRolloutHistory
  | HandleWebhookConfiguration.
Inductive Predicate := NoPredicate | ReleaseUpdated | DeploymentUpdated | DaemonSetChanged | PodObserved.
#[export] Instance Handler_eq_dec : EqDecision Handler.
Proof. solve_decision. Defined.
#[export] Instance Predicate_eq_dec : EqDecision Predicate.
Proof. solve_decision. Defined.

Definition Watch : Type := string * Source * Handler * Predicate.

(** controller-runtime: making a controller, and giving it a watch. *)
Class Controllers (W : Type) := {
  controller_New : string -> M W unit;
  c_Watch : Watch -> M W unit
}.

(** The discovery client: the kinds of a group version; without a client (in tests) every
    kind is taken for existing. *)
Class Discovery (W : Type) := {
  hasGenericClient : bool;
  ServerResourcesForGroupVersion : string -> M W (list string)
}.

(** [retry.OnError] with [retry.DefaultRetry], for every error. *)
Class RetryAll (W : Type) := RetryOnError : M W unit -> M W unit.

(** [GroupVersion().String()] *)
Class GvkText := gv_String : string -> string -> string.

(** ** Discovery (rollout_utils.go) *)

Section watching.
Context {W : Type} `{Controllers W} `{Discovery W} `{RetryAll W} `{GvkText}.

Definition DiscoverGVK (gvk : GroupVersionKind) : M W bool :=
  if negb (hasGenericClient (W := W)) then ret true else
  r <- catch (RetryOnError (
         kinds <- ServerResourcesForGroupVersion (gv_String (Group gvk) (Version gvk)) ;;
         if existsb (String.eqb (GVKKind gvk)) kinds then ret tt else fail ErrNotFound)) ;;
  ret (match r with inl _ => true | inr err => negb (IsNotFound err) end).

(** A kind with a CRD is watched only where it is found. *)
Definition watchIfFound (c : string) (h : Handler) (gvk : GroupVersionKind) : M W unit :=
  found <- DiscoverGVK gvk ;;
  if found : bool then c_Watch (c, SourceKind gvk, h, NoPredicate) else ret tt.

Definition AddWorkloadWatcher (c : string) (h : Handler) : M W unit :=
  c_Watch (c, SourceKind ControllerKindDep, h, NoPredicate) ;;
  c_Watch (c, SourceKind ControllerKindSts, h, NoPredicate) ;;
  c_Watch (c, SourceKind ControllerKindDS, h, NoPredicate) ;;
  watchIfFound c h ControllerKruiseKindCS ;;
  watchIfFound c h ControllerKruiseKindDS ;;
  watchIfFound c h ControllerKruiseKindSts.

Definition GetGVKFrom `{K8sLib} (workloadRef : option ObjectRef) : GroupVersionKind :=
  match workloadRef with
  | None => mkGVK "" "" ""
  | Some ref => FromAPIVersionAndKind (APIVersion ref) (Kind ref)
  end.

(** The watch of another kind; whether the kind was found. *)
Definition util_AddWatcherDynamically (c : string) (h : Handler) (gvk : GroupVersionKind) : M W bool :=
  found <- DiscoverGVK gvk ;;
  if found : bool then c_Watch (c, SourceUnstructured gvk, h, NoPredicate) ;; ret true else ret false.

(** ** The controllers *)

(** The kinds both controllers take for watched from the start ([init]). *)
Definition watchedWorkload : list GroupVersionKind :=
  [ControllerKindDep; ControllerKindSts; ControllerKindDS; ControllerKruiseKindCS; ControllerKruiseKindSts;
   ControllerKruiseOldKindSts; ControllerKruiseKindDS].

Definition rolloutController : string := "rollout-controller".
Definition rollout_SetupWithManager : M W unit :=
  controller_New rolloutController ;;
  c_Watch (rolloutController, SourceRollout, EnqueueRequestForObject, NoPredicate) ;;
  c_Watch (rolloutController, SourceBatchRelease, HandleBatchRelease, NoPredicate) ;;
  AddWorkloadWatcher rolloutController HandleWorkloadOfRollout.

Definition trafficRoutingController : string := "trafficrouting-controller".
Definition trafficrouting_SetupWithManager : M W unit :=
  controller_New trafficRoutingController ;;
  c_Watch (trafficRoutingController, SourceTrafficRouting, EnqueueRequestForObject, NoPredicate).

Definition releaseController : string := "batchrelease-controller".
Definition batchrelease_add : M W unit :=
  controller_New releaseController ;;
  c_Watch (releaseController, SourceBatchRelease, EnqueueRequestForObject, ReleaseUpdated) ;;
  c_Watch (releaseController, SourcePod, HandlePod, NoPredicate) ;;
  AddWorkloadWatcher releaseController HandleWorkloadOfRelease.

Definition historyController : string := "rollouthistory-controller".
Definition history_add : M W unit :=
  controller_New historyController ;;
  c_Watch (historyController, SourceAlphaRollout, HandleRolloutForHistory, NoPredicate) ;;
  c_Watch (historyController, SourceRolloutHistory, HandleRolloutHistory, NoPredicate).
Definition history_Add (RolloutHistoryGate : bool) : M W unit :=
  if RolloutHistoryGate then history_add else ret tt.

Definition deploymentController : string := "advanced-deployment-controller".
Definition deployment_add : M W unit :=
  controller_New deploymentController ;;
  c_Watch (deploymentController, SourceReplicaSet, EnqueueRequestForOwner, NoPredicate) ;;
  c_Watch (deploymentController, SourceWebhookConfiguration, HandleWebhookConfiguration, NoPredicate) ;;
  c_Watch (deploymentController, SourceKind ControllerKindDep, EnqueueRequestForObject, DeploymentUpdated).
Definition deployment_Add (AdvancedDeploymentGate : bool) : M W unit :=
  if negb AdvancedDeploymentGate then ret tt else deployment_add.

Definition daemonsetController : string := "native-daemonset-controller".
Definition nativedaemonset_add : M W unit :=
  controller_New daemonsetController ;;
  c_Watch (daemonsetController, SourceKind ControllerKindDS, EnqueueRequestForObject, DaemonSetChanged) ;;
  c_Watch (daemonsetController, SourcePod, EnqueueRequestForObject, PodObserved).

(** [main] gives up at the first error. *)
Definition setupControllers (RolloutHistoryGate AdvancedDeploymentGate : bool) : M W unit :=
  rollout_SetupWithManager ;;
  trafficrouting_SetupWithManager ;;
  batchrelease_add ;;
  history_Add RolloutHistoryGate ;;
  deployment_Add AdvancedDeploymentGate ;;
  nativedaemonset_add.
End watching.

(** ** The predicates *)

(** [len(old) != len(new) || !reflect.DeepEqual(old, new)]: a nil map differs from an empty
    one. *)
Definition annotationsChanged (oldObject newObject : ObjectMeta) : bool :=
  let count m := Z.of_nat (size (default ∅ (Annotations m))) in
  negb (bool_decide (count oldObject = count newObject))
  || negb (bool_decide (Annotations oldObject = Annotations newObject)).

(** Of a BatchRelease: its spec, its annotations, and everything once it is being deleted. *)
Definition releaseUpdated (oldObject newObject : ObjectMeta) : bool :=
  if bool_decide (Generation oldObject <> Generation newObject) || deleting newObject then true
  else annotationsChanged oldObject newObject.

(** The same of a Deployment, while it is under advanced control. *)
Definition deploymentUpdated (oldObject newObject : Deployment) : bool :=
  if negb (IsUnderRolloutControl newObject) then false
  else releaseUpdated (dep_Meta oldObject) (dep_Meta newObject).

(** Of a native DaemonSet: the partition in the annotation, and with one the status.
    [sameStatus] tells whether [reflect.DeepEqual] finds the whole statuses equal, which
    have more fields than this model. *)
Definition daemonsetUpdated (sameStatus : bool) (oldObject newObject : DaemonSet) : bool :=
  let oldPartition := annotation (dst_Meta oldObject) DaemonSetAdvancedControlAnnotation in
  let newPartition := annotation (dst_Meta newObject) DaemonSetAdvancedControlAnnotation in
  if negb (String.eqb oldPartition newPartition) then true
  else nonempty newPartition && negb sameStatus.
Definition daemonsetCreated (ds : DaemonSet) : bool :=
  hasAnnotation (dst_Meta ds) DaemonSetAdvancedControlAnnotation.

(** ** Listing without copies (no_deepcopy_lister.go, cache.go) *)

(** What the cache may hold: an object, as its metadata can be read, or something else. *)
Inductive CacheItem (O : Type) :=
  | CacheObject (o : O) (m : res ObjectMeta)
  | CacheOther.
Arguments CacheObject {O}.
Arguments CacheOther {O}.

(** [toolscache.Indexer] *)
Record Indexer (O : Type) := mkIndexer {
  idx_ByIndex : string -> string -> res (list (CacheItem O));
  idx_List : list (CacheItem O)
}.
Arguments idx_ByIndex {O}.
Arguments idx_List {O}.

Inductive SelectionOperator := OpEquals | OpDoubleEquals | OpNotEquals.
#[export] Instance SelectionOperator_eq_dec : EqDecision SelectionOperator.
Proof. solve_decision. Defined.
Record FieldRequirement := mkRequirement {
  fr_Field : string;
  fr_Operator : SelectionOperator;
  fr_Value : string
}.

(** [client.ListOptions] after [ApplyOptions]; a field selector is its requirements. *)
Record ListOptions := mkListOptions {
  lo_FieldSelector : option (list FieldRequirement);
  lo_Namespace : string;
  lo_LabelSelector : option (gmap string string -> bool);
  lo_Limit : Z
}.

Definition requiresExactMatch (reqs : list FieldRequirement) : string * string * bool :=
  match reqs with
  | [req] =>
      if negb (bool_decide (fr_Operator req = OpEquals)) && negb (bool_decide (fr_Operator req = OpDoubleEquals))
      then (""%string, ""%string, false) else (fr_Field req, fr_Value req, true)
  | _ => (""%string, ""%string, false)
  end.

Definition FieldIndexName (field : string) : string := ("field:" +:+ field)%string.
Definition allNamespacesNamespace : string := "__all_namespaces".
Definition KeyToNamespacedKey (ns baseKey : string) : string :=
  if nonempty ns then (ns +:+ "/" +:+ baseKey)%string else (allNamespacesNamespace +:+ "/" +:+ baseKey)%string.
Definition NamespaceIndex : string := "namespace".

Section lister.
Context {O : Type}.

Definition listCandidates (indexer : Indexer O) (opts : ListOptions) : res (list (CacheItem O)) :=
  match lo_FieldSelector opts with
  | Some reqs =>
      let '(field, val, requiresExact) := requiresExactMatch reqs in
      if negb requiresExact then Err (ErrOther "non-exact field matches are not supported by the cache")
      else idx_ByIndex indexer (FieldIndexName field) (KeyToNamespacedKey (lo_Namespace opts) val)
  | None =>
      if nonempty (lo_Namespace opts) then idx_ByIndex indexer NamespaceIndex (lo_Namespace opts)
      else Ok (idx_List indexer)
  end.

(** The loop; [found] counts the objects taken. *)
Fixpoint listLoop (opts : ListOptions) (found : Z) (objs : list (CacheItem O)) : res (list O) :=
  match objs with
  | [] => Ok []
  | item :: rest =>
      if bool_decide (lo_Limit opts > 0) && bool_decide (found >= lo_Limit opts) then Ok []
      else
        match item with
        | CacheOther => Err (ErrOther "cache contained a value, which is not an Object")
        | CacheObject obj meta =>
            res_bind meta (fun m =>
            if match lo_LabelSelector opts with Some sel => negb (sel (Labels m)) | None => false end
            then listLoop opts found rest
            else res_map (cons obj) (listLoop opts (found + 1) rest))
        end
  end.

(** The kind of the list without its suffix, then the informer of the kind. *)
Definition hasSuffix (suffix s : string) : bool :=
  (String.length suffix <=? String.length s)%nat
  && String.eqb (String.substring (String.length s - String.length suffix) (String.length suffix) s) suffix.
Definition itemKind (listKind : GroupVersionKind) : res GroupVersionKind :=
  if negb (hasSuffix "List" (GVKKind listKind)) then Err (ErrOther "non-list type passed as output")
  else Ok (mkGVK (Group listKind) (Version listKind)
             (String.substring 0 (String.length (GVKKind listKind) - 4) (GVKKind listKind))).

(** [informers] are those of the cache, [listKind] the kind the scheme has for the type of
    the list, whose elements are objects. *)
Definition noDeepCopyLister_List (informers : GroupVersionKind -> res (Indexer O))
    (listKind : res GroupVersionKind) (opts : ListOptions) : res (list O) :=
  res_bind listKind (fun listKind =>
  res_bind (itemKind listKind) (fun gvk =>
  res_bind (informers gvk) (fun indexer =>
  res_bind (listCandidates indexer opts) (fun objs =>
  listLoop opts 0 objs)))).

(** The options of a call; the one that asks for no copies changes none of the others. *)
Inductive ListOption := DisableDeepCopy | OptionOf (apply : ListOptions -> ListOptions).
Definition ApplyToList (opts : ListOptions) (opt : ListOption) : ListOptions :=
  match opt with DisableDeepCopy => opts | OptionOf apply => apply opts end.
Definition ApplyOptions (opts : list ListOption) : ListOptions :=
  foldl ApplyToList (mkListOptions None "" None 0) opts.
Definition isDisableDeepCopy (opts : list ListOption) : bool :=
  existsb (fun opt => match opt with DisableDeepCopy => true | OptionOf _ => false end) opts.

(** [internalCache.List]: the option asks for it, and a flag may forbid it; [cache_List] is
    the cache that copies. *)
Definition internalCache_List (disableNoDeepCopy : bool) (cache_List : list ListOption -> res (list O))
    (informers : GroupVersionKind -> res (Indexer O)) (listKind : res GroupVersionKind) (opts : list ListOption)
    : res (list O) :=
  if negb disableNoDeepCopy && isDisableDeepCopy opts
  then noDeepCopyLister_List informers listKind (ApplyOptions opts) else cache_List opts.

(** Where a client puts the option does not matter. *)
Lemma ApplyOptions_disable opts opts' :
  ApplyOptions (opts ++ DisableDeepCopy :: opts') = ApplyOptions (opts ++ opts')
  /\ isDisableDeepCopy (opts ++ DisableDeepCopy :: opts') = true.
Proof.
  split; [unfold ApplyOptions; by rewrite !foldl_app|].
  unfold isDisableDeepCopy. rewrite existsb_app. apply orb_true_r.
Qed.

(** ** What the listing returns *)

(** The objects of the candidates that the labels select. *)
Definition labelled (opts : ListOptions) (om : O * ObjectMeta) : bool :=
  match lo_LabelSelector opts with Some sel => sel (Labels (snd om)) | None => true end.
Definition selected (opts : ListOptions) (objs : list (O * ObjectMeta)) : list O :=
  fst <$> List.filter (labelled opts) objs.
Definition limited (opts : ListOptions) (l : list O) : list O :=
  if decide (lo_Limit opts > 0) then take (Z.to_nat (lo_Limit opts)) l else l.

Lemma listLoop_selected opts objs found :
  0 <= found ->
  listLoop opts found ((fun om => CacheObject (fst om) (Ok (snd om))) <$> objs)
  = Ok (if decide (lo_Limit opts > 0) then take (Z.to_nat (lo_Limit opts - found)) (selected opts objs)
        else selected opts objs).
Proof.
  unfold selected. revert found. induction objs as [|[o m] objs IH]; intros found Hf.
  { simpl. case_decide; [by rewrite take_nil|done]. }
  assert (Hskip : match lo_LabelSelector opts with Some sel => negb (sel (Labels m)) | None => false end
                  = negb (labelled opts (o, m))) by (unfold labelled; by destruct (lo_LabelSelector opts)).
  simpl. rewrite Hskip. destruct (decide (lo_Limit opts > 0)) as [Hl|Hl].
  - rewrite (bool_decide_eq_true_2 _ Hl). simpl. case_bool_decide as Hfull.
    { by replace (Z.to_nat (lo_Limit opts - found)) with 0%nat by lia. }
    destruct (labelled opts (o, m)); simpl; rewrite IH by lia; [|done].
    by replace (Z.to_nat (lo_Limit opts - found)) with (S (Z.to_nat (lo_Limit opts - (found + 1)))) by lia.
  - rewrite (bool_decide_eq_false_2 _ Hl). simpl. destruct (labelled opts (o, m)); simpl; by rewrite IH by lia.
Qed.

(** When the cache holds objects only, the listing has the first of the candidates that
    the labels select, in the order of the cache, and all of them without a limit. *)
Lemma list_first informers listKind opts gvk indexer objs :
  itemKind listKind = Ok gvk -> informers gvk = Ok indexer ->
  listCandidates indexer opts = Ok ((fun om => CacheObject (fst om) (Ok (snd om))) <$> objs) ->
  noDeepCopyLister_List informers (Ok listKind) opts = Ok (limited opts (selected opts objs)).
Proof.
  intros Hk Hi Hc. unfold noDeepCopyLister_List. simpl. rewrite Hk. simpl. rewrite Hi. simpl. rewrite Hc. simpl.
  rewrite listLoop_selected by lia. unfold limited. by rewrite Z.sub_0_r.
Qed.

(** Every list kind of a kind leads back to it. *)
Lemma itemKind_list gvk : itemKind (mkGVK (Group gvk) (Version gvk) (GVKKind gvk +:+ "List")) = Ok gvk.
Proof.
  assert (Hlen : forall s t, String.length (s +:+ t) = (String.length s + String.length t)%nat).
  { intros s t. induction s as [|c s IH]; [done|]. by apply (f_equal S). }
  assert (Hpre : forall s t, String.substring 0 (String.length s) (s +:+ t) = s).
  { intros s t. induction s as [|c s IH]; [by destruct t|]. by apply (f_equal (String c)). }
  assert (Hsuf : forall s t, String.substring (String.length s) (String.length t) (s +:+ t) = t).
  { intros s t. induction s as [|c s IH]; [|done].
    simpl. clear. induction t as [|c t IH]; [done|]. by apply (f_equal (String c)). }
  destruct gvk as [g v k]. unfold itemKind, hasSuffix. cbn [GVKKind Group Version].
  assert (Hl : String.length (k +:+ "List") = (String.length k + 4)%nat) by by rewrite Hlen.
  rewrite Hl. change (String.length "List") with 4%nat. rewrite Nat.add_sub, Hpre.
  change (String.substring (String.length k) 4 (k +:+ "List"))
    with (String.substring (String.length k) (String.length "List") (k +:+ "List")).
  rewrite Hsuf, String.eqb_refl. by rewrite (proj2 (Nat.leb_le _ _)) by lia.
Qed.
End lister.

(** ** What is watched after start-up *)

(** The watches that were set up, the last one first. *)
Class WatchLog (W : Type) := watches : W -> list Watch.
Class WatchLaws (W : Type) `{WatchLog W} `{Controllers W} `{Discovery W} `{RetryAll W} := {
  watch_new c w r w' : controller_New c w = (r, w') -> watches w' = watches w;
  watch_adds x w r w' : c_Watch x w = (r, w') ->
    watches w' = match r with Ok _ => x :: watches w | _ => watches w end;
  watch_discovery gv w r w' : ServerResourcesForGroupVersion gv w = (r, w') -> watches w' = watches w;
  (** What every try keeps, and the answer of one of them. *)
  retry_keeps f w r w' : (forall w r w', f w = (r, w') -> watches w' = watches w) ->
    RetryOnError f w = (r, w') -> watches w' = watches w;
  retry_answer f w r w' : RetryOnError f w = (r, w') -> exists w0, f w0 = (r, w')
}.

Section watched.
Context {W : Type} `{WatchLaws W} `{GvkText} `{K8sLib}.

Lemma DiscoverGVK_watches gvk (w : W) r w' : DiscoverGVK gvk w = (r, w') -> watches w' = watches w.
Proof.
  unfold DiscoverGVK. destruct (negb hasGenericClient); [by intros [= _ <-]|]. intros Hrun.
  assert (Hquiet : forall f : M W unit, (forall w0 r0 w1, f w0 = (r0, w1) -> watches w1 = watches w0) ->
    (x <- catch (RetryOnError f) ;; ret (match x with inl _ => true | inr err => negb (IsNotFound err) end)) w = (r, w') ->
    watches w' = watches w).
  { intros f Hf. unfold bind, catch, ret. destruct (RetryOnError f w) as [x w1] eqn:E.
    intros Hx. assert (w' = w1) as -> by (destruct x; by injection Hx). by eapply retry_keeps. }
  eapply Hquiet; [|exact Hrun]. clear w r w' Hrun Hquiet. intros w r w'. unfold bind.
  destruct (ServerResourcesForGroupVersion _ w) as [x w1] eqn:E. apply watch_discovery in E.
  destruct x as [kinds|e|]; [destruct (existsb _ kinds)|..]; by intros [= _ <-].
Qed.

(** A kind is given up only when the API server says that the group version has no such
    kind, or that it knows no such group version. *)
Lemma DiscoverGVK_missing gvk (w w' : W) :
  DiscoverGVK gvk w = (Ok false, w') ->
  exists w0 r, ServerResourcesForGroupVersion (gv_String (Group gvk) (Version gvk)) w0 = (r, w')
  /\ (r = Err ErrNotFound \/ exists kinds, r = Ok kinds /\ GVKKind gvk ∉ kinds).
Proof.
  unfold DiscoverGVK. destruct (negb hasGenericClient); [done|]. unfold bind, catch, ret.
  destruct (RetryOnError _ w) as [[x|e|] w1] eqn:E; [done| |done]. intros [= He <-].
  apply retry_answer in E as (w0 & E). exists w0.
  destruct (ServerResourcesForGroupVersion _ w0) as [[kinds|e'|] w2].
  - exists (Ok kinds). destruct (existsb _ kinds) eqn:Hex; [done|]. unfold fail in E. injection E as <- <-.
    split; [done|]. right. exists kinds. split; [done|]. intros Hin.
    assert (Htrue : existsb (String.eqb (GVKKind gvk)) kinds = true); [|congruence].
    apply existsb_exists. exists (GVKKind gvk). split; [by apply list_elem_of_In|apply String.eqb_refl].
  - injection E as <- <-. exists (Err e'). split; [done|]. left. by destruct e'.
  - done.
Qed.

(** The kind is watched, or discovery did not find it. *)
Definition watchedOrMissing (c : string) (h : Handler) (w : W) (gvk : GroupVersionKind) : Prop :=
  (c, SourceKind gvk, h, NoPredicate) ∈ watches w
  \/ exists w0 w1, DiscoverGVK gvk w0 = (Ok false, w1).

Lemma watchIfFound_spec c h gvk (w : W) w' :
  watchIfFound c h gvk w = (Ok tt, w') ->
  (exists l, watches w' = (l ++ watches w)%list) /\ watchedOrMissing c h w' gvk.
Proof.
  unfold watchIfFound. intros Hrun. apply bind_Ok_inv in Hrun as (found & w1 & Hd & Hrun).
  pose proof (DiscoverGVK_watches _ _ _ _ Hd) as Hw. destruct found.
  - apply watch_adds in Hrun. rewrite Hw in Hrun. split; [by exists [(c, SourceKind gvk, h, NoPredicate)]|].
    left. rewrite Hrun. by left.
  - apply ret_Ok_inv in Hrun as [_ ->]. split; [by exists []|]. right. by exists w, w1.
Qed.
Lemma watchedOrMissing_app c h gvk (w w' : W) l :
  watches w' = (l ++ watches w)%list -> watchedOrMissing c h w gvk -> watchedOrMissing c h w' gvk.
Proof. intros Hl [Hin|Hno]; [left|by right]. rewrite Hl. apply elem_of_app. by right. Qed.

(** Once [AddWorkloadWatcher] succeeds, every kind the controllers take for watched from
    the start is watched or was not found, the old kind of StatefulSets apart. *)
Lemma AddWorkloadWatcher_spec c h (w : W) w' :
  AddWorkloadWatcher c h w = (Ok tt, w') ->
  (exists l, watches w' = (l ++ watches w)%list)
  /\ forall gvk, gvk ∈ watchedWorkload -> gvk <> ControllerKruiseOldKindSts -> watchedOrMissing c h w' gvk.
Proof.
  unfold AddWorkloadWatcher. intros Hrun.
  apply bind_Ok_inv in Hrun as ([] & w1 & R1 & Hrun). apply bind_Ok_inv in Hrun as ([] & w2 & R2 & Hrun).
  apply bind_Ok_inv in Hrun as ([] & w3 & R3 & Hrun). apply bind_Ok_inv in Hrun as ([] & w4 & R4 & Hrun).
  apply bind_Ok_inv in Hrun as ([] & w5 & R5 & R6). apply watch_adds in R1, R2, R3.
  apply watchIfFound_spec in R4 as [[l4 L4] M4], R5 as [[l5 L5] M5], R6 as [[l6 L6] M6].
  rewrite L6, L5, L4, R3, R2, R1. split.
  { eexists (l6 ++ l5 ++ l4 ++ [_; _; _])%list. by rewrite <- !app_assoc. }
  assert (Hin : forall gvk, gvk ∈ [ControllerKindDS; ControllerKindSts; ControllerKindDep] -> watchedOrMissing c h w' gvk).
  { intros gvk Hgvk. left. rewrite L6, L5, L4, R3, R2, R1. do 3 (apply elem_of_app; right).
    apply (list_elem_of_fmap_2 (fun gvk => (c, SourceKind gvk, h, NoPredicate))) in Hgvk.
    change ((c, SourceKind gvk, h, NoPredicate) ∈ ((fun gvk => (c, SourceKind gvk, h, NoPredicate))
      <$> [ControllerKindDS; ControllerKindSts; ControllerKindDep]) ++ watches w)%list.
    apply elem_of_app. by left. }
  intros gvk Hgvk Hold. unfold watchedWorkload in Hgvk. rewrite !elem_of_cons in Hgvk.
  destruct Hgvk as [-> | [-> | [-> | [-> | [-> | [-> | [-> | Hnil]]]]]]]; try done.
  - apply Hin. by right; right; left.
  - apply Hin. by right; left.
  - apply Hin. by left.
  - eapply watchedOrMissing_app; [exact L6|]. by eapply watchedOrMissing_app; [exact L5|].
  - by eapply watchedOrMissing_app; [exact L6|].
  - by apply not_elem_of_nil in Hnil.
Qed.


Definition grows (w w' : W) : Prop := exists l, watches w' = (l ++ watches w)%list.
#[local] Instance grows_preorder : PreOrder grows.
Proof.
  split; [intros w; by exists []|]. intros w1 w2 w3 [l1 E1] [l2 E2]. exists (l2 ++ l1)%list.
  by rewrite E2, E1, app_assoc.
Qed.
Lemma watch_grows x : evolves grows (c_Watch x).
Proof. intros w r w' Hrun%watch_adds. destruct r; [by exists [x]|by exists []..]. Qed.
Lemma new_grows c : evolves grows (controller_New c).
Proof. intros w r w' Hrun%watch_new. by exists []. Qed.
Lemma discover_grows gvk : evolves grows (DiscoverGVK gvk).
Proof. intros w r w' Hrun%DiscoverGVK_watches. by exists []. Qed.
#[local] Hint Resolve watch_grows new_grows discover_grows : evolve.
Lemma watcher_grows c h : evolves grows (AddWorkloadWatcher c h).
Proof. unfold AddWorkloadWatcher, watchIfFound. solve_evolves. Qed.
#[local] Hint Resolve watcher_grows : evolve.

Lemma watchedOrMissing_grows c h gvk (w w' : W) :
  grows w w' -> watchedOrMissing c h w gvk -> watchedOrMissing c h w' gvk.
Proof. intros [l Hl]. by eapply watchedOrMissing_app. Qed.

(** After start-up the Rollout and the BatchRelease controllers watch these kinds, or did
    not find them; and they do not look for them again, for they take them for watched. *)
Lemma setupControllers_watches history advanced (w : W) w' gvk :
  setupControllers history advanced w = (Ok tt, w') -> gvk ∈ watchedWorkload -> gvk <> ControllerKruiseOldKindSts ->
  watchedOrMissing rolloutController HandleWorkloadOfRollout w' gvk
  /\ watchedOrMissing releaseController HandleWorkloadOfRelease w' gvk.
Proof.
  intros Hrun Hin Hold. unfold setupControllers in Hrun.
  apply bind_Ok_inv in Hrun as ([] & w1 & Hr & Hrun).
  unfold rollout_SetupWithManager in Hr. do 3 apply bind_Ok_inv in Hr as ([] & ? & _ & Hr).
  apply AddWorkloadWatcher_spec in Hr as [_ Hr].
  apply bind_Ok_inv in Hrun as ([] & w2 & Ht & Hrun). apply bind_Ok_inv in Hrun as ([] & w3 & Hb & Hrun).
  assert (Hg2 : grows w1 w2) by (eapply evolves_run; [|exact Ht]; unfold trafficrouting_SetupWithManager; solve_evolves).
  assert (Hg3 : grows w2 w3) by (eapply evolves_run; [|exact Hb]; unfold batchrelease_add; solve_evolves).
  unfold batchrelease_add in Hb. do 3 apply bind_Ok_inv in Hb as ([] & ? & _ & Hb).
  apply AddWorkloadWatcher_spec in Hb as [_ Hb].
  assert (Hg : grows w3 w').
  { eapply evolves_run; [|exact Hrun]. unfold history_Add, history_add, deployment_Add, deployment_add, nativedaemonset_add.
    solve_evolves. }
  split.
  - eapply watchedOrMissing_grows; [exact Hg|]. eapply watchedOrMissing_grows; [exact Hg3|].
    eapply watchedOrMissing_grows; [exact Hg2|]. by apply Hr.
  - eapply watchedOrMissing_grows; [exact Hg|]. by apply Hb.
Qed.

(** The watch of another kind, for the watcher of Reconcile: a kind that was found is
    watched as an unstructured object. *)
Lemma AddWatcherDynamically_spec c h gvk (w : W) found w' :
  util_AddWatcherDynamically c h gvk w = (Ok found, w') ->
  watches w' = if found then (c, SourceUnstructured gvk, h, NoPredicate) :: watches w else watches w.
Proof.
  unfold util_AddWatcherDynamically. intros Hrun. apply bind_Ok_inv in Hrun as ([] & w1 & Hd & Hrun);
    apply DiscoverGVK_watches in Hd.
  - apply bind_Ok_inv in Hrun as ([] & w2 & Hw & Hrun). apply ret_Ok_inv in Hrun as [-> ->].
    apply watch_adds in Hw. by rewrite Hw, Hd.
  - by apply ret_Ok_inv in Hrun as [-> ->].
Qed.
End watched.
