(* ===== verification/ReleaseControllers.v ===== *)
(** * The controllers of a batch release put together (batchrelease_executor.go, NewControlPlane of the three styles)

    The executor is written against the control interface; here its choice of a
    controller is answered with the control planes over the controllers of the single
    kinds, and the contract its theorems rely on is discharged for all of them. *)

From S2P Require Export BatchExecutor PartitionControls MinReady.
From S2P Require Export CanaryControls BlueGreenControls ControlPlaneProofs MinReadyProofs.

Section release_controllers.
Context {W : Type} `{Clock W} `{HasExpectations W} `{Api W CloneSet} `{Api W KruiseDaemonSet}
  `{Api W DaemonSet} `{Api W Deployment} `{Api W ReplicaSet} `{Api W Pod} `{LabelPatcher W}
  `{MergeFromApi W Deployment} `{PatchInto W Deployment} `{GenerateApi W Deployment} `{Retry W}
  `{WorkloadClient W} `{ObjectReader W} `{ListApi W Pod} `{ListApi W Deployment} `{ListApi W ReplicaSet}
  `{HPAClient W} `{ObjectKind} `{K8sLib} `{ParseLib} `{WorkloadFilter} `{StackDepth} `{SortLib}
  `{MetaLib} `{TypeMeta} `{UnstructuredLib} `{TemplateHash} `{KeepPausedGate} `{MinReadyGate}
  `{ErrorText} `{ExpectationFlags} `{Unquoter}.
Context `{Json OwnerReference} `{Json ObjectMeta} `{Json LabelSelector} `{Json IntOrString}
  `{Json DaemonSetRevisionInfo} `{Json DeploymentStrategy} `{Json DeploymentExtraStatus}
  `{Json DaemonSetAdvancedControlInfo} `{Json OriginalDeploymentStrategy}.

(** [BuildController] of the kinds that are released by partition. *)
Definition partitionBuild (kind : ReleaseControllerKind) (key : ObjectKey) (gvk : GroupVersionKind)
    : M W (PartitionController W * option goerror) :=
  match kind with
  | PartitionDaemonSetController => daemonset_BuildController key
  | PartitionNativeDaemonSetController => nativedaemonset_BuildController key
  | PartitionCloneSetController => cloneset_BuildController key
  | PartitionMinReadyController => minready_BuildController key
  | PartitionDeploymentController => deployment_BuildController key
  | _ => statefulset_BuildController gvk key
  end.

Definition releaseControlPlane (kind : ReleaseControllerKind) (release : BatchRelease) (key : ObjectKey)
    (gvk : GroupVersionKind) : ControlInterface W :=
  match kind with
  | BlueGreenCloneSetController => blueGreenControlPlane (bgcloneset_BuildController key) release
  | BlueGreenDeploymentController => blueGreenControlPlane (bgdeployment_BuildController key) release
  | CanaryDeploymentController =>
      canaryControlPlane (BuildStableController key) (BuildCanaryController key)
        (canary_CalculateBatchContext key) release
  | _ => partitionControlPlane (partitionBuild kind key gvk) release
  end.

(** ** The reporters are lawful *)

Lemma lawful_none (controller : PartitionController W) :
  pt_GetReporter controller = None -> lawfulReporter controller.
Proof. intros E r Hr. by rewrite E in Hr. Qed.

Lemma lawful_buildFrom {O} (get : M W O) build :
  (forall object, lawfulBuild (build object)) -> lawfulBuild (buildFrom get build).
Proof.
  intros Hb w b w' E. apply bind_Ok_inv in E as ([object|e] & w1 & _ & E); [by eapply Hb|].
  apply ret_Ok_inv in E as [-> _]. by apply lawful_none.
Qed.

(** A build that ends by pairing a controller with an error. *)
Lemma lawful_bind {A} (m : M W A) (k : A -> M W (PartitionController W * option goerror)) :
  (forall a, lawfulBuild (k a)) -> lawfulBuild (bind m k).
Proof. intros Hk w b w' E. apply bind_Ok_inv in E as (a & w1 & _ & E). by eapply Hk. Qed.
Lemma lawful_ret controller err :
  lawfulReporter controller -> lawfulBuild (W := W) (ret (controller, err)).
Proof. intros Hc w b w' E. by apply ret_Ok_inv in E as [-> _]. Qed.

Lemma lawful_buildCounted {O} (wrap : O -> WorkloadObject) (get : M W O) controller :
  (forall rc, pt_GetReporter (controller rc) = None) -> lawfulBuild (buildCounted wrap get controller).
Proof.
  intros Hc. apply lawful_buildFrom. intros object. apply lawful_bind. intros info.
  apply lawful_bind. intros [rc|e]; apply lawful_ret, lawful_none; [apply Hc|done].
Qed.

Lemma lawful_partitionBuild kind key gvk : lawfulBuild (partitionBuild kind key gvk).
Proof.
  assert (Hsts : lawfulBuild (statefulset_BuildController gvk key)).
  { unfold statefulset_BuildController. destruct (GetEmptyWorkloadObject gvk); [|done].
    by apply lawful_buildCounted. }
  destruct kind; try exact Hsts; simpl; try by apply lawful_buildCounted.
  all: apply lawful_buildFrom; intros object; apply lawful_bind; intros info; apply lawful_ret.
  1, 3: by apply lawful_none.
  intros r [= <-]. apply minReadyReporter_laws.
Qed.

Lemma releaseControlPlane_laws kind release key gvk :
  ControlLaws (releaseControlPlane kind release key gvk).
Proof.
  unfold releaseControlPlane. destruct kind;
    first [apply bluegreen_frames | apply canary_frames | apply partition_frames; apply lawful_partitionBuild].
Qed.

#[local] Instance codePlanes : ControlPlanes W := releaseControlPlane.
#[local] Instance codePlanesLaws : ControlPlanesLaws W.
Proof. exact releaseControlPlane_laws. Defined.

Lemma getReleaseController_cases release (w w' : W) ctl :
  getReleaseController release w = (Ok ctl, w') ->
  exists kind gvk, ctl = releaseControlPlane kind release
    (Namespace (br_Meta release), RefName (br_WorkloadRef (br_Spec release))) gvk.
Proof.
  unfold getReleaseController. intros E. destruct (negb _); [done|].
  apply bind_Ok_inv in E as (kind & w1 & _ & E). apply ret_Ok_inv in E as [-> _]. by eexists _, _.
Qed.

(** C22. The executor over the code's own controllers.  Every controller the executor can
    choose honours the contract of the control interface: none of its operations, with
    all the API calls, reports and waits of the kind behind it, touches the fields that
    hold the state of the release's machine (phase, batch, batch state, ready time,
    observed plan and rollout id), and looking at the workload changes no status at
    all.  And what it chooses is one of these controllers, on the workload of the release, in
    the release's namespace. *)
Theorem releaseControllers_contract :
  (forall kind release key gvk, ControlLaws (releaseControlPlane kind release key gvk))
  /\ forall release (w : W), match getReleaseController release w with
       | (Ok ctl, _) => ControlLaws ctl /\ exists kind gvk, ctl = releaseControlPlane kind release
           (Namespace (br_Meta release), RefName (br_WorkloadRef (br_Spec release))) gvk
       | _ => True
       end.
Proof.
  split; [apply releaseControlPlane_laws|]. intros release w.
  destruct (getReleaseController release w) as [[ctl| |] w1] eqn:E; [|done..].
  apply getReleaseController_cases in E as (kind & gvk & ->).
  split; [apply releaseControlPlane_laws|by exists kind, gvk].
Qed.
End release_controllers.
