(* ===== verification/Composition.v ===== *)
(** * A release stays within the step of its Rollout

    The composition of the rollout controller, which writes the plan of a BatchRelease
    for a step, the executor, which works through the batches of the plan, and the
    partition-style controller of CloneSets, which lets pods be updated. *)

From S2P Require Export CanaryManager BatchExecutorProofs PartitionProofs ReleaseControllers.

(** ** The patches of CloneSets *)

(** Those a controller has sent, the last one first. *)
Class PatchLog (W : Type) := clonePatches : W -> list (ObjectMeta * RawPatch).

Definition sending {W} `{PatchLog W} (Q : ObjectMeta * RawPatch -> Prop) (w w' : W) : Prop :=
  exists sent, clonePatches w' = (sent ++ clonePatches w)%list /\ Forall Q sent.
#[export] Instance sending_preorder {W} `{PatchLog W} Q : PreOrder (sending (W := W) Q).
Proof.
  split; [intros w; by exists []|].
  intros w1 w2 w3 (l1 & E1 & F1) (l2 & E2 & F2). exists (l2 ++ l1)%list.
  split; [by rewrite E2, E1, app_assoc|by apply Forall_app].
Qed.

Definition quiet {W A} `{PatchLog W} (m : M W A) : Prop :=
  forall w r w', m w = (r, w') -> clonePatches w' = clonePatches w.
Lemma quiet_evolves {W A} `{PatchLog W} Q (m : M W A) : quiet m -> evolves (sending Q) m.
Proof. intros Hm w r w' Hrun. exists []. split; [by apply (Hm w r w')|done]. Qed.

(** Only patching a CloneSet adds to the log. *)
Class PatchLogLaws (W : Type) `{PatchLog W} `{Api W CloneSet} `{Api W Pod} `{ListApi W Pod}
    `{ObjectReader W} `{LabelPatcher W} `{Clock W} := {
  log_get key : quiet (api_Get (O := CloneSet) key);
  log_patch m p w r w' : api_Patch (O := CloneSet) m p w = (r, w') -> clonePatches w' = (m, p) :: clonePatches w;
  log_pod m p : quiet (api_Patch (O := Pod) m p);
  log_pods ns sel : quiet (api_List (O := Pod) ns sel);
  log_read gvk key : quiet (getObject gvk key);
  log_labels batches bc : quiet (PatchPodBatchLabel batches bc);
  log_time : quiet time_Now
}.
#[export] Hint Resolve log_get log_pod log_pods log_read log_labels log_time : evolve.
#[export] Hint Resolve quiet_evolves : evolve.

(** ** What a step allows for *)

Section exposure.
Context `{K8sLib}.

(** The pods of a step out of [n]. *)
Definition stepSize (replicas : IntOrString) (n : Z) : Z :=
  let size := fst (GetScaledValueFromIntOrPercent (Some replicas) n true) in
  if decide (size > n) then n else if decide (size < 0) then 0 else size.

(** The pods a partition lets be updated are those of one of the first [i] steps; for a
    percentage, up to a percent of all more. *)
Definition withinSteps (steps : list CanaryStep) (i n : Z) (partition : IntOrString) : Prop :=
  exists k step replicas, 1 <= k <= i /\ go_index steps (k - 1) = Ok step /\ Replicas step = Some replicas
  /\ match replicas with
     | FromInt _ => n - kept partition n = stepSize replicas n
     | FromString _ => 100 * (n - kept partition n - stepSize replicas n) <= n
     end.
End exposure.

Lemma stepBatches_index steps batches k batch :
  stepBatches steps = Ok batches -> go_index batches k = Ok batch ->
  exists step, go_index steps k = Ok step /\ Replicas step = Some (batch_CanaryReplicas batch).
Proof.
  intros Hb Hk. unfold go_index in *. case_decide as Hin; [|done]. apply deref_Ok in Hk as E.
  rename batch into b.
  assert (Hat : exists step, steps !! Z.to_nat k = Some step /\ Replicas step = Some (batch_CanaryReplicas b)).
  { clear Hin Hk. revert batches b Hb E. generalize (Z.to_nat k) as j.
    induction steps as [|step steps IH]; intros j batches b Hb E; [by injection Hb as <-; destruct j|].
    simpl in Hb. apply res_bind_Ok in Hb as (r & Hr%deref_Ok & Hb). unfold res_map in Hb.
    apply res_bind_Ok in Hb as (rest & Hrest & [= <-]). destruct j as [|j]; simpl in *.
    - injection E as <-. by exists step.
    - by eapply IH. }
  destruct Hat as (step & Es & Hr). exists step. by rewrite Es.
Qed.

(** ** The controllers of CloneSets *)

Section composition.
Context {W : Type} `{HasExpectations W} `{Api W KruiseDaemonSet}
  `{Api W DaemonSet} `{Api W Deployment} `{Api W ReplicaSet}
  `{MergeFromApi W Deployment} `{PatchInto W Deployment} `{GenerateApi W Deployment} `{Retry W}
  `{WorkloadClient W} `{ListApi W Deployment} `{ListApi W ReplicaSet}
  `{HPAClient W} `{ObjectKind} `{K8sLib} `{ParseLib} `{WorkloadFilter} `{StackDepth} `{SortLib}
  `{MetaLib} `{TypeMeta} `{UnstructuredLib} `{TemplateHash} `{KeepPausedGate} `{MinReadyGate}
  `{ErrorText} `{ExpectationFlags} `{Unquoter} `{PlanHash}.
Context `{Json OwnerReference} `{Json ObjectMeta} `{Json LabelSelector} `{Json IntOrString}
  `{Json DaemonSetRevisionInfo} `{Json DeploymentStrategy} `{Json DeploymentExtraStatus}
  `{Json DaemonSetAdvancedControlInfo} `{Json OriginalDeploymentStrategy}.
Context `{PatchLogLaws W} `{!K8sLaws}.

Lemma isOwnedBy_evolves Q depth child uid : evolves (sending Q) (isOwnedBy (W := W) depth child uid).
Proof. revert child. induction depth as [|depth IH]; intros child; simpl; solve_evolves. Qed.
Lemma ListOwnedPods_evolves Q workload : evolves (sending Q) (ListOwnedPods (W := W) workload).
Proof.
  unfold ListOwnedPods. apply evolves_bind_lift; [tc_solve|]. intros selector _.
  apply evolves_bind; [tc_solve|solve_evolves|]. intros pods.
  induction pods as [|pod pods IH]; simpl; solve_evolves. apply isOwnedBy_evolves.
Qed.

(** The spec the rollout controller writes at one of the first [i] steps. *)
Definition atStep (steps : list CanaryStep) (i : Z) (release : BatchRelease) : Prop :=
  exists rollout canary id j rollback br,
    BlueGreen (ro_Strategy rollout) = None /\ Canary (ro_Strategy rollout) = Some canary /\ cn_Steps canary = steps
    /\ refIs (WorkloadRef (ro_Spec rollout)) kruiseAPI "CloneSet" = true
    /\ 1 <= j <= i /\ canary_createBatchRelease rollout id (j - 1) rollback = Ok br
    /\ br_Spec release = br_Spec br.

Lemma atStep_plan steps i release :
  atStep steps i release ->
  refIs (br_WorkloadRef (br_Spec release)) kruiseAPI "CloneSet" = true
  /\ stepBatches steps = Ok (Batches (br_Plan release))
  /\ (exists p, BatchPartition (br_Plan release) = Some p /\ 0 <= p <= i - 1)
  /\ (effectiveStyle (br_Plan release) = CanaryRollingStyle \/ effectiveStyle (br_Plan release) = PartitionRollingStyle).
Proof.
  intros (rollout & canary & id & j & rollback & br & Hbg & Hc & Hsteps & Href & Hj & Hbr & Hspec).
  unfold canary_createBatchRelease in Hbr. rewrite Hc in Hbr. simpl in Hbr. rewrite Hsteps in Hbr.
  apply res_bind_Ok in Hbr as (batches & Hb & Hbr). unfold GetRollingStyle in Hbr. rewrite Hbg, Hc in Hbr.
  simpl in Hbr. injection Hbr as <-. unfold br_Plan. rewrite Hspec. simpl. split; [done|]. split; [done|].
  split; [by exists (j - 1); split; [|lia]|]. unfold effectiveStyle. simpl.
  destruct (cn_EnableExtraWorkloadForCanary canary); [by left|by right].
Qed.

#[local] Instance clonePlanes : ControlPlanes W := releaseControlPlane.
#[local] Instance clonePlanesLaws : ControlPlanesLaws W.
Proof. exact releaseControlPlane_laws. Defined.

Section round.
Variables (steps : list CanaryStep) (i : Z) (release : BatchRelease).
Hypothesis (Hplan : atStep steps i release).
Hypothesis (Hbatch : CurrentBatch (br_CanaryStatus (br_Status release)) <= i - 1).
Hypothesis (Hmarked : NoNeedUpdateReplicas (br_CanaryStatus (br_Status release)) = None).
(** CloneSets are not too large for the [int32] arithmetic. *)
Hypothesis (Hsmall : forall key (w : W) object w' info, api_Get (O := CloneSet) key w = (Ok object, w') ->
  ParseWorkload (OCloneSet object) = Ok info -> 0 <= wi_Replicas info /\ wi_Replicas info * 100 < 2 ^ 31).

(** The metadata is that of a CloneSet that was read, and where the patch sets the
    partition it holds all pods back, or lets no more be updated than a step does. *)
Definition safePatch (sent : ObjectMeta * RawPatch) : Prop :=
  exists fields, snd sent = PatchFields fields
  /\ forall v, updateStrategyField ["partition"%string] v ∈ fields ->
       v = VString "100%"
       \/ exists partition object info key (w w' : W),
            v = VIntOrString partition /\ api_Get (O := CloneSet) key w = (Ok object, w')
            /\ clone_Meta object = fst sent /\ ParseWorkload (OCloneSet object) = Ok info
            /\ withinSteps steps i (wi_Replicas info) partition.

Lemma clone_patch_evolves m fields :
  safePatch (m, PatchFields fields) -> evolves (sending safePatch) (api_Patch (O := CloneSet) (W := W) m (PatchFields fields)).
Proof.
  intros Hsafe w r w' Hrun. exists [(m, PatchFields fields)]. split; [by apply log_patch in Hrun|].
  by constructor.
Qed.

(** The context of a batch of the plan. *)
Lemma context_within rc bc :
  0 < wi_Replicas (rc_WorkloadInfo rc) -> wi_Replicas (rc_WorkloadInfo rc) * 100 < 2 ^ 31 ->
  cloneset_contextOf rc release = Ok bc ->
  withinSteps steps i (wi_Replicas (rc_WorkloadInfo rc)) (bc_DesiredPartition bc).
Proof.
  destruct (atStep_plan _ _ _ Hplan) as (_ & Hb & _ & _). set (n := wi_Replicas (rc_WorkloadInfo rc)).
  intros Hn Hn32 Hbc. unfold cloneset_contextOf in Hbc. fold n in Hbc.
  set (current := CurrentBatch (br_CanaryStatus (br_Status release))) in *.
  apply res_bind_Ok in Hbc as (numbers & Hnum & Hbc). apply res_bind_Ok in Hbc as (canary & Hcanary & Hbc).
  apply res_bind_Ok in Hbc as (partition & Hpart & [= <-]). cbn [bc_DesiredPartition newBatchContext].
  unfold currentPlanBatch in Hcanary. fold current in Hcanary. unfold res_map in Hcanary.
  apply res_bind_Ok in Hcanary as (batch & Hindex & [= <-]).
  destruct (stepBatches_index _ _ _ _ Hb Hindex) as (step & Hstep & Hreplicas).
  assert (Hrange : inPlan release).
  { unfold inPlan. fold current. unfold go_index in Hindex. case_decide; [|done]. apply deref_Ok, lookup_lt_Some in Hindex.
    unfold len. lia. }
  destruct (batchNumbers_total release n Hrange ltac:(lia)) as (numbers' & Hnum' & Hp & Hsize & _ & Hst & Hd).
  { unfold noNeedUpdateOf. rewrite Hmarked. simpl. lia. }
  rewrite Hnum in Hnum'. injection Hnum' as <-.
  specialize (Hd ltac:(unfold noNeedUpdateOf; rewrite Hmarked; done)).
  fold current in Hsize. unfold CalculateBatchReplicas in Hsize. rewrite Hindex in Hsize.
  unfold res_map in Hsize. simpl in Hsize. injection Hsize as Hsize. fold (stepSize (batch_CanaryReplicas batch) n) in Hsize.
  exists (current + 1), step, (batch_CanaryReplicas batch).
  split; [unfold inPlan in Hrange; fold current in Hrange; lia|].
  replace (current + 1 - 1) with current by lia. split; [done|]. split; [done|].
  destruct (batch_CanaryReplicas batch) as [k|s].
  - injection Hpart as <-. rewrite kept_int. lia.
  - destruct (percentage_kept (desiredStable numbers) n (FromString s) ltac:(lia) ltac:(lia) ltac:(lia))
      as (partition' & Hpart' & _ & Hclose). rewrite Hpart in Hpart'. injection Hpart' as <-. lia.
Qed.

(** ** The control plane of CloneSets *)

Definition wasRead (rc : realController CloneSet) : Prop :=
  exists key (w w' : W), api_Get (O := CloneSet) key w = (Ok (rc_object rc), w')
  /\ ParseWorkload (OCloneSet (rc_object rc)) = Ok (rc_WorkloadInfo rc).

Definition builtOrNot (b : PartitionController W * option goerror) : Prop :=
  match snd b with
  | None => exists rc, fst b = cloneset_controller rc /\ wasRead rc
  | Some _ => fst b = unbuiltController
  end.

Lemma build_evolves key : evolves (sending safePatch) (cloneset_BuildController (W := W) key).
Proof. unfold cloneset_BuildController, buildFrom. solve_evolves. Qed.

Lemma build_run key w b w' : cloneset_BuildController (W := W) key w = (Ok b, w') -> builtOrNot b.
Proof.
  unfold cloneset_BuildController, buildFrom. intros Hrun. apply bind_Ok_inv in Hrun as ([object|e] & w1 & Hget & Hrun).
  - apply catch_Ok_inv in Hget. apply bind_Ok_inv in Hrun as (info & w2 & Hinfo & Hrun).
    apply lift_Ok_inv in Hinfo as [Hinfo ->]. apply ret_Ok_inv in Hrun as [-> _].
    exists (mkReal object info None). split; [done|]. by exists key, w, w1.
  - by apply ret_Ok_inv in Hrun as [-> _].
Qed.

Lemma builtOrNot_reporter b : builtOrNot b -> pt_GetReporter (fst b) = None.
Proof. unfold builtOrNot. destruct (snd b); [by intros ->|by intros (rc & -> & _)]. Qed.

Abbreviation safely := (evolves (onWorld (C := BatchReleaseStatus) (sending safePatch))).

Lemma withReporter_safely controller f :
  pt_GetReporter controller = None -> safely (withReporter controller f).
Proof. unfold withReporter. intros ->. solve_evolves. Qed.

Lemma reported_safely {A} controller op (m : M (BatchReleaseStatus * W) A) :
  pt_GetReporter controller = None -> safely m -> safely (reported controller op m).
Proof.
  intros Hnone Hm. unfold reported, reportOperationFailed. solve_evolves. by apply withReporter_safely.
Qed.

Lemma built_safely key op {A} (k : PartitionController W -> M (BatchReleaseStatus * W) A) :
  (forall rc, wasRead rc -> safely (k (cloneset_controller rc))) ->
  safely (bind (built (cloneset_BuildController key) op) k).
Proof.
  intros Hk. apply (evolves_bind_run _ (fun c => exists rc, c = cloneset_controller rc /\ wasRead rc)).
  - unfold built. apply (evolves_bind_run _ builtOrNot); [apply evolves_inWorld, build_evolves|..].
    + intros [c w] b [c' w'] Hrun. apply inWorld_inv in Hrun as [Hrun _]. by eapply build_run.
    + intros [controller [err|]] Hb; simpl; solve_evolves. apply withReporter_safely. exact (builtOrNot_reporter _ Hb).
  - intros [c w] controller [c' w'] Hrun. unfold built in Hrun.
    apply bind_Ok_inv in Hrun as (b & [c1 w1] & Hb & Hrun). apply inWorld_inv in Hb as [Hb ->].
    apply build_run in Hb. unfold builtOrNot in Hb. destruct b as [controller' [err|]]; simpl in *.
    + apply bind_Ok_inv in Hrun as (? & ? & _ & Hrun). done.
    + by apply ret_Ok_inv in Hrun as [-> _].
  - intros controller (rc & -> & Hread). by apply Hk.
Qed.

Lemma listed_evolves rc : evolves (sending safePatch) (rc_ListOwnedPods (W := W) OCloneSet rc).
Proof. unfold rc_ListOwnedPods. case_match; [solve_evolves|apply ListOwnedPods_evolves]. Qed.

Lemma withPods_evolves rc : evolves (sending safePatch) (withPods (W := W) OCloneSet rc release).
Proof. unfold withPods. solve_evolves. apply listed_evolves. Qed.
Lemma withPods_run rc w rc' w' :
  withPods (W := W) OCloneSet rc release w = (Ok rc', w') ->
  rc_object rc' = rc_object rc /\ rc_WorkloadInfo rc' = rc_WorkloadInfo rc.
Proof.
  unfold withPods. case_match; intros Hrun.
  - apply bind_Ok_inv in Hrun as (pods & w1 & _ & Hrun). by apply ret_Ok_inv in Hrun as [-> _].
  - by apply ret_Ok_inv in Hrun as [-> _].
Qed.

(** The partition of a context may be sent. *)
Definition maySend (rc : realController CloneSet) (bc : BatchContext) : Prop :=
  safePatch (clone_Meta (rc_object rc),
    PatchFields [updateStrategyField ["partition"%string] (VIntOrString (bc_DesiredPartition bc))]).

Lemma calculate_evolves rc : evolves (sending safePatch) (cloneset_CalculateBatchContext (W := W) rc release).
Proof. unfold cloneset_CalculateBatchContext. solve_evolves. apply withPods_evolves. Qed.

Lemma calculate_run rc w1 bc w2 :
  wasRead rc -> wi_Replicas (rc_WorkloadInfo rc) <> 0 ->
  cloneset_CalculateBatchContext rc release w1 = (Ok bc, w2) -> maySend rc bc.
Proof.
  intros (key & w & w' & Hget & Hinfo) Hne Hrun.
  destruct (Hsmall key w (rc_object rc) w' _ Hget Hinfo) as [Hn0 Hn32].
  unfold cloneset_CalculateBatchContext in Hrun.
  apply bind_Ok_inv in Hrun as (rc' & w3 & Hpods & Hrun). apply withPods_run in Hpods as [Ho Hi].
  apply lift_Ok_inv in Hrun as [Hbc _]. eexists. split; [done|].
  intros v Hv%list_elem_of_singleton. injection Hv as ->. right.
  exists (bc_DesiredPartition bc), (rc_object rc), (rc_WorkloadInfo rc), key, w, w'.
  split; [done|]. split; [done|]. split; [done|]. split; [done|]. rewrite <- Hi.
  apply context_within; rewrite ?Hi; [lia|done|done].
Qed.

Lemma upgrade_evolves rc bc :
  maySend rc bc -> evolves (sending safePatch) (cloneset_UpgradeBatch (W := W) (rc_object rc) bc).
Proof. intros Hsafe. unfold cloneset_UpgradeBatch. cbv zeta. case_decide; [solve_evolves|by apply clone_patch_evolves]. Qed.

(** The first and the last patch. *)
Lemma initialize_evolves object : 
  evolves (sending safePatch) (cloneset_Initialize (W := W) object release).
Proof.
  unfold cloneset_Initialize. case_match; [solve_evolves|]. apply clone_patch_evolves. eexists. split; [done|].
  intros v Hv. left. apply elem_of_cons in Hv as [Hv|Hv]; [by injection Hv|].
  apply elem_of_cons in Hv as [Hv|Hv%list_elem_of_singleton]; by injection Hv.
Qed.

Lemma finalize_evolves object : evolves (sending safePatch) (cloneset_Finalize (W := W) object release).
Proof.
  destruct (atStep_plan _ _ _ Hplan) as (_ & _ & (p & Hp & _) & _). unfold cloneset_Finalize. rewrite Hp.
  apply clone_patch_evolves. eexists. split; [done|]. intros v Hv%list_elem_of_singleton. by injection Hv.
Qed.

Lemma patchNoNeedUpdate_evolves pods id n : evolves (sending safePatch) (patchNoNeedUpdate (W := W) pods id n).
Proof. revert n. induction pods as [|pod pods IH]; intros n; simpl; solve_evolves. Qed.

Lemma Initialize_safely key : safely (partition_Initialize (cloneset_BuildController key) release).
Proof.
  unfold partition_Initialize. apply built_safely. intros rc Hread. apply reported_safely; [done|].
  apply evolves_bind; [tc_solve|apply evolves_inWorld, initialize_evolves|]. intros _.
  apply evolves_bind; [tc_solve|by apply withReporter_safely|]. intros _.
  unfold markNoNeedUpdatePodsIfNeeds. solve_evolves; [apply listed_evolves|apply patchNoNeedUpdate_evolves].
Qed.

(** The context of the release, and what goes on with it. *)
Lemma context_safely rc {A} (k : BatchContext -> M (BatchReleaseStatus * W) A) :
  wasRead rc -> wi_Replicas (rc_WorkloadInfo rc) <> 0 -> (forall bc, maySend rc bc -> safely (k bc)) ->
  safely (bind (inWorld (cloneset_CalculateBatchContext rc release)) k).
Proof.
  intros Hread Hne Hk. apply (evolves_bind_run _ (maySend rc)); [apply evolves_inWorld, calculate_evolves| |done].
  intros [c w] bc [c' w'] Hrun. apply inWorld_inv in Hrun as [Hrun _]. by eapply calculate_run.
Qed.

Lemma UpgradeBatch_safely key : safely (partition_UpgradeBatch (cloneset_BuildController key) release).
Proof.
  unfold partition_UpgradeBatch. apply built_safely. intros rc Hread. simpl.
  apply evolves_bind_lift; [tc_solve|]. intros info [= <-].
  case_decide as Hzero; [by apply withReporter_safely|].
  apply evolves_bind; [tc_solve|apply reported_safely; [done|]|intros _; by apply withReporter_safely].
  apply (evolves_bind_run _ (fun release' => release' = release)).
  - unfold countAndUpdateNoNeedUpdateReplicas. solve_evolves. apply listed_evolves.
  - intros s release' s' Hrun. unfold countAndUpdateNoNeedUpdateReplicas in Hrun.
    rewrite bool_decide_true, orb_true_r in Hrun by done. by apply ret_Ok_inv in Hrun as [-> _].
  - intros release' ->. apply context_safely; [done|done|]. intros bc Hsafe.
    apply evolves_bind; [tc_solve|by apply evolves_inWorld, upgrade_evolves|]. solve_evolves.
Qed.

Lemma Ensure_safely key : safely (partition_EnsureBatchPodsReadyAndLabeled (cloneset_BuildController key) release).
Proof.
  unfold partition_EnsureBatchPodsReadyAndLabeled. apply built_safely. intros rc Hread. simpl.
  apply evolves_bind_lift; [tc_solve|]. intros info [= <-].
  case_decide as Hzero; [by apply withReporter_safely|].
  apply evolves_bind; [tc_solve|apply reported_safely; [done|]|].
  - apply context_safely; [done|done|]. solve_evolves.
  - intros bc. solve_evolves; by apply withReporter_safely.
Qed.

Lemma Finalize_safely key : safely (partition_Finalize (cloneset_BuildController key) release).
Proof.
  unfold partition_Finalize. apply (evolves_bind_run _ builtOrNot); [apply evolves_inWorld, build_evolves|..].
  - intros [c w] b [c' w'] Hrun. apply inWorld_inv in Hrun as [Hrun _]. by eapply build_run.
  - intros b Hb. pose proof (builtOrNot_reporter _ Hb) as Hnone. unfold builtOrNot in Hb.
    unfold reportOperationFailed. destruct (snd b) as [err|].
    + solve_evolves. by apply withReporter_safely.
    + destruct Hb as (rc & Hb & Hread). rewrite Hb. apply evolves_bind; [tc_solve|..].
      * apply evolves_catch, evolves_inWorld, finalize_evolves.
      * intros []; solve_evolves; by apply withReporter_safely.
Qed.

Lemma Sync_safely key : safely (partition_SyncWorkloadInformation (cloneset_BuildController key) release).
Proof. unfold partition_SyncWorkloadInformation. solve_evolves. apply build_evolves. Qed.

(** ** One round of the executor *)

Lemma transition_safely condStatus reason message : safely (br_progressingStateTransition condStatus reason message).
Proof. unfold br_progressingStateTransition. solve_evolves. unfold NewRolloutCondition. solve_evolves. Qed.

Section execute.
Variable ctl : ControlInterface W.
Hypotheses (Hinit : safely (cp_Initialize ctl)) (Hupgrade : safely (cp_UpgradeBatch ctl))
  (Hensure : safely (cp_EnsureBatchPodsReadyAndLabeled ctl)) (Hfinal : safely (cp_Finalize ctl))
  (Hsync : safely (cp_SyncWorkloadInformation ctl)).

Lemma sync_safely : safely (syncStatusBeforeExecuting release ctl).
Proof. unfold syncStatusBeforeExecuting, specialCases. solve_evolves. Qed.

Lemma execute_safely : safely (executeBatchReleasePlan release ctl).
Proof.
  unfold executeBatchReleasePlan, preparePlan, progressBatches, upgradeBatch, verifyBatch, recheckBatch.
  solve_evolves; apply transition_safely.
Qed.
End execute.

Lemma controller_of_clone w :
  getReleaseController release w = (Ok (partitionControlPlane
    (cloneset_BuildController (Namespace (br_Meta release), RefName (br_WorkloadRef (br_Spec release)))) release), w)
  \/ exists e, getReleaseController release w = (Err e, w).
Proof.
  destruct (atStep_plan _ _ _ Hplan) as (Href & _ & _ & Hstyle). unfold getReleaseController.
  destruct (negb _); [right; by eexists|]. left. unfold releaseControllerKind.
  unfold refIs in Href. apply andb_true_iff in Href as [Hv%String.eqb_eq Hk%String.eqb_eq].
  assert (Hpart : forall key, partitionController (br_WorkloadRef (br_Spec release)) key = ret (S := W) PartitionCloneSetController).
  { intros key. unfold partitionController, refIs. by rewrite Hv, Hk. }
  destruct Hstyle as [-> | ->]; rewrite ?Hpart; [|done]. unfold refIs. by rewrite Hv, Hk.
Qed.

Lemma Do_safely : evolves (sending safePatch) (Do (W := W) release).
Proof.
  set (key := (Namespace (br_Meta release), RefName (br_WorkloadRef (br_Spec release)))).
  unfold Do. apply (evolves_bind_run _ (fun x => match x with
    | inl ctl => ctl = partitionControlPlane (cloneset_BuildController key) release | inr _ => True end)).
  - intros w r w'. unfold catch. destruct (controller_of_clone w) as [-> |(e & ->)]; intros [= _ <-]; reflexivity.
  - intros w x w' Hrun. apply catch_Ok_inv in Hrun. destruct x as [ctl|e']; [|done].
    destruct (controller_of_clone w) as [E|(e & E)]; rewrite E in Hrun; [by injection Hrun as <- _|done].
  - intros [ctl|e] Hctl; [subst ctl|solve_evolves]. intros w r w' Hrun.
    destruct (bind _ _ _) as [x [s1 w1]] eqn:E in Hrun.
    assert (Hround : sending safePatch w w1).
    { match type of E with ?m _ = _ => assert (Hall : safely m) end.
      { apply evolves_bind; [tc_solve|apply sync_safely, Sync_safely|]. intros [[stop result] err].
        destruct (stop || _); [solve_evolves|]. apply execute_safely; cbn.
        - apply Initialize_safely.
        - apply UpgradeBatch_safely.
        - apply Ensure_safely.
        - apply Finalize_safely. }
      exact (Hall _ _ _ E). }
    by destruct x as [[result err]|e|]; injection Hrun as _ <-.
Qed.
End round.

(** ** All rounds, and other processes in between *)

(** The status that is stored and the world, after a round whose status may not have been
    stored, and after anything that others do. *)
Inductive releaseStep (steps : list CanaryStep) (i : Z) : BatchReleaseStatus * W -> BatchReleaseStatus * W -> Prop :=
  | step_round release w r w' status :
      atStep steps i release -> NoNeedUpdateReplicas (br_CanaryStatus (br_Status release)) = None ->
      Do release w = (r, w') ->
      status = br_Status release \/ (exists result err, r = Ok (result, Some status, err)) ->
      releaseStep steps i (br_Status release, w) (status, w')
  | step_others status w w' :
      clonePatches w' = clonePatches w -> releaseStep steps i (status, w) (status, w').

Lemma atStep_within steps i release :
  0 < len steps < 2 ^ 31 -> i < 2 ^ 31 -> 0 <= CurrentBatch (br_CanaryStatus (br_Status release)) <= i - 1 ->
  atStep steps i release -> planWithin (i - 1) release.
Proof.
  intros Hlen Hi Hbatch Hplan. destruct (atStep_plan _ _ _ Hplan) as (_ & Hb & (p & Hp & Hpi) & _).
  assert (Heq : len (Batches (br_Plan release)) = len steps).
  { clear -Hb. revert Hb. generalize (Batches (br_Plan release)) as batches. unfold len.
    induction steps as [|step steps IH]; intros batches Hb; [by injection Hb as <-|]. simpl in Hb.
    apply res_bind_Ok in Hb as (r & _ & Hb). unfold res_map in Hb. apply res_bind_Ok in Hb as (rest & Hrest & [= <-]).
    simpl. specialize (IH _ Hrest). lia. }
  unfold planWithin, int32Fields, in32. rewrite Heq, Hp. split; [|split; [done|by intros q [= <-]]].
  split; [lia|]. intros q [= <-]. lia.
Qed.

Lemma releaseStep_batch steps i s s' :
  0 < len steps < 2 ^ 31 -> i < 2 ^ 31 -> releaseStep steps i s s' ->
  0 <= CurrentBatch (br_CanaryStatus (fst s)) <= i - 1 -> 0 <= CurrentBatch (br_CanaryStatus (fst s')) <= i - 1.
Proof.
  intros Hlen Hi [release w r w' status Hplan _ Hrun Hstatus|status w w' _] Hb; [|done]. simpl in *.
  destruct Hstatus as [-> |(result & err & ->)]; [done|].
  apply (roundCall_batch (W := W) (i - 1) (br_Status release) status); [lia|done|].
  exists release, w, result, err, w'. split; [done|]. split; [|done]. by eapply atStep_within.
Qed.

(** C11. No step is overtaken.  Take a Rollout with canary steps and a CloneSet, a release of
    it whose batch is one of the first [i] steps, and any sequence of rounds of the
    batch release controller, each on a plan that the rollout controller wrote at one of
    the first [i] steps, with any outcome, its status stored or lost, and anything that
    other processes do in between.  Every patch of a CloneSet that is sent leaves the
    partition alone, or holds all pods back, or sets a partition that allows for one of
    the first [i] steps, computed for the CloneSet that was read: it lets exactly the
    pods of the step be updated where the step is a number, and at most a percent of all
    pods more than the step where it is a percentage.  In these rounds no pods count as
    not needing an update, which a rollback brings about, and the CloneSets are small
    enough for the 32-bit arithmetic. *)
Theorem no_step_overtaken (steps : list CanaryStep) (i : Z) (s s' : BatchReleaseStatus) (w w' : W) :
  0 < len steps < 2 ^ 31 -> i < 2 ^ 31 ->
  (forall key (w0 : W) object w1 info, api_Get (O := CloneSet) key w0 = (Ok object, w1) ->
     ParseWorkload (OCloneSet object) = Ok info -> 0 <= wi_Replicas info /\ wi_Replicas info * 100 < 2 ^ 31) ->
  0 <= CurrentBatch (br_CanaryStatus s) <= i - 1 ->
  rtc (releaseStep steps i) (s, w) (s', w') ->
  exists sent, clonePatches w' = (sent ++ clonePatches w)%list /\ Forall (safePatch steps i) sent.
Proof.
  intros Hlen Hi Hsmall Hbatch Hruns. change (sending (safePatch steps i) (snd (s, w)) (snd (s', w'))).
  change (0 <= CurrentBatch (br_CanaryStatus (fst (s, w))) <= i - 1) in Hbatch. revert Hbatch.
  induction Hruns as [x|x y z Hstep _ IH]; intros Hbatch; [reflexivity|].
  transitivity (snd y); [|by eapply IH, releaseStep_batch].
  destruct Hstep as [release w0 r w1 status Hplan Hmarked Hrun _|status w0 w1 Hquiet]; [|by exists []].
  eapply Do_safely; [done| |done|done|exact Hrun]. simpl in Hbatch. lia.
Qed.
End composition.
