(* ===== verification/Sim.v ===== *)
(** * A concrete world

    An instance of every parameter of the model, executable, in which the
    witnesses run the controllers: an API server that stores objects in maps, a
    clock that advances at every reading, a network provider that remembers the
    routes it was given, and the library functions.  It is one of the worlds the
    theorems speak about, not an assumption of any of them. *)

From stdpp Require Import sorting.
From S2P Require Export ControlPlaneProofs LabelPatch.

Record Sim := mkSim {
  sim_now : Z;
  sim_grace : GraceStore;
  sim_rollouts : gmap ObjectKey Rollout;
  sim_releases : gmap ObjectKey BatchRelease;
  sim_services : gmap ObjectKey CoreService;
  sim_routings : gmap ObjectKey TrafficRouting;
  sim_workload : option Workload;
  sim_routes : option TrafficRoutingStrategy;
  sim_watched : list GroupVersionKind;
  sim_deployments : gmap ObjectKey Deployment;
  sim_pods : gmap ObjectKey Pod;
  sim_info : option WorkloadInfo;
  sim_replicasets : gmap ObjectKey ReplicaSet;
  sim_clonesets : gmap ObjectKey CloneSet;
  sim_statefulsets : gmap ObjectKey StatefulSet;
  sim_kruise_statefulsets : gmap ObjectKey KruiseStatefulSet;
  sim_daemonsets : gmap ObjectKey DaemonSet;
  sim_kruise_daemonsets : gmap ObjectKey KruiseDaemonSet
}.
#[export] Instance eta_Sim : Eta Sim := fun x =>
  mkSim (sim_now x) (sim_grace x) (sim_rollouts x) (sim_releases x) (sim_services x)
    (sim_routings x) (sim_workload x) (sim_routes x) (sim_watched x)
    (sim_deployments x) (sim_pods x) (sim_info x)
    (sim_replicasets x) (sim_clonesets x) (sim_statefulsets x) (sim_kruise_statefulsets x)
    (sim_daemonsets x) (sim_kruise_daemonsets x).

Definition emptySim : Sim :=
  mkSim 0 ∅ ∅ ∅ ∅ ∅ None None [] ∅ ∅ None ∅ ∅ ∅ ∅ ∅ ∅.

(** ** Clock and grace expectations *)

#[export] Instance Sim_Clock : Clock Sim :=
  fun w => (sim_now w, w <| sim_now := sim_now w + 1 |>).

#[export] Instance Sim_Grace : HasGrace Sim :=
  {| graceOf := sim_grace; setGrace g w := w <| sim_grace := g |> |}.

#[export] Instance Sim_GraceLaws : GraceLaws Sim.
Proof. by split. Defined.

#[export] Instance Sim_Retry : Retry Sim := fun f => f.
#[export] Instance Sim_RetryLaws : RetryLaws Sim.
Proof. by intros f w r w' H _. Defined.

(** ** Objects *)

(** A kind of object the server stores, and what a merge patch does to it. *)
Class Stored (O : Type) := {
  stored : Sim -> gmap ObjectKey O;
  store : gmap ObjectKey O -> Sim -> Sim;
  patchOf : RawPatch -> O -> O
}.

(** A field of a body, as far as it is metadata. *)
Definition patchMetaField (f : Field) (m : ObjectMeta) : ObjectMeta :=
  let text := match snd f with VString v => Some v | _ => None end in
  match fst f with
  | [_; part; k] =>
      if String.eqb part "annotations"
      then m <| Annotations := Some (partial_alter (fun _ => text) k (default ∅ (Annotations m))) |>
      else if String.eqb part "labels" then m <| Labels := partial_alter (fun _ => text) k (Labels m) |>
      else m
  | _ => m
  end.

Definition patchMeta (p : RawPatch) (m : ObjectMeta) : ObjectMeta :=
  match p with
  | PatchFields fields => foldl (fun m f => patchMetaField f m) m fields
  | PatchAnnotation k v =>
      m <| Annotations := Some (partial_alter (fun _ => v) k (default ∅ (Annotations m))) |>
  | PatchLabel k v => m <| Labels := <[k := v]> (Labels m) |>
  | _ => m
  end.

Definition patchPlan (p : RawPatch) (plan : ReleasePlan) : ReleasePlan :=
  match p with
  | PatchRolloutID id => plan <| RolloutID := id |>
  | PatchFinalize policy => plan <| BatchPartition := None |> <| FinalizingPolicy := policy |>
  | _ => plan
  end.

Definition patchSpec (p : RawPatch) (spec : ServiceSpec) : ServiceSpec :=
  match p with
  | PatchSelector k v =>
      spec <| Selector := Some (partial_alter (fun _ => v) k (default ∅ (Selector spec))) |>
  | _ => spec
  end.

#[export] Instance Stored_Rollout : Stored Rollout := {|
  stored := sim_rollouts;
  store m w := w <| sim_rollouts := m |>;
  patchOf p r := r <| ro_Meta := patchMeta p (ro_Meta r) |>
|}.
#[export] Instance Stored_BatchRelease : Stored BatchRelease := {|
  stored := sim_releases;
  store m w := w <| sim_releases := m |>;
  patchOf p r := r <| br_Meta := patchMeta p (br_Meta r) |>
    <| br_Spec := (br_Spec r) <| br_ReleasePlan := patchPlan p (br_Plan r) |> |>
|}.
#[export] Instance Stored_Service : Stored CoreService := {|
  stored := sim_services;
  store m w := w <| sim_services := m |>;
  patchOf p r := r <| svc_Meta := patchMeta p (svc_Meta r) |>
    <| svc_Spec := patchSpec p (svc_Spec r) |>
|}.
#[export] Instance Stored_TrafficRouting : Stored TrafficRouting := {|
  stored := sim_routings;
  store m w := w <| sim_routings := m |>;
  patchOf p r := r <| tro_Meta := patchMeta p (tro_Meta r) |>
|}.

#[export] Instance Stored_Deployment : Stored Deployment := {|
  stored := sim_deployments;
  store m w := w <| sim_deployments := m |>;
  patchOf p r := r <| dep_Meta := patchMeta p (dep_Meta r) |>
|}.
#[export] Instance Stored_Pod : Stored Pod := {|
  stored := sim_pods;
  store m w := w <| sim_pods := m |>;
  patchOf p r := r <| pod_Meta := patchMeta p (pod_Meta r) |>
|}.

#[export] Instance Stored_ReplicaSet : Stored ReplicaSet := {|
  stored := sim_replicasets;
  store m w := w <| sim_replicasets := m |>;
  patchOf p r := r <| rs_Meta := patchMeta p (rs_Meta r) |>
|}.
#[export] Instance Stored_CloneSet : Stored CloneSet := {|
  stored := sim_clonesets;
  store m w := w <| sim_clonesets := m |>;
  patchOf p r := r <| clone_Meta := patchMeta p (clone_Meta r) |>
|}.
#[export] Instance Stored_StatefulSet : Stored StatefulSet := {|
  stored := sim_statefulsets;
  store m w := w <| sim_statefulsets := m |>;
  patchOf p r := r <| sts_Meta := patchMeta p (sts_Meta r) |>
|}.
#[export] Instance Stored_KruiseStatefulSet : Stored KruiseStatefulSet := {|
  stored := sim_kruise_statefulsets;
  store m w := w <| sim_kruise_statefulsets := m |>;
  patchOf p r := r <| sts_Meta := patchMeta p (sts_Meta r) |>
|}.
#[export] Instance Stored_DaemonSet : Stored DaemonSet := {|
  stored := sim_daemonsets;
  store m w := w <| sim_daemonsets := m |>;
  patchOf p r := r <| dst_Meta := patchMeta p (dst_Meta r) |>
|}.
#[export] Instance Stored_KruiseDaemonSet : Stored KruiseDaemonSet := {|
  stored := sim_kruise_daemonsets;
  store m w := w <| sim_kruise_daemonsets := m |>;
  patchOf p r := r <| kds_Meta := patchMeta p (kds_Meta r) |>
|}.

Section Server.
Context {O : Type} `{KubeObject O} `{Stored O}.

Definition sim_Get (key : ObjectKey) : M Sim O := fun w =>
  match stored w !! key with Some o => (Ok o, w) | None => (Err ErrNotFound, w) end.
Definition sim_Create (o : O) : M Sim unit := fun w =>
  match stored w !! keyOf (metaOf o) with
  | Some _ => (Err ErrAlreadyExists, w)
  | None => (Ok tt, store (<[keyOf (metaOf o) := o]> (stored w)) w)
  end.
Definition sim_Alter (key : ObjectKey) (f : O -> option O) : M Sim unit := fun w =>
  match stored w !! key with
  | Some o => (Ok tt, store (partial_alter (fun _ => f o) key (stored w)) w)
  | None => (Err ErrNotFound, w)
  end.

(** Deleting an object that has finalizers marks it; the last finalizer removed
    lets it go. *)
Definition sim_keep (o : O) : option O :=
  if deleting (metaOf o) && bool_decide (Finalizers (metaOf o) = []) then None else Some o.
Definition sim_Delete (key : ObjectKey) : M Sim unit := fun w =>
  sim_Alter key (fun o => sim_keep
    (withMeta ((metaOf o) <| DeletionTimestamp := Some (sim_now w) |>) o)) w.

#[export] Instance Sim_Api : Api Sim O := {|
  api_Get := sim_Get;
  api_Create := sim_Create;
  api_Update o := sim_Alter (keyOf (metaOf o)) (fun _ => sim_keep o);
  api_UpdateStatus o := sim_Alter (keyOf (metaOf o)) (fun _ => Some o);
  api_Patch m p := sim_Alter (keyOf m) (fun o => Some (patchOf p o));
  api_Delete := sim_Delete
|}.
End Server.

(** ** Workloads *)

(** The map of a kind, an object of an unknown kind counting as absent. *)
#[export] Instance Sim_ObjectReader : ObjectReader Sim := fun gvk key w =>
  let found := if decide (gvk = ControllerKindRS) then OReplicaSet <$> sim_replicasets w !! key
    else if decide (gvk = ControllerKindDep) then ODeployment <$> sim_deployments w !! key
    else if decide (gvk = ControllerKruiseKindCS) then OCloneSet <$> sim_clonesets w !! key
    else if decide (gvk = ControllerKindSts) then OStatefulSet <$> sim_statefulsets w !! key
    else if decide (gvk = ControllerKindDS) then ODaemonSet <$> sim_daemonsets w !! key
    else if decide (gvk = ControllerKruiseKindDS) then OKruiseDaemonSet <$> sim_kruise_daemonsets w !! key
    else OKruiseStatefulSet <$> sim_kruise_statefulsets w !! key in
  (match found with Some o => Ok o | None => Err ErrNotFound end, w).
#[export] Instance Sim_ReaderLaws : ReaderLaws Sim.
Proof. intros gvk key w. eexists. split; [reflexivity|]. by case_match. Defined.

#[export] Instance Sim_StackDepth : StackDepth := 1000%nat.

#[export] Instance Sim_WorkloadFinder : WorkloadFinder Sim := fun _ w => (Ok (sim_workload w), w).
#[export] Instance Sim_WorkloadClient : WorkloadClient Sim := fun _ key p w =>
  match sim_workload w with
  | Some wl =>
      if decide (keyOf (wl_Meta wl) = key)
      then (Ok tt, w <| sim_workload := Some (wl <| wl_Meta := patchMeta p (wl_Meta wl) |>) |>)
      else (Err ErrNotFound, w)
  | None => (Err ErrNotFound, w)
  end.
#[export] Instance Sim_WorkloadFilter : WorkloadFilter := true.

#[export] Instance Sim_Watcher : Watcher Sim := {|
  isWatched gvk w := bool_decide (gvk ∈ sim_watched w);
  addWatched gvk w := w <| sim_watched := gvk :: sim_watched w |>;
  AddWatcherDynamically gvk := ret true
|}.

(** ** Network *)

(** Reports a route as done only when asked for it again. *)
Definition simProvider : NetworkProvider Sim := {|
  Initialize := ret tt;
  EnsureRoutes strategy w :=
    if decide (sim_routes w = Some strategy) then (Ok (true, None), w)
    else (Ok (false, None), w <| sim_routes := Some strategy |>);
  Finalise w :=
    if decide (sim_routes w = None) then (Ok (false, None), w)
    else (Ok (true, None), w <| sim_routes := None |>)
|}.
#[export] Instance Sim_ProviderFactory : ProviderFactory Sim := {|
  NewCustomController _ _ := ret simProvider;
  NewIngressTrafficRouting _ _ := ret simProvider;
  NewGatewayTrafficRouting _ _ := ret simProvider
|}.
#[export] Instance Sim_FeatureGates : FeatureGates := {| AppendServiceSelectorGate := false |}.

(** ** Library functions *)

(** The digits before a percent sign. *)
Fixpoint readPercent (acc : Z) (s : string) : option Z :=
  match s with
  | EmptyString => None
  | String c rest =>
      if Nat.eqb (Ascii.nat_of_ascii c) 37 then match rest with EmptyString => Some acc | _ => None end
      else let d := Z.of_nat (Ascii.nat_of_ascii c) - 48 in
           if bool_decide (0 <= d <= 9) then readPercent (10 * acc + d) rest else None
  end.

Definition simScaled (v : option IntOrString) (total : Z) (up : bool) : Z * option goerror :=
  match v with
  | Some (FromInt n) => (n, None)
  | Some (FromString s) =>
      match readPercent 0 s with
      | Some p => ((if up then (total * p + 99) / 100 else total * p / 100), None)
      | None => (0, Some (ErrOther "invalid value for IntOrString"))
      end
  | None => (0, Some (ErrOther "nil value for IntOrString"))
  end.

#[export] Instance Sim_K8sLib : K8sLib := {|
  ContainsFinalizer m f := bool_decide (f ∈ Finalizers m);
  sets_List := elements;
  FromAPIVersionAndKind v k :=
    if String.eqb v appsv1 then mkGVK "apps" "v1" k else mkGVK "apps.kruise.io" "v1alpha1" k;
  GetScaledValueFromIntOrPercent := simScaled
|}.

Lemma readPercent_itoa p : 0 <= p <= 100 -> readPercent 0 (itoa p +:+ "%") = Some p.
Proof.
  intros Hp. assert (Hall : Forall (fun n => readPercent 0 (itoa (Z.of_nat n) +:+ "%") = Some (Z.of_nat n))
    (seq 0 101)) by (apply (bool_decide_unpack _); vm_compute; exact I).
  rewrite Forall_forall in Hall. specialize (Hall (Z.to_nat p)).
  rewrite Z2Nat.id in Hall by lia. apply Hall, elem_of_seq. lia.
Qed.

#[export] Instance Sim_K8sLaws : K8sLaws.
Proof.
  split.
  - intros m f. apply bool_decide_eq_true.
  - intros s x. apply elem_of_elements.
  - done.
  - intros total up. change ((if up then (total * 100 + 99) / 100 else total * 100 / 100, None)
      = (total, @None goerror)). destruct up.
    + f_equal. symmetry. apply (Z.div_unique _ _ _ 99); lia.
    + f_equal. symmetry. apply (Z.div_unique _ _ _ 0); lia.
  - intros p total up Hp _.
    change (match readPercent 0 (itoa p +:+ "%") with
            | Some p => ((if up then (total * p + 99) / 100 else total * p / 100), None)
            | None => (0, Some (ErrOther "invalid value for IntOrString")) end
            = (if up then (total * p + 99) / 100 else total * p / 100, @None goerror)).
    by rewrite readPercent_itoa.
Defined.

#[export] Instance Sim_PlanHash : PlanHash := fun plan =>
  ("plan-" +:+ itoa (len (Batches plan)))%string.
#[export] Instance Sim_StrategyHash : StrategyHash := {|
  hashCanary c := ("canary-" +:+ itoa (len (cn_Steps c)))%string;
  hashBlueGreen c := ("bluegreen-" +:+ itoa (len (bg_Steps c)))%string
|}.

(** Numbers in decimal, with an optional minus sign. *)
Fixpoint readDigits (acc : Z) (s : string) : option Z :=
  match s with
  | EmptyString => Some acc
  | String c rest =>
      let d := Z.of_nat (Ascii.nat_of_ascii c) - 48 in
      if bool_decide (0 <= d <= 9) then readDigits (10 * acc + d) rest else None
  end.
#[export] Instance Sim_Strconv : Strconv := fun s =>
  match s with
  | EmptyString => None
  | String c EmptyString => readDigits 0 s
  | String c rest =>
      if Nat.eqb (Ascii.nat_of_ascii c) 45 then Z.opp <$> readDigits 0 rest else readDigits 0 s
  end.

(** Sorting by merging runs, after which no element is less than the one before it. *)
Definition notAfter {A} (less : A -> A -> bool) (a b : A) : Prop := less b a = false.
#[export] Instance notAfter_dec {A} (less : A -> A -> bool) : RelDecision (notAfter less).
Proof. intros a b. unfold notAfter. apply _. Defined.
#[export] Instance Sim_SortLib : SortLib := fun A less l => merge_sort (notAfter less) l.
#[export] Instance Sim_SortLaws : SortLaws.
Proof.
  split.
  - intros A less l. apply merge_sort_Permutation.
  - intros A key less l Hless. unfold sortSlice, Sim_SortLib.
    assert (Htotal : Total (notAfter less)).
    { intros a b. unfold notAfter. rewrite !Hless, !bool_decide_eq_false. lia. }
    pose proof (Sorted_merge_sort (notAfter less) l) as Hs. induction Hs as [|a l' Hs IH Hh]; [done|].
    constructor; [done|]. destruct Hh as [|b l'' Hb]; constructor.
    unfold notAfter in Hb. rewrite Hless in Hb. apply bool_decide_eq_false in Hb. lia.
Defined.

#[export] Instance Sim_MapRange : MapRange := fun A l => l.
#[export] Instance Sim_MapRangeLaws : MapRangeLaws.
Proof. by intros A l. Defined.

#[export] Instance Sim_MetaLib : MetaLib := {|
  GetControllerOf m := snd <$> list_find (fun owner => or_Controller owner = true) (OwnerReferences m);
  LabelSelectorAsSelector selector := Ok (fun labels =>
    match selector with
    | Some s => bool_decide (MatchLabels s ⊆ labels)
    | None => false
    end)
|}.
#[export] Instance Sim_TemplateHash : TemplateHash := fun template collisions =>
  Z.of_nat (String.length (tmpl_Rest template)) + default 0 collisions.

(** Trees that have metadata without content and no fields. *)
#[export] Instance Sim_UnstructuredLib : UnstructuredLib := {|
  un_metaOf _ := emptyMeta;
  un_withMeta _ o := o;
  NestedInt64 _ _ := Ok None;
  NestedString _ _ := Ok None;
  NestedField _ path := Ok (if bool_decide (path = ["metadata"%string]) then Some "{}"%string else None)
|}.
#[export] Instance Sim_JsonMeta : Json ObjectMeta :=
  {| Marshal _ := "{}"%string; Unmarshal _ := Some emptyMeta |}.
#[export] Instance Sim_JsonDsetRevision : Json DaemonSetRevisionInfo :=
  {| Marshal r := (dsr_CanaryRevision r +:+ "-" +:+ dsr_StableRevision r)%string;
     Unmarshal s := Some (mkDsetRevision
       (String.substring 0 (Z.to_nat (lastDash s)) s) (afterDash s)) |}.

(** ** The workload of a batch release *)

#[export] Instance Sim_MinReadyGate : MinReadyGate := false.
#[export] Instance Sim_LabelPatcher : LabelPatcher Sim := realPatcher_PatchPodBatchLabel.

Definition simBatchContext (info : WorkloadInfo) (release : BatchRelease) (desired : Z) : BatchContext :=
  mkBatchContext "" (CurrentBatch (br_CanaryStatus (br_Status release)))
    (br_UpdateRevision (br_Status release)) (wi_Replicas info)
    (ws_UpdatedReplicas (wi_Status info)) (ws_UpdatedReadyReplicas (wi_Status info)) None desired desired
    (FromInt 0) (FromInt (wi_Replicas info - desired)) None [] None (FromInt 0) (FromInt 0).

(** Upgrading a batch takes effect at once. *)
Definition simUpgrade (bc : BatchContext) : M Sim unit :=
  modify (fun w => w <| sim_info := option_map (fun info =>
    info <| wi_Status := (wi_Status info)
      <| ws_UpdatedReplicas := Z.max (bc_DesiredUpdatedReplicas bc) (ws_UpdatedReplicas (wi_Status info)) |>
      <| ws_UpdatedReadyReplicas := Z.max (bc_DesiredUpdatedReplicas bc) (ws_UpdatedReplicas (wi_Status info)) |> |>)
    (sim_info w) |>).

Definition simController (found : option WorkloadInfo) : PartitionController Sim :=
  mkPartition _ found (ret [])
    (fun release =>
       info <- lift (deref found) ;;
       desired <- lift (CalculateBatchReplicas release (wi_Replicas info)
                          (CurrentBatch (br_CanaryStatus (br_Status release)))) ;;
       ret (simBatchContext info release desired))
    (fun _ => ret tt) simUpgrade (fun _ => ret tt) None None.

Definition simBuild : M Sim (PartitionController Sim * option goerror) := fun w =>
  (Ok (simController (sim_info w),
       match sim_info w with Some _ => None | None => Some ErrNotFound end), w).

Lemma simBuild_lawful : lawfulBuild simBuild.
Proof. by intros w b w' [= <- _] r Hr. Qed.

#[export] Instance Sim_ControlPlanes : ControlPlanes Sim := fun _ release _ _ =>
  partitionControlPlane simBuild release.

#[export] Instance Sim_ControlPlanesLaws : ControlPlanesLaws Sim.
Proof. intros kind release key gvk. apply partition_frames, simBuild_lawful. Defined.
