(* ===== verification/Witnesses.v ===== *)
(** * Witnesses

    For every property with hypotheses, one closed instance in the world of
    Sim.v: a small rollout at a concrete point of its life, where the hypotheses
    hold by computation. *)

From S2P Require Import Sim.

(** ** A rollout, its workload and its services *)

Definition demoTraffic (weight : option string) : TrafficRoutingStrategy :=
  mkTRStrategy weight None [].
Definition demoStep (replicas : string) (weight : option string) (pause : option Z) : CanaryStep :=
  mkStep (demoTraffic weight) (Some (FromString replicas)) (mkPause pause).
Definition demoSteps : list CanaryStep :=
  [demoStep "20%" (Some "20%"%string) None; demoStep "50%" (Some "50%"%string) (Some 60);
   demoStep "100%" None (Some 0)].
Definition demoRef : TrafficRoutingRef :=
  mkTRRef "web" 3 (Some (mkIngressTR "nginx" "web")) None None.
Definition demoMeta (annotations : gmap string string) : ObjectMeta :=
  mkMeta "default" "demo" "uid-1" 1 0 None [] [] (Some annotations) ∅.

Definition demoCanary : CanaryStrategy :=
  mkCanary demoSteps [demoRef] None None false "" false.
Definition demoBlueGreen : BlueGreenStrategy := mkBlueGreen demoSteps [demoRef] None "" false.
Definition demoSpec (strategy : RolloutStrategy) : RolloutSpec :=
  mkSpec (mkObjectRef "apps.kruise.io/v1alpha1" "CloneSet" "web") strategy false.

Definition demoCommon (state : CanaryStepState) (final : FinalisingStepType) : CommonStatus :=
  mkCommon 1 "v2" "canary-3" "v1" "hash-2" 1 2 final state "" (Some 0).
Definition demoStatus (state : CanaryStepState) (final : FinalisingStepType) : RolloutStatus :=
  mkStatus 1 (Some (mkCanaryStatus (demoCommon state final) "v2" 2 2)) None []
    RolloutPhaseProgressing "" 1 state.
Definition demoBlueGreenStatus (state : CanaryStepState) (final : FinalisingStepType) : RolloutStatus :=
  mkStatus 1 None (Some (mkBlueGreenStatus (demoCommon state final) "v2" 2 2)) []
    RolloutPhaseProgressing "" 1 state.

Definition demoWorkload : Workload :=
  mkWorkload "apps.kruise.io/v1alpha1" "CloneSet"
    (mkMeta "default" "web" "uid-2" 1 0 None [] []
       (Some {[InRolloutProgressingAnnotation := "x"%string]}) ∅)
    10 "v1" "v2" "hash-2" "pod-template-hash" false true true.

Definition demoRollout (state : CanaryStepState) : Rollout :=
  mkRollout (demoMeta ∅) (demoSpec (mkStrategy false (Some demoCanary) None))
    (demoStatus state FinalisingStepNone).
Definition demoBlueGreenRollout (state : CanaryStepState) : Rollout :=
  mkRollout (demoMeta ∅) (demoSpec (mkStrategy false None (Some demoBlueGreen)))
    (demoBlueGreenStatus state FinalisingStepNone).

Definition demoContext (state : CanaryStepState) (reason : string) : RolloutContext :=
  mkContext (demoRollout state) (demoStatus state FinalisingStepNone) (Some demoWorkload) None
    false reason.
Definition demoBlueGreenContext (state : CanaryStepState) (reason : string) : RolloutContext :=
  mkContext (demoBlueGreenRollout state) (demoBlueGreenStatus state FinalisingStepNone)
    (Some demoWorkload) None false reason.

Definition demoService (name : string) (sel : gmap string string) : CoreService :=
  mkService (mkMeta "default" name ("svc-" +:+ name) 1 0 None [] [] None ∅)
    (mkServiceSpec (Some sel) [mkServicePort "http" 80 30080] "10.0.0.1" ["10.0.0.1"%string] [] None [] "").

(** Services already split between the two revisions, routes at twenty percent. *)
Definition demoWorld : Sim :=
  emptySim <| sim_now := 100 * Second |> <| sim_workload := Some demoWorkload |>
    <| sim_routes := Some (demoTraffic (Some "20%"%string)) |>
    <| sim_services :=
         {[("default", "web")%string := demoService "web" {["pod-template-hash" := "v1"]}%string;
           ("default", "web-canary")%string :=
             demoService "web-canary" {["pod-template-hash" := "hash-2"]}%string]} |>.

Definition demoTR : TrafficRoutingContext :=
  mkTRContext "Rollout(default/demo)" "default" [demoRef] (demoTraffic (Some "20%"%string)) ∅ false
    (mkOwnerRef rolloutsAPI "Rollout" "demo" "uid-1" true) "pod-template-hash" "v1" "hash-2" (Some 0) false 0.

(** ** Calls of a finalising operation, ten seconds apart *)

Section FinalRun.
Variables (finalise : M (RolloutContext * Sim) bool) (step : RolloutContext -> option FinalisingStepType).

Fixpoint finalRun (n : nat) (c : RolloutContext) (w : Sim) : RolloutContext * Sim :=
  match n with
  | O => (c, w)
  | S n =>
      let '(c', w') := snd (finalise (c, w)) in
      finalRun n c' (w' <| sim_now := sim_now w' + 10 * Second |>)
  end.

Lemma finalRun_rtc (R : FinalisingStepType -> FinalisingStepType -> Prop) reason n c w f f' :
  (forall c w c' w' r f f', FinalizeReason c = reason -> step c = Some f ->
     finalise (c, w) = (r, (c', w')) -> step c' = Some f' -> R f f') ->
  (forall c w c' w' r, FinalizeReason c = reason -> is_Some (step c) ->
     finalise (c, w) = (r, (c', w')) -> FinalizeReason c' = reason /\ is_Some (step c')) ->
  FinalizeReason c = reason -> step c = Some f -> step (fst (finalRun n c w)) = Some f' ->
  rtc R f f'.
Proof.
  intros HR Hkeep. revert c w f. induction n as [|n IH]; intros c w f Hr Hf Hf'.
  { simpl in Hf'. assert (f' = f) as -> by congruence. constructor. }
  simpl in Hf'. destruct (finalise (c, w)) as [r [c' w']] eqn:E. simpl in Hf'.
  assert (Hs : is_Some (step c)) by by eexists.
  destruct (Hkeep _ _ _ _ _ Hr Hs E) as [Hr' [f1 Hf1]].
  eapply rtc_l; [exact (HR _ _ _ _ _ _ _ Hr Hf E Hf1)|]. exact (IH _ _ _ Hr' Hf1 Hf').
Qed.
End FinalRun.

Definition canaryStep (c : RolloutContext) : option FinalisingStepType :=
  option_map (fun s => FinalisingStep (cn_Common s)) (CanaryStatus (NewStatus c)).
Definition blueGreenStep (c : RolloutContext) : option FinalisingStepType :=
  match CanaryStatus (NewStatus c) with
  | Some _ => None
  | None => option_map (fun s => FinalisingStep (bg_Common s)) (BlueGreenStatus (NewStatus c))
  end.

Lemma canary_finalRun reason n c w f :
  FinalizeReason c = reason -> canaryStep c = Some FinalisingStepNone ->
  canaryStep (fst (finalRun canary_doCanaryFinalising n c w)) = Some f ->
  rtc (canaryFinalCall (W := Sim) reason) FinalisingStepNone f.
Proof.
  apply finalRun_rtc; unfold canaryStep; clear.
  - intros c w c' w' r f f' Hr Hf E Hf'.
    destruct (CanaryStatus (NewStatus c)) as [s|] eqn:Es; [|done].
    destruct (CanaryStatus (NewStatus c')) as [s'|] eqn:Es'; [|done].
    injection Hf as <-. injection Hf' as <-.
    exists c, w, s, r, c', w', s'. split_and!; done.
  - intros c w c' w' r Hr Hs E. destruct (CanaryStatus (NewStatus c)) as [s|] eqn:Es; [|by destruct Hs].
    pose proof (canary_doCanaryFinalising_post c s w Es) as Hwp. unfold wp in Hwp.
    rewrite E in Hwp. destruct Hwp as (f' & [Hf _] & _). simpl in Hf.
    split; [destruct Hf as (_ & _ & _ & -> & _); done|].
    assert (is_Some (CanaryStatus (NewStatus c'))) as [s' ->] by (apply Hf; by eexists). by eexists.
Qed.

Lemma bg_finalRun reason n c w f :
  FinalizeReason c = reason -> blueGreenStep c = Some FinalisingStepNone ->
  blueGreenStep (fst (finalRun bg_doCanaryFinalising n c w)) = Some f ->
  rtc (blueGreenFinalCall (W := Sim) reason) FinalisingStepNone f.
Proof.
  apply finalRun_rtc; unfold blueGreenStep; clear.
  - intros c w c' w' r f f' Hr Hf E Hf'.
    destruct (CanaryStatus (NewStatus c)) eqn:En; [done|].
    destruct (CanaryStatus (NewStatus c')) eqn:En'; [done|].
    destruct (BlueGreenStatus (NewStatus c)) as [s|] eqn:Es; [|done].
    destruct (BlueGreenStatus (NewStatus c')) as [s'|] eqn:Es'; [|done].
    injection Hf as <-. injection Hf' as <-.
    exists c, w, s, r, c', w', s'. split_and!; done.
  - intros c w c' w' r Hr Hs E. destruct (CanaryStatus (NewStatus c)) eqn:En; [by destruct Hs|].
    destruct (BlueGreenStatus (NewStatus c)) as [s|] eqn:Es; [|by destruct Hs].
    pose proof (bg_doCanaryFinalising_post c s w En Es) as Hwp. unfold wp in Hwp.
    rewrite E in Hwp. destruct Hwp as (f' & [Hf _] & _). simpl in Hf.
    destruct Hf as (_ & _ & _ & -> & _ & _ & _ & Hc & Hb). split; [done|].
    destruct (CanaryStatus (NewStatus c')) eqn:En'.
    + rewrite En in Hc. by destruct (proj1 Hc (mk_is_Some _ _ eq_refl)).
    + assert (is_Some (BlueGreenStatus (NewStatus c'))) as [s' ->] by (apply Hb; by eexists).
      by eexists.
Qed.

(** A run known by its result alone. *)
Lemma run_Ok {C A} (m : M (C * Sim) A) s a :
  fst (m s) = Ok a -> exists c' w', m s = (Ok a, (c', w')).
Proof. destruct (m s) as [r [c' w']]. simpl. intros ->. by exists c', w'. Qed.

(** ** Conditions, grace periods and traffic *)

Definition demoCondition (t : RolloutConditionType) (status : ConditionStatus) (reason : string) :=
  mkCondition t status 5 5 reason "".
Definition demoConditions : RolloutStatus :=
  (demoStatus CanaryStepStateInit FinalisingStepNone) <| Conditions :=
    [demoCondition RolloutConditionProgressing ConditionTrue ProgressingReasonInRolling;
     demoCondition RolloutConditionTerminating ConditionFalse "x"] |>.

Lemma SetRolloutCondition_witness :
  let c := demoCondition RolloutConditionProgressing ConditionTrue ProgressingReasonPaused in
  uniqueTypes (Conditions demoConditions)
  /\ (forall t, t <> RolloutConditionProgressing ->
       GetRolloutCondition (fst (SetRolloutCondition demoConditions c)) t
       = GetRolloutCondition demoConditions t)
  /\ uniqueTypes (Conditions (fst (SetRolloutCondition demoConditions c))).
Proof.
  intros c. assert (Hu : uniqueTypes (Conditions demoConditions)).
  { unfold uniqueTypes. apply (bool_decide_unpack _). vm_compute. exact I. }
  split; [exact Hu|].
  exact (proj2 (SetRolloutCondition_spec demoConditions c Hu)).
Defined.

(** Deleting the canary Service modifies at the first call and not at the next. *)
Definition deleteCanary : M (unit * Sim) (bool * option goerror) :=
  r <- catch (inWorld (api_Delete (O := CoreService) ("default", "web-canary")%string)) ;;
  ret (match r with inl _ => true | inr _ => false end, None).

Lemma grace_window_witness :
  let w1 := snd (snd (deleteCanary (tt, demoWorld))) in
  exists w2,
    runWithGraceSeconds "k" "a" 3 deleteCanary (tt, demoWorld) = (Ok (true, 3 * Second, None), (tt, w2))
    /\ forall w3 sweeps c3 c4 w4, waiting "k" "a" 3 deleteCanary w2 sweeps w3 ->
       quietCall deleteCanary false c3 w3 c4 w4 ->
       let t0 := fst (clock_now w1) in
       exists retry remaining w5,
         runWithGraceSeconds "k" "a" 3 deleteCanary (c3, w3) = (Ok (retry, remaining, None), (c4, w5))
         /\ (retry = true <-> fst (clock_now w4) < t0 + 3 * Second
                             /\ Forall (fun s => s - t0 <= ExpectationGraceTimeout) sweeps)
         /\ (3 * Second <= ExpectationGraceTimeout -> Forall (fun s => s <= fst (clock_now w4)) sweeps ->
             (retry = true <-> fst (clock_now w4) < t0 + 3 * Second))
         /\ (retry = true -> remaining = fst (clock_now w1) + 3 * Second - fst (clock_now w4))
         /\ (retry = false -> pending (graceOf w5) "k" "a" = None).
Proof.
  intros w1. apply (grace_window_respected "k" "a" 3 deleteCanary tt demoWorld tt w1); [lia|].
  split; vm_compute; reflexivity.
Defined.

Lemma DoTrafficRouting_witness :
  exists c' w', DoTrafficRouting (demoTR, demoWorld) = (Ok true, (c', w'))
  /\ (forall t, tr_LastUpdateTime demoTR = Some t ->
        exists wt : Sim, t + Second * routingGrace demoRef <= fst (clock_now wt))
  /\ exists canary, observed (W := Sim) ("default", "web-canary")%string canary
       /\ selector canary "pod-template-hash" = "hash-2"%string.
Proof.
  assert (Hrun : exists c' w', DoTrafficRouting (demoTR, demoWorld) = (Ok true, (c', w')))
    by (apply run_Ok; vm_compute; reflexivity).
  assert (Hs : Traffic (tr_Strategy demoTR) <> None) by discriminate.
  destruct Hrun as (c' & w' & Hrun). exists c', w'. split; [exact Hrun|].
  destruct (DoTrafficRouting_sound demoTR demoWorld c' w' demoRef [] eq_refl (or_introl Hs) Hrun)
    as (_ & Ht & stable & _ & _ & Hc). split; [exact Ht|].
  destruct (Hc eq_refl eq_refl) as (_ & _ & _ & Hcanary). exact Hcanary.
Defined.

(** The same traffic routing once everything is restored. *)
Definition restoredWorld : Sim :=
  emptySim <| sim_now := 100 * Second |> <| sim_workload := Some demoWorkload |>
    <| sim_services := {[("default", "web")%string := demoService "web" ∅]} |>.

Lemma FinalisingTrafficRouting_witness :
  0 < GetGraceSeconds (ObjectRef_ demoTR) defaultGracePeriodSeconds
  /\ exists c' w', FinalisingTrafficRouting (demoTR, restoredWorld) = (Ok true, (c', w'))
  /\ exists wa wb : Sim, api_Delete (O := CoreService) ("default", "web-canary")%string wa
       = (Err ErrNotFound, wb).
Proof.
  assert (Hg : 0 < GetGraceSeconds (ObjectRef_ demoTR) defaultGracePeriodSeconds)
    by (vm_compute; reflexivity).
  split; [exact Hg|].
  assert (Hrun : exists c' w', FinalisingTrafficRouting (demoTR, restoredWorld) = (Ok true, (c', w')))
    by (apply run_Ok; vm_compute; reflexivity).
  destruct Hrun as (c' & w' & Hrun). exists c', w'. split; [exact Hrun|].
  destruct (FinalisingTrafficRouting_done demoTR restoredWorld (c', w') demoRef [] eq_refl Hg Hrun)
    as (_ & _ & _ & _ & _ & _ & _ & Hdel).
  exact (Hdel eq_refl eq_refl).
Defined.

(** ** Step indexes and finalizers *)

Lemma demo_hasSteps state : hasSteps (demoRollout state) demoSteps.
Proof. by split. Qed.
Lemma demo_bg_hasSteps state : hasSteps (demoBlueGreenRollout state) demoSteps.
Proof. by split. Qed.

Lemma next_index_witness :
  let rollout := (demoRollout CanaryStepStateInit) <| ro_Status :=
    modSubStatus (fun s => s <| NextStepIndex := 9 |>)
      (ro_Status (demoRollout CanaryStepStateInit)) |> in
  NextBatchIndex rollout 1 = Ok 2
  /\ exists rollout', CheckNextBatchIndexWithCorrect rollout = Ok rollout'
     /\ exists sub', GetSubStatus (ro_Status rollout') = Some sub' /\ legalNext 3 (NextStepIndex sub').
Proof.
  intros rollout. split; [reflexivity|].
  destruct (next_index_correct rollout demoSteps _ (demo_hasSteps CanaryStepStateInit) eq_refl
              ltac:(split; vm_compute; congruence)) as (_ & r' & Hr & _ & sub' & Hs & Hl & _).
  exists r'. split; [exact Hr|]. exists sub'. split; [exact Hs|exact Hl].
Defined.

Lemma newFinalizers_witness :
  newFinalizers (demoMeta ∅) RemoveFinalizerOpType "f" = None <-> "f"%string ∉ Finalizers (demoMeta ∅).
Proof. exact (proj2 (proj2 (proj2 (newFinalizers_spec (demoMeta ∅) "f")))). Defined.

(** ** The managers *)

Lemma doStepJump_witness :
  let c := (demoContext CanaryStepStatePaused "") <| NewStatus :=
    modSubStatus (fun s => s <| NextStepIndex := 3 |>)
      (demoStatus CanaryStepStatePaused FinalisingStepNone) |> in
  exists c' w', doStepJump (demoRollout CanaryStepStatePaused) demoSteps 10 (c, demoWorld)
      = (Ok true, (c', w'))
    /\ exists s', GetSubStatus (NewStatus c') = Some s' /\ CurrentStepIndex s' = 3.
Proof.
  intros c.
  destruct (doStepJump_spec (demoRollout CanaryStepStatePaused) demoSteps 10 c demoWorld _
              (demo_hasSteps _) eq_refl ltac:(split; vm_compute; congruence))
    as (c' & w' & Hrun & _ & Hjump).
  exists c', w'. split; [exact Hrun|].
  destruct (Hjump eq_refl) as (_ & s' & _ & Hs & _ & Hi & _).
  exists s'. split; [exact Hs|exact Hi].
Defined.

Lemma canary_runCanary_witness :
  let c0 := demoContext CanaryStepStateTrafficRouting "" in
  let s0 := demoCommon CanaryStepStateTrafficRouting FinalisingStepNone in
  let '(_, (c', _)) := canary_runCanary (c0, demoWorld) in
  stepPost 3 (canaryUpgraded (W := Sim) c0 s0) (canaryRouted (W := Sim) c0 s0)
    (canaryPauseOver (W := Sim) c0 s0) s0 c0 c'
  /\ (exists s', GetSubStatus (NewStatus c') = Some s' /\ 1 <= CurrentStepIndex s' <= 3)
  /\ c' = c0 <| RecheckTime := RecheckTime c' |>
             <| NewStatus := (NewStatus c0) <| CanaryStatus := CanaryStatus (NewStatus c') |>
                  <| Message := Message (NewStatus c') |> |>.
Proof.
  exact (canary_runCanary_refines demoCanary (demoContext CanaryStepStateTrafficRouting "") demoWorld
    _ eq_refl (demo_hasSteps _) eq_refl ltac:(split; vm_compute; congruence)).
Defined.

Lemma bg_runCanary_witness :
  let c0 := demoBlueGreenContext CanaryStepStateTrafficRouting "" in
  let s0 := demoCommon CanaryStepStateTrafficRouting FinalisingStepNone in
  let '(_, (c', _)) := bg_runCanary (c0, demoWorld) in
  stepPost 3 (blueGreenUpgraded (W := Sim) c0 s0) (blueGreenRouted (W := Sim) c0 s0)
    (blueGreenPauseOver (W := Sim) c0 s0) s0 c0 c'
  /\ (exists s', GetSubStatus (NewStatus c') = Some s' /\ 1 <= CurrentStepIndex s' <= 3)
  /\ c' = c0 <| RecheckTime := RecheckTime c' |>
             <| NewStatus := (NewStatus c0) <| BlueGreenStatus := BlueGreenStatus (NewStatus c') |>
                  <| Message := Message (NewStatus c') |> |>.
Proof.
  exact (bg_runCanary_refines demoBlueGreen (demoBlueGreenContext CanaryStepStateTrafficRouting "")
    demoWorld _ eq_refl (demo_bg_hasSteps _) eq_refl eq_refl ltac:(split; vm_compute; congruence)).
Defined.

(** Every task of a successful finalising is done after fifteen calls. *)
Lemma canary_finalising_witness :
  Forall (canaryTaskDone (W := Sim)) (canaryTaskSequence FinaliseReasonSuccess).
Proof.
  apply Forall_forall.
  refine (proj1 (canary_finalising_complete FinaliseReasonSuccess FinalisingStepTypeEnd _) eq_refl).
  refine (canary_finalRun FinaliseReasonSuccess 15
    (demoContext CanaryStepStateCompleted FinaliseReasonSuccess) demoWorld FinalisingStepTypeEnd
    eq_refl eq_refl _). vm_compute. reflexivity.
Defined.

Lemma bg_finalising_witness :
  Forall (blueGreenTaskDone (W := Sim)) (blueGreenTaskSequence FinaliseReasonRollback).
Proof.
  apply Forall_forall.
  refine (proj1 (bg_finalising_complete FinaliseReasonRollback FinalisingStepTypeEnd _) eq_refl).
  refine (bg_finalRun FinaliseReasonRollback 15
    (demoBlueGreenContext CanaryStepStateCompleted FinaliseReasonRollback) demoWorld
    FinalisingStepTypeEnd eq_refl eq_refl _). vm_compute. reflexivity.
Defined.
