(* ===== verification/ControllerWitnesses.v ===== *)
(** * Witnesses for the rollout controller

    Closed instances, in the world of Sim.v, of the properties of the shared
    release operations, of the progressing phase and of the rollout controller. *)

From S2P Require Import RolloutControllerProofs Conversion Sim Witnesses.

(** ** The BatchRelease of a rollout *)

Lemma runBatchRelease_witness :
  exists want, canary_createBatchRelease (demoRollout CanaryStepStateUpgrade) "id" 1 false = Ok want
  /\ runBatchRelease canary_createBatchRelease (demoRollout CanaryStepStateUpgrade) "id" 2 false demoWorld
     = afterWrite (false, want) (api_Create want) demoWorld.
Proof.
  eexists. split; [reflexivity|].
  exact (runBatchRelease_spec canary_createBatchRelease (demoRollout CanaryStepStateUpgrade) "id" 2 false
    _ demoWorld eq_refl).
Defined.

(** ** The progressing phase *)

(** The second step is about to be upgraded; nothing changed in rollout or workload. *)
Definition rollingStatus (state : CanaryStepState) : RolloutStatus :=
  (demoStatus state FinalisingStepNone) <| Conditions :=
    [demoCondition RolloutConditionProgressing ConditionTrue ProgressingReasonInRolling] |>.
Definition rollingRollout (state : CanaryStepState) : Rollout :=
  (demoRollout state) <| ro_Status := rollingStatus state |>
    <| ro_Meta := demoMeta {[RolloutHashAnnotation := "canary-3"%string]} |>.

(** A run that ends well with a result that passes a test. *)
Lemma run_test {A} (m : M Sim A) w (P : A -> bool) :
  match fst (m w) with Ok a => P a | _ => false end = true ->
  exists a w', m w = (Ok a, w') /\ P a = true.
Proof. destruct (m w) as [[a|e|] w']; simpl; try done. intros. by exists a, w'. Qed.

Definition hasReason (t : RolloutConditionType) (reason : string) (st : RolloutStatus) : bool :=
  match GetRolloutCondition st t with Some d => String.eqb (Reason d) reason | None => false end.

(** Its last step is complete: the release goes on to be finalised. *)
Lemma reconcileRolloutProgressing_witness :
  let rollout := rollingRollout CanaryStepStateCompleted in
  let st := rollingStatus CanaryStepStateCompleted in
  exists recheck rollout' st' w' w1,
    reconcileRolloutProgressing rollout st demoWorld = (Ok (recheck, rollout', st'), w')
    /\ reasonPost (W := Sim) rollout demoWorkload
         (demoCondition RolloutConditionProgressing ConditionTrue ProgressingReasonInRolling) w1 st st'
    /\ hasReason RolloutConditionProgressing ProgressingReasonFinalising st' = true.
Proof.
  intros rollout st.
  destruct (run_test (reconcileRolloutProgressing rollout st) demoWorld
    (fun a => hasReason RolloutConditionProgressing ProgressingReasonFinalising (snd a)))
    as ([[recheck rollout'] st'] & w' & Hrun & Hr); [vm_compute; reflexivity|].
  destruct (reconcileRolloutProgressing_reasons rollout st
    (demoCondition RolloutConditionProgressing ConditionTrue ProgressingReasonInRolling) demoWorld
    recheck rollout' st' w' eq_refl eq_refl Hrun) as (found & w1 & Hf & Hpost).
  injection Hf as <- _. exists recheck, rollout', st', w'. eexists.
  split; [exact Hrun|]. split; [exact Hpost|exact Hr].
Defined.

(** A new revision arrives during the release: calls of the reset, ten seconds apart. *)
Definition finalStepOf (c : RolloutContext) : option FinalisingStepType :=
  option_map FinalisingStep (GetSubStatus (NewStatus c)).

Fixpoint resetRun (n : nat) (c : RolloutContext) (w : Sim) : option (RolloutContext * Sim) :=
  match n with
  | O => Some (c, w)
  | S n =>
      match HasTrafficRoutings (ctx_Strategy c), finalStepOf c, doProgressingReset (c, w) with
      | Ok true, Some _, (Ok _, (c', w')) =>
          match finalStepOf c' with
          | Some _ => resetRun n c' (w' <| sim_now := sim_now w' + 10 * Second |>)
          | None => None
          end
      | _, _, _ => None
      end
  end.

Lemma resetRun_rtc n c w c' w' f f' :
  resetRun n c w = Some (c', w') -> finalStepOf c = Some f -> finalStepOf c' = Some f' ->
  rtc (resetCall (W := Sim)) f f'.
Proof.
  revert c w f. induction n as [|n IH]; intros c w f; simpl.
  { intros [= -> ->] E1 E2. assert (f = f') as -> by congruence. constructor. }
  intros Hrun Hf Hf'. rewrite Hf in Hrun.
  destruct (HasTrafficRoutings (ctx_Strategy c)) as [[|]|e|] eqn:Eh; try done.
  destruct (doProgressingReset (c, w)) as [[b|e|] [c1 w1]] eqn:Er; try done.
  destruct (finalStepOf c1) as [f1|] eqn:Ef1; [|done].
  eapply rtc_l; [|by eapply IH]. exists c, w, b, c1, w1. by split_and!.
Qed.

Definition resetStart : RolloutContext := demoContext CanaryStepStateUpgrade "".

Lemma doProgressingReset_witness :
  Forall (resetDone (W := Sim)) resetSequence.
Proof.
  assert (Hrun : exists c w, resetRun 6 resetStart demoWorld = Some (c, w)
      /\ finalStepOf c = Some FinalisingStepRemoveCanaryService
      /\ HasTrafficRoutings (ctx_Strategy c) = Ok true
      /\ fst (doProgressingReset (c, w)) = Ok true).
  { destruct (resetRun 6 resetStart demoWorld) as [[c w]|] eqn:E; [|vm_compute in E; discriminate].
    exists c, w. split; [done|].
    assert (Ht : option_map (fun s => (finalStepOf (fst s), HasTrafficRoutings (ctx_Strategy (fst s)),
                    fst (doProgressingReset s))) (resetRun 6 resetStart demoWorld)
        = Some (Some FinalisingStepRemoveCanaryService, Ok true, Ok true)) by (vm_compute; reflexivity).
    rewrite E in Ht. injection Ht as H1 H2 H3. by split_and!. }
  destruct Hrun as (c & w & Hrun & Hf & Hh & Hlast).
  destruct (run_Ok doProgressingReset (c, w) true Hlast) as (c' & w' & Hcall).
  apply Forall_forall.
  exact (proj2 (doProgressingReset_order FinalisingStepRemoveCanaryService
    (resetRun_rtc 6 resetStart demoWorld c w _ _ Hrun eq_refl Hf)) c w c' w' Hh Hf Hcall).
Defined.

(** The BatchRelease stands at its second batch; the plan was replaced by one of four steps. *)
Definition demoRelease : BatchRelease :=
  mkBR (demoMeta ∅)
    (mkBRSpec (mkObjectRef "apps.kruise.io/v1alpha1" "CloneSet" "web")
       (mkPlan [mkBatch (FromString "20%"); mkBatch (FromString "50%"); mkBatch (FromString "100%")]
          (Some 1) "id" None FinalizingPolicyNone None PartitionRollingStyle false))
    (mkBRStatus [] (mkBRCanaryStatus ReadyBatchState 1 (Some 50) 5 5 None) "v1" "v2" 1 "id" 10 None
       "plan-3" RolloutPhaseProgressing "").
Definition releaseWorld : Sim :=
  demoWorld <| sim_releases := {[("default", "demo")%string := demoRelease]} |>.
Definition newSteps : list CanaryStep :=
  [demoStep "10%" None None; demoStep "40%" None None; demoStep "60%" None None;
   demoStep "100%" None None].
Definition replannedContext : RolloutContext :=
  (demoContext CanaryStepStatePaused "") <| ctx_Rollout :=
    (demoRollout CanaryStepStatePaused)
      <| ro_Spec := demoSpec (mkStrategy false (Some (demoCanary <| cn_Steps := newSteps |>)) None) |> |>.

(** Half of the replicas are updated: the third step is the first that allows for them. *)
Lemma recalculateCanaryStep_witness :
  exists s', recalculateCanaryStep (replannedContext, releaseWorld) = (Ok 3, s')
  /\ settlesOn newSteps 10 5 0 3.
Proof.
  destruct (run_Ok recalculateCanaryStep (replannedContext, releaseWorld) 3)
    as (c' & w' & Hrun); [vm_compute; reflexivity|].
  exists (c', w'). split; [exact Hrun|].
  destruct (recalculateCanaryStep_spec replannedContext releaseWorld newSteps 3 (c', w') eq_refl
    ltac:(discriminate) ltac:(reflexivity) Hrun)
    as (sub & workload & p & current & Hs & Hw & Hp & Hc & Hset).
  injection Hs as <-. injection Hw as <-. injection Hp as <-. injection Hc as <-. exact Hset.
Defined.

(** ** The rollout controller *)

(** A healthy rollout whose workload got a new revision. *)
Definition healthyRollout : Rollout :=
  (rollingRollout CanaryStepStateCompleted) <| ro_Status :=
    (demoStatus CanaryStepStateCompleted FinalisingStepTypeEnd) <| Phase := RolloutPhaseHealthy |>
      <| Conditions := [demoCondition RolloutConditionSucceeded ConditionTrue ""] |> |>.

Lemma calculateRolloutStatus_witness :
  exists rollout st' w', calculateRolloutStatus healthyRollout demoWorld = (Ok (rollout, Some st'), w')
  /\ Phase st' = RolloutPhaseProgressing /\ ObservedGeneration st' = 1.
Proof.
  destruct (run_test (calculateRolloutStatus healthyRollout) demoWorld
    (fun a => match snd a with Some _ => true | None => false end))
    as ([rollout [st'|]] & w' & Hrun & Hr); [vm_compute; reflexivity| |discriminate].
  exists rollout, st', w'. split; [exact Hrun|].
  destruct (calculateRolloutStatus_phase healthyRollout demoWorld rollout st' w' Hrun)
    as (Hg & w1 & found & w2 & Hh & Hf & Hpost).
  assert (Hw : sim_workload w1 = Some demoWorkload).
  { change w1 with (snd (Ok rollout, w1)). rewrite <- Hh. vm_compute. reflexivity. }
  injection Hf as <- _. rewrite Hw in Hpost. destruct Hpost as (_ & HP & _).
  split; [exact HP|exact Hg].
Defined.

(** A rollout that is deleted while its routes are still split. *)
Definition terminatingCondition : RolloutCondition :=
  demoCondition RolloutConditionTerminating ConditionTrue TerminatingReasonInTerminating.
Definition deletedRollout : Rollout :=
  (rollingRollout CanaryStepStateUpgrade)
    <| ro_Meta := (demoMeta ∅) <| DeletionTimestamp := Some 90 |>
                               <| Finalizers := ["rollouts.kruise.io/rollout"%string] |> |>
    <| ro_Status := (rollingStatus CanaryStepStateUpgrade) <| Conditions := [terminatingCondition] |> |>.

Lemma deletion_witness :
  handleFinalizer deletedRollout demoWorld = (Ok tt, demoWorld)
  /\ exists t st' w', reconcileRolloutTerminating deletedRollout (ro_Status deletedRollout) demoWorld
       = (Ok (t, st'), w')
     /\ GetRolloutCondition st' RolloutConditionTerminating = Some terminatingCondition /\ is_Some t.
Proof.
  destruct (deletion_waits_for_finalising deletedRollout (ro_Status deletedRollout) demoWorld
    terminatingCondition eq_refl eq_refl eq_refl ltac:(discriminate)) as [Hf Hwait].
  split; [exact Hf|].
  destruct (run_test (reconcileRolloutTerminating deletedRollout (ro_Status deletedRollout)) demoWorld
    (fun a => negb (hasReason RolloutConditionTerminating TerminatingReasonCompleted (snd a))))
    as ([t st'] & w' & Hrun & Hr); [vm_compute; reflexivity|].
  exists t, st', w'. split; [exact Hrun|].
  destruct (Hwait t st' w' Hrun) as (d & Hd & Hpost). unfold hasReason in Hr. simpl in Hr.
  rewrite Hd in Hr. destruct (String.eqb (Reason d) TerminatingReasonCompleted); [discriminate|].
  destruct Hpost as [-> Ht]. split; [exact Hd|exact Ht].
Defined.

(** ** Conversion *)

(** A v1alpha1 rollout whose first step has only a weight. *)
Definition alphaCanary : alpha_CanaryStrategy :=
  mkAlphaCanary
    [mkAlphaStep (mkAlphaTRStrategy (Some 5) None (Some [])) None (mkAlphaPause None);
     mkAlphaStep (mkAlphaTRStrategy None None None) (Some (FromInt 3)) (mkAlphaPause (Some 60))] [] None None true.
Definition alphaRollout : alpha_Rollout :=
  mkAlphaRollout (demoMeta ∅) (mkAlphaSpec (Some (mkObjectRef "apps/v1" "Deployment" "demo")) true (Some alphaCanary) "7" false)
    (mkAlphaStatus 3 None [] RolloutPhaseHealthy "").

(** A rollout through v1alpha1 and back, a BatchRelease in the blue-green style, and a
    v1alpha1 rollout through v1beta1. *)
Lemma conversion_witness :
  let b := demoRollout CanaryStepStatePaused in
  let release := demoRelease <| br_Spec := (br_Spec demoRelease)
       <| br_ReleasePlan := (br_Plan demoRelease) <| RollingStyle := BlueGreenRollingStyle |> |> |> in
  (exists a b1 b2, rollout_ConvertFrom (mkAlphaRollout (demoMeta ∅) (mkAlphaSpec None false None "" false)
       (mkAlphaStatus 0 None [] RolloutPhaseNone "")) b = Ok (a, b1)
     /\ rollout_ConvertTo a = Ok b2 /\ ro_Spec b2 = ro_Spec b)
  /\ (exists b2, batchRelease_ConvertTo (fst (batchRelease_ConvertFrom release)) = Ok b2
       /\ br_Spec b2 = br_Spec release)
  /\ exists b a2 b1, rollout_ConvertTo alphaRollout = Ok b /\ rollout_ConvertFrom alphaRollout b = Ok (a2, b1)
       /\ a_Canary (a_Spec a2) = Some (mkAlphaCanary
            [mkAlphaStep (mkAlphaTRStrategy (Some 5) None None) (Some (FromString "5%")) (mkAlphaPause None);
             mkAlphaStep (mkAlphaTRStrategy None None None) (Some (FromInt 3)) (mkAlphaPause (Some 60))] [] None None false).
Proof.
  intros b release. pose proof conversion_roundtrip as (Hro & Hbr & Ha). split; [|split].
  - destruct (Hro (mkAlphaRollout (demoMeta ∅) (mkAlphaSpec None false None "" false)
       (mkAlphaStatus 0 None [] RolloutPhaseNone "")) b demoCanary)
      as (a & b1 & b2 & Hfrom & Hto & Hspec & _); [reflexivity..| |by exists a, b1, b2].
    split; [|split; [|done]].
    + constructor; [|constructor; [|constructor; [|constructor]]]; (split; [|constructor]); simpl; try done.
      * split; [|done]. exists 20. split; [lia|reflexivity].
      * split; [|done]. exists 50. split; [lia|reflexivity].
    + constructor; [done|constructor].
  - destruct (Hbr release) as (b2 & Hto & Hspec & _); [done|exact I|by exists b2].
  - destruct (Ha alphaRollout alphaRollout _ alphaCanary eq_refl eq_refl) as (b' & a2 & b1 & Hto & Hfrom & Hspec & _).
    { repeat constructor; simpl; lia. }
    exists b', a2, b1. split; [exact Hto|]. split; [exact Hfrom|]. rewrite Hspec. reflexivity.
Defined.
