(* ===== verification/BatchWitnesses.v ===== *)
(** * Witnesses for workloads and batches

    Closed instances, in the world of Sim.v, of the properties of workload objects, of pod
    labels, of the batch release executor, of its control planes and of the batch
    arithmetic. *)

From Stdlib Require Import Sorting.Sorted.
From S2P Require Import Sim Witnesses ControllerWitnesses.

(** ** Owners *)

(** A pod of a ReplicaSet of a Deployment. *)
Definition ownerRef (kind name uid : string) : OwnerReference :=
  mkOwnerRef appsv1 kind name uid true.
Definition ownedMeta (name uid : string) (owners : list OwnerReference) : ObjectMeta :=
  mkMeta "default" name uid 1 0 None owners [] None ∅.
Definition webDeployment : Deployment :=
  mkDeployment (ownedMeta "web" "uid-dep" []) (Some 1) None emptyTemplate "" None 0 None false None
    emptyDeploymentStatus.
Definition webReplicaSet : ReplicaSet :=
  mkReplicaSet (ownedMeta "web-1" "uid-rs" [ownerRef "Deployment" "web" "uid-dep"]) (Some 1) 0 None
    emptyTemplate 0 0 0 [].
Definition webPodMeta : ObjectMeta := ownedMeta "web-1-a" "uid-pod" [ownerRef "ReplicaSet" "web-1" "uid-rs"].
Definition ownerWorld : Sim := emptySim
  <| sim_deployments := {[ ("default", "web")%string := webDeployment ]} |>
  <| sim_replicasets := {[ ("default", "web-1")%string := webReplicaSet ]} |>.

Lemma IsOwnedBy_witness :
  exists n r, (forall depth, (n <= depth)%nat -> isOwnedBy depth webPodMeta "uid-dep" ownerWorld = (r, ownerWorld))
  /\ r = Ok true.
Proof.
  assert (Hdep : Acc (ownerOf ownerWorld) (dep_Meta webDeployment)).
  { constructor. intros p Hp. inversion Hp as [c o gvk obj Ho]. vm_compute in Ho. discriminate. }
  assert (Hrs : Acc (ownerOf ownerWorld) (rs_Meta webReplicaSet)).
  { constructor. intros p Hp. inversion Hp as [c o gvk obj Ho Hg Hget]; subst.
    vm_compute in Ho. injection Ho as <-. vm_compute in Hg. injection Hg as <-.
    vm_compute in Hget. injection Hget as <-. exact Hdep. }
  assert (Hpod : Acc (ownerOf ownerWorld) webPodMeta).
  { constructor. intros p Hp. inversion Hp as [c o gvk obj Ho Hg Hget]; subst.
    vm_compute in Ho. injection Ho as <-. vm_compute in Hg. injection Hg as <-.
    vm_compute in Hget. injection Hget as <-. exact Hrs. }
  destruct (proj1 (IsOwnedBy_terminates ownerWorld "uid-dep") webPodMeta Hpod) as (n & r & Hrun & _ & Hr).
  exists n, r. split; [exact Hrun|]. apply (proj2 Hr).
  apply (owned_indirectly ownerWorld "uid-dep" (rs_Meta webReplicaSet)).
  - apply (owner_found ownerWorld webPodMeta (ownerRef "ReplicaSet" "web-1" "uid-rs") ControllerKindRS
      (OReplicaSet webReplicaSet)); vm_compute; reflexivity.
  - apply owned_directly. exists (ownerRef "Deployment" "web" "uid-dep"). split; vm_compute; reflexivity.
Defined.

(** ** Pod batch labels *)

Definition demoPod (name batch : string) : Pod :=
  mkPod (mkMeta "default" name name 1 0 None [] [] None
    (<[ControllerRevisionHashLabelKey := "v2"]>
      (if String.eqb batch "" then ∅
       else {[ RolloutIDLabel := "r1"; RolloutBatchIDLabel := batch ]})%string)) "Running" [] "" "".
Definition demoPods : list Pod :=
  [demoPod "web-0" "1"; demoPod "web-1" ""; demoPod "web-2" ""; demoPod "web-3" ""].
Definition twoBatches : list ReleaseBatch :=
  [mkBatch (FromInt 1); mkBatch (FromString "30%")].
Definition labelContext : BatchContext :=
  mkBatchContext "r1" 1 "web-v2" 10 4 4 None 3 3 (FromInt 7) (FromInt 7) None demoPods None
    (FromInt 0) (FromInt 0).

(** The second batch of three pods gets two more, the last ones, and one pod is left. *)
Lemma PatchPodBatchLabel_witness :
  exists plan, patchPodBatchLabel twoBatches demoPods labelContext emptySim
    = patchAll (labelPatches labelContext plan) emptySim
  /\ map (fun a => fst (fst a)) plan = take (length plan) (rev (toPatch labelContext 2 demoPods))
  /\ len plan = 2 /\ len (filter (fun a => snd a = 2) plan) = 2.
Proof.
  pose proof (PatchPodBatchLabel_plan twoBatches demoPods labelContext emptySim ltac:(vm_compute; congruence)
    ltac:(repeat constructor; vm_compute; congruence)) as Hplan.
  cbv zeta in Hplan. rewrite decide_True in Hplan by (vm_compute; reflexivity).
  destruct Hplan as (plan & Hrun & Htake & _ & _ & Hbatch & _ & Hexact). exists plan.
  split; [exact Hrun|]. split; [exact Htake|].
  assert (Hlen : len plan = 2).
  { assert (Hroom : 1 + len plan = 3); [|lia]. apply Hexact. intros [|[|b]] Hb;
      [vm_compute; congruence..|simpl in Hb; lia]. }
  split; [exact Hlen|]. destruct (Hbatch 1%nat ltac:(simpl; lia)) as [_ Hfull].
  assert (E : 0 + len (filter (fun a => snd a = 2) plan) = 2); [|exact E].
  apply Hfull. rewrite Hlen. vm_compute. reflexivity.
Defined.

Lemma FilterPods_witness :
  exists sorted, sorted ≡ₚ demoPods
  /\ applyFilter FilterPodsForOrderedUpdate demoPods labelContext
     = Ok (selected (fun pod => bool_decide (getPodOrdinal pod < 7)) labelContext 3 sorted).
Proof.
  destruct (FilterPods_spec labelContext demoPods 7 ltac:(vm_compute; reflexivity)
    ltac:(split; [vm_compute; congruence|vm_compute; reflexivity])
    ltac:(split; [vm_compute; congruence|vm_compute; reflexivity])
    ltac:(vm_compute; reflexivity) ltac:(split; [vm_compute; congruence|vm_compute; reflexivity])
    ltac:(lia)) as [_ Hordered].
  destruct (applyFilter FilterPodsForOrderedUpdate demoPods labelContext) as [kept|err|].
  - destruct Hordered as (sorted & Hperm & _ & ->). exists sorted. split; [exact Hperm|reflexivity].
  - exfalso. destruct Hordered as (_ & pod & Hin & Hd). unfold demoPods in Hin.
    repeat (apply elem_of_cons in Hin as [->|Hin]; [vm_compute in Hd; discriminate|]).
    by apply elem_of_nil in Hin.
  - exfalso. destruct Hordered as (_ & pod & Hin & Hd). unfold demoPods in Hin.
    repeat (apply elem_of_cons in Hin as [->|Hin]; [vm_compute in Hd; discriminate|]).
    by apply elem_of_nil in Hin.
Defined.


(** ** Batch sizes *)

Lemma CalculateBatchReplicas_witness :
  exists n, CalculateBatchReplicas demoRelease 9 1 = Ok n /\ 0 <= n <= 9 /\ 50 * 9 <= 100 * n < 50 * 9 + 100.
Proof.
  destruct (CalculateBatchReplicas_spec demoRelease 9 1 ltac:(lia)) as (n & Hn & Hb & _ & Hp).
  exists n. split; [exact Hn|]. split; [exact Hb|]. apply (Hp 50); [lia|reflexivity].
Defined.

Lemma ParseIntegerAsPercentage_witness :
  exists p, ParseIntegerAsPercentageIfPossible 98 99 (Some (FromInt 1)) = Ok (FromString (itoa p +:+ "%"))
  /\ 0 <= p <= 100.
Proof.
  destruct (ParseIntegerAsPercentageIfPossible_spec 98 99 (FromInt 1) ltac:(lia) ltac:(lia))
    as (p & Hp & Hb & _).
  exists p. split; [exact Hp|exact Hb].
Defined.

Definition demoInfo : WorkloadInfo :=
  mkWI (mkMeta "default" "web" "uid-2" 1 0 None [] [] None ∅) 10 (mkWS 10 10 5 5 10 1 "v2" "v1").
Definition demoBatch : BatchContext := simBatchContext demoInfo demoRelease 5.

Lemma IsBatchReady_witness : IsBatchReady demoBatch = Ok tt.
Proof.
  apply (IsBatchReady_spec demoBatch ltac:(split; vm_compute; congruence)).
  split; [vm_compute; congruence|]. split; [vm_compute; congruence|].
  split; [intros _; discriminate|]. intros Hid. exfalso. apply Hid. reflexivity.
Defined.

(** ** Rounds of the executor *)

Definition batchWorld : Sim := demoWorld <| sim_info := Some demoInfo |>.

Lemma demo_int32 : int32Fields demoRelease.
Proof. split; [split; vm_compute; congruence|]. intros p [= <-]. split; vm_compute; congruence. Qed.

(** The second batch stays ready: its pods are, and the partition holds it there. *)
Lemma Do_witness :
  exists result st' err w' ctl w0, Do demoRelease batchWorld = (Ok (result, Some st', err), w')
  /\ roundPost (W := Sim) demoRelease ctl w0 result err st' w'
  /\ position st' = (RolloutPhaseProgressing, ReadyBatchState, 1).
Proof.
  destruct (run_test (Do demoRelease) batchWorld (fun a => match snd (fst a) with
      | Some st' => bool_decide (position st' = (RolloutPhaseProgressing, ReadyBatchState, 1))
      | None => false end)) as ([[result [st'|]] err] & w' & Hrun & Ht);
    [vm_compute; reflexivity| |discriminate].
  pose proof (Do_refines demoRelease batchWorld demo_int32) as Hpost. rewrite Hrun in Hpost.
  destruct Hpost as (ctl & w0 & _ & Hpost).
  exists result, st', err, w', ctl, w0. split; [exact Hrun|]. split; [exact Hpost|].
  exact (proj1 (bool_decide_eq_true _) Ht).
Defined.

(** Rounds under one plan, each from the status the previous one returned. *)
Definition planCheck (P : Z) (release : BatchRelease) : bool :=
  let b := CurrentBatch (br_CanaryStatus (br_Status release)) in
  (- 2 ^ 31 <=? b) && (b <? 2 ^ 31) && (0 <? len (Batches (br_Plan release)))
  && (len (Batches (br_Plan release)) <? 2 ^ 31)
  && match BatchPartition (br_Plan release) with
     | Some p => (0 <=? p) && (p <=? P) && (p <? 2 ^ 31)
     | None => true
     end.

Lemma planCheck_within P release : planCheck P release = true -> planWithin P release.
Proof.
  unfold planCheck, planWithin, int32Fields, in32.
  rewrite !andb_true_iff, !Z.leb_le, !Z.ltb_lt. intros ((((H1 & H2) & H3) & H4) & H5).
  destruct (BatchPartition (br_Plan release)) as [p|]; [|by split_and!].
  rewrite !andb_true_iff, !Z.leb_le, Z.ltb_lt in H5.
  split_and!; try done; intros q [= <-]; lia.
Qed.

Fixpoint batchRun (P : Z) (n : nat) (release : BatchRelease) (w : Sim) : option BatchRelease :=
  match n with
  | O => Some release
  | S n =>
      match planCheck P release, Do release w with
      | true, (Ok (_, Some st', _), w') => batchRun P n (release <| br_Status := st' |>) w'
      | _, _ => None
      end
  end.

Lemma batchRun_rtc P n release w release' :
  batchRun P n release w = Some release' ->
  rtc (roundCall (W := Sim) P) (br_Status release) (br_Status release').
Proof.
  revert release w. induction n as [|n IH]; intros release w; simpl; [by intros [= ->]|].
  destruct (planCheck P release) eqn:Ec; [|done].
  destruct (Do release w) as [[[[result [st'|]] err]|e|] w'] eqn:Er; try done.
  intros Hrun. eapply rtc_l; [|exact (IH _ _ Hrun)].
  exists release, w, result, err, w'. split; [done|]. split; [by apply planCheck_within|done].
Qed.

(** A new release whose plan allows for the second batch gets there and no further. *)
Definition newRelease : BatchRelease := demoRelease <| br_Status := emptyBRStatus |>.
Definition freshWorld : Sim := demoWorld <| sim_info := Some (demoInfo
  <| wi_Status := mkWS 10 10 0 0 10 1 "v2" "v1" |>) |>.

Lemma batch_index_witness :
  exists release', batchRun 1 20 newRelease freshWorld = Some release'
  /\ position (br_Status release') = (RolloutPhaseProgressing, ReadyBatchState, 1)
  /\ 0 <= CurrentBatch (br_CanaryStatus (br_Status release')) <= 1.
Proof.
  assert (Hp : option_map (fun r => position (br_Status r)) (batchRun 1 20 newRelease freshWorld)
      = Some (RolloutPhaseProgressing, ReadyBatchState, 1)) by (vm_compute; reflexivity).
  destruct (batchRun 1 20 newRelease freshWorld) as [release'|] eqn:E; [|discriminate].
  exists release'. split; [reflexivity|]. split; [exact (inj Some _ _ Hp)|].
  exact (proj1 (batch_index_safe 1 (br_Status newRelease) (br_Status release') ltac:(lia)
    ltac:(split; vm_compute; congruence) (batchRun_rtc 1 20 newRelease freshWorld release' E))).
Defined.

(** A cancelled release completes by finalising its workload. *)
Definition cancelledRelease : BatchRelease :=
  demoRelease <| br_Spec := (br_Spec demoRelease) <| br_ReleasePlan :=
    (br_Plan demoRelease) <| BatchPartition := None |> |> |>.

Lemma finalizer_witness :
  exists release ctl (w0 w1 : Sim), getReleaseController release w0 = (Ok ctl, w1)
  /\ br_Phase (br_Status release) = RolloutPhaseFinalizing
  /\ called release (cp_Finalize ctl) id succeeded.
Proof.
  assert (Hp : option_map (fun r => br_Phase (br_Status r)) (batchRun 1 5 cancelledRelease batchWorld)
      = Some RolloutPhaseCompleted) by (vm_compute; reflexivity).
  destruct (batchRun 1 5 cancelledRelease batchWorld) as [release'|] eqn:E; [|discriminate].
  apply (inj Some) in Hp.
  destruct (finalizer_after_finalize 1 (br_Status cancelledRelease) (br_Status release')
    ltac:(discriminate) (batchRun_rtc 1 5 cancelledRelease batchWorld release' E) Hp)
    as ((release & ctl & w0 & w1 & Hg & Hphase & _ & Hcalled) & _).
  exists release, ctl, w0, w1. split; [exact Hg|]. split; [exact Hphase|exact Hcalled].
Defined.

(** ** Control planes *)

(** The workload is scaled to twelve while its second batch is ready. *)
Definition scaledInfo : WorkloadInfo := demoInfo <| wi_Replicas := 12 |>.

Lemma sync_events_witness :
  exists stop requeue s',
    syncStatusBeforeExecuting demoRelease (partitionControlPlane simBuild demoRelease)
      (br_Status demoRelease, demoWorld <| sim_info := Some scaledInfo |>)
      = (Ok (stop, requeue, None), (s', demoWorld <| sim_info := Some scaledInfo |>))
    /\ stop = true /\ position s' = (RolloutPhaseProgressing, UpgradingBatchState, 1)
    /\ ObservedWorkloadReplicas s' = 12.
Proof.
  destruct (partition_sync_events simBuild demoRelease (simController (Some scaledInfo)) scaledInfo
    (demoWorld <| sim_info := Some scaledInfo |>) (demoWorld <| sim_info := Some scaledInfo |>)
    eq_refl ltac:(split_and!; [reflexivity|discriminate|vm_compute; reflexivity|vm_compute; reflexivity])
    eq_refl eq_refl) as (stop & requeue & s' & Hrun & _ & _ & _ & _ & Hscaled & _).
  exists stop, requeue, s'. split; [exact Hrun|].
  destruct (Hscaled eq_refl eq_refl ltac:(split; discriminate)) as (H1 & _ & H2 & H3).
  split; [exact H1|]. split; [exact H2|exact H3].
Defined.
