(* ===== verification/ControlWitnesses.v ===== *)
(** * Witnesses for the controllers of single kinds

    Closed instances of the properties of the per-workload controls.  The libraries these
    controls rely on are instantiated first: numbers read back as they are written, and
    references encoded by the bits of a number. *)

From stdpp Require Import pretty countable.
From S2P Require Import Sim Witnesses ControllerWitnesses PartitionProofs MinReadyProofs BlueGreenProofs Composition.

(** ** Numbers *)

Lemma readDigits_pretty x s : readDigits 0 (pretty_N_go x s) = readDigits (Z.of_N x) s.
Proof.
  revert s. induction (N.lt_wf_0 x) as [x _ IH]; intros s.
  destruct (decide (x = 0)%N) as [->|Hx]; [done|].
  rewrite pretty_N_go_step by lia. rewrite IH by (apply N.div_lt; lia).
  assert (Hm : (x mod 10 < 10)%N) by (apply N.mod_lt; lia).
  assert (Hc : Z.of_nat (Ascii.nat_of_ascii (pretty_N_char (x mod 10))) - 48 = Z.of_N (x mod 10)).
  { revert Hm. generalize (x mod 10)%N as y. intros y Hy.
    assert (y = 0 \/ y = 1 \/ y = 2 \/ y = 3 \/ y = 4 \/ y = 5 \/ y = 6 \/ y = 7 \/ y = 8 \/ y = 9)%N
      as Hcases by lia.
    by destruct Hcases as [->|[->|[->|[->|[->|[->|[->|[->|[->| ->]]]]]]]]]. }
  assert (Hr : 0 <= Z.of_N (x mod 10) <= 9).
  { clear -Hm. revert Hm. generalize (x mod 10)%N. lia. }
  cbn [readDigits]. rewrite Hc. rewrite bool_decide_eq_true_2 by done. f_equal.
  rewrite N2Z.inj_div, N2Z.inj_mod. change (Z.of_N 10) with 10. pose proof (Z.div_mod (Z.of_N x) 10 ltac:(lia)). lia.
Qed.

(** What follows a number is read after it. *)
Lemma readDigits_itoa p s : readDigits 0 (itoa (Z.pos p) +:+ s) = readDigits (Z.pos p) s.
Proof.
  assert (E : forall x t, pretty_N_go x t +:+ s = pretty_N_go x (t +:+ s)).
  { intros x. induction (N.lt_wf_0 x) as [x _ IH]; intros t.
    destruct (decide (x = 0)%N) as [->|Hx]; [done|].
    rewrite !(pretty_N_go_step x) by lia. apply IH, N.div_lt; lia. }
  change (itoa (Z.pos p)) with (pretty_N_go (N.pos p) ""). rewrite E. apply readDigits_pretty.
Qed.

Lemma itoa_pos_head p : exists c rest, itoa (Z.pos p) = String c rest /\ Ascii.nat_of_ascii c <> 45%nat.
Proof.
  pose proof (readDigits_itoa p "") as E. pose proof (itoa_nonempty (Z.pos p)) as Hne.
  destruct (itoa (Z.pos p)) as [|c rest]; [done|]. exists c, rest. split; [done|]. intros Hc.
  change (String c rest +:+ "")%string with (String c (rest +:+ "")) in E. cbn [readDigits] in E.
  by rewrite Hc in E.
Qed.

Lemma Atoi_itoa_app n s : s = ""%string \/ s = "%"%string ->
  Atoi (itoa n +:+ s) = if String.eqb s "" then Some n else None.
Proof.
  intros Hs. destruct n as [|p|p].
  - by destruct Hs as [-> | ->].
  - pose proof (readDigits_itoa p s) as E. destruct (itoa_pos_head p) as (c & rest & Ep & Hc).
    rewrite Ep in *. change (String c rest +:+ s)%string with (String c (rest +:+ s)) in *.
    unfold Atoi, Sim_Strconv. rewrite (proj2 (Nat.eqb_neq _ _) Hc), E.
    destruct Hs as [-> | ->]; [by destruct (_ +:+ _)%string|by destruct (_ +:+ _)%string].
  - pose proof (readDigits_itoa p s) as E. destruct (itoa_pos_head p) as (c & rest & Ep & Hc).
    set (minus := Ascii.ascii_of_nat 45).
    change (itoa (Z.neg p)) with (String minus (itoa (Z.pos p))).
    change (String minus (itoa (Z.pos p)) +:+ s)%string with (String minus (itoa (Z.pos p) +:+ s)).
    unfold Atoi, Sim_Strconv. rewrite E. rewrite Ep. simpl. by destruct Hs as [-> | ->].
Qed.

#[export] Instance Sim_ParseLib : ParseLib := {|
  ParseInt32 s := n ← Atoi s; if bool_decide (- 2 ^ 31 <= n < 2 ^ 31) then Some n else None;
  IntStrParse s := match Atoi s with Some n => FromInt n | None => FromString s end
|}.
#[export] Instance Sim_ParseLaws : ParseLaws.
Proof.
  assert (Hint : forall n, Atoi (itoa n) = Some n).
  { intros n. pose proof (Atoi_itoa_app n "" ltac:(by left)) as E.
    assert (Happ : forall t, (t +:+ "")%string = t) by (intros t; induction t as [|c t IH]; [done|]; by apply (f_equal (String c))).
    by rewrite Happ in E. }
  split.
  - intros n Hn. unfold ParseInt32, Sim_ParseLib. rewrite Hint. simpl. by rewrite bool_decide_eq_true_2.
  - intros n Hn. unfold IntStrParse, Sim_ParseLib. by rewrite Hint.
  - intros p. unfold IntStrParse, Sim_ParseLib. by rewrite (Atoi_itoa_app p "%" ltac:(by right)).
Defined.

(** ** Other libraries *)

#[export] Instance Sim_TypeMeta : TypeMeta := fun _ => ("rollouts.kruise.io/v1beta1", "BatchRelease")%string.
#[export] Instance Sim_ObjectKind : ObjectKind := fun _ => ("apps/v1", "Deployment")%string.

#[export] Instance OwnerReference_countable : Countable OwnerReference.
Proof.
  apply (inj_countable'
    (fun r => (or_APIVersion r, or_Kind r, or_Name r, or_UID r, or_Controller r))
    (fun t => let '(v, k, n, u, c) := t in mkOwnerRef v k n u c)). by intros [].
Defined.

(** The bits of a number as a text. *)
Fixpoint bits (p : positive) : string :=
  match p with xH => "1" | xO p => String (Ascii.ascii_of_nat 48) (bits p)
  | xI p => String (Ascii.ascii_of_nat 49) (bits p) end.
Fixpoint ofBits (s : string) : positive :=
  match s with
  | EmptyString => xH
  | String _ EmptyString => xH
  | String c rest => if Nat.eqb (Ascii.nat_of_ascii c) 48 then xO (ofBits rest) else xI (ofBits rest)
  end.
Lemma ofBits_bits p : ofBits (bits p) = p.
Proof.
  induction p as [p IH|p IH|]; [| |done]; cbn [bits ofBits]; destruct (bits p) as [|c rest] eqn:E;
    try (by destruct p); by rewrite IH.
Qed.

#[export] Instance Sim_JsonReference : Json OwnerReference :=
  {| Marshal r := bits (encode r); Unmarshal s := decode (ofBits s) |}.
#[export] Instance Sim_JsonReferenceLaws : JsonLaws OwnerReference.
Proof. intros r. unfold Unmarshal, Marshal, Sim_JsonReference. by rewrite ofBits_bits, decode_encode. Defined.
#[export] Instance Sim_JsonStrategy : Json DeploymentStrategy :=
  {| Marshal _ := "{}"%string; Unmarshal _ := None |}.

(** ** Partitions *)

Definition webCloneSet : CloneSet :=
  mkCloneSet (demoMeta ∅) (Some 10) None (mkTemplate None None "image: v2") "" (Some (FromString "80%")) None
    None false 0 (mkCloneSetStatus 10 10 10 5 5 3 "web-v2" "web-v1").
Definition webInfo : WorkloadInfo := mkWI (demoMeta ∅) 10 (mkWS 10 10 5 5 10 1 "v2" "v1").
Definition webControl : realController CloneSet := mkReal webCloneSet webInfo None.

(** Half of ten pods: five are kept, and no batch is between five and six pods. *)
Lemma batch_exposure_witness :
  exists bc, cloneset_contextOf webControl demoRelease = Ok bc
  /\ bc_DesiredUpdatedReplicas bc = 5 /\ 5 <= 10 - kept (bc_DesiredPartition bc) 10
  /\ 10 - kept (bc_DesiredPartition bc) 10 = 5.
Proof.
  destruct (cloneset_batch_exposure webControl demoRelease ltac:(split; vm_compute; congruence)
    ltac:(vm_compute; congruence) ltac:(vm_compute; reflexivity) ltac:(vm_compute; congruence))
    as (bc & canary & Hbc & Hc & Hrange & Hmatch).
  exists bc. split; [exact Hbc|]. vm_compute in Hbc. injection Hbc as <-.
  vm_compute in Hc. injection Hc as <-.
  rewrite decide_False in Hmatch by (vm_compute; intros (_ & Hlt & _); discriminate).
  destruct Hmatch as (p & _ & _ & _ & Hle & _ & Heq). split; [reflexivity|].
  split; [exact Hle|apply Heq; vm_compute; reflexivity].
Defined.

(** The workload keeps 80% and the batch 50%: one patch. *)
Lemma upgrade_witness :
  exists bc, cloneset_contextOf webControl demoRelease = Ok bc
  /\ forall w : Sim, cloneset_UpgradeBatch webCloneSet bc w
       = api_Patch (O := CloneSet) (clone_Meta webCloneSet) (PatchFields
           [updateStrategyField ["partition"%string] (VIntOrString (bc_DesiredPartition bc))]) w.
Proof.
  destruct (cloneset_contextOf webControl demoRelease) as [bc| |] eqn:Ebc;
    [|vm_compute in Ebc; discriminate..].
  exists bc. split; [reflexivity|]. intros w.
  pose proof (proj1 (upgrade_never_reverts demoRelease ControllerKindSts bc w) webControl Ebc) as Hup.
  unfold upgrades in Hup. rewrite decide_False in Hup; [exact (proj2 Hup)|].
  vm_compute in Ebc. injection Ebc as <-. vm_compute. intros Hle. apply Hle. reflexivity.
Defined.

(** ** Claims *)

Definition claimedMeta : ObjectMeta :=
  (demoMeta ∅) <| Annotations := Some {[ BatchReleaseControlAnnotation :=
    Marshal (releaseControllerRef demoRelease) ]} |>.

Lemma claim_witness : IsControlledByBatchRelease demoRelease claimedMeta = true.
Proof.
  apply (claim_recognised (W := Sim) demoRelease claimedMeta); [vm_compute; reflexivity..|].
  vm_compute. discriminate.
Defined.

(** ** Autoscalers *)

Definition webDeploymentObject : WorkloadObject := ODeployment (mkDeployment (demoMeta ∅) (Some 10) None
  (mkTemplate None None "image: v2") "RollingUpdate" None 0 None false None emptyDeploymentStatus).
Definition webHPA (name : string) : HPA :=
  mkHPA "v2" (demoMeta ∅) (Ok (Some (name, "apps/v1"%string, "Deployment"%string))).
#[export] Instance Sim_HPAClient : HPAClient Sim := {|
  list_HPA version _ := ret (if String.eqb version "v2" then [webHPA "demo"] else []);
  patch_HPA _ _ := ret tt
|}.

Lemma hpa_witness :
  DisableHPA webDeploymentObject demoWorld
  = patchTarget (webHPA "demo") "apps/v1" "Deployment" "demo-DisableByRollout" "failed to disable HPA" demoWorld.
Proof.
  assert (Hfound : findHPAForWorkload webDeploymentObject demoWorld
                   = (Ok (Some (webHPA "demo")), demoWorld)) by reflexivity.
  destruct (hpa_roundtrip webDeploymentObject (webHPA "demo") demoWorld demoWorld Hfound)
    as (name & version & kind & (Hr & _ & _) & Hd & _).
  injection Hr as <- <- <-. exact Hd.
Defined.

(** ** MinReadySeconds *)

Definition plainDeployment : Deployment := mkDeployment (demoMeta ∅) (Some 10) None
  (mkTemplate None None "image: v2") "RollingUpdate"
  (Some (mkRollingUpdate (Some (FromString "20%")) (Some (FromInt 1)))) 5 None false None emptyDeploymentStatus.

Lemma minready_witness :
  exists modified original, initialized demoRelease plainDeployment = Ok modified
  /\ finalizedDeployment modified original = withDefaults plainDeployment
  /\ dep_MinReadySeconds modified = 2 ^ 31 - 2.
Proof.
  destruct (minready_roundtrip demoRelease plainDeployment) as (modified & original & Hi & _ & _ & Hf).
  - vm_compute. reflexivity.
  - split; vm_compute; congruence.
  - split; vm_compute; congruence.
  - exists 20. split; [lia|]. vm_compute. reflexivity.
  - exists modified, original. split; [exact Hi|]. split; [exact Hf|].
    vm_compute in Hi. injection Hi as <-. reflexivity.
Defined.

(** Ten pods, the batch wants five: with two ready and a step of two the budget is four. *)
Definition inflatedDeployment : Deployment :=
  match initialized demoRelease plainDeployment with
  | Ok d => setMaxUnavailable (Some (FromInt 2)) d
  | _ => plainDeployment
  end.
Definition minreadyBatch : BatchContext :=
  mkBatchContext "" 1 "v2" 10 2 2 None 5 5 (FromInt 0) (FromString "50%") None [] None (FromInt 0) (FromInt 0).

Lemma window_witness :
  exists v, nextMaxUnavailable inflatedDeployment minreadyBatch = Ok (Some v) /\ v = 4 /\ v <= 2 + 2.
Proof.
  destruct (minready_window inflatedDeployment minreadyBatch
    (mkRollingUpdate (Some (FromInt 2)) (Some (FromInt 1))) 2 2) as (next & Hnext & Hpost);
    [vm_compute; reflexivity..|lia|split; vm_compute; congruence|split; vm_compute; congruence|].
  vm_compute in Hnext. injection Hnext as <-. exists 4. split; [vm_compute; reflexivity|].
  split; [reflexivity|]. apply Hpost. reflexivity.
Defined.

(** ** A release of a CloneSet *)

(** A world of its own: ten pods of a CloneSet, which are updated as soon as the
    partition allows it, and a log of the patches.  No other object exists. *)
Record Cluster := mkCluster {
  cl_claim : option string;
  cl_partition : IntOrString;
  cl_updated : Z;
  cl_log : list (ObjectMeta * RawPatch);
  cl_now : Z
}.

Definition clusterObject (w : Cluster) : CloneSet :=
  mkCloneSet (claimedMeta <| Annotations := (fun c => {[ BatchReleaseControlAnnotation := c ]}) <$> cl_claim w |>)
    (Some 10) None (mkTemplate None None "image: v2") "" (Some (cl_partition w)) None None false 0
    (mkCloneSetStatus 10 10 10 (cl_updated w) (cl_updated w) 1 "web-v2" "web-v1").

(** What one field of a patch does to the CloneSet. *)
Definition clusterField (w : Cluster) (f : Field) : Cluster :=
  let partition v := mkCluster (cl_claim w) v (Z.max (cl_updated w) (10 - kept v 10)) (cl_log w) (cl_now w) in
  match snd f with
  | VQuoted claim => mkCluster (Some claim) (cl_partition w) (cl_updated w) (cl_log w) (cl_now w)
  | VString s => partition (FromString s)
  | VInt n => partition (FromInt n)
  | _ => w
  end.
Definition clusterPatch (m : ObjectMeta) (p : RawPatch) (w : Cluster) : Cluster :=
  let w' := match p with PatchFields fields => foldl clusterField w fields | _ => w end in
  mkCluster (cl_claim w') (cl_partition w') (cl_updated w') ((m, p) :: cl_log w) (cl_now w').

Definition absent {O} : Api Cluster O := {|
  api_Get _ := fail ErrNotFound; api_Create _ := fail ErrNotFound; api_Update _ := fail ErrNotFound;
  api_UpdateStatus _ := fail ErrNotFound; api_Patch _ _ := fail ErrNotFound; api_Delete _ := fail ErrNotFound
|}.
#[local] Instance Cluster_CloneSets : Api Cluster CloneSet := {|
  api_Get _ w := (Ok (clusterObject w), w); api_Create _ := fail ErrNotFound;
  api_Update _ := fail ErrNotFound; api_UpdateStatus _ := fail ErrNotFound;
  api_Patch m p w := (Ok tt, clusterPatch m p w); api_Delete _ := fail ErrNotFound
|}.
#[local] Instance Cluster_KruiseDaemonSets : Api Cluster KruiseDaemonSet := absent.
#[local] Instance Cluster_DaemonSets : Api Cluster DaemonSet := absent.
#[local] Instance Cluster_Deployments : Api Cluster Deployment := absent.
#[local] Instance Cluster_ReplicaSets : Api Cluster ReplicaSet := absent.
#[local] Instance Cluster_Pods : Api Cluster Pod := absent.
#[local] Instance Cluster_Merge : MergeFromApi Cluster Deployment := fun _ o => ret o.
#[local] Instance Cluster_PatchInto : PatchInto Cluster Deployment := fun _ _ => fail ErrNotFound.
#[local] Instance Cluster_Generate : GenerateApi Cluster Deployment := fun _ _ => fail ErrNotFound.
#[local] Instance Cluster_Retry : Retry Cluster := fun f => f.
#[local] Instance Cluster_Workloads : WorkloadClient Cluster := fun _ _ _ => fail ErrNotFound.
#[local] Instance Cluster_List {O} : ListApi Cluster O := fun _ _ => ret [].
#[local] Instance Cluster_HPAs : HPAClient Cluster :=
  {| list_HPA _ _ := ret []; patch_HPA _ _ := fail ErrNotFound |}.
#[local] Instance Cluster_Reader : ObjectReader Cluster := fun _ _ => fail ErrNotFound.
#[local] Instance Cluster_Labels : LabelPatcher Cluster := fun _ _ => ret tt.
#[local] Instance Cluster_Clock : Clock Cluster := fun w =>
  (cl_now w, mkCluster (cl_claim w) (cl_partition w) (cl_updated w) (cl_log w) (cl_now w + 1)).
#[local] Instance Cluster_Expectations : HasExpectations Cluster :=
  {| expectationsOf _ := ∅; setExpectations _ w := w |}.
#[local] Instance unread {A} : Json A | 100 := {| Marshal _ := "{}"%string; Unmarshal _ := None |}.
#[local] Instance Cluster_Gate : KeepPausedGate := false.
#[local] Instance Cluster_ErrorText : ErrorText := fun _ => "error"%string.
#[local] Instance Cluster_Flags : ExpectationFlags := 300.
#[local] Instance Cluster_Unquote : Unquoter := Some.

#[local] Instance Cluster_Planes : ControlPlanes Cluster := releaseControlPlane.

#[local] Instance Cluster_PlanesLaws : ControlPlanesLaws Cluster.
Proof. exact releaseControlPlane_laws. Defined.

#[local] Instance Cluster_Log : PatchLog Cluster := cl_log.
#[local] Instance Cluster_LogLaws : PatchLogLaws Cluster.
Proof.
  split; try (intros; intros w r w' [= _ <-]; done).
  by intros m p w r w' [= _ <-].
Defined.

(** Round after round at the second of three steps. *)
Definition secondStep : option BatchRelease :=
  match canary_createBatchRelease (demoRollout CanaryStepStateUpgrade) "" 1 false with
  | Ok br => Some br
  | _ => None
  end.
Fixpoint rounds (n : nat) (s : BatchReleaseStatus) (w : Cluster) : option (BatchReleaseStatus * Cluster) :=
  match n, secondStep with
  | O, _ => Some (s, w)
  | S n, Some br =>
      match Do (br <| br_Status := s |>) w with
      | (Ok (_, Some s', _), w') =>
          if decide (NoNeedUpdateReplicas (br_CanaryStatus s) = None) then rounds n s' w' else None
      | _ => None
      end
  | _, None => None
  end.

Definition startStatus : BatchReleaseStatus :=
  mkBRStatus [] (mkBRCanaryStatus UpgradingBatchState 0 None 0 0 None) "" "" 0 "" 0 None "" RolloutPhaseNone "".
Definition startCluster : Cluster := mkCluster None (FromString "0%") 0 [] 0.

(** What the patches set, but for the claim. *)
Definition valuesSent (w : Cluster) : list (list FieldValue) :=
  map (fun sent => match snd sent with
                   | PatchFields fields => List.filter (fun v => match v with VQuoted _ => false | _ => true end) (map snd fields)
                   | _ => []
                   end) (cl_log w).

Lemma secondStep_atStep br s : secondStep = Some br -> atStep demoSteps 2 (br <| br_Status := s |>).
Proof.
  unfold secondStep. destruct (canary_createBatchRelease _ _ _ _) as [br'| |] eqn:E; intros [= <-].
  exists (demoRollout CanaryStepStateUpgrade), demoCanary, ""%string, 2, false, br'.
  split_and!; [done..| |done]. exact E.
Qed.

Lemma rounds_steps n s w s' w' :
  rounds n s w = Some (s', w') -> rtc (releaseStep demoSteps 2) (s, w) (s', w').
Proof.
  revert s w. induction n as [|n IH]; intros s w; cbn [rounds]; [intros [= <- <-]; constructor|].
  destruct secondStep as [br|] eqn:Hbr; [|done].
  destruct (Do (br <| br_Status := s |>) w) as [r w1] eqn:Hrun.
  destruct r as [[[result [s1|]] err]| |]; try done. case_decide as Hmarked; [|done]. intros Hrest.
  apply (rtc_l _ _ (s1, w1)); [|by apply IH].
  change (releaseStep demoSteps 2 (br_Status (br <| br_Status := s |>), w) (s1, w1)).
  apply (step_round demoSteps 2 (br <| br_Status := s |>) w (Ok (result, Some s1, err))).
  - by apply secondStep_atStep.
  - exact Hmarked.
  - exact Hrun.
  - right. by eexists _, _.
Qed.

Lemma clusterObject_small w info :
  ParseWorkload (OCloneSet (clusterObject w)) = Ok info -> wi_Replicas info = 10.
Proof. by intros [= <-]. Qed.

Definition endCluster : option (BatchReleaseStatus * Cluster) := rounds 16 startStatus startCluster.
Lemma endCluster_sent :
  (fun x => (CurrentBatch (br_CanaryStatus (fst x)), cl_updated (snd x), valuesSent (snd x))) <$> endCluster
  = Some (1, 5, [[VString "50%"]; [VString "80%"]; [VBool false; VString "100%"]])%string.
Proof. vm_compute. reflexivity. Qed.

(** The release claims the CloneSet and updates two pods, then five, and stays there. *)
Lemma overtaken_witness :
  exists s w, endCluster = Some (s, w)
  /\ valuesSent w = [[VString "50%"]; [VString "80%"]; [VBool false; VString "100%"]]%string
  /\ Forall (safePatch (W := Cluster) demoSteps 2) (cl_log w).
Proof.
  pose proof endCluster_sent as Hsent. destruct endCluster as [[s w]|] eqn:E; [|discriminate].
  exists s, w. split; [reflexivity|]. split; [exact (f_equal (fun x => snd (default (0, 0, []) x)) Hsent)|].
  destruct (no_step_overtaken (W := Cluster) demoSteps 2 startStatus s startCluster w) as (sent & Hlog & Hall).
  - vm_compute. split; reflexivity.
  - reflexivity.
  - intros key w0 object w1 info [= <- _] Hinfo. rewrite (clusterObject_small w0 info Hinfo).
    split; [discriminate|reflexivity].
  - split; vm_compute; discriminate.
  - exact (rounds_steps 16 startStatus startCluster s w E).
  - unfold clonePatches, Cluster_Log in Hlog. rewrite app_nil_r in Hlog. rewrite Hlog. exact Hall.
Defined.

(** ** Healthy rounds *)

(** What a round at the second step finds in this world: whether it is healthy, and then
    whether the status shows the counts. *)
Definition healthAt (br : BatchRelease) (s : BatchReleaseStatus) (w : Cluster) : option bool :=
  match getReleaseController (storing br s) w with
  | (Ok ctl, w0) =>
      match cp_SyncWorkloadInformation ctl (getInitializedStatus s, w0) with
      | (Ok (WorkloadNormalState, info, None), (s1, w1)) =>
          if decide (s1 = getInitializedStatus s) then
            match nextOperation ctl s (normalized s, w1) with
            | (Ok _, _) => Some (showsCounts info s)
            | _ => None
            end
          else None
      | _ => None
      end
  | _ => None
  end.
Lemma healthAt_healthy br s w settled : healthAt br s w = Some settled -> healthy br s w settled.
Proof.
  unfold healthAt. destruct (getReleaseController _ w) as [[ctl| |] w0] eqn:Hg; try done.
  destruct (cp_SyncWorkloadInformation _ _) as [[[[event info] err]| |] [s1 w1]] eqn:Hsync; try done.
  destruct event; try done. destruct err; [done|]. case_decide as Hs1; [|done]. subst s1.
  destruct (nextOperation _ _ _) as [[[]| |] [s2 w2]] eqn:Hop; try done. intros [= <-].
  exists ctl, w0, info, w1. split; [done|]. split; [done|]. split; [done|]. by exists s2, w2.
Qed.

Fixpoint healthyRun (k : nat) (br : BatchRelease) (s : BatchReleaseStatus) (w : Cluster)
    : option (nat * BatchReleaseStatus) :=
  match k with
  | O => Some (O, s)
  | S k =>
      settled ← healthAt br s w;
      match Do (storing br s) w with
      | (Ok (_, Some s', _), w') =>
          '(n, s'') ← healthyRun k br s' w'; Some (if settled : bool then S n else n, s'')
      | _ => None
      end
  end.
Lemma healthyRun_rounds k br s w n s' :
  healthyRun k br s w = Some (n, s') -> healthyRounds (W := Cluster) br n s s'.
Proof.
  revert s w n. induction k as [|k IH]; intros s w n; cbn [healthyRun]; [intros [= <- <-]; constructor|].
  destruct (healthAt br s w) as [settled|] eqn:Hh; cbn; [|done].
  destruct (Do (storing br s) w) as [[[[result [s1|]] err]| |] w1] eqn:Hrun; try done.
  destruct (healthyRun k br s1 w1) as [[n1 s2]|] eqn:Hrest; cbn; [|done]. intros [= <- <-].
  econstructor; [by apply healthAt_healthy|exact Hrun|by eapply IH].
Qed.

(** Twelve rounds at the second of three steps, from a status that has not begun; in two
    of them the status does not show the counts yet. *)
Definition clusterRun : option (BatchRelease * (nat * BatchReleaseStatus)) :=
  br ← secondStep; run ← healthyRun 12 br startStatus startCluster; Some (br, run).
Lemma clusterRun_facts :
  match clusterRun with
  | Some (br, (n, s)) =>
      deleting (br_Meta br) = false /\ hasRollbackAnnotation br = false
      /\ BatchPartition (br_Plan br) = Some 1 /\ len (Batches (br_Plan br)) = 3 /\ n = 10%nat
  | None => False
  end.
Proof. vm_compute. repeat split. Qed.

Lemma reaches_witness :
  exists br n s, clusterRun = Some (br, (n, s)) /\ position s = (RolloutPhaseProgressing, ReadyBatchState, 1).
Proof.
  pose proof clusterRun_facts as Hfacts. unfold clusterRun in *.
  destruct secondStep as [br|] eqn:Hbr; cbn [mbind option_bind] in *; [|destruct Hfacts].
  destruct (healthyRun 12 br startStatus startCluster) as [[n s]|] eqn:Hrun; cbn [mbind option_bind] in *; [|destruct Hfacts].
  destruct Hfacts as (Hlive & Hback & Hpart & Hlen & ->). exists br, 10%nat, s. split; [reflexivity|].
  refine (proj2 (release_reaches_partition (W := Cluster) br 1 10 startStatus s Hlive Hback Hpart _ _ _ _) _).
  - rewrite Hlen. split; [discriminate|reflexivity].
  - rewrite Hlen. reflexivity.
  - split; [discriminate|]. split; [discriminate|]. split; discriminate.
  - exact (healthyRun_rounds 12 br startStatus startCluster 10 s Hrun).
  - discriminate.
Defined.

(** ** The end of a blue-green release *)

#[local] Instance OriginalStrategy_eq_dec : EqDecision OriginalDeploymentStrategy.
Proof. solve_decision. Defined.
#[local] Instance OriginalStrategy_countable : Countable OriginalDeploymentStrategy.
Proof.
  apply (inj_countable'
    (fun s => let code := option_map (fun v => match v with FromInt n => inl n | FromString s => inr s end) in
       (code (os_MaxUnavailable s), code (os_MaxSurge s), os_MinReadySeconds s, os_ProgressDeadlineSeconds s))
    (fun t : option (Z + string) * option (Z + string) * Z * option Z =>
       let '(u, s, m, p) := t in
       let value := option_map (fun v => match v with inl n => FromInt n | inr s => FromString s end) in
       mkOriginal (value u) (value s) m p)).
  by intros [[[]|] [[]|] ? ?].
Defined.
#[local] Instance Cluster_JsonOriginal : Json OriginalDeploymentStrategy :=
  {| Marshal s := bits (encode s); Unmarshal s := decode (ofBits s) |}.
#[local] Instance Cluster_JsonOriginalLaws : JsonLaws OriginalDeploymentStrategy.
Proof. intros s. unfold Unmarshal, Marshal, Cluster_JsonOriginal. by rewrite ofBits_bits, decode_encode. Defined.
Lemma original_nonempty (s : OriginalDeploymentStrategy) : Marshal s <> ""%string.
Proof. unfold Marshal, Cluster_JsonOriginal. by destruct (encode s). Qed.

Definition savedOriginal : OriginalDeploymentStrategy :=
  mkOriginal (Some (FromString "20%")) (Some (FromInt 3)) 5 None.
Definition blueGreenCloneSet : CloneSet :=
  mkCloneSet ((demoMeta ∅) <| Annotations := Some {[ OriginalDeploymentStrategyAnnotation := Marshal savedOriginal ]} |>)
    (Some 10) None (mkTemplate None None "image: v2") "" None (Some (FromInt 0)) (Some (FromString "100%"))
    false MaxReadySeconds (mkCloneSetStatus 10 10 10 10 10 3 "web-v2" "web-v1").
Definition endedRelease : BatchRelease :=
  demoRelease <| br_Spec := (br_Spec demoRelease) <| br_ReleasePlan := (br_Plan demoRelease) <| BatchPartition := None |> |> |>.

(** The end of the release brings back a surge of 3 and five seconds; the start of one
    saves the defaults. *)
Lemma bluegreen_finalize_witness :
  (exists fields w1, api_Patch (O := CloneSet) (clone_Meta blueGreenCloneSet) (PatchFields fields) startCluster = (Ok tt, w1)
   /\ option_map (fun c => (clone_MaxSurge c, clone_MaxUnavailable c, clone_MinReadySeconds c))
        (mergeCloneSet fields blueGreenCloneSet) = Some (Some (FromInt 3), Some (FromString "20%"), 5))
  /\ exists fields c1, mergeCloneSet fields webCloneSet = Some c1
     /\ GetOriginalSetting (clone_Meta c1) = Ok (mkOriginal (Some (FromString "20%")) (Some (FromString "0%")) 0 None).
Proof.
  destruct (bluegreen_finalize (W := Cluster) endedRelease startCluster original_nonempty) as (_ & Hend & Hinit & _).
  split.
  - destruct (proj1 (Hend eq_refl) blueGreenCloneSet (snd (bgcloneset_Finalize blueGreenCloneSet endedRelease startCluster)))
      as (_ & w1 & _ & Hrest); [vm_compute; reflexivity|].
    replace (restored (clone_Meta blueGreenCloneSet)) with false in Hrest by (vm_compute; reflexivity).
    destruct Hrest as (setting & fields & Hset & Hpatch & Hmerge). exists fields, w1. split; [exact Hpatch|].
    rewrite Hmerge. assert (Es : setting = savedOriginal) by (vm_compute in Hset; injection Hset as <-; reflexivity).
    rewrite Es. reflexivity.
  - destruct (Hinit webCloneSet (snd (bgcloneset_Initialize webCloneSet endedRelease startCluster)))
      as (fields & w1 & c1 & _ & Hmerge & Hset); [vm_compute; reflexivity..|].
    exists fields, c1. split; [exact Hmerge|exact Hset].
Defined.
