(* ===== verification/AdmissionWitnesses.v ===== *)
(** * Witnesses for admission and for the TrafficRouting controller

    Closed instances, in the world of Sim.v, of the properties of ValidationProofs.v, of
    TrafficRoutingController.v and of WorkloadAdmissionProofs.v, where a Deployment and a
    CloneSet get a new image. *)

From S2P Require Import Sim Witnesses ControllerWitnesses ControlWitnesses ValidationProofs TrafficRoutingController WorkloadAdmissionProofs.

(** ** Admission *)

#[export] Instance Sim_PartitionLimit : PartitionLimit := 50.
#[export] Instance Sim_ListRollouts : ListApi Sim Rollout := fun namespace selector w =>
  (Ok (filter (fun r => Namespace (ro_Meta r) = namespace /\ selector (Labels (ro_Meta r)) = true)
         (snd <$> map_to_list (sim_rollouts w))), w).
#[export] Instance Sim_ListAlpha : ListApi Sim alpha_Rollout := fun _ _ => ret [].
#[export] Instance Sim_AlphaApi : Api Sim alpha_Rollout := {|
  api_Get _ := fail ErrNotFound;
  api_Create _ := ret tt;
  api_Update _ := fail ErrNotFound;
  api_UpdateStatus _ := fail ErrNotFound;
  api_Patch _ _ := fail ErrNotFound;
  api_Delete _ := fail ErrNotFound
|}.

(** Two texts stand for Rollouts: one is the demo Rollout, the other routes to nowhere. *)
Definition brokenRollout : Rollout :=
  (demoRollout CanaryStepStatePaused) <| ro_Spec := demoSpec (mkStrategy false
    (Some (mkCanary demoSteps [mkTRRef "web" 3 None None None] None None false "" false)) None) |>.
Definition namedRollout (name : string) (state : CanaryStepState) : Rollout :=
  let r := demoRollout state in
  r <| ro_Meta := (ro_Meta r) <| Name := name |> |>.
#[export] Instance Sim_Decoder : Decoder Rollout := fun text =>
  if String.eqb text "demo" then inl (demoRollout CanaryStepStatePaused)
  else if String.eqb text "broken" then inl brokenRollout
  else inr (ErrBadRequest text).
#[export] Instance Sim_AlphaDecoder : Decoder alpha_Rollout := fun text => inr (ErrBadRequest text).

(** The Rollout without routes is refused with complaints. *)
Definition createBroken : AdmissionRequest := mkAdmission OpCreate "v1beta1" "broken" "".
Lemma create_witness :
  exists errs, errs <> [] /\ validating_Handle createBroken demoWorld = (Ok (ErroredInvalid 422 errs), demoWorld).
Proof.
  pose proof (create_admitted createBroken demoWorld eq_refl ltac:(discriminate)) as Hspec.
  assert (Hd : Decode (O := Rollout) (req_Object createBroken) = inl brokenRollout) by reflexivity.
  assert (Ho : othersOf brokenRollout demoWorld = (Ok [], demoWorld)) by reflexivity.
  rewrite Hd, Ho in Hspec.
  destruct Hspec as [(Hlegal & _)|(_ & errs & Hne & Hrun)]; [|by exists errs].
  exfalso. destruct Hlegal as [_ (_ & _ & _ & _ & Hroutings)].
  apply Forall_inv in Hroutings. destruct Hroutings as (_ & _ & [Hr|[Hr|Hr]] & _); apply Hr; reflexivity.
Defined.

(** A Rollout in progress may be updated without a change. *)
Definition updateDemo : AdmissionRequest := mkAdmission OpUpdate "v1beta1" "demo" "demo".
Definition admissionWorld : Sim := demoWorld
  <| sim_rollouts := {[ ("default", "demo")%string := demoRollout CanaryStepStatePaused ]} |>.
Lemma update_witness :
  exists newObj, Decode (O := Rollout) "demo" = inl newObj /\ legalRollout newObj.
Proof.
  destruct (run_test (validating_Handle updateDemo) admissionWorld
    (fun r => match r with Allowed => true | _ => false end)) as (r & w' & Hrun & Hr);
    [vm_compute; reflexivity|].
  destruct r; [|discriminate Hr..].
  destruct (update_admitted updateDemo admissionWorld w' eq_refl ltac:(discriminate) Hrun)
    as (newObj & oldObj & latest & w0 & w1 & Hn & _ & Hlegal & _).
  exists newObj. split; [exact Hn|exact Hlegal].
Defined.

(** ** A TrafficRouting deleted while it routes *)

Definition demoRouting : TrafficRouting :=
  mkTrafficRouting
    (mkMeta "default" "routing" "uid-9" 2 0 (Some 90) [] [TrafficRoutingFinalizer] None ∅)
    [mkAlphaTRRef "web" 3 (Some (mkIngressTR "nginx" "web")) None None]
    (mkAlphaTRStrategy (Some 20) None None)
    (mkTRStatus 1 TrafficRoutingPhaseProgressing "").
Definition routingKey : ObjectKey := ("default", "routing")%string.
Definition routingWorld : Sim := demoWorld
  <| sim_routings := {[ routingKey := demoRouting ]} |>
  <| sim_routes := Some (mkTRStrategy (Some "20%"%string) None []) |>.

(** It is terminating: one reconciliation removes its finalizer, and with it the object,
    and asks to be run again because the manager is not done; that run finds nothing. *)
Example routing_left_behind :
  match tr_Reconcile routingKey routingWorld with
  | (Ok (Some _), w) =>
      bool_decide (sim_routings w !! routingKey = None)
      && match fst (tr_Reconcile routingKey w) with Ok None => true | _ => false end
  | _ => false
  end = true.
Proof. vm_compute. reflexivity. Qed.

Lemma routing_witness :
  exists requeue w', tr_Reconcile routingKey routingWorld = (Ok requeue, w')
  /\ exists tr w0, api_Get (O := TrafficRouting) routingKey routingWorld = (Ok tr, w0)
     /\ trs_Phase (startPhase tr) = TrafficRoutingPhaseTerminating.
Proof.
  destruct (run_test (tr_Reconcile routingKey) routingWorld (fun _ => true)) as (r & w' & Hrun & Hr);
    [vm_compute; reflexivity|].
  exists r, w'. split; [exact Hrun|].
  destruct (trafficrouting_phases routingKey routingWorld w' r Hrun)
    as [[Hnone _]|(tr & w0 & w1 & w2 & Hget & _ & Hdel & _)].
  - exfalso. assert (Hget : api_Get (O := TrafficRouting) routingKey routingWorld = (Ok demoRouting, routingWorld))
      by reflexivity. rewrite Hget in Hnone. discriminate Hnone.
  - assert (Hdemo : api_Get (O := TrafficRouting) routingKey routingWorld = (Ok demoRouting, routingWorld))
      by reflexivity.
    exists tr, w0. split; [exact Hget|]. apply Hdel.
    rewrite Hdemo in Hget. injection Hget as <- _. reflexivity.
Defined.

(** ** Admission of workloads *)

(** ** Libraries *)

#[local] Instance Sim_GroupVersionParser : GroupVersionParser := fun s =>
  Some (if String.eqb s "apps/v1" then "apps" else "apps.kruise.io")%string.
#[local] Instance Sim_Kinds : ObjectKind := fun object =>
  match object with
  | ODeployment _ => ("apps/v1", "Deployment")
  | OCloneSet _ => ("apps.kruise.io/v1alpha1", "CloneSet")
  | _ => ("apps/v1", "DaemonSet")
  end%string.
#[local] Instance Sim_SkipRestart : SkipRestartGate := true.
#[local] Instance Sim_JsonState : Json RolloutState :=
  {| Marshal s := rst_RolloutName s; Unmarshal s := Some (mkRolloutState s) |}.
#[local] Instance Sim_JsonTemplate : Json PodTemplateSpec :=
  {| Marshal t := tmpl_Rest t; Unmarshal s := Some (mkTemplate None None s) |}.

#[local] Instance Sim_ListOfRollouts : ListApi Sim Rollout := fun namespace selector w =>
  (Ok (filter (fun r => Namespace (ro_Meta r) = namespace) (snd <$> map_to_list (sim_rollouts w))), w).
#[local] Instance Sim_ListReplicaSets : ListApi Sim ReplicaSet := fun namespace selector w =>
  (Ok (filter (fun r => Namespace (rs_Meta r) = namespace /\ selector (Labels (rs_Meta r)) = true)
         (snd <$> map_to_list (sim_replicasets w))), w).

(** A tree that keeps the last number written into it. *)
Fixpoint lastNumber (t : Tree) : Z :=
  match t with
  | TInt n => n
  | TString _ => 0
  | TMap fields => (fix go (l : list (string * Tree)) (acc : Z) : Z :=
      match l with [] => acc | (_, t) :: rest => go rest (lastNumber t) end) fields 0
  end.
#[local] Instance number_UnstructuredLib : UnstructuredLib := {|
  un_metaOf _ := emptyMeta;
  un_withMeta _ o := o;
  NestedInt64 o _ := Ok (decode (ofBits (un_Object o)));
  NestedString _ _ := Ok None;
  NestedField _ _ := Ok None
|}.
#[local] Instance number_TreeLib : TreeLib := {|
  HoldsMap _ _ := true;
  SetTree o _ t := mkUnstructured (un_GVK o) (bits (encode (lastNumber t)))
|}.
#[local] Instance number_TreeLaws : TreeLaws.
Proof.
  assert (Hset : forall o path t path', NestedInt64 (SetTree o path t) path' = Ok (Some (lastNumber t))).
  { intros o path t path'. unfold NestedInt64, SetTree, number_TreeLib, number_UnstructuredLib. simpl.
    by rewrite ofBits_bits, decode_encode. }
  split; intros; rewrite Hset; [done|done|]. do 2 f_equal. simpl.
  generalize 0 as acc. clear. induction fields as [|[k t] fields IH]; intros acc; simpl; [done|apply IH].
Defined.

(** ** A Deployment with a new image *)

Definition webSelector : LabelSelector := mkLabelSelector {["app" := "web"]}%string [].
Definition webRevision (mark image : string) : Deployment :=
  mkDeployment (mkMeta "default" "web" "uid-7" 2 0 None [] []
      (Some (if String.eqb mark "" then ∅ else {[InRolloutProgressingAnnotation := mark]})) ∅)
    (Some 10) (Some webSelector) (mkTemplate None None image) "RollingUpdate"
    (Some (mkRollingUpdate (Some (FromInt 1)) (Some (FromInt 1)))) 0 None false None emptyDeploymentStatus.
Definition webStable : ReplicaSet :=
  mkReplicaSet (mkMeta "default" "web-1" "uid-8" 1 0 None
      [mkOwnerRef "apps/v1" "Deployment" "web" "uid-7" true] [] None
      {["app" := "web"; DefaultDeploymentUniqueLabelKey := "1"]}%string)
    (Some 10) 0 (Some webSelector) (mkTemplate None None "image: v1") 10 10 10 [].
Definition webRollout (kind : string) : Rollout :=
  (demoRollout CanaryStepStatePaused) <| ro_Spec :=
    mkSpec (mkObjectRef (if String.eqb kind "Deployment" then "apps/v1" else "apps.kruise.io/v1alpha1") kind "web")
      (mkStrategy false (Some demoCanary) None) false |>.
Definition webWorld (kind : string) : Sim := demoWorld
  <| sim_rollouts := {[("default", "demo")%string := webRollout kind]} |>
  <| sim_replicasets := {[("default", "web-1")%string := webStable]} |>.

(** It is paused and marked. *)
Lemma deployment_enters_witness :
  exists d w', handleDeployment (webRevision "" "image: v2") (webRevision "" "image: v1") (webWorld "Deployment")
               = (Ok (Some d), w')
  /\ exists rollout, seized rollout (webRevision "" "image: v2") d.
Proof.
  destruct (run_test (handleDeployment (webRevision "" "image: v2") (webRevision "" "image: v1"))
    (webWorld "Deployment") (fun r => match r with Some _ => true | None => false end))
    as (r & w' & Hrun & Hr); [vm_compute; reflexivity|].
  destruct r as [d|]; [|discriminate Hr]. exists d, w'. split; [exact Hrun|].
  destruct (deployment_enters (webRevision "" "image: v2") (webRevision "" "image: v1") (webWorld "Deployment")
    w' (Some d) eq_refl Hrun) as (found & w1 & _ & Hfound).
  destruct found as [rollout|]; [|discriminate Hfound].
  destruct Hfound as (rss & _ & _ & Hseized). exists rollout. exact Hseized.
Defined.

(** An update that resumes it is paused again. *)
Lemma deployment_held_witness :
  exists r w' d, handleDeployment (webRevision "demo" "image: v2") (webRevision "demo" "image: v2")
                   (webWorld "Deployment") = (Ok r, w')
  /\ r = Some d /\ exists rollout, underRelease rollout (webRevision "demo" "image: v2")
                                   (webRevision "demo" "image: v2") d.
Proof.
  destruct (run_test (handleDeployment (webRevision "demo" "image: v2") (webRevision "demo" "image: v2"))
    (webWorld "Deployment") (fun r => match r with Some _ => true | None => false end))
    as (r & w' & Hrun & Hr); [vm_compute; reflexivity|].
  destruct r as [d|]; [|discriminate Hr]. exists (Some d), w', d. split; [exact Hrun|]. split; [reflexivity|].
  destruct (deployment_held (webRevision "demo" "image: v2") (webRevision "demo" "image: v2")
    (webWorld "Deployment") w' (Some d) ltac:(vm_compute; discriminate) Hrun) as (found & _ & Hfound).
  destruct found as [rollout|]; [|discriminate Hfound]. exists rollout. exact (proj2 Hfound).
Defined.

(** ** A CloneSet with a new image *)

Definition cloneRevision (image : string) : CloneSet :=
  mkCloneSet ((demoMeta ∅) <| Name := "web"%string |>) (Some 10) None (mkTemplate None None image) "" None None
    None false 0 (mkCloneSetStatus 10 10 10 10 10 3 "web-v1" "web-v1").

Lemma workloads_frozen_witness :
  exists d w', handleCloneSet (cloneRevision "image: v2") (cloneRevision "image: v1") (webWorld "CloneSet")
               = (Ok (Some d), w')
  /\ GetScaledValueFromIntOrPercent (clone_Partition d) 10 true = (10, None).
Proof.
  destruct (run_test (handleCloneSet (cloneRevision "image: v2") (cloneRevision "image: v1"))
    (webWorld "CloneSet") (fun r => match r with Some _ => true | None => false end))
    as (r & w' & Hrun & Hr); [vm_compute; reflexivity|].
  destruct r as [d|]; [|discriminate Hr]. exists d, w'. split; [exact Hrun|].
  destruct (workloads_frozen (webWorld "CloneSet") w') as [Hclone _].
  destruct (Hclone _ _ _ Hrun) as (rollout & w1 & _ & _ & _ & Hpartition). exact (Hpartition 10).
Defined.
