(* ===== verification/AdvancedWitnesses.v ===== *)
(** * Witnesses for advanced Deployments and native DaemonSets

    Closed instances, in the world of Sim.v, of the properties of AdvancedProofs.v and
    AdvancedScaling.v, in which a Deployment rolls from one ReplicaSet to another, and of
    NativeDaemonSetProofs.v. *)

From S2P Require Import Sim Witnesses NativeDaemonSetProofs AdvancedScaling.

(** ** Libraries *)

#[local] Instance Sim_SliceRoom : SliceRoom := fun n => bool_decide (n ∉ [0; 1; 2; 4; 8]%nat).
#[local] Instance Sim_FloatOverflow : FloatOverflow := fun _ => - 2 ^ 31.
#[local] Instance Sim_MergeReplicaSet : MergeFromApi Sim ReplicaSet := fun _ rs w =>
  (Ok rs, w <| sim_replicasets := <[("default"%string, rsName rs) := rs]> (sim_replicasets w) |>).
#[local] Instance Sim_Sizes : Sizes Sim := fun w name =>
  from_option size 0 (sim_replicasets w !! ("default"%string, name)).
#[local] Instance Sim_SizesLaws : SizesLaws Sim.
Proof.
  split; unfold api_MergeFrom, Sim_MergeReplicaSet, sizeIn, Sim_Sizes; simpl.
  - intros original modified w name Hname. rewrite lookup_insert_ne by congruence. done.
  - intros original modified w. rewrite lookup_insert_eq. by right.
  - intros original modified w rs w' [= <- <-]. simpl. by rewrite lookup_insert_eq.
Defined.

(** ** A Deployment of four pods *)

Definition advStrategy : DeploymentStrategy :=
  mkDeploymentStrategy "Partition" (Some (mkRollingUpdate (Some (FromInt 1)) (Some (FromInt 1)))) false
    (FromString "50%").
Definition advDeployment (replicas : Z) : Deployment :=
  mkDeployment (mkMeta "default" "web" "uid-7" 2 0 None [] [] None ∅)
    (Some replicas) None (mkTemplate None None "image: v2") "Recreate" None 0 None true None
    (mkDeploymentStatus 2 10 0 0 0 0 [] None).
Definition advReplicaSet (name image : string) (replicas available : Z) : ReplicaSet :=
  mkReplicaSet (mkMeta "default" name name 1 0 None [] [] None ∅)
    (Some replicas) 0 None (mkTemplate None None image) replicas available available [].
Definition advWorld (rss : list ReplicaSet) : Sim :=
  demoWorld <| sim_replicasets := list_to_map ((fun rs => (("default"%string, rsName rs), rs)) <$> rss) |>.
Definition advOld : ReplicaSet := advReplicaSet "web-1" "image: v1" 4 3.
Definition advNew : ReplicaSet := advReplicaSet "web-2" "image: v2" 0 0.

Lemma run_any {A} (m : M (Deployment * Sim) A) d w : exists r d' w', m (d, w) = (r, (d', w')).
Proof. destruct (m (d, w)) as [r [d' w']]. by exists r, d', w'. Qed.

(** The new one grows by one pod, the surge. *)
Lemma new_pods_bounded_witness :
  exists r d' w', reconcileNewReplicaSet advStrategy [advOld; advNew] advNew (advDeployment 4, advWorld [advOld; advNew])
                  = (r, (d', w'))
  /\ elsewhere ["web-2"%string] (advWorld [advOld; advNew]) w'.
Proof.
  destruct (run_any (reconcileNewReplicaSet advStrategy [advOld; advNew] advNew) (advDeployment 4)
    (advWorld [advOld; advNew])) as (r & d' & w' & Hrun).
  exists r, d', w'. split; [exact Hrun|].
  refine (proj1 (new_pods_bounded advStrategy [advOld; advNew] advNew (advDeployment 4)
    (advWorld [advOld; advNew]) r d' w' _ _ _ _ _ _ _ Hrun)); try (vm_compute; congruence).
  - apply list_elem_of_lookup_2 with 1%nat. reflexivity.
  - repeat constructor; vm_compute; congruence.
Defined.

(** The old one loses the pod that is not available. *)
Lemma old_pods_protected_witness :
  exists r d' w', reconcileOldReplicaSets advStrategy [advOld; advNew] [advOld] advNew
                    (advDeployment 4, advWorld [advOld; advNew]) = (r, (d', w'))
  /\ protected advStrategy (advDeployment 4) [advOld] advNew (advWorld [advOld; advNew]) w'.
Proof.
  destruct (run_any (reconcileOldReplicaSets advStrategy [advOld; advNew] [advOld] advNew) (advDeployment 4)
    (advWorld [advOld; advNew])) as (r & d' & w' & Hrun).
  exists r, d', w'. split; [exact Hrun|].
  refine (proj2 (old_pods_protected advStrategy [advOld; advNew] [advOld] advNew (advDeployment 4)
    (advWorld [advOld; advNew]) r d' w' _ _ _ _ _ Hrun)).
  - repeat constructor. intros Hin. inversion Hin.
  - repeat constructor.
  - repeat constructor.
  - split; try (vm_compute; congruence); [split; vm_compute; congruence|].
    repeat constructor; vm_compute; congruence.
  - reflexivity.
Defined.

(** From ten pods to fifteen. *)
Definition advTwo : list ReplicaSet := [advReplicaSet "web-2" "image: v2" 4 4].
Definition advFirst : ReplicaSet := advReplicaSet "web-1" "image: v1" 6 6.

Lemma proportional_scaling_witness :
  sizeOf (scaledSizes advStrategy (advDeployment 15) 5 (advFirst :: advTwo)) <$> (advFirst :: advTwo) = [10; 5]
  /\ Forall (fun rs => 0 <= sizeOf (scaledSizes advStrategy (advDeployment 15) 5 (advFirst :: advTwo)) rs)
       (advFirst :: advTwo).
Proof.
  assert (0 <= wanted (advDeployment 15)) as Hw by (vm_compute; congruence).
  assert (0 <= MaxSurge advStrategy (advDeployment 15)) as Hs by (vm_compute; congruence).
  assert (wanted (advDeployment 15) + MaxSurge advStrategy (advDeployment 15) < 2 ^ 31) as Hf
    by (vm_compute; reflexivity).
  assert (Forall (divisible advStrategy (advDeployment 15)) (advFirst :: advTwo)) as Hd.
  { repeat constructor; vm_compute; congruence. }
  assert (NoDup (map rsName (advFirst :: advTwo))) as Hn.
  { apply (bool_decide_unpack _). vm_compute. exact I. }
  assert (Z.abs 5 + total size (advFirst :: advTwo) + total size (advFirst :: advTwo)
    * (wanted (advDeployment 15) + MaxSurge advStrategy (advDeployment 15)) < 2 ^ 31) as Hsmall
    by (vm_compute; reflexivity).
  split; [vm_compute; reflexivity|].
  exact (proj1 (proportional_scaling advStrategy (advDeployment 15) 5 advFirst advTwo Hw Hs Hf Hd Hn Hsmall)).
Defined.

(** ** Native DaemonSets *)

#[local] Instance Sim_Goroutines : Goroutines := fun A l => rev l.
#[local] Instance Sim_GoroutinesLaws : GoroutinesLaws.
Proof. intros A l. symmetry. apply Permutation_rev. Defined.

Definition nodePod (name hash : string) (ready : bool) : Pod :=
  mkPod (mkMeta "default" name name 1 0 None [] [] None {[ControllerRevisionHashLabelKey := hash]})
    "Running" [mkPodCondition PodReady (if ready then ConditionTrue else ConditionFalse) 0] "" "".
Definition nodeDaemon : DaemonSet :=
  mkDaemonSet (mkMeta "default" "agent" "uid-9" 1 0 None [] [] None ∅) None (mkTemplate None None "image: v2")
    "OnDelete" (Some (FromInt 2)) (mkDsetStatus 4 4 4 1 1).
Definition nodePods : list Pod :=
  [nodePod "agent-a" "v2" false; nodePod "agent-b" "v1" true; nodePod "agent-c" "v1" true;
   nodePod "agent-d" "v1" false].

(** The pod that is not ready goes first, and one that serves. *)
Lemma deletion_choice_bounded_witness :
  exists victims, analyzePods nodePods "v2" 4 nodeDaemon = (victims, 2)
  /\ len victims = 2 /\ servingAmong victims <= 1.
Proof.
  destruct (analyzePods nodePods "v2" 4 nodeDaemon) as [victims n] eqn:Hchoice.
  assert (n = 2) as -> by (vm_compute in Hchoice; congruence).
  exists victims. split; [reflexivity|].
  destruct (deletion_choice_bounded nodePods "v2" 4 nodeDaemon victims 2 eq_refl eq_refl Hchoice)
    as (_ & Hsome & _).
  destruct (Hsome eq_refl) as (Hlen & _ & Hserving). split; [exact Hlen|]. exact Hserving.
Defined.

(** Five calls, of which the third fails. *)
Definition thirdFails (idx : nat) : M Sim unit :=
  if Nat.eqb idx 2 then fail (ErrOther "third") else ret tt.
Lemma slow_start_complete_witness :
  exists s r w', SlowStartBatch 5 1 thirdFails demoWorld = (Ok (s, r), w')
  /\ exists order failed, runs thirdFails order failed demoWorld w' /\ s = len order - len failed.
Proof.
  destruct (slow_start_complete thirdFails 5 1 demoWorld) as
    (order & rest & failed & s & r & w' & Hrun & _ & Hruns & Hs & _).
  - constructor.
  - intros idx w. unfold thirdFails. destruct (Nat.eqb idx 2); discriminate.
  - exists s, r, w'. split; [exact Hrun|]. exists order, failed. split; [exact Hruns|exact Hs].
Defined.
