(* ===== verification/ProviderWitnesses.v ===== *)
(** * Witnesses for the network providers

    Closed instances of the properties of GatewayProofs.v, LuaJsonProofs.v and
    CustomProofs.v: tables as lists, JSON as an encoding, a store of custom objects. *)

From Stdlib Require Import SpecFloat Ascii.
From S2P Require Import Sim Witnesses CustomProofs NetworkProviders.

(** ** Tables as lists *)

Definition listItems (L : list (list (LValue * LValue))) (t : nat) : list (LValue * LValue) := default [] (L !! t).
Definition listAppend (t : nat) (items : list (LValue * LValue)) (L : list (list (LValue * LValue)))
    : list (list (LValue * LValue)) := alter (fun old => old ++ items) t L.

#[local] Instance listTables : LuaTables := {|
  LuaState := list (list (LValue * LValue));
  CreateTable L := (length L, L ++ [[]]);
  Append t x L := listAppend t
    (if decide (x = LNil) then [] else [(LNumber (floatOfZ (1 + len (listItems L t))), x)]) L;
  RawSetH t k x L := listAppend t (if decide (x = LNil) then [] else [(k, x)]) L;
  tableItems := listItems;
  tables L := list_to_set (seq 0 (length L));
  NewState := []
|}.

Lemma sequence_snoc i values x :
  sequence i (values ++ [x]) = sequence i values ++ [(LNumber (floatOfZ (i + len values)), x)].
Proof.
  revert i. induction values as [|y values IH]; intros i; simpl.
  - by replace (i + len []) with i by (unfold len; simpl; lia).
  - rewrite IH. by replace (i + len (y :: values)) with (i + 1 + len values) by (unfold len; simpl; lia).
Qed.

Lemma sequence_length i values : length (sequence i values) = length values.
Proof. revert i. induction values as [|y values IH]; intros i; simpl; [done|]. by rewrite IH. Qed.

Lemma elem_of_tables (L : list (list (LValue * LValue))) (t : nat) :
  t ∈ (list_to_set (seq 0 (length L)) : gset nat) <-> (t < length L)%nat.
Proof. rewrite elem_of_list_to_set, elem_of_seq. lia. Qed.

Lemma items_append_eq t items L : (t < length L)%nat -> listItems (listAppend t items L) t = listItems L t ++ items.
Proof.
  intros [old E]%lookup_lt_is_Some. unfold listItems, listAppend. by rewrite list_lookup_alter_eq, E.
Qed.
Lemma items_append_ne t t' items L : t <> t' -> listItems (listAppend t items L) t' = listItems L t'.
Proof. intros Ht. unfold listItems, listAppend. by rewrite list_lookup_alter_ne. Qed.
Lemma length_append t items L : length (listAppend t items L) = length L.
Proof. apply length_alter. Qed.

#[local] Instance listTablesLaws : LuaTablesLaws.
Proof.
  split; simpl; unfold TableId.
  - intros L. rewrite elem_of_tables. lia.
  - intros L. rewrite length_app, seq_app, list_to_set_app_L. simpl. set_solver.
  - intros L. unfold listItems. by rewrite list_lookup_middle.
  - intros L t Ht%elem_of_tables. unfold listItems. by rewrite lookup_app_l.
  - intros t x L. by rewrite length_append.
  - intros t t' x L Ht. by apply items_append_ne.
  - intros t x L values Ht%elem_of_tables E. rewrite items_append_eq, E by done. destruct (decide _).
    + by rewrite !app_nil_r.
    + rewrite sequence_snoc. unfold len. by rewrite sequence_length.
  - intros t k x L. by rewrite length_append.
  - intros t t' k x L Ht. by apply items_append_ne.
  - intros t k x L Ht%elem_of_tables _. by rewrite items_append_eq.
Defined.

(** ** JSON as a number *)

Definition floatCode (f : float64) : Z * Z * Z * Z :=
  match f with
  | S754_zero s => (0, Z.b2z s, 0, 0)
  | S754_infinity s => (1, Z.b2z s, 0, 0)
  | S754_nan => (2, 0, 0, 0)
  | S754_finite s m e => (3, Z.b2z s, Z.pos m, e)
  end.
Definition floatDecode (c : Z * Z * Z * Z) : float64 :=
  let '(tag, s, m, e) := c in
  if Z.eqb tag 0 then S754_zero (Z.odd s) else
  if Z.eqb tag 1 then S754_infinity (Z.odd s) else
  if Z.eqb tag 2 then S754_nan else S754_finite (Z.odd s) (Z.to_pos m) e.

Definition Leaf : Type := string + (Z * Z * Z * Z).

Fixpoint treeOf (v : GoValue) : gen_tree Leaf :=
  match v with
  | GoNil => GenNode 0 []
  | GoBool b => GenNode 1 [GenLeaf (inr (Z.b2z b, 0, 0, 0))]
  | GoFloat f => GenNode 2 [GenLeaf (inr (floatCode f))]
  | GoInt z => GenNode 3 [GenLeaf (inr (z, 0, 0, 0))]
  | GoNumber s => GenNode 4 [GenLeaf (inl s)]
  | GoString s => GenNode 5 [GenLeaf (inl s)]
  | GoSlice items => GenNode 6 (map treeOf items)
  | GoMap members => GenNode 7 (map (fun kv => GenNode 8 [GenLeaf (inl kv.1); treeOf kv.2]) members)
  | GoOther s => GenNode 9 [GenLeaf (inl s)]
  end.
Fixpoint ofTree (t : gen_tree Leaf) : GoValue :=
  match t with
  | GenNode 1 [GenLeaf (inr (b, _, _, _))] => GoBool (Z.odd b)
  | GenNode 2 [GenLeaf (inr c)] => GoFloat (floatDecode c)
  | GenNode 3 [GenLeaf (inr (z, _, _, _))] => GoInt z
  | GenNode 4 [GenLeaf (inl s)] => GoNumber s
  | GenNode 5 [GenLeaf (inl s)] => GoString s
  | GenNode 6 items => GoSlice (map ofTree items)
  | GenNode 7 members => GoMap (map (fun t => match t with
      | GenNode _ [GenLeaf (inl k); v] => (k, ofTree v)
      | _ => (""%string, GoNil)
      end) members)
  | GenNode 9 [GenLeaf (inl s)] => GoOther s
  | _ => GoNil
  end.

Lemma floatDecode_code f : floatDecode (floatCode f) = f.
Proof. by destruct f as [[]|[]| |[]]. Qed.

Lemma ofTree_treeOf v : ofTree (treeOf v) = v.
Proof.
  induction v using GoValue_members_ind; simpl; try done.
  - by destruct b.
  - by rewrite floatDecode_code.
  - f_equal. rewrite map_map. rewrite <- (map_id items) at 2. by apply map_ext_Forall.
  - f_equal. rewrite map_map. rewrite <- (map_id members) at 2. apply map_ext_Forall.
    eapply Forall_impl; [done|]. by intros [k v] Hv; simpl in *; rewrite Hv.
Qed.

(** The digits of a number. *)
Fixpoint digits (p : positive) : string :=
  match p with
  | xH => "."
  | xO p => String "0" (digits p)
  | xI p => String "1" (digits p)
  end.
Fixpoint ofDigits (s : string) : option positive :=
  match s with
  | String "0" s => xO <$> ofDigits s
  | String "1" s => xI <$> ofDigits s
  | String "." EmptyString => Some xH
  | _ => None
  end.

Lemma ofDigits_digits p : ofDigits (digits p) = Some p.
Proof. induction p as [p IH|p IH|]; simpl; [by rewrite IH..|done]. Qed.

#[local] Instance codeJson : JsonText := {|
  DumpJSON v := digits (encode (treeOf (textOf v)));
  parseJSON s := p ← ofDigits s; ofTree <$> decode p
|}.
#[local] Instance codeJsonLaws : JsonTextLaws.
Proof.
  split; intros v _; simpl.
  - rewrite ofDigits_digits. simpl. rewrite decode_encode. simpl. by rewrite ofTree_treeOf.
  - by destruct (encode _).
Defined.

(** ** A store of custom objects *)

Abbreviation CustomSim := (gmap CustomRef CustomObject).

(** Only objects that are where their reference leads are found. *)
#[local] Instance CustomSim_Store : CustomStore CustomSim := fun w ref =>
  match w !! ref with Some o => if decide (co_Ref o = ref) then Some o else None | None => None end.
#[local] Instance CustomSim_Api : CustomApi CustomSim := {|
  custom_Get ref w := match customAt w ref with Some o => (Ok o, w) | None => (Err ErrNotFound, w) end;
  custom_Update o w := (Ok o, <[co_Ref o := o]> w)
|}.
#[local] Instance CustomSim_ConfigMap : Api CustomSim ConfigMap := {|
  api_Get _ := fail ErrNotFound;
  api_Create _ := ret tt;
  api_Update _ := ret tt;
  api_UpdateStatus _ := ret tt;
  api_Patch _ _ := ret tt;
  api_Delete _ := ret tt
|}.

Lemma customAt_insert (o : CustomObject) (w : CustomSim) : customAt (<[co_Ref o := o]> w) (co_Ref o) = Some o.
Proof. unfold customAt, CustomSim_Store. by rewrite lookup_insert_eq, decide_True. Qed.

Lemma customAt_ref (w : CustomSim) ref o : customAt w ref = Some o -> co_Ref o = ref.
Proof. unfold customAt, CustomSim_Store. destruct (w !! ref); [|done]. case_decide; congruence. Qed.

#[local] Instance CustomSim_Laws : CustomLaws CustomSim.
Proof.
  split.
  - intros ref w r w' E ref'. simpl in E. by destruct (customAt w ref); simplify_eq.
  - intros ref w o w' E. simpl in E. destruct (customAt w ref) as [o'|] eqn:E'; simplify_eq. split; [done|].
    by eapply customAt_ref.
  - intros ref w e w' E _. simpl in E. by destruct (customAt w ref).
  - intros o w r w' [= <- <-] ref' Hne. unfold customAt, CustomSim_Store. by rewrite lookup_insert_ne.
  - intros o w r w' [= <- <-]. right. exists o. by rewrite customAt_insert.
  - intros o w o' w' [= <- <-]. by rewrite customAt_insert.
  - by intros key w r w' [= <- <-] ref'.
Defined.

#[local] Instance Sim_LuaFiles : LuaFiles := fun _ => "return obj"%string.
#[local] Instance Sim_RolloutNamespace : RolloutNamespace := "kruise-rollout"%string.
(** The script that returns its object. *)
#[local] Instance Sim_LuaInterpreter : LuaInterpreter := fun _ obj L => Ok (obj, L).
(** A spec with the weight of the canary, and no labels. *)
#[local] Instance Sim_LuaData : Unstructurable LuaData := fun data =>
  Ok (GoMap [("spec"%string, GoMap [("weight"%string, GoInt (ld_CanaryWeight data))])]).

Definition providerConf : ProviderConfig :=
  mkPConfig "demo" "default" "demo-canary" "demo" (mkOwnerRef "rollouts.kruise.io/v1beta1" "Rollout" "demo" "uid-1" true) false.
Definition meshRef : ObjectRef := mkObjectRef "networking.istio.io/v1alpha3" "VirtualService" "demo".
Definition meshObject : CustomObject :=
  mkCustom (customRef providerConf meshRef) None (Some {["app"%string := "demo"%string]})
    (GoMap [("weight"%string, GoInt 100); ("hosts"%string, GoSlice [GoString "demo.example"])]) GoNil.
Definition meshWorld : CustomSim := {[co_Ref meshObject := meshObject]}.
Definition fifth : TrafficRoutingStrategy := mkTRStrategy (Some "20%"%string) None [].

Definition meshCanary : CustomSim := (custom_EnsureRoutes providerConf [meshRef] fifth meshWorld).2.
Definition meshAfter : CustomSim := (Finalise (customController providerConf [meshRef]) meshCanary).2.

(** A step of a fifth, and back. *)
Lemma custom_roundtrip_witness :
  (co_Spec <$> customAt meshCanary (co_Ref meshObject)) = Some (GoMap [("weight"%string, GoFloat (floatOfZ 20))])
  /\ exists original o, customAt meshWorld (customRef providerConf meshRef) = Some original
  /\ customAt meshAfter (customRef providerConf meshRef) = Some o /\ originalSpec o = None /\ sameContent original o.
Proof.
  split; [vm_compute; reflexivity|].
  apply (custom_roundtrip providerConf [meshRef] meshWorld meshCanary meshAfter true).
  - intros ref ->%list_elem_of_singleton. exists meshObject. split; [apply customAt_insert|]. split; [reflexivity|].
    split; [reflexivity|]. repeat constructor; set_solver.
  - apply rtc_once. exists fifth, (custom_EnsureRoutes providerConf [meshRef] fifth meshWorld).1.
    apply surjective_pairing.
  - assert ((Finalise (customController providerConf [meshRef]) meshCanary).1 = Ok (true, None)) as Hdone
      by (vm_compute; reflexivity).
    rewrite <- Hdone. apply surjective_pairing.
  - by left.
Defined.

(** ** Lua *)

(** A null, an empty map and an integer. *)
Definition luaDemo : GoValue :=
  GoMap [("weight"%string, GoInt 20); ("tls"%string, GoMap []); ("hosts"%string, GoSlice [GoNil; GoString "demo"])].
Lemma Encode_decodeValue_witness :
  Encode (decodeValue luaDemo NewState).2 (decodeValue luaDemo NewState).1
  = Ok (GoMap [("hosts"%string, GoSlice [GoString "demo"]); ("tls"%string, GoNil);
               ("weight"%string, GoFloat (floatOfZ 20))]).
Proof.
  rewrite (Encode_decodeValue luaDemo (decodeValue luaDemo NewState).1 NewState (decodeValue luaDemo NewState).2).
  - vm_compute. reflexivity.
  - repeat constructor; set_solver.
  - apply surjective_pairing.
Defined.

(** A table that is its own first item. *)
Definition cyclic : LuaState (LuaTables := listTables) := [[(LNumber (floatOfZ 1), LTable 0%nat)]].
Lemma Encode_terminates_witness :
  Encode cyclic (LTable 0%nat) = Err errNested /\ Encode cyclic (LTable 0%nat) <> Panic.
Proof.
  split; [by vm_compute|]. apply (Encode_terminates cyclic).
  - intros t Ht. apply (elem_of_tables cyclic) in Ht. simpl in Ht. assert (t = 0%nat) as -> by lia.
    repeat constructor.
  - by vm_compute.
Defined.

(** Beyond the property: a table that is used twice is refused like a cycle. *)
Definition shared : LuaState (LuaTables := listTables) :=
  [[(LNumber (floatOfZ 1), LTable 1%nat); (LNumber (floatOfZ 2), LTable 1%nat)]; [(LNumber (floatOfZ 1), LBool true)]].
Lemma Encode_shared : Encode shared (LTable 0%nat) = Err errNested.
Proof. vm_compute. reflexivity. Qed.

(** ** The Gateway *)

Definition gatewayRef (name : string) (weight : Z) : HTTPBackendRef :=
  mkBackendRef (Some "Service"%string) name (Some weight) "port: 80".
Definition gatewayRule : HTTPRouteRule := mkHTTPRouteRule [] [gatewayRef "other" 3; gatewayRef "demo" 1] "filters".
Definition gatewaySplit : HTTPRouteRule :=
  mkHTTPRouteRule [] [gatewayRef "other" 3; gatewayRef "demo" 80; gatewayRef "demo-canary" 20] "filters".

Lemma gateway_split_witness :
  buildDesiredHTTPRoute "demo-canary" "demo" [gatewayRule] (Some 20) [] = Ok [gatewaySplit]
  /\ Forall2 (sharedRule "demo-canary" "demo" 20) [gatewayRule] [gatewaySplit].
Proof.
  assert (buildDesiredHTTPRoute "demo-canary" "demo" [gatewayRule] (Some 20) [] = Ok [gatewaySplit]) as Hbuild
    by (vm_compute; reflexivity).
  split; [exact Hbuild|]. apply gateway_split; [lia|discriminate|exact Hbuild].
Defined.

Lemma gateway_roundtrip_witness :
  buildDesiredHTTPRoute "demo-canary" "demo" [gatewaySplit] (Some (-1)) [] = Ok [gatewayRule].
Proof.
  assert (buildDesiredHTTPRoute "demo-canary" "demo" [gatewayRule] (Some 20) [] = Ok [gatewaySplit]) as Hbuild
    by (vm_compute; reflexivity).
  destruct (gateway_roundtrip "demo-canary" "demo" [gatewayRule] [gatewaySplit] (Some 20) []) as [_ Hback];
    [discriminate|discriminate| |exact Hbuild|].
  - constructor; [|constructor]. intros [ref Href]. vm_compute in Href. discriminate.
  - apply Hback. constructor; [|constructor]. split; [discriminate|]. intros ref Href. vm_compute in Href.
    injection Href as <-. reflexivity.
Defined.

(** A server with one route. *)
#[local] Instance route_Api : Api HTTPRoute HTTPRoute := {|
  api_Get _ w := (Ok w, w);
  api_Create _ := ret tt;
  api_Update o _ := (Ok tt, o);
  api_UpdateStatus _ := ret tt;
  api_Patch _ _ := ret tt;
  api_Delete _ := ret tt
|}.
#[local] Instance route_Retry : Retry HTTPRoute := fun f => f.

(** The second call has nothing to do. *)
Lemma gateway_settles_witness :
  let controller := gatewayController providerConf (mkGatewayTR (Some "demo"%string)) in
  let w := (EnsureRoutes controller fifth (mkHTTPRoute emptyMeta [gatewayRule])).2 in
  w = mkHTTPRoute emptyMeta [gatewaySplit] /\ EnsureRoutes controller fifth w = (Ok (true, None), w).
Proof.
  intros controller w. assert (w = mkHTTPRoute emptyMeta [gatewaySplit]) as -> by (vm_compute; reflexivity).
  split; [reflexivity|].
  apply (gateway_settles providerConf (mkGatewayTR (Some "demo"%string)) fifth [gatewayRule] [gatewaySplit] "demo"
           (mkHTTPRoute emptyMeta [gatewaySplit])); try reflexivity.
  - discriminate.
  - intros v Hv. vm_compute in Hv. injection Hv as <-. lia.
Defined.
