(* ===== verification/HistoryWitnesses.v ===== *)
(** * Witnesses for the history of releases

    Closed instances of the properties of HistoryProofs.v, in a world with one Rollout and
    at most one history, and with a parser of label selectors. *)

From Stdlib Require Import Ascii.
From S2P Require Import Sim Witnesses HistoryProofs.

(** ** Label selectors as text *)

Definition separator (c : ascii) : bool := Ascii.eqb c "," || Ascii.eqb c "=".
Fixpoint safe (s : string) : bool :=
  match s with EmptyString => true | String c rest => negb (separator c) && safe rest end.

(** The requirements [key=value], separated by commas. *)
Fixpoint requirements (key : option string) (acc s : string) : option (list (string * string)) :=
  match s with
  | EmptyString => k ← key; Some [(k, acc)]
  | String c rest =>
      if Ascii.eqb c "," then k ← key; l ← requirements None "" rest; Some ((k, acc) :: l)
      else if Ascii.eqb c "=" then
        match key with None => requirements (Some acc) "" rest | Some _ => None end
      else requirements key (acc +:+ String c "") rest
  end.

Definition satisfies (l : list (string * string)) (labels : gmap string string) : bool :=
  forallb (fun kv => bool_decide (labels !! kv.1 = Some kv.2)) l.

#[local] Instance Sim_SelectorText : SelectorText := {|
  SelectorString sel :=
    match map_to_list (match sel with Some s => MatchLabels s | None => ∅ end) with
    | [(k, v)] => if safe k && safe v then Ok (k +:+ "=" +:+ v)%string else Err (ErrOther "unsupported")
    | _ => Ok ""%string
    end;
  ParseSelector s :=
    match requirements None "" s with
    | Some l => Ok (satisfies l)
    | None => Err (ErrOther "cannot parse")
    end
|}.

Lemma app_cons c (s t : string) : (String c s +:+ t = String c (s +:+ t))%string.
Proof. reflexivity. Qed.
Lemma app_empty_r (s : string) : (s +:+ "" = s)%string.
Proof. induction s as [|c s IH]; [done|]. by rewrite app_cons, IH. Qed.
Lemma app_char (s t : string) c : ((s +:+ String c "") +:+ t = s +:+ String c t)%string.
Proof. induction s as [|a s IH]; [done|]. by rewrite !app_cons, IH. Qed.

Lemma requirements_safe key acc s t : safe s = true ->
  requirements key acc (s +:+ t) = requirements key (acc +:+ s) t.
Proof.
  revert acc. induction s as [|c s IH]; intros acc.
  - by rewrite app_empty_r.
  - simpl. unfold separator. intros [[Hc He]%negb_true_iff%orb_false_iff Hs]%andb_true_iff.
    by rewrite Hc, He, IH, app_char.
Qed.

Lemma requirements_pair k v rest : safe k = true -> safe v = true ->
  requirements None "" (k +:+ "=" +:+ v +:+ rest) = requirements (Some k) v rest.
Proof.
  intros Hk Hv. rewrite requirements_safe by done. rewrite app_cons. cbn [requirements].
  change (Ascii.eqb "=" ",") with false. change (Ascii.eqb "=" "=") with true. cbv iota.
  rewrite 2!requirements_safe by done. reflexivity.
Qed.

Lemma requirements_one k v : safe k = true -> safe v = true ->
  requirements None "" (k +:+ "=" +:+ v) = Some [(k, v)].
Proof.
  intros Hk Hv. pose proof (requirements_pair k v "" Hk Hv) as E. rewrite app_empty_r in E. by rewrite E.
Qed.

Lemma plain_safe s : plain s = true -> safe s = true.
Proof.
  induction s as [|c s IH]; simpl; [done|]. intros [Hc Hs]%andb_true_iff. rewrite IH by done.
  unfold separator. destruct (Ascii.eqb_spec c ","); [by subst|]. by destruct (Ascii.eqb_spec c "="); [subst|].
Qed.

Lemma labelKeys_safe k : k ∈ labelKeys -> safe k = true.
Proof. by intros [->|[->|[->|[]%not_elem_of_nil]%elem_of_cons]%elem_of_cons]%elem_of_cons. Qed.

#[local] Instance Sim_SelectorLaws : SelectorLaws.
Proof.
  split; simpl.
  - intros k v p Hk%labelKeys_safe Hv%plain_safe. rewrite requirements_one by done. intros [= <-] labels.
    unfold satisfies. simpl. by rewrite andb_true_r.
  - intros k v rest p Hk%labelKeys_safe Hv%plain_safe.
    rewrite requirements_pair by done. change (requirements (Some k) v ("," +:+ rest))
      with (match requirements None "" rest with Some l => Some ((k, v) :: l) | None => None end).
    destruct (requirements None "" rest) as [l|]; [|done].
    intros [= <-]. by eexists.
  - intros sel text q. destruct sel as [s|]; [|by intros [= <-]].
    destruct (map_to_list (MatchLabels s)) as [|[k v] [|kv l]] eqn:E; [by intros [= <-]| |by intros [= <-]].
    destruct (safe k && safe v) eqn:Hs; [|done]. apply andb_true_iff in Hs as [Hk Hv]. intros [= <-].
    rewrite requirements_one by done. intros [= <-]. eexists. split; [done|]. intros labels.
    assert (MatchLabels s = {[k := v]}) as ->.
    { rewrite <- (list_to_map_to_list (MatchLabels s)), E. apply insert_empty. }
    unfold satisfies. simpl. rewrite andb_true_r. apply bool_decide_ext. by rewrite map_singleton_subseteq_l.
Defined.

(** ** A world with one Rollout *)

Record HistoryWorld := mkHistoryWorld {
  hw_Rollout : alpha_Rollout;
  hw_Deployment : Deployment;
  hw_Pods : list Pod;
  hw_History : option RolloutHistory
}.

(** A kind of which there is one object, or none. *)
Definition oneObject {O} (object : HistoryWorld -> option O) : Api HistoryWorld O := {|
  api_Get _ w := (match object w with Some o => Ok o | None => Err ErrNotFound end, w);
  api_Create _ := ret tt;
  api_Update _ := ret tt;
  api_UpdateStatus _ := ret tt;
  api_Patch _ _ := ret tt;
  api_Delete _ := ret tt
|}.
#[local] Instance hw_CloneSets : Api HistoryWorld CloneSet := oneObject (fun _ => None).
#[local] Instance hw_Deployments : Api HistoryWorld Deployment := oneObject (fun w => Some (hw_Deployment w)).
#[local] Instance hw_StatefulSets : Api HistoryWorld StatefulSet := oneObject (fun _ => None).
#[local] Instance hw_KruiseStatefulSets : Api HistoryWorld KruiseStatefulSet := oneObject (fun _ => None).
#[local] Instance hw_Rollouts : Api HistoryWorld alpha_Rollout := oneObject (fun w => Some (hw_Rollout w)).
#[local] Instance hw_Services : Api HistoryWorld CoreService := oneObject (fun _ => None).
#[local] Instance hw_Routes : Api HistoryWorld HTTPRoute := oneObject (fun _ => None).
#[local] Instance hw_Ingresses : Api HistoryWorld IngressObject := oneObject (fun _ => None).

(** Room for one history. *)
Definition withHistory (h : RolloutHistory) (w : HistoryWorld) : HistoryWorld :=
  mkHistoryWorld (hw_Rollout w) (hw_Deployment w) (hw_Pods w) (Some h).
Definition changeHistory (change : RolloutHistory -> RolloutHistory -> RolloutHistory) (h : RolloutHistory)
    : M HistoryWorld unit := fun w =>
  match hw_History w with
  | Some old => if decide (historyKey old = historyKey h) then (Ok tt, withHistory (change old h) w)
                else (Err ErrNotFound, w)
  | None => (Err ErrNotFound, w)
  end.
#[local] Instance hw_Histories : Api HistoryWorld RolloutHistory := {|
  api_Get _ := fail ErrNotFound;
  api_Create h w := match hw_History w with Some _ => (Err ErrAlreadyExists, w) | None => (Ok tt, withHistory h w) end;
  api_Update := changeHistory (fun old h => h <| rh_Status := rh_Status old |>);
  api_UpdateStatus := changeHistory (fun old h => old <| rh_Status := rh_Status h |>);
  api_Patch _ _ := ret tt;
  api_Delete _ := ret tt
|}.
#[local] Instance hw_Store : HistoryStore HistoryWorld := fun w => option_list (hw_History w).
#[local] Instance hw_HistoryList : ListApi HistoryWorld RolloutHistory := fun ns sel w =>
  (Ok (filter (fun h => Namespace (rh_Meta h) = ns /\ sel (Labels (rh_Meta h)) = true) (histories w)), w).
#[local] Instance hw_PodStore : PodStore HistoryWorld := hw_Pods.
#[local] Instance hw_PodList : ListApi HistoryWorld Pod := fun ns sel w =>
  (Ok (filter (fun pod => Namespace (pod_Meta pod) = ns /\ sel (Labels (pod_Meta pod)) = true) (hw_Pods w)), w).
#[local] Instance hw_Random : RandomInt HistoryWorld := fun n => ret (n - 1).
#[local] Instance hw_Specs {O} : SpecJson O := fun _ => Ok "{}"%string.
#[local] Instance hw_Group : GroupVersionParser := fun s => Some (if String.eqb s "apps/v1" then "apps" else s)%string.
#[local] Instance hw_Kinds : ObjectKind := fun _ => ("apps/v1", "Deployment")%string.

#[local] Instance hw_Laws : HistoryLaws HistoryWorld.
Proof.
  split; try by intros * w r w' [= _ <-].
  - intros w. unfold histories, hw_Store. destruct (hw_History w); repeat constructor. by intros []%not_elem_of_nil.
  - by intros ns sel w l w' [= <- _].
  - intros h w r w'. unfold histories, hw_Store. simpl. destruct (hw_History w) as [old|] eqn:E; intros [= _ <-];
      [by rewrite E; left|]. right. by exists h.
  - intros h w r w'. unfold histories, hw_Store. simpl. unfold changeHistory.
    destruct (hw_History w) as [old|] eqn:E; [|by intros [= _ <-]; rewrite E; left].
    case_decide as Hk; intros [= _ <-]; [|by rewrite E; left]. right. exists old, (h <| rh_Status := rh_Status old |>).
    repeat split; try done. by exists [], [].
  - intros h w r w'. unfold histories, hw_Store. simpl. unfold changeHistory.
    destruct (hw_History w) as [old|] eqn:E; [|by intros [= _ <-]; rewrite E; left].
    case_decide as Hk; intros [= _ <-]; [|by rewrite E; left]. right. exists old, (old <| rh_Status := rh_Status h |>).
    repeat split; try done. by exists [], [].
Defined.

#[local] Instance hw_PodLaws : PodLaws HistoryWorld.
Proof. split; [by intros ns sel w l w' [= <- _]|..]; by intros * w r w' [= _ <-]. Defined.

Definition historyRollout : alpha_Rollout :=
  mkAlphaRollout (mkMeta "default" "demo" "uid-1" 1 0 None [] [] None ∅)
    (mkAlphaSpec (Some (mkObjectRef "apps/v1" "Deployment" "demo")) false
       (Some (mkAlphaCanary [mkAlphaStep (mkAlphaTRStrategy None None None) None (mkAlphaPause None)] [] None None false))
       "" false)
    (mkAlphaStatus 1 (Some (mkAlphaCanaryStatus 1 "r1" "" "" "v2" "" 1 1 2 1 CanaryStepStateUpgrade "" None
       FinalisingStepRouteTrafficToNew)) [] RolloutPhaseProgressing "").
Definition historyDeployment : Deployment := emptyDeployment.
Definition historyPod (name batch : string) (deleted : option Z) : Pod :=
  mkPod (mkMeta "default" name name 1 0 deleted [] [] None
    {[RolloutIDLabel := "r1"; RolloutBatchIDLabel := batch; "app" := "demo"]})%string "Running" [] "10.0.0.1" "node-1".
Definition historyWorld : HistoryWorld :=
  mkHistoryWorld historyRollout
    (historyDeployment <| dep_Selector := Some (mkLabelSelector {["app" := "demo"]}%string []) |>)
    [historyPod "demo-1" "1" None; historyPod "demo-2" "1" (Some 5); historyPod "demo-3" "2" None] None.

Definition historyKeyDemo : ObjectKey := ("default", "demo")%string.
Definition historyCreated : HistoryWorld := (rh_Reconcile historyKeyDemo historyWorld).2.

(** A release begins: its history is created. *)
Lemma history_once_witness :
  (Name ∘ rh_Meta) <$> histories historyCreated = ["demo-000000"%string]
  /\ NoDup (releaseOf <$> histories historyCreated).
Proof.
  split; [vm_compute; reflexivity|].
  apply (history_once historyKeyDemo historyWorld historyCreated (rh_Reconcile historyKeyDemo historyWorld).1).
  - intros rollout w1 Hget. injection Hget as <- <-. split; [reflexivity|]. intros id Hid. injection Hid as <-. reflexivity.
  - constructor.
  - apply surjective_pairing.
Defined.

Definition historyOpen : RolloutHistory :=
  mkHistory emptyMeta (mkHistorySpec (mkRolloutInfo "r1" emptyNamed) (mkHistoryWorkload "" "" emptyNamed) emptyNamed
    (mkTRInfo None None)) (mkHistoryStatus "" []).

(** Of three pods one is terminating and one of another batch. *)
Lemma recorded_steps_witness :
  exists infos w', recordStatusCanarySteps historyRollout historyOpen historyWorld = (Ok infos, w')
  /\ infos = [mkStepInfo 1 [mkHistoryPod "demo-1" "10.0.0.1" "node-1"]]
  /\ forall i info, infos !! i = Some info ->
       stepRecord historyRollout "r1" (podsOn historyWorld) (Z.of_nat i + 1) info.
Proof.
  assert (recordStatusCanarySteps historyRollout historyOpen historyWorld
    = (Ok [mkStepInfo 1 [mkHistoryPod "demo-1" "10.0.0.1" "node-1"]], historyWorld)) as Hrun
    by (vm_compute; reflexivity).
  eexists _, _. split; [exact Hrun|]. split; [reflexivity|].
  apply (recorded_steps historyRollout historyOpen
    (mkAlphaCanary [mkAlphaStep (mkAlphaTRStrategy None None None) None (mkAlphaPause None)] [] None None false)
    historyWorld historyWorld); [reflexivity|reflexivity|reflexivity|exact Hrun].
Defined.
