(* ===== verification/EventWitnesses.v ===== *)
(** * Witnesses for the event handlers

    Closed instances of the properties of EventProofs.v, in a world with one Deployment,
    the ReplicaSet it owns and a list of releases. *)

From S2P Require Import Sim ControllerWitnesses ControlWitnesses EventProofs.

Record EventWorld := mkEventWorld {
  ew_Deployment : Deployment;
  ew_ReplicaSet : ReplicaSet;
  ew_Releases : list BatchRelease;
  ew_Queue : list ObjectKey;
  ew_Expectations : ResourceStore
}.
#[local] Instance eta_EventWorld : Eta EventWorld := fun x =>
  mkEventWorld (ew_Deployment x) (ew_ReplicaSet x) (ew_Releases x) (ew_Queue x) (ew_Expectations x).

#[local] Instance ew_WorkQueue : WorkQueue EventWorld := fun key =>
  modify (fun w => w <| ew_Queue := ew_Queue w ++ [key] |>).
#[local] Instance ew_ReleaseList : ListApi EventWorld BatchRelease := fun ns _ w =>
  (Ok (filter (fun br => Namespace (br_Meta br) = ns) (ew_Releases w)), w).
#[local] Instance ew_Reader : ObjectReader EventWorld := fun gvk key w =>
  (if decide (gvk = ControllerKindRS) then Ok (OReplicaSet (ew_ReplicaSet w))
   else if decide (gvk = ControllerKindDep) then Ok (ODeployment (ew_Deployment w))
   else Err ErrNotFound, w).
#[local] Instance ew_HasExpectations : HasExpectations EventWorld :=
  {| expectationsOf := ew_Expectations; setExpectations st w := w <| ew_Expectations := st |> |}.
#[local] Instance ew_Group : GroupVersionParser := fun s =>
  Some (if String.eqb s "apps/v1" then "apps" else s)%string.
#[local] Instance ew_Decoder : RefDecoder := fun s =>
  match Unmarshal s with
  | Some ref => (ref, None)
  | None => (mkOwnerRef "" "" "" "" false, Some (ErrOther "unmarshal"))
  end.
#[local] Instance ew_DecoderLaws : RefDecoderLaws.
Proof. intros s ref E. unfold decodeRef, ew_Decoder. by rewrite E. Defined.

Definition eventRelease : BatchRelease :=
  demoRelease <| br_Spec := mkBRSpec (mkObjectRef "apps/v1" "Deployment" "web") (br_Plan demoRelease) |>.
Definition otherRelease : BatchRelease :=
  eventRelease <| br_Meta := (br_Meta eventRelease) <| Name := "other"%string |> <| UID := "uid-other"%string |> |>
    <| br_Spec := mkBRSpec (mkObjectRef "apps/v1" "Deployment" "else") (br_Plan demoRelease) |>.

(** What the release claims, and what nobody does. *)
Definition freeMeta : ObjectMeta := mkMeta (Namespace (br_Meta eventRelease)) "web" "uid-web" 1 0 None [] [] None ∅.
Definition claimedMeta : ObjectMeta :=
  freeMeta <| Annotations := Some {[BatchReleaseControlAnnotation := Marshal (releaseControllerRef eventRelease)]} |>.
Definition freeWorkload : WorkloadObject := ODeployment (emptyDeployment <| dep_Meta := freeMeta |>).
Definition claimedDeployment : Deployment := emptyDeployment <| dep_Meta := claimedMeta |>.
Definition claimedWorkload : WorkloadObject := ODeployment claimedDeployment.
Definition eventReplicaSet : ReplicaSet :=
  mkReplicaSet (freeMeta <| Name := "web-1"%string |>
      <| OwnerReferences := [mkOwnerRef "apps/v1" "Deployment" "web" "uid-web" true] |>)
    None 0 None emptyTemplate 0 0 0 [].
Definition eventPod : Pod :=
  mkPod (freeMeta <| Name := "web-1-1"%string |>
      <| OwnerReferences := [mkOwnerRef "apps/v1" "ReplicaSet" "web-1" "uid-rs" true] |>) "Running" [] "" "".
Definition eventWorld : EventWorld :=
  mkEventWorld claimedDeployment eventReplicaSet [otherRelease; eventRelease] [] ∅.
Definition wokenWorld : EventWorld := eventWorld <| ew_Queue := [keyOf (br_Meta eventRelease)] |>.

Definition generationEvent : UpdateEvent WorkloadObject :=
  mkUpdateEvent (ODeployment (claimedDeployment <| dep_Meta := claimedMeta <| Generation := 0 |> |>))
    claimedWorkload "1" "2".
Definition idleStatus : WorkloadStatus := mkWS 0 0 0 0 0 0 (ComputeHash emptyTemplate None) "".

Lemma eventRelease_proper : properRelease eventRelease.
Proof. split; [reflexivity|vm_compute; congruence]. Defined.
Lemma claimedMeta_claimed : claimedBy eventRelease claimedMeta.
Proof. split; vm_compute; congruence. Defined.

(** The claimed Deployment, a pod of it, and a free one wake the release. *)
Lemma workload_wakes_release_witness :
  handleWorkload claimedWorkload eventWorld = (Ok tt, wokenWorld)
  /\ workloadEventHandler_Update (mkUpdateEvent freeWorkload claimedWorkload "1" "2") eventWorld = (Ok tt, eventWorld)
  /\ workloadEventHandler_Update generationEvent eventWorld = (Ok tt, wokenWorld)
  /\ podEventHandler_Create (EvPod eventPod) eventWorld = (Ok tt, wokenWorld)
  /\ handleWorkload freeWorkload eventWorld = (Ok tt, wokenWorld).
Proof.
  destruct (workload_wakes_release (W := EventWorld) eventRelease eventRelease_proper) as (H1 & H2 & H3 & H4).
  split; [|split; [vm_compute; reflexivity|split; [|split]]].
  - rewrite H1; [vm_compute; reflexivity|vm_compute; congruence|exact claimedMeta_claimed|reflexivity].
  - rewrite (H2 generationEvent idleStatus idleStatus); [vm_compute; reflexivity|vm_compute; congruence
      |exact claimedMeta_claimed|reflexivity|vm_compute; congruence|reflexivity|reflexivity
      |left; vm_compute; congruence].
  - rewrite (H3 eventPod (mkOwnerRef "apps/v1" "ReplicaSet" "web-1" "uid-rs" true) claimedMeta eventWorld eventWorld);
      [vm_compute; reflexivity|reflexivity|reflexivity|vm_compute; reflexivity|exact claimedMeta_claimed].
  - edestruct (H4 freeWorkload ControllerKindDep [otherRelease; eventRelease] eventWorld eventWorld) as [Hone _];
      [reflexivity|reflexivity|vm_compute; reflexivity|].
    rewrite Hone; [vm_compute; reflexivity|apply elem_of_cons; right; apply elem_of_cons; by left|vm_compute; reflexivity|].
    intros br [->|[->|[]%not_elem_of_nil]%elem_of_cons]%elem_of_cons; [vm_compute; congruence|done].
Defined.

(** The Deployment that was created is seen after another one. *)
Definition ownedMeta (uid : string) : ObjectMeta :=
  freeMeta <| UID := uid |> <| OwnerReferences := [releaseControllerRef eventRelease] |>.
Definition createdDeployment : Deployment := emptyDeployment <| dep_Meta := ownedMeta "uid-canary" |>.

Lemma awaits_created_deployment_witness :
  let key := controllerKey eventRelease in
  let expecting := resource_Expect key Create "uid-canary" ∅ in
  fst (fst (resource_SatisfiedExpectations 5 6 key (observe expecting (ownedMeta "uid-else")))) = false
  /\ fst (fst (resource_SatisfiedExpectations 5 6 key
       (foldl observe expecting [ownedMeta "uid-else"; ownedMeta "uid-canary"]))) = true
  /\ getControllerKey (ownedMeta "uid-canary") = Some key.
Proof.
  destruct (awaits_created_deployment eventRelease createdDeployment
    [ownedMeta "uid-else"; ownedMeta "uid-canary"] ∅ 5 6) as [Hsat Hkey].
  { intros a. reflexivity. }
  assert (getControllerKey (ownedMeta "uid-canary") = Some (controllerKey eventRelease)) as Hown
    by (apply Hkey; reflexivity).
  split; [vm_compute; reflexivity|]. split; [|exact Hown].
  apply Hsat. exists (ownedMeta "uid-canary"). split; [apply elem_of_cons; right; apply elem_of_cons; by left|].
  split; [reflexivity|exact Hown].
Defined.
