(* ===== verification/AtomicWitnesses.v ===== *)
(** * Witnesses for atomic updates

    A file system of links, directories and files whose operations can be made to fail,
    and closed instances of the properties of AtomicProofs.v over it. *)

From S2P Require Import Sim AtomicProofs.

(** Every entry but those at the root lies in a directory. *)
Definition parentOk (fs : FileTree) (p : path) : bool :=
  match removelast p with [] => true | q => match fs !! q with Some NDir => true | _ => false end end.
Definition treeOk (fs : FileTree) : bool := forallb (fun kv => parentOk fs kv.1) (map_to_list fs).

Record FileWorld := mkFileWorld {
  fw_Files : FileTree;
  fw_Tree : treeOk fw_Files = true;
  fw_Seen : list FileTree;
  fw_Faults : list bool
}.

(** An operation on the files: it can be made to fail, and fails where it would leave an
    entry outside of a directory. *)
Definition fileOp {A : Type} (f : FileTree -> res A * FileTree) : M FileWorld A := fun w =>
  let refused := mkFileWorld (fw_Files w) (fw_Tree w) (fw_Seen w) (tail (fw_Faults w)) in
  if default false (head (fw_Faults w)) then (Err (ErrOther "input/output error"), refused) else
  match decide (treeOk (snd (f (fw_Files w))) = true) with
  | left Htree =>
      (fst (f (fw_Files w)),
       mkFileWorld (snd (f (fw_Files w))) Htree (snd (f (fw_Files w)) :: fw_Seen w) (tail (fw_Faults w)))
  | right _ => (Err (ErrOther "no such directory"), refused)
  end.

Definition refuse {A : Type} (fs : FileTree) : res A * FileTree := (Err (ErrOther "invalid argument"), fs).
Definition lstat (p : path) (fs : FileTree) : res unit * FileTree :=
  match fs !! p with Some _ => (Ok tt, fs) | None => (Err ErrNotFound, fs) end.
Definition readlink (p : path) (fs : FileTree) : res string * FileTree :=
  match fs !! p with Some (NLink t) => (Ok t, fs) | None => (Err ErrNotFound, fs) | _ => refuse fs end.
Definition readFile (p : path) (fs : FileTree) : res string * FileTree :=
  match fs !! p with Some (NFile d _) => (Ok d, fs) | None => (Err ErrNotFound, fs) | _ => refuse fs end.
Definition writeFile (p : path) (data : string) (mode : Z) (fs : FileTree) : res unit * FileTree :=
  match fs !! p with
  | None => (Ok tt, <[p := NFile data (Z.land mode 493)]> fs)
  | Some (NFile _ m) => (Ok tt, <[p := NFile data m]> fs)
  | _ => refuse fs
  end.
Definition chmod (p : path) (mode : Z) (fs : FileTree) : res unit * FileTree :=
  match fs !! p with
  | Some (NFile d _) => (Ok tt, <[p := NFile d mode]> fs)
  | Some NDir => (Ok tt, fs)
  | _ => refuse fs
  end.
Definition mkdir (fs : FileTree) (p : path) : FileTree := match fs !! p with None => <[p := NDir]> fs | Some _ => fs end.
Definition mkdirAll (p : path) (fs : FileTree) : res unit * FileTree := (Ok tt, foldl mkdir fs (subPaths p)).
Definition below (p : path) (fs : FileTree) : list path := filter (fun q => p `prefix_of` q) (map_to_list fs).*1.
Definition tempDir (dir : path) (stamp : string) (fs : FileTree) : res path * FileTree :=
  let q := (dir ++ [(stamp +:+ "1")%string])%list in
  if bool_decide (splitOn separator (stamp +:+ "1")%string = [(stamp +:+ "1")%string]) && bool_decide (below q fs = [])
  then (Ok q, <[q := NDir]> fs) else refuse fs.
Definition symlink (target : string) (p : path) (fs : FileTree) : res unit * FileTree :=
  match fs !! p with None => (Ok tt, <[p := NLink target]> fs) | Some _ => refuse fs end.
Definition rename (a b : path) (fs : FileTree) : res unit * FileTree :=
  match fs !! a with Some (NLink t) => (Ok tt, <[b := NLink t]> (delete a fs)) | _ => refuse fs end.
Definition removeFile (p : path) (fs : FileTree) : res unit * FileTree :=
  match fs !! p with Some _ => (Ok tt, delete p fs) | None => (Err ErrNotFound, fs) end.
Definition removeTree (p : path) (fs : FileTree) : res unit * FileTree :=
  (Ok tt, filter (fun kv => ~ p `prefix_of` kv.1) fs).

(** A directory of this name can neither be listed nor entered. *)
Definition lockedName : string := "locked".
Definition locked (root q : path) : bool :=
  existsb (fun k => bool_decide (root `prefix_of` take k q /\ last (take k q) = Some lockedName)) (seq 0 (length q)).

#[export] Instance fw_FileSystem : FileSystem FileWorld := {|
  os_Stat p := fileOp (lstat p);
  os_Lstat p := fileOp (lstat p);
  os_Readlink p := fileOp (readlink p);
  os_ReadFile p := fileOp (readFile p);
  os_WriteFile p data mode := fileOp (writeFile p data mode);
  os_Chmod p mode := fileOp (chmod p mode);
  os_MkdirAll p _ := fileOp (mkdirAll p);
  os_TempDir dir stamp := fileOp (tempDir dir stamp);
  os_Symlink target p := fileOp (symlink target p);
  os_Rename a b := fileOp (rename a b);
  os_Remove p := fileOp (removeFile p);
  os_RemoveAll p := fileOp (removeTree p);
  filepath_Walk root := fun w => (Ok (root :: filter (fun q => locked root q = false) (below root (fw_Files w))), w);
  time_Stamp := fun w => (Ok "..2025_01_01_00_00_00."%string, w)
|}.
#[export] Instance fw_History : FileHistory FileWorld := {|
  fsNow := fw_Files; fsSeen := fw_Seen; unlistable d := last d = Some lockedName
|}.

Lemma locked_hidden root q : locked root q = true -> hidden root q.
Proof.
  unfold locked. rewrite existsb_exists. intros (k & Hk & [Hroot Hlast]%bool_decide_eq_true).
  apply in_seq in Hk. exists (take k q). split; [exact Hlast|]. split; [done|]. split; [apply prefix_take|].
  intros E. apply (f_equal length) in E. rewrite length_take in E. lia.
Qed.

Lemma fileOp_does {A : Type} (f : FileTree -> res A * FileTree) (R : option (res A) -> FileTree -> FileTree -> Prop) :
  (forall fs, fst (f fs) <> Panic) ->
  (forall fs e, R (Some (Err e)) fs fs) ->
  (forall fs, R (Some (fst (f fs))) fs (snd (f fs)) /\ R None fs (snd (f fs))) ->
  does (fileOp f) R.
Proof.
  intros Hp Herr Hf w r w'. unfold fileOp. destruct (default false _).
  { intros [= <- <-]. split; [done|]. split; [by exists []|apply Herr]. }
  case_decide; intros [= <- <-]; (split; [done || apply Hp|]); [|split; [by exists []|apply Herr]].
  split; [|apply Hf]. exists [snd (f (fw_Files w))]. split; [done|].
  constructor; [apply Hf|done].
Qed.

Lemma elem_of_below p q fs : q ∈ below p fs <-> p `prefix_of` q /\ fs !! q <> None.
Proof.
  unfold below. rewrite list_elem_of_filter, list_elem_of_fmap. split.
  - intros [Hp ([q' n] & -> & Hq%elem_of_map_to_list)]. simpl in *. by rewrite Hq.
  - intros [Hp Hq]. split; [done|]. destruct (fs !! q) as [n|] eqn:E; [|done]. exists (q, n).
    by rewrite elem_of_map_to_list.
Qed.

Lemma mkdir_changes l fs q p :
  (forall x, x ∈ l -> x `prefix_of` p) ->
  foldl mkdir fs l !! q = fs !! q \/ (q `prefix_of` p /\ fs !! q = None /\ foldl mkdir fs l !! q = Some NDir).
Proof.
  revert fs. induction l as [|x l IH]; intros fs Hl; [by left|]. simpl.
  destruct (IH (mkdir fs x)) as [E|(Hq & Hn & E)]; [intros; apply Hl; by right|..].
  - rewrite E. unfold mkdir. destruct (fs !! x) as [n|] eqn:Ex; [by left|].
    destruct (decide (x = q)) as [->|Hne]; [|left; by rewrite lookup_insert_ne].
    right. rewrite lookup_insert_eq. split; [apply Hl; by left|done].
  - right. split; [done|]. split; [|done]. unfold mkdir in Hn. destruct (fs !! x) as [n|] eqn:Ex; [done|].
    destruct (decide (x = q)) as [->|Hne]; [done|]. by rewrite lookup_insert_ne in Hn.
Qed.

Lemma treeOk_spec fs p name : treeOk fs = true -> fs !! (p ++ [name])%list <> None -> fs !! p = Some NDir \/ p = [].
Proof.
  unfold treeOk. rewrite forallb_forall. intros Hall Hex. destruct (fs !! (p ++ [name])%list) as [n|] eqn:E; [|done].
  assert (Hin : In ((p ++ [name])%list, n) (map_to_list fs)) by (apply list_elem_of_In; by apply elem_of_map_to_list).
  specialize (Hall _ Hin). simpl in Hall. unfold parentOk in Hall. rewrite removelast_last in Hall.
  destruct p as [|x p]; [by right|left]. by destruct (fs !! (x :: p)) as [[]|].
Qed.

Lemma insert_others (fs : FileTree) p n q : q <> p -> <[p := n]> fs !! q = fs !! q.
Proof. intros Hne. by rewrite lookup_insert_ne. Qed.

#[export] Instance fw_Laws : FileLaws FileWorld.
Proof.
  split.
  - intros w p name. apply treeOk_spec, fw_Tree.
  - intros p. apply fileOp_does; unfold lstat; intros fs; [by destruct (fs !! p)|done|].
    by destruct (fs !! p) as [n|]; (split; (split; [done|])).
  - intros p. apply fileOp_does; unfold lstat; intros fs; [by destruct (fs !! p)|done|].
    destruct (fs !! p) as [n|] eqn:E; (split; (split; [done|])); simpl; intros _ a Ha; try done. by rewrite E.
  - intros p. apply fileOp_does; unfold readlink, refuse; intros fs; [by destruct (fs !! p) as [[]|]|done|].
    destruct (fs !! p) as [[]|] eqn:E; (split; (split; [done|])); simpl; intros _ a Ha; try done. injection Ha as <-. done.
  - intros p. apply fileOp_does; unfold readFile, refuse; intros fs; [by destruct (fs !! p) as [[]|]|done|].
    destruct (fs !! p) as [[]|] eqn:E; (split; (split; [done|])); simpl; intros _ a Ha; try done.
    injection Ha as <-. by rewrite E.
  - intros root w r w' [= <- <-]. split; [done|]. split; [by exists []|]. split; [done|]. split; [done|].
    intros _ a [= <-]. split.
    + intros q [->|Hq]%elem_of_cons; [by left|right]. apply list_elem_of_filter in Hq as [_ Hq].
      by apply elem_of_below in Hq.
    + intros q Hp Hq. destruct (locked root q) eqn:El; [right; by apply locked_hidden|left; right].
      apply list_elem_of_filter. split; [done|]. by apply elem_of_below.
  - intros w r w' [= <- <-]. split; [done|]. split; [by exists []|]. split; [done|]. intros _ a [= <-].
    exists 2%nat, "025_01_01_00_00_00."%string. split; [lia|reflexivity].
  - intros p data mode. apply fileOp_does; unfold writeFile, refuse; intros fs; [by destruct (fs !! p) as [[]|]|..].
    + intros e _ _. split; [done|]. split; [by left|done].
    + assert (Hland : Z.land (Z.land mode 493) (Z.lnot mode) = 0).
      { rewrite <- Z.land_assoc, (Z.land_comm 493), Z.land_assoc, Z.land_lnot_diag. apply Z.land_0_l. }
      destruct (fs !! p) as [[d m| |t]|] eqn:E; simpl; split; intros _ Hlink;
        (split; [by intros; try rewrite insert_others|]); rewrite ?lookup_insert_eq;
        (split; [first [by left|right; eexists _, _; split; [done|]; first [by left|right; by eexists]]|
           first [done|intros _; by eexists]]).
  - intros p mode. apply fileOp_does; unfold chmod, refuse; intros fs; [by destruct (fs !! p) as [[]|]|by left|].
    destruct (fs !! p) as [[d m| |t]|] eqn:E; simpl; split; intros _ _; try (by left); right; by exists d, m.
  - intros p mode. apply fileOp_does; unfold mkdirAll; intros fs; [done|by left|].
    split; intros _ _ q; apply mkdir_changes; intros x; apply elem_of_subPaths.
  - intros dir stamp. apply fileOp_does; unfold tempDir, refuse; intros fs; [by case_match|by left|].
    destruct (bool_decide (splitOn _ _ = _) && _) eqn:E; simpl; [|by split; left].
    apply andb_true_iff in E as [E1%bool_decide_eq_true E2%bool_decide_eq_true].
    assert (Hfresh : forall s, fs !! (dir ++ (stamp +:+ "1")%string :: s)%list = None).
    { intros s. destruct (fs !! _) as [n|] eqn:En; [|done]. exfalso.
      apply (not_elem_of_nil (dir ++ (stamp +:+ "1")%string :: s)%list). rewrite <- E2. apply elem_of_below.
      split; [exists s; by rewrite <- app_assoc|by rewrite En]. }
    split; intros _ _; right; exists "1"%string; repeat split; try done. by intros q [= <-].
  - intros target p. apply fileOp_does; unfold symlink, refuse; intros fs; [by destruct (fs !! p)|by left|].
    destruct (fs !! p) eqn:E; simpl; split; intros _; try (by left); by right.
  - intros a b. apply fileOp_does; unfold rename, refuse; intros fs; [by destruct (fs !! a) as [[]|]|by left|].
    split; intros _ _ target Ht; rewrite Ht; simpl; by right.
  - intros p. apply fileOp_does; unfold removeFile; intros fs; [by destruct (fs !! p)|by left|].
    destruct (fs !! p); simpl; split; intros _; by (left + right).
  - intros p. apply fileOp_does; unfold removeTree; intros fs; [done|by left|].
    assert (Hrem : forall q, filter (fun kv => ~ p `prefix_of` kv.1) fs !! q = fs !! q
      \/ (p `prefix_of` q /\ filter (fun kv => ~ p `prefix_of` kv.1) fs !! q = None)).
    { intros q. destruct (decide (p `prefix_of` q)) as [Hp|Hp].
      - right. split; [done|]. apply map_lookup_filter_None. right. intros n _ Hn. by apply Hn.
      - left. destruct (fs !! q) as [n|] eqn:E.
        + by apply map_lookup_filter_Some.
        + apply map_lookup_filter_None. by left. }
    by split; intros _.
Defined.

(** ** A directory of certificates with one version *)

Definition certsDir : path := ["certs"%string].
Definition oldFiles : FileTree := list_to_map
  [(certsDir, NDir);
   (["certs"; "..data"]%string, NLink "..2024_01");
   (["certs"; "..2024_01"]%string, NDir);
   (["certs"; "..2024_01"; "tls.key"]%string, NFile "old" 384);
   (["certs"; "..2024_01"; "ca.pem"]%string, NFile "ca" 420);
   (["certs"; "tls.key"]%string, NLink "..data/tls.key");
   (["certs"; "ca.pem"]%string, NLink "..data/ca.pem")].
Definition newPayload : gmap string FileProjection :=
  {["tls.key"%string := mkProjection "new" 384; "./tls.crt"%string := mkProjection "cert" 420]}.
Definition newClean : Payload :=
  {[["tls.key"%string] := mkProjection "new" 384; ["tls.crt"%string] := mkProjection "cert" 420]}.

#[export] Instance posix : Platform := false.

(** Checking a property of all entries. *)
Lemma all_entries {A : Type} (m : gmap path A) (check : path -> A -> bool) :
  forallb (fun kv => check kv.1 kv.2) (map_to_list m) = true -> forall p a, m !! p = Some a -> check p a = true.
Proof.
  rewrite forallb_forall. intros Hall p a Hp. apply (Hall (p, a)). apply list_elem_of_In.
  by apply elem_of_map_to_list.
Qed.

Lemma newClean_unreserved : unreserved newClean.
Proof.
  intros p [proj Hp]. apply (all_entries newClean (fun p _ => match p with
    | name :: _ => negb (String.prefix ".." name) | [] => false end)) in Hp; [|vm_compute; reflexivity].
  destruct p as [|name s]; [done|]. exists name, s. split; [done|]. by apply negb_true_iff.
Qed.

(** Names in a version are not reserved. *)
Definition visibleName (q : path) (_ : Node) : bool :=
  match q with _ :: _ :: name :: _ => negb (String.prefix ".." name) | _ => true end.

Lemma oldFiles_intact : intact certsDir oldFiles.
Proof.
  assert (Hlinks : forall q, isLink (oldFiles !! q) = true ->
    q ∈ [["certs"; "..data"]; ["certs"; "tls.key"]; ["certs"; "ca.pem"]]%string).
  { intros q Hq. destruct (oldFiles !! q) as [n|] eqn:E; [|done].
    apply (all_entries oldFiles (fun q n => negb (isLink (Some n))
      || bool_decide (q ∈ [["certs"; "..data"]; ["certs"; "tls.key"]; ["certs"; "ca.pem"]]%string))) in E;
      [|vm_compute; reflexivity]. rewrite Hq in E. simpl in E. by apply bool_decide_eq_true in E. }
  assert (Hno : forall q, q ∉ [["certs"; "..data"]; ["certs"; "tls.key"]; ["certs"; "ca.pem"]]%string ->
    isLink (oldFiles !! q) = false).
  { intros q Hq. apply not_true_is_false. by intros ?%Hlinks. }
  split.
  - intros q Hq. apply Hno. apply prefix_length in Hq. simpl in Hq.
    intros [->|[->|[->|[]%not_elem_of_nil]%elem_of_cons]%elem_of_cons]%elem_of_cons; simpl in Hq; lia.
  - intros ts Hts. assert (oldFiles !! dataDir certsDir = Some (NLink "..2024_01")) as Hcur by (vm_compute; reflexivity).
    rewrite Hcur in Hts. injection Hts as <-. split; [|split; [|split; [|split]]].
    + exists 2%nat, "024_01"%string. split; [lia|reflexivity].
    + vm_compute. reflexivity.
    + vm_compute. reflexivity.
    + intros s. apply Hno.
      by intros [[=]|[[=]|[[=]|[]%not_elem_of_nil]%elem_of_cons]%elem_of_cons]%elem_of_cons.
    + intros name s Hex. destruct (oldFiles !! (certsDir ++ _)%list) as [n|] eqn:E; [|done].
      pose proof (all_entries oldFiles visibleName ltac:(vm_compute; reflexivity) _ _ E) as Hname.
      apply negb_true_iff. exact Hname.
Qed.

Lemma oldFiles_tree : treeOk oldFiles = true.
Proof. vm_compute. reflexivity. Qed.
Definition fileWorld (faults : list bool) : FileWorld := mkFileWorld oldFiles oldFiles_tree [] faults.
Lemma fileWorld_intact faults : intact certsDir (fsNow (fileWorld faults)).
Proof. unfold fsNow, fw_History, fileWorld. cbn [fw_Files]. exact oldFiles_intact. Qed.
Definition afterWrite (faults : list bool) : res unit * FileWorld := Write certsDir newPayload (fileWorld faults).
(** Every operation works but the rename. *)
Definition failedRename : list bool := repeat false 14 ++ [true].
Definition contents (fs : FileTree) : list (option string) :=
  (fun name => visible fs certsDir [name]) <$> ["tls.key"; "ca.pem"; "tls.crt"]%string.

Lemma newPayload_valid : validatePayload newPayload = Ok newClean.
Proof. vm_compute. reflexivity. Defined.

(** A write replaces the files at once, and leaves them as they were when the rename
    fails. *)
Lemma write_atomic_witness :
  contents oldFiles = [Some "old"; Some "ca"; None]%string
  /\ fst (afterWrite []) = Ok tt
  /\ contents (fw_Files (snd (afterWrite []))) = [Some "new"; None; Some "cert"]%string
  /\ (forall fs, fs ∈ fw_Seen (snd (afterWrite failedRename)) ->
        intact certsDir fs /\ ((forall p, visibleFile fs certsDir p = visibleFile oldFiles certsDir p)
                               \/ shows newClean fs certsDir)).
Proof.
  destruct (write_atomic certsDir newPayload newClean (fileWorld []) (snd (afterWrite [])) (fst (afterWrite []))
    eq_refl (fileWorld_intact _) newPayload_valid newClean_unreserved (surjective_pairing _)) as (_ & _ & Hok).
  assert (fst (afterWrite []) = Ok tt) as Hrun by (vm_compute; reflexivity). destruct (Hok Hrun) as (Hcontents & Hgone & _).
  split; [vm_compute; reflexivity|]. split; [exact Hrun|]. split.
  - unfold contents. cbn [fmap list_fmap]. change (fw_Files (snd (afterWrite []))) with (fsNow (snd (afterWrite []))).
    rewrite (Hcontents ["tls.key"%string] (mkProjection "new" 384) ltac:(vm_compute; reflexivity)).
    rewrite (Hcontents ["tls.crt"%string] (mkProjection "cert" 420) ltac:(vm_compute; reflexivity)).
    destruct (Hgone ["ca.pem"%string] ltac:(vm_compute; reflexivity)) as [->|[Hsame _]]; [vm_compute; reflexivity|].
    exfalso. apply (f_equal (fun fs => visible fs certsDir ["tls.crt"%string])) in Hsame. vm_compute in Hsame. discriminate.
  - destruct (write_atomic certsDir newPayload newClean (fileWorld failedRename) (snd (afterWrite failedRename))
      (fst (afterWrite failedRename)) eq_refl (fileWorld_intact _) newPayload_valid newClean_unreserved
      (surjective_pairing _)) as (_ & (passed & Hseen & Hall) & _).
    intros fs Hfs. apply Hall. right. replace passed with (fw_Seen (snd (afterWrite failedRename))); [exact Hfs|].
    rewrite app_nil_r in Hseen. exact Hseen.
Defined.

(** A stale file below a directory that cannot be listed stays where there is nothing else
    to write. *)
Definition lockedFiles : FileTree := list_to_map
  [(certsDir, NDir);
   (["certs"; "..data"]%string, NLink "..2024_01");
   (["certs"; "..2024_01"]%string, NDir);
   (["certs"; "..2024_01"; "locked"]%string, NDir);
   (["certs"; "..2024_01"; "locked"; "kept"]%string, NFile "kept" 384);
   (["certs"; "..2024_01"; "locked"; "stale"]%string, NFile "stale" 384)].
Lemma lockedFiles_tree : treeOk lockedFiles = true.
Proof. vm_compute. reflexivity. Qed.
Example stale_file_stays :
  let run := Write certsDir {["locked/kept"%string := mkProjection "kept" 384]}
               (mkFileWorld lockedFiles lockedFiles_tree [] []) in
  fst run = Ok tt /\ visible (fsNow (snd run)) certsDir ["locked"; "stale"]%string = Some "stale"%string.
Proof. vm_compute. done. Qed.
