(* ===== verification/WebhookWitnesses.v ===== *)
(** * Witnesses for the certificates and the webhook controller

    Keys that are numbers and certificates that name their key, their signer, their names
    and their end; a world of files, a Secret, the two webhook configurations and some
    CRDs; and closed instances of the properties of CertProofs.v and WebhookProofs.v. *)

From S2P Require Import Sim ControlWitnesses CertProofs WebhookProofs AtomicWitnesses.

Abbreviation SimpleCertificate := (Z * Z * list string * Z)%type.
Definition pem {A} `{Countable A} (a : A) : string := bits (encode a).
Definition unpem {A} `{Countable A} (s : string) : option A := decode (ofBits s).
Lemma unpem_pem {A} `{Countable A} (a : A) : unpem (pem a) = Some a.
Proof. unfold unpem, pem. by rewrite ofBits_bits, decode_encode. Qed.

#[export] Instance simple_Crypto : Crypto := {|
  PrivateKey := Z;
  Certificate := SimpleCertificate;
  NotBefore _ := 0;
  CertPool := Z;
  X509KeyPair cert key :=
    match (unpem cert : option SimpleCertificate), (unpem key : option Z) with
    | Some (k, _, _, _), Some k' => Z.eqb k k'
    | _, _ => false
    end;
  CertPoolFromPEM s := match unpem s : option SimpleCertificate with Some (k, _, _, _) => Some k | None => None end;
  pem_Decode s := Some s;
  ParseCertificate s := unpem s;
  Verify c name pool time :=
    let '(_, signer, names, notAfter) := c in
    Z.eqb signer pool && (String.eqb name "" || bool_decide (name ∈ names)) && bool_decide (time <= notAfter);
  ParseRSAKeyPEM s := unpem s;
  ParseCertsPEM s := match unpem s with Some c => Some [c] | None => None end;
  EncodePrivateKeyPEM key := pem key;
  EncodeCertPEM c := pem c;
  ParseIPv4 _ := None;
  AddDate now years months := now + 12 * years + months
|}.

Record CertWorld := mkCertWorld { cw_Secret : option Secret; cw_Key : ObjectKey; cw_Fresh : Z }.

#[export] Instance cw_Clock : Clock CertWorld := fun w => (100, w).
#[export] Instance cw_Random : RandomInt CertWorld := fun n => ret (n - 1).
#[export] Instance cw_Crypto : CryptoOperations CertWorld := {|
  rsa_GenerateKey _ := fun w => (Ok (cw_Fresh w), mkCertWorld (cw_Secret w) (cw_Key w) (cw_Fresh w + 1));
  NewSelfSignedCACert name key := ret (key, key, [name], 1000);
  CreateCertificate t parent key signing := ret (key, signing, ct_DNSNames t, 500)
|}.
#[export] Instance cw_Secrets : Api CertWorld Secret := {|
  api_Get key w :=
    (match cw_Secret w with
     | Some s => if bool_decide (key = cw_Key w) then Ok s else Err ErrNotFound
     | None => Err ErrNotFound
     end, w);
  api_Create s w :=
    match cw_Secret w with
    | Some _ => (Err ErrAlreadyExists, w)
    | None => (Ok tt, mkCertWorld (Some s) (keyOf (sec_Meta s)) (cw_Fresh w))
    end;
  api_Update s w := (Ok tt, mkCertWorld (Some s) (keyOf (sec_Meta s)) (cw_Fresh w));
  api_UpdateStatus _ := ret tt;
  api_Patch _ _ := ret tt;
  api_Delete _ := ret tt
|}.
#[export] Instance cw_Store : SecretStore CertWorld := fun w key =>
  if bool_decide (key = cw_Key w) then cw_Secret w else None.

#[export] Instance cw_Laws : SecretLaws CertWorld.
Proof.
  split.
  - intros key w r w' [= <- <-]. split; [done|]. unfold secretOf, cw_Store.
    destruct (cw_Secret w) as [s|] eqn:E; simpl; case_bool_decide; (split; [by intros s' [=]; subst|]);
      intros e He; first [discriminate He|injection He as <-; done].
  - intros s w r w'. simpl. destruct (cw_Secret w); intros [= <- <-] u Hu; [discriminate Hu|].
    exists s. unfold secretOf, cw_Store. by rewrite bool_decide_true.
  - intros s w r w' [= <- <-] u _. exists s. unfold secretOf, cw_Store. by rewrite bool_decide_true.
  - by intros w r w' [= <- <-] key.
  - by intros n w r w' [= <- <-] key.
  - by intros n w r w' [= <- <-] key.
  - by intros name key w r w' [= <- <-] k.
  - by intros t parent key signing w r w' [= <- <-] k.
Defined.

(** A Secret with a valid CA and a certificate for another name. *)
Definition demoKey : ObjectKey := ("kruise-rollout", "certs")%string.
Definition demoCA : SimpleCertificate := (1, 1, ["webhook-cert-ca"%string], 1000).
Definition demoSecret : Secret :=
  certsToSecret (mkArtifacts (Some (pem 2)) (Some (pem (2, 1, ["other"%string], 500)))
    (Some (pem 1)) (Some (pem demoCA)) "") demoKey.
Definition certWorld : CertWorld := mkCertWorld (Some demoSecret) demoKey 10.
Definition ensured := secret_EnsureCert demoKey "webhook.svc" (newGenerator, certWorld).
Definition renewedCerts : Artifacts :=
  mkArtifacts (Some (pem 10)) (Some (pem (10, 1, ["localhost"; "webhook.svc"]%string, 500)))
    (Some (pem 1)) (Some (pem demoCA)) "".

(** The certificate is renewed, and its CA remains. *)
Lemma secret_agrees_witness :
  fst ensured = Ok (renewedCerts, true)
  /\ (exists s, secretOf (snd (snd ensured)) demoKey = Some s /\ certData (secretToCerts s) = certData renewedCerts)
  /\ art_CACert renewedCerts = Some (pem demoCA).
Proof.
  assert (ensured = (Ok (renewedCerts, true), snd ensured)) as Hrun by (vm_compute; reflexivity).
  destruct (secret_agrees demoKey "webhook.svc" newGenerator (fst (snd ensured)) certWorld (snd (snd ensured))
    renewedCerts true) as (Hstored & _ & Hca).
  { rewrite <- surjective_pairing. exact Hrun. }
  split; [rewrite Hrun; reflexivity|]. split; [exact Hstored|].
  apply (Hca demoSecret (pem demoCA) (pem 1) 1 demoCA); [vm_compute; reflexivity..| |reflexivity].
  intros w w1 now Hnow. vm_compute in Hnow. injection Hnow as <- <-. vm_compute. reflexivity.
Defined.

(** ** The environment of the controller *)

(** ** The environment *)

#[export] Instance sync_Environment : Environment := {|
  Getenv name :=
    if String.eqb name "WEBHOOK_CERT_DIR" then "certs"
    else if String.eqb name "SECRET_NAME" then "certs" else "";
  ParseInt32 _ := None
|}.
#[export] Instance sync_UrlParser : UrlParser := fun _ => None.
#[export] Instance sync_Kinds : KnownKinds := fun gvk => String.eqb (RolloutUtil.Group gvk) "rollouts.kruise.io".

#[export] Instance ServiceReference_countable : Countable ServiceReference.
Proof.
  apply (inj_countable' (fun s => (svr_Namespace s, svr_Name s, svr_Path s, svr_Port s))
    (fun '(ns, n, p, port) => mkServiceRef ns n p port)). by intros [].
Defined.
#[export] Instance ClientConfig_countable : Countable WebhookClientConfig.
Proof.
  apply (inj_countable' (fun c => (wcc_URL c, wcc_Service c, wcc_CABundle c))
    (fun '(u, s, ca) => mkClientConfig u s ca)). by intros [].
Defined.
#[export] Instance Webhook_countable : Countable Webhook.
Proof.
  apply (inj_countable' (fun wh => (wh_Rest wh, wh_ClientConfig wh)) (fun '(r, c) => mkWebhook r c)). by intros [].
Defined.
#[export] Instance sync_JsonWebhooks : Json (list Webhook) := {| Marshal := pem; Unmarshal := unpem |}.

(** ** A webhook configuration *)

Definition pathConfig (path : string) : WebhookClientConfig :=
  mkClientConfig None (Some (mkServiceRef "system" "webhook" (Some path) None)) None.
Definition handledHook : Webhook := mkWebhook "vrollout.kb.io" (pathConfig "/validate-rollout").
Definition orphanHook : Webhook := mkWebhook "old.kb.io" (pathConfig "/validate-old").
Definition hookConfig kind : HookConfiguration kind :=
  mkHookConfiguration (mkMeta "" (hookName kind) "uid-hooks" 1 0 None [] [] None ∅) [handledHook; orphanHook].
Definition syncHandlers : gset string := {["/validate-rollout"%string]}.
Definition keptHook : Webhook :=
  mkWebhook "vrollout.kb.io" (mkClientConfig None
    (Some (mkServiceRef "kruise-rollout" "kruise-rollout-webhook-service" (Some "/validate-rollout"%string) None))
    (Some (pem demoCA))).
Definition writtenConfig : HookConfiguration Validating :=
  mkHookConfiguration
    ((hc_Meta (hookConfig Validating))
       <| Annotations := Some {[templateAnnotation := Marshal [handledHook; orphanHook]]} |>) [keptHook].

(** The webhook without a handler comes back with its handler. *)
Lemma configuration_stable_witness :
  desired syncHandlers (Some (pem demoCA)) (hookConfig Validating) = Ok writtenConfig
  /\ desired {["/validate-old"%string]} None writtenConfig
     = desired {["/validate-old"%string]} None (hookConfig Validating)
  /\ desired syncHandlers (Some (pem demoCA)) writtenConfig = Ok writtenConfig
  /\ changed writtenConfig writtenConfig = false.
Proof.
  assert (desired syncHandlers (Some (pem demoCA)) (hookConfig Validating) = Ok writtenConfig) as Hok
    by (vm_compute; reflexivity).
  split; [exact Hok|].
  apply (configuration_stable (hookConfig Validating) writtenConfig syncHandlers {["/validate-old"%string]}
    (Some (pem demoCA)) None); [vm_compute; reflexivity|apply unpem_pem|exact Hok].
Defined.

(** ** A world *)

Record SyncWorld := mkSyncWorld {
  sw_Files : FileWorld;
  sw_Certs : CertWorld;
  sw_Mutating : HookConfiguration Mutating;
  sw_Validating : HookConfiguration Validating;
  sw_CRDs : list CustomResourceDefinition;
  sw_Inited : bool
}.
#[local] Instance eta_SyncWorld : Eta SyncWorld := fun x =>
  mkSyncWorld (sw_Files x) (sw_Certs x) (sw_Mutating x) (sw_Validating x) (sw_CRDs x) (sw_Inited x).

Definition onFiles {A : Type} (m : M FileWorld A) : M SyncWorld A := fun w =>
  (fst (m (sw_Files w)), w <| sw_Files := snd (m (sw_Files w)) |>).
Definition onCerts {A : Type} (m : M CertWorld A) : M SyncWorld A := fun w =>
  (fst (m (sw_Certs w)), w <| sw_Certs := snd (m (sw_Certs w)) |>).

#[local] Instance sw_FileSystem : FileSystem SyncWorld := {|
  os_Stat p := onFiles (os_Stat p);
  os_Lstat p := onFiles (os_Lstat p);
  os_Readlink p := onFiles (os_Readlink p);
  os_ReadFile p := onFiles (os_ReadFile p);
  os_WriteFile p data mode := onFiles (os_WriteFile p data mode);
  os_Chmod p mode := onFiles (os_Chmod p mode);
  os_MkdirAll p mode := onFiles (os_MkdirAll p mode);
  os_TempDir dir stamp := onFiles (os_TempDir dir stamp);
  os_Symlink target p := onFiles (os_Symlink target p);
  os_Rename a b := onFiles (os_Rename a b);
  os_Remove p := onFiles (os_Remove p);
  os_RemoveAll p := onFiles (os_RemoveAll p);
  filepath_Walk root := fun w => (Ok (root :: below root (fw_Files (sw_Files w))), w);
  time_Stamp := onFiles time_Stamp
|}.
#[local] Instance sw_History : FileHistory SyncWorld :=
  {| fsNow w := fsNow (sw_Files w); fsSeen w := fsSeen (sw_Files w); unlistable _ := False |}.
#[local] Instance sw_Listable : Listable SyncWorld.
Proof. by intros d []. Defined.

Lemma does_onFiles {A : Type} (m : M FileWorld A) (R : option (res A) -> FileTree -> FileTree -> Prop) :
  does m R -> does (onFiles m) R.
Proof. intros Hm w r w' [= <- <-]. apply (Hm (sw_Files w)). apply surjective_pairing. Qed.

#[local] Instance sw_FileLaws : FileLaws SyncWorld.
Proof.
  split; intros; try (apply does_onFiles).
  - by eapply (fs_tree (sw_Files w)).
  - apply Stat_law.
  - apply Lstat_law.
  - apply Readlink_law.
  - apply ReadFile_law.
  - intros w r w' [= <- <-]. split; [done|]. split; [by exists []|]. split; [done|]. split; [done|].
    intros _ a [= <-]. split.
    + intros q [->|Hq]%elem_of_cons; [by left|right]. by apply elem_of_below in Hq.
    + intros q Hp Hq. left. right. by apply elem_of_below.
  - apply Stamp_law.
  - apply WriteFile_law.
  - apply Chmod_law.
  - apply MkdirAll_law.
  - apply TempDir_law.
  - apply Symlink_law.
  - apply Rename_law.
  - apply Remove_law.
  - apply RemoveAll_law.
Defined.

#[local] Instance sw_Clock : Clock SyncWorld := fun w => (fst (cw_Clock (sw_Certs w)), w).
#[local] Instance sw_Random : RandomInt SyncWorld := fun n => onCerts (rand_Int n).
#[local] Instance sw_Crypto : CryptoOperations SyncWorld := {|
  rsa_GenerateKey n := onCerts (rsa_GenerateKey n);
  NewSelfSignedCACert name key := onCerts (NewSelfSignedCACert name key);
  CreateCertificate t parent key signing := onCerts (CreateCertificate t parent key signing)
|}.
#[local] Instance sw_Secrets : Api SyncWorld Secret := {|
  api_Get key := onCerts (api_Get key);
  api_Create s := onCerts (api_Create s);
  api_Update s := onCerts (api_Update s);
  api_UpdateStatus s := onCerts (api_UpdateStatus s);
  api_Patch m p := onCerts (api_Patch (O := Secret) m p);
  api_Delete key := onCerts (api_Delete (O := Secret) key)
|}.

#[local] Instance sw_Hooks : HookStore SyncWorld := fun kind w =>
  Some (match kind with Mutating => sw_Mutating w | Validating => sw_Validating w end).
#[local] Instance sw_MutatingApi : Api SyncWorld (HookConfiguration Mutating) := {|
  api_Get _ := fun w => (Ok (sw_Mutating w), w);
  api_Create _ := ret tt;
  api_Update config := modify (fun w => w <| sw_Mutating := config |>);
  api_UpdateStatus _ := ret tt;
  api_Patch _ _ := ret tt;
  api_Delete _ := ret tt
|}.
#[local] Instance sw_ValidatingApi : Api SyncWorld (HookConfiguration Validating) := {|
  api_Get _ := fun w => (Ok (sw_Validating w), w);
  api_Create _ := ret tt;
  api_Update config := modify (fun w => w <| sw_Validating := config |>);
  api_UpdateStatus _ := ret tt;
  api_Patch _ _ := ret tt;
  api_Delete _ := ret tt
|}.
#[local] Instance sw_MutatingLaws : ConfigurationLaws SyncWorld Mutating.
Proof.
  split.
  - intros w r w' [= <- <-]. by split; [|intros config [= <-]].
  - intros config w r w' [= <- <-]. split; [done|]. split; [by intros []|done].
Defined.
#[local] Instance sw_ValidatingLaws : ConfigurationLaws SyncWorld Validating.
Proof.
  split.
  - intros w r w' [= <- <-]. by split; [|intros config [= <-]].
  - intros config w r w' [= <- <-]. split; [done|]. split; [by intros []|done].
Defined.

#[local] Instance sw_CRDList : ListApi SyncWorld CustomResourceDefinition := fun _ _ w => (Ok (sw_CRDs w), w).
#[local] Instance sw_CRDApi : Api SyncWorld CustomResourceDefinition := {|
  api_Get _ := fail ErrNotFound;
  api_Create _ := ret tt;
  api_Update crd := modify (fun w => w <| sw_CRDs := (fun old =>
    if String.eqb (Name (crd_Meta old)) (Name (crd_Meta crd)) then crd else old) <$> sw_CRDs w |>);
  api_UpdateStatus _ := ret tt;
  api_Patch _ _ := ret tt;
  api_Delete _ := ret tt
|}.
#[local] Instance sw_Queue : WebhookQueue SyncWorld := {|
  wq_Add _ := ret tt;
  wq_Get := ret (""%string, false);
  wq_AddAfter _ _ := ret tt;
  wq_AddRateLimited _ := ret tt;
  wq_Forget _ := ret tt;
  wq_Done _ := ret tt;
  closeInited := modify (fun w => w <| sw_Inited := true |>)
|}.
#[local] Instance sw_Apart : ApartLaws SyncWorld.
Proof.
  split.
  - by intros ns sel w r w' [= <- <-].
  - by intros crd w r w' [= <- <-].
  - by intros w r w' [= <- <-].
Defined.

(** ** One synchronisation *)

Definition rolloutCRD : CustomResourceDefinition :=
  mkCRD (mkMeta "" "rollouts.rollouts.kruise.io" "uid-crd" 1 0 None [] [] None ∅) "rollouts.kruise.io" "Rollout"
    ["v1beta1"%string] (Some ("Webhook"%string, None)).
Definition syncWorld : SyncWorld :=
  mkSyncWorld (fileWorld []) certWorld (hookConfig Mutating) (hookConfig Validating) [rolloutCRD] false.
Definition afterSync : res unit * SyncWorld := webhook_sync syncHandlers syncWorld.
Definition syncedFiles : FileTree := fsNow (snd afterSync).

#[local] Instance Node_eq_dec : EqDecision Node.
Proof. solve_decision. Defined.
Definition resultCA (r : res (Artifacts * bool)) : option string :=
  match r with Ok (certs, _) => art_CACert certs | _ => None end.
Lemma ensured_CA : resultCA (fst (ensureCerts syncWorld)) = Some (pem demoCA).
Proof. vm_compute. reflexivity. Qed.
Lemma ensured_files : fsNow (snd (ensureCerts syncWorld)) = oldFiles.
Proof. apply (bool_decide_eq_true_1 (fsNow (snd (ensureCerts syncWorld)) = oldFiles)). vm_compute. reflexivity. Qed.

(** The server has the renewed certificates, and the API server trusts the CA that it
    already trusted. *)
Lemma sync_agrees_witness :
  fst afterSync = Ok tt
  /\ intact certsDir syncedFiles
  /\ (exists certs, holds certsDir syncedFiles certs /\ art_CACert certs = Some (pem demoCA)
      /\ forall kind, exists config, configOf kind (snd afterSync) = Some config /\ trusts (art_CACert certs) config)
  /\ sw_Inited (snd afterSync) = true.
Proof.
  assert (fst afterSync = Ok tt) as Hok by (vm_compute; reflexivity).
  destruct (sync_agrees syncHandlers syncWorld (snd afterSync) eq_refl) as (certs & changed & w1 & Hensured & Hagree).
  { rewrite <- Hok. apply surjective_pairing. }
  change (ensureCerts syncWorld = (Ok (certs, changed), w1)) in Hensured.
  assert (fsNow w1 = oldFiles) as Hfs.
  { pose proof ensured_files as Hfiles. rewrite Hensured in Hfiles. exact Hfiles. }
  assert (art_CACert certs = Some (pem demoCA)) as Hca.
  { pose proof ensured_CA as HCA. rewrite Hensured in HCA. exact HCA. }
  destruct Hagree as (Hintact & Hholds & Htrusts); [rewrite Hfs; exact oldFiles_intact|].
  split; [exact Hok|]. split; [exact Hintact|]. split; [|vm_compute; reflexivity].
  exists certs. split; [exact Hholds|]. split; [exact Hca|exact Htrusts].
Defined.
